(* ===== verification/_CoqProject ===== *)
-Q . S2P
Prelude.v
RbpfIsa.v
Rbpf.v
RbpfVerify.v
RbpfEngine.v
RbpfSafety.v
RbpfDemo.v
Flash.v
XipFs.v
XipFsSpec.v
XipFsOps.v
XipFsAdmin.v
XipFsRemove.v
XipFsDemo.v
Crt0.v
Crt0Spec.v
Bitarithm.v
Ring.v
Lists.v
ClistSort.v
Kernel.v
KernelSync.v
KernelMsg.v
KernelInv.v
KernelRun.v
KernelCalls.v
KernelMsgCalls.v
KernelMachine.v
KernelSpec.v
KernelInbox.v
KernelThreads.v
KernelDemo.v
Shell.v
ShellSpec.v
XipFsShell.v
Base64.v
XipFsLoad.v
XipFsUpload.v
XipFsCopy.v
ShellDemo.v
Pip.v
SafeExec.v
SafeExecSpec.v
SafeExecMem.v
SafeExecRun.v
StdRiot.v
Exec.v
ExecSpec.v
RunDemo.v
Bench.v
BenchSpec.v
BenchRun.v
BenchDemo.v
Fletcher.v
Tsrb.v
Isrpipe.v
Ztimer.v
ZtimerSpec.v
ZtimerOps.v
ZtimerFire.v
ZtimerDemo.v
ContextSwitch.v
ContextSwitchSpec.v
ContextSwitchRun.v
ContextSwitchDemo.v
Saul.v
