(* ===== verification/Prelude.v ===== *)
(** * PRR: a verification of the Pip / RIOT / rBPF artifact

    PRR runs the RIOT operating system as a partition of the Pip separation kernel
    on a Cortex-M4, keeps programs in flash in an execute-in-place file system,
    starts position-independent binaries from there, and executes rBPF bytecode in a
    small virtual machine.  This development models the parts of that system that
    are its own logic, in C, function by function, and proves what they promise.

    ** The parts and how they interact

    - _rBPF_ (06-rbpf-bench/src/RIOT/sys).  The host sets up an application
      object with a list of memory regions; the verifier makes one pass over the text;
      the interpreter executes it and checks each access against the regions.
      [RbpfIsa] has the instruction word and the opcodes (instruction.h), [Rbpf] the
      application object, the region list and the access checks (rbpf.h, rbpf.c and the
      start of engine.c), [RbpfVerify] the verifier (verify.c), [RbpfEngine]
      the interpreter (engine.c, rbpf_application_run_ctx), [RbpfSafety] the theorems on
      verifier and interpreter together, [RbpfDemo] applications that are assembled,
      loaded and run.
    - _Benchmark_ (06-rbpf-bench/main.c, 08-fletcher32).  [Bench] has the program that
      loads bytecode from a file, gives it memory and runs it any number of times;
      [BenchSpec] what its parts do to memory and regions, [BenchRun] its theorems,
      [BenchDemo] executions; [Fletcher] has the checksum that is run as bytecode.
    - _Flash and file system_ (RIOT/cpu/*_pip/periph/flashpage.c,
      RIOT/drivers/periph_common/flashpage.c, RIOT/sys/gnrc_xipfs).  [Flash] has
      the page driver over a controller of which the class [Nvmc] states what the data
      sheet promises; [XipFs] has every function of gnrc_xipfs.c as a command over the
      static variables and the flash; [XipFsSpec] defines the layout on flash, its
      abstraction to a list of files and file creation; [XipFsOps] has search and
      writes, [XipFsAdmin] status changes, formatting, clean-up and mounting,
      [XipFsRemove] removal; [XipFsDemo] evaluates a small file system.
    - _Shell and upload_ (RIOT/sys/shell, RIOT/dist/tools/pyterm).  [Shell] has
      shell.c: the line reader, the in-place tokenizer, the look-up of commands and the
      command loop; [ShellSpec] its grammar, its theorems and a logic of scripts;
      [XipFsShell] the commands on the file system (mkbin, ldbin, rm, cp, cat, df, ls,
      fmtbin, hexdump); [Base64] the host side, put and run of pyterm with the encoding
      they use; [XipFsLoad] what mkbin and ldbin do to a file system, [XipFsUpload] the
      composition of all of these in one upload, [XipFsCopy] cp and cat; [ShellDemo] has
      executions.
    - _Running programs_ (RIOT/sys/shell/cmds/safe_exec.c and exec.c,
      RIOT/sys/saul_reg, 06-rbpf-bench/stdriot).  [Pip] has the services of the separation
      kernel as a class with the laws RIOT relies on, and a kernel that satisfies them;
      [SafeExec] the command that builds a partition around a file, runs it, serves its
      system calls and takes the partition down; [Exec] the command that jumps to a file
      directly; [StdRiot] the system calls on the side of the program.  [SafeExecSpec]
      has the partition, [SafeExecMem] the memory and [SafeExecRun] the runs,
      [ExecSpec] the direct command, [RunDemo] a machine with children that run on it;
      [Saul] has the sensor registry as the devices it links.
    - _Start-up code_ (06-rbpf-bench/crt0).  [Crt0] has _start with the section layout
      and the relocation of the image, [Crt0Spec] what a load establishes.
    - _Kernel library_ (RIOT/core/lib).  [Bitarithm] has bitarithm.c and .h, [Ring] the
      ring buffer and the circular index buffer (Modules [RingBuffer], [Cib]),
      [Lists] list.h, clist.h and priority_queue.c over a store of next pointers,
      [ClistSort] the merge sort of clist.c on that store.
    - _Kernel_ (RIOT/core).  [Kernel] has the state and sched.c, thread.c and
      kernel_init; [KernelSync] mutex.c, rmutex.c, cond.c and thread_flags.c; [KernelMsg]
      msg.c, mbox.c and msg_bus.c.  The kernel uses the lists, the bit
      functions and the index buffers of the library: the model keeps wait lists and run
      queues as lists of threads, which is what [Lists.clist_refines] shows the pointer
      operations to implement, and uses the index buffers and bit functions as they are.
      [KernelInv] states the invariant and the lemmas on the primitives; [KernelRun]
      the scheduler and the logic of programs that may be interrupted; [KernelCalls] and
      [KernelMsgCalls] show that each function keeps the invariant; [KernelMachine]
      puts threads, interrupts and the scheduler together; [KernelSpec], [KernelInbox]
      and [KernelThreads] say what the functions do; [KernelDemo] has executions.
    - _Port to Pip_ (RIOT/cpu/cortexm_common_pip, nrf52_pip/vectors, RIOT/sys/newlib_syscalls_default).
      [ContextSwitch] has the stack of a new thread, the PendSV handler, the interrupt
      dispatchers, the handler table and the heap; [ContextSwitchSpec] what a new stack
      is, [ContextSwitchRun] the machine of threads that are switched and interrupted over a
      Pip that saves contexts, [ContextSwitchDemo] executions.
    - _System library_ (RIOT/sys/tsrb, isrpipe, ztimer).  [Tsrb] has the ring buffer shared
      with interrupts, [Isrpipe] the pipe the console reads from, as steps of a reader and
      of writers that interrupt it; [Ztimer] the timers over a hardware counter that is
      a parameter, [ZtimerSpec] the list of timers as deadlines, [ZtimerOps] setting and
      removing, [ZtimerFire] the interrupt and the extension of narrow counters,
      [ZtimerDemo] executions.

    This file has what all of them share: machine words, byte memory, results with errors
    and the command monad.

    ** How the code is modelled

    A C integer of [w] bits is a [Z] with its wrap-around written out ([wrap], [signed]);
    conversions between widths and signedness are explicit.  Memory that programs address
    is a map of bytes; objects the host allocates are records at addresses, linked by the
    pointers the code stores.  [0] is the null pointer.  Where a program could reach such an
    object through memory, its bytes are known and an access that hits them is an explicit
    error: [UB_object] for the application struct and the region nodes of rBPF, [Overwritten]
    for the variables, the stack and the handler table of the commands that run programs
    ([command_objects]); an access RIOT makes where its memory protection maps nothing is
    [Unmapped].  So the theorems either show that no access reaches the object or
    have the error among the outcomes.  C undefined behaviour and
    failed assertions are values of an error type ([ub], [kerr] and the like), never an
    arbitrary result.  Code that runs to its end is a command ([cmd]): state in, result and
    state or an error out.

    The kernel disables interrupts for stretches of code and calls
    [thread_yield_higher] at points where another thread may go on.  A [kcmd] is such a
    stretch, a [kprog] a resumption made of them: [Ret] ends it, [Atomic] runs a
    stretch, [Yield] gives up the processor.  [thread_yield_higher] of the port asks Pip to
    raise the PendSV handler of the partition, whose effect is [sched_run]; Pip itself is
    not in the repository.  [KernelMachine.step] lets any thread make any call whose
    promise the caller keeps (below), interrupt handlers run between any two stretches and the
    scheduler switch at every
    [Yield], after an interrupt that asks for it and when no thread is active.

    The configuration is that of the port: 32-bit ARM with the CLZ instruction, 16
    priorities and 32 threads, messages and thread flags, no idle thread, no DEVELHELP, no
    priority inheritance, no scheduler callbacks, assertions enabled.

    Loops that follow pointers or flash pages have fuel.  In the rBPF verifier it is
    the number of text slots, in the file system the number of flash pages
    ([max_files]), in the kernel lists the length of the list, in the shell the length of
    the input and of the line buffer; the theorems show these to be enough.  The interpreter's fuel is bounded by the theorem on its
    termination, from the branch limit and the text length.  The loop of [_mbox_put] runs
    once per time its thread is woken, so its fuel is a parameter of the call and the
    theorems hold for every fuel; so is the number of traps of a child, which nothing bounds.

    ** What the theorems show

    - rBPF: when the application struct and the region nodes lie apart from the regions,
      no access reaches them and memory outside the writable regions is never written
      ([RbpfEngine.engine_isolation]); a program the stated conditions hold of
      terminates within the branch limit with a result code
      ([RbpfSafety.engine_run_total]) and never leaves its text
      ([RbpfSafety.engine_stays_in_text]); what an accepting verifier guarantees
      ([RbpfSafety.preflight_safe], [RbpfVerify.preflight_verdict]) and, by concrete
      programs, what it does not; the access check, region set-up and insertion.
    - Benchmark: a run of the whole program changes its own objects and what the header
      of the file claims, nothing else ([BenchRun.main_isolated]), and it ends
      ([BenchRun.main_returns]); executions show what the variables it leaves unassigned and
      the header it does not check allow; the checksum is Fletcher's
      ([Fletcher.fletcher32_correct]).
    - File system: creation, removal, writing, search, formatting, clean-up and status
      changes implement the operations on the list of files; the page driver stores what
      it is given; three executions show the cases the code does not handle.
    - Shell: the line reader stays in its buffer on every input and returns what its
      documentation says unless a deletion follows an overflow ([ShellSpec.readline_refines];
      [ShellDemo] has the exception), the tokenizer implements
      its documented grammar and undoes quoting, cp and cat copy and print the contents of
      files; and an upload is faithful from end to end ([XipFsUpload.put_loads_file]): the
      script the host writes, encoded and typed into the shell, leaves exactly the bytes of the
      host file, for ASCII names not in use and when no earlier upload was broken off.
    - Running programs: a run that comes to its end without overwriting the variables of
      the command gives RIOT back its memory blocks, handlers and interrupts
      ([SafeExecRun.safe_exec_restores]); a child that keeps to its
      blocks and names only them in system calls cannot change RIOT, after any number of traps
      and also if it never exits
      ([SafeExecRun.child_isolated]), one that names others can ([RunDemo.memset_escapes],
      [RunDemo.memset_overwrites]);
      arguments arrive; the stub of a program traps with its arguments
      ([StdRiot.stub_call_traps]); the direct command gives the memory back unless the program
      overwrites its variables or exits with another register 10; the sensor
      registry is a list ([Saul.registry_refines]).
    - Start-up: a load relocates every pointer, copies and clears the data, advances the two
      members of the memory description and touches nothing else.
    - Library: all bit-function variants agree with a reference; ring buffer, index buffer,
      lists and priority queue implement queues and lists; the merge sort of circular lists
      ends, sorts and is stable ([ClistSort.clist_sort_correct]).
    - Kernel: the invariant of lists, statuses, run-queue bits, thread table and mutexes
      in every state reachable with callers that keep their promises
      ([KernelMachine.reachable_invariant]); the scheduler
      runs the most urgent thread and equals take turns; mutexes hand over to the first of a
      line sorted by priority; a receive takes the first of all pending messages and a send
      appends, blocks or is refused by the state of its target; [thread_create]
      and its errors; the protocol of thread flags.
    - Port to Pip: a new stack is a suspended thread ([ContextSwitchSpec.stack_init_suspends]);
      in every reachable state a switch restores the registers the thread was suspended with
      ([ContextSwitchRun.threads_resume]), and the dispatchers run the handler and restore what
      they interrupted ([ContextSwitchRun.interrupt_returns]).  Running code and handlers may
      write anywhere, stacks of suspended threads included, but for the saved contexts and
      entry 9 of the handler table, and frames must fit their stacks.
    - System library: the ring buffer is a bounded queue also when its counters wrap
      ([Tsrb.tsrb_refines_queue]); no interleaving loses a byte or a wake-up of the pipe
      ([Isrpipe.pipe_delivers]); setting and removing timers moves no other deadline and
      an interrupt fires what is due in order ([ZtimerOps.ztimer_set_refines],
      [ZtimerOps.ztimer_remove_refines], [ZtimerFire.handler_fires]), with exact time on
      narrow counters ([ZtimerFire.now_extend_exact]).

    The promises a caller keeps, which the code relies on without a test, are conditions of
    the steps of [KernelMachine] and not of the code: an unused control block for
    [thread_create] ([fresh_tcb]), a ready thread first in its run queue for
    [sched_change_priority] ([first_or_blocked]), no waiter on an object that is initialised
    ([nobody_waits]), an existing other thread as target of [msg_send_receive] ([reachable]) and
    a request that was received for replies ([reply_ready]).  For [sched_change_priority] and
    [msg_send_receive] the executions in [KernelDemo] show what happens otherwise.

    ** What is not modelled

    Pip (a submodule that is not in the tree), of which the services RIOT calls are
    parameters, and so are the C library functions and device drivers a program reaches; the
    enforcement of rights on a running child, which is the hypothesis [confined]; peripherals
    a program without a partition drives behind the back of RIOT; the
    processor support of RIOT in assembly and vendor headers, but for the context switch, whose
    layout of contexts, a header of Pip, is a parameter; drivers,
    boards, network stack, packages and tests of upstream RIOT, which are not part
    of the artifact's own logic; the shell lock and the hooks of the shell; the
    parts of the benchmark behind WIP; of the timers the 64-bit time, the power-mode hooks and
    the conversions between clocks; [msg_queue_print]. *)

From stdpp Require Import base gmap list.
From Stdlib Require Import ZArith Lia.

Local Open Scope Z_scope.

(** ** Machine words

    A [w]-bit unsigned C object is a [Z] in [0, 2^w); conversions to a
    narrower or unsigned type reduce modulo [2^w], conversions to a signed
    type take the two's complement representative, as GCC does on ARM. *)

Definition wrap (w z : Z) : Z := z mod 2 ^ w.

Definition signed (w z : Z) : Z :=
  let r := wrap w z in if r <? 2 ^ (w - 1) then r else r - 2 ^ w.

Abbreviation u8 := (wrap 8).
Abbreviation u16 := (wrap 16).
Abbreviation u32 := (wrap 32).
Abbreviation u64 := (wrap 64).
Abbreviation s16 := (signed 16).
Abbreviation s32 := (signed 32).
Abbreviation s64 := (signed 64).

Create HintDb words.
Create Rewrite HintDb words.

(** [is_word w z]: [z] is a value of the unsigned [w]-bit type. *)
Definition is_word (w z : Z) : Prop := 0 <= z < 2 ^ w.

Section Words.
Implicit Types w z : Z.

Lemma wrap_range w z : 0 <= w -> is_word w (wrap w z).
Proof. intros. unfold is_word, wrap. apply Z.mod_pos_bound. lia. Qed.

Lemma wrap_small w z : is_word w z -> wrap w z = z.
Proof. intros. by apply Z.mod_small. Qed.

Lemma wrap_idemp w z : 0 <= w -> wrap w (wrap w z) = wrap w z.
Proof. intros. apply wrap_small, wrap_range. done. Qed.

Lemma wrap_add_l w a b : 0 <= w -> wrap w (wrap w a + b) = wrap w (a + b).
Proof. intros. unfold wrap. apply Z.add_mod_idemp_l. lia. Qed.

Lemma wrap_add_r w a b : 0 <= w -> wrap w (a + wrap w b) = wrap w (a + b).
Proof. intros. unfold wrap. apply Z.add_mod_idemp_r. lia. Qed.

Lemma signed_range w z : 0 < w -> - 2 ^ (w - 1) <= signed w z < 2 ^ (w - 1).
Proof.
  intros Hw. unfold signed.
  pose proof (wrap_range w z ltac:(lia)) as Hr. unfold is_word in Hr.
  assert (2 ^ w = 2 * 2 ^ (w - 1)) as Hp.
  { rewrite <- Z.pow_succ_r by lia. f_equal. lia. }
  destruct (Z.ltb_spec (wrap w z) (2 ^ (w - 1))); lia.
Qed.

Lemma signed_small w z : 0 < w -> 0 <= z < 2 ^ (w - 1) -> signed w z = z.
Proof.
  intros Hw Hz. unfold signed.
  assert (2 ^ (w - 1) < 2 ^ w) by (apply Z.pow_lt_mono_r; lia).
  rewrite wrap_small by (unfold is_word; lia).
  destruct (Z.ltb_spec z (2 ^ (w - 1))); lia.
Qed.

(** Reading a signed value back as unsigned is the identity on words. *)
Lemma wrap_signed w z : 0 < w -> wrap w (signed w z) = wrap w z.
Proof.
  intros Hw. unfold signed.
  destruct (wrap w z <? 2 ^ (w - 1)); [by apply wrap_idemp; lia|].
  unfold wrap. rewrite Zminus_mod, Z_mod_same_full, Z.sub_0_r.
  rewrite !Zmod_mod. done.
Qed.

Lemma signed_wrap w z : 0 <= w -> signed w (wrap w z) = signed w z.
Proof. intros. unfold signed. rewrite wrap_idemp by done. done. Qed.
End Words.

(** Narrowing after widening: only the narrow width counts. *)
Lemma wrap_wrap_le w w' z : 0 <= w <= w' -> wrap w (wrap w' z) = wrap w z.
Proof.
  intros H. unfold wrap. apply Z.mod_mod_divide.
  exists (2 ^ (w' - w)). rewrite <- Z.pow_add_r by lia. f_equal. lia.
Qed.

(** A word is a non-negative number without bits from [w] on. *)
Lemma is_word_bits w z :
  0 <= w -> is_word w z <-> 0 <= z /\ forall i, w <= i -> Z.testbit z i = false.
Proof.
  intros Hw. unfold is_word. split.
  - intros [H1 H2]. split; [done|]. intros i Hi.
    rewrite <- (Z.mod_small z (2 ^ w)) by lia. by apply Z.mod_pow2_bits_high.
  - intros [H1 H2]. assert (z = z mod 2 ^ w) as ->.
    { apply Z.bits_inj'. intros i Hi. destruct (decide (i < w)).
      - by rewrite Z.mod_pow2_bits_low.
      - rewrite Z.mod_pow2_bits_high by lia. apply H2. lia. }
    apply Z.mod_pos_bound. lia.
Qed.

Section BitOps.
Variables w a b : Z.
Hypotheses (Hw : 0 <= w) (Ha : is_word w a) (Hb : is_word w b).

Lemma word_land : is_word w (Z.land a b).
Proof using All.
  apply is_word_bits in Ha as [Ha0 Hai], Hb as [Hb0 Hbi]; try done.
  apply is_word_bits; [done|]. split; [apply Z.land_nonneg; by left|].
  intros i Hi. by rewrite Z.land_spec, Hai.
Qed.

Lemma word_lor : is_word w (Z.lor a b).
Proof using All.
  apply is_word_bits in Ha as [Ha0 Hai], Hb as [Hb0 Hbi]; try done.
  apply is_word_bits; [done|]. split; [by apply Z.lor_nonneg|].
  intros i Hi. by rewrite Z.lor_spec, Hai, Hbi.
Qed.

Lemma word_lxor : is_word w (Z.lxor a b).
Proof using All.
  apply is_word_bits in Ha as [Ha0 Hai], Hb as [Hb0 Hbi]; try done.
  apply is_word_bits; [done|]. split; [apply Z.lxor_nonneg; tauto|].
  intros i Hi. by rewrite Z.lxor_spec, Hai, Hbi.
Qed.

Lemma word_shiftr c : 0 <= c -> is_word w (Z.shiftr a c).
Proof using Hw Ha.
  intros Hc. unfold is_word in *. rewrite Z.shiftr_div_pow2 by done.
  split; [apply Z.div_pos; lia|].
  eapply Z.le_lt_trans; [|apply Ha]. apply Z.div_le_upper_bound; nia.
Qed.

Lemma word_mod : b <> 0 -> is_word w (a mod b).
Proof using Hw Ha Hb.
  intros Hb0. unfold is_word in *. pose proof (Z.mod_pos_bound a b). lia.
Qed.

Lemma word_div : b <> 0 -> is_word w (a / b).
Proof using Hw Ha Hb.
  intros Hb0. unfold is_word in *. split; [apply Z.div_pos; lia|].
  eapply Z.le_lt_trans; [|apply Ha]. apply Z.div_le_upper_bound; nia.
Qed.
End BitOps.

(** The low half of a number composed of two halves. *)
Lemma lor_halves w a b : 0 <= w -> is_word w b -> a * 2 ^ w + b = Z.lor (Z.shiftl a w) b.
Proof.
  intros Hw Hb. rewrite <- Z.shiftl_mul_pow2 by done.
  apply is_word_bits in Hb as [_ Hb]; [|done].
  rewrite <- Z.lxor_lor; [apply Z.add_nocarry_lxor|];
    apply Z.bits_inj'; intros i Hi; rewrite Z.land_spec, Z.bits_0, Z.shiftl_spec by done;
    (destruct (decide (i < w)); [rewrite Z.testbit_neg_r by lia; done|
     rewrite Hb by lia; apply andb_false_r]).
Qed.

(** A conjunction works on the two halves separately. *)
Lemma land_halves w a b c d :
  0 <= w -> is_word w a -> is_word w c ->
  Z.land (a + 2 ^ w * b) (c + 2 ^ w * d) = Z.land a c + 2 ^ w * Z.land b d.
Proof.
  intros Hw Ha Hc.
  replace (a + 2 ^ w * b) with (b * 2 ^ w + a) by lia.
  replace (c + 2 ^ w * d) with (d * 2 ^ w + c) by lia.
  replace (Z.land a c + 2 ^ w * Z.land b d) with (Z.land b d * 2 ^ w + Z.land a c) by lia.
  rewrite !lor_halves by auto using word_land.
  apply is_word_bits in Ha as [_ Ha], Hc as [_ Hc]; [|done..].
  apply Z.bits_inj'. intros i Hi.
  rewrite !Z.land_spec, !Z.lor_spec, !Z.shiftl_spec, !Z.land_spec by done.
  destruct (decide (i < w)).
  - rewrite !(Z.testbit_neg_r _ (i - w)) by lia. done.
  - rewrite Ha, Hc by lia. by rewrite !orb_false_r.
Qed.

(** Clearing the low [n] bits of a word. *)
Lemma land_mask n x :
  0 <= n <= 32 -> is_word 32 x -> Z.land x (u32 (Z.lnot (2 ^ n - 1))) = x - x mod 2 ^ n.
Proof.
  intros Hn Hx. apply is_word_bits in Hx as [H0 Hx]; [|lia].
  assert (x - x mod 2 ^ n = Z.shiftl (Z.shiftr x n) n) as ->.
  { rewrite Z.shiftl_mul_pow2, Z.shiftr_div_pow2 by lia.
    pose proof (Z.div_mod x (2 ^ n) ltac:(lia)). lia. }
  unfold wrap. rewrite <- Z.land_ones by lia. replace (2 ^ n - 1) with (Z.ones n) by (rewrite Z.ones_equiv; lia).
  apply Z.bits_inj'. intros i Hi. rewrite !Z.land_spec, Z.lnot_spec, Z.shiftl_spec by done.
  destruct (decide (i < n)).
  - rewrite (Z.testbit_neg_r _ (i - n)) by lia. rewrite (Z.ones_spec_low n) by lia. by rewrite andb_false_r.
  - rewrite Z.shiftr_spec by lia. replace (i - n + n) with i by lia.
    rewrite (Z.ones_spec_high n) by lia. destruct (decide (i < 32)).
    + rewrite Z.ones_spec_low by lia. by rewrite andb_true_r.
    + by rewrite Hx by lia.
Qed.

Lemma is_word_mono w w' z : 0 <= w <= w' -> is_word w z -> is_word w' z.
Proof.
  unfold is_word. intros Hw Hz.
  assert (2 ^ w <= 2 ^ w') by (apply Z.pow_le_mono_r; lia). lia.
Qed.

#[export] Hint Resolve wrap_range word_land word_lor word_lxor word_shiftr word_mod word_div
  : words.
#[export] Hint Rewrite wrap_idemp wrap_signed signed_wrap using lia : words.

(** [word_lia] exposes the range of every wrapped subterm, then calls [lia]. *)
Ltac expose_words :=
  repeat match goal with
  | |- context [wrap ?w ?z] =>
      lazymatch goal with
      | _ : 0 <= wrap w z < _ |- _ => fail
      | _ => pose proof (wrap_range w z ltac:(lia))
      end
  | H : context [wrap ?w ?z] |- _ =>
      lazymatch goal with
      | _ : is_word w (wrap w z) |- _ => fail
      | _ => pose proof (wrap_range w z ltac:(lia))
      end
  end.

(** ** Byte-addressed memory

    Memory is a finite map from addresses to bytes; an address that was never
    written reads as zero, so the store is total, as a bare-metal address
    space is.  Multi-byte accesses are little endian (Cortex-M). *)

Abbreviation memory := (gmap Z Z).

Definition rd8 (m : memory) (a : Z) : Z := u8 (default 0 (m !! a)).
Definition wr8 (m : memory) (a v : Z) : memory := <[a := u8 v]> m.

Fixpoint rd_le (m : memory) (a : Z) (n : nat) : Z :=
  match n with
  | O => 0
  | S n => rd8 m a + 256 * rd_le m (a + 1) n
  end.

Fixpoint wr_le (m : memory) (a : Z) (n : nat) (v : Z) : memory :=
  match n with
  | O => m
  | S n => wr_le (wr8 m a v) (a + 1) n (v / 256)
  end.

Definition rd16 (m : memory) (a : Z) : Z := rd_le m a 2.
Definition rd32 (m : memory) (a : Z) : Z := rd_le m a 4.
Definition rd64 (m : memory) (a : Z) : Z := rd_le m a 8.
Definition wr32 (m : memory) (a v : Z) : memory := wr_le m a 4 v.

(** Block accesses: [n] bytes from [a], and the write of a list of bytes. *)
Fixpoint rd_bytes (m : memory) (a : Z) (n : nat) : list Z :=
  match n with
  | O => []
  | S n => rd8 m a :: rd_bytes m (a + 1) n
  end.

Fixpoint wr_bytes (m : memory) (a : Z) (l : list Z) : memory :=
  match l with
  | [] => m
  | v :: l => wr_bytes (wr8 m a v) (a + 1) l
  end.

(** [n] bytes read as zero-extended data of width [w]; bytes agree on a range. *)
Definition same_on (m m' : memory) (lo hi : Z) : Prop :=
  forall a, lo <= a < hi -> rd8 m' a = rd8 m a.

Create HintDb mem.

Section Memory.
Implicit Types (m : memory) (a b v : Z) (n : nat) (l : list Z).

Lemma rd8_range m a : 0 <= rd8 m a < 256.
Proof. apply (wrap_range 8). lia. Qed.

Lemma rd8_wr8_eq m a v : rd8 (wr8 m a v) a = u8 v.
Proof.
  unfold rd8, wr8. rewrite lookup_insert_eq. cbn. by rewrite wrap_idemp by lia.
Qed.

Lemma rd8_wr8_ne m a b v : a <> b -> rd8 (wr8 m a v) b = rd8 m b.
Proof. intros. unfold rd8, wr8. by rewrite lookup_insert_ne by done. Qed.

Lemma rd8_wr_le_out m a n v b :
  b < a \/ a + Z.of_nat n <= b -> rd8 (wr_le m a n v) b = rd8 m b.
Proof.
  revert m a v. induction n as [|n IH]; intros m a v Hb; cbn [wr_le]; [done|].
  rewrite IH by lia. apply rd8_wr8_ne. lia.
Qed.

Lemma rd8_wr_bytes_out m a l b :
  b < a \/ a + Z.of_nat (length l) <= b -> rd8 (wr_bytes m a l) b = rd8 m b.
Proof.
  revert m a. induction l as [|v l IH]; intros m a Hb; cbn in *; [done|].
  rewrite IH by lia. apply rd8_wr8_ne. lia.
Qed.

Lemma rd8_wr_bytes_in m a l i v :
  l !! i = Some v -> rd8 (wr_bytes m a l) (a + Z.of_nat i) = u8 v.
Proof.
  revert m a i. induction l as [|w l IH]; intros m a i Hi; [done|].
  destruct i as [|i]; cbn in *.
  - simplify_eq. rewrite Z.add_0_r, rd8_wr_bytes_out by lia. apply rd8_wr8_eq.
  - replace (a + Z.of_nat (S i)) with (a + 1 + Z.of_nat i) by lia. by apply IH.
Qed.

Lemma rd_le_ext m m' a n :
  same_on m m' a (a + Z.of_nat n) -> rd_le m' a n = rd_le m a n.
Proof.
  revert a. induction n as [|n IH]; intros a H; cbn [rd_le]; [done|].
  rewrite (H a) by lia. f_equal. f_equal. apply IH.
  intros b Hb. apply H. lia.
Qed.

Lemma rd_le_range m a n : 0 <= rd_le m a n < 256 ^ Z.of_nat n.
Proof.
  revert a. induction n as [|n IH]; intros a; cbn [rd_le]; [cbn; lia|].
  rewrite Nat2Z.inj_succ, Z.pow_succ_r by lia.
  pose proof (rd8_range m a). specialize (IH (a + 1)). lia.
Qed.

Lemma rd_le_wr_le_eq m a n v : rd_le (wr_le m a n v) a n = v mod 256 ^ Z.of_nat n.
Proof.
  revert m a v. induction n as [|n IH]; intros m a v; cbn [rd_le wr_le].
  { by rewrite Z.mod_1_r. }
  rewrite rd8_wr_le_out, rd8_wr8_eq, IH by lia.
  rewrite Nat2Z.inj_succ, Z.pow_succ_r by lia.
  rewrite Z.rem_mul_r by lia. done.
Qed.

Lemma rd_bytes_ext m m' a n :
  same_on m m' a (a + Z.of_nat n) -> rd_bytes m' a n = rd_bytes m a n.
Proof.
  revert a. induction n as [|n IH]; intros a H; cbn [rd_bytes]; [done|].
  rewrite (H a) by lia. f_equal. apply IH. intros b Hb. apply H. lia.
Qed.

Lemma length_rd_bytes m a n : length (rd_bytes m a n) = n.
Proof. revert a. induction n; intros; cbn; auto. Qed.

Lemma lookup_rd_bytes m a n i :
  (i < n)%nat -> rd_bytes m a n !! i = Some (rd8 m (a + Z.of_nat i)).
Proof.
  revert a i. induction n as [|n IH]; intros a i Hi; [lia|].
  destruct i as [|i]; cbn.
  - by rewrite Z.add_0_r.
  - rewrite IH by lia. do 2 f_equal. lia.
Qed.

Lemma same_on_refl m lo hi : same_on m m lo hi.
Proof. done. Qed.

Lemma same_on_trans m1 m2 m3 lo hi :
  same_on m1 m2 lo hi -> same_on m2 m3 lo hi -> same_on m1 m3 lo hi.
Proof. intros H1 H2 a Ha. by rewrite H2, H1. Qed.

Lemma same_on_weaken m m' lo hi lo' hi' :
  same_on m m' lo hi -> lo <= lo' -> hi' <= hi -> same_on m m' lo' hi'.
Proof. intros H ?? a ?. apply H. lia. Qed.
End Memory.

(** Two memories are equivalent when every byte reads the same; the operations
    respect it, so equivalent memories can be rewritten in each other's place. *)
Definition mem_eq (m m' : memory) : Prop := forall a, rd8 m a = rd8 m' a.
Infix "≡ₘ" := mem_eq (at level 70, no associativity).

#[export] Instance mem_eq_equiv : Equivalence mem_eq.
Proof.
  split; [intros m a; done|intros m m' H a; by rewrite H|
    intros m1 m2 m3 H1 H2 a; by rewrite H1, H2].
Qed.

#[export] Instance rd8_proper : Proper (mem_eq ==> eq ==> eq) rd8.
Proof. intros m m' Hm a ? <-. apply Hm. Qed.

#[export] Instance rd_le_proper : Proper (mem_eq ==> eq ==> eq ==> eq) rd_le.
Proof. intros m m' Hm a ? <- n ? <-. apply rd_le_ext. intros b _. apply Hm. Qed.

#[export] Instance rd_bytes_proper : Proper (mem_eq ==> eq ==> eq ==> eq) rd_bytes.
Proof. intros m m' Hm a ? <- n ? <-. apply rd_bytes_ext. intros b _. apply Hm. Qed.

#[export] Instance wr8_proper : Proper (mem_eq ==> eq ==> eq ==> mem_eq) wr8.
Proof.
  intros m m' Hm a ? <- v ? <- b. destruct (decide (a = b)) as [<-|Hne].
  - by rewrite !rd8_wr8_eq.
  - rewrite !rd8_wr8_ne by done. apply Hm.
Qed.

#[export] Instance wr_bytes_proper : Proper (mem_eq ==> eq ==> eq ==> mem_eq) wr_bytes.
Proof.
  intros m m' Hm a ? <- l ? <-. revert m m' a Hm.
  induction l as [|v l IH]; intros m m' a Hm; cbn [wr_bytes]; [done|].
  apply IH. by rewrite Hm.
Qed.

(** Writing back the byte a cell already holds changes nothing. *)
Lemma wr8_rd8 m a : wr8 m a (rd8 m a) ≡ₘ m.
Proof.
  intros b. destruct (decide (a = b)) as [<-|Hne]; [|by apply rd8_wr8_ne].
  rewrite rd8_wr8_eq. apply wrap_small, (wrap_range 8). lia.
Qed.

#[export] Hint Resolve rd8_range same_on_refl : mem.

Lemma rd32_range m a : is_word 32 (rd32 m a).
Proof. unfold rd32, is_word. pose proof (rd_le_range m a 4). lia. Qed.

#[export] Hint Resolve rd32_range : mem words.

(** ** Words in memory *)

Lemma rd8_wr32_out m a v b : b < a \/ a + 4 <= b -> rd8 (wr32 m a v) b = rd8 m b.
Proof. intros. apply rd8_wr_le_out. lia. Qed.

Lemma rd32_wr32_same m a v : is_word 32 v -> rd32 (wr32 m a v) a = v.
Proof. intros Hv. unfold rd32, wr32. rewrite rd_le_wr_le_eq. by apply (wrap_small 32). Qed.

Lemma rd32_wr32_apart m a v b : b + 4 <= a \/ a + 4 <= b -> rd32 (wr32 m a v) b = rd32 m b.
Proof. intros H. apply rd_le_ext. intros c Hc. apply rd8_wr_le_out. lia. Qed.

(** ** Results

    [res E A] is the outcome of C code that may stop with an [E] (undefined
    behaviour, a failed assertion) instead of returning an [A]. *)

Inductive res (E A : Type) := Ok (a : A) | Err (e : E).
Arguments Ok {E A} a.
Arguments Err {E A} e.

#[export] Instance res_ret E : MRet (res E) := fun A a => Ok a.
#[export] Instance res_bind E : MBind (res E) :=
  fun A B k c => match c with Ok a => k a | Err e => Err e end.

Lemma res_bind_Ok {E A B} (c : res E A) (k : A -> res E B) b :
  (a ← c; k a) = Ok b -> exists a, c = Ok a /\ k a = Ok b.
Proof. destruct c; cbn; [eauto|done]. Qed.

(** Splits a successful sequence of monadic steps into its parts. *)
Ltac res_inv :=
  repeat match goal with
  | H : mbind _ _ = Ok _ |- _ =>
      let a := fresh "a" in let Ha := fresh "Ha" in
      apply res_bind_Ok in H as (a & Ha & H)
  | H : Ok _ = Ok _ |- _ => injection H as H
  | H : Err _ = Ok _ |- _ => discriminate H
  end.

(** ** Commands

    Stateful C code that may stop with an error: a command takes the state and
    returns a value with the new state, or the error. *)

Definition cmd (S E A : Type) : Type := S -> res E (A * S).

#[export] Instance cmd_ret S E : MRet (cmd S E) := fun A a s => Ok (a, s).
#[export] Instance cmd_bind S E : MBind (cmd S E) :=
  fun A B k c s => match c s with Ok (a, s') => k a s' | Err e => Err e end.

Definition fail {S E A} (e : E) : cmd S E A := fun _ => Err e.
Definition gets {S E A} (f : S -> A) : cmd S E A := fun s => Ok (f s, s).
Definition modify {S E} (f : S -> S) : cmd S E unit := fun s => Ok (tt, f s).
(** [assert(b)] of C, with the error the build stops with. *)
Definition check {S E} (e : E) (b : bool) : cmd S E unit :=
  fun s => if b then Ok (tt, s) else Err e.

(** A sequence whose first part succeeds continues with its result. *)
Lemma cmd_bind_Ok {S E A B} (c : cmd S E A) (k : A -> cmd S E B) s a s' :
  c s = Ok (a, s') -> (a ← c; k a) s = k a s'.
Proof. intros H. unfold mbind, cmd_bind. by rewrite H. Qed.

Lemma cmd_bind_inv {S E A B} (c : cmd S E A) (k : A -> cmd S E B) s b s' :
  (a ← c; k a) s = Ok (b, s') ->
  exists a s1, c s = Ok (a, s1) /\ k a s1 = Ok (b, s').
Proof. unfold mbind, cmd_bind. destruct (c s) as [[a s1]|e]; [eauto|done]. Qed.

Lemma cmd_bind_assoc {S E A B C} (c : cmd S E A) (d : cmd S E B) (f : cmd S E C) s :
  ((c;; d);; f) s = (c;; (d;; f)) s.
Proof. unfold mbind, cmd_bind. by destruct (c s) as [[a s1]|e]. Qed.

Lemma check_true {S E} (e : E) b (s : S) : b = true -> check e b s = Ok (tt, s).
Proof. by intros ->. Qed.

(** ** Weakest preconditions

    [wpe F c Q s]: the command [c] started in [s] ends with [Q]; [F] is what an
    error means, [False] for total and [True] for partial correctness. *)

Definition wpe {S E A} (F : Prop) (c : cmd S E A) (Q : A -> S -> Prop) (s : S) : Prop :=
  match c s with Ok (a, s') => Q a s' | Err _ => F end.

Lemma wpe_bind {S E A B} F (c : cmd S E A) (k : A -> cmd S E B) Q s :
  wpe F c (fun a s' => wpe F (k a) Q s') s -> wpe F (a ← c; k a) Q s.
Proof. unfold wpe, mbind, cmd_bind. by destruct (c s) as [[a s']|e]. Qed.

Lemma wpe_mono {S E A} F (c : cmd S E A) (Q Q' : A -> S -> Prop) s :
  wpe F c Q s -> (forall a s', Q a s' -> Q' a s') -> wpe F c Q' s.
Proof. unfold wpe. destruct (c s) as [[a s']|e]; auto. Qed.

Lemma wpe_Ok {S E A} (c : cmd S E A) Q s :
  wpe False c Q s -> exists a s', c s = Ok (a, s') /\ Q a s'.
Proof. unfold wpe. destruct (c s) as [[a s']|e]; [eauto|done]. Qed.

Lemma wpe_of_Ok {S E A} F (c : cmd S E A) (Q : A -> S -> Prop) s a s' :
  c s = Ok (a, s') -> Q a s' -> wpe F c Q s.
Proof. unfold wpe. by intros ->. Qed.

Lemma wpe_modify {S E B} F (f : S -> S) (k : unit -> cmd S E B) Q s :
  wpe F (k tt) Q (f s) -> wpe F (x ← modify f; k x) Q s.
Proof. done. Qed.

Lemma wpe_gets {S E A B} F (f : S -> A) (k : A -> cmd S E B) Q s :
  wpe F (k (f s)) Q s -> wpe F (x ← gets f; k x) Q s.
Proof. done. Qed.
