(* ===== verification/RbpfIsa.v ===== *)
(** * The rBPF instruction set

    Models 06-rbpf-bench/src/RIOT/sys/include/rbpf/instruction.h: the packed
    64-bit instruction word [bpf_instruction_t] as it lies in memory and the
    opcode numbers the interpreter's switch selects on.  A [case] label of
    that switch is an element of [insn]; the C [default] label is [ILLEGAL]. *)

From stdpp Require Import base gmap list.
From Stdlib Require Import ZArith Lia.
From S2P Require Import Prelude.

Local Open Scope Z_scope.

(** ** The instruction word *)

Record bpf_instruction := {
  opcode : Z;      (* uint8_t  *)
  dst : Z;         (* unsigned : 4, the low nibble of byte 1 *)
  src : Z;         (* unsigned : 4, the high nibble of byte 1 *)
  offset : Z;      (* int16_t  *)
  immediate : Z    (* int32_t  *)
}.

Definition sizeof_bpf_instruction : Z := 8.

(** The instruction an [const bpf_instruction_t *] at address [a] denotes. *)
Definition fetch (m : memory) (a : Z) : bpf_instruction :=
  {| opcode := rd8 m a;
     dst := Z.land (rd8 m (a + 1)) 15;
     src := Z.shiftr (rd8 m (a + 1)) 4;
     offset := s16 (rd16 m (a + 2));
     immediate := s32 (rd32 m (a + 4)) |}.

(** ** Opcodes *)

Definition BPF_INSTRUCTION_CLS_MASK : Z := 0x07.
Definition BPF_INSTRUCTION_CLS_BRANCH : Z := 0x05.
Definition BPF_INSTRUCTION_BRANCH_CALL : Z := 0x80.

Inductive alu_op :=
| ADD | SUB | MUL | DIV | OR | AND | LSH | RSH | MOD | XOR | MOV | ARSH.

Inductive jmp_op :=
| JEQ | JGT | JGE | JSET | JNE | JSGT | JSGE | JLT | JLE | JSLT | JSLE.

(** [uint8_t], [uint16_t], [uint32_t], [uint64_t] *)
Inductive mem_size := SB | SH | SW | SDW.

Definition sizeof (sz : mem_size) : nat :=
  match sz with SB => 1 | SH => 2 | SW => 4 | SDW => 8 end.

Inductive insn :=
| ALU64_REG (op : alu_op)
| ALU64_IMM (op : alu_op)
| ALU32_REG (op : alu_op)
| ALU32_IMM (op : alu_op)
| ALU64_NEG
| ALU32_NEG
| JMP_ALWAYS
| JMP_REG (op : jmp_op)
| JMP_IMM (op : jmp_op)
| MEM_LDDW
| MEM_LDDWD
| MEM_LDDWR
| MEM_STX (sz : mem_size)
| MEM_ST (sz : mem_size)
| MEM_LDX (sz : mem_size)
| CALL
| RETURN
| ILLEGAL.

#[export] Instance alu_op_eq_dec : EqDecision alu_op.
Proof. solve_decision. Defined.
#[export] Instance jmp_op_eq_dec : EqDecision jmp_op.
Proof. solve_decision. Defined.
#[export] Instance mem_size_eq_dec : EqDecision mem_size.
Proof. solve_decision. Defined.
#[export] Instance insn_eq_dec : EqDecision insn.
Proof. solve_decision. Defined.

Definition alu64_reg_opcodes : list (Z * insn) :=
  [(0x0f, ALU64_REG ADD); (0x1f, ALU64_REG SUB); (0x2f, ALU64_REG MUL);
   (0x3f, ALU64_REG DIV); (0x4f, ALU64_REG OR);  (0x5f, ALU64_REG AND);
   (0x6f, ALU64_REG LSH); (0x7f, ALU64_REG RSH); (0x9f, ALU64_REG MOD);
   (0xaf, ALU64_REG XOR); (0xbf, ALU64_REG MOV); (0xcf, ALU64_REG ARSH)].

Definition alu64_imm_opcodes : list (Z * insn) :=
  [(0x07, ALU64_IMM ADD); (0x17, ALU64_IMM SUB); (0x27, ALU64_IMM MUL);
   (0x37, ALU64_IMM DIV); (0x47, ALU64_IMM OR);  (0x57, ALU64_IMM AND);
   (0x67, ALU64_IMM LSH); (0x77, ALU64_IMM RSH); (0x87, ALU64_NEG);
   (0x97, ALU64_IMM MOD); (0xa7, ALU64_IMM XOR); (0xb7, ALU64_IMM MOV);
   (0xc7, ALU64_IMM ARSH)].

Definition alu32_reg_opcodes : list (Z * insn) :=
  [(0x0c, ALU32_REG ADD); (0x1c, ALU32_REG SUB); (0x2c, ALU32_REG MUL);
   (0x3c, ALU32_REG DIV); (0x4c, ALU32_REG OR);  (0x5c, ALU32_REG AND);
   (0x6c, ALU32_REG LSH); (0x7c, ALU32_REG RSH); (0x9c, ALU32_REG MOD);
   (0xac, ALU32_REG XOR); (0xbc, ALU32_REG MOV); (0xcc, ALU32_REG ARSH)].

Definition alu32_imm_opcodes : list (Z * insn) :=
  [(0x04, ALU32_IMM ADD); (0x14, ALU32_IMM SUB); (0x24, ALU32_IMM MUL);
   (0x34, ALU32_IMM DIV); (0x44, ALU32_IMM OR);  (0x54, ALU32_IMM AND);
   (0x64, ALU32_IMM LSH); (0x74, ALU32_IMM RSH); (0x84, ALU32_NEG);
   (0x94, ALU32_IMM MOD); (0xa4, ALU32_IMM XOR); (0xb4, ALU32_IMM MOV);
   (0xc4, ALU32_IMM ARSH)].

Definition jmp_imm_opcodes : list (Z * insn) :=
  [(0x05, JMP_ALWAYS);   (0x15, JMP_IMM JEQ);  (0x25, JMP_IMM JGT);
   (0x35, JMP_IMM JGE);  (0x45, JMP_IMM JSET); (0x55, JMP_IMM JNE);
   (0x65, JMP_IMM JSGT); (0x75, JMP_IMM JSGE); (0xa5, JMP_IMM JLT);
   (0xb5, JMP_IMM JLE);  (0xc5, JMP_IMM JSLT); (0xd5, JMP_IMM JSLE)].

Definition jmp_reg_opcodes : list (Z * insn) :=
  [(0x1d, JMP_REG JEQ);  (0x2d, JMP_REG JGT);  (0x3d, JMP_REG JGE);
   (0x4d, JMP_REG JSET); (0x5d, JMP_REG JNE);  (0x6d, JMP_REG JSGT);
   (0x7d, JMP_REG JSGE); (0xad, JMP_REG JLT);  (0xbd, JMP_REG JLE);
   (0xcd, JMP_REG JSLT); (0xdd, JMP_REG JSLE)].

Definition mem_opcodes : list (Z * insn) :=
  [(0x18, MEM_LDDW); (0xB8, MEM_LDDWD); (0xD8, MEM_LDDWR);
   (0x63, MEM_STX SW); (0x6b, MEM_STX SH); (0x73, MEM_STX SB); (0x7b, MEM_STX SDW);
   (0x62, MEM_ST SW);  (0x6a, MEM_ST SH);  (0x72, MEM_ST SB);  (0x7a, MEM_ST SDW);
   (0x61, MEM_LDX SW); (0x69, MEM_LDX SH); (0x71, MEM_LDX SB); (0x79, MEM_LDX SDW)].

Definition ctl_opcodes : list (Z * insn) := [(0x85, CALL); (0x95, RETURN)].

Definition opcode_table : list (Z * insn) :=
  alu64_reg_opcodes ++ alu64_imm_opcodes ++ alu32_reg_opcodes ++ alu32_imm_opcodes ++
  jmp_imm_opcodes ++ jmp_reg_opcodes ++ mem_opcodes ++ ctl_opcodes.

(** The label the switch of [_rbpf_instruction] selects for an opcode. *)
Fixpoint select (t : list (Z * insn)) (op : Z) : insn :=
  match t with
  | [] => ILLEGAL
  | (o, i) :: t => if op =? o then i else select t op
  end.

Definition decode (op : Z) : insn := select opcode_table op.

(** ** Lemmas *)

Lemma fetch_ranges m a :
  0 <= opcode (fetch m a) < 256 /\ 0 <= dst (fetch m a) < 16 /\
  0 <= src (fetch m a) < 16 /\ -32768 <= offset (fetch m a) < 32768 /\
  - 2 ^ 31 <= immediate (fetch m a) < 2 ^ 31.
Proof.
  unfold fetch; cbn [opcode dst src offset immediate].
  pose proof (rd8_range m (a + 1)) as H1.
  split_and!; try apply rd8_range.
  - by apply Z.land_nonneg; right.
  - change 15 with (Z.ones 4). rewrite Z.land_ones by lia.
    pose proof (Z.mod_pos_bound (rd8 m (a + 1)) (2 ^ 4)). lia.
  - apply Z.shiftr_nonneg. lia.
  - rewrite Z.shiftr_div_pow2 by lia.
    apply Z.div_lt_upper_bound; lia.
  - pose proof (signed_range 16 (rd16 m (a + 2)) ltac:(lia)). cbn in *. lia.
  - pose proof (signed_range 16 (rd16 m (a + 2)) ltac:(lia)). cbn in *. lia.
  - pose proof (signed_range 32 (rd32 m (a + 4)) ltac:(lia)). cbn in *. lia.
  - pose proof (signed_range 32 (rd32 m (a + 4)) ltac:(lia)). cbn in *. lia.
Qed.

(** The instruction read at [a] depends only on its eight bytes. *)
Lemma fetch_ext m m' a :
  same_on m m' a (a + sizeof_bpf_instruction) -> fetch m' a = fetch m a.
Proof.
  unfold sizeof_bpf_instruction. intros H. unfold fetch, rd16, rd32.
  rewrite !(H _) by lia.
  rewrite (rd_le_ext m m' (a + 2) 2) by (eapply same_on_weaken; [done|lia|lia]).
  rewrite (rd_le_ext m m' (a + 4) 4) by (eapply same_on_weaken; [done|lia|lia]).
  done.
Qed.

(** No opcode number labels two cases: the switch is well formed. *)
Lemma opcode_table_NoDup : NoDup opcode_table.*1.
Proof. apply (bool_decide_unpack _). by vm_compute. Qed.

(** Every branch, call and return opcode has class BRANCH, and conversely an
    opcode of class BRANCH that the interpreter implements is one of them. *)
Definition is_branch (i : insn) : bool :=
  match i with JMP_ALWAYS | JMP_REG _ | JMP_IMM _ | CALL | RETURN => true | _ => false end.

Lemma select_in t op : select t op <> ILLEGAL -> (op, select t op) ∈ t.
Proof.
  induction t as [|[o i] t IH]; cbn; [done|].
  destruct (Z.eqb_spec op o) as [->|]; intros.
  - apply list_elem_of_here.
  - by apply list_elem_of_further, IH.
Qed.

(** A decidable fact of the table holds of every implemented opcode. *)
Lemma decode_forall (P : Z -> insn -> bool) op :
  forallb (fun '(o, i) => P o i) opcode_table = true ->
  decode op <> ILLEGAL -> P op (decode op) = true.
Proof.
  intros Hall H%select_in. rewrite forallb_forall in Hall.
  apply list_elem_of_In in H. by specialize (Hall _ H).
Qed.

Lemma decode_branch_class op :
  decode op <> ILLEGAL ->
  is_branch (decode op) = (Z.land op BPF_INSTRUCTION_CLS_MASK =? BPF_INSTRUCTION_CLS_BRANCH).
Proof.
  intros H. apply Bool.eqb_prop.
  by apply (decode_forall (fun o i => Bool.eqb (is_branch i)
    (Z.land o BPF_INSTRUCTION_CLS_MASK =? BPF_INSTRUCTION_CLS_BRANCH))).
Qed.

(** An opcode is the only one of its label (the rows of the table are
    pairwise different in their labels too). *)
Lemma decode_unique op o :
  decode o <> ILLEGAL -> decode op = decode o ->
  forallb (fun '(o', i) => negb (bool_decide (i = decode o)) || (o' =? o)) opcode_table = true ->
  op = o.
Proof.
  intros Ho Heq Hall.
  pose proof (decode_forall (fun o' i => negb (bool_decide (i = decode o)) || (o' =? o))
    op Hall ltac:(congruence)) as H.
  rewrite Heq, bool_decide_true in H by done. cbn in H. lia.
Qed.

(** Opcode 0x18 is the only one the verifier treats as double length. *)
Lemma decode_lddw op : decode op = MEM_LDDW <-> op = 0x18.
Proof.
  split; [|intros ->; by vm_compute].
  intros H. by apply decode_unique; [..|by vm_compute].
Qed.

Lemma decode_return op : decode op = RETURN <-> op = 0x95.
Proof.
  split; [|intros ->; by vm_compute].
  intros H. by apply decode_unique; [..|by vm_compute].
Qed.
