(* ===== verification/Rbpf.v ===== *)
(** * The rBPF application object and its memory regions

    Models 06-rbpf-bench/src/RIOT/sys/include/rbpf.h (the application struct,
    its header accessors, region initialisation), rbpf/rbpf.c (setup and
    region insertion) and the access checks at the top of rbpf/engine.c.

    The structs the host allocates for the virtual machine (the application
    object and the region nodes) live in [machine]: region nodes are objects
    at addresses of the host, linked by their [next] pointers exactly as in
    the C list, so inserting one node twice or leaving a [next] uninitialised
    is expressible.  The bytes the application itself reaches (header, text,
    data, stack, context) live in the byte memory [mem].  The two parts share
    one address space: [touches] decides whether an access reaches the bytes
    of the struct or of a node, and the interpreter makes such an access an
    explicit outcome instead of reading or writing [mem] there. *)

From stdpp Require Import base gmap list fin_maps.
From Stdlib Require Import ZArith Lia.
From S2P Require Import Prelude RbpfIsa.

Local Open Scope Z_scope.

Create HintDb rbpf.
Create Rewrite HintDb rbpf.

(** ** Constants *)

Definition RBPF_STACK_SIZE : Z := 512.
Definition RBPF_BRANCHES_ALLOWED : Z := 10000.

Definition RBPF_CONTINUE : Z := 1.
Definition RBPF_OK : Z := 0.
Definition RBPF_ILLEGAL_INSTRUCTION : Z := -1.
Definition RBPF_ILLEGAL_MEM : Z := -2.
Definition RBPF_ILLEGAL_JUMP : Z := -3.
Definition RBPF_ILLEGAL_CALL : Z := -4.
Definition RBPF_ILLEGAL_LEN : Z := -5.
Definition RBPF_ILLEGAL_REGISTER : Z := -6.
Definition RBPF_NO_RETURN : Z := -7.
Definition RBPF_OUT_OF_BRANCHES : Z := -8.
Definition RBPF_ILLEGAL_DIV : Z := -9.

Definition RBPF_MEM_REGION_READ : Z := 0x01.
Definition RBPF_MEM_REGION_WRITE : Z := 0x02.

Definition RBPF_FLAG_SETUP_DONE : Z := 0x01.
Definition RBPF_FLAG_PREFLIGHT_DONE : Z := 0x02.
Definition RBPF_CONFIG_NO_RETURN : Z := 0x0100.

(** C truth of [x & y]. *)
Definition has_flag (x y : Z) : bool := negb (Z.land x y =? 0).

(** ** Data *)

Record rbpf_mem_region := {
  next : Z;        (* rbpf_mem_region_t *, 0 is NULL *)
  start : Z;       (* const uint8_t * *)
  len : Z;         (* size_t *)
  r_flags : Z      (* uint8_t *)
}.

(** [self] is the address of the struct (the C pointer [rbpf]); its four
    region members are nodes of the region store at fixed offsets of it. *)
Record rbpf_application := {
  self : Z;
  application : Z;         (* const void *, the header *)
  application_len : Z;     (* size_t *)
  stack : Z;               (* uint8_t * *)
  flags : Z;               (* uint16_t *)
  branches_remaining : Z   (* uint32_t *)
}.

Record machine := {
  app : rbpf_application;
  regions : gmap Z rbpf_mem_region;
  mem : memory
}.

(** Layout on a 32-bit target: a region node is three words and a byte,
    padded to 16; the struct is 4 * 16 + 4 + 4 + 4 + 2 (+2) + 4 = 84 bytes;
    the packed header is seven 32-bit fields. *)
Definition sizeof_rbpf_mem_region : Z := 16.
Definition sizeof_rbpf_application : Z := 84.
Definition sizeof_rbpf_header : Z := 28.

Definition stack_region (a : rbpf_application) : Z := self a.
Definition rodata_region (a : rbpf_application) : Z := self a + 16.
Definition data_region (a : rbpf_application) : Z := self a + 32.
Definition arg_region (a : rbpf_application) : Z := self a + 48.

Definition set_flags (f : Z) (a : rbpf_application) : rbpf_application :=
  {| self := self a; application := application a; application_len := application_len a;
     stack := stack a; flags := f; branches_remaining := branches_remaining a |}.

Definition set_branches (b : Z) (a : rbpf_application) : rbpf_application :=
  {| self := self a; application := application a; application_len := application_len a;
     stack := stack a; flags := flags a; branches_remaining := b |}.

Definition with_app (a : rbpf_application) (m : machine) : machine :=
  {| app := a; regions := regions m; mem := mem m |}.
Definition with_regions (r : gmap Z rbpf_mem_region) (m : machine) : machine :=
  {| app := app m; regions := r; mem := mem m |}.
Definition with_mem (b : memory) (m : machine) : machine :=
  {| app := app m; regions := regions m; mem := b |}.

(** A system call receives the application and the registers and returns the
    value of register 0. *)
Definition rbpf_call_t : Type := machine -> list Z -> Z * machine * list Z.

(** RBPF_EXTERNAL_CALLS is not defined in this build: no call exists. *)
Definition rbpf_get_external_call (num : Z) : option rbpf_call_t := None.

(** ** The bytes of the host objects *)

Definition overlap (a n b k : Z) : bool := (a <? b + k) && (b <? a + n).

(** The [n] bytes at [a] meet the application struct or a region node. *)
Definition touches (m : machine) (a n : Z) : bool :=
  overlap a n (self (app m)) sizeof_rbpf_application ||
  existsb (fun p => overlap a n p sizeof_rbpf_mem_region) (map_to_list (regions m)).*1.

Definition object_byte (m : machine) (b : Z) : Prop :=
  self (app m) <= b < self (app m) + sizeof_rbpf_application \/
  exists p, is_Some (regions m !! p) /\ p <= b < p + sizeof_rbpf_mem_region.

Lemma overlap_true a n b k :
  0 < n -> 0 < k -> overlap a n b k = true -> exists x, a <= x < a + n /\ b <= x < b + k.
Proof.
  unfold overlap. rewrite andb_true_iff, !Z.ltb_lt. intros. exists (Z.max a b). lia.
Qed.

(** The decision agrees with the set of bytes of the objects. *)
Lemma touches_spec m a n :
  0 < n -> touches m a n = true <-> exists b, a <= b < a + n /\ object_byte m b.
Proof.
  intros Hn. unfold touches, object_byte. rewrite orb_true_iff, existsb_exists. split.
  - intros [H|(p & Hp & H)]; apply overlap_true in H as (x & Hx & Hin); try done;
      exists x; (split; [done|]); [by left|right].
    exists p. split; [|done]. apply list_elem_of_In, list_elem_of_fmap in Hp as ([q r] & -> & Hq).
    apply elem_of_map_to_list in Hq. by exists r.
  - intros (x & Hx & [Hin|(p & [r Hr] & Hin)]); [left|right; exists p; split].
    + unfold overlap. rewrite andb_true_iff, !Z.ltb_lt. lia.
    + apply list_elem_of_In, list_elem_of_fmap. exists (p, r).
      split; [done|]. by apply elem_of_map_to_list.
    + unfold overlap. rewrite andb_true_iff, !Z.ltb_lt. lia.
Qed.

Lemma touches_false m a n :
  0 < n -> (forall b, a <= b < a + n -> ~ object_byte m b) -> touches m a n = false.
Proof.
  intros Hn H. apply not_true_is_false. rewrite touches_spec by done.
  intros (b & Hb & Ho). by apply (H b).
Qed.

(** ** Header accessors *)

Definition hdr_data_len (m : machine) : Z := rd32 (mem m) (u32 (application (app m) + 12)).
Definition hdr_rodata_len (m : machine) : Z := rd32 (mem m) (u32 (application (app m) + 16)).
Definition hdr_text_len (m : machine) : Z := rd32 (mem m) (u32 (application (app m) + 20)).

Definition rbpf_application_rodata (m : machine) : Z :=
  u32 (application (app m) + sizeof_rbpf_application + hdr_data_len m).
Definition rbpf_application_rodata_len (m : machine) : Z := hdr_rodata_len m.
Definition rbpf_application_data (m : machine) : Z :=
  u32 (application (app m) + sizeof_rbpf_application).
Definition rbpf_application_data_len (m : machine) : Z := hdr_data_len m.
Definition rbpf_application_text (m : machine) : Z :=
  u32 (application (app m) + sizeof_rbpf_header + hdr_data_len m + hdr_rodata_len m).
Definition rbpf_application_text_len (m : machine) : Z := hdr_text_len m.

(** ** Regions *)

(** The C function writes three members of an existing node and leaves
    [next] alone. *)
Definition rbpf_memory_region_init (p start' len' flags' : Z)
    (h : gmap Z rbpf_mem_region) : gmap Z rbpf_mem_region :=
  alter (fun r => {| next := next r; start := start'; len := len'; r_flags := flags' |}) p h.

Definition set_next (p q : Z) (h : gmap Z rbpf_mem_region) : gmap Z rbpf_mem_region :=
  alter (fun r => {| next := q; start := start r; len := len r; r_flags := r_flags r |}) p h.

Definition rbpf_application_setup (m : machine) (stack' application' application_len' : Z)
    : machine :=
  let a0 := app m in
  let a := {| self := self a0; application := application'; application_len := application_len';
              stack := stack'; flags := flags a0;
              branches_remaining := branches_remaining a0 |} in
  let m := with_app a m in
  let rw := Z.lor RBPF_MEM_REGION_READ RBPF_MEM_REGION_WRITE in
  let h := rbpf_memory_region_init (stack_region a) (stack a) RBPF_STACK_SIZE rw (regions m) in
  let h := rbpf_memory_region_init (data_region a) (rbpf_application_data m)
             (rbpf_application_data_len m) rw h in
  let h := rbpf_memory_region_init (rodata_region a) (rbpf_application_rodata m)
             (rbpf_application_rodata_len m) RBPF_MEM_REGION_READ h in
  let h := set_next (stack_region a) (data_region a) h in
  let h := set_next (data_region a) (rodata_region a) h in
  let h := set_next (rodata_region a) (arg_region a) h in
  with_app (set_flags (Z.lor (flags a) RBPF_FLAG_SETUP_DONE) a) (with_regions h m).

(** [None]: the argument region node does not exist. *)
Definition rbpf_add_region (m : machine) (region : Z) : option machine :=
  r ← regions m !! arg_region (app m);
  let h := set_next region (next r) (regions m) in
  Some (with_regions (set_next (arg_region (app m)) region h) m).

(** ** Access checks

    [addr] arrives as an [intptr_t] (signed 32 bits); [addr + size] is
    computed in [size_t] and converted back to [intptr_t]; the region bounds
    are compared as [intptr_t].  The list walk is a loop over pointers:
    [None] when it meets a dangling pointer or does not end within [fuel]
    nodes. *)

Definition region_allows (r : rbpf_mem_region) (addr end_ type : Z) : bool :=
  (s32 (start r) <=? addr) && (end_ <=? s32 (u32 (start r + len r))) &&
  has_flag (r_flags r) type.

Fixpoint check_mem_loop (fuel : nat) (h : gmap Z rbpf_mem_region)
    (region addr end_ type : Z) : option bool :=
  match fuel with
  | O => None
  | S fuel =>
      if region =? 0 then Some false
      else match h !! region with
           | None => None
           | Some r =>
               if region_allows r addr end_ type then Some true
               else check_mem_loop fuel h (next r) addr end_ type
           end
  end.

Definition _check_mem (m : machine) (addr size type : Z) : option bool :=
  let end_ := s32 (u32 (addr + size)) in
  check_mem_loop (S (base.size (regions m))) (regions m) (stack_region (app m)) addr end_ type.

Definition _check_load (m : machine) (addr size : Z) : option bool :=
  _check_mem m addr size RBPF_MEM_REGION_READ.
Definition _check_store (m : machine) (addr size : Z) : option bool :=
  _check_mem m addr size RBPF_MEM_REGION_WRITE.
Definition rbpf_store_allowed (m : machine) (addr size : Z) : option bool :=
  _check_store m (s32 addr) size.
Definition rbpf_load_allowed (m : machine) (addr size : Z) : option bool :=
  _check_load m (s32 addr) size.

(** ** The region list as a list

    [chain h p l]: following [next] from [p] visits exactly the nodes [l] and
    ends in NULL. *)

Inductive chain (h : gmap Z rbpf_mem_region) : Z -> list Z -> Prop :=
| chain_null : chain h 0 []
| chain_node p r l :
    p <> 0 -> h !! p = Some r -> chain h (next r) l -> chain h p (p :: l).

#[export] Hint Constructors chain : rbpf.

(** The region records of the nodes of a list. *)
Definition nodes (h : gmap Z rbpf_mem_region) (l : list Z) : list rbpf_mem_region :=
  omap (fun p => h !! p) l.

Section Chain.
Implicit Types (h : gmap Z rbpf_mem_region) (p q : Z) (l : list Z).

Lemma chain_det h p l1 l2 : chain h p l1 -> chain h p l2 -> l1 = l2.
Proof.
  intros H. revert l2. induction H as [|p r l Hp Hr _ IH]; intros l2 H2;
    inversion H2; simplify_eq; f_equal; auto.
Qed.

Lemma chain_suffix h p l q :
  chain h p l -> q ∈ l -> exists l', chain h q l' /\ (length l' <= length l)%nat.
Proof.
  intros H. induction H as [|p r l Hp Hr Hc IH]; intros Hq.
  - by apply not_elem_of_nil in Hq.
  - apply elem_of_cons in Hq as [->|Hq].
    + exists (p :: l). split; [econstructor; eauto|done].
    + destruct (IH Hq) as (l' & Hl' & Hlen). exists l'. cbn. split; [done|lia].
Qed.

(** A list that ends in NULL has no repeated node. *)
Lemma chain_NoDup h p l : chain h p l -> NoDup l.
Proof.
  intros H. induction H as [|p r l Hp Hr Hc IH]; constructor; [|done].
  intros Hin. destruct (chain_suffix _ _ _ _ Hc Hin) as (l' & Hl' & Hlen).
  assert (chain h p (p :: l)) as Hpl by (econstructor; eauto).
  pose proof (chain_det _ _ _ _ Hpl Hl') as <-. cbn in Hlen. lia.
Qed.

Lemma chain_in_dom h p l q : chain h p l -> q ∈ l -> is_Some (h !! q).
Proof.
  intros H. induction H; intros Hq; [by apply not_elem_of_nil in Hq|].
  apply elem_of_cons in Hq as [->|]; eauto.
Qed.

Lemma chain_length h p l : chain h p l -> (length l <= base.size h)%nat.
Proof.
  intros H. rewrite <- (size_dom (D := gset Z)).
  rewrite <- (size_list_to_set (C := gset Z) l) by (by eapply chain_NoDup).
  apply subseteq_size. intros q Hq%elem_of_list_to_set.
  apply elem_of_dom. by eapply chain_in_dom.
Qed.

Lemma chain_ext h h' p l :
  (forall q, q ∈ l -> h' !! q = h !! q) -> chain h p l -> chain h' p l.
Proof.
  intros Hext H. induction H as [|p r l Hp Hr Hc IH]; [constructor|].
  econstructor; [done| |].
  - rewrite Hext; [done|apply elem_of_cons; by left].
  - apply IH. intros q Hq. apply Hext, elem_of_cons. by right.
Qed.

Lemma check_mem_loop_chain fuel h p l addr end_ type :
  chain h p l -> (length l < fuel)%nat ->
  check_mem_loop fuel h p addr end_ type =
    Some (existsb (fun r => region_allows r addr end_ type) (nodes h l)).
Proof.
  intros H. revert fuel. induction H as [|p r l Hp Hr Hc IH]; intros [|fuel] Hf;
    cbn in Hf; try lia; cbn [check_mem_loop nodes omap list_omap].
  - done.
  - destruct (Z.eqb_spec p 0) as [|_]; [done|]. rewrite Hr. cbn [existsb].
    destruct (region_allows r addr end_ type); [done|]. apply IH. lia.
Qed.

Lemma set_next_lookup_ne h p q x : p <> x -> set_next p q h !! x = h !! x.
Proof. intros. unfold set_next. by rewrite lookup_alter_ne. Qed.

Lemma set_next_lookup h p q r :
  h !! p = Some r ->
  set_next p q h !! p =
    Some {| next := q; start := start r; len := len r; r_flags := r_flags r |}.
Proof. intros Hr. unfold set_next. by rewrite lookup_alter_eq, Hr. Qed.

Lemma region_init_lookup_ne h p x s n f :
  p <> x -> rbpf_memory_region_init p s n f h !! x = h !! x.
Proof. intros. unfold rbpf_memory_region_init. by rewrite lookup_alter_ne. Qed.

Lemma region_init_lookup h p s n f r :
  h !! p = Some r ->
  rbpf_memory_region_init p s n f h !! p =
    Some {| next := next r; start := s; len := n; r_flags := f |}.
Proof. intros Hr. unfold rbpf_memory_region_init. by rewrite lookup_alter_eq, Hr. Qed.
End Chain.

#[export] Hint Rewrite set_next_lookup_ne region_init_lookup_ne using lia : rbpf.

(** Inserting a fresh node after the node [p] of a chain. *)
Lemma chain_insert_after h p r q rq l1 l2 x :
  chain h x (l1 ++ p :: l2) -> h !! p = Some r -> h !! q = Some rq -> q <> 0 ->
  q ∉ l1 ++ p :: l2 ->
  chain (set_next p q (set_next q (next r) h)) x (l1 ++ p :: q :: l2).
Proof.
  intros Hc Hr Hq Hq0 Hnin.
  assert (p <> q) as Hpq by (intros ->; apply Hnin; set_solver).
  revert x Hc Hnin. induction l1 as [|y l1 IH]; cbn; intros x Hc Hnin.
  - inversion Hc as [|? r' ? Hp0 Hr' Hrest]; simplify_eq.
    pose proof (chain_NoDup _ _ _ Hc) as [Hpl2 _]%NoDup_cons.
    econstructor; [done| |cbn].
    { apply set_next_lookup. rewrite set_next_lookup_ne by done. done. }
    econstructor; [done| |cbn].
    { rewrite set_next_lookup_ne by done. by apply set_next_lookup. }
    eapply chain_ext; [|done]. intros z Hz.
    rewrite !set_next_lookup_ne; [done|set_solver|set_solver].
  - inversion Hc as [|? r' ? Hp0 Hr' Hrest]; simplify_eq.
    pose proof (chain_NoDup _ _ _ Hc) as [Hyl _]%NoDup_cons.
    econstructor; [done| |].
    { rewrite !set_next_lookup_ne by set_solver. done. }
    apply IH; [done|set_solver].
Qed.

(** ** What the access check grants *)

(** Regions below 2 GiB: every flash and RAM address of the target. *)
Definition region_low (r : rbpf_mem_region) : Prop :=
  0 <= start r /\ 0 <= len r /\ start r + len r < 2 ^ 31.

(** The documented policy: the bytes [addr, addr + size) lie in the region and
    the region has the permission. *)
Definition region_grants (r : rbpf_mem_region) (addr size type : Z) : Prop :=
  start r <= addr /\ addr + size <= start r + len r /\ has_flag (r_flags r) type = true.

Lemma region_allows_low r addr end_ type :
  region_low r ->
  region_allows r addr end_ type = true <->
  start r <= addr /\ end_ <= start r + len r /\ has_flag (r_flags r) type = true.
Proof.
  intros (H1 & H2 & H3). unfold region_allows.
  rewrite (wrap_small 32 (start r + len r)) by (unfold is_word; lia).
  rewrite !signed_small by lia. rewrite !andb_true_iff, !Z.leb_le. tauto.
Qed.

Lemma access_end addr size :
  - 2 ^ 31 <= addr -> 0 <= size <= 2 ^ 31 -> addr + size < 2 ^ 31 ->
  s32 (u32 (addr + size)) = addr + size.
Proof.
  intros. rewrite signed_wrap by lia.
  destruct (decide (0 <= addr + size)).
  - apply signed_small; lia.
  - unfold signed, wrap.
    rewrite <- (Z_mod_plus_full _ 1), Z.mod_small by lia.
    destruct (Z.ltb_spec (addr + size + 1 * 2 ^ 32) (2 ^ (32 - 1))); lia.
Qed.

(** Whatever [region_allows] accepts is inside the region, or the access
    reaches the 2 GiB boundary, where the signed end address wraps. *)
Lemma region_allows_inside r addr size type :
  region_low r -> - 2 ^ 31 <= addr < 2 ^ 31 -> 0 <= size <= 8 ->
  region_allows r addr (s32 (u32 (addr + size))) type = true ->
  region_grants r addr size type \/ 2 ^ 31 <= addr + size.
Proof.
  intros Hlow Ha Hs Hok. apply region_allows_low in Hok as (H1 & H2 & H3); [|done].
  destruct (decide (2 ^ 31 <= addr + size)); [by right|left].
  rewrite access_end in H2 by lia. by split_and!.
Qed.

Lemma nodes_in h l r : r ∈ nodes h l -> exists p, p ∈ l /\ h !! p = Some r.
Proof. intros (p & Hp & Hr)%list_elem_of_omap. eauto. Qed.

Lemma existsb_elem_of {A} (f : A -> bool) (l : list A) :
  existsb f l = true <-> exists x, x ∈ l /\ f x = true.
Proof.
  rewrite existsb_exists. split; intros (x & Hx & Hf); exists x;
    by rewrite list_elem_of_In in *.
Qed.

Lemma check_mem_chain m l addr size type :
  chain (regions m) (stack_region (app m)) l ->
  _check_mem m addr size type =
    Some (existsb (fun r => region_allows r addr (s32 (u32 (addr + size))) type)
            (nodes (regions m) l)).
Proof.
  intros Hc. apply check_mem_loop_chain; [done|].
  pose proof (chain_length _ _ _ Hc). lia.
Qed.

(** the software memory protection implements its policy: for an access
    that stays below the 2 GiB boundary and a region list of low regions, the
    list walk terminates and answers yes exactly when some region of the list
    contains the whole access and has the requested permission. *)
Theorem check_mem_policy (m : machine) (l : list Z) (addr size type : Z)
  (Hchain : chain (regions m) (stack_region (app m)) l)
  (Hlow : Forall region_low (nodes (regions m) l))
  (Hsize : 0 <= size <= 8)
  (Haddr : - 2 ^ 31 <= addr /\ addr + size < 2 ^ 31) :
  exists b, _check_mem m addr size type = Some b /\
    (b = true <-> exists r, r ∈ nodes (regions m) l /\ region_grants r addr size type).
Proof.
  eexists. split; [by apply check_mem_chain|].
  rewrite existsb_elem_of. rewrite Forall_forall in Hlow.
  split; intros (r & Hr & Hok); exists r; split; try done.
  - rewrite access_end, region_allows_low in Hok by (auto; lia). by destruct Hok as (?&?&?).
  - rewrite access_end, region_allows_low by (auto; lia). by destruct Hok as (?&?&?).
Qed.

(** ** Building the region list *)

(** The four region members of the struct exist as nodes. *)
Definition has_nodes (m : machine) : Prop :=
  0 < self (app m) /\
  is_Some (regions m !! stack_region (app m)) /\ is_Some (regions m !! data_region (app m)) /\
  is_Some (regions m !! rodata_region (app m)) /\ is_Some (regions m !! arg_region (app m)).

(** What setup leaves of the node that carries the caller's argument. *)
Definition arg_next (m : machine) : Z :=
  default 0 (next <$> regions m !! arg_region (app m)).

(** Looks a node up through the writes of [rbpf_application_setup]. *)
Ltac lookup_regions :=
  cbn; unfold set_next, rbpf_memory_region_init, stack_region, data_region, rodata_region; cbn;
  rewrite !lookup_alter; repeat case_decide; try lia; try done.

(** after setup the region list is stack, data, rodata, argument and then
    whatever the argument node already pointed to; the stack and data
    regions are read-write, the rodata region is read-only, and their bounds
    are those the header accessors give. *)
Theorem setup_regions (m : machine) (st ap n : Z) (l : list Z)
  (Hnodes : has_nodes m)
  (Htail : chain (regions m) (arg_next m) l)
  (Hfresh : Forall (fun p => p ∉ l)
     [stack_region (app m); data_region (app m); rodata_region (app m); arg_region (app m)]) :
  let m' := rbpf_application_setup m st ap n in
  let a := app m in
  chain (regions m') (stack_region (app m'))
    (stack_region a :: data_region a :: rodata_region a :: arg_region a :: l) /\
  regions m' !! stack_region a =
    Some {| next := data_region a; start := st; len := RBPF_STACK_SIZE; r_flags := 3 |} /\
  regions m' !! data_region a =
    Some {| next := rodata_region a; start := rbpf_application_data m';
            len := rbpf_application_data_len m'; r_flags := 3 |} /\
  regions m' !! rodata_region a =
    Some {| next := arg_region a; start := rbpf_application_rodata m';
            len := rbpf_application_rodata_len m'; r_flags := RBPF_MEM_REGION_READ |} /\
  regions m' !! arg_region a = regions m !! arg_region a.
Proof.
  destruct Hnodes as (Hself & [rs Hs] & [rd Hd] & [rr Hr] & [ra Ha]).
  unfold arg_next in Htail. rewrite Ha in Htail. cbn in Htail.
  rewrite !Forall_cons in Hfresh. destruct Hfresh as (F1 & F2 & F3 & F4 & _).
  intros m' a. set (h := regions m').
  unfold stack_region, data_region, rodata_region, arg_region in *.
  assert (forall x, x <> self a -> x <> self a + 32 -> x <> self a + 16 ->
    h !! x = regions m !! x) as Hother by (intros; subst h m' a; lookup_regions).
  assert (h !! self a = Some {| next := self a + 32; start := st;
    len := RBPF_STACK_SIZE; r_flags := 3 |}) as H1
    by (subst h m' a; lookup_regions; by rewrite Hs).
  assert (h !! (self a + 32) = Some {| next := self a + 16; start := rbpf_application_data m';
    len := rbpf_application_data_len m'; r_flags := 3 |}) as H2
    by (subst h m' a; lookup_regions; by rewrite Hd).
  assert (h !! (self a + 16) = Some {| next := self a + 48;
    start := rbpf_application_rodata m';
    len := rbpf_application_rodata_len m'; r_flags := RBPF_MEM_REGION_READ |}) as H3
    by (subst h m' a; lookup_regions; by rewrite Hr).
  assert (h !! (self a + 48) = Some ra) as H4 by (rewrite Hother; [done|lia..]).
  split_and!; [|done|done|done|by rewrite H4].
  change (self (app m')) with (self a).
  econstructor; [subst a; lia|done|]. econstructor; [subst a; lia|done|].
  econstructor; [subst a; lia|done|]. econstructor; [subst a; lia|done|].
  eapply chain_ext; [|done]. intros q Hq. apply Hother; intros ->; auto.
Qed.

(** adding a region that is not yet in the list inserts it right after
    the argument region and changes nothing else. *)
Theorem add_region_inserts (m : machine) (l1 l2 : list Z) (p : Z)
  (Hchain : chain (regions m) (stack_region (app m)) (l1 ++ arg_region (app m) :: l2))
  (Hnode : is_Some (regions m !! p)) (Hp : p <> 0)
  (Hnew : p ∉ l1 ++ arg_region (app m) :: l2) :
  exists m', rbpf_add_region m p = Some m' /\ app m' = app m /\ mem m' = mem m /\
    chain (regions m') (stack_region (app m')) (l1 ++ arg_region (app m) :: p :: l2) /\
    (forall q, start <$> regions m' !! q = start <$> regions m !! q) /\
    (forall q, len <$> regions m' !! q = len <$> regions m !! q) /\
    (forall q, r_flags <$> regions m' !! q = r_flags <$> regions m !! q).
Proof.
  destruct Hnode as [rp Hrp].
  assert (is_Some (regions m !! arg_region (app m))) as [r Hr].
  { eapply chain_in_dom; [done|]. set_solver. }
  unfold rbpf_add_region. rewrite Hr. cbn. eexists. split; [done|]. cbn.
  split_and!; [done|done|by eapply chain_insert_after|..];
    intros q; unfold set_next;
    rewrite !lookup_alter; repeat case_decide; subst;
    by repeat match goal with |- context [?h !! ?k] => destruct (h !! k) end.
Qed.
