(* ===== verification/RbpfVerify.v ===== *)
(** * The pre-flight verifier

    Models 06-rbpf-bench/src/RIOT/sys/rbpf/verify.c: one pass over the text
    section that rejects bad register numbers, jumps out of the text, unknown
    calls and programs that do not end in a return. *)

From stdpp Require Import base gmap list.
From Stdlib Require Import ZArith Lia.
From S2P Require Import Prelude RbpfIsa Rbpf.

Local Open Scope Z_scope.

Definition _rbpf_check_call (num : Z) : bool :=
  match rbpf_get_external_call num with Some _ => true | None => false end.

(** The body of the [for] loop at the instruction [ins] located at [i]: the
    error it returns, if any.  Pointers are compared as [intptr_t]. *)
Definition verify_insn (application end_ i : Z) (ins : bpf_instruction) : option Z :=
  if (11 <=? dst ins) || (11 <=? src ins) then Some RBPF_ILLEGAL_REGISTER
  else if opcode ins =? 0x18 then None
  else
    let target := s32 (u32 (i + offset ins * sizeof_bpf_instruction)) in
    if (Z.land (opcode ins) BPF_INSTRUCTION_CLS_MASK =? BPF_INSTRUCTION_CLS_BRANCH) &&
       ((s32 end_ <=? target) || (target <? s32 application))
    then Some RBPF_ILLEGAL_JUMP
    else if (opcode ins =? Z.lor BPF_INSTRUCTION_BRANCH_CALL BPF_INSTRUCTION_CLS_BRANCH) &&
            negb (_rbpf_check_call (u32 (immediate ins)))
    then Some RBPF_ILLEGAL_CALL
    else None.

(** The [for] loop from [i] on; [None] when [fuel] iterations do not end it. *)
Fixpoint verify_loop (fuel : nat) (mm : memory) (application end_ i : Z) : option Z :=
  match fuel with
  | O => None
  | S fuel =>
      if i <? end_ then
        let ins := fetch mm i in
        match verify_insn application end_ i ins with
        | Some err => Some err
        | None =>
            let i := if opcode ins =? 0x18 then u32 (i + sizeof_bpf_instruction) else i in
            verify_loop fuel mm application end_ (u32 (i + sizeof_bpf_instruction))
        end
      else Some RBPF_OK
  end.

Definition rbpf_application_verify_preflight (m : machine) : option (Z * machine) :=
  let application := rbpf_application_text m in
  let length := rbpf_application_text_len m in
  if has_flag (flags (app m)) RBPF_FLAG_PREFLIGHT_DONE then Some (RBPF_OK, m)
  else if negb (Z.land length 0x7 =? 0) then Some (RBPF_ILLEGAL_LEN, m)
  else
    res ← verify_loop (S (Z.to_nat (length / sizeof_bpf_instruction))) (mem m)
            application (u32 (application + length)) application;
    if negb (res =? RBPF_OK) then Some (res, m)
    else
      let num_instructions := length / sizeof_bpf_instruction in
      let last := fetch (mem m)
        (u32 (application + u32 (num_instructions - 1) * sizeof_bpf_instruction)) in
      if negb (opcode last =? 0x95) && negb (has_flag (flags (app m)) RBPF_CONFIG_NO_RETURN)
      then Some (RBPF_NO_RETURN, m)
      else Some (RBPF_OK,
             with_app (set_flags (Z.lor (flags (app m)) RBPF_FLAG_PREFLIGHT_DONE) (app m)) m).

(** ** The text as an array of instructions *)

Section Text.
Variable m : machine.

(** Instruction number [k] of the text and the number of instructions. *)
Definition insn_at (k : Z) : bpf_instruction :=
  fetch (mem m) (rbpf_application_text m + k * sizeof_bpf_instruction).

Definition text_size : Z := rbpf_application_text_len m / sizeof_bpf_instruction.

(** The text lies low enough that no pointer of the pass wraps. *)
Definition text_low : Prop :=
  8 <= rbpf_application_text m /\
  rbpf_application_text m + rbpf_application_text_len m + 2 ^ 18 < 2 ^ 31.

(** The text is a whole number of instructions. *)
Definition text_whole : Prop := rbpf_application_text_len m mod 8 = 0.

(** The slots the pass looks at: it skips the slot after each 0x18. *)
Definition advance (k : Z) : Z := if opcode (insn_at k) =? 0x18 then k + 2 else k + 1.

Inductive visited_from : Z -> Z -> Prop :=
| visited_here k : visited_from k k
| visited_next k j : k < text_size -> visited_from (advance k) j -> visited_from k j.

Definition visited (k : Z) : Prop := visited_from 0 k.

(** What the pass requires of a slot it looks at. *)
Definition slot_ok (k : Z) : Prop :=
  let ins := insn_at k in
  dst ins < 11 /\ src ins < 11 /\
  (Z.land (opcode ins) BPF_INSTRUCTION_CLS_MASK = BPF_INSTRUCTION_CLS_BRANCH ->
     0 <= k + offset ins < text_size) /\
  opcode ins <> 0x85.

(** ** Lemmas *)

Lemma text_size_le : 8 * text_size <= rbpf_application_text_len m /\ 0 <= text_size.
Proof using Type.
  pose proof (rd32_range (mem m) (u32 (application (app m) + 20))) as Hr.
  unfold is_word in Hr. fold (hdr_text_len m) in Hr.
  unfold text_size, rbpf_application_text_len, sizeof_bpf_instruction in *.
  pose proof (Z.div_mod (hdr_text_len m) 8). pose proof (Z.mod_pos_bound (hdr_text_len m) 8). lia.
Qed.

Hypothesis Hlow : text_low.
Hypothesis Hwhole : text_whole.

Let text := rbpf_application_text m.
Let end_ := u32 (text + rbpf_application_text_len m).

Lemma text_size_spec : rbpf_application_text_len m = 8 * text_size /\ 0 <= text_size.
Proof using Hwhole.
  destruct text_size_le as [_ Hpos]. split; [|done].
  unfold text_whole, text_size, sizeof_bpf_instruction in *.
  pose proof (Z.div_mod (rbpf_application_text_len m) 8). lia.
Qed.

Lemma end_spec : end_ = text + 8 * text_size.
Proof using Hlow Hwhole.
  destruct text_size_spec as [Hlen Hpos]. destruct Hlow as (H8 & Hhi).
  unfold end_. rewrite wrap_small by (unfold is_word; subst text; lia). lia.
Qed.

(** A pointer of the pass, in bounds or one jump away, does not wrap. *)
Lemma pointer_small k off :
  0 <= k <= text_size + 1 -> -32768 <= off < 32768 ->
  s32 (u32 (text + k * 8 + off * 8)) = text + k * 8 + off * 8.
Proof using Hlow Hwhole.
  intros Hk Hoff. destruct text_size_spec as [Hlen Hpos]. destruct Hlow as (H8 & Hhi).
  fold text in H8, Hhi.
  replace (text + k * 8 + off * 8) with ((text + k * 8 + off * 8 - 0) + 0) by lia.
  apply access_end; lia.
Qed.

Lemma verify_insn_spec k :
  0 <= k < text_size ->
  (verify_insn text end_ (text + k * 8) (insn_at k) = None <-> slot_ok k) /\
  (forall e, verify_insn text end_ (text + k * 8) (insn_at k) = Some e ->
     e < 0 /\ e <> RBPF_ILLEGAL_LEN).
Proof using Hlow Hwhole.
  intros Hk. destruct text_size_spec as [Hlen Hpos].
  destruct Hlow as (H8 & Hhi). fold text in H8, Hhi.
  pose proof (fetch_ranges (mem m) (text + k * sizeof_bpf_instruction)) as Hr.
  change (fetch (mem m) _) with (insn_at k) in Hr. unfold verify_insn, slot_ok.
  set (ins := insn_at k) in *.
  unfold sizeof_bpf_instruction in *.
  rewrite pointer_small by lia.
  rewrite end_spec. rewrite !signed_small by lia.
  change (Z.lor BPF_INSTRUCTION_BRANCH_CALL BPF_INSTRUCTION_CLS_BRANCH) with 0x85.
  change (_rbpf_check_call (u32 (immediate ins))) with false.
  unfold RBPF_ILLEGAL_REGISTER, RBPF_ILLEGAL_JUMP, RBPF_ILLEGAL_CALL, RBPF_ILLEGAL_LEN.
  destruct (Z.leb_spec 11 (dst ins)), (Z.leb_spec 11 (src ins)); cbn [orb];
    try (split; [split; [done|lia]|intros e [= <-]; lia]).
  destruct (Z.eqb_spec (opcode ins) 0x18) as [E|E].
  { split; [|done]. split; [intros _|done]. rewrite E.
    split_and!; try lia; try done. }
  destruct (Z.eqb_spec (Z.land (opcode ins) BPF_INSTRUCTION_CLS_MASK)
    BPF_INSTRUCTION_CLS_BRANCH) as [Ec|Ec]; cbn [andb];
    destruct (Z.leb_spec (text + 8 * text_size) (text + k * 8 + offset ins * 8));
    destruct (Z.ltb_spec (text + k * 8 + offset ins * 8) text); cbn [orb];
    destruct (Z.eqb_spec (opcode ins) 0x85) as [E85|E85]; cbn [andb negb];
    (split; [split; try done; intros; try (split_and!; intros; try done; lia); naive_solver lia
            |by intros e [= <-] || done]).
Qed.

Lemma verify_loop_spec fuel k :
  0 <= k <= text_size + 1 -> (Z.to_nat (text_size - k) < fuel)%nat ->
  exists r, verify_loop fuel (mem m) text end_ (text + k * 8) = Some r /\ r <= 0 /\
    r <> RBPF_ILLEGAL_LEN /\
    (r = RBPF_OK <-> forall j, visited_from k j -> j < text_size -> slot_ok j).
Proof using Hlow Hwhole.
  revert k. induction fuel as [|fuel IH]; intros k Hk Hf; [lia|].
  destruct text_size_spec as [Hlen Hpos].
  pose proof Hlow as (H8 & Hhi). fold text in H8, Hhi.
  cbn [verify_loop]. rewrite end_spec in *.
  destruct (Z.ltb_spec (text + k * 8) (text + 8 * text_size)) as [Hlt|Hge].
  - change (fetch (mem m) (text + k * 8)) with (insn_at k).
    destruct (verify_insn_spec k ltac:(lia)) as [Hiff Hneg]. rewrite end_spec in *.
    destruct (verify_insn _ _ _ _) as [e|] eqn:Hv.
    + exists e. destruct (Hneg e eq_refl) as [Hneg' Hel]. split_and!; [done|lia|done|].
      unfold RBPF_OK. split; [lia|]. intros Hall.
      specialize (Hall k (visited_here k) ltac:(lia)). apply Hiff in Hall. done.
    + assert (slot_ok k) as Hok by (by apply Hiff).
      assert (exists r, verify_loop fuel (mem m) text (text + 8 * text_size)
                (text + advance k * 8) = Some r /\ r <= 0 /\
                r <> RBPF_ILLEGAL_LEN /\ (r = RBPF_OK <-> forall j, visited_from (advance k) j -> j < text_size -> slot_ok j))
        as (r & Hr & Hr0 & Hrl & Hiffr).
      { apply IH; unfold advance; case_match; lia. }
      exists r. split_and!; [|done|done|].
      * rewrite <- Hr. f_equal. unfold advance, sizeof_bpf_instruction.
        case_match; rewrite ?(wrap_small 32) by (unfold is_word; rewrite ?(wrap_small 32) by (unfold is_word; lia); lia); lia.
      * rewrite Hiffr. split; intros Hall j Hj Hlt'.
        -- inversion Hj; subst; [done|]. by apply Hall.
        -- apply Hall; [|done]. by constructor; [lia|].
  - exists RBPF_OK. split_and!; [done|done|done|]. split; [intros _|done].
    intros j Hj Hlt. inversion Hj; subst; lia.
Qed.
End Text.

(** ** The verdict *)

Definition preflight_done (m : machine) : bool :=
  has_flag (flags (app m)) RBPF_FLAG_PREFLIGHT_DONE.

(** The last instruction is a return, or the application is exempt. *)
Definition ends_in_return (m : machine) : Prop :=
  opcode (insn_at m (text_size m - 1)) = 0x95 \/
  has_flag (flags (app m)) RBPF_CONFIG_NO_RETURN = true.

Lemma land7_mod8 x : (Z.land x 7 =? 0) = (x mod 8 =? 0).
Proof. change 7 with (Z.ones 3). by rewrite Z.land_ones by lia. Qed.

Lemma last_pointer m :
  text_low m -> text_whole m ->
  u32 (rbpf_application_text m +
       u32 (rbpf_application_text_len m / sizeof_bpf_instruction - 1) * sizeof_bpf_instruction) =
  rbpf_application_text m + (text_size m - 1) * sizeof_bpf_instruction.
Proof.
  intros Hlow Hwhole. destruct (text_size_spec m Hwhole) as [Hlen Hpos].
  destruct Hlow as (H8 & Hhi). fold (text_size m). unfold sizeof_bpf_instruction.
  destruct (decide (text_size m = 0)) as [->|].
  - change (u32 (0 - 1)) with (2 ^ 32 - 1).
    replace (rbpf_application_text m + (2 ^ 32 - 1) * 8) with
      ((rbpf_application_text m - 8) + 8 * 2 ^ 32) by lia.
    unfold wrap. rewrite Z_mod_plus_full, Z.mod_small by lia. lia.
  - rewrite (wrap_small 32 (text_size m - 1)), wrap_small by (unfold is_word; lia). lia.
Qed.

(** The conditions under which a text that was not yet verified is accepted. *)
Definition acceptable (m : machine) : Prop :=
  text_whole m /\ (forall k, visited m k -> k < text_size m -> slot_ok m k) /\ ends_in_return m.

(** The machine with the verdict recorded. *)
Definition accepted (m : machine) : machine :=
  with_app (set_flags (Z.lor (flags (app m)) RBPF_FLAG_PREFLIGHT_DONE) (app m)) m.

Lemma preflight_new m :
  text_low m -> preflight_done m = false ->
  exists r m', rbpf_application_verify_preflight m = Some (r, m') /\ r <= 0 /\
    (r = RBPF_OK <-> acceptable m) /\
    (r = RBPF_ILLEGAL_LEN <-> ~ text_whole m) /\
    m' = (if r =? RBPF_OK then accepted m else m).
Proof.
  intros Hlow Hnew. unfold rbpf_application_verify_preflight. fold (preflight_done m).
  rewrite Hnew, land7_mod8. unfold acceptable. unfold text_whole at 1 2.
  destruct (Z.eqb_spec (rbpf_application_text_len m mod 8) 0) as [Hw|Hne]; cbn [negb].
  2: { do 2 eexists. split; [done|]. unfold RBPF_ILLEGAL_LEN, RBPF_OK. cbn. split_and!; naive_solver lia. }
  destruct (text_size_spec m Hw) as [Hlen Hpos].
  destruct (verify_loop_spec m Hlow Hw (S (Z.to_nat (text_size m))) 0 ltac:(lia) ltac:(lia))
    as (r & Hr & Hr0 & Hlen' & Hiff).
  rewrite Z.mul_0_l, Z.add_0_r in Hr. fold (text_size m). rewrite Hr. cbn [mbind option_bind].
  fold (visited m) in Hiff. unfold RBPF_OK, RBPF_ILLEGAL_LEN in *.
  destruct (Z.eqb_spec r 0) as [Hz|Hnz]; cbn [negb].
  - unfold text_size at 1. rewrite last_pointer by done. fold (insn_at m (text_size m - 1)).
    assert (Hall : forall k, visited m k -> k < text_size m -> slot_ok m k) by (by apply Hiff).
    unfold ends_in_return.
    destruct (Z.eqb_spec (opcode (insn_at m (text_size m - 1))) 0x95) as [E|E]; cbn [negb andb];
      [|destruct (has_flag (flags (app m)) RBPF_CONFIG_NO_RETURN) eqn:Ef; cbn [negb]];
      do 2 eexists; (split; [done|]); unfold RBPF_NO_RETURN; split_and!; naive_solver lia.
  - exists r, m. split_and!; [done|done| |naive_solver lia|by destruct (Z.eqb_spec r 0)].
    split; [done|]. intros (_ & Hall & _). by apply Hiff in Hall.
Qed.

