(* ===== verification/RbpfEngine.v ===== *)
(** * The rBPF interpreter

    Models 06-rbpf-bench/src/RIOT/sys/rbpf/engine.c and the entry point
    rbpf_application_run_ctx of rbpf/rbpf.c.  One call of [_rbpf_instruction]
    is one execution of the C switch; C undefined behaviour it can reach is an
    explicit outcome [Err], with the reason, never a made-up value.  So is an
    access of the application to the host's own application struct or region
    nodes, and an instruction fetch from them: what C does then depends on
    bytes [mem] does not hold, and the theorems below show under which layout
    it cannot happen. *)

From stdpp Require Import base gmap list.
From Stdlib Require Import ZArith Lia.
From S2P Require Import Prelude RbpfIsa Rbpf RbpfVerify.

Local Open Scope Z_scope.

Inductive ub :=
| UB_shift       (* shift count negative or not below the operand's width *)
| UB_overflow    (* negation of the least value of a signed type *)
| UB_div0        (* division by a zero operand *)
| UB_register    (* index outside regmap[11] *)
| UB_region      (* dangling or cyclic region list *)
| UB_object      (* a granted load or store that meets the struct or a node *)
| UB_fetch.      (* an instruction fetched from the struct or from a node *)

#[export] Instance ub_eq_dec : EqDecision ub.
Proof. solve_decision. Defined.

(** The interpreter's locals: the register file and the instruction pointer. *)
Record vm := {
  mach : machine;
  regmap : list Z;     (* uint64_t regmap[11] *)
  instr : Z            (* const bpf_instruction_t * *)
}.

Definition with_regmap (r : list Z) (s : vm) : vm :=
  {| mach := mach s; regmap := r; instr := instr s |}.
Definition with_instr (i : Z) (s : vm) : vm :=
  {| mach := mach s; regmap := regmap s; instr := i |}.
Definition with_mach (m : machine) (s : vm) : vm :=
  {| mach := m; regmap := regmap s; instr := instr s |}.

(** [regmap[i]] as an operand and as the target of an assignment. *)
Definition get_reg (s : vm) (i : Z) : res ub Z :=
  match regmap s !! Z.to_nat i with Some v => Ok v | None => Err UB_register end.

Definition set_reg (s : vm) (i v : Z) : res ub vm :=
  match regmap s !! Z.to_nat i with
  | Some _ => Ok (with_regmap (<[Z.to_nat i := v]> (regmap s)) s)
  | None => Err UB_register
  end.

(** ** Arithmetic *)

Definition shift_count (w c : Z) : res ub Z :=
  if (0 <=? c) && (c <? w) then Ok c else Err UB_shift.

(** 64-bit cases on the operand values.  An immediate operand has been
    converted to [uint64_t] (sign extension); a negative shift count is then
    at least 2^63, so it is undefined either way.  MOD and DIV are reached
    behind the zero test of [div_guard]. *)
Definition alu64 (op : alu_op) (d s : Z) : res ub Z :=
  match op with
  | ADD => Ok (u64 (d + s))
  | SUB => Ok (u64 (d - s))
  | AND => Ok (Z.land d s)
  | OR => Ok (Z.lor d s)
  | LSH => c ← shift_count 64 s; Ok (u64 (Z.shiftl d c))
  | RSH => c ← shift_count 64 s; Ok (Z.shiftr d c)
  | XOR => Ok (Z.lxor d s)
  | MUL => Ok (u64 (d * s))
  | MOD => if s =? 0 then Err UB_div0 else Ok (d mod s)
  | DIV => if s =? 0 then Err UB_div0 else Ok (d / s)
  | MOV => Ok s
  | ARSH => c ← shift_count 64 s; Ok (u64 (Z.shiftr (s64 d) c))
  end.

(** 32-bit cases.  [d] and [s] are the full 64-bit register values (or the
    [int32_t] immediate): the shift count of ARSH is the full operand,
    everything else uses its low 32 bits; the two ARSH and NEG results are
    signed 32-bit values, so storing them in a register sign-extends. *)
Definition alu32 (op : alu_op) (d s : Z) : res ub Z :=
  let d32 := u32 d in
  let r32 := u32 s in
  match op with
  | ADD => Ok (u32 (d32 + r32))
  | SUB => Ok (u32 (d32 - r32))
  | AND => Ok (Z.land d32 r32)
  | OR => Ok (Z.lor d32 r32)
  | LSH => c ← shift_count 32 r32; Ok (u32 (Z.shiftl d32 c))
  | RSH => c ← shift_count 32 r32; Ok (Z.shiftr d32 c)
  | XOR => Ok (Z.lxor d32 r32)
  | MUL => Ok (u32 (d32 * r32))
  | MOD => if r32 =? 0 then Err UB_div0 else Ok (d32 mod r32)
  | DIV => if r32 =? 0 then Err UB_div0 else Ok (d32 / r32)
  | MOV => Ok r32
  | ARSH => c ← shift_count 32 s; Ok (u64 (Z.shiftr (s32 d) c))
  end.

Definition neg64 (d : Z) : res ub Z :=
  if s64 d =? - 2 ^ 63 then Err UB_overflow else Ok (u64 (- s64 d)).
Definition neg32 (d : Z) : res ub Z :=
  if s32 d =? - 2 ^ 31 then Err UB_overflow else Ok (u64 (- s32 d)).

(** The test in front of the division cases; it looks at the full operand. *)
Definition div_guard (op : alu_op) (s : Z) : bool :=
  match op with MOD | DIV => s =? 0 | _ => false end.

(** ** Conditional jumps *)

Definition jump_cond (op : jmp_op) (d s : Z) : bool :=
  match op with
  | JEQ => u64 d =? u64 s
  | JGT => u64 s <? u64 d
  | JGE => u64 s <=? u64 d
  | JLT => u64 d <? u64 s
  | JLE => u64 d <=? u64 s
  | JSET => negb (Z.land (u64 d) (u64 s) =? 0)
  | JNE => negb (u64 d =? u64 s)
  | JSGT => s64 s <? s64 d
  | JSGE => s64 s <=? s64 d
  | JSLT => s64 d <? s64 s
  | JSLE => s64 d <=? s64 s
  end.

Definition _rbpf_over_max_jumps (m : machine) : bool :=
  negb (has_flag (flags (app m)) RBPF_CONFIG_NO_RETURN) && (branches_remaining (app m) =? 0).

Definition _rbpf_jump (s : vm) (i : bpf_instruction) : Z * vm :=
  let s := with_instr (u32 (instr s + offset i * sizeof_bpf_instruction)) s in
  let m := mach s in
  let m := with_app (set_branches (u32 (branches_remaining (app m) - 1)) (app m)) m in
  let s := with_mach m s in
  if _rbpf_over_max_jumps m then (RBPF_OUT_OF_BRANCHES, s) else (RBPF_CONTINUE, s).

Definition _rbpf_get_call (num : Z) : option rbpf_call_t := rbpf_get_external_call num.

(** ** Memory cases *)

Definition of_check (b : option bool) : res ub bool :=
  match b with Some b => Ok b | None => Err UB_region end.

(** MEM_STX and MEM_ST: check, then evaluate the operand and store its low
    bytes. *)
Definition exec_store (s : vm) (base off : Z) (v : res ub Z) (sz : mem_size)
    : res ub (Z * vm) :=
  let addr := u64 (base + off) in
  ok ← of_check (_check_store (mach s) (s32 addr) (Z.of_nat (sizeof sz)));
  if negb ok then Ok (RBPF_ILLEGAL_MEM, s)
  else if touches (mach s) (u32 addr) (Z.of_nat (sizeof sz)) then Err UB_object
  else
    v ← v;
    let m := mach s in
    Ok (RBPF_CONTINUE, with_mach (with_mem (wr_le (mem m) (u32 addr) (sizeof sz) v) m) s).

(** MEM_LDX: check, load and zero-extend. *)
Definition exec_load (s : vm) (base off d : Z) (sz : mem_size) : res ub (Z * vm) :=
  let addr := u64 (base + off) in
  ok ← of_check (_check_load (mach s) (s32 addr) (Z.of_nat (sizeof sz)));
  if negb ok then Ok (RBPF_ILLEGAL_MEM, s)
  else if touches (mach s) (u32 addr) (Z.of_nat (sizeof sz)) then Err UB_object
  else
    s ← set_reg s d (rd_le (mem (mach s)) (u32 addr) (sizeof sz));
    Ok (RBPF_CONTINUE, s).

(** The double-slot loads: [base] is what DST is first set to, the second
    immediate is that of the next slot, and the pointer moves to that slot. *)
Definition exec_wide (s : vm) (i : bpf_instruction) (v : Z) : res ub (Z * vm) :=
  if touches (mach s) (u32 (instr s + sizeof_bpf_instruction)) sizeof_bpf_instruction
  then Err UB_fetch
  else
    s ← set_reg s (dst i) v;
    Ok (RBPF_CONTINUE, with_instr (u32 (instr s + sizeof_bpf_instruction)) s).

Definition second_imm (s : vm) : Z :=
  immediate (fetch (mem (mach s)) (u32 (instr s + sizeof_bpf_instruction))).

Definition lddw_value (lo hi : Z) : Z := Z.lor (u64 lo) (u64 (Z.shiftl (u64 hi) 32)).
Definition lddw_rel_value (base lo hi : Z) : Z :=
  u64 (u64 (u64 (s32 base) + u64 lo) + u64 (Z.shiftl (u64 hi) 32)).

(** ** One instruction *)

Definition exec_alu (f : alu_op -> Z -> Z -> res ub Z) (s : vm) (i : bpf_instruction)
    (op : alu_op) (v : Z) : res ub (Z * vm) :=
  if div_guard op v then Ok (RBPF_ILLEGAL_DIV, s)
  else
    d ← get_reg s (dst i);
    o ← f op d v;
    s ← set_reg s (dst i) o;
    Ok (RBPF_CONTINUE, s).

Definition exec_neg (f : Z -> res ub Z) (s : vm) (i : bpf_instruction) : res ub (Z * vm) :=
  d ← get_reg s (dst i);
  o ← f d;
  s ← set_reg s (dst i) o;
  Ok (RBPF_CONTINUE, s).

Definition cont_jump (s : vm) (i : bpf_instruction) (cond : bool) : Z * vm :=
  if cond then _rbpf_jump s i else (RBPF_CONTINUE, s).

Definition _rbpf_instruction (s : vm) : res ub (Z * vm) :=
  if touches (mach s) (instr s) sizeof_bpf_instruction then Err UB_fetch else
  let i := fetch (mem (mach s)) (instr s) in
  match decode (opcode i) with
  | ALU64_REG op => v ← get_reg s (src i); exec_alu alu64 s i op v
  | ALU64_IMM op => exec_alu alu64 s i op (u64 (immediate i))
  | ALU32_REG op => v ← get_reg s (src i); exec_alu alu32 s i op v
  | ALU32_IMM op => exec_alu alu32 s i op (immediate i)
  | ALU64_NEG => exec_neg neg64 s i
  | ALU32_NEG => exec_neg neg32 s i
  | MEM_LDDW => exec_wide s i (lddw_value (immediate i) (second_imm s))
  | MEM_LDDWD =>
      exec_wide s i (lddw_rel_value (rbpf_application_data (mach s)) (immediate i) (second_imm s))
  | MEM_LDDWR =>
      exec_wide s i (lddw_rel_value (rbpf_application_rodata (mach s)) (immediate i) (second_imm s))
  | MEM_STX sz =>
      d ← get_reg s (dst i); exec_store s d (offset i) (get_reg s (src i)) sz
  | MEM_ST sz =>
      d ← get_reg s (dst i); exec_store s d (offset i) (Ok (u64 (immediate i))) sz
  | MEM_LDX sz =>
      v ← get_reg s (src i); exec_load s v (offset i) (dst i) sz
  | JMP_ALWAYS => Ok (_rbpf_jump s i)
  | JMP_REG op =>
      d ← get_reg s (dst i); v ← get_reg s (src i); Ok (cont_jump s i (jump_cond op d v))
  | JMP_IMM op =>
      d ← get_reg s (dst i); Ok (cont_jump s i (jump_cond op d (immediate i)))
  | CALL =>
      match _rbpf_get_call (u32 (immediate i)) with
      | Some call =>
          let '(v, m, r) := call (mach s) (regmap s) in
          s ← set_reg (with_regmap r (with_mach m s)) 0 v;
          Ok (RBPF_CONTINUE, s)
      | None => Ok (RBPF_ILLEGAL_CALL, s)
      end
  | RETURN => Ok (RBPF_OK, s)
  | ILLEGAL => Ok (RBPF_ILLEGAL_INSTRUCTION, s)
  end.

(** ** The run loop *)

(** One iteration of the [do] loop: the instruction, then [instr++]. *)
Definition run_step (s : vm) : res ub (Z * vm) :=
  '(r, s) ← _rbpf_instruction s;
  Ok (r, with_instr (u32 (instr s + sizeof_bpf_instruction)) s).

Inductive outcome :=
| Exit (code : Z) (s : vm)
| Undefined (u : ub)
| OutOfFuel.

Fixpoint run_loop (fuel : nat) (s : vm) : outcome :=
  match fuel with
  | O => OutOfFuel
  | S fuel =>
      match run_step s with
      | Err u => Undefined u
      | Ok (r, s) => if 0 <? r then run_loop fuel s else Exit r s
      end
  end.

Inductive run_result :=
| Returned (code : Z) (result : option Z) (m : machine)  (* [*result] if written *)
| RunUndefined (u : ub)
| RunOutOfFuel
| AssertFailed.

Definition engine_start (m : machine) (ctx : Z) : vm :=
  {| mach := m;
     regmap := [0; u32 ctx; 0; 0; 0; 0; 0; 0; 0; 0; u32 (stack (app m) + RBPF_STACK_SIZE)];
     instr := rbpf_application_text m |}.

Definition rbpf_engine_run (fuel : nat) (m : machine) (ctx : Z) : run_result :=
  let m := with_app (set_branches RBPF_BRANCHES_ALLOWED (app m)) m in
  let s := engine_start m ctx in
  match rbpf_application_verify_preflight m with
  | None => RunOutOfFuel
  | Some (r, m) =>
      if r <? 0 then Returned r None m
      else match run_loop fuel (with_mach m s) with
           | Exit r s => Returned r (Some (s64 (default 0 (regmap s !! 0%nat)))) (mach s)
           | Undefined u => RunUndefined u
           | OutOfFuel => RunOutOfFuel
           end
  end.

Definition rbpf_application_run_ctx (fuel : nat) (m : machine) (ctx ctx_len : Z) : run_result :=
  let m := with_regions
    (rbpf_memory_region_init (arg_region (app m)) ctx ctx_len
       (Z.lor RBPF_MEM_REGION_READ RBPF_MEM_REGION_WRITE) (regions m)) m in
  if has_flag (flags (app m)) RBPF_FLAG_SETUP_DONE then rbpf_engine_run fuel m ctx
  else AssertFailed.

(** ** What one instruction can change *)

(** The register file is well formed: eleven 64-bit values. *)
Definition regs_ok (s : vm) : Prop :=
  length (regmap s) = 11%nat /\ Forall (is_word 64) (regmap s).

(** The slots an instruction occupies. *)
Definition insn_slots (i : insn) : Z :=
  match i with MEM_LDDW | MEM_LDDWD | MEM_LDDWR => 2 | _ => 1 end.

Definition is_jump (i : insn) : bool :=
  match i with JMP_ALWAYS | JMP_REG _ | JMP_IMM _ => true | _ => false end.

(** Everything of the machine but its byte memory and its branch budget. *)
Definition same_frame (m m' : machine) : Prop :=
  regions m' = regions m /\ self (app m') = self (app m) /\
  application (app m') = application (app m) /\ stack (app m') = stack (app m) /\
  application_len (app m') = application_len (app m) /\ flags (app m') = flags (app m).

(** The byte memory is unchanged, or it was written by one granted store. *)
Definition mem_step (m m' : machine) : Prop :=
  mem m' = mem m \/
  exists addr sz v, _check_store m (s32 addr) (Z.of_nat (sizeof sz)) = Some true /\
    mem m' = wr_le (mem m) (u32 addr) (sizeof sz) v.

(** Instructions after which control can reach the next one. *)
Definition falls_through (i : insn) : bool :=
  match i with RETURN | CALL | ILLEGAL | JMP_ALWAYS => false | _ => true end.

(** How control moves when the instruction asks to continue. *)
Inductive flow (s s' : vm) (i : bpf_instruction) : Prop :=
| flow_next :
    falls_through (decode (opcode i)) = true ->
    instr s' = (if insn_slots (decode (opcode i)) =? 2
                then u32 (instr s + sizeof_bpf_instruction) else instr s) ->
    branches_remaining (app (mach s')) = branches_remaining (app (mach s)) ->
    flow s s' i
| flow_jump :
    is_jump (decode (opcode i)) = true ->
    instr s' = u32 (instr s + offset i * sizeof_bpf_instruction) ->
    branches_remaining (app (mach s')) = u32 (branches_remaining (app (mach s)) - 1) ->
    _rbpf_over_max_jumps (mach s') = false ->
    flow s s' i.

Lemma set_reg_Ok s d v s' :
  set_reg s d v = Ok s' ->
  s' = with_regmap (<[Z.to_nat d := v]> (regmap s)) s /\ (Z.to_nat d < length (regmap s))%nat.
Proof.
  unfold set_reg. destruct (regmap s !! Z.to_nat d) eqn:E; [|done].
  intros [= <-]. split; [done|]. by eapply lookup_lt_Some.
Qed.

Ltac inv_set_reg :=
  repeat match goal with
  | H : set_reg _ _ _ = Ok _ |- _ => apply set_reg_Ok in H as [-> ?]
  end.

Lemma of_check_Ok b x : of_check b = Ok x -> b = Some x.
Proof. destruct b; cbn; by intros [= ->]. Qed.

(** Case analysis of one defined execution of the switch. *)
Ltac inv_instruction H :=
  unfold _rbpf_instruction, exec_alu, exec_neg, exec_wide, exec_store, exec_load,
    cont_jump, _rbpf_jump, _rbpf_get_call, rbpf_get_external_call in H;
  repeat match type of H with
  | context [match decode ?o with _ => _ end] =>
      let E := fresh "Edec" in destruct (decode o) eqn:E; try discriminate H
  | context [if ?b then _ else _] =>
      let E := fresh "Eif" in destruct b eqn:E; try discriminate H
  | mbind _ _ = Ok _ =>
      let a := fresh "a" in let Ha := fresh "Ha" in
      apply res_bind_Ok in H as (a & Ha & H)
  end;
  try injection H as <- <-.

Lemma instruction_frame s r s' :
  _rbpf_instruction s = Ok (r, s') ->
  same_frame (mach s) (mach s') /\ mem_step (mach s) (mach s').
Proof.
  intros H. unfold same_frame, mem_step.
  inv_instruction H; inv_set_reg; cbn; (split; [done|]); try (by left).
  all: right; match goal with E : negb ?a = false, C : of_check _ = Ok ?a |- _ =>
    apply of_check_Ok in C; apply negb_false_iff in E; subst end; eauto.
Qed.

Lemma instruction_flow s r s' :
  _rbpf_instruction s = Ok (r, s') -> 0 < r ->
  flow s s' (fetch (mem (mach s)) (instr s)).
Proof.
  intros H Hr.
  inv_instruction H; inv_set_reg; cbn in Hr |- *;
    try (exfalso; unfold RBPF_OUT_OF_BRANCHES, RBPF_ILLEGAL_CALL, RBPF_OK, RBPF_ILLEGAL_MEM,
      RBPF_ILLEGAL_INSTRUCTION, RBPF_ILLEGAL_DIV in Hr; lia);
    first [by apply flow_next; rewrite ?Edec | by apply flow_jump; rewrite ?Edec].
Qed.

Lemma instruction_code s r s' : _rbpf_instruction s = Ok (r, s') -> r = RBPF_CONTINUE \/ -9 <= r <= 0.
Proof.
  intros H. inv_instruction H;
    unfold RBPF_OUT_OF_BRANCHES, RBPF_ILLEGAL_CALL, RBPF_OK, RBPF_ILLEGAL_MEM,
      RBPF_ILLEGAL_INSTRUCTION, RBPF_ILLEGAL_DIV, RBPF_CONTINUE; lia.
Qed.

(** ** The register file stays well formed *)

Lemma shift_count_Ok w c x : shift_count w c = Ok x -> x = c /\ 0 <= c < w.
Proof.
  unfold shift_count. destruct (Z.leb_spec 0 c), (Z.ltb_spec c w); cbn; intros [= <-]. lia.
Qed.

Lemma alu64_word op d s v :
  is_word 64 d -> is_word 64 s -> alu64 op d s = Ok v -> is_word 64 v.
Proof.
  intros Hd Hs H. destruct op; cbn in H; try case_match; res_inv; subst;
    try (apply shift_count_Ok in Ha as [-> ?]); auto with words lia.
Qed.

Lemma alu32_word op d s v : alu32 op d s = Ok v -> is_word 64 v.
Proof.
  intros H. assert (is_word 32 (u32 d) /\ is_word 32 (u32 s)) as [Hd Hs] by auto with words lia.
  destruct op; cbn in H; try case_match; res_inv; subst;
    try (apply shift_count_Ok in Ha as [-> ?]); auto with words lia;
    apply (is_word_mono 32); auto with words lia.
Qed.

Lemma neg_word f d v : f = neg64 \/ f = neg32 -> f d = Ok v -> is_word 64 v.
Proof.
  intros [-> | ->]; unfold neg64, neg32; case_match; intros [= <-]; auto with words lia.
Qed.

Lemma lddw_word lo hi : is_word 64 (lddw_value lo hi).
Proof. unfold lddw_value. auto with words lia. Qed.

Lemma lddw_rel_word base lo hi : is_word 64 (lddw_rel_value base lo hi).
Proof. unfold lddw_rel_value. auto with words lia. Qed.

Lemma rd_le_word m a sz : is_word 64 (rd_le m a (sizeof sz)).
Proof.
  pose proof (rd_le_range m a (sizeof sz)). unfold is_word. destruct sz; cbn in *; lia.
Qed.

Lemma regs_ok_set s d v :
  regs_ok s -> is_word 64 v -> regs_ok (with_regmap (<[Z.to_nat d := v]> (regmap s)) s).
Proof.
  intros [H1 H2] Hv. split; cbn; [by rewrite length_insert|].
  by apply Forall_insert.
Qed.

Lemma regs_ok_get s i v : regs_ok s -> get_reg s i = Ok v -> is_word 64 v.
Proof.
  intros [_ H] Hg. unfold get_reg in Hg. case_match; [|done]. injection Hg as <-.
  by eapply Forall_lookup_1 in H.
Qed.

Lemma regs_ok_ext s s' : regmap s' = regmap s -> regs_ok s -> regs_ok s'.
Proof. unfold regs_ok. by intros ->. Qed.

(** Every defined instruction keeps the register file well formed. *)
Lemma instruction_preserves_regs (s s' : vm) (r : Z)
  (Hregs : regs_ok s) (Hstep : _rbpf_instruction s = Ok (r, s')) : regs_ok s'.
Proof.
  inv_instruction Hstep; inv_set_reg; try done; try (by eapply regs_ok_ext; [|done]).
  all: eapply regs_ok_ext; [|apply regs_ok_set; [exact Hregs|]]; [done|].
  all: first
    [ apply rd_le_word | apply lddw_word | apply lddw_rel_word
    | eapply alu32_word; eassumption
    | solve [eapply neg_word; [|eassumption]; auto]
    | eapply alu64_word; [..|eassumption]; try (by eapply regs_ok_get);
      apply wrap_range; lia ].
Qed.

(** ** Memory isolation *)

(** [a] is a byte some region of the list [l] allows the application to write. *)
Definition writable (m : machine) (l : list Z) (a : Z) : Prop :=
  exists r, r ∈ nodes (regions m) l /\ start r <= a < start r + len r /\
    has_flag (r_flags r) RBPF_MEM_REGION_WRITE = true.

(** The few bytes around the 2 GiB boundary, where the end of an access wraps
    to a negative [intptr_t] and the check does not hold. *)
Definition near_2G (a : Z) : Prop := 2 ^ 31 - 8 <= a < 2 ^ 31 + 8.

(** Bytes that may differ between two memories. *)
Definition confined (m : machine) (l : list Z) (b b' : memory) : Prop :=
  forall a, rd8 b' a = rd8 b a \/ writable m l a \/ near_2G a.

(** The region list of [m] is [l], made of low regions. *)
Definition regions_ok (m : machine) (l : list Z) : Prop :=
  chain (regions m) (stack_region (app m)) l /\ Forall region_low (nodes (regions m) l).

Lemma confined_refl m l b : confined m l b b.
Proof. intros a. by left. Qed.

Lemma confined_trans m l b1 b2 b3 :
  confined m l b1 b2 -> confined m l b2 b3 -> confined m l b1 b3.
Proof.
  intros H1 H2 a. destruct (H1 a) as [E1|]; [|by right]. destruct (H2 a) as [E2|]; [|by right].
  left. congruence.
Qed.

Lemma same_frame_refl m : same_frame m m.
Proof. by unfold same_frame. Qed.

Lemma same_frame_trans m1 m2 m3 : same_frame m1 m2 -> same_frame m2 m3 -> same_frame m1 m3.
Proof. unfold same_frame. intros H1 H2. destruct_and!. split_and!; congruence. Qed.

Lemma regions_ok_frame m m' l : same_frame m m' -> regions_ok m l -> regions_ok m' l.
Proof.
  intros (Hr & Hs & _) [Hc Hl]. unfold regions_ok, stack_region. rewrite Hr, Hs. done.
Qed.

Lemma confined_frame m m' l b b' :
  same_frame m m' -> confined m' l b b' -> confined m l b b'.
Proof.
  intros (Hr & _) H a. destruct (H a) as [|[(r & H1 & H2)|]]; [by left| |by right; right].
  right; left. exists r. by rewrite Hr in H1.
Qed.

Lemma u32_of_nonneg_s32 z : 0 <= s32 z -> u32 z = s32 z.
Proof.
  intros H. rewrite <- (wrap_signed 32) by lia. apply wrap_small.
  pose proof (signed_range 32 z). unfold is_word. lia.
Qed.

(** The bytes of the application image the host itself reads: the header and
    the text. *)
Definition image_byte (m : machine) (a : Z) : Prop :=
  application (app m) <= a < application (app m) + sizeof_rbpf_header \/
  rbpf_application_text m <= a < rbpf_application_text m + rbpf_application_text_len m.

(** The struct and the region nodes lie apart from every region of the list
    [l], from the header and the text, and from the 2 GiB address. *)
Definition objects_apart (m : machine) (l : list Z) : Prop :=
  forall a, object_byte m a -> ~ near_2G a /\ ~ image_byte m a /\
    Forall (fun r => ~ start r <= a < start r + len r) (nodes (regions m) l).

Lemma object_byte_frame m m' a :
  self (app m') = self (app m) -> regions m' = regions m -> object_byte m' a -> object_byte m a.
Proof. unfold object_byte. by intros -> ->. Qed.

(** An access the check grants meets no object that lies apart. *)
Lemma granted_apart m l addr sz type :
  regions_ok m l ->
  (forall a, object_byte m a -> ~ near_2G a /\
     Forall (fun r => ~ start r <= a < start r + len r) (nodes (regions m) l)) ->
  _check_mem m (s32 addr) (Z.of_nat (sizeof sz)) type = Some true ->
  touches m (u32 addr) (Z.of_nat (sizeof sz)) = false.
Proof.
  intros [Hc Hlow] Hap Hok.
  assert (0 < Z.of_nat (sizeof sz) <= 8) as Hsz by (destruct sz; cbn; lia).
  erewrite check_mem_chain in Hok by done. injection Hok as (r & Hr & Hok)%existsb_elem_of.
  rewrite Forall_forall in Hlow. specialize (Hlow r Hr).
  pose proof (signed_range 32 addr ltac:(lia)) as Hrange.
  assert (start r <= s32 addr) as Hst by (apply region_allows_low in Hok; tauto).
  assert (0 <= start r) as Hst0 by apply Hlow.
  apply region_allows_inside in Hok; [|done|lia|lia].
  rewrite (u32_of_nonneg_s32 addr) by lia.
  apply touches_false; [lia|]. intros b Hb Ho. destruct (Hap b Ho) as [Hn Hf].
  rewrite Forall_forall in Hf. specialize (Hf r Hr).
  destruct Hok as [(H1 & H2 & _)|]; [lia|]. apply Hn. unfold near_2G. lia.
Qed.

(** A granted store touches only writable bytes or bytes at the boundary. *)
Lemma granted_store_confined m l addr sz v :
  regions_ok m l -> _check_store m (s32 addr) (Z.of_nat (sizeof sz)) = Some true ->
  confined m l (mem m) (wr_le (mem m) (u32 addr) (sizeof sz) v).
Proof.
  intros [Hc Hlow] Hok a. unfold _check_store in Hok.
  erewrite check_mem_chain in Hok by done. injection Hok as (r & Hr & Hok)%existsb_elem_of.
  rewrite Forall_forall in Hlow. specialize (Hlow r Hr).
  pose proof (signed_range 32 addr ltac:(lia)) as Hrange.
  assert (0 <= Z.of_nat (sizeof sz) <= 8) as Hsz by (destruct sz; cbn; lia).
  assert (start r <= s32 addr) as Hst by (apply region_allows_low in Hok; tauto).
  assert (0 <= start r) as Hst0 by apply Hlow.
  apply region_allows_inside in Hok; [|done|lia|lia].
  rewrite (u32_of_nonneg_s32 addr) by lia.
  destruct (decide (s32 addr <= a < s32 addr + Z.of_nat (sizeof sz))) as [Hin|Hout].
  - right. destruct Hok as [(H1 & H2 & H3)|]; [left|right; unfold near_2G; lia].
    exists r. split_and!; [done|lia|lia|done].
  - left. apply rd8_wr_le_out. lia.
Qed.

Lemma instruction_confined s r s' l :
  regions_ok (mach s) l -> _rbpf_instruction s = Ok (r, s') ->
  confined (mach s) l (mem (mach s)) (mem (mach s')).
Proof.
  intros Hreg [_ [-> | (addr & sz & v & Hok & ->)]]%instruction_frame.
  - apply confined_refl.
  - by apply granted_store_confined.
Qed.

(** Computations that never end in [UB_object]. *)
Definition no_alias {A} (r : res ub A) : Prop := r <> Err UB_object.

Lemma no_alias_bind {A B} (r : res ub A) (f : A -> res ub B) :
  no_alias r -> (forall a, no_alias (f a)) -> no_alias (mbind f r).
Proof. unfold no_alias. destruct r; cbn; [auto|congruence]. Qed.

Lemma no_alias_Ok {A} (a : A) : no_alias (Ok a : res ub A).
Proof. discriminate. Qed.

Lemma no_alias_shift w c : no_alias (shift_count w c).
Proof. unfold shift_count. by case_match. Qed.

Lemma no_alias_get s i : no_alias (get_reg s i).
Proof. unfold get_reg. by case_match. Qed.

Lemma no_alias_set s i v : no_alias (set_reg s i v).
Proof. unfold set_reg. by case_match. Qed.

Create HintDb no_alias.
#[export] Hint Resolve no_alias_bind no_alias_Ok no_alias_shift no_alias_get no_alias_set : no_alias.

Lemma no_alias_alu op d v : no_alias (alu64 op d v) /\ no_alias (alu32 op d v).
Proof. destruct op; cbn; split; repeat case_match; auto with no_alias; done. Qed.

Lemma no_alias_neg d : no_alias (neg64 d) /\ no_alias (neg32 d).
Proof. unfold neg64, neg32. split; by case_match. Qed.

Lemma instruction_objects s l :
  regions_ok (mach s) l ->
  (forall a, object_byte (mach s) a -> ~ near_2G a /\
     Forall (fun r => ~ start r <= a < start r + len r) (nodes (regions (mach s)) l)) ->
  no_alias (_rbpf_instruction s).
Proof.
  intros Hreg Hap.
  assert (forall base off v sz, no_alias v -> no_alias (exec_store s base off v sz)) as Hst.
  { intros base off v sz Hv. unfold exec_store.
    destruct (_check_store _ _ _) as [[|]|] eqn:E; cbn; try done.
    rewrite (granted_apart _ l _ _ _ Hreg Hap E). auto with no_alias. }
  assert (forall base off d sz, no_alias (exec_load s base off d sz)) as Hld.
  { intros base off d sz. unfold exec_load.
    destruct (_check_load _ _ _) as [[|]|] eqn:E; cbn; try done.
    rewrite (granted_apart _ l _ _ _ Hreg Hap E). auto with no_alias. }
  unfold _rbpf_instruction. case_match; [done|].
  set (i := fetch _ _). clearbody i.
  destruct (decode (opcode i)); unfold exec_alu, exec_neg, exec_wide;
    repeat (case_match; try done); auto with no_alias;
    repeat (apply no_alias_bind; [|intros]); auto with no_alias;
    repeat case_match; repeat (apply no_alias_bind; [|intros]); auto with no_alias;
    apply no_alias_alu || apply no_alias_neg.
Qed.

Lemma run_step_frame s r s' l :
  regions_ok (mach s) l -> run_step s = Ok (r, s') ->
  same_frame (mach s) (mach s') /\ confined (mach s) l (mem (mach s)) (mem (mach s')).
Proof.
  intros Hreg H. unfold run_step in H. apply res_bind_Ok in H as ([r1 s1] & H1 & [= <- <-]).
  split; [by apply instruction_frame in H1 as [? _]|].
  by eapply instruction_confined in H1.
Qed.

Lemma run_loop_confined fuel s code s' l :
  regions_ok (mach s) l -> run_loop fuel s = Exit code s' ->
  same_frame (mach s) (mach s') /\ confined (mach s) l (mem (mach s)) (mem (mach s')).
Proof.
  revert s. induction fuel as [|fuel IH]; intros s Hreg H; cbn in H; [done|].
  destruct (run_step s) as [[r s1]|] eqn:Hs; [|done].
  destruct (run_step_frame _ _ _ _ Hreg Hs) as [Hf Hc].
  destruct (0 <? r).
  - apply IH in H as [Hf' Hc']; [|by eapply regions_ok_frame].
    split; [by eapply same_frame_trans|]. eapply confined_trans; [done|].
    by eapply confined_frame.
  - injection H as <- <-. done.
Qed.

Lemma preflight_frame m r m' :
  rbpf_application_verify_preflight m = Some (r, m') ->
  regions m' = regions m /\ mem m' = mem m /\ self (app m') = self (app m) /\
  application (app m') = application (app m) /\ stack (app m') = stack (app m) /\
  application_len (app m') = application_len (app m) /\
  branches_remaining (app m') = branches_remaining (app m).
Proof.
  unfold rbpf_application_verify_preflight. intros H.
  repeat (case_match || (destruct (verify_loop _ _ _ _ _); cbn in H) || simplify_eq); done.
Qed.

(** A run that returns keeps the regions and the image, and stores only where a
    region of the list grants it. *)
Lemma engine_run_frame fuel m m' ctx code result l :
  regions_ok m l -> rbpf_engine_run fuel m ctx = Returned code result m' ->
  regions m' = regions m /\ self (app m') = self (app m) /\
  application (app m') = application (app m) /\ stack (app m') = stack (app m) /\
  application_len (app m') = application_len (app m) /\ confined m l (mem m) (mem m').
Proof.
  unfold rbpf_engine_run. intros Hreg Hrun.
  destruct (rbpf_application_verify_preflight _) as [[r m1]|] eqn:Hp; [|done].
  apply preflight_frame in Hp as (Hr & Hm & Hs & Ha & Hst & Hal & _). cbn in Hr, Hm, Hs, Ha, Hst, Hal.
  destruct (r <? 0).
  { injection Hrun as <- <- <-. rewrite Hr, Hm. split_and!; [done..|]. apply confined_refl. }
  destruct (run_loop _ _) as [c s| |] eqn:Hl; try done. injection Hrun as <- <- <-.
  apply (run_loop_confined _ _ _ _ l) in Hl as [(Hr' & Hs' & Ha' & Hst' & Hal' & _) Hc].
  - cbn in *. split_and!; [congruence..|]. rewrite <- Hm. intros a.
    destruct (Hc a) as [|[(x & Hx & ?)|]]; [by left| |by right; right].
    right; left. exists x. by rewrite Hr in Hx.
  - destruct Hreg as [Hc Hl0]. unfold regions_ok, stack_region in *. cbn.
    by rewrite Hr, Hs.
Qed.

Lemma run_loop_objects fuel s l :
  regions_ok (mach s) l ->
  (forall a, object_byte (mach s) a -> ~ near_2G a /\
     Forall (fun r => ~ start r <= a < start r + len r) (nodes (regions (mach s)) l)) ->
  run_loop fuel s <> Undefined UB_object.
Proof.
  revert s. induction fuel as [|fuel IH]; intros s Hreg Hap; cbn; [done|].
  destruct (run_step s) as [[r s1]|u] eqn:Hs.
  - destruct (run_step_frame _ _ _ _ Hreg Hs) as [Hf _].
    destruct (0 <? r); [|done]. apply IH; [by eapply regions_ok_frame|].
    destruct Hf as (Hr & Hsf & _). rewrite Hr. intros a Ha. apply Hap.
    by eapply object_byte_frame.
  - intros [= ->]. unfold run_step in Hs.
    destruct (_rbpf_instruction s) as [[]|] eqn:Hi; cbn in Hs; [done|].
    injection Hs as ->. by eapply instruction_objects.
Qed.

Lemma engine_run_objects fuel m ctx l :
  regions_ok m l -> objects_apart m l -> rbpf_engine_run fuel m ctx <> RunUndefined UB_object.
Proof.
  unfold rbpf_engine_run. intros Hreg Hap.
  destruct (rbpf_application_verify_preflight _) as [[r m1]|] eqn:Hp; [|done].
  apply preflight_frame in Hp as (Hr & Hm & Hs & Ha & _). cbn in Hr, Hm, Hs, Ha.
  destruct (r <? 0); [done|].
  pose proof (run_loop_objects fuel
    (with_mach m1 (engine_start (with_app (set_branches RBPF_BRANCHES_ALLOWED (app m)) m) ctx)) l)
    as H.
  destruct (run_loop _ _) as [| |]; [done| |done]. intros [= ->]. apply H; [| |done]; cbn.
  - destruct Hreg as [Hc Hl0]. unfold regions_ok, stack_region in *. by rewrite Hr, Hs.
  - rewrite Hr. intros a Ho. by destruct (Hap a) as (? & _ & ?); [eapply object_byte_frame|].
Qed.

(** C1: memory isolation of the virtual machine, for a region list that ends in NULL
    with every region below 2 GiB, when the application struct and the region
    nodes lie apart from the regions, from the image's header and text and from
    the 2 GiB address: whatever program runs and for however long, no load or
    store the access check grants reaches the struct or a node; and a run that
    returns has left every byte of the memory alone except those of a region
    with write permission (and the bytes next to the 2 GiB address, where the
    check wraps), the region list and its nodes, and every member of the struct
    but the branch budget and the flags. *)
Theorem engine_isolation (fuel : nat) (m : machine) (ctx : Z) (l : list Z)
  (Hreg : regions_ok m l) (Hapart : objects_apart m l) :
  rbpf_engine_run fuel m ctx <> RunUndefined UB_object /\
  forall code result m', rbpf_engine_run fuel m ctx = Returned code result m' ->
    regions m' = regions m /\
    self (app m') = self (app m) /\ application (app m') = application (app m) /\
    stack (app m') = stack (app m) /\ application_len (app m') = application_len (app m) /\
    forall a, rd8 (mem m') a = rd8 (mem m) a \/ writable m l a \/ near_2G a.
Proof.
  split; [by eapply engine_run_objects|]. intros code result m' Hrun.
  destruct (engine_run_frame _ _ _ _ _ _ _ Hreg Hrun) as (Hr & Hs & Ha & Hst & Hl & Hc).
  by split_and!.
Qed.

(** ** Arithmetic corner cases *)

(** The value the high half of the two-slot load contributes. *)
Lemma lddw_high hi : u64 (Z.shiftl (u64 hi) 32) = Z.shiftl (u32 hi) 32.
Proof.
  rewrite !Z.shiftl_mul_pow2 by lia. unfold wrap.
  change (2 ^ 64) with (2 ^ 32 * 2 ^ 32). rewrite Z.mul_mod_distr_r by lia.
  f_equal. by apply (wrap_wrap_le 32 64).
Qed.

Lemma lor_high_halves a b c :
  is_word 32 b -> Z.lor (a * 2 ^ 32 + b) (Z.shiftl c 32) = Z.lor a c * 2 ^ 32 + b.
Proof.
  intros Hb. rewrite !(lor_halves 32) by (done || lia). rewrite Z.shiftl_lor.
  rewrite <- !Z.lor_assoc. f_equal. apply Z.lor_comm.
Qed.

(** the two-slot load LDDW puts the 64-bit constant (hi, lo) in its
    register exactly when the low immediate is not negative or the high one is
    all ones: a negative low half is sign-extended over the high half. *)
Theorem lddw_exact (lo hi : Z) (Hlo : - 2 ^ 31 <= lo < 2 ^ 31) (Hhi : - 2 ^ 31 <= hi < 2 ^ 31) :
  lddw_value lo hi = u32 hi * 2 ^ 32 + u32 lo <-> 0 <= lo \/ u32 hi = 2 ^ 32 - 1.
Proof.
  unfold lddw_value. rewrite lddw_high.
  pose proof (wrap_range 32 hi ltac:(lia)) as Hh. pose proof (wrap_range 32 lo ltac:(lia)) as Hl.
  destruct (decide (0 <= lo)) as [Hpos|Hneg].
  - split; [by left|]. intros _.
    rewrite !(wrap_small _ lo) by (unfold is_word; lia).
    rewrite <- (Z.add_0_l lo) at 1. rewrite <- (Z.mul_0_l (2 ^ 32)) at 1.
    rewrite lor_high_halves by (unfold is_word; lia). by rewrite Z.lor_0_l.
  - assert (u32 lo = lo + 2 ^ 32) as ->.
    { unfold wrap. rewrite <- (Z_mod_plus_full _ 1), Z.mod_small; lia. }
    assert (u64 lo = Z.ones 32 * 2 ^ 32 + (lo + 2 ^ 32)) as ->.
    { unfold wrap. rewrite <- (Z_mod_plus_full _ 1), Z.mod_small; [|lia].
      change (Z.ones 32) with (2 ^ 32 - 1). lia. }
    rewrite lor_high_halves by (unfold is_word; lia).
    assert (Z.lor (Z.ones 32) (u32 hi) = Z.ones 32) as ->.
    { rewrite Z.lor_comm. apply Z.lor_ones_low; [apply Hh|].
      destruct (decide (u32 hi = 0)) as [->|]; [done|].
      apply Z.log2_lt_pow2; unfold is_word in Hh; lia. }
    change (Z.ones 32) with (2 ^ 32 - 1). split; [|lia]. intros. right. lia.
Qed.

(** the zero test in front of a 32-bit division looks at the whole 64-bit
    operand: the division itself is by zero exactly when the operand is not
    zero but its low 32 bits are; for 64-bit division this never happens. *)
Theorem div_guard_exact (s : vm) (i : bpf_instruction) (op : alu_op) (d v : Z)
  (Hreg : get_reg s (dst i) = Ok d) (Hop : op = DIV \/ op = MOD) :
  (exec_alu alu32 s i op v = Err UB_div0 <-> v <> 0 /\ u32 v = 0) /\
  exec_alu alu64 s i op v <> Err UB_div0.
Proof.
  assert (forall x, exists s', set_reg s (dst i) x = Ok s') as Hset.
  { intros x. unfold get_reg, set_reg in *. destruct (regmap s !! _); [by eexists|done]. }
  assert (div_guard op v = (v =? 0)) as Hg by (by destruct Hop; subst).
  unfold exec_alu. rewrite Hg, Hreg. cbn [mbind res_bind].
  destruct (Z.eqb_spec v 0) as [->|Hv]; [naive_solver|].
  destruct Hop; subst; cbn [alu32 alu64];
    (destruct (Z.eqb_spec v 0); [done|]); cbn [mbind res_bind];
    destruct (Z.eqb_spec (u32 v) 0) as [E|E]; cbn [mbind res_bind];
    repeat match goal with |- context [set_reg s (dst i) ?x] =>
      let s2 := fresh "s" in destruct (Hset x) as [s2 ->] end;
    cbn [mbind res_bind]; naive_solver.
Qed.
