(* ===== verification/RbpfSafety.v ===== *)
(** * Control-flow safety and termination of the rBPF interpreter

    The verifier of verify.c and the interpreter of engine.c together: which
    programs stay inside their text, never index outside the register file
    and always return; what the verifier establishes of that and what it
    leaves open. *)

From stdpp Require Import base gmap list.
From Stdlib Require Import ZArith Lia.
From S2P Require Import Prelude RbpfIsa Rbpf RbpfVerify RbpfEngine.

Local Open Scope Z_scope.

(** ** Safe texts *)

Definition mem_Z (k : Z) (B : list Z) : bool := bool_decide (k ∈ B).

(** The successors of the instruction in slot [k] are instruction starts. *)
Definition succ_in (B : list Z) (k : Z) (ins : bpf_instruction) : bool :=
  match decode (opcode ins) with
  | RETURN | CALL | ILLEGAL => true
  | JMP_ALWAYS => mem_Z (k + 1 + offset ins) B
  | JMP_REG _ | JMP_IMM _ => mem_Z (k + 1) B && mem_Z (k + 1 + offset ins) B
  | i => mem_Z (k + insn_slots i) B
  end.

(** [B] is a set of instruction starts inside the text, closed under control
    flow from slot 0, whose instructions name existing registers. *)
Definition safe_text (m : machine) (B : list Z) : bool :=
  mem_Z 0 B &&
  forallb (fun k => (0 <=? k) && (k <? text_size m) &&
    (dst (insn_at m k) <? 11) && (src (insn_at m k) <? 11) && succ_in B k (insn_at m k)) B.

(** No region of the list lets the application write its own text. *)
Definition text_protected (m : machine) (l : list Z) : Prop :=
  forall a, rbpf_application_text m <= a <
              rbpf_application_text m + rbpf_application_text_len m -> ~ writable m l a.

Lemma mem_Z_spec k B : mem_Z k B = true <-> k ∈ B.
Proof. apply bool_decide_eq_true. Qed.

Section Safe.
(** The machine when the run loop starts. *)
Variables (m0 : machine) (l : list Z) (B : list Z).
Hypothesis Hregions : regions_ok m0 l.
Hypothesis Hlow : text_low m0.
Hypothesis Hprot : text_protected m0 l.
Hypothesis Hsafe : safe_text m0 B = true.
Hypothesis Hapart : objects_apart m0 l.
Hypothesis Hret : has_flag (flags (app m0)) RBPF_CONFIG_NO_RETURN = false.

Local Notation text := (rbpf_application_text m0).
Local Notation n := (text_size m0).

(** The interpreter is at the start of instruction [k] of the text, which
    still holds its initial contents, with a valid register file. *)
Record at_insn (k : Z) (s : vm) : Prop := {
  at_frame : same_frame m0 (mach s);
  at_regs : regs_ok s;
  at_text : same_on (mem m0) (mem (mach s)) text (text + 8 * n);
  at_start : k ∈ B;
  at_instr : instr s = text + k * 8;
  at_budget : 1 <= branches_remaining (app (mach s)) <= RBPF_BRANCHES_ALLOWED
}.

Lemma safe_at k : k ∈ B ->
  0 <= k < n /\ dst (insn_at m0 k) < 11 /\ src (insn_at m0 k) < 11 /\
  succ_in B k (insn_at m0 k) = true.
Proof using Hsafe.
  intros Hk. unfold safe_text in Hsafe. apply andb_true_iff in Hsafe as [_ H].
  rewrite forallb_forall in H. specialize (H k ltac:(by apply list_elem_of_In)).
  rewrite !andb_true_iff, Z.leb_le, !Z.ltb_lt in H. tauto.
Qed.

Lemma at_fetch k s : at_insn k s -> fetch (mem (mach s)) (instr s) = insn_at m0 k.
Proof using Hsafe.
  intros H. destruct (safe_at k (at_start _ _ H)) as (Hk & _).
  rewrite (at_instr _ _ H). unfold insn_at, sizeof_bpf_instruction.
  apply fetch_ext. eapply same_on_weaken; [apply H|lia|].
  unfold sizeof_bpf_instruction. lia.
Qed.

Lemma text_bounds : 8 <= text /\ 0 <= n /\ text + 8 * n + 2 ^ 18 < 2 ^ 31 /\
  8 * n <= rbpf_application_text_len m0.
Proof using Hlow.
  destruct (text_size_le m0) as [H1 H2]. destruct Hlow as (H8 & Hhi). lia.
Qed.

(** Every slot of the text lies apart from the struct and the nodes. *)
Lemma fetch_apart k s :
  0 <= k < n -> same_frame m0 (mach s) -> touches (mach s) (text + k * 8) sizeof_bpf_instruction = false.
Proof using Hlow Hapart.
  unfold sizeof_bpf_instruction. intros Hk (Hr & Hs & _). destruct text_bounds as (H8 & Hn & Hhi & Hlen).
  apply touches_false; [lia|]. intros b Hb Ho.
  destruct (Hapart b) as (_ & Hi & _); [by eapply object_byte_frame|].
  apply Hi. right. lia.
Qed.

(** So does the second slot of a double-slot load. *)
Lemma second_slot_apart k s :
  k ∈ B -> insn_slots (decode (opcode (insn_at m0 k))) = 2 -> same_frame m0 (mach s) ->
  touches (mach s) (u32 (text + k * 8 + sizeof_bpf_instruction)) sizeof_bpf_instruction = false.
Proof using Hlow Hapart Hsafe.
  intros Hin Hsl Hf. destruct (safe_at k Hin) as (Hk & _ & _ & Hsucc).
  assert (k + 2 ∈ B) as Hin2.
  { unfold succ_in in Hsucc. destruct (decode _); try done; by apply mem_Z_spec. }
  destruct (safe_at _ Hin2) as (Hk2 & _). destruct text_bounds as (H8 & Hn & Hhi & Hlen).
  rewrite wrap_small by (unfold is_word, sizeof_bpf_instruction; lia).
  replace (text + k * 8 + sizeof_bpf_instruction) with (text + (k + 1) * 8)
    by (unfold sizeof_bpf_instruction; lia). apply fetch_apart; [lia|done].
Qed.

(** A register a verified instruction names exists. *)
Lemma get_reg_total s i : regs_ok s -> 0 <= i < 11 -> exists v, get_reg s i = Ok v.
Proof using Type.
  intros [Hlen _] Hi. unfold get_reg.
  destruct (regmap s !! Z.to_nat i) eqn:E; [by eexists|].
  apply lookup_ge_None in E. lia.
Qed.

Lemma set_reg_total s i v : regs_ok s -> 0 <= i < 11 -> exists s', set_reg s i v = Ok s'.
Proof using Type.
  intros [Hlen _] Hi. unfold set_reg.
  destruct (regmap s !! Z.to_nat i) eqn:E; [by eexists|].
  apply lookup_ge_None in E. lia.
Qed.

(** Undefined behaviour that arithmetic operands alone can cause. *)
Definition arithmetic_ub (u : ub) : Prop := u = UB_shift \/ u = UB_overflow \/ u = UB_div0.

Lemma alu_ub op d v u : alu64 op d v = Err u \/ alu32 op d v = Err u -> arithmetic_ub u.
Proof using Type.
  unfold arithmetic_ub.
  intros [H|H]; destruct op; cbn in H; unfold shift_count in H;
    repeat case_match; cbn in *; simplify_eq; auto.
Qed.

Lemma neg_ub d u : neg64 d = Err u \/ neg32 d = Err u -> arithmetic_ub u.
Proof using Type.
  unfold arithmetic_ub, neg64, neg32. intros [H|H]; case_match; simplify_eq; auto.
Qed.

Lemma check_defined s addr size type :
  same_frame m0 (mach s) -> exists b, _check_mem (mach s) addr size type = Some b.
Proof using Hregions.
  intros Hf. destruct (regions_ok_frame _ _ _ Hf Hregions) as [Hc _].
  eexists. by eapply check_mem_chain.
Qed.

Lemma instruction_objects_at k s :
  at_insn k s ->
  (forall addr sz, _check_mem (mach s) (s32 addr) (Z.of_nat (sizeof sz))
     RBPF_MEM_REGION_WRITE = Some true -> touches (mach s) (u32 addr) (Z.of_nat (sizeof sz)) = false) /\
  (forall addr sz, _check_mem (mach s) (s32 addr) (Z.of_nat (sizeof sz))
     RBPF_MEM_REGION_READ = Some true -> touches (mach s) (u32 addr) (Z.of_nat (sizeof sz)) = false).
Proof using Hregions Hapart.
  intros Hat. pose proof (at_frame _ _ Hat) as Hf.
  split; intros addr sz H; eapply granted_apart; try exact H;
    try (by eapply regions_ok_frame); intros a Ha;
    (destruct (Hapart a) as (? & _ & ?); [eapply object_byte_frame; [..|exact Ha]; apply Hf|]);
    (split; [done|]); by rewrite (proj1 Hf).
Qed.

(** At an instruction of a safe text, only arithmetic can be undefined. *)
Lemma instruction_ub k s u :
  at_insn k s -> _rbpf_instruction s = Err u -> arithmetic_ub u.
Proof using Hregions Hsafe Hlow Hapart.
  intros Hat H. unfold _rbpf_instruction in H. rewrite (at_fetch _ _ Hat) in H.
  destruct (safe_at k (at_start _ _ Hat)) as (Hk & Hd & Hs & _).
  rewrite (at_instr _ _ Hat), (fetch_apart k s Hk (at_frame _ _ Hat)) in H.
  pose proof (fun E => second_slot_apart k s (at_start _ _ Hat) E (at_frame _ _ Hat)) as Hsecond.
  rewrite <- (at_instr _ _ Hat) in Hsecond.
  pose proof (instruction_objects_at k s Hat) as [Hst Hld].
  pose proof (fetch_ranges (mem m0) (text + k * sizeof_bpf_instruction)) as Hr.
  change (fetch (mem m0) _) with (insn_at m0 k) in Hr.
  set (i := insn_at m0 k) in *. clearbody i.
  destruct (get_reg_total s (dst i) (at_regs _ _ Hat) ltac:(lia)) as [vd Ed].
  destruct (get_reg_total s (src i) (at_regs _ _ Hat) ltac:(lia)) as [vs Es].
  assert (forall v, exists s', set_reg s (dst i) v = Ok s') as Eset
    by (intros; apply set_reg_total; [apply Hat|lia]).
  assert (forall a z t, exists b, _check_mem (mach s) a z t = Some b) as Echk
    by (intros; apply check_defined; apply Hat).
  unfold exec_alu, exec_neg, exec_store, exec_load, exec_wide, _check_store, _check_load in H.
  destruct (decode (opcode i)); rewrite ?Ed, ?Es in H; cbn [mbind res_bind of_check] in H;
    repeat match type of H with
    | context [set_reg s (dst i) ?v] =>
        let s1 := fresh "s" in let E := fresh "E" in
        destruct (Eset v) as [s1 E]; rewrite E in H; cbn [mbind res_bind of_check] in H
    | context [of_check (_check_mem ?m ?a ?z ?t)] =>
        let E := fresh "E" in
        destruct (Echk a z t) as [[|] E]; rewrite E in H; cbn [mbind res_bind of_check negb] in H;
        [first [rewrite (Hst _ _ E) in H | rewrite (Hld _ _ E) in H]|]
    | context [touches (mach s) (u32 _) _] => rewrite (Hsecond eq_refl) in H
    | context [if ?b then _ else _] => destruct b
    | context [alu64 ?o ?a ?b] =>
        let E := fresh "E" in destruct (alu64 o a b) eqn:E; cbn [mbind res_bind of_check] in H;
        [|injection H as <-; by eapply alu_ub; left]
    | context [alu32 ?o ?a ?b] =>
        let E := fresh "E" in destruct (alu32 o a b) eqn:E; cbn [mbind res_bind of_check] in H;
        [|injection H as <-; by eapply alu_ub; right]
    | context [neg64 ?a] =>
        let E := fresh "E" in destruct (neg64 a) eqn:E; cbn [mbind res_bind of_check] in H;
        [|injection H as <-; by eapply neg_ub; left]
    | context [neg32 ?a] =>
        let E := fresh "E" in destruct (neg32 a) eqn:E; cbn [mbind res_bind of_check] in H;
        [|injection H as <-; by eapply neg_ub; right]
    end; done.
Qed.

(** The text keeps its contents: it is not writable and not at 2 GiB. *)
Lemma text_kept s b :
  same_on (mem m0) (mem (mach s)) text (text + 8 * n) ->
  same_frame m0 (mach s) -> confined (mach s) l (mem (mach s)) b ->
  same_on (mem m0) b text (text + 8 * n).
Proof using Hlow Hprot.
  intros Hon Hf Hc a Ha. destruct text_bounds as (H8 & Hn & Hhi & Hlen).
  destruct (confined_frame _ _ _ _ _ Hf Hc a) as [E|[Hw|Hnear]].
  - by rewrite E, Hon.
  - exfalso. apply (Hprot a); [lia|done].
  - unfold near_2G in Hnear. lia.
Qed.

(** Steps left: each slot at most once per remaining branch. *)
Definition measure (k : Z) (s : vm) : Z :=
  branches_remaining (app (mach s)) * n + (n - k).

(** Where control goes after the instruction in slot [k]. *)
Lemma flow_target k s s' :
  at_insn k s -> same_frame m0 (mach s') -> flow s s' (insn_at m0 k) ->
  exists k', k' ∈ B /\ u32 (instr s' + sizeof_bpf_instruction) = text + k' * 8 /\
    1 <= branches_remaining (app (mach s')) <= RBPF_BRANCHES_ALLOWED /\
    measure k' s' < measure k s.
Proof using Hlow Hsafe Hret.
  intros Hat (_ & _ & _ & _ & _ & Hfl) Hflow. destruct text_bounds as (H8 & Hn & Hhi & Hlen).
  destruct (safe_at k (at_start _ _ Hat)) as (Hk & _ & _ & Hsucc).
  pose proof (at_budget _ _ Hat) as Hb. pose proof (at_instr _ _ Hat) as Hi.
  pose proof (fetch_ranges (mem m0) (text + k * sizeof_bpf_instruction)) as Hr.
  change (fetch (mem m0) _) with (insn_at m0 k) in Hr.
  unfold succ_in, measure, sizeof_bpf_instruction, RBPF_BRANCHES_ALLOWED in *.
  set (i := insn_at m0 k) in *. clearbody i.
  destruct Hflow as [Hft Hinstr Hbr|Hj Hinstr Hbr Hover]; unfold sizeof_bpf_instruction in *.
  - exists (k + insn_slots (decode (opcode i))).
    assert (insn_slots (decode (opcode i)) = 1 \/ insn_slots (decode (opcode i)) = 2) as Hsl
      by (destruct (decode (opcode i)); cbn; auto).
    assert (k + insn_slots (decode (opcode i)) ∈ B) as Hin.
    { destruct (decode (opcode i)); try done; cbn in *;
        rewrite ?andb_true_iff, !mem_Z_spec in Hsucc; tauto. }
    split_and!; [done| |lia|lia|lia].
    rewrite Hinstr, Hi. destruct Hsl as [-> | ->]; cbn;
      rewrite ?(wrap_small 32) by (unfold is_word; rewrite ?wrap_small by (unfold is_word; lia); lia);
      lia.
  - exists (k + 1 + offset i).
    assert (k + 1 + offset i ∈ B) as Hin.
    { destruct (decode (opcode i)); try done; cbn in *;
        rewrite ?andb_true_iff, !mem_Z_spec in Hsucc; tauto. }
    destruct (safe_at _ Hin) as (Hk' & _).
    unfold _rbpf_over_max_jumps in Hover. rewrite Hfl, Hret in Hover. cbn in Hover.
    assert (branches_remaining (app (mach s')) = branches_remaining (app (mach s)) - 1) as Hbr'
      by (rewrite Hbr; apply wrap_small; unfold is_word; lia).
    split_and!; [done| |lia|lia|nia].
    rewrite Hinstr, Hi, wrap_add_l by lia. rewrite wrap_small by (unfold is_word; lia). lia.
Qed.

Lemma at_insn_step k s r s' :
  at_insn k s -> run_step s = Ok (r, s') -> 0 < r ->
  exists k', at_insn k' s' /\ measure k' s' < measure k s.
Proof using Hregions Hlow Hprot Hsafe Hret.
  intros Hat Hstep Hr. pose proof Hstep as Hstep'.
  apply (run_step_frame _ _ _ l) in Hstep' as [Hf Hc];
    [|eapply regions_ok_frame; [apply Hat|done]].
  unfold run_step in Hstep. apply res_bind_Ok in Hstep as ([r1 s1] & H1 & [= <- <-]).
  assert (same_frame m0 (mach s1)) as Hf1 by (eapply same_frame_trans; [apply Hat|done]).
  pose proof (instruction_flow _ _ _ H1 Hr) as Hflow. rewrite (at_fetch _ _ Hat) in Hflow.
  destruct (flow_target _ _ _ Hat Hf1 Hflow) as (k' & Hin & Hi & Hb & Hm).
  exists k'. split; [|done]. constructor; cbn; try done.
  - eapply regs_ok_ext; [|by eapply instruction_preserves_regs; [apply Hat|]]. done.
  - eapply text_kept; [apply Hat|apply Hat|done].
Qed.

Lemma run_loop_total fuel k s :
  at_insn k s -> measure k s < Z.of_nat fuel ->
  (exists code s', run_loop fuel s = Exit code s') \/
  (exists u, run_loop fuel s = Undefined u /\ arithmetic_ub u).
Proof using Hregions Hlow Hprot Hsafe Hapart Hret.
  revert k s. induction fuel as [|fuel IH]; intros k s Hat Hm.
  { pose proof (at_budget _ _ Hat). destruct (safe_at k (at_start _ _ Hat)) as (Hk & _).
    unfold measure in Hm. nia. }
  cbn [run_loop]. destruct (run_step s) as [[r s1]|u] eqn:Hs.
  - destruct (Z.ltb_spec 0 r); [|left; eauto].
    destruct (at_insn_step _ _ _ _ Hat Hs ltac:(done)) as (k' & Hat' & Hm').
    eapply IH; [done|lia].
  - right. exists u. split; [done|]. unfold run_step in Hs.
    destruct (_rbpf_instruction s) as [[]|] eqn:Hi; cbn in Hs; [done|].
    injection Hs as ->. by eapply instruction_ub.
Qed.

(** The states a run goes through while it continues. *)
Inductive reaches : vm -> vm -> Prop :=
| reaches_refl s : reaches s s
| reaches_step s r s1 s2 : run_step s = Ok (r, s1) -> 0 < r -> reaches s1 s2 -> reaches s s2.

Lemma at_insn_reaches k s s' : at_insn k s -> reaches s s' -> exists k', at_insn k' s'.
Proof using Hregions Hlow Hprot Hsafe Hret.
  intros Hat H. revert k Hat. induction H as [|s r s1 s2 Hs Hr _ IH]; intros k Hat; [eauto|].
  destruct (at_insn_step _ _ _ _ Hat Hs Hr) as (k' & Hat' & _). eauto.
Qed.
End Safe.

(** ** The whole run *)

(** The machine as the run loop finds it: branch budget set, verdict noted. *)
Definition started (m : machine) : machine :=
  with_app (set_flags (Z.lor (flags (app m)) RBPF_FLAG_PREFLIGHT_DONE)
    (set_branches RBPF_BRANCHES_ALLOWED (app m))) m.

Definition run_fuel (m : machine) : nat :=
  S (Z.to_nat ((RBPF_BRANCHES_ALLOWED + 1) * text_size m)).

Lemma engine_start_regs m ctx : regs_ok (engine_start m ctx).
Proof.
  split; [done|]. cbn.
  repeat (apply Forall_cons; split; [first [by split | apply (is_word_mono 32); auto with words lia]|]).
  constructor.
Qed.

Section Run.
Variables (m : machine) (l : list Z) (B : list Z) (ctx : Z).
Hypothesis Hregions : regions_ok m l.
Hypothesis Hlow : text_low m.
Hypothesis Hprot : text_protected m l.
Hypothesis Hsafe : safe_text m B = true.
Hypothesis Hret : has_flag (flags (app m)) RBPF_CONFIG_NO_RETURN = false.

Lemma has_flag_lor x y z : Z.land y z = 0 -> has_flag (Z.lor x y) z = has_flag x z.
Proof using Type. intros H. unfold has_flag. by rewrite Z.land_lor_distr_l, H, Z.lor_0_r. Qed.

(** The start state, with the flags [f] the verifier left. *)
Lemma start_at_insn (f : Z) :
  let m1 := with_app (set_flags f (set_branches RBPF_BRANCHES_ALLOWED (app m))) m in
  at_insn m1 B 0 (with_mach m1 (engine_start m ctx)).
Proof using Hlow Hsafe.
  intros m1. constructor; cbn.
  - apply same_frame_refl.
  - eapply regs_ok_ext; [|apply (engine_start_regs m ctx)]. done.
  - apply same_on_refl.
  - unfold safe_text in Hsafe. apply andb_true_iff in Hsafe as [H _]. by apply mem_Z_spec.
  - unfold rbpf_application_text. cbn. lia.
  - unfold RBPF_BRANCHES_ALLOWED. lia.
Qed.
End Run.

Lemma run_loop_code fuel s code s' : run_loop fuel s = Exit code s' -> code <= 0.
Proof.
  revert s. induction fuel as [|fuel IH]; intros s H; cbn in H; [done|].
  destruct (run_step s) as [[r s1]|]; [|done].
  destruct (Z.ltb_spec 0 r); [by eapply IH|]. injection H as <- _. done.
Qed.

(** The verifier always answers, and touches only the flags. *)
Lemma preflight_total m :
  text_low m ->
  exists r f, rbpf_application_verify_preflight m = Some (r, with_app (set_flags f (app m)) m) /\
    r <= 0 /\ has_flag f RBPF_CONFIG_NO_RETURN = has_flag (flags (app m)) RBPF_CONFIG_NO_RETURN.
Proof.
  intros Hlow.
  assert (m = with_app (set_flags (flags (app m)) (app m)) m) as Heta
    by (by destruct m as [[] ? ?]).
  destruct (preflight_done m) eqn:Hd.
  - exists RBPF_OK, (flags (app m)). split; [|done].
    unfold rbpf_application_verify_preflight. unfold preflight_done in Hd. rewrite Hd.
    by rewrite <- Heta.
  - destruct (preflight_new m Hlow Hd) as (r & m' & Hp & Hr & _ & _ & Hm').
    rewrite Hm' in Hp. destruct (Z.eqb_spec r RBPF_OK) as [E|E].
    + do 2 eexists. split; [exact Hp|]. split; [done|]. by apply has_flag_lor.
    + exists r, (flags (app m)). split; [|done]. by rewrite <- Heta.
Qed.

(** The engine returns within [run_fuel], up to arithmetic. *)
Lemma engine_returns (m : machine) (l B : list Z) (ctx : Z) :
  regions_ok m l -> objects_apart m l -> text_low m -> text_protected m l ->
  safe_text m B = true -> has_flag (flags (app m)) RBPF_CONFIG_NO_RETURN = false ->
  (exists code result m', rbpf_engine_run (run_fuel m) m ctx = Returned code result m' /\
     code <= 0) \/
  (exists u, rbpf_engine_run (run_fuel m) m ctx = RunUndefined u /\ arithmetic_ub u).
Proof.
  intros Hregions Hapart Hlow Hprot Hsafe Hret.
  unfold rbpf_engine_run.
  set (m1 := with_app (set_branches RBPF_BRANCHES_ALLOWED (app m)) m).
  destruct (preflight_total m1 Hlow) as (r & f & Hp & Hr & Hf). rewrite Hp.
  destruct (Z.ltb_spec r 0); [left; do 3 eexists; split; [done|lia]|].
  set (m2 := with_app (set_flags f (app m1)) m1) in *.
  pose proof (start_at_insn m B ctx Hlow Hsafe f) as Hat.
  change (at_insn m2 B 0 (with_mach m2 (engine_start m ctx))) in Hat.
  assert (run_fuel m = run_fuel m2) as -> by done.
  assert (has_flag (flags (app m2)) RBPF_CONFIG_NO_RETURN = false) as Hret2
    by (change (flags (app m2)) with f; rewrite Hf; exact Hret).
  destruct (run_loop_total m2 l B Hregions Hlow Hprot Hsafe Hapart Hret2 (run_fuel m2) 0 _ Hat) as [(code & s' & Hrun)|(u & Hrun & Hu)].
  - destruct (text_size_le m2) as [_ Hpos]. unfold measure, run_fuel. cbn.
    unfold RBPF_BRANCHES_ALLOWED. lia.
  - left. change (with_mach m2 (engine_start m1 ctx)) with (with_mach m2 (engine_start m ctx)). rewrite Hrun.
    do 3 eexists. split; [done|]. by eapply run_loop_code.
  - right. exists u. change (with_mach m2 (engine_start m1 ctx)) with (with_mach m2 (engine_start m ctx)). by rewrite Hrun.
Qed.

(** C8: termination and absence of wild behaviour.  For a region list that ends in
    NULL with every region below 2 GiB, the application struct and the region
    nodes apart from the regions, the header and the text, a text below 2 GiB
    that is closed under control flow from its first slot and names only the
    eleven registers (safe_text) and that no region lets the application
    overwrite, and an application that is not exempt from returning
    (RBPF_CONFIG_NO_RETURN unset): the engine returns within (branches allowed +
    1) times the text length instructions; no run indexes outside the register
    file, follows a bad region pointer, or reads or writes the struct or a node:
    the only undefined behaviour left is an arithmetic operand error. *)
Theorem engine_run_total (m : machine) (l B : list Z) (ctx : Z)
  (Hregions : regions_ok m l) (Hapart : objects_apart m l)
  (Hlow : text_low m) (Hprot : text_protected m l)
  (Hsafe : safe_text m B = true)
  (Hret : has_flag (flags (app m)) RBPF_CONFIG_NO_RETURN = false) :
  (exists code result m', rbpf_engine_run (run_fuel m) m ctx = Returned code result m' /\
     code <= 0) \/
  (exists u, rbpf_engine_run (run_fuel m) m ctx = RunUndefined u /\ arithmetic_ub u).
Proof. by apply (engine_returns m l B). Qed.

(** C22: the interpreter never leaves the text, under the hypotheses of the
    termination theorem on the regions, the text (below 2 GiB, safe_text,
    protected from stores) and the flag RBPF_CONFIG_NO_RETURN: at every
    instruction it executes, the instruction pointer is the start of an instruction of the text, the
    instruction it fetches is the one the text held when the run began, and
    the branch budget has not run out; if that step is undefined, it is for an
    arithmetic operand only, never for an access to the application struct or a
    region node. *)
Theorem engine_stays_in_text (m : machine) (l B : list Z) (ctx : Z) (s : vm)
  (Hregions : regions_ok m l) (Hapart : objects_apart m l)
  (Hlow : text_low m) (Hprot : text_protected m l)
  (Hsafe : safe_text m B = true)
  (Hret : has_flag (flags (app m)) RBPF_CONFIG_NO_RETURN = false)
  (Hreach : reaches (with_mach (started m) (engine_start m ctx)) s) :
  exists k, k ∈ B /\ 0 <= k < text_size m /\
    instr s = rbpf_application_text m + k * sizeof_bpf_instruction /\
    fetch (mem (mach s)) (instr s) = insn_at m k /\
    0 < branches_remaining (app (mach s)) /\
    forall u, run_step s = Err u -> arithmetic_ub u.
Proof.
  pose proof (start_at_insn m B ctx Hlow Hsafe
    (Z.lor (flags (app m)) RBPF_FLAG_PREFLIGHT_DONE)) as Hat.
  cbv zeta in Hat. fold (started m) in Hat.
  assert (has_flag (flags (app (started m))) RBPF_CONFIG_NO_RETURN = false) as Hret'
    by (cbn; by rewrite has_flag_lor).
  destruct (at_insn_reaches (started m) l B Hregions Hlow Hprot Hsafe Hret' _ _ _ Hat Hreach)
    as [k Hk].
  exists k. destruct (safe_at (started m) B Hsafe k (at_start _ _ _ _ Hk)) as (Hr & _).
  split_and!; [apply Hk|apply Hr|apply Hr|apply Hk| | |].
  - by rewrite (at_fetch (started m) B Hsafe k s Hk).
  - pose proof (at_budget _ _ _ _ Hk). lia.
  - intros u Hu. unfold run_step in Hu.
    destruct (_rbpf_instruction s) as [[]|] eqn:Hi; cbn in Hu; [done|]. injection Hu as ->.
    by eapply (instruction_ub (started m) l B Hregions Hlow Hsafe Hapart k s).
Qed.

(** ** What the verifier establishes *)

(** The slots the verifier's pass stops at, in order. *)
Fixpoint scan_slots (fuel : nat) (m : machine) (k : Z) : list Z :=
  match fuel with
  | O => []
  | S fuel => if k <? text_size m then k :: scan_slots fuel m (advance m k) else []
  end.

Definition scanned (m : machine) : list Z := scan_slots (Z.to_nat (text_size m)) m 0.

(** The two things the pass does not check: every branch lands on a slot it
    stopped at, and the last slot is one of them (no double-slot load ends
    the text); LDDWD and LDDWR, which it takes for single-slot, are absent. *)
Definition well_placed (m : machine) : bool :=
  mem_Z (text_size m - 1) (scanned m) &&
  forallb (fun k => match decode (opcode (insn_at m k)) with
    | JMP_ALWAYS | JMP_REG _ | JMP_IMM _ => mem_Z (k + 1 + offset (insn_at m k)) (scanned m)
    | MEM_LDDWD | MEM_LDDWR => false
    | _ => true
    end) (scanned m).

Section Scan.
Variable m : machine.

Lemma advance_gt k : k < advance m k.
Proof. unfold advance. case_match; lia. Qed.

Lemma visited_from_le k j : visited_from m k j -> k <= j.
Proof. induction 1; [done|]. pose proof (advance_gt k). lia. Qed.

Lemma scan_slots_in fuel k j :
  (Z.to_nat (text_size m - k) <= fuel)%nat ->
  j ∈ scan_slots fuel m k <-> visited_from m k j /\ j < text_size m.
Proof.
  revert k. induction fuel as [|fuel IH]; intros k Hf; cbn [scan_slots].
  - rewrite elem_of_nil. split; [done|]. intros [H%visited_from_le ?]. lia.
  - destruct (Z.ltb_spec k (text_size m)) as [Hlt|Hge].
    + pose proof (advance_gt k). rewrite elem_of_cons, IH by lia. split.
      * intros [-> | [Hv Hj]]; [by split; [constructor|]|].
        split; [|done]. by constructor.
      * intros [Hv Hj]. inversion Hv; subst; auto.
    + rewrite elem_of_nil. split; [done|]. intros [H%visited_from_le ?]. lia.
Qed.

Lemma scanned_in j : j ∈ scanned m <-> visited m j /\ j < text_size m.
Proof. apply scan_slots_in. lia. Qed.

Lemma visited_from_trans a b c : visited_from m a b -> visited_from m b c -> visited_from m a c.
Proof. induction 1; [done|]. intros. constructor; auto. Qed.

(** The pass visits its slots in order. *)
Lemma visited_from_after c a b :
  visited_from m c a -> visited_from m c b -> a < b -> visited_from m (advance m a) b.
Proof.
  intros Ha. revert b. induction Ha as [a|c a Hc Ha IH]; intros b Hb Hab.
  - inversion Hb; subst; [lia|done].
  - inversion Hb; subst; [|by apply IH].
    apply visited_from_le in Ha. pose proof (advance_gt b). lia.
Qed.
End Scan.

(** C10: soundness of the verifier, for a text below 2 GiB of an application that
    was not verified before and is not exempt from returning
    (RBPF_FLAG_PREFLIGHT_DONE and RBPF_CONFIG_NO_RETURN unset): a text it accepts
    in which, besides, every branch lands on a scanned slot, the last slot is
    scanned, and the double-slot loads LDDWD and LDDWR do not occur (the pass
    takes them for single-slot instructions) is safe in the sense the
    termination and containment theorems need. *)
Theorem preflight_safe (m m' : machine) (Hlow : text_low m) (Hnew : preflight_done m = false)
  (Hret : has_flag (flags (app m)) RBPF_CONFIG_NO_RETURN = false)
  (Hok : rbpf_application_verify_preflight m = Some (RBPF_OK, m'))
  (Hplaced : well_placed m = true) :
  safe_text m (scanned m) = true.
Proof.
  destruct (preflight_new m Hlow Hnew) as (r & m1 & Hp & _ & Hiff & _).
  rewrite Hok in Hp. injection Hp as <- <-. destruct Hiff as [Hiff _].
  destruct (Hiff eq_refl) as (_ & Hslots & [Hlast|Hx]); [|congruence]. clear Hiff.
  destruct (text_size_le m) as [_ Hpos].
  apply andb_true_iff in Hplaced as [Hend Hjumps]. apply mem_Z_spec in Hend.
  rewrite forallb_forall in Hjumps.
  assert (0 < text_size m) as Hsize.
  { apply scanned_in in Hend as [Hv%visited_from_le _]. lia. }
  assert (forall k, k ∈ scanned m -> k <> text_size m - 1 -> advance m k ∈ scanned m) as Hadv.
  { intros k Hk Hne. pose proof Hk as [Hv Hlt]%scanned_in.
    apply scanned_in in Hend as [Hve _].
    pose proof (visited_from_after m 0 k _ Hv Hve ltac:(lia)) as Hafter.
    apply scanned_in. split.
    - apply visited_from_trans with k; [done|by constructor; [|constructor]].
    - apply visited_from_le in Hafter. lia. }
  unfold safe_text. apply andb_true_iff. split.
  { apply mem_Z_spec, scanned_in. split; [constructor|done]. }
  apply forallb_forall. intros k Hin%list_elem_of_In.
  pose proof Hin as [Hv Hlt]%scanned_in. pose proof (visited_from_le _ _ _ Hv).
  destruct (Hslots k Hv Hlt) as (Hd & Hs & _).
  specialize (Hjumps k ltac:(by apply list_elem_of_In)).
  rewrite !andb_true_iff, Z.leb_le, !Z.ltb_lt. split_and!; try done.
  unfold succ_in. destruct (decide (k = text_size m - 1)) as [->|Hne].
  { by rewrite (proj2 (decode_return _) Hlast). }
  specialize (Hadv k Hin Hne). unfold advance in Hadv.
  assert (opcode (insn_at m k) = 0x18 <-> decode (opcode (insn_at m k)) = MEM_LDDW) as Hdw
    by (by rewrite decode_lddw).
  destruct (decode (opcode (insn_at m k))); try done; cbn [insn_slots];
    destruct (Z.eqb_spec (opcode (insn_at m k)) 0x18) as [E|E];
    try (by apply Hdw in E); try (by exfalso; apply E, Hdw);
    rewrite ?andb_true_iff, ?mem_Z_spec in *; auto.
Qed.
