(* ===== verification/RbpfDemo.v ===== *)
(** * Concrete rBPF applications

    A small assembler and three application images, loaded and set up with the
    modelled code.  They instantiate the hypotheses of the rBPF theorems and
    show the limits of the verifier: what it accepts although the interpreter
    then leaves the text or the register file. *)

From stdpp Require Import base gmap list.
From Stdlib Require Import ZArith Lia.
From S2P Require Import Prelude RbpfIsa Rbpf RbpfVerify RbpfEngine RbpfSafety.

Local Open Scope Z_scope.

(** ** Images *)

Definition asm (op d s off imm : Z) : list Z :=
  [u8 op; d + 16 * s; u8 off; u8 (off / 256);
   u8 imm; u8 (imm / 2 ^ 8); u8 (imm / 2 ^ 16); u8 (imm / 2 ^ 24)].

Definition le32 (v : Z) : list Z := [u8 v; u8 (v / 2 ^ 8); u8 (v / 2 ^ 16); u8 (v / 2 ^ 24)].

(** Header, data and text of an application without rodata. *)
Definition image (data : list Z) (text : list (list Z)) : list Z :=
  le32 0x72425046 ++ le32 0 ++ le32 0 ++ le32 (Z.of_nat (length data)) ++ le32 0 ++
  le32 (8 * Z.of_nat (length text)) ++ le32 0 ++ data ++ concat text.

Definition image_addr : Z := 0x20001000.
Definition stack_addr : Z := 0x20000200.
Definition rbpf_addr : Z := 0x20000100.

Definition blank_region : rbpf_mem_region := {| next := 0; start := 0; len := 0; r_flags := 0 |}.

(** A zero-initialised application struct and the image in RAM. *)
Definition blank (img : list Z) : machine :=
  {| app := {| self := rbpf_addr; application := 0; application_len := 0; stack := 0;
               flags := 0; branches_remaining := 0 |};
     regions := list_to_map [(rbpf_addr, blank_region); (rbpf_addr + 16, blank_region);
       (rbpf_addr + 32, blank_region); (rbpf_addr + 48, blank_region)];
     mem := wr_bytes ∅ image_addr img |}.

Definition load (img : list Z) : machine :=
  rbpf_application_setup (blank img) stack_addr image_addr (Z.of_nat (length img)).

(** r0 := 3 + 2 + 1, by a counted loop. *)
Definition sum_prog : list (list Z) :=
  [ asm 0xb7 0 0 0 0;        (* mov r0, 0 *)
    asm 0xb7 1 0 0 3;        (* mov r1, 3 *)
    asm 0x0f 0 1 0 0;        (* add r0, r1 *)
    asm 0x17 1 0 0 1;        (* sub r1, 1 *)
    asm 0x55 1 0 (-3) 0;     (* jne r1, 0, -3 *)
    asm 0x7b 10 0 (-8) 0;    (* stxdw [r10-8], r0 *)
    asm 0x95 0 0 0 0 ].      (* exit *)

Definition sum_app : machine := load (image [] sum_prog).

Definition own_regions : list Z :=
  [rbpf_addr; rbpf_addr + 32; rbpf_addr + 16; rbpf_addr + 48].

Example sum_runs :
  match rbpf_application_run_ctx 100 sum_app 0 0 with
  | Returned code (Some v) _ => (code, v)
  | _ => (1, 0)
  end = (RBPF_OK, 6).
Proof. by vm_compute. Qed.

(** ** Facts about the loaded image *)

(** Deciding [chain] and [regions_ok] on a concrete machine. *)
Fixpoint chainb (h : gmap Z rbpf_mem_region) (p : Z) (l : list Z) : bool :=
  match l with
  | [] => p =? 0
  | q :: l => (p =? q) && negb (p =? 0) &&
      match h !! p with Some r => chainb h (next r) l | None => false end
  end.

Lemma chainb_sound h p l : chainb h p l = true -> chain h p l.
Proof.
  revert p. induction l as [|q l IH]; intros p H; cbn in H.
  - apply Z.eqb_eq in H as ->. constructor.
  - destruct (h !! p) as [r|] eqn:E; [|rewrite andb_false_r in H; done].
    rewrite !andb_true_iff, negb_true_iff, Z.eqb_eq, Z.eqb_neq in H.
    destruct H as [[<- Hp] H]. econstructor; eauto.
Qed.

Definition regions_okb (m : machine) (l : list Z) : bool :=
  chainb (regions m) (stack_region (app m)) l &&
  forallb (fun r => (0 <=? start r) && (0 <=? len r) && (start r + len r <? 2 ^ 31))
    (nodes (regions m) l).

Lemma regions_okb_sound m l : regions_okb m l = true -> regions_ok m l.
Proof.
  intros [H1 H2]%andb_true_iff. split; [by apply chainb_sound|].
  apply Forall_forall. intros r Hr. rewrite forallb_forall in H2.
  specialize (H2 r ltac:(by apply list_elem_of_In)). unfold region_low. lia.
Qed.

Lemma sum_regions_ok : regions_ok sum_app own_regions.
Proof. apply regions_okb_sound. by vm_compute. Qed.

Lemma sum_text_low : text_low sum_app.
Proof. split_and!; by vm_compute. Qed.

Lemma sum_protected : text_protected sum_app own_regions.
Proof.
  intros a Ha (r & Hr & Hin & Hw).
  assert (forallb (fun r => (start r + len r <=? rbpf_application_text sum_app) ||
      (rbpf_application_text sum_app + rbpf_application_text_len sum_app <=? start r) ||
      negb (has_flag (r_flags r) RBPF_MEM_REGION_WRITE) || (len r =? 0))
    (nodes (regions sum_app) own_regions) = true) as H by (by vm_compute).
  rewrite forallb_forall in H. specialize (H r ltac:(by apply list_elem_of_In)).
  rewrite Hw in H. cbn [negb] in H. lia.
Qed.

(** Deciding [objects_apart]: the struct and the nodes as ranges. *)
Definition apartb (m : machine) (l : list Z) : bool :=
  forallb (fun '(p, n) =>
    ((p + n <=? 2 ^ 31 - 8) || (2 ^ 31 + 8 <=? p)) &&
    ((p + n <=? application (app m)) || (application (app m) + sizeof_rbpf_header <=? p)) &&
    ((p + n <=? rbpf_application_text m) ||
     (rbpf_application_text m + rbpf_application_text_len m <=? p)) &&
    forallb (fun r => (p + n <=? start r) || (start r + len r <=? p)) (nodes (regions m) l))
  ((self (app m), sizeof_rbpf_application) ::
   map (fun p => (p, sizeof_rbpf_mem_region)) (map_to_list (regions m)).*1).

Lemma apartb_sound m l : apartb m l = true -> objects_apart m l.
Proof.
  unfold apartb. rewrite forallb_forall. intros H a Ha.
  assert (exists p n, In (p, n) ((self (app m), sizeof_rbpf_application) ::
    map (fun p => (p, sizeof_rbpf_mem_region)) (map_to_list (regions m)).*1) /\
    p <= a < p + n) as (p & n & Hin & Hr).
  { destruct Ha as [Ha|(p & [r Hr] & Ha)]; [do 2 eexists; split; [by left|done]|].
    exists p, sizeof_rbpf_mem_region. split; [right|done].
    apply in_map_iff. exists p. split; [done|].
    apply list_elem_of_In, list_elem_of_fmap. exists (p, r).
    split; [done|]. by apply elem_of_map_to_list. }
  specialize (H _ Hin). cbn beta iota in H. rewrite !andb_true_iff, forallb_forall in H.
  destruct H as [[[H1 H2] H3] H4]. unfold near_2G, image_byte, sizeof_rbpf_header in *.
  split_and!; [lia|lia|]. apply Forall_forall. intros r Hr'%list_elem_of_In.
  specialize (H4 r Hr'). lia.
Qed.

Lemma sum_apart : objects_apart sum_app own_regions.
Proof. apply apartb_sound. by vm_compute. Qed.

(** ** Witnesses *)

Lemma check_mem_policy_witness :
  exists b, _check_mem sum_app (0x20000208) 8 RBPF_MEM_REGION_WRITE = Some b /\
    (b = true <-> exists r, r ∈ nodes (regions sum_app) own_regions /\
       region_grants r 0x20000208 8 RBPF_MEM_REGION_WRITE).
Proof.
  apply (check_mem_policy sum_app own_regions 0x20000208 8 RBPF_MEM_REGION_WRITE);
    [apply sum_regions_ok|apply sum_regions_ok|lia|lia].
Defined.

Lemma setup_regions_witness :
  chain (regions sum_app) rbpf_addr own_regions.
Proof.
  apply (setup_regions (blank (image [] sum_prog)) stack_addr image_addr 84 []);
    [split; [done|split_and!; by eexists; vm_compute]
    |by constructor|].
  repeat constructor; by apply not_elem_of_nil.
Defined.

(** [sum_app] with one more region node for the host to add. *)
Definition sum_app_extra : machine :=
  with_regions (<[0x20000300 := {| next := 7; start := 0x20002000; len := 64; r_flags := 1 |}]>
    (regions sum_app)) sum_app.

Lemma add_region_inserts_witness :
  exists m', rbpf_add_region sum_app_extra 0x20000300 = Some m' /\
    chain (regions m') rbpf_addr (own_regions ++ [0x20000300]).
Proof.
  destruct (add_region_inserts sum_app_extra
    [rbpf_addr; rbpf_addr + 32; rbpf_addr + 16] [] 0x20000300)
    as (m' & H1 & H2 & _ & H3 & _).
  - apply chainb_sound. by vm_compute.
  - by eexists; vm_compute.
  - done.
  - by apply (bool_decide_unpack _); vm_compute.
  - exists m'. split; [exact H1|]. rewrite H2 in H3. exact H3.
Defined.


Lemma engine_isolation_witness :
  exists code result m', rbpf_engine_run 100 sum_app 0 = Returned code result m' /\
    regions m' = regions sum_app /\
    forall a, rd8 (mem m') a = rd8 (mem sum_app) a \/ writable sum_app own_regions a \/ near_2G a.
Proof.
  destruct (rbpf_engine_run 100 sum_app 0) as [code result m'|u| |] eqn:E;
    try (exfalso; vm_compute in E; discriminate E).
  exists code, result, m'. split; [done|].
  destruct (engine_isolation 100 sum_app 0 own_regions sum_regions_ok sum_apart) as [_ H].
  destruct (H _ _ _ E) as (Hr & _ & _ & _ & _ & Hm). exact (conj Hr Hm).
Defined.

Lemma engine_run_total_witness :
  (exists code result m', rbpf_engine_run (run_fuel sum_app) sum_app 0 = Returned code result m' /\
     code <= 0) \/
  (exists u, rbpf_engine_run (run_fuel sum_app) sum_app 0 = RunUndefined u /\ arithmetic_ub u).
Proof.
  exact (engine_run_total sum_app own_regions [0; 1; 2; 3; 4; 5; 6] 0
    sum_regions_ok sum_apart sum_text_low sum_protected eq_refl eq_refl).
Defined.

Lemma engine_stays_in_text_witness :
  exists s k, reaches (with_mach (started sum_app) (engine_start sum_app 0)) s /\
    k ∈ [0; 1; 2; 3; 4; 5; 6] /\
    instr s = rbpf_application_text sum_app + k * sizeof_bpf_instruction.
Proof.
  destruct (run_step (with_mach (started sum_app) (engine_start sum_app 0))) as [[r s]|] eqn:E;
    [|exfalso; vm_compute in E; discriminate E].
  assert (reaches (with_mach (started sum_app) (engine_start sum_app 0)) s) as Hr.
  { eapply reaches_step; [exact E| |apply reaches_refl].
    vm_compute in E. injection E as <- _. done. }
  destruct (engine_stays_in_text sum_app own_regions [0; 1; 2; 3; 4; 5; 6] 0 s
    sum_regions_ok sum_apart sum_text_low sum_protected eq_refl eq_refl Hr) as (k & H1 & _ & H2 & _).
  exists s, k. exact (conj Hr (conj H1 H2)).
Defined.

Lemma preflight_safe_witness : safe_text sum_app (scanned sum_app) = true.
Proof.
  assert (option_map fst (rbpf_application_verify_preflight sum_app) = Some RBPF_OK) as H
    by (by vm_compute).
  destruct (rbpf_application_verify_preflight sum_app) as [[r m']|] eqn:E; [|done].
  injection H as ->.
  apply (preflight_safe sum_app m' sum_text_low eq_refl eq_refl E). by vm_compute.
Defined.

Lemma lddw_exact_witness :
  lddw_value 1 2 = u32 2 * 2 ^ 32 + u32 1 <-> 0 <= 1 \/ u32 2 = 2 ^ 32 - 1.
Proof. apply (lddw_exact 1 2); lia. Defined.

Lemma div_guard_exact_witness :
  exec_alu alu32 (engine_start sum_app 0) (insn_at sum_app 0) DIV (2 ^ 32) = Err UB_div0.
Proof.
  apply (div_guard_exact (engine_start sum_app 0) (insn_at sum_app 0) DIV 0 (2 ^ 32));
    [by vm_compute|by left|by vm_compute].
Defined.

(** ** Limits of the verifier *)

(** A double-slot load whose second slot looks like a return. *)
Definition overrun_app : machine := load (image [] [asm 0x18 0 0 0 1; asm 0x95 0 0 0 0]).

(** A jump into the second slot of a load, which names register 15. *)
Definition badreg_app : machine :=
  load (image [] [asm 0x05 0 0 1 0; asm 0x18 0 0 0 1; asm 0xb7 15 0 0 0; asm 0x95 0 0 0 0]).

Definition verdict (m : machine) : option Z :=
  option_map fst (rbpf_application_verify_preflight m).

(** the verifier's two omissions are real: it accepts a text whose
    interpretation runs past the end of the text, and one whose
    interpretation indexes outside the register file. *)
Theorem preflight_accepts_unsafe :
  verdict overrun_app = Some RBPF_OK /\
  match run_step (engine_start overrun_app 0) with
  | Ok (r, s) => 0 < r /\
      instr s = rbpf_application_text overrun_app + rbpf_application_text_len overrun_app
  | Err _ => False
  end /\
  verdict badreg_app = Some RBPF_OK /\
  rbpf_engine_run 100 badreg_app 0 = RunUndefined UB_register.
Proof. split_and!; by vm_compute. Qed.

(** the data section accessor adds the size of the application struct
    where the image has the header: with at least 56 bytes of data (and less
    rodata than that) the first instruction of the text lies inside the
    region the application may write. *)
Theorem data_region_overlaps_text (m : machine)
  (Hfit : 0 <= application (app m) /\
          application (app m) + 84 + hdr_data_len m + hdr_rodata_len m < 2 ^ 32)
  (Hdata : 56 <= hdr_data_len m) (Hrodata : hdr_rodata_len m < 56) :
  rbpf_application_data m <= rbpf_application_text m <
  rbpf_application_data m + rbpf_application_data_len m.
Proof.
  pose proof (rd32_range (mem m) (u32 (application (app m) + 16))) as Hr.
  change (is_word 32 (hdr_rodata_len m)) in Hr. unfold is_word in Hr.
  unfold rbpf_application_data, rbpf_application_text, rbpf_application_data_len,
    sizeof_rbpf_application, sizeof_rbpf_header.
  rewrite !wrap_small by (unfold is_word; lia). lia.
Qed.

Definition data_app : machine := load (image (replicate 64 0) sum_prog).

Lemma data_region_overlaps_text_witness :
  rbpf_application_data data_app <= rbpf_application_text data_app <
  rbpf_application_data data_app + rbpf_application_data_len data_app.
Proof.
  apply (data_region_overlaps_text data_app); [split|..]; by vm_compute.
Defined.

(** An application whose stack reaches into its own struct. *)
Definition alias_app : machine :=
  rbpf_application_setup (blank (image [] [asm 0x7b 10 0 (-8) 0; asm 0x95 0 0 0 0]))
    (rbpf_addr - 480) image_addr 44.

(** The layout condition of the isolation theorem is needed: a region that
    covers the application struct lets the application store into it. *)
Lemma region_over_struct : rbpf_engine_run 100 alias_app 0 = RunUndefined UB_object.
Proof. by vm_compute. Qed.

(** at the 2 GiB boundary the end address of an access wraps to a
    negative number and the check grants an access no region contains. *)
Theorem check_mem_wraps_at_2G :
  rbpf_store_allowed sum_app (2 ^ 31 - 1) 8 = Some true /\
  forallb (fun r => (2 ^ 31 - 1 <? start r) || (start r + len r <? 2 ^ 31 + 7))
    (nodes (regions sum_app) own_regions) = true.
Proof. split; by vm_compute. Qed.
