(* ===== verification/Flash.v ===== *)
(** * The flash driver

    Models the Pip build's flash driver: the page geometry of the nRF52832
    ([cpu_conf.h], [periph/flashpage.h]), [flashpage_erase] and
    [flashpage_write] of [nrf5x_common_pip/periph/flashpage.c], the generic
    helpers of [periph_common/flashpage.c] and the free-page bounds of
    [cortexm_common_pip/periph/flashpage.c].  The NVMC controller behind
    [Pip_out] is hardware: the class [Nvmc] states what its data sheet promises
    about programming a cell, and the theorems hold for every instance. *)

From stdpp Require Import base gmap list.
From Stdlib Require Import ZArith Lia.
From S2P Require Import Prelude.

Local Open Scope Z_scope.

(** ** Geometry *)

Definition CPU_FLASH_BASE : Z := 0.
Definition FLASHPAGE_SIZE : Z := 4096.
Definition FLASHPAGE_NUMOF : Z := 128.
Definition FLASHPAGE_WRITE_BLOCK_SIZE : Z := 4.
Definition FLASHPAGE_WRITE_BLOCK_ALIGNMENT : Z := 4.
Definition FLASHPAGE_ERASE_STATE : Z := 0xFF.
Definition FLASHPAGE_OK : Z := 0.
Definition FLASHPAGE_NOMATCH : Z := -1.

Definition flashpage_size (page : Z) : Z := FLASHPAGE_SIZE.

Definition flashpage_addr (page : Z) : Z := u32 (CPU_FLASH_BASE + page * FLASHPAGE_SIZE).

Definition flashpage_page (addr : Z) : Z :=
  u32 (Z.quot (s32 addr - CPU_FLASH_BASE) FLASHPAGE_SIZE).

(** Linker symbols [_end_fw] and [_erom] are arguments. *)
Definition flashpage_first_free (end_fw : Z) : Z := u32 (flashpage_page end_fw + 1).
Definition flashpage_last_free (erom : Z) : Z := u32 (flashpage_page erom - 1).

(** ** The controller *)

(** Values of the NVMC [CONFIG] register: read only, write and erase enabled. *)
Definition NVMC_CONFIG_WEN_Ren : Z := 0.
Definition NVMC_CONFIG_WEN_Wen : Z := 1.
Definition NVMC_CONFIG_WEN_Een : Z := 2.

(** What programming does to a byte cell: it can clear bits, so a value that
    only clears bits of the old one is stored exactly. *)
Class Nvmc := {
  program : Z -> Z -> Z;
  program_clears old new :
    is_word 8 old -> is_word 8 new -> Z.land old new = new -> program old new = new
}.

(** The controller of the data sheet: a cell keeps the bits set in both. *)
#[export] Instance nvmc_and : Nvmc := {| program := Z.land; program_clears := fun _ _ _ _ H => H |}.

(** Ways C code can stop; [Undefined] is behaviour the C standard leaves
    undefined, [Aborted] the endless loop of code that gives up, [Unmapped] an access to a
    block no region of the protection unit maps, and [Overwritten] a store into a variable that
    the model keeps outside its memory: what the code does then is not described. *)
Inductive fault := AssertFailed | BusFault | Diverge | Undefined | Aborted | Unmapped | Overwritten.

Record nvmc := mkNvmc { config : Z; cells : memory }.

(** Where the bytes handed to [flashpage_write] are: an automatic object (the
    ABI aligns it), a caller's buffer in RAM, or the flash itself. *)
Inductive source := Auto (bytes : list Z) | Ram (addr : Z) (bytes : list Z) | At (addr : Z).

Definition source_addr (s : source) : Z :=
  match s with Auto _ => 0 | Ram a _ => a | At a => a end.

(** The little-endian value of a list of bytes, and the bytes of a value. *)
Fixpoint le_val (l : list Z) : Z :=
  match l with [] => 0 | v :: l => v + 256 * le_val l end.
Fixpoint le_bytes (n : nat) (v : Z) : list Z :=
  match n with O => [] | S n => u8 v :: le_bytes n (v / 256) end.

(** [data_addr[i]] of a [uint32_t] pointer to the source. *)
Definition source_word (m : memory) (s : source) (i : Z) : Z :=
  match s with
  | Auto l | Ram _ l => le_val (take 4 (drop (Z.to_nat (4 * i)) l))
  | At a => rd32 m (a + 4 * i)
  end.

Section Driver.
Context `{HN : Nvmc}.

(** A store to flash programs the cells; without write enable it faults. *)
Fixpoint program_bytes (m : memory) (a : Z) (l : list Z) : memory :=
  match l with
  | [] => m
  | v :: l => program_bytes (wr8 m a (program (rd8 m a) v)) (a + 1) l
  end.

Definition store_word (a v : Z) : cmd nvmc fault unit := fun d =>
  if config d =? NVMC_CONFIG_WEN_Wen
  then Ok (tt, mkNvmc (config d) (program_bytes (cells d) a (le_bytes 4 v)))
  else Err BusFault.

(** [Pip_out] to the two NVMC registers; the driver polls [READY] until the
    erase is over. *)
Definition out_config (v : Z) : cmd nvmc fault unit := modify (fun d => mkNvmc v (cells d)).
Definition out_erasepage (a : Z) : cmd nvmc fault unit := fun d =>
  if config d =? NVMC_CONFIG_WEN_Een
  then Ok (tt, mkNvmc (config d)
                 (wr_bytes (cells d) a
                    (replicate (Z.to_nat FLASHPAGE_SIZE) FLASHPAGE_ERASE_STATE)))
  else Err BusFault.

Definition flashpage_erase (page : Z) : cmd nvmc fault unit :=
  check AssertFailed (page <? FLASHPAGE_NUMOF) ;;
  let page_addr := flashpage_addr page in
  out_config NVMC_CONFIG_WEN_Een ;;
  out_erasepage page_addr.

(** The copy loop: [n] words left, the next one has index [i]. *)
Fixpoint write_loop (n : nat) (page_addr : Z) (s : source) (i : Z) : cmd nvmc fault unit :=
  match n with
  | O => mret tt
  | S n =>
      v ← gets (fun d => source_word (cells d) s i);
      store_word (page_addr + 4 * i) v ;;
      write_loop n page_addr s (i + 1)
  end.

Definition flashpage_write (target_addr : Z) (data : source) (len : Z) : cmd nvmc fault unit :=
  check AssertFailed (len mod FLASHPAGE_WRITE_BLOCK_SIZE =? 0) ;;
  check AssertFailed ((target_addr mod FLASHPAGE_WRITE_BLOCK_ALIGNMENT =? 0)
             && (source_addr data mod FLASHPAGE_WRITE_BLOCK_ALIGNMENT =? 0)) ;;
  check AssertFailed (u32 (target_addr + len)
              <? CPU_FLASH_BASE + FLASHPAGE_SIZE * FLASHPAGE_NUMOF + 1) ;;
  out_config NVMC_CONFIG_WEN_Wen ;;
  write_loop (Z.to_nat (len / FLASHPAGE_WRITE_BLOCK_SIZE)) target_addr data 0 ;;
  out_config NVMC_CONFIG_WEN_Ren.

(** ** Generic page functions *)

Definition flashpage_read (page : Z) : cmd nvmc fault (list Z) :=
  check AssertFailed (page <? FLASHPAGE_NUMOF) ;;
  gets (fun d => rd_bytes (cells d) (flashpage_addr page) (Z.to_nat (flashpage_size page))).

Definition flashpage_verify (page : Z) (data : list Z) : cmd nvmc fault Z :=
  check AssertFailed (page <? FLASHPAGE_NUMOF) ;;
  m ← gets cells;
  mret (if decide (rd_bytes m (flashpage_addr page) (Z.to_nat (flashpage_size page))
                   = take (Z.to_nat (flashpage_size page)) data)
        then FLASHPAGE_OK else FLASHPAGE_NOMATCH).

Definition flashpage_write_page (page addr : Z) (data : list Z) : cmd nvmc fault unit :=
  check AssertFailed (page <? FLASHPAGE_NUMOF) ;;
  check AssertFailed (negb (addr =? 0)) ;;
  flashpage_erase page ;;
  flashpage_write (flashpage_addr page) (Ram addr data) FLASHPAGE_SIZE.

Definition flashpage_write_and_verify (page addr : Z) (data : list Z) : cmd nvmc fault Z :=
  flashpage_write_page page addr data ;;
  flashpage_verify page data.
End Driver.

(** ** Words and bytes *)

Lemma le_bytes_val l : Forall (is_word 8) l -> le_bytes (length l) (le_val l) = l.
Proof.
  induction 1 as [|v l Hv Hl IH]; cbn [length le_bytes le_val]; [done|].
  unfold is_word in Hv. f_equal.
  - unfold wrap. rewrite Z.mul_comm, Z_mod_plus_full. apply Z.mod_small. lia.
  - rewrite Z.mul_comm, Z.div_add by lia. rewrite Z.div_small by lia. apply IH.
Qed.

Lemma rd_le_val m a n : rd_le m a n = le_val (rd_bytes m a n).
Proof. revert a. induction n; intros a; cbn; congruence. Qed.

Lemma rd_bytes_words m a n : Forall (is_word 8) (rd_bytes m a n).
Proof. revert a. induction n; intros a; constructor; auto. apply rd8_range. Qed.

Lemma le_bytes_rd m a n : le_bytes n (rd_le m a n) = rd_bytes m a n.
Proof.
  rewrite rd_le_val. rewrite <- (length_rd_bytes m a n) at 1.
  apply le_bytes_val, rd_bytes_words.
Qed.

Lemma length_le_bytes n v : length (le_bytes n v) = n.
Proof. revert v. induction n; intros; cbn; auto. Qed.

Lemma rd_bytes_app m a n k :
  rd_bytes m a (n + k) = rd_bytes m a n ++ rd_bytes m (a + Z.of_nat n) k.
Proof.
  revert a. induction n as [|n IH]; intros a; cbn [rd_bytes Nat.add app].
  - f_equal. lia.
  - f_equal. rewrite IH. do 2 f_equal. lia.
Qed.

Lemma wr_bytes_app m a l l' :
  wr_bytes m a (l ++ l') = wr_bytes (wr_bytes m a l) (a + Z.of_nat (length l)) l'.
Proof.
  revert m a. induction l as [|v l IH]; intros m a; cbn [wr_bytes app length].
  - f_equal. lia.
  - rewrite IH. f_equal. lia.
Qed.

Lemma rd_bytes_wr_bytes m a l :
  Forall (is_word 8) l -> rd_bytes (wr_bytes m a l) a (length l) = l.
Proof.
  intros Hl. apply list_eq. intros i.
  destruct (decide (i < length l)%nat) as [Hi|Hi].
  - destruct (lookup_lt_is_Some_2 l i Hi) as [v Hv].
    rewrite lookup_rd_bytes, Hv by done. f_equal.
    erewrite rd8_wr_bytes_in by done.
    apply wrap_small. by eapply Forall_lookup_1.
  - rewrite !lookup_ge_None_2; [done|lia|rewrite length_rd_bytes; lia].
Qed.

(** [erased m a n]: the [n] cells from [a] on are in the erase state. *)
Definition erased (m : memory) (a n : Z) : Prop :=
  forall b, a <= b < a + n -> rd8 m b = FLASHPAGE_ERASE_STATE.

Section DriverFacts.
Context `{HN : Nvmc}.

Lemma program_bytes_app m a l l' :
  program_bytes m a (l ++ l') = program_bytes (program_bytes m a l) (a + Z.of_nat (length l)) l'.
Proof.
  revert m a. induction l as [|v l IH]; intros m a; cbn [program_bytes app length].
  - f_equal. lia.
  - rewrite IH. f_equal. lia.
Qed.

Lemma rd8_program_bytes_out m a l b :
  b < a \/ a + Z.of_nat (length l) <= b -> rd8 (program_bytes m a l) b = rd8 m b.
Proof.
  revert m a. induction l as [|v l IH]; intros m a Hb; cbn in *; [done|].
  rewrite IH by lia. apply rd8_wr8_ne. lia.
Qed.

(** Programming values that only clear bits stores them. *)
Lemma program_bytes_write m a l :
  Forall (is_word 8) l ->
  (forall i v, l !! i = Some v -> Z.land (rd8 m (a + Z.of_nat i)) v = v) ->
  program_bytes m a l = wr_bytes m a l.
Proof.
  revert m a. induction l as [|v l IH]; intros m a Hl Hc; cbn; [done|].
  apply Forall_cons_1 in Hl as [Hv Hl].
  rewrite program_clears; [|apply rd8_range|done|].
  - apply IH; [done|]. intros i w Hi. rewrite rd8_wr8_ne by lia.
    replace (a + 1 + Z.of_nat i) with (a + Z.of_nat (S i)) by lia. by apply Hc.
  - specialize (Hc 0%nat v eq_refl). by rewrite Z.add_0_r in Hc.
Qed.

Lemma land_erase_state v : is_word 8 v -> Z.land FLASHPAGE_ERASE_STATE v = v.
Proof.
  intros Hv. rewrite Z.land_comm. change FLASHPAGE_ERASE_STATE with (Z.ones 8).
  rewrite Z.land_ones by lia. by apply wrap_small.
Qed.

Lemma program_erased m a l :
  Forall (is_word 8) l -> erased m a (Z.of_nat (length l)) ->
  program_bytes m a l = wr_bytes m a l.
Proof.
  intros Hl He. apply program_bytes_write; [done|]. intros i v Hi.
  pose proof (lookup_lt_Some _ _ _ Hi). rewrite He by lia.
  apply land_erase_state. by eapply Forall_lookup_1.
Qed.

(** The copy loop programs the bytes of the source, one word after the other. *)
Lemma write_loop_bytes n t s i m l :
  (forall k m', (k < n)%nat ->
     (forall b, b < t + 4 * i \/ t + 4 * (i + Z.of_nat n) <= b -> rd8 m' b = rd8 m b) ->
     le_bytes 4 (source_word m' s (i + Z.of_nat k)) = take 4 (drop (4 * k) l)) ->
  length l = (4 * n)%nat ->
  write_loop n t s i (mkNvmc NVMC_CONFIG_WEN_Wen m) =
  Ok (tt, mkNvmc NVMC_CONFIG_WEN_Wen (program_bytes m (t + 4 * i) l)).
Proof.
  revert i m l. induction n as [|n IH]; intros i m l Hs Hl.
  { destruct l; [done|cbn in Hl; lia]. }
  cbn [write_loop]. rewrite (cmd_bind_Ok _ _ _ _ _ eq_refl).
  erewrite cmd_bind_Ok by reflexivity.
  cbn [cells config].
  pose proof (Hs 0%nat m ltac:(lia) ltac:(done)) as H0.
  rewrite Z.add_0_r in H0. change (drop (4 * 0) l) with l in H0. rewrite H0.
  assert (length (take 4 l) = 4%nat) as Ht by (rewrite length_take; lia).
  rewrite (IH (i + 1) _ (drop 4 l)).
  - replace (program_bytes m (t + 4 * i) l)
      with (program_bytes m (t + 4 * i) (take 4 l ++ drop 4 l)) by (by rewrite take_drop).
    rewrite program_bytes_app, Ht. by replace (t + 4 * (i + 1)) with (t + 4 * i + Z.of_nat 4) by lia.
  - intros k m' Hk Hm'. rewrite drop_drop. specialize (Hs (S k) m').
    replace (i + 1 + Z.of_nat k) with (i + Z.of_nat (S k)) by lia.
    rewrite Hs; [by replace (4 * S k)%nat with (4 + 4 * k)%nat by lia|lia|].
    intros b Hb. rewrite Hm' by lia. apply rd8_program_bytes_out. lia.
  - rewrite length_drop. lia.
Qed.

Definition write_ok (t : Z) (s : source) (len : Z) : Prop :=
  0 <= t /\ 0 <= len /\ len mod 4 = 0 /\ t mod 4 = 0 /\ source_addr s mod 4 = 0 /\
  t + len <= FLASHPAGE_SIZE * FLASHPAGE_NUMOF.

Lemma flashpage_write_loop t s len d :
  write_ok t s len ->
  flashpage_write t s len d =
  (write_loop (Z.to_nat (len / 4)) t s 0 ;; out_config NVMC_CONFIG_WEN_Ren)
    (mkNvmc NVMC_CONFIG_WEN_Wen (cells d)).
Proof.
  intros (?&?&?&?&?&Hb). unfold FLASHPAGE_SIZE, FLASHPAGE_NUMOF in Hb. unfold flashpage_write.
  erewrite cmd_bind_Ok by (apply check_true; apply Z.eqb_eq; done).
  erewrite cmd_bind_Ok by (apply check_true; apply andb_true_intro; split; apply Z.eqb_eq; done).
  erewrite cmd_bind_Ok
    by (apply check_true, Z.ltb_lt; rewrite wrap_small; unfold is_word, CPU_FLASH_BASE,
          FLASHPAGE_SIZE, FLASHPAGE_NUMOF; lia).
  by rewrite (cmd_bind_Ok _ _ _ _ _ eq_refl).
Qed.

Lemma flashpage_write_bytes t s len d l :
  write_ok t s len ->
  length l = Z.to_nat len ->
  (forall k m', (k < Z.to_nat (len / 4))%nat ->
     (forall b, b < t \/ t + len <= b -> rd8 m' b = rd8 (cells d) b) ->
     le_bytes 4 (source_word m' s (Z.of_nat k)) = take 4 (drop (4 * k) l)) ->
  flashpage_write t s len d = Ok (tt, mkNvmc NVMC_CONFIG_WEN_Ren (program_bytes (cells d) t l)).
Proof.
  intros Hok Hl Hs. rewrite flashpage_write_loop by done.
  destruct Hok as (?&?&Hm&_).
  assert (len = 4 * (len / 4)) as Hlen by (apply Z_div_exact_full_2; lia).
  erewrite cmd_bind_Ok.
  2:{ apply (write_loop_bytes _ _ _ _ _ l); [|lia].
      intros k m' Hk Hm'. cbn [Z.add]. apply Hs; [done|]. intros b Hb. apply Hm'. lia. }
  by rewrite Z.mul_0_r, Z.add_0_r.
Qed.

Lemma le_bytes_take_word l (k : nat) :
  Forall (is_word 8) l -> (4 * k + 4 <= length l)%nat ->
  le_bytes 4 (le_val (take 4 (drop (Z.to_nat (4 * Z.of_nat k)) l))) = take 4 (drop (4 * k) l).
Proof.
  intros Hl Hk. replace (Z.to_nat (4 * Z.of_nat k)) with (4 * k)%nat by lia.
  assert (length (take 4 (drop (4 * k) l)) = 4%nat) as Hn
    by (rewrite length_take, length_drop; lia).
  rewrite <- Hn at 1. apply le_bytes_val. by apply Forall_take, Forall_drop.
Qed.

(** Writing a buffer programs its bytes. *)
Lemma flashpage_write_buf t s l len d :
  (s = Auto l \/ exists a, s = Ram a l) ->
  write_ok t s len -> length l = Z.to_nat len -> Forall (is_word 8) l ->
  flashpage_write t s len d = Ok (tt, mkNvmc NVMC_CONFIG_WEN_Ren (program_bytes (cells d) t l)).
Proof.
  intros Hs Hok Hl Hw. apply flashpage_write_bytes; [done|done|].
  intros k m' Hk _. destruct Hok as (?&?&Hm&_).
  assert (len = 4 * (len / 4)) by (apply Z_div_exact_full_2; lia).
  destruct Hs as [-> | [a ->]]; cbn [source_word]; apply le_bytes_take_word; [done|lia|done|lia].
Qed.

(** Writing from the flash itself copies the source if the two ranges are
    disjoint. *)
Lemma flashpage_write_at t a len d :
  write_ok t (At a) len -> a + len <= t \/ t + len <= a ->
  flashpage_write t (At a) len d =
  Ok (tt, mkNvmc NVMC_CONFIG_WEN_Ren
            (program_bytes (cells d) t (rd_bytes (cells d) a (Z.to_nat len)))).
Proof.
  intros Hok Hd. apply flashpage_write_bytes; [done|by rewrite length_rd_bytes|].
  intros k m' Hk Hm'. destruct Hok as (?&?&Hm&_). cbn [source_word].
  assert (len = 4 * (len / 4)) by (apply Z_div_exact_full_2; lia).
  unfold rd32. rewrite le_bytes_rd.
  replace (Z.to_nat len) with (4 * k + (4 + (Z.to_nat len - 4 * k - 4)))%nat by lia.
  rewrite rd_bytes_app, drop_app_length'; [|by rewrite length_rd_bytes].
  rewrite rd_bytes_app, take_app_length'; [|by rewrite length_rd_bytes].
  replace (a + Z.of_nat (4 * k)) with (a + 4 * Z.of_nat k) by lia.
  apply rd_bytes_ext. intros b Hb. apply Hm'. lia.
Qed.

Lemma flashpage_addr_small page :
  0 <= page < FLASHPAGE_NUMOF -> flashpage_addr page = page * FLASHPAGE_SIZE.
Proof.
  unfold FLASHPAGE_NUMOF, FLASHPAGE_SIZE. intros. unfold flashpage_addr.
  apply wrap_small. unfold is_word, FLASHPAGE_SIZE, CPU_FLASH_BASE. lia.
Qed.

Lemma flashpage_page_small addr :
  0 <= addr < FLASHPAGE_SIZE * FLASHPAGE_NUMOF -> flashpage_page addr = addr / FLASHPAGE_SIZE.
Proof.
  unfold FLASHPAGE_NUMOF, FLASHPAGE_SIZE. intros. unfold flashpage_page, CPU_FLASH_BASE.
  rewrite signed_small by lia. rewrite Z.sub_0_r, Z.quot_div_nonneg by (unfold FLASHPAGE_SIZE; lia).
  apply wrap_small. unfold is_word, FLASHPAGE_SIZE. split; [apply Z.div_pos; lia|].
  apply Z.div_lt_upper_bound; lia.
Qed.

(** The cells of a freshly erased page. *)
Definition erase_page (m : memory) (a : Z) : memory :=
  wr_bytes m a (replicate (Z.to_nat FLASHPAGE_SIZE) FLASHPAGE_ERASE_STATE).

Lemma rd8_erase_page m a b :
  rd8 (erase_page m a) b =
  if decide (a <= b < a + FLASHPAGE_SIZE) then FLASHPAGE_ERASE_STATE else rd8 m b.
Proof.
  unfold erase_page. case_decide as Hb.
  - replace b with (a + Z.of_nat (Z.to_nat (b - a))) by lia.
    erewrite rd8_wr_bytes_in; [|apply lookup_replicate_2; lia]. done.
  - apply rd8_wr_bytes_out. rewrite length_replicate. lia.
Qed.

Lemma erased_erase_page m a : erased (erase_page m a) a FLASHPAGE_SIZE.
Proof. intros b Hb. rewrite rd8_erase_page. by rewrite decide_True. Qed.

Lemma flashpage_erase_page page d :
  0 <= page < FLASHPAGE_NUMOF ->
  flashpage_erase page d =
  Ok (tt, mkNvmc NVMC_CONFIG_WEN_Een (erase_page (cells d) (page * FLASHPAGE_SIZE))).
Proof.
  intros Hp. unfold flashpage_erase.
  erewrite cmd_bind_Ok by (apply check_true, Z.ltb_lt; lia).
  rewrite (cmd_bind_Ok _ _ _ _ _ eq_refl). unfold out_erasepage. cbn [config cells].
  rewrite Z.eqb_refl. unfold erase_page. by rewrite flashpage_addr_small.
Qed.

(** Rewriting a page and comparing it: the page holds exactly the data, every
    other cell keeps its value, the controller is left read-only, and the
    verification reports success. *)
Theorem write_and_verify_ok page addr data d :
  0 <= page < FLASHPAGE_NUMOF -> addr <> 0 -> addr mod 4 = 0 ->
  length data = Z.to_nat FLASHPAGE_SIZE -> Forall (is_word 8) data ->
  exists d', flashpage_write_and_verify page addr data d = Ok (FLASHPAGE_OK, d') /\
    flashpage_read page d' = Ok (data, d') /\
    config d' = NVMC_CONFIG_WEN_Ren /\
    forall b, b < page * FLASHPAGE_SIZE \/ (page + 1) * FLASHPAGE_SIZE <= b ->
      rd8 (cells d') b = rd8 (cells d) b.
Proof.
  intros Hp Ha0 Ha Hl Hw.
  set (a := page * FLASHPAGE_SIZE).
  assert (erased (erase_page (cells d) a) a (Z.of_nat (length data))) as He.
  { rewrite Hl, Z2Nat.id by (unfold FLASHPAGE_SIZE; lia). apply erased_erase_page. }
  assert (flashpage_write_page page addr data d =
          Ok (tt, mkNvmc NVMC_CONFIG_WEN_Ren (wr_bytes (erase_page (cells d) a) a data))) as HW.
  { unfold flashpage_write_page.
    erewrite cmd_bind_Ok by (apply check_true, Z.ltb_lt; lia).
    erewrite cmd_bind_Ok by (apply check_true, negb_true_iff, Z.eqb_neq; lia).
    erewrite cmd_bind_Ok by (by apply flashpage_erase_page).
    rewrite (flashpage_addr_small page Hp).
    erewrite flashpage_write_buf; [|by right; eexists| |done|done].
    - cbn [cells]. by rewrite program_erased.
    - unfold write_ok, source_addr. unfold FLASHPAGE_SIZE, FLASHPAGE_NUMOF in *.
      repeat split; try lia. apply Z.mod_divide; [lia|]; exists (page * 1024); lia. }
  assert (rd_bytes (wr_bytes (erase_page (cells d) a) a data) a (Z.to_nat FLASHPAGE_SIZE) = data)
    as HR by (rewrite <- Hl; by apply rd_bytes_wr_bytes).
  eexists. split_and!.
  - unfold flashpage_write_and_verify. erewrite cmd_bind_Ok by exact HW.
    unfold flashpage_verify.
    erewrite cmd_bind_Ok by (apply check_true, Z.ltb_lt; lia).
    rewrite (cmd_bind_Ok _ _ _ _ _ eq_refl). unfold flashpage_size.
    rewrite flashpage_addr_small by done. fold a. cbn [cells]. rewrite HR.
    rewrite decide_True; [reflexivity|]. symmetry. apply take_ge. lia.
  - unfold flashpage_read.
    erewrite cmd_bind_Ok by (apply check_true, Z.ltb_lt; lia).
    unfold gets, flashpage_size. cbn [cells]. rewrite flashpage_addr_small by done. fold a.
    by rewrite HR.
  - done.
  - intros b Hb. cbn [cells]. rewrite rd8_wr_bytes_out by (rewrite Hl; unfold FLASHPAGE_SIZE in *; lia).
    rewrite rd8_erase_page. rewrite decide_False; [done|]. unfold FLASHPAGE_SIZE in *. lia.
Qed.
End DriverFacts.
