(* ===== verification/XipFs.v ===== *)
(** * The execute-in-place file system

    Models [RIOT/sys/gnrc_xipfs/gnrc_xipfs.c] and its header: the three static
    variables and the flash device are the state, a [file_t *] is the address of
    its header in flash, and every function of the file is a command over that
    state.  Failed assertions and loops that exceed the number of flash pages
    are errors of the command. *)

From stdpp Require Import base gmap list.
From Stdlib Require Import ZArith Lia.
From S2P Require Import Prelude Flash.

Local Open Scope Z_scope.

Definition NULL : Z := 0.
Definition TINYFS_NAME_MAX : Z := 32.
Definition TINYFS_STATUS_LOADED : Z := 0.
Definition TINYFS_STATUS_LOADING : Z := 1.
Definition TINYFS_STATUS_CREATED : Z := 3.
Definition TINYFS_STATUS_FREE : Z := 0xffffffff.

Definition FREE_PAGE : Z := 0xffffffff.
Definition FILESIZE_MAX : Z := Z.shiftl 1 29 - 1.
Definition TINYFS_INITIALIZED : Z := 1.
Definition FLASHPAGE_ALIGNED (x : Z) : bool := Z.land x (FLASHPAGE_SIZE - 1) =? 0.
Definition ROUND (x y : Z) : Z := Z.land (u32 (x + y - 1)) (u32 (Z.lnot (y - 1))).
Definition TRUNC (x y : Z) : Z := Z.land x (u32 (Z.lnot (y - 1))).

(** ** [file_t] *)

Record file_t := mkFile {
  f_name : list Z;
  f_size : Z;
  f_next : Z;
  f_status : Z;
  f_exec : Z
}.

Definition sizeof_file : Z := 48.

(** The object representation of a [file_t] of the 32-bit ABI. *)
Definition file_bytes (f : file_t) : list Z :=
  f_name f ++ le_bytes 4 (f_size f) ++ le_bytes 4 (f_next f)
    ++ le_bytes 4 (f_status f) ++ le_bytes 4 (f_exec f).

(** Members of the [file_t] at address [p]. *)
Definition file_name (m : memory) (p : Z) : list Z := rd_bytes m p (Z.to_nat TINYFS_NAME_MAX).
Definition file_size (m : memory) (p : Z) : Z := rd32 m (p + 32).
Definition file_next (m : memory) (p : Z) : Z := rd32 m (p + 36).
Definition file_status (m : memory) (p : Z) : Z := rd32 m (p + 40).
Definition file_exec (m : memory) (p : Z) : Z := rd32 m (p + 44).
Definition file_at (m : memory) (p : Z) : file_t :=
  mkFile (file_name m p) (file_size m p) (file_next m p) (file_status m p) (file_exec m p).

(** C strings are lists of non-zero bytes; the terminator is implicit. *)
Fixpoint strncmp (n : nat) (s t : list Z) : Z :=
  match n with
  | O => 0
  | S n =>
      let a := default 0 (head s) in
      let b := default 0 (head t) in
      if negb (a =? b) then a - b
      else if a =? 0 then 0
      else strncmp n (tail s) (tail t)
  end.

(** [strncpy] of at most [n - 1] characters into a zeroed array of [n]. *)
Definition strncpy0 (n : nat) (s : list Z) : list Z :=
  take (n - 1) s ++ replicate (n - length (take (n - 1) s)) 0.

(** ** State *)

Record tinyfs := mkFs {
  first_page : Z;
  last_page : Z;
  module_init : Z;
  dev : nvmc
}.

Abbreviation fs A := (cmd tinyfs fault A).

Definition mem (s : tinyfs) : memory := cells (dev s).
Definition set_dev (s : tinyfs) (d : nvmc) : tinyfs :=
  mkFs (first_page s) (last_page s) (module_init s) d.

(** A flash operation on the device of the state. *)
Definition on_dev {A} (c : cmd nvmc fault A) : fs A := fun s =>
  match c (dev s) with
  | Ok (a, d) => Ok (a, set_dev s d)
  | Err e => Err e
  end.

(** Every file takes at least one of the pages, so no chain is longer. *)
Definition max_files : nat := Z.to_nat FLASHPAGE_NUMOF.

Section Operations.
Context `{HN : Nvmc}.

(** ** Internals *)

Definition source_byte (m : memory) (s : source) (i : Z) : Z :=
  match s with
  | Auto l | Ram _ l => default 0 (l !! Z.to_nat i)
  | At a => rd8 m (a + i)
  end.

Fixpoint write_unaligned_loop (n : nat) (target_addr : Z) (data : source) (i : Z) : fs unit :=
  match n with
  | O => mret tt
  | S n =>
      let address := u32 (target_addr + i) in
      value ← gets (fun s => source_byte (mem s) data i);
      let byte_shift := Z.land address (FLASHPAGE_WRITE_BLOCK_ALIGNMENT - 1) in
      let address32 := Z.land address (u32 (Z.lnot byte_shift)) in
      w ← gets (fun s => rd32 (mem s) address32);
      let mask := u32 (Z.shiftl FLASHPAGE_ERASE_STATE
                         (Z.shiftl byte_shift (FLASHPAGE_WRITE_BLOCK_SIZE - 1))) in
      let value32 := Z.land w (u32 (Z.lnot mask)) in
      let value32 := u32 (value32 + u32 (Z.shiftl value (Z.shiftl byte_shift 3))) in
      on_dev (flashpage_write address32 (Auto (le_bytes 4 value32)) FLASHPAGE_WRITE_BLOCK_SIZE) ;;
      write_unaligned_loop n target_addr data (i + 1)
  end.

Definition flashpage_write_unaligned (target_addr : Z) (data : source) (len : Z) : fs unit :=
  write_unaligned_loop (Z.to_nat len) target_addr data 0.

Fixpoint free_page_loop (fuel : nat) (p : Z) : fs (option Z) :=
  match fuel with
  | O => fail Diverge
  | S fuel =>
      first ← gets first_page;
      next ← gets (fun s => file_next (mem s) p);
      if next =? first then mret None
      else if next =? FREE_PAGE then mret (Some p)
      else check AssertFailed (FLASHPAGE_ALIGNED next) ;; free_page_loop fuel next
  end.

(** [Some ffp] is the return value 0 with [*ffp] set, [None] is -1. *)
Definition _get_first_free_page_addr : fs (option Z) :=
  p ← gets first_page;
  check AssertFailed (FLASHPAGE_ALIGNED p) ;;
  free_page_loop (S max_files) p.

Definition _tinyfs_flash_needed (page : Z) : fs bool :=
  let addr := flashpage_addr page in
  gets (fun s => existsb (fun i => negb (rd32 (mem s) (addr + 4 * i) =? FREE_PAGE))
                   (seqZ 0 (FLASHPAGE_SIZE / 4))).

Fixpoint flash_pages_loop (n : nat) (page i : Z) : fs unit :=
  match n with
  | O => mret tt
  | S n =>
      needed ← _tinyfs_flash_needed (u32 (page + i));
      (if needed : bool then on_dev (flashpage_erase (u32 (page + i))) else mret tt) ;;
      flash_pages_loop n page (i + 1)
  end.

Definition _tinyfs_flash_pages (page number : Z) : fs unit :=
  flash_pages_loop (Z.to_nat number) page 0.

Definition _tinyfs_flash_file (file : Z) : fs unit :=
  let page := flashpage_page file in
  size ← gets (fun s => file_size (mem s) file);
  let number := ROUND size FLASHPAGE_SIZE in
  let number := number / FLASHPAGE_SIZE in
  _tinyfs_flash_pages page number.

Definition _tinyfs_flash_file_content (file : Z) : fs unit :=
  backup ← gets (fun s => file_at (mem s) file);
  let backup := mkFile (f_name backup) (f_size backup) (f_next backup)
                  TINYFS_STATUS_CREATED (f_exec backup) in
  _tinyfs_flash_file file ;;
  on_dev (flashpage_write file (Auto (file_bytes backup)) sizeof_file).

(** ** Public API *)

Definition tinyfs_get_first_file : fs Z :=
  file ← gets first_page;
  init ← gets module_init;
  next ← gets (fun s => file_next (mem s) file);
  mret (if negb (init =? TINYFS_INITIALIZED) then NULL
        else if next =? FREE_PAGE then NULL
        else file).

Definition tinyfs_get_next_file (file : Z) : fs Z :=
  file ← gets (fun s => file_next (mem s) file);
  init ← gets module_init;
  next ← gets (fun s => file_next (mem s) file);
  first ← gets first_page;
  mret (if negb (init =? TINYFS_INITIALIZED) then NULL
        else if next =? FREE_PAGE then NULL
        else if next =? first then NULL
        else file).

(** The body of both uses of the status test in [_tinyfs_cleanup]. *)
Definition cleanup_file (file : Z) : fs unit :=
  status ← gets (fun s => file_status (mem s) file);
  if status =? TINYFS_STATUS_LOADING then _tinyfs_flash_file_content file else mret tt.

Fixpoint cleanup_loop (fuel : nat) (file : Z) : fs unit :=
  match fuel with
  | O => fail Diverge
  | S fuel =>
      file ← tinyfs_get_next_file file;
      if file =? NULL then mret tt
      else cleanup_file file ;; cleanup_loop fuel file
  end.

Definition _tinyfs_cleanup : fs unit :=
  file ← tinyfs_get_first_file;
  if file =? NULL then mret tt
  else cleanup_file file ;; cleanup_loop (S max_files) file.

Definition tinyfs_format : fs unit :=
  init ← gets module_init;
  if negb (init =? TINYFS_INITIALIZED) then mret tt
  else
    start ← gets (fun s => flashpage_page (first_page s));
    end_ ← gets (fun s => flashpage_page (last_page s));
    _tinyfs_flash_pages start (u32 (end_ - start)).

Definition tinyfs_init (flash_start flash_end : Z) : fs Z :=
  modify (fun s => mkFs (ROUND flash_start FLASHPAGE_SIZE) (last_page s) (module_init s) (dev s)) ;;
  modify (fun s => mkFs (first_page s) (TRUNC flash_end FLASHPAGE_SIZE) (module_init s) (dev s)) ;;
  modify (fun s => mkFs (first_page s) (u32 (last_page s - FLASHPAGE_SIZE)) (module_init s) (dev s)) ;;
  ok ← gets (fun s => first_page s <? last_page s);
  check AssertFailed ok ;;
  _tinyfs_cleanup ;;
  modify (fun s => mkFs (first_page s) (last_page s) TINYFS_INITIALIZED (dev s)) ;;
  mret 0.

Definition tinyfs_create_file (name : list Z) (size exec status : Z) : fs Z :=
  init ← gets module_init;
  if negb (init =? TINYFS_INITIALIZED) then mret NULL
  else if size =? 0 then mret NULL
  else if FILESIZE_MAX <? size then mret NULL
  else if negb (exec =? 0) && negb (exec =? 1) then mret NULL
  else
    r ← _get_first_free_page_addr;
    match r with
    | None => mret NULL
    | Some ffp =>
        let page_size := ROUND size FLASHPAGE_SIZE in
        first ← gets first_page;
        last ← gets last_page;
        let next := u32 (ffp + page_size) in
        let next := if next =? last then first else next in
        let file := mkFile (strncpy0 (Z.to_nat TINYFS_NAME_MAX) name) size next status exec in
        on_dev (flashpage_write ffp (Auto (file_bytes file)) sizeof_file) ;;
        mret ffp
    end.

Definition write_status (file status : Z) : fs unit :=
  on_dev (flashpage_write (file + 40) (Auto (le_bytes 4 status)) 4).

Definition tinyfs_file_status (file status : Z) : fs Z :=
  st ← gets (fun s => file_status (mem s) file);
  if st =? TINYFS_STATUS_FREE then write_status file status ;; mret 0
  else
    (* the second test: falls through to the third unless it returns *)
    stop ← (if st =? TINYFS_STATUS_CREATED then
              if status =? TINYFS_STATUS_FREE then mret true
              else write_status file status ;; mret false
            else mret false);
    if stop : bool then mret (-1)
    else
      st ← gets (fun s => file_status (mem s) file);
      if st =? TINYFS_STATUS_LOADING then
        if status =? TINYFS_STATUS_FREE then mret (-1)
        else if status =? TINYFS_STATUS_CREATED then mret (-1)
        else write_status file status ;; mret 0
      else mret (-1).

Definition tinyfs_file_write (file offset : Z) (src : source) (n : Z) : fs Z :=
  if n =? 0 then mret 0
  else
    size ← gets (fun s => file_size (mem s) file);
    if size <? offset then mret (-1)
    else if size <? u32 (offset + n) then mret (-1)
    else
      let dst := u32 (file + sizeof_file + offset) in
      flashpage_write_unaligned dst src n ;;
      mret 0.

Definition name_matches (name : list Z) (file : Z) : fs bool :=
  gets (fun s => strncmp (Z.to_nat TINYFS_NAME_MAX) (file_name (mem s) file) name =? 0).

Fixpoint search_loop (fuel : nat) (name : list Z) (file : Z) : fs Z :=
  match fuel with
  | O => fail Diverge
  | S fuel =>
      file ← tinyfs_get_next_file file;
      if file =? NULL then mret NULL
      else
        found ← name_matches name file;
        if found : bool then mret file else search_loop fuel name file
  end.

Definition tinyfs_file_search (name : list Z) : fs Z :=
  init ← gets module_init;
  if negb (init =? TINYFS_INITIALIZED) then mret NULL
  else
    file ← tinyfs_get_first_file;
    if file =? NULL then mret NULL
    else
      found ← name_matches name file;
      if found : bool then mret file else search_loop (S max_files) name file.

(** The loop over the further pages of a moved file; returns the last [dst]. *)
Fixpoint move_pages (n : nat) (dst src : Z) : fs Z :=
  match n with
  | O => mret dst
  | S n =>
      let num := flashpage_page src in
      needed ← _tinyfs_flash_needed num;
      (if needed : bool then
         on_dev (flashpage_write dst (At src) FLASHPAGE_SIZE) ;;
         on_dev (flashpage_erase num)
       else mret tt) ;;
      move_pages n (u32 (dst + FLASHPAGE_SIZE)) (u32 (src + FLASHPAGE_SIZE))
  end.

(** The body of the consolidation loop: moves the file at [src] to [dst] and
    returns where the following file goes. *)
Definition move_file (dst src : Z) : fs Z :=
  file ← gets (fun s => file_at (mem s) src);
  let size := ROUND (f_size file) FLASHPAGE_SIZE in
  let file := mkFile (f_name file) (f_size file) (u32 (dst + size)) (f_status file) (f_exec file) in
  on_dev (flashpage_write dst (Auto (file_bytes file)) sizeof_file) ;;
  on_dev (flashpage_write (u32 (dst + sizeof_file)) (At (u32 (src + sizeof_file)))
            (FLASHPAGE_SIZE - sizeof_file)) ;;
  on_dev (flashpage_erase (flashpage_page src)) ;;
  let dst := u32 (dst + FLASHPAGE_SIZE) in
  let src := u32 (src + FLASHPAGE_SIZE) in
  let pagenum := size / FLASHPAGE_SIZE in
  move_pages (Z.to_nat (pagenum - 1)) dst src.

Fixpoint remove_loop (fuel : nat) (dst next : Z) : fs unit :=
  match fuel with
  | O => fail Diverge
  | S fuel =>
      if next =? NULL then mret tt
      else
        let src := next in
        next ← tinyfs_get_next_file src;
        dst ← move_file dst src;
        remove_loop fuel dst next
  end.

Definition tinyfs_remove (name : list Z) : fs Z :=
  init ← gets module_init;
  if negb (init =? TINYFS_INITIALIZED) then mret (-1)
  else
    dst ← tinyfs_file_search name;
    if dst =? NULL then mret (-1)
    else
      next ← tinyfs_get_next_file dst;
      _tinyfs_flash_file dst ;;
      remove_loop (S max_files) dst next ;;
      mret 0.
End Operations.

(** ** Arithmetic of pages *)

Abbreviation aligned p := (p mod FLASHPAGE_SIZE = 0).

Lemma page_mask : u32 (Z.lnot (FLASHPAGE_SIZE - 1)) = 2 ^ 32 - FLASHPAGE_SIZE.
Proof. reflexivity. Qed.

(** Clearing the low twelve bits of a 32-bit value. *)
Lemma land_page_mask x :
  is_word 32 x -> Z.land x (2 ^ 32 - FLASHPAGE_SIZE) = FLASHPAGE_SIZE * (x / FLASHPAGE_SIZE).
Proof.
  intros Hx. change (2 ^ 32 - FLASHPAGE_SIZE) with (Z.ldiff (Z.ones 32) (Z.ones 12)).
  apply is_word_bits in Hx as [H0 Hx]; [|lia].
  change FLASHPAGE_SIZE with (2 ^ 12).
  rewrite Z.mul_comm, <- Z.shiftr_div_pow2, <- Z.shiftl_mul_pow2 by lia.
  apply Z.bits_inj'. intros i Hi.
  rewrite Z.land_spec, Z.ldiff_spec, Z.shiftl_spec by done.
  destruct (decide (i < 12)).
  - rewrite (Z.testbit_neg_r _ (i - 12)) by lia.
    rewrite (Z.ones_spec_low 12) by lia. by rewrite andb_false_r, andb_false_r.
  - rewrite Z.shiftr_spec by lia. replace (i - 12 + 12) with i by lia.
    rewrite (Z.ones_spec_high 12) by lia. destruct (decide (i < 32)).
    + rewrite Z.ones_spec_low by lia. cbn. apply andb_true_r.
    + rewrite Hx by lia. done.
Qed.

Lemma FLASHPAGE_ALIGNED_spec p : FLASHPAGE_ALIGNED p = true <-> aligned p.
Proof.
  unfold FLASHPAGE_ALIGNED. change (FLASHPAGE_SIZE - 1) with (Z.ones 12).
  rewrite Z.land_ones by lia. apply Z.eqb_eq.
Qed.

(** [ROUND]: the smallest multiple of the page size above a file size. *)
Lemma ROUND_page x :
  0 <= x <= FILESIZE_MAX ->
  x <= ROUND x FLASHPAGE_SIZE < x + FLASHPAGE_SIZE /\ aligned (ROUND x FLASHPAGE_SIZE).
Proof.
  intros Hx. change FILESIZE_MAX with (2 ^ 29 - 1) in Hx. unfold ROUND. rewrite page_mask.
  rewrite wrap_small by (unfold is_word, FLASHPAGE_SIZE; lia).
  rewrite land_page_mask by (unfold is_word, FLASHPAGE_SIZE; lia).
  pose proof (Z.div_mod (x + FLASHPAGE_SIZE - 1) FLASHPAGE_SIZE) as Hd.
  pose proof (Z.mod_pos_bound (x + FLASHPAGE_SIZE - 1) FLASHPAGE_SIZE) as Hb.
  unfold FLASHPAGE_SIZE in *. split; [lia|].
  rewrite Z.mul_comm. apply Z.mod_mul. lia.
Qed.
