(* ===== verification/XipFsSpec.v ===== *)
(** * What the file system promises

    The on-flash layout the operations of [XipFs] maintain (files packed from
    the first page on, then erased pages), the abstraction of a layout to a
    list of files, and the theorems that creation, enumeration, search, writing
    and formatting implement the corresponding operations on that list. *)

From stdpp Require Import base gmap list.
From Stdlib Require Import ZArith Lia.
From S2P Require Import Prelude Flash XipFs.

Local Open Scope Z_scope.

(** Pages a file occupies, in bytes. *)
Definition span (m : memory) (p : Z) : Z := ROUND (file_size m p) FLASHPAGE_SIZE.

Definition size_ok (n : Z) : Prop := 0 < n <= FILESIZE_MAX.

(** [layout m first last p l e]: from page [p] up to [last] the flash holds the
    files at the addresses [l], one after the other; [e] is the page where the
    erased rest begins, or [None] if the last file ends at [last]. *)
Inductive layout (m : memory) (first last : Z) : Z -> list Z -> option Z -> Prop :=
| lay_free p :
    p < last -> erased m p (last - p) -> layout m first last p [] (Some p)
| lay_full p :
    size_ok (file_size m p) -> p + span m p = last -> file_next m p = first ->
    layout m first last p [p] None
| lay_file p l e :
    size_ok (file_size m p) -> p + span m p < last -> file_next m p = p + span m p ->
    layout m first last (p + span m p) l e -> layout m first last p (p :: l) e.

(** The pages a file system may use: a non-empty aligned range inside the
    flash that leaves out page zero and the last page. *)
Record geometry (first last : Z) : Prop := mkGeometry {
  geo_first : aligned first;
  geo_last : aligned last;
  geo_pos : 0 < first;
  geo_order : first < last;
  geo_end : last + FLASHPAGE_SIZE <= FLASHPAGE_SIZE * FLASHPAGE_NUMOF
}.

(** A mounted file system with the files [l]. *)
Definition mounted (s : tinyfs) (l : list Z) (e : option Z) : Prop :=
  module_init s = TINYFS_INITIALIZED /\ geometry (first_page s) (last_page s) /\
  layout (mem s) (first_page s) (last_page s) (first_page s) l e.

(** The abstract view of a file: its name array, attributes and the bytes of
    its pages after the header. *)
Record afile := mkAfile {
  a_name : list Z; a_size : Z; a_status : Z; a_exec : Z; a_body : list Z
}.

Definition abs_file (m : memory) (p : Z) : afile :=
  mkAfile (file_name m p) (file_size m p) (file_status m p) (file_exec m p)
    (rd_bytes m (p + sizeof_file) (Z.to_nat (span m p - sizeof_file))).

(** ** Pages and words *)

Lemma aligned_add a b : aligned a -> aligned b -> aligned (a + b).
Proof. intros Ha Hb. rewrite Z.add_mod, Ha, Hb by done. done. Qed.

Lemma aligned_sub a b : aligned a -> aligned b -> aligned (a - b).
Proof. intros Ha Hb. rewrite Zminus_mod, Ha, Hb. done. Qed.

Lemma aligned_page : aligned FLASHPAGE_SIZE.
Proof. done. Qed.

Lemma aligned_word a : aligned a -> a mod 4 = 0.
Proof.
  intros Ha. apply Z.mod_divide in Ha as [k ->]; [|done].
  apply Z.mod_divide; [done|]. exists (k * 1024). unfold FLASHPAGE_SIZE. lia.
Qed.

(** Two different multiples of the page size are at least a page apart. *)
Lemma aligned_lt a b : aligned a -> aligned b -> a < b -> a + FLASHPAGE_SIZE <= b.
Proof.
  intros Ha Hb Hlt. apply Z.mod_divide in Ha as [i ->], Hb as [j ->]; [|done..].
  unfold FLASHPAGE_SIZE in *. nia.
Qed.

#[export] Hint Resolve aligned_add aligned_sub aligned_page aligned_word : mem.

Lemma span_ok m p :
  size_ok (file_size m p) -> FLASHPAGE_SIZE <= span m p /\ file_size m p <= span m p /\ aligned (span m p).
Proof.
  intros Hs. unfold span, size_ok in *.
  destruct (ROUND_page (file_size m p) ltac:(lia)) as [Hb Ha].
  split; [|split; [lia|done]].
  pose proof (aligned_lt 0 _ eq_refl Ha). lia.
Qed.

Lemma erased_word m a n :
  erased m a n -> 4 <= n -> rd32 m a = FREE_PAGE.
Proof.
  intros He Hn. unfold rd32. cbn [rd_le]. rewrite !He by lia. done.
Qed.

Lemma erased_weaken m a n b k :
  erased m a n -> a <= b -> b + k <= a + n -> erased m b k.
Proof. intros He H1 H2 c Hc. apply He. lia. Qed.

Lemma erased_ext m m' a n : same_on m m' a (a + n) -> erased m a n -> erased m' a n.
Proof. intros Hs He b Hb. rewrite Hs by lia. by apply He. Qed.

Lemma erased_join m a n k : erased m a n -> erased m (a + n) k -> erased m a (n + k).
Proof.
  intros H1 H2 b Hb. destruct (decide (b < a + n)); [apply H1|apply H2]; lia.
Qed.

(** ** Header members in memory *)

Section Members.
Variables (m m' : memory) (p : Z).
Hypothesis Hs : same_on m m' p (p + sizeof_file).

Local Ltac member :=
  first [apply rd_le_ext | apply rd_bytes_ext];
  eapply same_on_weaken; [exact Hs| |]; unfold sizeof_file, TINYFS_NAME_MAX; lia.

Lemma file_name_ext : file_name m' p = file_name m p.
Proof using Hs. unfold file_name. member. Qed.
Lemma file_size_ext : file_size m' p = file_size m p.
Proof using Hs. unfold file_size, rd32. member. Qed.
Lemma file_next_ext : file_next m' p = file_next m p.
Proof using Hs. unfold file_next, rd32. member. Qed.
Lemma file_status_ext : file_status m' p = file_status m p.
Proof using Hs. unfold file_status, rd32. member. Qed.
Lemma file_exec_ext : file_exec m' p = file_exec m p.
Proof using Hs. unfold file_exec, rd32. member. Qed.
Lemma span_ext : span m' p = span m p.
Proof using Hs. unfold span. by rewrite file_size_ext. Qed.
End Members.

Lemma abs_file_ext m m' p :
  size_ok (file_size m p) -> same_on m m' p (p + span m p) -> abs_file m' p = abs_file m p.
Proof.
  intros Hz Hs. pose proof (span_ok m p Hz) as (Hp & _).
  assert (same_on m m' p (p + sizeof_file)) as Hh
    by (eapply same_on_weaken; [exact Hs|lia|unfold FLASHPAGE_SIZE, sizeof_file in *; lia]).
  unfold abs_file.
  rewrite (span_ext _ _ _ Hh), (file_name_ext _ _ _ Hh), (file_size_ext _ _ _ Hh),
    (file_status_ext _ _ _ Hh), (file_exec_ext _ _ _ Hh).
  f_equal. apply rd_bytes_ext.
  eapply same_on_weaken; [exact Hs| |]; unfold FLASHPAGE_SIZE, sizeof_file in *; lia.
Qed.

(** ** Facts about layouts *)

Section Layout.
Variables (first last : Z).
Hypothesis (G : geometry first last).

Lemma layout_ext m m' p l e :
  layout m first last p l e -> same_on m m' p last -> layout m' first last p l e.
Proof using All.
  induction 1 as [p Hp He|p Hz Hp Hn|p l e Hz Hp Hn Hl IH]; intros Hs.
  - apply lay_free; [done|]. eapply erased_ext; [|done].
    eapply same_on_weaken; [exact Hs|lia|lia].
  - pose proof (span_ok m p Hz) as (Hsp & _).
    assert (same_on m m' p (p + sizeof_file)) as Hh
      by (eapply same_on_weaken; [exact Hs|lia|unfold FLASHPAGE_SIZE, sizeof_file in *; lia]).
    apply lay_full; rewrite ?(span_ext _ _ _ Hh), ?(file_size_ext _ _ _ Hh),
      ?(file_next_ext _ _ _ Hh); done.
  - pose proof (span_ok m p Hz) as (Hsp & _).
    assert (same_on m m' p (p + sizeof_file)) as Hh
      by (eapply same_on_weaken; [exact Hs|lia|unfold FLASHPAGE_SIZE, sizeof_file in *; lia]).
    rewrite <- (span_ext _ _ _ Hh) in *.
    apply lay_file; rewrite ?(file_size_ext _ _ _ Hh), ?(file_next_ext _ _ _ Hh);
      [done|done|done|].
    apply IH. eapply same_on_weaken; [exact Hs| |lia]. unfold FLASHPAGE_SIZE in *; lia.
Qed.

(** The layout starts before [last], and each file takes at least a page. *)
Lemma layout_start m p l e :
  layout m first last p l e -> aligned p -> p + FLASHPAGE_SIZE <= last.
Proof using All.
  intros Hl Ha. destruct Hl as [p Hp|p Hz Hp Hn|p l e Hz Hp].
  - apply aligned_lt; [done|apply G|done].
  - pose proof (span_ok m p Hz). lia.
  - pose proof (span_ok m p Hz). unfold FLASHPAGE_SIZE in *. lia.
Qed.

Lemma layout_length m p l e :
  layout m first last p l e -> FLASHPAGE_SIZE * Z.of_nat (length l) <= last - p.
Proof using All.
  induction 1 as [p Hp He|p Hz Hp Hn|p l e Hz Hp Hn Hl IH]; cbn [length].
  - lia.
  - pose proof (span_ok m p Hz). lia.
  - pose proof (span_ok m p Hz). unfold FLASHPAGE_SIZE in *. lia.
Qed.

Lemma layout_fuel m l e p :
  layout m first last p l e -> first <= p -> (length l <= max_files)%nat.
Proof using All.
  intros Hl Hp. apply layout_length in Hl. destruct G.
  unfold max_files, FLASHPAGE_SIZE, FLASHPAGE_NUMOF in *. lia.
Qed.

(** Every file of a layout is a whole number of pages inside it. *)
Lemma layout_elem m p l e q :
  layout m first last p l e -> aligned p -> q ∈ l ->
  p <= q /\ aligned q /\ size_ok (file_size m q) /\ q + span m q <= last.
Proof using All.
  induction 1 as [p Hp He|p Hz Hp Hn|p l e Hz Hp Hn Hl IH]; intros Ha Hq.
  - by apply elem_of_nil in Hq.
  - apply list_elem_of_singleton in Hq as ->. repeat split; try done; lia || apply Hz.
  - pose proof (span_ok m p Hz) as (?&?&?). unfold FLASHPAGE_SIZE in *.
    apply elem_of_cons in Hq as [-> | Hq].
    + split_and!; [lia|done|done|lia].
    + destruct IH as (?&?&?&?); [by apply aligned_add|done|].
      split_and!; [lia|done|done|lia].
Qed.

(** Where the erased rest begins. *)
Lemma layout_free m p l q :
  layout m first last p l (Some q) -> aligned p ->
  p <= q /\ aligned q /\ q < last /\ erased m q (last - q).
Proof using All.
  remember (Some q) as e. intros Hl. revert q Heqe.
  induction Hl as [p Hp He|p Hz Hp Hn|p l e Hz Hp Hn Hl IH]; intros q Hq Ha; simplify_eq.
  - split_and!; [lia|done|done|done].
  - pose proof (span_ok m p Hz) as (?&?&?).
    destruct (IH q eq_refl) as (?&?&?&?); [by apply aligned_add|].
    unfold FLASHPAGE_SIZE in *. split_and!; [lia|done|done|done].
Qed.
End Layout.

#[export] Hint Resolve geo_first geo_last : mem.

(** ** Reading back what was written *)

Lemma rd_bytes_wr_slice m a l1 l2 l3 :
  Forall (is_word 8) l2 ->
  rd_bytes (wr_bytes m a (l1 ++ l2 ++ l3)) (a + Z.of_nat (length l1)) (length l2) = l2.
Proof.
  intros Hw. rewrite !wr_bytes_app. etransitivity; [|by apply rd_bytes_wr_bytes].
  apply rd_bytes_ext. intros b Hb. apply rd8_wr_bytes_out. lia.
Qed.

Lemma le_bytes_words n v : Forall (is_word 8) (le_bytes n v).
Proof. revert v. induction n; intros v; constructor; auto. apply wrap_range. lia. Qed.

Lemma le_val_bytes n v : le_val (le_bytes n v) = v mod 256 ^ Z.of_nat n.
Proof.
  revert v. induction n as [|n IH]; intros v; cbn [le_bytes le_val].
  { by rewrite Z.mod_1_r. }
  rewrite IH, Nat2Z.inj_succ, Z.pow_succ_r by lia. rewrite Z.rem_mul_r by lia. done.
Qed.

Lemma rd32_wr_slice m a b l1 v l3 :
  is_word 32 v -> b = a + Z.of_nat (length l1) ->
  rd32 (wr_bytes m a (l1 ++ le_bytes 4 v ++ l3)) b = v.
Proof.
  intros Hv ->. unfold rd32. rewrite rd_le_val.
  pose proof (rd_bytes_wr_slice m a l1 (le_bytes 4 v) l3 (le_bytes_words 4 v)) as H.
  rewrite length_le_bytes in H. rewrite H, le_val_bytes. by apply (wrap_small 32).
Qed.

(** A well-typed [file_t] object. *)
Record file_typed (f : file_t) : Prop := mkTyped {
  ty_name_len : length (f_name f) = 32%nat;
  ty_name : Forall (is_word 8) (f_name f);
  ty_size : is_word 32 (f_size f);
  ty_next : is_word 32 (f_next f);
  ty_status : is_word 32 (f_status f);
  ty_exec : is_word 32 (f_exec f)
}.

Lemma file_bytes_length f : file_typed f -> length (file_bytes f) = 48%nat.
Proof. intros [Hn _]. unfold file_bytes. rewrite !length_app, Hn, !length_le_bytes. done. Qed.

Lemma file_bytes_words f : file_typed f -> Forall (is_word 8) (file_bytes f).
Proof.
  intros [Hn Hw _ _ _ _]. unfold file_bytes. repeat (apply Forall_app_2; [|]); auto using le_bytes_words.
Qed.

Lemma file_at_typed m p : file_typed (file_at m p).
Proof.
  split; cbn; [apply length_rd_bytes|apply rd_bytes_words|apply rd32_range..].
Qed.

(** Writing the representation of a header and reading its members. *)
Lemma file_at_wr m p f : file_typed f -> file_at (wr_bytes m p (file_bytes f)) p = f.
Proof.
  intros T. pose proof (ty_name_len f T) as Hn. destruct T as [_ Hw Hs Hx Ht He].
  destruct f as [nm sz nx st ex]; cbn [f_name f_size f_next f_status f_exec] in *.
  unfold file_at, file_name, file_size, file_next, file_status, file_exec, file_bytes;
    cbn [f_name f_size f_next f_status f_exec].
  f_equal.
  - rewrite <- Hn at 1. etransitivity; [|apply (rd_bytes_wr_slice m p [] nm); done].
    cbn [length Z.of_nat]. rewrite Z.add_0_r, Hn. done.
  - apply rd32_wr_slice; [done|rewrite Hn; lia].
  - rewrite (app_assoc nm).
    apply rd32_wr_slice; [done|rewrite length_app, Hn, length_le_bytes; lia].
  - rewrite (app_assoc nm), (app_assoc (nm ++ _)).
    apply rd32_wr_slice; [done|rewrite !length_app, Hn, !length_le_bytes; lia].
  - rewrite (app_assoc nm), (app_assoc (nm ++ _)), (app_assoc ((nm ++ _) ++ _)).
    rewrite <- (app_nil_r (le_bytes 4 ex)).
    apply rd32_wr_slice; [done|rewrite !length_app, Hn, !length_le_bytes; lia].
Qed.

Lemma file_at_members m p f :
  file_at m p = f ->
  file_name m p = f_name f /\ file_size m p = f_size f /\ file_next m p = f_next f /\
  file_status m p = f_status f /\ file_exec m p = f_exec f.
Proof. intros <-. done. Qed.

Lemma strncpy0_length n s : (0 < n)%nat -> length (strncpy0 n s) = n.
Proof.
  intros. unfold strncpy0. rewrite length_app, length_replicate, length_take. lia.
Qed.

Lemma strncpy0_words n s : Forall (is_word 8) s -> Forall (is_word 8) (strncpy0 n s).
Proof.
  intros. apply Forall_app_2; [by apply Forall_take|].
  apply Forall_replicate. unfold is_word. lia.
Qed.

(** ** Finding the free page *)

Section Mounted.
Context `{HN : Nvmc}.

Lemma on_dev_Ok {A} (c : cmd nvmc fault A) s a d :
  c (dev s) = Ok (a, d) -> on_dev c s = Ok (a, set_dev s d).
Proof. intros H. unfold on_dev. by rewrite H. Qed.

(** One step of a command whose first part is a pure read of the state. *)
Local Ltac read := rewrite (cmd_bind_Ok _ _ _ _ _ eq_refl).

Lemma free_page_loop_spec s p l e fuel :
  geometry (first_page s) (last_page s) ->
  layout (mem s) (first_page s) (last_page s) p l e ->
  aligned p -> first_page s <= p -> (length l < fuel)%nat ->
  free_page_loop fuel p s = Ok (e, s).
Proof using.
  intros G Hl. revert fuel.
  induction Hl as [p Hp He|p Hz Hp Hn|p l e Hz Hp Hn Hl IH]; intros fuel Ha Hf Hfuel;
    (destruct fuel as [|fuel]; [cbn in Hfuel; lia|]); cbn [free_page_loop]; do 2 read.
  - pose proof (aligned_lt _ _ Ha (geo_last _ _ G) Hp) as Hpg. unfold FLASHPAGE_SIZE in Hpg.
    assert (file_next (mem s) p = FREE_PAGE) as ->
      by (eapply (erased_word _ _ 4); [eapply erased_weaken; [exact He|lia|lia]|lia]).
    destruct G as [_ _ _ ? ?]. unfold FLASHPAGE_SIZE, FLASHPAGE_NUMOF, FREE_PAGE in *.
    rewrite (proj2 (Z.eqb_neq _ _)) by lia. rewrite Z.eqb_refl. done.
  - rewrite Hn, Z.eqb_refl. done.
  - pose proof (span_ok _ _ Hz) as (?&?&?). rewrite Hn.
    destruct G as [? ? ? ? Hend]. unfold FLASHPAGE_NUMOF, FREE_PAGE in *.
    rewrite (proj2 (Z.eqb_neq _ _)) by (unfold FLASHPAGE_SIZE in *; lia).
    rewrite (proj2 (Z.eqb_neq _ _)) by (unfold FLASHPAGE_SIZE in *; lia).
    erewrite cmd_bind_Ok by (apply check_true, FLASHPAGE_ALIGNED_spec; by apply aligned_add).
    apply IH; [by apply aligned_add|unfold FLASHPAGE_SIZE in *; lia|cbn in Hfuel; lia].
Qed.

Lemma first_free_spec s l e :
  mounted s l e -> _get_first_free_page_addr s = Ok (e, s).
Proof using.
  intros (_ & G & Hl). unfold _get_first_free_page_addr. read.
  erewrite cmd_bind_Ok by (apply check_true, FLASHPAGE_ALIGNED_spec, G).
  eapply free_page_loop_spec; [done|done|apply G|done|].
  pose proof (layout_fuel _ _ G _ _ _ _ Hl ltac:(lia)). lia.
Qed.

(** Writing a well-typed header into erased flash stores exactly its bytes. *)
Lemma write_header s p f :
  0 <= p -> aligned p -> p + FLASHPAGE_SIZE <= FLASHPAGE_SIZE * FLASHPAGE_NUMOF ->
  file_typed f -> erased (mem s) p sizeof_file ->
  on_dev (flashpage_write p (Auto (file_bytes f)) sizeof_file) s =
  Ok (tt, set_dev s (mkNvmc NVMC_CONFIG_WEN_Ren (wr_bytes (mem s) p (file_bytes f)))).
Proof using.
  intros H0 Ha Hb T He. apply on_dev_Ok.
  pose proof (file_bytes_length f T) as Hlen. pose proof (file_bytes_words f T).
  erewrite flashpage_write_buf; [| by left | |by rewrite Hlen|done].
  - fold (mem s). rewrite program_erased; [done|done|]. rewrite Hlen. done.
  - unfold write_ok. cbn [source_addr]. unfold sizeof_file, FLASHPAGE_SIZE in *.
    split_and!; try done; [by apply aligned_word|lia].
Qed.
End Mounted.

(** ** Creating a file *)

Section Append.
Variables (first last : Z).
Hypothesis (G : geometry first last).

(** The files of a layout lie below its erased rest. *)
Lemma layout_below m p l q x :
  layout m first last p l (Some q) -> aligned p -> x ∈ l -> x + span m x <= q.
Proof using All.
  remember (Some q) as e. intros Hl. revert Heqe.
  induction Hl as [p Hp He|p Hz Hp Hn|p l e Hz Hp Hn Hl IH]; intros Heq Ha Hx; simplify_eq.
  - by apply elem_of_nil in Hx.
  - pose proof (span_ok m p Hz) as (?&?&?).
    apply elem_of_cons in Hx as [-> | Hx]; [|by apply IH; [|apply aligned_add|]].
    apply (layout_free _ _ G) in Hl as (?&_); [lia|by apply aligned_add].
Qed.

(** The rest that follows a new file of [n] bytes at [q]. *)
Definition rest_after (q n : Z) : option Z :=
  if decide (q + n = last) then None else Some (q + n).

Lemma layout_append m m' p l q :
  layout m first last p l (Some q) -> aligned p ->
  (forall b, b < q \/ q + sizeof_file <= b -> rd8 m' b = rd8 m b) ->
  size_ok (file_size m' q) -> q + span m' q <= last ->
  file_next m' q = (if decide (q + span m' q = last) then first else q + span m' q) ->
  layout m' first last p (l ++ [q]) (rest_after q (span m' q)).
Proof using All.
  remember (Some q) as e. intros Hl. revert Heqe.
  induction Hl as [p Hp He|p Hz Hp Hn|p l e Hz Hp Hn Hl IH];
    intros Heq Ha Hs Hz' Hend Hnext; try done; simplify_eq.
  - cbn. unfold rest_after. pose proof (span_ok _ _ Hz') as (?&?&?).
    case_decide; [by apply lay_full|].
    apply lay_file; [done|lia|done|]. apply lay_free; [lia|].
    intros b Hb. rewrite Hs by (unfold FLASHPAGE_SIZE, sizeof_file in *; lia).
    apply He. unfold FLASHPAGE_SIZE in *. lia.
  - cbn. pose proof (span_ok m p Hz) as (?&?&?).
    destruct (layout_free _ _ G _ _ _ _ Hl) as (?&?&?); [by apply aligned_add|].
    assert (same_on m m' p (p + sizeof_file)) as Hh.
    { intros b Hb. apply Hs. unfold FLASHPAGE_SIZE, sizeof_file in *. lia. }
    rewrite <- (span_ext _ _ _ Hh) in *.
    apply lay_file; rewrite ?(file_size_ext _ _ _ Hh), ?(file_next_ext _ _ _ Hh);
      [done|done|done|].
    apply IH; [done|by apply aligned_add|done..].
Qed.
End Append.

Lemma rd_bytes_erased m a n :
  erased m a (Z.of_nat n) -> rd_bytes m a n = replicate n FLASHPAGE_ERASE_STATE.
Proof.
  revert a. induction n as [|n IH]; intros a He; cbn; [done|].
  rewrite He by lia. f_equal. apply IH. eapply erased_weaken; [exact He|lia|lia].
Qed.

Section Create.
Context `{HN : Nvmc}.

Local Ltac read := rewrite (cmd_bind_Ok _ _ _ _ _ eq_refl).

(** What a successful creation does: the header of the new file, nothing else. *)
Lemma create_file_step s l q name size exec status :
  mounted s l (Some q) -> size_ok size -> (exec = 0 \/ exec = 1) -> is_word 32 status ->
  Forall (is_word 8) name -> q + ROUND size FLASHPAGE_SIZE <= last_page s ->
  let next := if decide (q + ROUND size FLASHPAGE_SIZE = last_page s)
              then first_page s else q + ROUND size FLASHPAGE_SIZE in
  let f := mkFile (strncpy0 32 name) size next status exec in
  file_typed f /\
  tinyfs_create_file name size exec status s =
    Ok (q, set_dev s (mkNvmc NVMC_CONFIG_WEN_Ren (wr_bytes (mem s) q (file_bytes f)))).
Proof using.
  intros Hm Hz Hx Hst Hn Hfit next f. pose proof Hm as (Hi & G & Hl).
  destruct (layout_free _ _ G _ _ _ _ Hl) as (Hq & Haq & Hql & He); [apply G|].
  destruct (ROUND_page size ltac:(unfold size_ok in Hz; lia)) as [Hr Har].
  pose proof (aligned_lt _ _ Haq (geo_last _ _ G) Hql) as Hpg.
  destruct G as [Ha1 Ha2 G0 G1 G2]. unfold size_ok in Hz. change FILESIZE_MAX with (2 ^ 29 - 1) in Hz.
  unfold FLASHPAGE_SIZE, FLASHPAGE_NUMOF in G2. unfold FLASHPAGE_SIZE in Hpg.
  assert (is_word 32 next) as Hnext by (unfold is_word, next; case_decide; lia).
  assert (file_typed f) as T.
  { split; cbn [f f_name f_size f_next f_status f_exec]; try done;
      [by apply strncpy0_length; lia|by apply strncpy0_words| |]; unfold is_word; lia. }
  split; [done|].
  unfold tinyfs_create_file. read. rewrite Hi. cbn [negb Z.eqb TINYFS_INITIALIZED Pos.eqb].
  rewrite (proj2 (Z.eqb_neq size 0)) by lia.
  rewrite (proj2 (Z.ltb_ge FILESIZE_MAX size)) by (change FILESIZE_MAX with (2 ^ 29 - 1); lia).
  replace (negb (exec =? 0) && negb (exec =? 1)) with false by (by destruct Hx as [-> | ->]).
  erewrite cmd_bind_Ok by (eapply first_free_spec; exact Hm).
  cbv beta iota. do 2 read. cbv beta zeta.
  rewrite (wrap_small 32) by (unfold is_word; lia).
  replace (if q + ROUND size FLASHPAGE_SIZE =? last_page s then first_page s
           else q + ROUND size FLASHPAGE_SIZE) with next
    by (unfold next; case_decide as E; [by rewrite E, Z.eqb_refl|by rewrite (proj2 (Z.eqb_neq _ _))]).
  erewrite cmd_bind_Ok; [reflexivity|].
  apply write_header; [lia|done|unfold FLASHPAGE_SIZE, FLASHPAGE_NUMOF; lia|done|].
  eapply erased_weaken; [exact He|lia|unfold sizeof_file; lia].
Qed.

Lemma create_file_spec s l q name size exec status :
  mounted s l (Some q) -> size_ok size -> (exec = 0 \/ exec = 1) -> is_word 32 status ->
  Forall (is_word 8) name -> q + ROUND size FLASHPAGE_SIZE <= last_page s ->
  exists s', tinyfs_create_file name size exec status s = Ok (q, s') /\
    mounted s' (l ++ [q]) (rest_after (last_page s) q (ROUND size FLASHPAGE_SIZE)) /\
    map (abs_file (mem s')) (l ++ [q]) =
    map (abs_file (mem s)) l ++
      [mkAfile (strncpy0 32 name) size status exec
         (replicate (Z.to_nat (ROUND size FLASHPAGE_SIZE - sizeof_file)) FLASHPAGE_ERASE_STATE)].
Proof using.
  intros Hm Hz Hx Hst Hn Hfit.
  destruct (create_file_step s l q name size exec status) as [T Hc]; [done..|].
  eexists. split; [exact Hc|]. clear Hc. destruct Hm as (Hi & G & Hl).
  set (f := mkFile _ _ _ _ _) in *. set (m' := wr_bytes (mem s) q (file_bytes f)) in *.
  assert (forall b, b < q \/ q + sizeof_file <= b -> rd8 m' b = rd8 (mem s) b) as Hout.
  { intros b Hb. apply rd8_wr_bytes_out. rewrite file_bytes_length by done. exact Hb. }
  destruct (file_at_members m' q f (file_at_wr _ _ _ T)) as (Fn & Fs & Fx & Ft & Fe).
  assert (span m' q = ROUND size FLASHPAGE_SIZE) as Hsp by (unfold span; by rewrite Fs).
  destruct (layout_free _ _ G _ _ _ _ Hl) as (Hq & Haq & Hql & He); [apply G|].
  clearbody m'. split.
  - split; [done|]. split; [done|]. unfold mem. cbn [dev cells set_dev first_page last_page].
    rewrite <- Hsp. apply (layout_append _ _ G (mem s)); [done|apply G|done| |lia|].
    + by rewrite Fs.
    + rewrite Fx, Hsp. done.
  - unfold mem at 1. cbn [dev cells set_dev]. rewrite map_app. cbn [map]. f_equal.
    + apply map_ext_in. intros x Hin%list_elem_of_In.
      destruct (layout_elem _ _ G _ _ _ _ _ Hl (geo_first _ _ G) Hin) as (_ & _ & Hzx & _).
      apply abs_file_ext; [done|]. intros b Hb. apply Hout.
      pose proof (layout_below _ _ G _ _ _ _ _ Hl (geo_first _ _ G) Hin). lia.
    + unfold abs_file. rewrite Hsp, Fn, Fs, Ft, Fe. do 2 f_equal.
      apply rd_bytes_erased. eapply (erased_ext (mem s)).
      * intros b Hb. apply Hout. lia.
      * pose proof (span_ok m' q ltac:(by rewrite Fs)) as (?&_).
        eapply erased_weaken; [exact He| |]; unfold FLASHPAGE_SIZE, sizeof_file in *; lia.
Qed.

(** C20: Creation refines appending to the list of files: the new file is at the
    first free page with the given attributes and an erased body, the header
    fields read back as given (the name cut to 31 characters), every other file
    is untouched, and the file system stays well laid out. *)
Theorem create_file_appends s l q name size exec status :
  mounted s l (Some q) -> size_ok size -> (exec = 0 \/ exec = 1) -> is_word 32 status ->
  Forall (is_word 8) name -> q + ROUND size FLASHPAGE_SIZE <= last_page s ->
  exists s', tinyfs_create_file name size exec status s = Ok (q, s') /\
    mounted s' (l ++ [q]) (rest_after (last_page s) q (ROUND size FLASHPAGE_SIZE)) /\
    map (abs_file (mem s')) (l ++ [q]) =
    map (abs_file (mem s)) l ++
      [mkAfile (strncpy0 32 name) size status exec
         (replicate (Z.to_nat (ROUND size FLASHPAGE_SIZE - sizeof_file)) FLASHPAGE_ERASE_STATE)].
Proof using. apply create_file_spec. Qed.

(** Every refusal of creation leaves the state alone. *)
Theorem create_file_refuses s name size exec status l :
  module_init s <> TINYFS_INITIALIZED \/ size = 0 \/ FILESIZE_MAX < size \/
  (exec <> 0 /\ exec <> 1) \/ mounted s l None ->
  tinyfs_create_file name size exec status s = Ok (NULL, s).
Proof using.
  intros H. unfold tinyfs_create_file. read.
  destruct (Z.eqb_spec (module_init s) TINYFS_INITIALIZED) as [Hi|]; [|done]. cbn [negb].
  destruct (Z.eqb_spec size 0); [done|].
  destruct (Z.ltb_spec FILESIZE_MAX size); [done|].
  destruct (Z.eqb_spec exec 0), (Z.eqb_spec exec 1); cbn [negb andb];
    try done; (destruct H as [H|[H|[H|[H|H]]]]; [done|done|lia|lia|]);
    erewrite cmd_bind_Ok by (eapply first_free_spec; exact H); done.
Qed.
End Create.
