(* ===== verification/XipFsOps.v ===== *)
(** * File-system operations on mounted systems

    Search, status changes, writes, formatting and mounting of [XipFs], each
    characterised on the layouts of [XipFsSpec]. *)

From stdpp Require Import base gmap list.
From Stdlib Require Import ZArith Lia.
From S2P Require Import Prelude Flash XipFs XipFsSpec.

Local Open Scope Z_scope.

Ltac read := rewrite (cmd_bind_Ok _ _ _ _ _ eq_refl).

(** ** Names *)

(** A C string: bytes other than the terminator. *)
Definition c_string (s : list Z) : Prop := Forall (fun c => is_word 8 c /\ c <> 0) s.

Lemma c_string_words s : c_string s -> Forall (is_word 8) s.
Proof. intros H. eapply Forall_impl; [exact H|]. naive_solver. Qed.

Lemma strncmp_padded n a b :
  c_string a -> c_string b -> (length a < n)%nat ->
  strncmp n (a ++ replicate (n - length a) 0) b = 0 <-> b = a.
Proof.
  intros Ha. revert n b. induction Ha as [|x a [_ Hx] Ha IH]; intros n b Hb Hn;
    (destruct n as [|n]; [cbn in Hn; lia|]).
  - destruct b as [|y b]; [done|]. apply Forall_cons_1 in Hb as [[_ Hy] _].
    cbn -[Z.sub Z.eqb]. destruct (Z.eqb_spec 0 y); [done|]. cbn [negb]. split; [lia|done].
  - destruct b as [|y b].
    + cbn -[Z.sub Z.eqb]. rewrite (proj2 (Z.eqb_neq x 0)) by done. cbn. split; [lia|done].
    + apply Forall_cons_1 in Hb as [_ Hb]. cbn -[Z.sub Z.eqb].
      destruct (Z.eqb_spec x y) as [<-|Hne]; cbn [negb].
      * rewrite (proj2 (Z.eqb_neq x 0)) by done. cbn in Hn.
        rewrite IH by (done || lia). split; congruence.
      * split; [lia|congruence].
Qed.

(** A stored name is found under a string exactly when the string is the stored
    name cut to 31 characters: longer names are never found again. *)
Lemma stored_name_matches name s :
  c_string name -> c_string s ->
  strncmp 32 (strncpy0 32 name) s = 0 <-> s = take 31 name.
Proof.
  intros Hn Hs. unfold strncpy0. apply strncmp_padded; [by apply Forall_take|done|].
  rewrite length_take. lia.
Qed.

(** ** Enumeration *)

(** The files a walk reports after the current one, and from the start: when
    the last file ends at the last page it is never reported. *)
Definition visible_rest (l : list Z) (e : option Z) : list Z :=
  match e with Some _ => l | None => removelast l end.
Definition visible (l : list Z) (e : option Z) : list Z :=
  match l with [] => [] | p :: l => p :: visible_rest l e end.

Section Walk.
Variable s : tinyfs.
Local Notation first := (first_page s).
Local Notation last := (last_page s).
Hypotheses (Hinit : module_init s = TINYFS_INITIALIZED) (G : geometry first last).

(** The [next] member decides what kind of page an address is. *)
Lemma next_free p : aligned p -> p < last -> erased (mem s) p (last - p) ->
  file_next (mem s) p = FREE_PAGE.
Proof using G.
  intros Ha Hp He. pose proof (aligned_lt _ _ Ha (geo_last _ _ G) Hp) as Hpg.
  unfold FLASHPAGE_SIZE in Hpg.
  eapply (erased_word _ _ 4); [eapply erased_weaken; [exact He|lia|lia]|lia].
Qed.

Lemma first_not_free : first <> FREE_PAGE.
Proof using G. destruct G. unfold FLASHPAGE_SIZE, FLASHPAGE_NUMOF, FREE_PAGE in *. lia. Qed.

Lemma next_inside p :
  size_ok (file_size (mem s) p) -> first <= p -> p + span (mem s) p < last ->
  p + span (mem s) p <> FREE_PAGE /\ p + span (mem s) p <> first /\ p + span (mem s) p <> NULL.
Proof using G.
  intros Hz Hf Hp. pose proof (span_ok _ _ Hz) as (?&?&?). destruct G.
  unfold FLASHPAGE_SIZE, FLASHPAGE_NUMOF, FREE_PAGE, NULL in *. lia.
Qed.

(** The step of a walk: the next file of the list, if it is a visible one. *)
Lemma get_next_spec p l e :
  layout (mem s) first last p (p :: l) e -> aligned p -> first <= p ->
  (l = [] /\ e = None -> p = first) ->
  tinyfs_get_next_file p s = Ok (default NULL (head (visible_rest l e)), s).
Proof using All.
  intros Hl Ha Hf Hlast. inversion Hl as [| ? Hz Hp Hn|? ? ? Hz Hp Hn Hrest]; subst.
  - unfold tinyfs_get_next_file. do 4 read. rewrite Hinit, Hn. cbn [negb Z.eqb TINYFS_INITIALIZED Pos.eqb].
    rewrite Hlast in Hn by done. rewrite Hn, Z.eqb_refl.
    rewrite (proj2 (Z.eqb_neq _ _)) by apply first_not_free. done.
  - pose proof (span_ok _ _ Hz) as (?&?&?).
    assert (aligned (p + span (mem s) p)) as Haq by (by apply aligned_add).
    unfold tinyfs_get_next_file. do 4 read. rewrite Hinit, Hn. cbn [negb Z.eqb TINYFS_INITIALIZED Pos.eqb].
    inversion Hrest as [? Hq He| ? Hzq Hq Hnq|? ? ? Hzq Hq Hnq Hr]; subst.
    + rewrite next_free by done. rewrite Z.eqb_refl. done.
    + rewrite Hnq, Z.eqb_refl. rewrite (proj2 (Z.eqb_neq _ _)) by apply first_not_free. done.
    + rewrite Hnq.
      destruct (next_inside (p + span (mem s) p)) as (Hx1&Hx2&_);
        [done|unfold FLASHPAGE_SIZE in *; lia|done|].
      rewrite (proj2 (Z.eqb_neq _ _)) by done. rewrite (proj2 (Z.eqb_neq _ _)) by done.
      destruct e; [done|]. cbn. inversion Hr; subst; done.
Qed.

Lemma get_first_spec l e :
  layout (mem s) first last first l e ->
  tinyfs_get_first_file s = Ok (default NULL (head (visible l e)), s).
Proof using All.
  intros Hl. unfold tinyfs_get_first_file. do 3 read. rewrite Hinit.
  cbn [negb Z.eqb TINYFS_INITIALIZED Pos.eqb].
  inversion Hl as [? Hp He| ? Hz Hp Hn|? ? ? Hz Hp Hn Hrest]; subst; cbn [visible head default].
  - rewrite next_free; [by rewrite Z.eqb_refl|apply G|done|done].
  - rewrite Hn. rewrite (proj2 (Z.eqb_neq _ _)) by apply first_not_free. done.
  - rewrite Hn. destruct (next_inside first) as (Hx1&_); [done|lia|done|].
    rewrite (proj2 (Z.eqb_neq _ _)) by done. done.
Qed.

(** Walking on from a file that is followed by visible ones. *)
Lemma visible_rest_step p l e q :
  layout (mem s) first last p (p :: l) e -> aligned p ->
  head (visible_rest l e) = Some q ->
  exists l', l = q :: l' /\ layout (mem s) first last q l e /\ aligned q /\
    p < q /\ visible_rest l e = q :: visible_rest l' e /\ ~ (l' = [] /\ e = None).
Proof using G.
  intros Hl Ha Hq. inversion Hl as [| ? Hz Hp Hn|? ? ? Hz Hp Hn Hrest]; subst; [done|].
  pose proof (span_ok _ _ Hz) as (?&?&?).
  assert (aligned (p + span (mem s) p)) as Haq by (by apply aligned_add).
  destruct l as [|q' l']; [by destruct e|].
  assert (q' = p + span (mem s) p) as -> by (by inversion Hrest; subst).
  assert (q = p + span (mem s) p) as ->.
  { destruct e; cbn in Hq; [congruence|]. destruct l'; cbn in Hq; congruence. }
  eexists. split; [done|]. split; [exact Hrest|]. split; [done|].
  split; [unfold FLASHPAGE_SIZE in *; lia|].
  destruct e as [e|]; [split; [done|naive_solver]|].
  destruct l' as [|? l']; [done|]. split; [done|naive_solver].
Qed.

(** ** Search *)

Definition named (name : list Z) (p : Z) : bool :=
  strncmp (Z.to_nat TINYFS_NAME_MAX) (file_name (mem s) p) name =? 0.

Lemma search_loop_spec fuel name p l e :
  layout (mem s) first last p (p :: l) e -> aligned p -> first <= p ->
  (l = [] /\ e = None -> p = first) -> (length l < fuel)%nat ->
  search_loop fuel name p s = Ok (default NULL (find (named name) (visible_rest l e)), s).
Proof using All.
  revert p l. induction fuel as [|fuel IH]; intros p l Hl Ha Hf Hlast Hfuel; [lia|].
  cbn [search_loop]. erewrite cmd_bind_Ok by (by apply get_next_spec).
  destruct (head (visible_rest l e)) as [q|] eqn:Hq.
  - destruct (visible_rest_step _ _ _ _ Hl Ha Hq) as (l' & -> & Hlq & Haq & Hlt & Hv & Hne).
    rewrite Hv. cbn [find]. change (default NULL (Some q)) with q.
    pose proof G as [_ _ ? _ _]. rewrite (proj2 (Z.eqb_neq q NULL)) by (unfold NULL; lia).
    read. fold (named name q). destruct (named name q); [done|].
    apply IH; [done|done|lia|tauto|cbn in Hfuel; lia].
  - destruct (visible_rest l e); [done|discriminate].
Qed.
End Walk.

Lemma file_search_aux s l e name :
  mounted s l e ->
  tinyfs_file_search name s = Ok (default NULL (find (named s name) (visible l e)), s).
Proof.
  intros (Hi & G & Hl). unfold tinyfs_file_search. read. rewrite Hi.
  cbn [negb Z.eqb TINYFS_INITIALIZED Pos.eqb].
  erewrite cmd_bind_Ok by (by apply get_first_spec).
  destruct l as [|p l]; [done|].
  assert (p = first_page s) as -> by (by inversion Hl). cbn [visible head find].
  change (default NULL (Some (first_page s))) with (first_page s).
  rewrite (proj2 (Z.eqb_neq (first_page s) NULL)) by (unfold NULL; destruct G; lia).
  read. fold (named s name (first_page s)). destruct (named s name (first_page s)); [done|].
  apply search_loop_spec; [done|done|done|apply G|lia|tauto|].
  pose proof (layout_fuel _ _ G _ _ _ _ Hl ltac:(lia)). cbn in *. lia.
Qed.

(** Search: on a mounted system the result is the first reported file whose name
    matches, [NULL] if there is none, and nothing is changed. *)
Theorem file_search_spec s l e name :
  mounted s l e ->
  tinyfs_file_search name s = Ok (default NULL (find (named s name) (visible l e)), s).
Proof. apply file_search_aux. Qed.

(** ** Byte writes *)

Lemma land_byte v : is_word 8 v -> Z.land v 255 = v.
Proof. intros. change 255 with (Z.ones 8). rewrite Z.land_ones by lia. by apply wrap_small. Qed.

(** Rounding an address down to its word with the mask the code uses. *)
Lemma word_of_address a :
  is_word 32 a -> Z.land a (u32 (Z.lnot (Z.land a 3))) = a - a mod 4.
Proof.
  unfold is_word. intros Ha. change 3 with (Z.ones 2). rewrite Z.land_ones by lia. change (2 ^ 2) with 4.
  pose proof (Z.mod_pos_bound a 4 ltac:(lia)) as Hk.
  pose proof (Z.div_mod a 4 ltac:(lia)) as Hd.
  set (k := a mod 4) in *. set (h := a / 4) in *.
  assert (u32 (Z.lnot k) = (3 - k) + 2 ^ 2 * Z.ones 30) as ->.
  { unfold Z.lnot, wrap. symmetry. apply (Z.mod_unique _ _ (-1)).
    all: change (Z.ones 30) with (2 ^ 30 - 1); lia. }
  replace a with (k + 2 ^ 2 * h) at 1 by lia.
  rewrite land_halves by (unfold is_word; lia).
  rewrite Z.land_ones by lia. rewrite Z.mod_small by lia.
  assert (Z.land k (3 - k) = 0) as ->; [|lia]. clearbody k.
  by assert (k = 0 \/ k = 1 \/ k = 2 \/ k = 3) as [-> | [-> | [-> | ->]]] by lia.
Qed.

(** Replacing a byte of a word the way [flashpage_write_unaligned] does. *)
Definition splice (w k v : Z) : Z :=
  let mask := u32 (Z.shiftl FLASHPAGE_ERASE_STATE (Z.shiftl k (FLASHPAGE_WRITE_BLOCK_SIZE - 1))) in
  u32 (Z.land w (u32 (Z.lnot mask)) + u32 (Z.shiftl v (Z.shiftl k 3))).

Lemma splice_spec m a k v :
  0 <= k < 4 -> is_word 8 v ->
  splice (rd32 m a) k v = le_val (<[Z.to_nat k := v]> (rd_bytes m a 4)).
Proof.
  intros Hk Hv. unfold rd32. rewrite rd_le_val.
  pose proof (rd_bytes_words m a 4) as Hw. cbn [rd_bytes] in *.
  set (b0 := rd8 m a) in *. set (b1 := rd8 m (a + 1)) in *. set (b2 := rd8 m (a + 1 + 1)) in *.
  set (b3 := rd8 m (a + 1 + 1 + 1)) in *. clearbody b0 b1 b2 b3.
  rewrite !Forall_cons in Hw. destruct Hw as (H0 & H1 & H2 & H3 & _).
  assert (le_val [b0; b1; b2; b3] = b0 + 2 ^ 8 * (b1 + 2 ^ 8 * (b2 + 2 ^ 8 * b3))) as ->
    by (cbn [le_val]; lia).
  unfold splice.
  assert (forall d0 d1 d2 d3 M, M = d0 + 2 ^ 8 * (d1 + 2 ^ 8 * (d2 + 2 ^ 8 * d3)) ->
    is_word 8 d0 -> is_word 8 d1 -> is_word 8 d2 -> is_word 8 d3 ->
    Z.land (b0 + 2 ^ 8 * (b1 + 2 ^ 8 * (b2 + 2 ^ 8 * b3))) M =
    Z.land b0 d0 + 2 ^ 8 * (Z.land b1 d1 + 2 ^ 8 * (Z.land b2 d2 + 2 ^ 8 * Z.land b3 d3))) as HL.
  { intros d0 d1 d2 d3 M -> ????. rewrite land_halves by (done || lia). rewrite land_halves by (done || lia).
    rewrite land_halves by (done || lia). done. }
  assert (k = 0 \/ k = 1 \/ k = 2 \/ k = 3) as [-> | [-> | [-> | ->]]] by lia;
    [rewrite (HL 0 255 255 255) | rewrite (HL 255 0 255 255)
    |rewrite (HL 255 255 0 255) | rewrite (HL 255 255 255 0)];
    try done; try (unfold is_word; lia);
    rewrite ?Z.land_0_r, !land_byte by done;
    rewrite (Z.shiftl_mul_pow2 v) by (vm_compute; discriminate);
    (match goal with |- context [2 ^ Z.shiftl ?k 3] =>
       let c := eval vm_compute in (2 ^ Z.shiftl k 3) in change (2 ^ Z.shiftl k 3) with c end);
    (match goal with |- context [u32 (v * ?c)] =>
       rewrite (wrap_small 32 (v * c)) by (unfold is_word in *; lia) end);
    unfold is_word in *; rewrite wrap_small by (unfold is_word; lia);
    (match goal with |- _ = le_val ?l =>
       let r := eval vm_compute in l in change l with r end); cbn [le_val]; lia.
Qed.

Abbreviation FLASH_END := (FLASHPAGE_SIZE * FLASHPAGE_NUMOF).

(** [clears m a l]: programming [l] at [a] only clears bits. *)
Definition clears (m : memory) (a : Z) (l : list Z) : Prop :=
  forall i v, l !! i = Some v -> Z.land (rd8 m (a + Z.of_nat i)) v = v.

Lemma clears_erased m a l :
  Forall (is_word 8) l -> erased m a (Z.of_nat (length l)) -> clears m a l.
Proof.
  intros Hl He i v Hi. pose proof (lookup_lt_Some _ _ _ Hi). rewrite He by lia.
  apply land_erase_state. by eapply Forall_lookup_1.
Qed.

Lemma wr_bytes_insert m a n k v :
  (k < n)%nat -> wr_bytes m a (<[k := v]> (rd_bytes m a n)) ≡ₘ wr8 m (a + Z.of_nat k) v.
Proof.
  intros Hk b. destruct (decide (a <= b < a + Z.of_nat n)) as [Hb|Hb].
  - assert (b = a + Z.of_nat (Z.to_nat (b - a))) as -> by lia.
    set (j := Z.to_nat (b - a)). assert (j < n)%nat by lia. clearbody j.
    destruct (decide (j = k)) as [-> | Hne].
    + erewrite rd8_wr_bytes_in; [|apply list_lookup_insert_eq; by rewrite length_rd_bytes].
      by rewrite rd8_wr8_eq.
    + erewrite rd8_wr_bytes_in;
        [|rewrite list_lookup_insert_ne by done; by apply lookup_rd_bytes].
      rewrite rd8_wr8_ne by lia. apply wrap_small, (wrap_range 8). lia.
  - rewrite rd8_wr_bytes_out by (rewrite length_insert, length_rd_bytes; lia).
    by rewrite rd8_wr8_ne by lia.
Qed.

Section Bytes.
Context `{HN : Nvmc}.

(** Programming one byte through its word. *)
Lemma write_byte s a v :
  0 <= a < FLASH_END -> is_word 8 v -> Z.land (rd8 (mem s) a) v = v ->
  exists m',
    on_dev (flashpage_write (a - a mod 4)
              (Auto (le_bytes 4 (splice (rd32 (mem s) (a - a mod 4)) (a mod 4) v))) 4) s =
    Ok (tt, set_dev s (mkNvmc NVMC_CONFIG_WEN_Ren m')) /\ m' ≡ₘ wr8 (mem s) a v.
Proof using.
  intros Ha Hv Hc. pose proof (Z.mod_pos_bound a 4 ltac:(lia)) as Hk.
  pose proof (Z.div_mod a 4 ltac:(lia)) as Hd.
  set (w := a - a mod 4). set (k := Z.to_nat (a mod 4)).
  set (l := <[k := v]> (rd_bytes (mem s) w 4)).
  assert (length l = 4%nat) as Hlen by (unfold l; by rewrite length_insert, length_rd_bytes).
  assert (Forall (is_word 8) l) as Hw by (apply Forall_insert; [apply rd_bytes_words|done]).
  assert (le_bytes 4 (splice (rd32 (mem s) w) (a mod 4) v) = l) as ->.
  { rewrite splice_spec by done. fold k. fold l. rewrite <- Hlen at 1. by apply le_bytes_val. }
  exists (wr_bytes (mem s) w l). split.
  - apply on_dev_Ok. erewrite flashpage_write_buf; [|by left| |done|done].
    + fold (mem s). rewrite program_bytes_write; [done|done|].
      intros i x Hi. unfold l in Hi. destruct (decide (i = k)) as [-> | Hne].
      * rewrite list_lookup_insert_eq in Hi by (rewrite length_rd_bytes; lia).
        injection Hi as <-. replace (w + Z.of_nat k) with a by lia. done.
      * rewrite list_lookup_insert_ne in Hi by done.
        assert (i < 4)%nat by (apply lookup_lt_Some in Hi; by rewrite length_rd_bytes in Hi).
        rewrite lookup_rd_bytes in Hi by done. injection Hi as <-. apply Z.land_diag.
    + unfold write_ok. cbn [source_addr].
      assert (w = 4 * (a / 4)) as Hw4 by lia. unfold FLASHPAGE_SIZE, FLASHPAGE_NUMOF in *.
      split_and!; try done; try lia. rewrite Hw4, Z.mul_comm. by apply Z.mod_mul.
  - unfold l. rewrite wr_bytes_insert by lia. by replace (w + Z.of_nat k) with a by lia.
Qed.

Lemma write_unaligned_loop_spec n t data i s l :
  0 <= t -> 0 <= i -> t + i + Z.of_nat n <= FLASH_END ->
  length l = n -> Forall (is_word 8) l -> clears (mem s) (t + i) l ->
  (forall k v m', l !! k = Some v ->
     (forall b, b < t + i \/ t + i + Z.of_nat n <= b -> rd8 m' b = rd8 (mem s) b) ->
     source_byte m' data (i + Z.of_nat k) = v) ->
  exists d, write_unaligned_loop n t data i s = Ok (tt, set_dev s d) /\
    cells d ≡ₘ wr_bytes (mem s) (t + i) l.
Proof using.
  revert i s l. induction n as [|n IH]; intros i s l Ht Hi Hend Hlen Hw Hc Hsrc.
  { destruct l; [|done]. exists (dev s). split; [by destruct s|done]. }
  destruct l as [|v l]; [done|]. injection Hlen as Hlen.
  apply Forall_cons_1 in Hw as [Hv Hw].
  cbn [write_unaligned_loop]. read.
  assert (source_byte (mem s) data i = v) as ->.
  { specialize (Hsrc 0%nat v (mem s) eq_refl ltac:(done)). by rewrite Z.add_0_r in Hsrc. }
  rewrite (wrap_small 32 (t + i)) by (unfold is_word, FLASHPAGE_SIZE, FLASHPAGE_NUMOF in *; lia).
  change (FLASHPAGE_WRITE_BLOCK_ALIGNMENT - 1) with 3. read.
  rewrite word_of_address by (unfold is_word, FLASHPAGE_SIZE, FLASHPAGE_NUMOF in *; lia).
  change 3 with (Z.ones 2) at 1 2. rewrite (Z.land_ones (t + i)) by lia. change (2 ^ 2) with 4.
  fold (splice (rd32 (mem s) (t + i - (t + i) mod 4)) ((t + i) mod 4) v).
  pose proof (Hc 0%nat v eq_refl) as Hc0. rewrite Z.add_0_r in Hc0.
  destruct (write_byte s (t + i) v) as (m' & Hwr & Hm'); [lia|done|done|].
  erewrite cmd_bind_Ok by exact Hwr.
  destruct (IH (i + 1) (set_dev s (mkNvmc NVMC_CONFIG_WEN_Ren m')) l) as (d & Hd & Hcells);
    [done|lia|lia|done|done| | |].
  - intros j x Hj. unfold mem. cbn [dev set_dev cells]. rewrite Hm'.
    rewrite rd8_wr8_ne by lia.
    replace (t + (i + 1) + Z.of_nat j) with (t + i + Z.of_nat (S j)) by lia. by apply Hc.
  - intros j x m2 Hj Hm2. rewrite <- (Hsrc (S j) x m2 Hj); [f_equal; lia|].
    intros b Hb. rewrite Hm2 by lia. unfold mem. cbn [dev set_dev cells].
    rewrite Hm'. apply rd8_wr8_ne. lia.
  - exists d. split; [exact Hd|]. rewrite Hcells. unfold mem at 1. cbn [dev set_dev cells].
    rewrite Hm'. cbn [wr_bytes]. by rewrite Z.add_assoc.
Qed.
End Bytes.

(** ** Writing to a file *)

Lemma rd_bytes_wr_mid m a N off l :
  Forall (is_word 8) l -> (off + length l <= N)%nat ->
  rd_bytes (wr_bytes m (a + Z.of_nat off) l) a N =
  take off (rd_bytes m a N) ++ l ++ drop (off + length l) (rd_bytes m a N).
Proof.
  intros Hw Hn.
  replace N with (off + (length l + (N - off - length l)))%nat by lia.
  set (r := (N - off - length l)%nat).
  rewrite !rd_bytes_app, !app_assoc.
  rewrite (take_app_le _ _ off) by (rewrite length_app, !length_rd_bytes; lia).
  rewrite (take_app_le _ _ off) by (rewrite !length_rd_bytes; lia).
  rewrite take_ge by (rewrite !length_rd_bytes; lia).
  rewrite drop_app_ge by (rewrite length_app, !length_rd_bytes; lia).
  rewrite length_app, !length_rd_bytes, Nat.sub_diag, drop_0.
  f_equal; [f_equal|].
  - apply rd_bytes_ext. intros b Hb. apply rd8_wr_bytes_out. lia.
  - by apply rd_bytes_wr_bytes.
  - apply rd_bytes_ext. intros b Hb. apply rd8_wr_bytes_out. lia.
Qed.

Definition write_body (off : Z) (bytes : list Z) (f : afile) : afile :=
  mkAfile (a_name f) (a_size f) (a_status f) (a_exec f)
    (take (Z.to_nat off) (a_body f) ++ bytes
       ++ drop (Z.to_nat off + length bytes) (a_body f)).

Section LayoutFrames.
Variables (first last : Z).

(** A layout depends on the sizes and links of its files and on the erased rest. *)
Lemma layout_members m m' p l e :
  layout m first last p l e ->
  (forall q, q ∈ l -> file_size m' q = file_size m q /\ file_next m' q = file_next m q) ->
  (forall r, e = Some r -> same_on m m' r last) ->
  layout m' first last p l e.
Proof using.
  induction 1 as [p Hp He|p Hz Hp Hn|p l e Hz Hp Hn Hl IH]; intros Hh Hr.
  - apply lay_free; [done|]. eapply erased_ext; [|done].
    eapply same_on_weaken; [by apply Hr|lia|lia].
  - destruct (Hh p ltac:(set_solver)) as [Hs Hx].
    apply lay_full; unfold span; by rewrite ?Hs, ?Hx.
  - destruct (Hh p ltac:(set_solver)) as [Hs Hx].
    assert (span m' p = span m p) as Hsp by (unfold span; by rewrite Hs).
    apply lay_file; rewrite ?Hsp, ?Hs, ?Hx; [done|done|done|].
    apply IH; [|done]. intros q Hq. apply Hh. set_solver.
Qed.

Lemma layout_headers m m' p l e :
  layout m first last p l e ->
  (forall q, q ∈ l -> same_on m m' q (q + sizeof_file)) ->
  (forall r, e = Some r -> same_on m m' r last) ->
  layout m' first last p l e.
Proof using.
  intros Hl Hh. apply layout_members; [done|]. intros q Hq.
  split; [by apply file_size_ext, Hh|by apply file_next_ext, Hh].
Qed.

Hypothesis (G : geometry first last).

(** Different files occupy different pages. *)
Lemma layout_disjoint m p l e x y :
  layout m first last p l e -> aligned p -> x ∈ l -> y ∈ l -> x <> y ->
  x + span m x <= y \/ y + span m y <= x.
Proof using All.
  induction 1 as [p Hp He|p Hz Hp Hn|p l e Hz Hp Hn Hl IH]; intros Ha Hx Hy Hne.
  - by apply elem_of_nil in Hx.
  - apply list_elem_of_singleton in Hx, Hy. congruence.
  - pose proof (span_ok m p Hz) as (?&?&?).
    assert (aligned (p + span m p)) as Haq by (by apply aligned_add).
    apply elem_of_cons in Hx as [-> | Hx], Hy as [-> | Hy]; [done| | |by apply IH].
    + left. by apply (layout_elem _ _ G _ _ _ _ _ Hl) in Hy as (?&_).
    + right. by apply (layout_elem _ _ G _ _ _ _ _ Hl) in Hx as (?&_).
Qed.

(** Changing only the body of one file. *)
Lemma layout_body m m' l e p :
  layout m first last first l e -> p ∈ l ->
  (forall b, b < p + sizeof_file \/ p + span m p <= b -> rd8 m' b = rd8 m b) ->
  layout m' first last first l e /\
  forall q, q ∈ l -> q <> p -> abs_file m' q = abs_file m q.
Proof using All.
  intros Hl Hp Hs. pose proof (geo_first _ _ G) as Ha. split.
  - eapply layout_headers; [exact Hl| |].
    + intros q Hq b Hb. apply Hs. destruct (decide (q = p)) as [-> | Hne]; [lia|].
      destruct (layout_elem _ _ G _ _ _ _ _ Hl Ha Hq) as (_ & _ & Hzq & _).
      pose proof (span_ok _ _ Hzq) as (?&?&?). unfold FLASHPAGE_SIZE, sizeof_file in *.
      destruct (layout_disjoint _ _ _ _ _ _ Hl Ha Hq Hp Hne); lia.
    + intros r -> b Hb. apply Hs. right.
      pose proof (layout_below _ _ G _ _ _ _ _ Hl Ha Hp). lia.
  - intros q Hq Hne. destruct (layout_elem _ _ G _ _ _ _ _ Hl Ha Hq) as (_ & _ & Hzq & _).
    apply abs_file_ext; [done|]. intros b Hb. apply Hs. unfold sizeof_file.
    destruct (layout_disjoint _ _ _ _ _ _ Hl Ha Hq Hp Hne); lia.
Qed.
End LayoutFrames.

Section FileWrite.
Context `{HN : Nvmc}.

(** A write whose source holds [bytes], whatever is programmed meanwhile. *)
Lemma file_write_spec s l e p off data bytes :
  mounted s l e -> p ∈ l -> bytes <> [] -> Forall (is_word 8) bytes -> 0 <= off ->
  off + Z.of_nat (length bytes) <= file_size (mem s) p ->
  sizeof_file + off + Z.of_nat (length bytes) <= span (mem s) p ->
  clears (mem s) (p + sizeof_file + off) bytes ->
  (forall k v m', bytes !! k = Some v ->
     (forall b, b < p + sizeof_file \/ p + span (mem s) p <= b -> rd8 m' b = rd8 (mem s) b) ->
     source_byte m' data (Z.of_nat k) = v) ->
  exists s', tinyfs_file_write p off data (Z.of_nat (length bytes)) s = Ok (0, s') /\
    mounted s' l e /\
    abs_file (mem s') p = write_body off bytes (abs_file (mem s) p) /\
    forall q, q ∈ l -> q <> p -> abs_file (mem s') q = abs_file (mem s) q.
Proof using.
  intros (Hi & G & Hl) Hp Hne Hw Hoff Hsize Hspan Hc Hsrc.
  destruct (layout_elem _ _ G _ _ _ _ _ Hl (geo_first _ _ G) Hp) as (Hfp & Hap & Hz & Hend).
  pose proof (span_ok _ _ Hz) as (Hs1 & Hs2 & _).
  assert (0 < Z.of_nat (length bytes)) as Hn by (destruct bytes; [done|cbn; lia]).
  destruct (write_unaligned_loop_spec (length bytes) (p + sizeof_file + off) data 0 s bytes)
    as (d & Hd & Hcells); rewrite ?Z.add_0_r; try done.
  { destruct G. unfold sizeof_file. lia. }
  { destruct G. unfold FLASHPAGE_SIZE in *. lia. }
  { intros k v m' Hk Hm'. rewrite Z.add_0_l. apply Hsrc; [done|]. intros b Hb. apply Hm'. lia. }
  rewrite Z.add_0_r in Hcells.
  exists (set_dev s d).
  set (m' := cells d) in *. assert (mem (set_dev s d) = m') as Hm' by done.
  destruct (layout_body _ _ G (mem s) m' l e p Hl Hp) as [Hl' Hothers].
  { intros b Hb. rewrite Hcells. apply rd8_wr_bytes_out. unfold sizeof_file in *. lia. }
  split_and!.
  - unfold tinyfs_file_write. rewrite (proj2 (Z.eqb_neq _ _)) by lia. read.
    assert (is_word 32 (file_size (mem s) p)) as Hw32 by (apply rd32_range). unfold is_word in Hw32.
    rewrite (proj2 (Z.ltb_ge _ _)) by lia.
    rewrite (wrap_small 32) by (unfold is_word; lia). rewrite (proj2 (Z.ltb_ge _ _)) by lia.
    rewrite (wrap_small 32) by
      (destruct G; unfold is_word, sizeof_file, FLASHPAGE_SIZE, FLASHPAGE_NUMOF in *; lia).
    unfold flashpage_write_unaligned. rewrite Nat2Z.id. erewrite cmd_bind_Ok by exact Hd. done.
  - done.
  - rewrite Hm'.
    assert (same_on (mem s) m' p (p + sizeof_file)) as Hh.
    { intros b Hb. rewrite Hcells. apply rd8_wr_bytes_out. lia. }
    unfold abs_file, write_body. cbn [a_name a_size a_status a_exec a_body].
    rewrite (span_ext _ _ _ Hh), (file_name_ext _ _ _ Hh), (file_size_ext _ _ _ Hh),
      (file_status_ext _ _ _ Hh), (file_exec_ext _ _ _ Hh).
    f_equal. rewrite Hcells. rewrite <- (Z2Nat.id off Hoff) at 1.
    rewrite rd_bytes_wr_mid by (done || lia). done.
  - done.
Qed.

(** C21: Writing refines the update of one body: a write that stays within the size
    of the file and within its pages, to bytes it only clears bits of, returns 0,
    stores exactly the buffer at the offset, and changes no header, no other
    file and no free page. *)
Theorem file_write_refines s l e p off addr bytes :
  mounted s l e -> p ∈ l -> bytes <> [] -> Forall (is_word 8) bytes -> 0 <= off ->
  off + Z.of_nat (length bytes) <= file_size (mem s) p ->
  sizeof_file + off + Z.of_nat (length bytes) <= span (mem s) p ->
  clears (mem s) (p + sizeof_file + off) bytes ->
  exists s', tinyfs_file_write p off (Ram addr bytes) (Z.of_nat (length bytes)) s = Ok (0, s') /\
    mounted s' l e /\
    abs_file (mem s') p = write_body off bytes (abs_file (mem s) p) /\
    forall q, q ∈ l -> q <> p -> abs_file (mem s') q = abs_file (mem s) q.
Proof using.
  intros Hm Hp Hne Hw Hoff Hsize Hspan Hc. apply file_write_spec; try done.
  intros k v m' Hk _. cbn [source_byte]. by rewrite Nat2Z.id, Hk.
Qed.

(** A write is refused, without effect, exactly when it is not empty and ends
    after the size of the file. *)
Theorem file_write_bounds s p off src n :
  0 <= off < 2 ^ 31 -> 0 <= n < 2 ^ 31 ->
  (n = 0 -> tinyfs_file_write p off src n s = Ok (0, s)) /\
  (0 < n -> file_size (mem s) p < off + n -> tinyfs_file_write p off src n s = Ok (-1, s)) /\
  (0 < n -> off + n <= file_size (mem s) p ->
   tinyfs_file_write p off src n s =
   (flashpage_write_unaligned (u32 (p + sizeof_file + off)) src n ;; mret 0) s).
Proof using.
  intros Ho Hn. unfold tinyfs_file_write. split_and!.
  - by intros ->.
  - intros Hn0 Hlt. rewrite (proj2 (Z.eqb_neq _ _)) by lia. read.
    destruct (Z.ltb_spec (file_size (mem s) p) off); [done|].
    rewrite (wrap_small 32) by (unfold is_word; lia). by rewrite (proj2 (Z.ltb_lt _ _)) by lia.
  - intros Hn0 Hle. rewrite (proj2 (Z.eqb_neq _ _)) by lia. read.
    rewrite (proj2 (Z.ltb_ge _ _)) by lia. rewrite (wrap_small 32) by (unfold is_word; lia).
    by rewrite (proj2 (Z.ltb_ge _ _)) by lia.
Qed.
End FileWrite.

(** ** Creating and finding again *)

Section CreateSearch.
Context `{HN : Nvmc}.

Lemma find_app_last (f : Z -> bool) l q :
  (forall x, x ∈ l -> f x = false) -> f q = true -> find f (l ++ [q]) = Some q.
Proof using.
  intros Hl Hq. induction l as [|x l IH]; cbn; [by rewrite Hq|].
  rewrite Hl by (apply elem_of_cons; by left). apply IH. intros y Hy. apply Hl.
  apply elem_of_cons. by right.
Qed.

(** Round trip: a file created under a new name of at most 31 characters is what
    a search for that name returns, as long as it does not fill the last page. *)
Theorem create_then_search s l q name size exec status :
  mounted s l (Some q) -> size_ok size -> (exec = 0 \/ exec = 1) -> is_word 32 status ->
  c_string name -> (length name <= 31)%nat ->
  (forall p, p ∈ l -> named s name p = false) ->
  q + ROUND size FLASHPAGE_SIZE < last_page s ->
  exists s', tinyfs_create_file name size exec status s = Ok (q, s') /\
    tinyfs_file_search name s' = Ok (q, s').
Proof using.
  intros Hm Hz Hx Hst Hn Hlen Hfresh Hfit.
  destruct (create_file_spec s l q name size exec status) as (s' & Hc & Hm' & Habs);
    [done..|by apply c_string_words|lia|].
  exists s'. split; [exact Hc|]. unfold rest_after in Hm'. rewrite decide_False in Hm' by lia.
  erewrite file_search_aux by exact Hm'. do 2 f_equal.
  replace (visible (l ++ [q]) _) with (l ++ [q]) by (by destruct l).
  rewrite map_app in Habs. apply app_inj_2 in Habs as [Hl Hq]; [|done].
  rewrite find_app_last; [done| |].
  - intros p Hp. rewrite <- (Hfresh p Hp). unfold named.
    assert (file_name (mem s') p = file_name (mem s) p) as ->; [|done].
    apply list_elem_of_lookup in Hp as [i Hi].
    assert (map (abs_file (mem s')) l !! i = map (abs_file (mem s)) l !! i) as He by (by rewrite Hl).
    rewrite !list_lookup_fmap, Hi in He.
    apply (inj Some), (f_equal a_name) in He. exact He.
  - injection Hq as Hname _ _ _ _. unfold named. rewrite Hname. apply Z.eqb_eq.
    apply stored_name_matches; [done|done|]. by rewrite take_ge.
Qed.
End CreateSearch.
