(* ===== verification/XipFsAdmin.v ===== *)
(** * Status changes, formatting and mounting

    The status life cycle of a file, the erasure of page ranges, formatting,
    mounting and the clean-up of interrupted loads. *)

From stdpp Require Import base gmap list.
From Stdlib Require Import ZArith Lia.
From S2P Require Import Prelude Flash XipFs XipFsSpec XipFsOps.

Local Open Scope Z_scope.

(** ** Status *)

(** Result and status after a request, for the four statuses of the header. *)
Definition status_step (old new : Z) : Z * Z :=
  if old =? TINYFS_STATUS_FREE then (0, new)
  else if old =? TINYFS_STATUS_CREATED then
    if new =? TINYFS_STATUS_FREE then (-1, old)
    else if new =? TINYFS_STATUS_LOADING then (0, TINYFS_STATUS_LOADING)
    else (-1, new)
  else if old =? TINYFS_STATUS_LOADING then
    if (new =? TINYFS_STATUS_FREE) || (new =? TINYFS_STATUS_CREATED) then (-1, old)
    else (0, new)
  else (-1, old).

Definition statuses : list Z :=
  [TINYFS_STATUS_LOADED; TINYFS_STATUS_LOADING; TINYFS_STATUS_CREATED; TINYFS_STATUS_FREE].

Definition clearsb (old new : list Z) : bool :=
  forallb (fun '(a, b) => Z.land a b =? b) (zip old new).

Lemma clearsb_clears m a old new :
  clearsb old new = true -> length old = length new -> rd_bytes m a (length old) = old ->
  clears m a new.
Proof.
  intros Hc Hl Ho i v Hi. pose proof (lookup_lt_Some _ _ _ Hi) as Hlt.
  assert (old !! i = Some (rd8 m (a + Z.of_nat i))) as Hoi
    by (rewrite <- Ho; apply lookup_rd_bytes; lia).
  unfold clearsb in Hc. rewrite forallb_forall in Hc.
  apply Z.eqb_eq, (Hc (rd8 m (a + Z.of_nat i), v)). apply list_elem_of_In, list_elem_of_lookup.
  exists i. rewrite lookup_zip_with, Hoi, Hi. done.
Qed.

Section Status.
Context `{HN : Nvmc}.

Definition flash_header (p : Z) : Prop :=
  0 <= p /\ aligned p /\ p + FLASHPAGE_SIZE <= FLASH_END.

Lemma write_status_ok s p new :
  flash_header p -> is_word 32 new ->
  clearsb (le_bytes 4 (file_status (mem s) p)) (le_bytes 4 new) = true ->
  write_status p new s =
  Ok (tt, set_dev s (mkNvmc NVMC_CONFIG_WEN_Ren (wr_bytes (mem s) (p + 40) (le_bytes 4 new)))).
Proof using.
  intros (H0 & Ha & Hend) Hw Hc. apply on_dev_Ok.
  erewrite flashpage_write_buf; [|by left| |by rewrite length_le_bytes|apply le_bytes_words].
  - fold (mem s). rewrite program_bytes_write; [done|apply le_bytes_words|].
    eapply clearsb_clears; [exact Hc|by rewrite !length_le_bytes|].
    rewrite length_le_bytes. symmetry. apply le_bytes_rd.
  - apply aligned_word in Ha. unfold write_ok. cbn [source_addr]. unfold FLASHPAGE_SIZE in *.
    split_and!; try done; try lia. rewrite Z.add_mod, Ha by lia. done.
Qed.

Lemma status_after m p new :
  is_word 32 new ->
  file_status (wr_bytes m (p + 40) (le_bytes 4 new)) p = new.
Proof using.
  intros Hw. unfold file_status. rewrite <- (app_nil_r (le_bytes 4 new)).
  apply (rd32_wr_slice m (p + 40) (p + 40) [] new []); [done|cbn; lia].
Qed.

Lemma file_status_spec s p new :
  flash_header p -> file_status (mem s) p ∈ statuses -> new ∈ statuses ->
  exists s', tinyfs_file_status p new s = Ok (fst (status_step (file_status (mem s) p) new), s') /\
    file_status (mem s') p = snd (status_step (file_status (mem s) p) new) /\
    Z.land (file_status (mem s) p) (file_status (mem s') p) = file_status (mem s') p /\
    forall b, b < p + 40 \/ p + 44 <= b -> rd8 (mem s') b = rd8 (mem s) b.
Proof using.
  intros Hp Hold Hnew.
  assert (is_word 32 new) as Hw.
  { repeat (apply elem_of_cons in Hnew as [-> | Hnew]; [done|]). by apply elem_of_nil in Hnew. }
  (* the state after one write of the requested status *)
  set (s1 := set_dev s (mkNvmc NVMC_CONFIG_WEN_Ren (wr_bytes (mem s) (p + 40) (le_bytes 4 new)))).
  assert (file_status (mem s1) p = new) as H1 by (by apply status_after).
  assert (forall b, b < p + 40 \/ p + 44 <= b -> rd8 (mem s1) b = rd8 (mem s) b) as F1.
  { intros b Hb. apply rd8_wr_bytes_out. rewrite length_le_bytes. lia. }
  set (s2 := set_dev s1 (mkNvmc NVMC_CONFIG_WEN_Ren (wr_bytes (mem s1) (p + 40) (le_bytes 4 new)))).
  assert (file_status (mem s2) p = new) as H2 by (by apply status_after).
  assert (forall b, b < p + 40 \/ p + 44 <= b -> rd8 (mem s2) b = rd8 (mem s) b) as F2.
  { intros b Hb. rewrite <- F1 by done. apply rd8_wr_bytes_out. rewrite length_le_bytes. lia. }
  assert (write_status p new s1 = Ok (tt, s2) \/
          clearsb (le_bytes 4 new) (le_bytes 4 new) = false) as W2.
  { destruct (clearsb (le_bytes 4 new) (le_bytes 4 new)) eqn:E; [left|by right].
    apply write_status_ok; [done|done|]. by rewrite H1. }
  assert (write_status p new s = Ok (tt, s1) \/
          clearsb (le_bytes 4 (file_status (mem s) p)) (le_bytes 4 new) = false) as W1.
  { destruct (clearsb (le_bytes 4 (file_status (mem s) p)) (le_bytes 4 new)) eqn:E; [left|by right].
    by apply write_status_ok. }
  clearbody s2 s1.
  repeat (apply elem_of_cons in Hold as [Ho | Hold]; [rewrite Ho in *|]);
    [..|by apply elem_of_nil in Hold];
    repeat (apply elem_of_cons in Hnew as [-> | Hnew]);
    try (by apply elem_of_nil in Hnew);
    (destruct W1 as [W1|W1]; [|try discriminate W1]);
    (destruct W2 as [W2|W2]; [|try discriminate W2]);
    unfold tinyfs_file_status, mbind, cmd_bind, mret, cmd_ret, gets;
    repeat progress (rewrite ?Ho, ?W1, ?W2, ?H1; cbn -[write_status file_status mem]);
    eexists; (split; [reflexivity|]); rewrite ?H1, ?H2, ?Ho; done.
Qed.

(** The life cycle of a file: for every status and every request the result and
    the status afterwards are those of the table [status_step], and no byte
    outside the status word changes.  A file only moves along
    FREE, CREATED, LOADING, LOADED (each clears bits of the previous one); the
    move from CREATED to LOADED happens but is reported as a failure. *)
Theorem file_status_table s p new :
  flash_header p -> file_status (mem s) p ∈ statuses -> new ∈ statuses ->
  exists s', tinyfs_file_status p new s = Ok (fst (status_step (file_status (mem s) p) new), s') /\
    file_status (mem s') p = snd (status_step (file_status (mem s) p) new) /\
    Z.land (file_status (mem s) p) (file_status (mem s') p) = file_status (mem s') p /\
    forall b, b < p + 40 \/ p + 44 <= b -> rd8 (mem s') b = rd8 (mem s) b.
Proof using. apply file_status_spec. Qed.
End Status.

(** ** Erasing pages *)

Lemma free_word_bytes m a :
  rd32 m a = FREE_PAGE -> forall b, a <= b < a + 4 -> rd8 m b = FLASHPAGE_ERASE_STATE.
Proof.
  unfold rd32, FREE_PAGE, FLASHPAGE_ERASE_STATE. cbn [rd_le]. intros H b Hb.
  pose proof (rd8_range m a). pose proof (rd8_range m (a + 1)).
  pose proof (rd8_range m (a + 1 + 1)). pose proof (rd8_range m (a + 1 + 1 + 1)).
  assert (b = a \/ b = a + 1 \/ b = a + 1 + 1 \/ b = a + 1 + 1 + 1) as [-> | [-> | [-> | ->]]] by lia;
    lia.
Qed.

(** A page that needs no erasing is erased. *)
Lemma flash_needed_spec page s :
  0 <= page < FLASHPAGE_NUMOF ->
  exists b, _tinyfs_flash_needed page s = Ok (b, s) /\
    (b = false -> erased (mem s) (page * FLASHPAGE_SIZE) FLASHPAGE_SIZE).
Proof.
  intros Hp. eexists. split; [reflexivity|]. rewrite flashpage_addr_small by done.
  intros Hf b Hb. set (a := page * FLASHPAGE_SIZE) in *.
  assert (rd32 (mem s) (a + 4 * ((b - a) / 4)) = FREE_PAGE) as Hw.
  { destruct (Z.eqb_spec (rd32 (mem s) (a + 4 * ((b - a) / 4))) FREE_PAGE) as [|Hne]; [done|].
    exfalso. apply not_true_iff_false in Hf. apply Hf, existsb_exists.
    exists ((b - a) / 4). split.
    - apply list_elem_of_In, elem_of_seqZ. change (FLASHPAGE_SIZE / 4) with 1024.
      unfold FLASHPAGE_SIZE in *. split; [apply Z.div_pos; lia|apply Z.div_lt_upper_bound; lia].
    - by rewrite (proj2 (Z.eqb_neq _ _)). }
  apply (free_word_bytes _ _ Hw). pose proof (Z.div_mod (b - a) 4 ltac:(lia)).
  pose proof (Z.mod_pos_bound (b - a) 4 ltac:(lia)). lia.
Qed.

Section Erase.
Context `{HN : Nvmc}.

Lemma flash_pages_loop_spec n page i s :
  0 <= page -> 0 <= i -> page + i + Z.of_nat n <= FLASHPAGE_NUMOF ->
  exists d, flash_pages_loop n page i s = Ok (tt, set_dev s d) /\
    erased (cells d) ((page + i) * FLASHPAGE_SIZE) (Z.of_nat n * FLASHPAGE_SIZE) /\
    forall b, b < (page + i) * FLASHPAGE_SIZE \/
              (page + i + Z.of_nat n) * FLASHPAGE_SIZE <= b -> rd8 (cells d) b = rd8 (mem s) b.
Proof using.
  revert i s. induction n as [|n IH]; intros i s Hp Hi Hn.
  { exists (dev s). split_and!; [by destruct s|intros b Hb; lia|done]. }
  cbn [flash_pages_loop].
  rewrite (wrap_small 32) by (unfold is_word, FLASHPAGE_NUMOF in *; lia).
  destruct (flash_needed_spec (page + i) s ltac:(lia)) as (b & Hb & Hf).
  erewrite cmd_bind_Ok by exact Hb.
  assert (exists d, (if b then on_dev (flashpage_erase (page + i)) else mret tt) s
            = Ok (tt, set_dev s d) /\
    forall c, rd8 (cells d) c = if decide ((page + i) * FLASHPAGE_SIZE <= c
       < (page + i) * FLASHPAGE_SIZE + FLASHPAGE_SIZE) then FLASHPAGE_ERASE_STATE else rd8 (mem s) c)
    as (d & Hd & Hc).
  { destruct b.
    - eexists. split; [apply on_dev_Ok, flashpage_erase_page; lia|].
      intros c. cbn [cells]. apply rd8_erase_page.
    - exists (dev s). split; [by destruct s|]. intros c. case_decide; [by apply Hf|done]. }
  erewrite cmd_bind_Ok by exact Hd.
  destruct (IH (i + 1) (set_dev s d)) as (d' & Hd' & He & Ho); [done|lia|lia|].
  exists d'. unfold FLASHPAGE_SIZE in *. split_and!.
  - exact Hd'.
  - intros c Hcr. destruct (decide (c < (page + (i + 1)) * 4096)) as [Hlt|Hge].
    + rewrite Ho by lia. unfold mem. cbn [dev set_dev]. rewrite Hc. rewrite decide_True; [done|lia].
    + apply He. lia.
  - intros c Hcr. rewrite Ho by lia. unfold mem. cbn [dev set_dev]. rewrite Hc.
    rewrite decide_False; [done|lia].
Qed.

(** Erasing a range of pages: all its bytes read as erased, no other changes. *)
Lemma flash_pages_spec page n s :
  0 <= page -> 0 <= n -> page + n <= FLASHPAGE_NUMOF ->
  exists d, _tinyfs_flash_pages page n s = Ok (tt, set_dev s d) /\
    erased (cells d) (page * FLASHPAGE_SIZE) (n * FLASHPAGE_SIZE) /\
    forall b, b < page * FLASHPAGE_SIZE \/ (page + n) * FLASHPAGE_SIZE <= b ->
      rd8 (cells d) b = rd8 (mem s) b.
Proof using.
  intros. destruct (flash_pages_loop_spec (Z.to_nat n) page 0 s) as (d & Hd & He & Ho); [lia..|].
  rewrite Z2Nat.id, Z.add_0_r in * by lia. eauto.
Qed.

(** Formatting empties the file system: every page between the bounds is erased,
    no other byte changes, and what remains is a mounted system without files. *)
Theorem format_empties s :
  module_init s = TINYFS_INITIALIZED -> geometry (first_page s) (last_page s) ->
  exists s', tinyfs_format s = Ok (tt, s') /\ mounted s' [] (Some (first_page s)) /\
    forall b, b < first_page s \/ last_page s <= b -> rd8 (mem s') b = rd8 (mem s) b.
Proof using.
  intros Hi G. pose proof G as [Hf Hl H0 Hlt Hend]. unfold tinyfs_format. read. rewrite Hi.
  cbn [negb Z.eqb TINYFS_INITIALIZED Pos.eqb]. do 2 read.
  rewrite !flashpage_page_small by (unfold FLASHPAGE_SIZE, FLASHPAGE_NUMOF in *; lia).
  pose proof (Z_div_exact_full_2 _ FLASHPAGE_SIZE ltac:(done) Hf) as Ef.
  pose proof (Z_div_exact_full_2 _ FLASHPAGE_SIZE ltac:(done) Hl) as El.
  set (f := first_page s / FLASHPAGE_SIZE) in *. set (l := last_page s / FLASHPAGE_SIZE) in *.
  unfold FLASHPAGE_SIZE, FLASHPAGE_NUMOF in *.
  rewrite (wrap_small 32) by (unfold is_word; lia).
  destruct (flash_pages_spec f (l - f) s) as (d & Hd & He & Ho);
    [lia|lia|unfold FLASHPAGE_NUMOF; lia|].
  exists (set_dev s d). unfold FLASHPAGE_SIZE in *. split_and!; [exact Hd| |].
  - split; [exact Hi|]. split; [exact G|]. apply lay_free; [done|]. eapply erased_weaken; [exact He|cbn; lia|cbn; lia].
  - intros b Hb. apply Ho. lia.
Qed.

(** Erasing the pages of a file. *)
Lemma flash_file_spec s p :
  flash_header p -> size_ok (file_size (mem s) p) -> p + span (mem s) p <= FLASH_END ->
  exists d, _tinyfs_flash_file p s = Ok (tt, set_dev s d) /\
    erased (cells d) p (span (mem s) p) /\
    forall b, b < p \/ p + span (mem s) p <= b -> rd8 (cells d) b = rd8 (mem s) b.
Proof using.
  intros (H0 & Ha & Hp) Hz Hend. pose proof (span_ok _ _ Hz) as (Hs1 & _ & Has).
  unfold _tinyfs_flash_file. read. fold (span (mem s) p).
  rewrite flashpage_page_small by (unfold FLASHPAGE_SIZE in *; lia).
  pose proof (Z_div_exact_full_2 _ FLASHPAGE_SIZE ltac:(done) Ha) as Ep.
  pose proof (Z_div_exact_full_2 _ FLASHPAGE_SIZE ltac:(done) Has) as En.
  set (q := p / FLASHPAGE_SIZE) in *. set (n := span (mem s) p / FLASHPAGE_SIZE) in *.
  unfold FLASHPAGE_SIZE, FLASHPAGE_NUMOF in *.
  destruct (flash_pages_spec q n s) as (d & Hd & He & Ho);
    [lia|lia|unfold FLASHPAGE_NUMOF; lia|].
  exists d. unfold FLASHPAGE_SIZE in *. split_and!; [exact Hd| |].
  - eapply erased_weaken; [exact He|lia|lia].
  - intros b Hb. apply Ho. lia.
Qed.
End Erase.

(** ** Clean-up and mounting *)

(** An interrupted load is undone: the file is back in its created state with
    an erased body. *)
Definition reset_file (f : afile) : afile :=
  if a_status f =? TINYFS_STATUS_LOADING
  then mkAfile (a_name f) (a_size f) TINYFS_STATUS_CREATED (a_exec f)
         (replicate (length (a_body f)) FLASHPAGE_ERASE_STATE)
  else f.

Lemma layout_flash_header first last m l e p :
  geometry first last -> layout m first last first l e -> p ∈ l ->
  flash_header p /\ size_ok (file_size m p) /\ p + span m p <= FLASH_END.
Proof.
  intros G Hl Hp.
  destruct (layout_elem _ _ G _ _ _ _ _ Hl (geo_first _ _ G) Hp) as (H1 & H2 & H3 & H4).
  pose proof (span_ok _ _ H3) as (?&_&_). destruct G. unfold flash_header.
  unfold FLASHPAGE_SIZE, FLASHPAGE_NUMOF in *. split_and!; try done; lia.
Qed.

Section Cleanup.
Context `{HN : Nvmc}.

Lemma flash_file_content_spec s p :
  flash_header p -> size_ok (file_size (mem s) p) -> p + span (mem s) p <= FLASH_END ->
  let f := mkFile (file_name (mem s) p) (file_size (mem s) p) (file_next (mem s) p)
             TINYFS_STATUS_CREATED (file_exec (mem s) p) in
  exists d, _tinyfs_flash_file_content p s = Ok (tt, set_dev s d) /\
    file_at (cells d) p = f /\
    erased (cells d) (p + sizeof_file) (span (mem s) p - sizeof_file) /\
    forall b, b < p \/ p + span (mem s) p <= b -> rd8 (cells d) b = rd8 (mem s) b.
Proof using.
  intros Hh Hz Hend f. pose proof (span_ok _ _ Hz) as (Hs1 & _ & _).
  destruct (flash_file_spec s p Hh Hz Hend) as (d & Hd & He & Ho).
  assert (file_typed f) as T.
  { destruct (file_at_typed (mem s) p) as [T1 T2 T3 T4 T5 T6].
    split; unfold f; cbn [f_name f_size f_next f_status f_exec]; try done. }
  exists (mkNvmc NVMC_CONFIG_WEN_Ren (wr_bytes (cells d) p (file_bytes f))).
  destruct Hh as (H0 & Ha & Hp). unfold sizeof_file in *. unfold FLASHPAGE_SIZE in Hs1.
  split_and!.
  - unfold _tinyfs_flash_file_content. read. erewrite cmd_bind_Ok by exact Hd.
    cbn [file_at f_name f_size f_next f_exec]. fold f.
    rewrite write_header; [done|done|done|done|done|].
    eapply erased_weaken; [exact He|lia|unfold sizeof_file; lia].
  - by apply file_at_wr.
  - intros b Hb. cbn [cells].
    rewrite rd8_wr_bytes_out by (rewrite file_bytes_length by done; lia). apply He. lia.
  - intros b Hb. cbn [cells].
    rewrite rd8_wr_bytes_out by (rewrite file_bytes_length by done; lia). by apply Ho.
Qed.

(** The body of the clean-up loop resets one file and keeps the others. *)
Lemma cleanup_file_spec s l e p :
  mounted s l e -> p ∈ l ->
  exists d, cleanup_file p s = Ok (tt, set_dev s d) /\ mounted (set_dev s d) l e /\
    abs_file (cells d) p = reset_file (abs_file (mem s) p) /\
    forall q, q ∈ l -> q <> p -> abs_file (cells d) q = abs_file (mem s) q.
Proof using.
  intros (Hi & G & Hl) Hp. unfold cleanup_file. read.
  unfold reset_file. cbn [abs_file a_status].
  destruct (Z.eqb_spec (file_status (mem s) p) TINYFS_STATUS_LOADING) as [_|_].
  2:{ exists (dev s). split_and!; try done. by destruct s. }
  destruct (layout_flash_header _ _ _ _ _ _ G Hl Hp) as (Hh & Hz & Hend).
  destruct (flash_file_content_spec s p Hh Hz Hend) as (d & Hd & Hf & He & Ho).
  destruct (file_at_members _ _ _ Hf) as (Fn & Fs & Fx & Ft & Fe).
  cbn [f_name f_size f_next f_status f_exec] in Fn, Fs, Fx, Ft, Fe.
  pose proof (geo_first _ _ G) as Ha.
  exists d. split; [exact Hd|]. split; [|split].
  - split; [done|]. split; [done|].
    eapply layout_members; [exact Hl| |].
    + intros q Hq. destruct (decide (q = p)) as [-> | Hne]; [done|].
      assert (same_on (mem s) (cells d) q (q + sizeof_file)) as Hs.
      { destruct (layout_elem _ _ G _ _ _ _ _ Hl Ha Hq) as (_ & _ & Hzq & _).
        pose proof (span_ok _ _ Hzq) as (?&_&_). unfold FLASHPAGE_SIZE, sizeof_file in *.
        intros b Hb. apply Ho. destruct (layout_disjoint _ _ G _ _ _ _ _ _ Hl Ha Hq Hp Hne); lia. }
      split; [exact (file_size_ext _ _ _ Hs)|exact (file_next_ext _ _ _ Hs)].
    + intros r -> b Hb. apply Ho. right.
      pose proof (layout_below _ _ G _ _ _ _ _ Hl Ha Hp). lia.
  - unfold abs_file at 1.
    assert (span (cells d) p = span (mem s) p) as Hsp by (unfold span; by rewrite Fs).
    rewrite Hsp, Fn, Fs, Ft, Fe. cbn [abs_file a_name a_size a_exec a_body]. f_equal.
    rewrite length_rd_bytes. apply rd_bytes_erased.
    pose proof (span_ok _ _ Hz) as (?&_&_). unfold FLASHPAGE_SIZE, sizeof_file in *.
    rewrite Z2Nat.id by lia. exact He.
  - intros q Hq Hne. destruct (layout_elem _ _ G _ _ _ _ _ Hl Ha Hq) as (_ & _ & Hzq & _).
    apply abs_file_ext; [done|]. intros b Hb. apply Ho.
    destruct (layout_disjoint _ _ G _ _ _ _ _ _ Hl Ha Hq Hp Hne); lia.
Qed.
End Cleanup.

Lemma reset_file_idemp f : reset_file (reset_file f) = reset_file f.
Proof.
  unfold reset_file at 2 3. destruct (a_status f =? TINYFS_STATUS_LOADING) eqn:E; [done|].
  unfold reset_file. by rewrite E.
Qed.

Lemma layout_suffix m first last p pre q suf e :
  layout m first last p (pre ++ q :: suf) e -> layout m first last q (q :: suf) e.
Proof.
  revert p. induction pre as [|x pre IH]; intros p Hl; cbn in Hl.
  - by assert (p = q) as -> by (by inversion Hl).
  - inversion Hl; subst; [by destruct pre|by eapply IH].
Qed.

(** The last file is the first one only if it is alone. *)
Definition walkable (s : tinyfs) (p : Z) (suf : list Z) (e : option Z) : Prop :=
  suf = [] /\ e = None -> p = first_page s.

Section CleanupAll.
Context `{HN : Nvmc}.

Definition reset_some (vis : list Z) (m : memory) (q : Z) : afile :=
  if decide (q ∈ vis) then reset_file (abs_file m q) else abs_file m q.

(** Resetting [q] and then the files [vis] resets the files [q :: vis]. *)
Lemma reset_some_cons (l vis : list Z) (m m1 : memory) (q x : Z) :
  abs_file m1 q = reset_file (abs_file m q) ->
  (forall y, y ∈ l -> y <> q -> abs_file m1 y = abs_file m y) -> x ∈ l ->
  reset_some vis m1 x = reset_some (q :: vis) m x.
Proof using.
  intros Hq Hoth Hx. unfold reset_some. destruct (decide (x = q)) as [-> | Hne].
  - rewrite Hq, reset_file_idemp.
    rewrite (decide_True (P := q ∈ q :: vis)) by (apply elem_of_cons; by left).
    destruct (decide (q ∈ vis)); reflexivity.
  - rewrite Hoth by assumption. destruct (decide (x ∈ vis)) as [Hi|Hi].
    + rewrite decide_True; [reflexivity|apply elem_of_cons; by right].
    + rewrite decide_False; [reflexivity|]. rewrite elem_of_cons. tauto.
Qed.

Lemma cleanup_loop_spec fuel s l pre p suf e :
  l = pre ++ p :: suf -> mounted s l e -> walkable s p suf e -> (length suf < fuel)%nat ->
  exists d, cleanup_loop fuel p s = Ok (tt, set_dev s d) /\ mounted (set_dev s d) l e /\
    forall q, q ∈ l -> abs_file (cells d) q = reset_some (visible_rest suf e) (mem s) q.
Proof using.
  revert s pre p suf. induction fuel as [|fuel IH]; intros s pre p suf -> Hm Hw Hfuel; [lia|].
  pose proof Hm as (Hi & G & Hl). pose proof (geo_first _ _ G) as Haf.
  assert (p ∈ pre ++ p :: suf) as Hp by set_solver.
  destruct (layout_elem _ _ G _ _ _ _ _ Hl Haf Hp) as (Hfp & Hap & _ & _).
  pose proof (layout_suffix _ _ _ _ _ _ _ _ Hl) as Hls.
  cbn [cleanup_loop]. erewrite cmd_bind_Ok by (by apply get_next_spec).
  destruct (head (visible_rest suf e)) as [q|] eqn:Hq.
  - destruct (visible_rest_step _ G _ _ _ _ Hls Hap Hq) as (suf' & -> & _ & Haq & Hlt & Hv & Hne).
    change (default NULL (Some q)) with q.
    rewrite (proj2 (Z.eqb_neq q NULL)) by (unfold NULL; destruct G; lia).
    assert (q ∈ pre ++ p :: q :: suf') as Hqin by set_solver.
    destruct (cleanup_file_spec s _ e q Hm Hqin) as (d & Hd & Hm' & Habs & Hoth).
    erewrite cmd_bind_Ok by exact Hd.
    destruct (IH (set_dev s d) (pre ++ [p]) q suf') as (d' & Hd' & Hm'' & Habs');
      [by rewrite <- app_assoc|done|unfold walkable; tauto|cbn in Hfuel; lia|].
    exists d'. split_and!; [exact Hd'|exact Hm''|].
    intros x Hx. rewrite Habs' by exact Hx. rewrite Hv.
    exact (reset_some_cons _ _ _ _ _ _ Habs Hoth Hx).
  - exists (dev s). destruct (visible_rest suf e) eqn:Hv; [|discriminate].
    split_and!; [by destruct s|done|done].
Qed.

Lemma cleanup_spec s l e :
  mounted s l e ->
  exists d, _tinyfs_cleanup s = Ok (tt, set_dev s d) /\ mounted (set_dev s d) l e /\
    forall q, q ∈ l -> abs_file (cells d) q = reset_some (visible l e) (mem s) q.
Proof using.
  intros Hm. pose proof Hm as (Hi & G & Hl). unfold _tinyfs_cleanup.
  erewrite cmd_bind_Ok by (by apply get_first_spec).
  destruct l as [|p l]; [exists (dev s); by destruct s|].
  assert (p = first_page s) as -> by (by inversion Hl). cbn [visible head].
  change (default NULL (Some (first_page s))) with (first_page s). set (p := first_page s) in *.
  rewrite (proj2 (Z.eqb_neq p NULL)) by (unfold NULL; destruct G; lia).
  assert (p ∈ p :: l) as Hpin by set_solver.
  destruct (cleanup_file_spec s _ e p Hm Hpin) as (d & Hd & Hm' & Habs & Hoth).
  erewrite cmd_bind_Ok by exact Hd.
  destruct (cleanup_loop_spec (S max_files) (set_dev s d) (p :: l) [] p l e)
    as (d' & Hd' & Hm'' & Habs'); [done|done|done| |].
  { pose proof (layout_fuel _ _ G _ _ _ _ Hl ltac:(lia)). cbn in *. lia. }
  eexists. split_and!; [exact Hd'|exact Hm''|].
  intros x Hx. rewrite Habs' by exact Hx.
  exact (reset_some_cons _ _ _ _ _ _ Habs Hoth Hx).
Qed.

(** Clean-up resets exactly the reported files that were being loaded: their
    bodies are erased and their status goes back to CREATED; every other file and
    the layout are kept. *)
Theorem cleanup_resets s l e :
  mounted s l e ->
  exists s', _tinyfs_cleanup s = Ok (tt, s') /\ mounted s' l e /\
    forall q, q ∈ l -> abs_file (mem s') q = reset_some (visible l e) (mem s) q.
Proof using. intros Hm. destruct (cleanup_spec s l e Hm) as (d & ?). by exists (set_dev s d). Qed.

(** Mounting at boot: with the module flag still clear, initialisation computes
    the page bounds and sets the flag, and the flash is left exactly as it was.
    In particular interrupted loads are not undone, because the walk of the
    clean-up reports no file before the flag is set. *)
Theorem init_at_boot s flash_start flash_end :
  module_init s <> TINYFS_INITIALIZED ->
  let first := ROUND flash_start FLASHPAGE_SIZE in
  let last := u32 (TRUNC flash_end FLASHPAGE_SIZE - FLASHPAGE_SIZE) in
  first < last ->
  tinyfs_init flash_start flash_end s = Ok (0, mkFs first last TINYFS_INITIALIZED (dev s)).
Proof using.
  intros Hi first last Hlt. unfold tinyfs_init. do 4 read.
  cbn [first_page last_page module_init dev]. fold first. fold last.
  erewrite cmd_bind_Ok by (apply check_true, Z.ltb_lt; exact Hlt).
  assert (forall s', module_init s' <> TINYFS_INITIALIZED -> _tinyfs_cleanup s' = Ok (tt, s')) as Hc.
  { intros s' Hs'. unfold _tinyfs_cleanup.
    rewrite (cmd_bind_Ok _ _ s' NULL s'); [reflexivity|].
    unfold tinyfs_get_first_file. do 3 read. by rewrite (proj2 (Z.eqb_neq _ _) Hs'). }
  erewrite cmd_bind_Ok by (apply Hc; exact Hi). reflexivity.
Qed.

(** Mounting again, with the flag set, does clean up. *)
Theorem init_again s l e flash_start flash_end :
  mounted s l e -> first_page s = ROUND flash_start FLASHPAGE_SIZE ->
  last_page s = u32 (TRUNC flash_end FLASHPAGE_SIZE - FLASHPAGE_SIZE) ->
  exists s', tinyfs_init flash_start flash_end s = Ok (0, s') /\ mounted s' l e /\
    forall q, q ∈ l -> abs_file (mem s') q = reset_some (visible l e) (mem s) q.
Proof using.
  intros Hm Hf Hla. pose proof Hm as (Hi & G & Hl).
  destruct (cleanup_spec s l e Hm) as (d & Hd & Hm' & Habs).
  exists (set_dev s d). split_and!; [|exact Hm'|exact Habs].
  unfold tinyfs_init. do 4 read. cbn [first_page last_page module_init dev].
  rewrite <- Hf, <- Hla.
  erewrite cmd_bind_Ok by (apply check_true, Z.ltb_lt, G).
  replace (mkFs _ _ _ _) with s by (by destruct s).
  erewrite cmd_bind_Ok by exact Hd. read. unfold mret, cmd_ret, set_dev. cbn. by rewrite Hi.
Qed.
End CleanupAll.
