(* ===== verification/XipFsRemove.v ===== *)
(** * Removing a file

    [tinyfs_remove] erases a file and moves every later file down by its size,
    page by page.  On a mounted system with free space this implements removal
    from the list of files. *)

From stdpp Require Import base gmap list.
From Stdlib Require Import ZArith Lia.
From S2P Require Import Prelude Flash XipFs XipFsSpec XipFsOps XipFsAdmin.

Local Open Scope Z_scope.

Local Notation P := FLASHPAGE_SIZE.

(** [moved m m' dst src n gap]: the [n] bytes at [src] are now at [dst], the
    [gap] bytes after them are erased, everything else is unchanged. *)
Record moved (m m' : memory) (dst src n : Z) : Prop := mkMoved {
  mv_copy : forall b, dst <= b < dst + n -> rd8 m' b = rd8 m (b - dst + src);
  mv_gap : erased m' (dst + n) (src - dst);
  mv_frame : forall b, b < dst \/ src + n <= b -> rd8 m' b = rd8 m b
}.

(** A block copied from one memory into another. *)
Lemma rd8_copy m m0 dst src n b :
  dst <= b < dst + Z.of_nat n ->
  rd8 (wr_bytes m dst (rd_bytes m0 src n)) b = rd8 m0 (b - dst + src).
Proof.
  intros Hb. assert (b = dst + Z.of_nat (Z.to_nat (b - dst))) as Hk by lia.
  set (k := Z.to_nat (b - dst)) in *. rewrite Hk.
  erewrite rd8_wr_bytes_in by (apply lookup_rd_bytes; lia).
  rewrite wrap_small by apply rd8_range. f_equal. lia.
Qed.

Section Move.
Context `{HN : Nvmc}.

(** A page copied into erased cells and then erased. *)
Lemma copy_page s dst src :
  0 <= dst -> aligned dst -> aligned src -> dst + P <= src -> src + P <= FLASH_END ->
  erased (mem s) dst (src - dst) ->
  exists d, (on_dev (flashpage_write dst (At src) P) ;; on_dev (flashpage_erase (src / P))) s
      = Ok (tt, set_dev s d) /\ moved (mem s) (cells d) dst src P.
Proof using.
  intros H0 Hd Hs Hle Hend He.
  pose proof (Z_div_exact_full_2 _ P ltac:(done) Hs) as Es.
  set (m := mem s) in *. set (body := rd_bytes m src (Z.to_nat P)).
  assert (Z.of_nat (length body) = P) as Hlen by (unfold body; by rewrite length_rd_bytes).
  set (m1 := wr_bytes m dst body).
  exists (mkNvmc NVMC_CONFIG_WEN_Een (erase_page m1 src)). split.
  - erewrite cmd_bind_Ok.
    2:{ apply on_dev_Ok, flashpage_write_at; [|unfold FLASHPAGE_SIZE in *; lia].
        unfold write_ok. cbn [source_addr]. unfold FLASHPAGE_SIZE, FLASHPAGE_NUMOF in *.
        clear Hlen. split_and!; [lia|lia|done|by apply aligned_word|by apply aligned_word|lia]. }
    fold (mem s) m body. rewrite program_erased.
    + erewrite on_dev_Ok; [done|]. rewrite flashpage_erase_page; [|unfold FLASHPAGE_SIZE, FLASHPAGE_NUMOF in *; lia].
      by replace (src / P * P) with src by lia.
    + apply rd_bytes_words.
    + eapply erased_weaken; [exact He|lia|lia].
  - clearbody m. unfold FLASHPAGE_SIZE in *. split; cbn [cells].
    + intros b Hb. rewrite rd8_erase_page, decide_False by (unfold FLASHPAGE_SIZE; lia).
      apply rd8_copy. rewrite Z2Nat.id; lia.
    + intros b Hb. rewrite rd8_erase_page. unfold FLASHPAGE_SIZE. case_decide; [done|].
      unfold m1. rewrite rd8_wr_bytes_out by lia. apply He. lia.
    + intros b Hb. rewrite rd8_erase_page, decide_False by (unfold FLASHPAGE_SIZE; lia).
      unfold m1. apply rd8_wr_bytes_out. lia.
Qed.

(** Moves of adjacent blocks compose. *)
Lemma moved_trans m m1 m2 dst src n k :
  0 <= n -> 0 <= k -> dst + n <= src ->
  moved m m1 dst src n -> moved m1 m2 (dst + n) (src + n) k -> moved m m2 dst src (n + k).
Proof using.
  intros Hn Hk Hle [C1 G1 F1] [C2 G2 F2]. split.
  - intros b Hb. destruct (decide (b < dst + n)).
    + rewrite F2 by lia. apply C1. lia.
    + rewrite C2 by lia. rewrite F1 by lia. f_equal. lia.
  - intros b Hb. apply G2. lia.
  - intros b Hb. rewrite F2 by lia. apply F1. lia.
Qed.

Lemma moved_refl m dst src : erased m dst (src - dst) -> moved m m dst src 0.
Proof using. intros He. split; [lia|by rewrite Z.add_0_r|done]. Qed.

Lemma move_pages_spec n s dst src :
  0 <= dst -> aligned dst -> aligned src -> dst + P <= src ->
  src + Z.of_nat n * P <= FLASH_END -> erased (mem s) dst (src - dst) ->
  exists d, move_pages n dst src s = Ok (dst + Z.of_nat n * P, set_dev s d) /\
    moved (mem s) (cells d) dst src (Z.of_nat n * P).
Proof using.
  revert s dst src. induction n as [|n IH]; intros s dst src H0 Hd Hs Hle Hend He.
  { exists (dev s). split; [|by apply moved_refl].
    cbn. unfold mret, cmd_ret. rewrite Z.add_0_r. by destruct s. }
  assert (Z.of_nat (S n) * P = P + Z.of_nat n * P) as Hn by (unfold FLASHPAGE_SIZE; lia).
  rewrite Hn in *.
  cbn [move_pages]. rewrite flashpage_page_small by (unfold FLASHPAGE_SIZE, FLASHPAGE_NUMOF in *; lia).
  pose proof (Z_div_exact_full_2 _ P ltac:(done) Hs) as Es.
  destruct (flash_needed_spec (src / P) s) as (b & Hb & Hf);
    [unfold FLASHPAGE_SIZE, FLASHPAGE_NUMOF in *; lia|].
  erewrite cmd_bind_Ok by exact Hb.
  assert (exists d, (if b then on_dev (flashpage_write dst (At src) P) ;;
                            on_dev (flashpage_erase (src / P)) else mret tt) s
            = Ok (tt, set_dev s d) /\ moved (mem s) (cells d) dst src P) as (d & Hd1 & Hm1).
  { destruct b.
    - apply copy_page; try done. unfold FLASHPAGE_SIZE in *; lia.
    - exists (dev s). split; [by destruct s|].
      assert (erased (mem s) src P) as Hsrc.
      { rewrite Es, Z.mul_comm. by apply Hf. }
      split; [|intros c Hc|done].
      + intros c Hc. fold (mem s). rewrite He, Hsrc by (unfold FLASHPAGE_SIZE in *; lia). done.
      + fold (mem s). destruct (decide (c < src)); [apply He|apply Hsrc]; unfold FLASHPAGE_SIZE in *; lia. }
  erewrite cmd_bind_Ok by exact Hd1.
  rewrite (wrap_small 32 (dst + P)), (wrap_small 32 (src + P))
    by (unfold is_word, FLASHPAGE_SIZE, FLASHPAGE_NUMOF in *; lia).
  destruct (IH (set_dev s d) (dst + P) (src + P)) as (d2 & Hd2 & Hm2);
    [unfold FLASHPAGE_SIZE; lia|by apply aligned_add|by apply aligned_add|lia|lia| |].
  { replace (src + P - (dst + P)) with (src - dst) by lia. apply Hm1. }
  exists d2. split; [rewrite Z.add_assoc; exact Hd2|].
  eapply moved_trans; [..|exact Hm1|exact Hm2]; unfold FLASHPAGE_SIZE in *; lia.
Qed.
End Move.

Section MoveFile.
Context `{HN : Nvmc}.

Definition relinked (m : memory) (src next : Z) : file_t :=
  mkFile (file_name m src) (file_size m src) next (file_status m src) (file_exec m src).

Lemma relinked_typed m src next : is_word 32 next -> file_typed (relinked m src next).
Proof using.
  intros. destruct (file_at_typed m src). split; cbn [relinked f_name f_size f_next f_status f_exec]; done.
Qed.

(** The first page of a file: the header with its new link, the rest copied. *)
Lemma move_first_page s dst src next :
  0 <= dst -> aligned dst -> aligned src -> dst + P <= src -> src + P <= FLASH_END ->
  is_word 32 next -> erased (mem s) dst (src - dst) ->
  exists d, (on_dev (flashpage_write dst (Auto (file_bytes (relinked (mem s) src next))) sizeof_file) ;;
             on_dev (flashpage_write (u32 (dst + sizeof_file)) (At (u32 (src + sizeof_file))) (P - sizeof_file)) ;;
             on_dev (flashpage_erase (flashpage_page src))) s = Ok (tt, set_dev s d) /\
    file_at (cells d) dst = relinked (mem s) src next /\
    (forall b, dst + sizeof_file <= b < dst + P -> rd8 (cells d) b = rd8 (mem s) (b - dst + src)) /\
    erased (cells d) (dst + P) (src - dst) /\
    (forall b, b < dst \/ src + P <= b -> rd8 (cells d) b = rd8 (mem s) b).
Proof using.
  intros H0 Hd Hs Hle Hend Hnx He.
  set (f := relinked (mem s) src next). assert (file_typed f) as T by (by apply relinked_typed).
  pose proof (file_bytes_length f T) as Hfl.
  pose proof (Z_div_exact_full_2 _ P ltac:(done) Hs) as Es.
  set (m := mem s) in *. set (m1 := wr_bytes m dst (file_bytes f)).
  set (n := Z.to_nat (P - sizeof_file)).
  assert (Z.of_nat n = P - sizeof_file) as Hn by done.
  set (m2 := wr_bytes m1 (dst + sizeof_file) (rd_bytes m1 (src + sizeof_file) n)).
  assert (forall b, dst + sizeof_file <= b -> rd8 m1 b = rd8 m b) as H1.
  { intros b Hb. apply rd8_wr_bytes_out. rewrite Hfl. right. exact Hb. }
  exists (mkNvmc NVMC_CONFIG_WEN_Een (erase_page m2 src)). split.
  - erewrite cmd_bind_Ok.
    2:{ apply write_header; [done|done|unfold FLASHPAGE_SIZE in *; lia|done|].
        eapply erased_weaken; [exact He|lia|unfold FLASHPAGE_SIZE, sizeof_file in *; lia]. }
    fold m. fold m1.
    rewrite (wrap_small 32 (dst + sizeof_file)), (wrap_small 32 (src + sizeof_file))
      by (unfold is_word, FLASHPAGE_SIZE, FLASHPAGE_NUMOF, sizeof_file in *; lia).
    erewrite cmd_bind_Ok.
    2:{ apply on_dev_Ok, flashpage_write_at.
        - apply aligned_word in Hd, Hs. unfold write_ok. cbn [source_addr].
          unfold FLASHPAGE_SIZE, FLASHPAGE_NUMOF, sizeof_file in *. clear Hn.
          split_and!; [lia|lia|done|rewrite Z.add_mod, Hd by lia; done
                      |rewrite Z.add_mod, Hs by lia; done|lia].
        - unfold FLASHPAGE_SIZE, sizeof_file in *. lia. }
    cbn [dev set_dev cells]. fold n. rewrite program_erased.
    + fold m2. erewrite on_dev_Ok; [done|].
      rewrite flashpage_page_small by (unfold FLASHPAGE_SIZE, FLASHPAGE_NUMOF in *; lia).
      rewrite flashpage_erase_page by (unfold FLASHPAGE_SIZE, FLASHPAGE_NUMOF in *; lia).
      by replace (src / P * P) with src by lia.
    + apply rd_bytes_words.
    + rewrite length_rd_bytes, Hn. intros b Hb. rewrite H1 by lia.
      apply He. unfold sizeof_file in *. lia.
  - clearbody n m. cbn [cells]. unfold sizeof_file in *.
    assert (forall b, b < src -> rd8 (erase_page m2 src) b = rd8 m2 b) as Hlow
      by (intros b Hb; rewrite rd8_erase_page, decide_False by lia; done).
    split_and!.
    + rewrite <- (file_at_wr m dst f T). fold m1. unfold file_at.
      assert (same_on m1 (erase_page m2 src) dst (dst + sizeof_file)) as Hh.
      { intros b Hb. unfold sizeof_file in Hb. rewrite Hlow by (unfold FLASHPAGE_SIZE in *; lia).
        apply rd8_wr_bytes_out. lia. }
      rewrite (file_name_ext _ _ _ Hh), (file_size_ext _ _ _ Hh), (file_next_ext _ _ _ Hh),
        (file_status_ext _ _ _ Hh), (file_exec_ext _ _ _ Hh). done.
    + intros b Hb. rewrite Hlow by lia. unfold m2. rewrite rd8_copy by lia.
      rewrite H1 by lia. f_equal. lia.
    + intros b Hb. rewrite rd8_erase_page. case_decide as Hc; [done|].
      unfold m2. rewrite rd8_wr_bytes_out by (rewrite length_rd_bytes; lia).
      rewrite H1 by (unfold FLASHPAGE_SIZE in *; lia). apply He. unfold FLASHPAGE_SIZE in *; lia.
    + intros b Hb. rewrite rd8_erase_page, decide_False by lia. unfold m2.
      rewrite rd8_wr_bytes_out by (rewrite length_rd_bytes; unfold FLASHPAGE_SIZE in *; lia).
      apply rd8_wr_bytes_out. rewrite Hfl. unfold FLASHPAGE_SIZE in *. lia.
Qed.

(** Moving a whole file: its abstract view is the same at the new place, it links
    to the page after it, and the pages it leaves are erased. *)
Lemma move_file_spec s dst src :
  0 <= dst -> aligned dst -> aligned src -> dst + P <= src ->
  size_ok (file_size (mem s) src) -> src + span (mem s) src <= FLASH_END ->
  erased (mem s) dst (src - dst) ->
  exists d, move_file dst src s = Ok (dst + span (mem s) src, set_dev s d) /\
    abs_file (cells d) dst = abs_file (mem s) src /\
    file_next (cells d) dst = dst + span (mem s) src /\
    erased (cells d) (dst + span (mem s) src) (src - dst) /\
    (forall b, b < dst \/ src + span (mem s) src <= b -> rd8 (cells d) b = rd8 (mem s) b).
Proof using.
  intros H0 Hd Hs Hle Hz Hend He. pose proof (span_ok _ _ Hz) as (Hs1 & _ & Has).
  set (R := span (mem s) src) in *.
  pose proof (Z_div_exact_full_2 _ P ltac:(done) Has) as ER.
  set (k := Z.to_nat (R / P - 1)).
  assert (R = P + Z.of_nat k * P) as HR by (unfold k, FLASHPAGE_SIZE in *; lia).
  assert (is_word 32 (dst + R)) as Hw
    by (unfold is_word, FLASHPAGE_SIZE, FLASHPAGE_NUMOF in *; lia).
  destruct (move_first_page s dst src (dst + R)) as (d1 & Hd1 & Hf & Hb1 & He1 & Ho1);
    [done|done|done|done|lia|done|done|].
  destruct (move_pages_spec k (set_dev s d1) (dst + P) (src + P)) as (d & Hd2 & [C2 G2 F2]);
    [unfold FLASHPAGE_SIZE; lia|by apply aligned_add|by apply aligned_add|lia|lia| |].
  { by replace (src + P - (dst + P)) with (src - dst) by lia. }
  unfold mem in C2, F2; cbn [dev set_dev] in C2, F2. fold (mem s) in C2, F2.
  assert (same_on (cells d1) (cells d) dst (dst + sizeof_file)) as Hh.
  { intros b Hb. apply F2. unfold FLASHPAGE_SIZE, sizeof_file in *. lia. }
  destruct (file_at_members _ _ _ Hf) as (Fn & Fs & Fx & Ft & Fe).
  exists d. split_and!.
  - unfold move_file. read. cbn [file_at f_name f_size f_status f_exec].
    fold (span (mem s) src). fold R. rewrite (wrap_small 32 (dst + R)) by done.
    fold (relinked (mem s) src (dst + R)).
    unfold mbind, cmd_bind in Hd1 |- *.
    destruct (on_dev (flashpage_write dst _ sizeof_file) s) as [[[] s1]|]; [|done].
    destruct (on_dev (flashpage_write (u32 (dst + sizeof_file)) _ _) s1) as [[[] s2]|]; [|done].
    rewrite Hd1.
    rewrite (wrap_small 32 (dst + P)), (wrap_small 32 (src + P))
      by (unfold is_word, FLASHPAGE_SIZE, FLASHPAGE_NUMOF in *; lia).
    fold k. rewrite Hd2. by replace (dst + P + Z.of_nat k * P) with (dst + R) by lia.
  - assert (span (cells d) dst = R) as Hsp.
    { rewrite (span_ext _ _ _ Hh). unfold span. rewrite Fs. done. }
    unfold abs_file. rewrite Hsp. fold R.
    rewrite (file_name_ext _ _ _ Hh), (file_size_ext _ _ _ Hh), (file_status_ext _ _ _ Hh),
      (file_exec_ext _ _ _ Hh), Fn, Fs, Ft, Fe. cbn [relinked f_name f_size f_status f_exec].
    f_equal. apply list_eq. intros i. set (n := Z.to_nat (R - sizeof_file)).
    destruct (decide (i < n)%nat) as [Hi|Hi];
      [|rewrite !lookup_ge_None_2; [done|rewrite length_rd_bytes; lia..]].
    rewrite !lookup_rd_bytes by done. f_equal.
    assert (Z.of_nat i < R - sizeof_file) as Hin by (unfold n in Hi; lia). unfold sizeof_file in *.
    destruct (decide (dst + 48 + Z.of_nat i < dst + P)) as [Hp|Hp].
    + rewrite F2 by lia. rewrite Hb1 by lia. f_equal. lia.
    + rewrite C2 by lia. rewrite Ho1 by (unfold FLASHPAGE_SIZE in *; lia). f_equal. lia.
  - rewrite (file_next_ext _ _ _ Hh), Fx. done.
  - intros b Hb. apply G2. lia.
  - intros b Hb. rewrite F2 by (unfold FLASHPAGE_SIZE in *; lia). apply Ho1. unfold FLASHPAGE_SIZE in *. lia.
Qed.
End MoveFile.

(** ** Consolidation *)

Section Consolidate.
Context `{HN : Nvmc}.

(** The loop moves all remaining files down by the same gap. *)
Lemma remove_loop_spec fuel s dst q suf r :
  module_init s = TINYFS_INITIALIZED -> geometry (first_page s) (last_page s) ->
  layout (mem s) (first_page s) (last_page s) q suf (Some r) ->
  first_page s <= dst -> aligned dst -> aligned q -> dst + P <= q ->
  erased (mem s) dst (q - dst) -> (length suf < fuel)%nat ->
  exists d, remove_loop fuel dst (default NULL (head suf)) s = Ok (tt, set_dev s d) /\
    layout (cells d) (first_page s) (last_page s) dst
      (map (fun x => x - (q - dst)) suf) (Some (r - (q - dst))) /\
    map (abs_file (cells d)) (map (fun x => x - (q - dst)) suf) = map (abs_file (mem s)) suf /\
    forall b, b < dst \/ last_page s <= b -> rd8 (cells d) b = rd8 (mem s) b.
Proof using.
  intros Hi G. remember (Some r) as e eqn:Hr. intros Hl. revert fuel dst s Hi G Hl.
  (* induction on the files still to move *)
  revert q. induction suf as [|x suf IH]; intros q fuel dst s Hi G Hl Hfd Had Haq Hgap He Hfuel;
    (destruct fuel as [|fuel]; [cbn in Hfuel; lia|]).
  - inversion Hl as [? Hq Hfree Ep En Es| |]. simplify_eq. exists (dev s).
    split_and!; [by destruct s| |done|done]. fold (mem s).
    replace (r - (r - dst)) with dst by lia. apply lay_free; [unfold FLASHPAGE_SIZE in *; lia|].
    replace (last_page s - dst) with (r - dst + (last_page s - r)) by lia.
    apply erased_join; [done|]. by replace (dst + (r - dst)) with r by lia.
  - inversion Hl as [| |? ? ? Hz Hp Hn Hrest]; simplify_eq.
    pose proof (span_ok _ _ Hz) as (Hs1 & _ & Has). set (R := span (mem s) x) in *.
    pose proof G as [Gf Gl G0 G1 G2].
    cbn [remove_loop head]. change (default NULL (Some x)) with x.
    rewrite (proj2 (Z.eqb_neq x NULL)) by (unfold NULL, FLASHPAGE_SIZE in *; lia).
    erewrite cmd_bind_Ok.
    2:{ apply (get_next_spec s Hi G x suf (Some r)); [done|done|unfold FLASHPAGE_SIZE in *; lia|].
        by intros [_ ?]. }
    destruct (move_file_spec s dst x) as (d1 & Hd1 & Ha1 & Hn1 & He1 & Ho1);
      [lia|done|done|done|done|unfold FLASHPAGE_SIZE in *; lia|done|].
    erewrite cmd_bind_Ok by exact Hd1.
    fold R in Ho1, He1, Hn1 |- *.
    destruct (IH (x + R) fuel (dst + R) (set_dev s d1)) as (d & Hd & Hl2 & Ha2 & Ho2).
    + done.
    + done.
    + eapply (layout_ext _ _ G (mem s)); [done|]. intros b Hb. apply Ho1. lia.
    + cbn [first_page set_dev]. unfold FLASHPAGE_SIZE in *. lia.
    + by apply aligned_add.
    + by apply aligned_add.
    + lia.
    + by replace (x + R - (dst + R)) with (x - dst) by lia.
    + cbn in Hfuel. lia.
    + replace (x + R - (dst + R)) with (x - dst) in * by lia.
      cbn [first_page last_page set_dev] in Hl2, Ho2. change (mem (set_dev s d1)) with (cells d1) in Ho2, Ha2.
      assert (same_on (cells d1) (cells d) dst (dst + R)) as Hsame.
      { intros b Hb. apply Ho2. lia. }
      assert (file_size (cells d1) dst = file_size (mem s) x) as Hsz.
      { change (a_size (abs_file (cells d1) dst) = file_size (mem s) x). by rewrite Ha1. }
      assert (span (cells d1) dst = R) as Hsp1 by (unfold span; by rewrite Hsz).
      assert (same_on (cells d1) (cells d) dst (dst + sizeof_file)) as Hh.
      { eapply same_on_weaken; [exact Hsame|lia|unfold sizeof_file, FLASHPAGE_SIZE in *; lia]. }
      exists d. split_and!.
      * exact Hd.
      * cbn [map]. replace (x - (x - dst)) with dst by lia.
        assert (span (cells d) dst = R) as Hsp by (by rewrite (span_ext _ _ _ Hh)).
        apply lay_file; rewrite ?Hsp;
          [by rewrite (file_size_ext _ _ _ Hh), Hsz|unfold FLASHPAGE_SIZE in *; lia|by rewrite (file_next_ext _ _ _ Hh)|exact Hl2].
      * cbn [map]. replace (x - (x - dst)) with dst by lia. f_equal.
        -- rewrite <- Ha1. apply abs_file_ext; [by rewrite Hsz|by rewrite Hsp1].
        -- rewrite Ha2. apply map_ext_in. intros y Hy%list_elem_of_In.
           destruct (layout_elem _ _ G _ _ _ _ _ Hrest ltac:(by apply aligned_add) Hy)
             as (Hy1 & _ & Hzy & _).
           apply abs_file_ext; [done|]. intros b Hb. apply Ho1. lia.
      * intros b Hb. rewrite Ho2 by (unfold FLASHPAGE_SIZE in *; lia). apply Ho1. lia.
Qed.

(** The files before a page keep their place when what follows is replaced. *)
Lemma layout_replace first last m m' p pre q suf e suf' e' :
  layout m first last p (pre ++ q :: suf) e -> geometry first last -> aligned p ->
  same_on m m' p q -> layout m' first last q suf' e' ->
  layout m' first last p (pre ++ suf') e'.
Proof using.
  revert p. induction pre as [|x pre IH]; intros p Hl G Ha Hs Hq; cbn in *.
  - by assert (p = q) as -> by (by inversion Hl).
  - inversion Hl as [| |? ? ? Hz Hp Hn Hr]; simplify_eq; [by destruct pre|].
    pose proof (span_ok _ _ Hz) as (Hs1 & _ & Has).
    destruct (layout_elem _ _ G _ _ _ _ q Hr ltac:(by apply aligned_add) ltac:(set_solver)) as (Hle & _).
    assert (same_on m m' x (x + sizeof_file)) as Hh
      by (eapply same_on_weaken; [exact Hs|lia|unfold FLASHPAGE_SIZE, sizeof_file in *; lia]).
    rewrite <- (span_ext _ _ _ Hh) in *.
    apply lay_file; rewrite ?(file_size_ext _ _ _ Hh), ?(file_next_ext _ _ _ Hh); [done|done|done|].
    apply IH; [done|done|by apply aligned_add| |done].
    eapply same_on_weaken; [exact Hs|unfold FLASHPAGE_SIZE in *; lia|lia].
Qed.

(** Files listed before [q] end before it. *)
Lemma layout_prefix_below first last m p pre q suf e y :
  layout m first last p (pre ++ q :: suf) e -> geometry first last -> aligned p ->
  y ∈ pre -> y + span m y <= q.
Proof using.
  revert p. induction pre as [|x pre IH]; intros p Hl G Ha Hy; cbn in *; [by apply elem_of_nil in Hy|].
  inversion Hl as [| |? ? ? Hz Hp Hn Hr]; simplify_eq; [by destruct pre|].
  pose proof (span_ok _ _ Hz) as (Hs1 & _ & Has).
  apply elem_of_cons in Hy as [-> | Hy]; [|by eapply IH; [exact Hr|done|apply aligned_add|]].
  by destruct (layout_elem _ _ G _ _ _ _ q Hr ltac:(by apply aligned_add) ltac:(set_solver)) as (? & _).
Qed.

Lemma find_split (f : Z -> bool) pre p suf :
  (forall x, x ∈ pre -> f x = false) -> f p = true -> find f (pre ++ p :: suf) = Some p.
Proof using.
  intros Hpre Hp. induction pre as [|x pre IH]; cbn; [by rewrite Hp|].
  rewrite Hpre by set_solver. apply IH. intros y Hy. apply Hpre. set_solver.
Qed.

(** The calls [tinyfs_remove] makes. *)
Lemma remove_runs s name pre p suf r d0 d :
  mounted s (pre ++ p :: suf) (Some r) -> named s name p = true ->
  (forall x, x ∈ pre -> named s name x = false) ->
  _tinyfs_flash_file p s = Ok (tt, set_dev s d0) ->
  remove_loop (S max_files) p (default NULL (head suf)) (set_dev s d0) = Ok (tt, set_dev s d) ->
  tinyfs_remove name s = Ok (0, set_dev s d).
Proof using.
  intros Hm Hp Hpre Hd0 Hd. pose proof Hm as (Hi & G & Hl). pose proof (geo_first _ _ G) as Haf.
  assert (p ∈ pre ++ p :: suf) as Hpin by (apply elem_of_app; right; apply list_elem_of_here).
  destruct (layout_elem _ _ G _ _ _ _ _ Hl Haf Hpin) as (Hfp & Hap & _ & _).
  pose proof (layout_suffix _ _ _ _ _ _ _ _ Hl) as Hls.
  unfold tinyfs_remove. read. rewrite Hi. cbn [negb Z.eqb TINYFS_INITIALIZED Pos.eqb].
  erewrite cmd_bind_Ok by (eapply file_search_aux; exact Hm).
  assert (visible (pre ++ p :: suf) (Some r) = pre ++ p :: suf) as -> by (by destruct pre).
  rewrite find_split by done. change (default NULL (Some p)) with p.
  rewrite (proj2 (Z.eqb_neq p NULL)) by (unfold NULL; destruct G; lia).
  erewrite cmd_bind_Ok.
  2:{ apply (get_next_spec s Hi G p suf (Some r)); [done|done|done|]. by intros [_ ?]. }
  erewrite cmd_bind_Ok by exact Hd0. erewrite cmd_bind_Ok by exact Hd. done.
Qed.

(** C11: Removal refines removal from the list: with free space left, removing the
    first file [p] of that name keeps every other file with its name, attributes
    and contents, in order, the later ones moved down by the pages of [p]; the
    freed pages join the erased rest. *)
Theorem remove_refines s name pre p suf r :
  mounted s (pre ++ p :: suf) (Some r) ->
  named s name p = true -> (forall x, x ∈ pre -> named s name x = false) ->
  let gap := span (mem s) p in
  let files := pre ++ map (fun x => x - gap) suf in
  exists s', tinyfs_remove name s = Ok (0, s') /\
    mounted s' files (Some (r - gap)) /\
    map (abs_file (mem s')) files = map (abs_file (mem s)) (pre ++ suf).
Proof using.
  intros Hm Hp Hpre gap files. pose proof Hm as (Hi & G & Hl). pose proof (geo_first _ _ G) as Haf.
  assert (p ∈ pre ++ p :: suf) as Hpin by (apply elem_of_app; right; apply list_elem_of_here).
  destruct (layout_elem _ _ G _ _ _ _ _ Hl Haf Hpin) as (Hfp & Hap & Hz & Hpe).
  destruct (layout_flash_header _ _ _ _ _ _ G Hl Hpin) as (Hh & _ & Hfe).
  pose proof (span_ok _ _ Hz) as (Hs1 & _ & Has).
  pose proof (layout_suffix _ _ _ _ _ _ _ _ Hl) as Hls.
  inversion Hls as [| |? ? ? _ Hplt Hpn Hrest]; simplify_eq. fold gap in Hplt, Hpn, Hrest.
  destruct (flash_file_spec s p Hh Hz Hfe) as (d0 & Hd0 & He0 & Ho0). fold gap in He0, Ho0.
  destruct (remove_loop_spec (S max_files) (set_dev s d0) p (p + gap) suf r)
    as (d & Hd & Hl' & Ha' & Ho').
  - done.
  - done.
  - eapply (layout_ext _ _ G (mem s)); [done|]. intros b Hb. apply Ho0. lia.
  - done.
  - done.
  - by apply aligned_add.
  - unfold gap in *. lia.
  - by replace (p + gap - p) with gap by lia.
  - pose proof (layout_fuel _ _ G _ _ _ _ Hl ltac:(lia)) as Hfu.
    rewrite length_app in Hfu. cbn in Hfu. lia.
  - replace (p + gap - p) with gap in * by lia.
    cbn [first_page last_page set_dev] in Hl', Ho'. change (mem (set_dev s d0)) with (cells d0) in Ho', Ha'.
    exists (set_dev s d). split_and!.
    + by eapply (remove_runs s name pre p suf r d0 d).
    + split; [done|]. split; [done|].
      eapply layout_replace; [exact Hl|done|done| |exact Hl'].
      intros b Hb. change (mem (set_dev s d)) with (cells d). rewrite Ho' by lia. apply Ho0. lia.
    + unfold files. rewrite !map_app. change (mem (set_dev s d)) with (cells d). f_equal.
      * apply map_ext_in. intros y Hy%list_elem_of_In.
        assert (y ∈ pre ++ p :: suf) as Hyin by (apply elem_of_app; by left).
        destruct (layout_elem _ _ G _ _ _ _ _ Hl Haf Hyin) as (_ & _ & Hzy & _).
        apply abs_file_ext; [done|]. intros b Hb.
        assert (y + span (mem s) y <= p) by (eapply layout_prefix_below; eauto).
        rewrite Ho' by lia. apply Ho0. lia.
      * rewrite Ha'. apply map_ext_in. intros y Hy%list_elem_of_In.
        destruct (layout_elem _ _ G _ _ _ _ _ Hrest ltac:(by apply aligned_add) Hy)
          as (Hy1 & _ & Hzy & _).
        apply abs_file_ext; [done|]. intros b Hb. apply Ho0. lia.
Qed.

(** Removing a name that no reported file has changes nothing. *)
Theorem remove_missing s l e name :
  mounted s l e -> find (named s name) (visible l e) = None ->
  tinyfs_remove name s = Ok (-1, s).
Proof using.
  intros Hm Hf. pose proof Hm as (Hi & _). unfold tinyfs_remove. read. rewrite Hi.
  cbn [negb Z.eqb TINYFS_INITIALIZED Pos.eqb].
  erewrite cmd_bind_Ok by (eapply file_search_aux; exact Hm). rewrite Hf. done.
Qed.
End Consolidate.
