(* ===== verification/XipFsDemo.v ===== *)
(** * A small file system, evaluated

    A flash with four pages for the file system is created, filled and changed by
    running the operations of [XipFs]; the states reached discharge the
    hypotheses of the theorems, and show what happens at the edges the theorems
    exclude: a full system, a file larger than the space left, a body that fills
    its last page. *)

From stdpp Require Import base gmap list.
From Stdlib Require Import ZArith Lia.
From S2P Require Import Prelude Flash XipFs XipFsSpec XipFsOps XipFsAdmin XipFsRemove.

Local Open Scope Z_scope.

(** ** Checking a layout *)

Definition erasedb (m : memory) (a n : Z) : bool :=
  forallb (Z.eqb FLASHPAGE_ERASE_STATE) (rd_bytes m a (Z.to_nat n)).

Lemma erasedb_ok m a n : erasedb m a n = true -> erased m a n.
Proof.
  intros H b Hb. unfold erasedb in H. rewrite forallb_forall in H.
  symmetry. apply Z.eqb_eq, H, list_elem_of_In, list_elem_of_lookup.
  exists (Z.to_nat (b - a)). rewrite lookup_rd_bytes by lia. do 2 f_equal. lia.
Qed.

(** Reads the files of a layout off the flash. *)
Fixpoint scan (fuel : nat) (m : memory) (first last p : Z) : option (list Z * option Z) :=
  match fuel with
  | O => None
  | S fuel =>
      if (p <? last) && erasedb m p (last - p) then Some ([], Some p)
      else if negb ((0 <? file_size m p) && (file_size m p <=? FILESIZE_MAX)) then None
      else
        let q := p + span m p in
        if (q =? last) && (file_next m p =? first) then Some ([p], None)
        else if (q <? last) && (file_next m p =? q) then
          match scan fuel m first last q with
          | Some (l, e) => Some (p :: l, e)
          | None => None
          end
        else None
  end.

Lemma scan_ok fuel m first last p l e :
  scan fuel m first last p = Some (l, e) -> layout m first last p l e.
Proof.
  revert p l e. induction fuel as [|fuel IH]; intros p l e H; cbn [scan] in H; cbv zeta in H; [done|].
  destruct ((p <? last) && erasedb m p (last - p)) eqn:E1.
  { apply andb_prop in E1 as [Hp He]. simplify_eq. apply lay_free; [lia|by apply erasedb_ok]. }
  destruct (negb ((0 <? file_size m p) && (file_size m p <=? FILESIZE_MAX))) eqn:E2; [done|]. apply negb_false_iff, andb_prop in E2 as [Hz1 Hz2].
  assert (size_ok (file_size m p)) as Hz by (unfold size_ok; lia).
  destruct ((p + span m p =? last) && (file_next m p =? first)) eqn:E3.
  { apply andb_prop in E3 as [Hq Hn]. simplify_eq. apply lay_full; [done|lia|lia]. }
  destruct ((p + span m p <? last) && (file_next m p =? p + span m p)) eqn:E4; [|done]. apply andb_prop in E4 as [Hq Hn].
  destruct (scan fuel m first last (p + span m p)) as [[l' e']|] eqn:Hs; [|done]. simplify_eq.
  apply lay_file; [done|lia|lia|by apply IH].
Qed.

Definition geometryb (first last : Z) : bool :=
  (first mod FLASHPAGE_SIZE =? 0) && (last mod FLASHPAGE_SIZE =? 0) && (0 <? first)
  && (first <? last) && (last + FLASHPAGE_SIZE <=? FLASHPAGE_SIZE * FLASHPAGE_NUMOF).

Lemma geometryb_ok first last : geometryb first last = true -> geometry first last.
Proof.
  unfold geometryb. rewrite !andb_true_iff. intros ((((?&?)&?)&?)&?). split; lia.
Qed.

(** The files of a state, if it is a mounted file system. *)
Definition files_of (s : tinyfs) : option (list Z * option Z) :=
  if (module_init s =? TINYFS_INITIALIZED) && geometryb (first_page s) (last_page s)
  then scan (S max_files) (mem s) (first_page s) (last_page s) (first_page s)
  else None.

Lemma files_of_ok s l e : files_of s = Some (l, e) -> mounted s l e.
Proof.
  unfold files_of. destruct (_ && _) eqn:E; [|done]. apply andb_prop in E as [Hi G].
  intros H%scan_ok. split; [lia|]. split; [by apply geometryb_ok|done].
Qed.

(** ** The example *)

Definition run {A} (c : fs A) (s : tinyfs) : tinyfs :=
  match c s with Ok (_, s') => s' | Err _ => s end.
Definition result {A} (c : fs A) (s : tinyfs) : option A :=
  match c s with Ok (a, _) => Some a | Err _ => None end.

Definition base : Z := 0x28000.
(** Five erased pages; the file system gets the first four. *)
Definition blank : nvmc :=
  mkNvmc NVMC_CONFIG_WEN_Ren (fold_left erase_page (map (fun i => base + i * FLASHPAGE_SIZE) (seqZ 0 5)) ∅).
Definition unmounted : tinyfs := mkFs 0 0 0 blank.
Definition empty : tinyfs := run (tinyfs_init 0x28000 0x2d000) unmounted.

Definition name_a : list Z := [97; 46; 98; 105; 110].
Definition name_b : list Z := [98].
Definition name_c : list Z := [99].

Definition one : tinyfs := run (tinyfs_create_file name_a 100 0 TINYFS_STATUS_CREATED) empty.
Definition two : tinyfs := run (tinyfs_create_file name_b 5000 1 TINYFS_STATUS_LOADING) one.
Definition data : list Z := [1; 2; 3; 4; 5].
Definition written : tinyfs := run (tinyfs_file_write 0x29000 7 (Ram 0 data) 5) two.

Example empty_files : files_of empty = Some ([], Some 0x28000).
Proof. vm_compute. reflexivity. Qed.
Example one_files : files_of one = Some ([0x28000], Some 0x29000).
Proof. vm_compute. reflexivity. Qed.
Example two_files : files_of two = Some ([0x28000; 0x29000], Some 0x2b000).
Proof. vm_compute. reflexivity. Qed.
Example written_files : files_of written = Some ([0x28000; 0x29000], Some 0x2b000).
Proof. vm_compute. reflexivity. Qed.

(** ** The theorems at the example *)

Definition wordsb (l : list Z) : bool := forallb (fun c => (0 <=? c) && (c <? 256)) l.

Lemma wordsb_ok l : wordsb l = true -> Forall (is_word 8) l.
Proof.
  unfold wordsb. rewrite forallb_forall, Forall_forall. intros H c Hc%list_elem_of_In.
  apply H, andb_prop in Hc as [? ?]. unfold is_word. lia.
Qed.

Lemma c_stringb_ok l : wordsb l && forallb (fun c => negb (c =? 0)) l = true -> c_string l.
Proof.
  rewrite andb_true_iff. intros [Hw%wordsb_ok Hz]. rewrite forallb_forall in Hz.
  apply Forall_forall. intros c Hc. split; [by eapply Forall_forall in Hw|].
  apply list_elem_of_In, Hz, negb_true_iff in Hc. lia.
Qed.

(** A statement about every element of a concrete list, by evaluation. *)
Lemma elem_check (f : Z -> bool) l : forallb (fun x => negb (f x)) l = true -> forall x, x ∈ l -> f x = false.
Proof. rewrite forallb_forall. intros H x Hx%list_elem_of_In%H. by apply negb_true_iff. Qed.

Lemma write_and_verify_ok_witness :
  exists d', flashpage_write_and_verify 3 4 (replicate (Z.to_nat 4096) 17) blank = Ok (FLASHPAGE_OK, d').
Proof.
  destruct (write_and_verify_ok 3 4 (replicate (Z.to_nat 4096) 17) blank) as (d' & H & _).
  - unfold FLASHPAGE_NUMOF. lia.
  - lia.
  - reflexivity.
  - apply length_replicate.
  - apply Forall_replicate. unfold is_word. lia.
  - exists d'. exact H.
Defined.

Lemma create_file_appends_witness :
  exists s', tinyfs_create_file name_c 10 0 TINYFS_STATUS_CREATED two = Ok (0x2b000, s') /\
    mounted s' [0x28000; 0x29000; 0x2b000] None.
Proof.
  destruct (create_file_appends two [0x28000; 0x29000] 0x2b000 name_c 10 0 TINYFS_STATUS_CREATED)
    as (s' & Hc & Hm & _).
  - apply files_of_ok. exact two_files.
  - unfold size_ok. vm_compute. split; [reflexivity|discriminate].
  - left. reflexivity.
  - vm_compute. split; [discriminate|reflexivity].
  - apply wordsb_ok. reflexivity.
  - vm_compute. discriminate.
  - exists s'. split; [exact Hc|exact Hm].
Defined.

Lemma file_search_spec_witness :
  let hit := find (named two name_b) (visible [0x28000; 0x29000] (Some 0x2b000)) in
  tinyfs_file_search name_b two = Ok (default NULL hit, two) /\ hit = Some 0x29000.
Proof.
  split.
  - apply (file_search_spec two [0x28000; 0x29000] (Some 0x2b000)).
    apply files_of_ok. exact two_files.
  - vm_compute. reflexivity.
Defined.

Lemma create_then_search_witness :
  exists s', tinyfs_create_file name_b 100 1 TINYFS_STATUS_LOADED one = Ok (0x29000, s') /\
    tinyfs_file_search name_b s' = Ok (0x29000, s').
Proof.
  apply (create_then_search one [0x28000] 0x29000 name_b 100 1 TINYFS_STATUS_LOADED).
  - apply files_of_ok. exact one_files.
  - unfold size_ok. vm_compute. split; [reflexivity|discriminate].
  - right. reflexivity.
  - vm_compute. split; [discriminate|reflexivity].
  - apply c_stringb_ok. reflexivity.
  - cbn. lia.
  - apply elem_check. vm_compute. reflexivity.
  - vm_compute. reflexivity.
Defined.

Lemma file_write_refines_witness :
  exists s', tinyfs_file_write 0x29000 7 (Ram 0 data) 5 two = Ok (0, s') /\
    mounted s' [0x28000; 0x29000] (Some 0x2b000).
Proof.
  destruct (file_write_refines two [0x28000; 0x29000] (Some 0x2b000) 0x29000 7 0 data)
    as (s' & Hw & Hm & _).
  - apply files_of_ok. exact two_files.
  - apply list_elem_of_In. right. left. reflexivity.
  - discriminate.
  - apply wordsb_ok. reflexivity.
  - lia.
  - vm_compute. discriminate.
  - vm_compute. discriminate.
  - apply clears_erased; [apply wordsb_ok; reflexivity|].
    apply erasedb_ok. vm_compute. reflexivity.
  - exists s'. split; [exact Hw|exact Hm].
Defined.

Lemma file_status_table_witness :
  exists s', tinyfs_file_status 0x29000 TINYFS_STATUS_LOADED two = Ok (0, s') /\
    file_status (mem s') 0x29000 = TINYFS_STATUS_LOADED.
Proof.
  destruct (file_status_table two 0x29000 TINYFS_STATUS_LOADED) as (s' & H1 & H2 & _).
  - unfold flash_header. vm_compute. split; [discriminate|split; [reflexivity|discriminate]].
  - replace (file_status (mem two) 0x29000) with TINYFS_STATUS_LOADING by (vm_compute; reflexivity).
    apply list_elem_of_In. right. left. reflexivity.
  - apply list_elem_of_In. left. reflexivity.
  - replace (file_status (mem two) 0x29000) with TINYFS_STATUS_LOADING in H1, H2
      by (vm_compute; reflexivity).
    exists s'. split; [exact H1|exact H2].
Defined.

Lemma format_empties_witness :
  exists s', tinyfs_format two = Ok (tt, s') /\ mounted s' [] (Some 0x28000).
Proof.
  destruct (format_empties two) as (s' & H1 & H2 & _).
  - vm_compute. reflexivity.
  - apply geometryb_ok. vm_compute. reflexivity.
  - exists s'. split; [exact H1|exact H2].
Defined.

Lemma cleanup_resets_witness :
  exists s', _tinyfs_cleanup written = Ok (tt, s') /\
    abs_file (mem s') 0x29000 = reset_file (abs_file (mem written) 0x29000).
Proof.
  destruct (cleanup_resets written [0x28000; 0x29000] (Some 0x2b000)) as (s' & H1 & _ & H2).
  - apply files_of_ok. exact written_files.
  - exists s'. split; [exact H1|]. rewrite H2.
    + unfold reset_some. rewrite decide_True; [reflexivity|].
      apply list_elem_of_In. right. left. reflexivity.
    + apply list_elem_of_In. right. left. reflexivity.
Defined.

Lemma init_at_boot_witness :
  let s := mkFs 0 0 0 (dev written) in
  let first := ROUND 0x28000 FLASHPAGE_SIZE in
  let last := u32 (TRUNC 0x2d000 FLASHPAGE_SIZE - FLASHPAGE_SIZE) in
  tinyfs_init 0x28000 0x2d000 s = Ok (0, mkFs first last TINYFS_INITIALIZED (dev s)).
Proof.
  intros s. apply (init_at_boot s 0x28000 0x2d000).
  - discriminate.
  - vm_compute. reflexivity.
Defined.

Lemma remove_refines_witness :
  exists s', tinyfs_remove name_a written = Ok (0, s') /\ mounted s' [0x28000] (Some 0x2a000) /\
    abs_file (mem s') 0x28000 = abs_file (mem written) 0x29000.
Proof.
  destruct (remove_refines written name_a [] 0x28000 [0x29000] 0x2b000) as (s' & H1 & H2 & H3).
  - apply files_of_ok. exact written_files.
  - vm_compute. reflexivity.
  - intros x Hx. apply elem_of_nil in Hx. destruct Hx.
  - replace (span (mem written) 0x28000) with 0x1000 in H2, H3 by (vm_compute; reflexivity).
    exists s'. split; [exact H1|]. split; [exact H2|].
    apply (f_equal head) in H3. cbn [app map head] in H3. apply (inj Some) in H3. exact H3.
Defined.

(** ** The edges *)

Definition full : tinyfs := run (tinyfs_create_file name_c 10 0 TINYFS_STATUS_CREATED) two.
Definition full_minus_a : tinyfs := run (tinyfs_remove name_a) full.
Definition name_d : list Z := [100].
Definition reused : tinyfs := run (tinyfs_create_file name_d 5000 0 TINYFS_STATUS_CREATED) full_minus_a.

(** A full system loses its last file: the file at 0x2b000 ends at the last page,
    so it is on the flash but search does not find it; removing an earlier file
    does not move it, and the file created next is given its page although it is
    not erased. *)
Theorem full_system_loses_last :
  files_of full = Some ([0x28000; 0x29000; 0x2b000], None) /\
  strncmp 32 (file_name (mem full) 0x2b000) name_c = 0 /\
  result (tinyfs_file_search name_c) full = Some NULL /\
  result (tinyfs_remove name_a) full = Some 0 /\
  files_of full_minus_a = None /\
  result (tinyfs_create_file name_d 5000 0 TINYFS_STATUS_CREATED) full_minus_a = Some 0x2a000 /\
  span (mem reused) 0x2a000 = 0x2000 /\
  strncmp 32 (file_name (mem reused) 0x2b000) name_c = 0.
Proof. vm_compute. repeat split. Qed.

Definition oversize : tinyfs := run (tinyfs_create_file name_a 20480 0 TINYFS_STATUS_CREATED) empty.

(** Creation does not compare the size with the space left: a file of five pages
    is accepted on four, and the next file is created outside the file system. *)
Theorem create_escapes_bounds :
  last_page empty = 0x2c000 /\
  result (tinyfs_create_file name_a 20480 0 TINYFS_STATUS_CREATED) empty = Some 0x28000 /\
  result (tinyfs_create_file name_b 1 0 TINYFS_STATUS_CREATED)
    (mkFs (first_page oversize) (last_page oversize) (module_init oversize)
       (mkNvmc 0 (erase_page (cells (dev oversize)) 0x2d000))) = Some 0x2d000.
Proof. vm_compute. repeat split. Qed.

Definition filled : tinyfs :=
  run (tinyfs_create_file name_b 10 0 TINYFS_STATUS_CREATED)
    (run (tinyfs_create_file name_a 4096 0 TINYFS_STATUS_CREATED) empty).

(** The pages of a file are computed without its header: the last 48 bytes of a
    file of 4096 bytes are the header of the next file, and a write that is
    within the size of the first overwrites the name of the second. *)
Theorem write_spills_into_next :
  files_of filled = Some ([0x28000; 0x29000], Some 0x2a000) /\
  result (tinyfs_file_search name_b) filled = Some 0x29000 /\
  result (tinyfs_file_write 0x28000 4048 (Ram 0 [0]) 1) filled = Some 0 /\
  result (tinyfs_file_search name_b)
    (run (tinyfs_file_write 0x28000 4048 (Ram 0 [0]) 1) filled) = Some NULL.
Proof. vm_compute. repeat split. Qed.
