(* ===== verification/Crt0.v ===== *)
(** * The start-up code of position-independent partitions

    Models [06-rbpf-bench/crt0/crt0.c] with the metadata of [crt0.h] and the
    memory description of [interface.h]: the section layout, the copy of
    [.rom.ram], the clearing of [.ram], the relocation of the GOT and of the
    global pointers, and the call of the entry point.  [die] stops the program,
    so it is an error; the linker symbol [__metadataOff] and the entry point are
    arguments.  The description of the memory and the table of system calls are in the memory, at
    the addresses given to [_start]. *)

From stdpp Require Import base gmap list.
From Stdlib Require Import ZArith Lia.
From S2P Require Import Prelude Flash.

Local Open Scope Z_scope.

(** The messages of [die], and a loop that does not end. *)
Inductive stop := NotEnoughRam | OffsetOutside | PtrInRom | OffInGot | Spins.

Record interface_t := mkInterface {
  partDescBlockId : Z; stackLimit : Z; stackTop : Z; vidtStart : Z; vidtEnd : Z;
  root : Z; unusedRomStart : Z; romEnd : Z; unusedRamStart : Z; ramEnd : Z
}.

Definition off_unusedRomStart : Z := 24.
Definition off_unusedRamStart : Z := 32.

(** The structure at an address. *)
Definition interface_at (m : memory) (a : Z) : interface_t :=
  let member i := rd32 m (u32 (a + 4 * i)) in
  mkInterface (member 0) (member 1) (member 2) (member 3) (member 4) (member 5) (member 6) (member 7)
    (member 8) (member 9).

(** [symbolTable_t] and the head of [patchinfoTable_t], read from the binary. *)
Record symbolTable_t := mkSymbols {
  entryPoint : Z; romSecSize : Z; romRamSecSize : Z; ramSecSize : Z; gotSecSize : Z;
  romRamEnd : Z
}.

Definition symbols_at (m : memory) (a : Z) : symbolTable_t :=
  mkSymbols (rd32 m a) (rd32 m (u32 (a + 4))) (rd32 m (u32 (a + 8))) (rd32 m (u32 (a + 12)))
    (rd32 m (u32 (a + 16))) (rd32 m (u32 (a + 20))).
Definition entryNumber (m : memory) (metadata : Z) : Z := rd32 m (u32 (metadata + 24)).
Definition ptrOff (m : memory) (metadata i : Z) : Z := rd32 m (u32 (metadata + 28 + 4 * i)).

(** ** [memcpy] *)

(** One of the three loops: blocks of [k] bytes while there are as many left.
    The inline assembly loads the whole block into registers, then stores it. *)
Fixpoint copy_loop (k : Z) (fuel : nat) (m : memory) (dest src n : Z) : memory * Z * Z * Z :=
  match fuel with
  | O => (m, dest, src, n)
  | S fuel =>
      if k <=? n then
        copy_loop k fuel (wr_bytes m dest (rd_bytes m src (Z.to_nat k)))
          (u32 (dest + k)) (u32 (src + k)) (n - k)
      else (m, dest, src, n)
  end.

Definition memcpy (m : memory) (dest src n : Z) : memory * Z :=
  let '(m, dest, src, n) := copy_loop 44 (Z.to_nat n) m dest src n in
  let '(m, dest, src, n) := copy_loop 8 (Z.to_nat n) m dest src n in
  let '(m, dest, src, n) := copy_loop 1 (Z.to_nat n) m dest src n in
  (m, dest).

(** ** Sections *)

Record sections := mkSections {
  symbols : symbolTable_t;
  metadata : Z;
  romSecAddr : Z; gotSecAddr : Z; romRamSecAddr : Z; entryPointAddr : Z;
  relGotSecAddr : Z; relRomRamSecAddr : Z; relRamSecAddr : Z
}.

Definition sections_of (m : memory) (metadataOff : Z) (i : interface_t) : sections :=
  let metadata := u32 (root i + metadataOff) in
  let st := symbols_at m metadata in
  let romSecAddr := u32 (metadata + 24 + 4 + entryNumber m metadata * 4) in
  let gotSecAddr := u32 (romSecAddr + romSecSize st) in
  let romRamSecAddr := u32 (gotSecAddr + gotSecSize st) in
  let entryPointAddr := u32 (romSecAddr + entryPoint st) in
  let relGotSecAddr := unusedRamStart i in
  let relRomRamSecAddr := u32 (relGotSecAddr + gotSecSize st) in
  let relRamSecAddr := u32 (relRomRamSecAddr + romRamSecSize st) in
  mkSections st metadata romSecAddr gotSecAddr romRamSecAddr entryPointAddr
    relGotSecAddr relRomRamSecAddr relRamSecAddr.

Definition enough_ram (s : sections) (ramEndAddr : Z) : bool :=
  negb ((ramEndAddr <? u32 (relGotSecAddr s + gotSecSize (symbols s)))
        || (ramEndAddr <? u32 (relRomRamSecAddr s + romRamSecSize (symbols s)))
        || (ramEndAddr <? u32 (relRamSecAddr s + ramSecSize (symbols s)))).

(** ** Clearing [.ram] *)

Fixpoint clear_loop (fuel : nat) (s : sections) (i : Z) (m : memory) : res stop memory :=
  match fuel with
  | O => Err Spins
  | S fuel =>
      if u32 (4 * i) <? ramSecSize (symbols s) then
        clear_loop fuel s (i + 1) (wr32 m (u32 (relRamSecAddr s + 4 * i)) 0)
      else Ok m
  end.

(** ** The GOT *)

(** The address of an offset into the binary after loading. *)
Definition got_address (s : sections) (off : Z) : res stop Z :=
  let st := symbols s in
  if off <? romSecSize st then Ok (u32 (romSecAddr s + off))
  else
    let off := u32 (off - romSecSize st) in
    if off <? gotSecSize st then Ok (u32 (relGotSecAddr s + off))
    else
      let off := u32 (off - gotSecSize st) in
      if off <? romRamSecSize st then Ok (u32 (relRomRamSecAddr s + off))
      else
        let off := u32 (off - romRamSecSize st) in
        if off <? ramSecSize st then Ok (u32 (relRamSecAddr s + off))
        else Err OffsetOutside.

Fixpoint got_loop (fuel : nat) (s : sections) (i : Z) (m : memory) : res stop memory :=
  match fuel with
  | O => Err Spins
  | S fuel =>
      if u32 (4 * i) <? gotSecSize (symbols s) then
        let off := rd32 m (u32 (gotSecAddr s + 4 * i)) in
        addr ← got_address s off;
        got_loop fuel s (i + 1) (wr32 m (u32 (relGotSecAddr s + 4 * i)) addr)
      else Ok m
  end.

(** ** Global pointers *)

(** Where the pointer to patch is, and what it points to. *)
Definition pointer_address (s : sections) (ptrOff : Z) : res stop Z :=
  let st := symbols s in
  if ptrOff <? romSecSize st then Err PtrInRom
  else
    let ptrOff := u32 (ptrOff - romSecSize st) in
    if ptrOff <? gotSecSize st then Err OffInGot
    else
      let ptrOff := u32 (ptrOff - gotSecSize st) in
      if ptrOff <? romRamSecSize st then Ok (u32 (relRomRamSecAddr s + ptrOff))
      else
        let ptrOff := u32 (ptrOff - romRamSecSize st) in
        if ptrOff <? ramSecSize st then Ok (u32 (relRamSecAddr s + ptrOff))
        else Err OffsetOutside.

Definition pointer_value (s : sections) (off : Z) : res stop Z :=
  let st := symbols s in
  if off <? romSecSize st then Ok (u32 (romSecAddr s + off))
  else
    let off := u32 (off - romSecSize st) in
    if off <? gotSecSize st then Err OffInGot
    else
      let off := u32 (off - gotSecSize st) in
      if off <? romRamSecSize st then Ok (u32 (relRomRamSecAddr s + off))
      else
        let off := u32 (off - romRamSecSize st) in
        if off <? ramSecSize st then Ok (u32 (relRamSecAddr s + off))
        else Err OffsetOutside.

(** [n] entries left, the next one has index [i]. *)
Fixpoint patch_loop (n : nat) (s : sections) (i : Z) (m : memory) : res stop memory :=
  match n with
  | O => Ok m
  | S n =>
      let p := ptrOff m (metadata s) i in
      let off := rd32 m (u32 (romSecAddr s + p)) in
      ptrAddr ← pointer_address s p;
      addr ← pointer_value s off;
      patch_loop n s (i + 1) (wr32 m ptrAddr addr)
  end.

(** ** [_start] *)

(** The arguments of the entry point and the memory it starts in. *)
Record launch := mkLaunch {
  l_memory : memory; l_interface : Z; l_entry : Z; l_got : Z
}.

(** The stores to [interface->unusedRamStart] and [interface->unusedRomStart]. *)
Definition update_interface (m : memory) (metadataOff : Z) (s : sections) (interface : Z) : memory :=
  let m := wr32 m (u32 (interface + off_unusedRamStart)) (u32 (relRamSecAddr s + ramSecSize (symbols s))) in
  wr32 m (u32 (interface + off_unusedRomStart))
    (u32 (rd32 m (u32 (interface + off_unusedRomStart)) + metadataOff + 28 + romRamEnd (symbols_at m (metadata s)))).

Definition load (m : memory) (metadataOff interface : Z) : res stop launch :=
  let i := interface_at m interface in
  let s := sections_of m metadataOff i in
  if negb (enough_ram s (ramEnd i)) then Err NotEnoughRam
  else
    let m := update_interface m metadataOff s interface in
    let m := fst (memcpy m (relRomRamSecAddr s) (romRamSecAddr s) (romRamSecSize (symbols s))) in
    m ← clear_loop (S (Z.to_nat (ramSecSize (symbols s) / 4 + 1))) s 0 m;
    m ← got_loop (S (Z.to_nat (gotSecSize (symbols s) / 4 + 1))) s 0 m;
    m ← patch_loop (Z.to_nat (entryNumber m (metadata s))) s 0 m;
    Ok (mkLaunch m interface (entryPointAddr s) (relGotSecAddr s)).

(** What happens when the entry point returns: the system call named by the
    table, the Pip service, or an endless loop. *)
Inductive ending := CallExit (handler status : Z) | YieldToParent | Forever.

Definition finish (m : memory) (syscalls exit status : Z) : ending :=
  if negb (exit =? 0) then
    if rd32 m syscalls =? 0 then CallExit exit status else YieldToParent
  else Forever.

(** [entry] is the program: its status and the memory it leaves. *)
Definition _start (entry : launch -> Z -> Z * memory) (m : memory) (metadataOff interface syscalls : Z)
  : res stop (launch * ending) :=
  let exit := if negb (syscalls =? 0) then rd32 m (u32 (syscalls + 4)) else 0 in
  l ← load m metadataOff interface;
  let '(status, m) := entry l syscalls in
  Ok (l, finish m syscalls exit status).
