(* ===== verification/Crt0Spec.v ===== *)
(** * What the start-up code establishes

    [memcpy] copies, the section tests compute one relocation function, and a
    successful load leaves a relocated image: every GOT entry and every patched
    pointer holds the loaded address of what it names, initialised data are
    copied, the rest is zero, and outside the claimed RAM only the two members of the
    memory description that start-up updates have changed. *)

From stdpp Require Import base gmap list.
From Stdlib Require Import ZArith Lia.
From S2P Require Import Prelude Flash Crt0.

Local Open Scope Z_scope.

(** ** [memcpy] *)

(** Ranges that do not overlap, inside the address space. *)
Definition disjoint_copy (dest src n : Z) : Prop :=
  0 <= dest /\ 0 <= src /\ 0 <= n /\ dest + n < 2 ^ 32 /\ src + n < 2 ^ 32 /\
  (dest + n <= src \/ src + n <= dest).

Lemma copy_loop_spec k fuel m dest src n :
  0 < k -> disjoint_copy dest src n -> n <= Z.of_nat fuel ->
  let c := k * (n / k) in
  copy_loop k fuel m dest src n =
  (wr_bytes m dest (rd_bytes m src (Z.to_nat c)), dest + c, src + c, n - c).
Proof.
  intros Hk. revert m dest src n. induction fuel as [|fuel IH]; intros m dest src n Hd Hf c.
  - destruct Hd as (?&?&?&_). assert (n = 0) as -> by lia. unfold c.
    rewrite Z.div_0_l, Z.mul_0_r, !Z.add_0_r, Z.sub_0_r by lia. done.
  - destruct Hd as (Hd0&Hs0&Hn0&Hd1&Hs1&Hsep). cbn [copy_loop].
    pose proof (Z.div_mod n k ltac:(lia)) as Hdm. pose proof (Z.mod_pos_bound n k Hk) as Hmb.
    destruct (Z.leb_spec k n) as [Hle|Hlt].
    + rewrite !(wrap_small 32) by (unfold is_word; lia).
      rewrite IH by (unfold disjoint_copy; lia).
      assert ((n - k) / k = n / k - 1) as ->.
      { replace (n - k) with (n + (-1) * k) by lia. rewrite Z.div_add by lia. lia. }
      assert (1 <= n / k) by (apply Z.div_le_lower_bound; lia).
      replace (k * (n / k - 1)) with (c - k) by (unfold c; lia).
      assert (k <= c <= n) as Hc by (unfold c in *; nia). clearbody c.
      replace (Z.to_nat c) with (Z.to_nat k + Z.to_nat (c - k))%nat by lia.
      rewrite rd_bytes_app, wr_bytes_app, length_rd_bytes, !Z2Nat.id by lia.
      f_equal; [f_equal; [f_equal|]|]; [|lia|lia|lia].
      f_equal. apply rd_bytes_ext. intros b Hb.
      apply rd8_wr_bytes_out. rewrite length_rd_bytes. lia.
    + assert (n / k = 0) as H0 by (apply Z.div_small; lia). unfold c. rewrite H0, Z.mul_0_r.
      cbn [Z.to_nat rd_bytes wr_bytes]. by rewrite !Z.add_0_r, Z.sub_0_r.
Qed.

(** The three loops together copy all bytes; the value returned is the end of
    the destination. *)
Lemma memcpy_copies m dest src n :
  disjoint_copy dest src n ->
  memcpy m dest src n = (wr_bytes m dest (rd_bytes m src (Z.to_nat n)), dest + n).
Proof.
  intros Hd. unfold memcpy. rewrite copy_loop_spec by (done || (destruct Hd; lia)).
  pose proof (Z.div_mod n 44 ltac:(lia)). pose proof (Z.mod_pos_bound n 44 ltac:(lia)).
  set (a := 44 * (n / 44)) in *. destruct Hd as (Hd0&Hs0&Hn0&Hd1&Hs1&Hsep).
  assert (0 <= a <= n) as Ha by lia. clearbody a.
  rewrite copy_loop_spec by (unfold disjoint_copy; lia).
  set (r := n - a) in *. pose proof (Z.div_mod r 8 ltac:(lia)).
  pose proof (Z.mod_pos_bound r 8 ltac:(lia)). set (b := 8 * (r / 8)) in *.
  assert (0 <= b <= r) as Hb by lia. clearbody b.
  rewrite copy_loop_spec by (unfold disjoint_copy; lia).
  rewrite Z.div_1_r, Z.mul_1_l. f_equal; [|lia].
  set (c := r - b). assert (n = a + b + c) as Hn by lia. assert (0 <= b /\ 0 <= c) as [Hb0 Hc] by lia.
  clearbody c. clear Hb. clearbody r. subst n.
  replace (Z.to_nat (a + b + c)) with (Z.to_nat a + (Z.to_nat b + Z.to_nat c))%nat by lia.
  rewrite !rd_bytes_app, !wr_bytes_app, !length_rd_bytes, !Z2Nat.id by lia.
  rewrite (rd_bytes_ext m (wr_bytes m dest (rd_bytes m src (Z.to_nat a))) (src + a)).
  2:{ intros x Hx. apply rd8_wr_bytes_out. rewrite length_rd_bytes. lia. }
  f_equal. apply rd_bytes_ext. intros x Hx.
  rewrite !rd8_wr_bytes_out by (rewrite length_rd_bytes; lia). done.
Qed.

(** ** The relocation function *)

(** Sizes and addresses of a loadable image: no address wraps around, the RAM
    part fits below [ramEnd], the image lies outside of it, and the linker
    padded the GOT and [.ram] to words. *)
Section Loading.
Variables (m : memory) (s : sections) (ram_end : Z).
Local Notation st := (symbols s).
Local Notation A := (relGotSecAddr s).
Local Notation total := (romSecSize st + gotSecSize st + romRamSecSize st + ramSecSize st).

Record loadable : Prop := mkLoadable {
  ld_rom : 0 <= romSecSize st; ld_got : 0 <= gotSecSize st;
  ld_romram : 0 <= romRamSecSize st; ld_ram : 0 <= ramSecSize st;
  ld_meta : 0 <= metadata s;
  ld_entries : metadata s + 28 + 4 * entryNumber m (metadata s) = romSecAddr s;
  ld_gotaddr : gotSecAddr s = romSecAddr s + romSecSize st;
  ld_romramaddr : romRamSecAddr s = gotSecAddr s + gotSecSize st;
  ld_image : romRamSecAddr s + romRamSecSize st < 2 ^ 32;
  ld_A : 0 <= A;
  ld_relromram : relRomRamSecAddr s = A + gotSecSize st;
  ld_relram : relRamSecAddr s = relRomRamSecAddr s + romRamSecSize st;
  ld_fits : relRamSecAddr s + ramSecSize st <= ram_end;
  ld_end : ram_end < 2 ^ 32;
  ld_total : total < 2 ^ 32;
  ld_apart : romRamSecAddr s + romRamSecSize st <= A \/ ram_end <= metadata s;
  ld_got4 : gotSecSize st mod 4 = 0;
  ld_ram4 : ramSecSize st mod 4 = 0
}.

Hypothesis L : loadable.

(** Where the byte at an offset of the linked image is after loading. *)
Definition place (off : Z) : Z :=
  if off <? romSecSize st then romSecAddr s + off else A + (off - romSecSize st).

Local Ltac split_tests :=
  repeat match goal with
  | |- context [?a <? ?b] => destruct (Z.ltb_spec a b)
  end.

Lemma entries_nonneg : 0 <= entryNumber m (metadata s).
Proof using. unfold entryNumber. pose proof (rd32_range m (u32 (metadata s + 24))) as H. apply H. Qed.

(** The four tests on a GOT entry compute [place], and stop exactly on offsets
    outside the image. *)
Lemma got_address_place off :
  0 <= off < 2 ^ 32 ->
  got_address s off = if off <? total then Ok (place off) else Err OffsetOutside.
Proof using L.
  intros Ho. pose proof entries_nonneg. destruct L. unfold got_address, place.
  destruct (Z.ltb_spec off (romSecSize st)).
  { rewrite (proj2 (Z.ltb_lt off total)) by lia. f_equal. apply wrap_small. unfold is_word. lia. }
  rewrite (wrap_small 32 (off - romSecSize st)) by (unfold is_word; lia).
  destruct (Z.ltb_spec (off - romSecSize st) (gotSecSize st)).
  { rewrite (proj2 (Z.ltb_lt off total)) by lia. f_equal. apply wrap_small. unfold is_word. lia. }
  rewrite (wrap_small 32 (off - romSecSize st - gotSecSize st)) by (unfold is_word; lia).
  destruct (Z.ltb_spec (off - romSecSize st - gotSecSize st) (romRamSecSize st)).
  { rewrite (proj2 (Z.ltb_lt off total)) by lia. f_equal. rewrite wrap_small; [lia|]. unfold is_word. lia. }
  rewrite (wrap_small 32 (off - romSecSize st - gotSecSize st - romRamSecSize st))
    by (unfold is_word; lia).
  destruct (Z.ltb_spec (off - romSecSize st - gotSecSize st - romRamSecSize st) (ramSecSize st)).
  - rewrite (proj2 (Z.ltb_lt off total)) by lia. f_equal. rewrite wrap_small; [lia|]. unfold is_word. lia.
  - rewrite (proj2 (Z.ltb_ge off total)) by lia. done.
Qed.

(** A pointer may be patched in [.rom.ram] and [.ram] only. *)
Lemma pointer_address_place p :
  romSecSize st + gotSecSize st <= p < total -> pointer_address s p = Ok (place p).
Proof using L.
  intros Hp. pose proof (got_address_place p ltac:(destruct L; lia)) as Hg.
  rewrite (proj2 (Z.ltb_lt p total)) in Hg by lia. rewrite <- Hg.
  destruct L. unfold pointer_address, got_address.
  rewrite (proj2 (Z.ltb_ge p _)) by lia.
  rewrite (wrap_small 32 (p - romSecSize st)) by (unfold is_word; lia).
  by rewrite (proj2 (Z.ltb_ge (p - romSecSize st) _)) by lia.
Qed.

(** A pointer may point anywhere in the image but into the GOT. *)
Lemma pointer_value_place off :
  0 <= off < total -> ~ (romSecSize st <= off < romSecSize st + gotSecSize st) ->
  pointer_value s off = Ok (place off).
Proof using L.
  intros Ho Hn. pose proof (got_address_place off ltac:(destruct L; lia)) as Hg.
  rewrite (proj2 (Z.ltb_lt off total)) in Hg by lia. rewrite <- Hg.
  destruct L. unfold pointer_value, got_address.
  destruct (Z.ltb_spec off (romSecSize st)); [done|].
  rewrite (wrap_small 32 (off - romSecSize st)) by (unfold is_word; lia).
  by rewrite (proj2 (Z.ltb_ge (off - romSecSize st) _)) by lia.
Qed.

(** ** The loops *)

Lemma rd8_wr32_zero mm a b : a <= b < a + 4 -> rd8 (wr32 mm a 0) b = 0.
Proof using.
  intros Hb. assert (b = a \/ b = a + 1 \/ b = a + 2 \/ b = a + 3) as Hc by lia.
  unfold wr32. cbn [wr_le]. change (0 / 256) with 0.
  destruct Hc as [-> | [-> | [-> | ->]]];
    repeat first [rewrite rd8_wr8_ne by lia |
      match goal with |- rd8 (wr8 _ ?x _) ?y = _ => replace y with x by lia end; rewrite rd8_wr8_eq];
    done.
Qed.

Lemma rd32_ext mm mm' a : same_on mm mm' a (a + 4) -> rd32 mm' a = rd32 mm a.
Proof using. intros H. apply rd_le_ext. exact H. Qed.

Lemma clear_loop_spec fuel mm i :
  0 <= i -> 4 * i <= ramSecSize st -> ramSecSize st - 4 * i < 4 * Z.of_nat fuel ->
  exists m', clear_loop fuel s i mm = Ok m' /\
    forall b, rd8 m' b = if decide (relRamSecAddr s + 4 * i <= b < relRamSecAddr s + ramSecSize st)
                         then 0 else rd8 mm b.
Proof using L.
  revert mm i. induction fuel as [|fuel IH]; intros mm i H0 Hi Hf; [lia|].
  cbn [clear_loop]. pose proof (Z_div_exact_full_2 _ 4 ltac:(lia) (ld_ram4 L)) as H4.
  pose proof entries_nonneg. pose proof L as [].
  rewrite (wrap_small 32 (4 * i)) by (unfold is_word; lia).
  destruct (Z.ltb_spec (4 * i) (ramSecSize st)).
  - rewrite (wrap_small 32) by (unfold is_word; lia).
    destruct (IH (wr32 mm (relRamSecAddr s + 4 * i) 0) (i + 1)) as (m' & Hm & Hr); [lia..|].
    exists m'. split; [done|]. intros b. rewrite Hr.
    destruct (decide (relRamSecAddr s + 4 * (i + 1) <= b < relRamSecAddr s + ramSecSize st)).
    + rewrite decide_True; [done|lia].
    + destruct (decide (relRamSecAddr s + 4 * i <= b < relRamSecAddr s + 4 * i + 4)).
      * rewrite rd8_wr32_zero by lia. rewrite decide_True; [done|lia].
      * rewrite rd8_wr32_out by lia. rewrite decide_False; [done|lia].
  - exists mm. split; [done|]. intros b. rewrite decide_False; [done|lia].
Qed.

(** The GOT entries of the image. *)
Definition got_entry (k : Z) : Z := rd32 m (gotSecAddr s + 4 * k).

Lemma got_loop_spec fuel mm i :
  0 <= i -> 4 * i <= gotSecSize st -> gotSecSize st - 4 * i < 4 * Z.of_nat fuel ->
  same_on m mm (gotSecAddr s) (gotSecAddr s + gotSecSize st) ->
  (forall k, 0 <= k < gotSecSize st / 4 -> got_entry k < total) ->
  exists m', got_loop fuel s i mm = Ok m' /\
    (forall k, i <= k < gotSecSize st / 4 -> rd32 m' (A + 4 * k) = place (got_entry k)) /\
    (forall b, b < A + 4 * i \/ A + gotSecSize st <= b -> rd8 m' b = rd8 mm b).
Proof using L.
  revert mm i. induction fuel as [|fuel IH]; intros mm i H0 Hi Hf Hsrc Hok; [lia|].
  cbn [got_loop]. pose proof (Z_div_exact_full_2 _ 4 ltac:(lia) (ld_got4 L)) as H4.
  pose proof entries_nonneg. pose proof L as [].
  rewrite (wrap_small 32 (4 * i)) by (unfold is_word; lia).
  destruct (Z.ltb_spec (4 * i) (gotSecSize st)).
  - rewrite !(wrap_small 32 (_ + 4 * i)) by (unfold is_word; lia).
    rewrite (rd32_ext m mm) by (eapply same_on_weaken; [exact Hsrc|lia|lia]).
    fold (got_entry i). assert (is_word 32 (got_entry i)) as Hw by apply rd32_range.
    rewrite got_address_place by exact Hw.
    specialize (Hok i ltac:(lia)) as Hi'. rewrite (proj2 (Z.ltb_lt _ _)) by lia.
    cbn [mbind res_bind].
    assert (is_word 32 (place (got_entry i))) as Hpl.
    { unfold is_word, place in *. destruct (Z.ltb_spec (got_entry i) (romSecSize st)); lia. }
    destruct (IH (wr32 mm (A + 4 * i) (place (got_entry i))) (i + 1)) as (m' & Hm & Hr & Ho).
    + lia. + lia. + lia.
    + intros b Hb. rewrite rd8_wr32_out by lia. by apply Hsrc.
    + done.
    + exists m'. split; [done|]. split.
      * intros k Hk. destruct (decide (k = i)) as [-> | Hne]; [|apply Hr; lia].
        rewrite (rd32_ext (wr32 mm (A + 4 * i) (place (got_entry i)))); [by apply rd32_wr32_same|].
        intros b Hb. apply Ho. lia.
      * intros b Hb. rewrite Ho by lia. apply rd8_wr32_out. lia.
  - exists mm. split; [done|]. split; [intros k Hk; lia|done].
Qed.

(** The pointers to patch: their offsets and what the image stores there. *)
Definition patch_off (j : Z) : Z := rd32 m (metadata s + 28 + 4 * j).
Definition patch_target (j : Z) : Z := rd32 m (romSecAddr s + patch_off j).
Local Notation patches := (entryNumber m (metadata s)).
Local Notation image_end := (romRamSecAddr s + romRamSecSize st).

(** Well-formed patch information: pointers of [.rom.ram] that do not overlap,
    to places of the image outside the GOT. *)
Record patches_ok : Prop := mkPatchesOk {
  po_where j : 0 <= j < patches ->
    romSecSize st + gotSecSize st <= patch_off j /\
    patch_off j + 4 <= romSecSize st + gotSecSize st + romRamSecSize st;
  po_target j : 0 <= j < patches ->
    patch_target j < total /\
    ~ (romSecSize st <= patch_target j < romSecSize st + gotSecSize st);
  po_apart j k : 0 <= j < patches -> 0 <= k < patches -> j <> k ->
    patch_off j + 4 <= patch_off k \/ patch_off k + 4 <= patch_off j
}.

Lemma patch_loop_spec n mm i :
  patches_ok -> 0 <= i -> i + Z.of_nat n = patches ->
  same_on m mm (metadata s) image_end ->
  exists m', patch_loop n s i mm = Ok m' /\
    (forall j, i <= j < patches -> rd32 m' (place (patch_off j)) = place (patch_target j)) /\
    (forall b, (forall j, i <= j < patches ->
                 b < place (patch_off j) \/ place (patch_off j) + 4 <= b) -> rd8 m' b = rd8 mm b).
Proof using L.
  intros PO. revert mm i. induction n as [|n IH]; intros mm i H0 Hn Hsrc.
  { exists mm. split; [done|]. split; [intros j Hj; lia|done]. }
  cbn [patch_loop]. pose proof entries_nonneg as Hent. pose proof L as [].
  destruct (po_where PO i ltac:(lia)) as [Hw1 Hw2].
  destruct (po_target PO i ltac:(lia)) as [Ht1 Ht2].
  assert (ptrOff mm (metadata s) i = patch_off i) as ->.
  { unfold ptrOff, patch_off. rewrite (wrap_small 32) by (unfold is_word; lia).
    apply rd32_ext. eapply same_on_weaken; [exact Hsrc|lia|lia]. }
  rewrite (wrap_small 32 (romSecAddr s + patch_off i)) by (unfold is_word; lia).
  rewrite (rd32_ext m mm) by (eapply same_on_weaken; [exact Hsrc|lia|lia]).
  fold (patch_target i). assert (is_word 32 (patch_target i)) as Hwt by apply rd32_range.
  rewrite pointer_address_place by lia. cbn [mbind res_bind].
  rewrite pointer_value_place by (unfold is_word in Hwt; lia). cbn [mbind res_bind].
  assert (forall j, 0 <= j < patches ->
    place (patch_off j) = A + (patch_off j - romSecSize st)) as Hpl.
  { intros j Hj. destruct (po_where PO j Hj). unfold place.
    rewrite (proj2 (Z.ltb_ge _ _)) by lia. done. }
  assert (is_word 32 (place (patch_target i))) as Hv.
  { unfold is_word, place in *. destruct (Z.ltb_spec (patch_target i) (romSecSize st)); lia. }
  pose proof (Hpl i ltac:(lia)) as Hpi.
  destruct (IH (wr32 mm (place (patch_off i)) (place (patch_target i))) (i + 1))
    as (m' & Hm & Hr & Ho).
  - lia.
  - lia.
  - intros b Hb. rewrite rd8_wr32_out by lia. by apply Hsrc.
  - exists m'. split; [done|]. split.
    + intros j Hj. destruct (decide (j = i)) as [-> | Hne]; [|apply Hr; lia].
      rewrite (rd32_ext (wr32 mm (place (patch_off i)) (place (patch_target i))));
        [by apply rd32_wr32_same|].
      intros b Hb. apply Ho. intros k Hk. rewrite (Hpl k) by lia.
      destruct (po_apart PO i k) as [Hap|Hap]; lia.
    + intros b Hb. rewrite Ho by (intros j Hj; apply Hb; lia).
      apply rd8_wr32_out. apply Hb. lia.
Qed.

(** ** The whole load *)

(** What the entry point finds in memory. *)
Record loaded (m' : memory) : Prop := mkLoaded {
  lo_got k : 0 <= k < gotSecSize st / 4 -> rd32 m' (A + 4 * k) = place (got_entry k);
  lo_patched j : 0 <= j < patches -> rd32 m' (place (patch_off j)) = place (patch_target j);
  lo_data b : relRomRamSecAddr s <= b < relRamSecAddr s ->
    (forall j, 0 <= j < patches -> b < place (patch_off j) \/ place (patch_off j) + 4 <= b) ->
    rd8 m' b = rd8 m (b - relRomRamSecAddr s + romRamSecAddr s);
  lo_bss b : relRamSecAddr s <= b < relRamSecAddr s + ramSecSize st -> rd8 m' b = 0
}.

Lemma loaded_stages :
  patches_ok -> (forall k, 0 <= k < gotSecSize st / 4 -> got_entry k < total) ->
  exists m', loaded m' /\
    (forall b, b < A \/ relRamSecAddr s + ramSecSize st <= b -> rd8 m' b = rd8 m b) /\
    (m1 ← clear_loop (S (Z.to_nat (ramSecSize st / 4 + 1))) s 0
            (fst (memcpy m (relRomRamSecAddr s) (romRamSecAddr s) (romRamSecSize st)));
     m2 ← got_loop (S (Z.to_nat (gotSecSize st / 4 + 1))) s 0 m1;
     patch_loop (Z.to_nat (entryNumber m2 (metadata s))) s 0 m2) = Ok m'.
Proof using L.
  intros PO GO. pose proof entries_nonneg as Hent. pose proof L as [].
  rewrite memcpy_copies by (unfold disjoint_copy; lia). cbn [fst].
  set (m0 := wr_bytes m (relRomRamSecAddr s) (rd_bytes m (romRamSecAddr s) (Z.to_nat (romRamSecSize st)))).
  assert (forall b, b < relRomRamSecAddr s \/ relRamSecAddr s <= b -> rd8 m0 b = rd8 m b) as F0.
  { intros b Hb. apply rd8_wr_bytes_out. rewrite length_rd_bytes. lia. }
  destruct (clear_loop_spec (S (Z.to_nat (ramSecSize st / 4 + 1))) m0 0) as (m1 & Hc & Hr1);
    [lia|lia|pose proof (Z.div_mod (ramSecSize st) 4 ltac:(lia));
             pose proof (Z.mod_pos_bound (ramSecSize st) 4 ltac:(lia)); lia|].
  assert (forall b, b < relRomRamSecAddr s \/ relRamSecAddr s + ramSecSize st <= b ->
            rd8 m1 b = rd8 m b) as F1.
  { intros b Hb. rewrite Hr1, decide_False by lia. apply F0. lia. }
  destruct (got_loop_spec (S (Z.to_nat (gotSecSize st / 4 + 1))) m1 0) as (m2 & Hg & Hr2 & F2);
    [lia|lia|pose proof (Z.div_mod (gotSecSize st) 4 ltac:(lia));
             pose proof (Z.mod_pos_bound (gotSecSize st) 4 ltac:(lia)); lia
    |intros b Hb; apply F1; lia|done|].
  assert (same_on m m2 (metadata s) image_end) as Himg.
  { intros b Hb. rewrite F2 by lia. apply F1. lia. }
  assert (entryNumber m2 (metadata s) = patches) as Hpn.
  { unfold entryNumber. rewrite (wrap_small 32) by (unfold is_word; lia).
    apply rd32_ext. eapply same_on_weaken; [exact Himg|lia|lia]. }
  destruct (patch_loop_spec (Z.to_nat patches) m2 0) as (m' & Hp & Hr3 & F3); [done|lia|lia|done|].
  exists m'.
  cut (loaded m' /\ forall b, b < A \/ relRamSecAddr s + ramSecSize st <= b -> rd8 m' b = rd8 m b).
  { intros [? ?]. split_and!; [done|done|].
    rewrite Hc. cbn [mbind res_bind]. rewrite Hg. cbn [mbind res_bind]. rewrite Hpn. exact Hp. }
  assert (forall j, 0 <= j < patches ->
    relRomRamSecAddr s <= place (patch_off j) /\ place (patch_off j) + 4 <= relRamSecAddr s) as Hin.
  { intros j Hj. destruct (po_where PO j Hj). unfold place. rewrite (proj2 (Z.ltb_ge _ _)); lia. }
  assert (forall b, b < relRomRamSecAddr s \/ relRamSecAddr s <= b -> rd8 m' b = rd8 m2 b) as F3'.
  { intros b Hb. apply F3. intros j Hj. specialize (Hin j Hj). lia. }
  split; [split|].
  - intros k Hk. rewrite <- Hr2 by lia. apply rd32_ext. intros b Hb. apply F3'.
    pose proof (Z_div_exact_full_2 _ 4 ltac:(lia) (ld_got4 L)). lia.
  - intros j Hj. apply Hr3. lia.
  - intros b Hb Hu. rewrite F3 by exact Hu. rewrite F2 by lia.
    rewrite Hr1, decide_False by lia. unfold m0.
    assert (b = relRomRamSecAddr s + Z.of_nat (Z.to_nat (b - relRomRamSecAddr s))) as Hbk by lia.
    rewrite Hbk at 1. erewrite rd8_wr_bytes_in by (apply lookup_rd_bytes; lia).
    rewrite wrap_small by apply rd8_range. f_equal. lia.
  - intros b Hb. rewrite F3' by lia. rewrite F2 by lia. rewrite Hr1. by rewrite decide_True by lia.
  - intros b Hb. rewrite F3' by lia. rewrite F2 by lia. apply F1. lia.
Qed.
End Loading.

(** ** Stores outside the image *)

Section SameImage.
Variables (m m1 : memory) (s : sections) (ram_end : Z).
Hypothesis L : loadable m s ram_end.
Hypothesis Same : same_on m m1 (metadata s) (romRamSecAddr s + romRamSecSize (symbols s)).

Lemma same_word a : metadata s <= a -> a + 4 <= romRamSecAddr s + romRamSecSize (symbols s) -> rd32 m1 a = rd32 m a.
Proof using Same. intros. apply rd32_ext. by eapply same_on_weaken. Qed.

Lemma same_entries : entryNumber m1 (metadata s) = entryNumber m (metadata s).
Proof using All.
  pose proof (entries_nonneg m s). pose proof L as []. unfold entryNumber.
  rewrite (wrap_small 32) by (unfold is_word; lia). apply same_word; lia.
Qed.

Lemma same_loadable : loadable m1 s ram_end.
Proof using All. pose proof same_entries as E. destruct L. constructor; try done. by rewrite E. Qed.

Lemma same_got k : 0 <= k < gotSecSize (symbols s) / 4 -> got_entry m1 s k = got_entry m s k.
Proof using All.
  intros Hk. pose proof (entries_nonneg m s). pose proof (Z_div_exact_full_2 _ 4 ltac:(lia) (ld_got4 _ _ _ L)).
  pose proof L as []. apply same_word; lia.
Qed.

Lemma same_patch_off j : 0 <= j < entryNumber m (metadata s) -> patch_off m1 s j = patch_off m s j.
Proof using All. intros Hj. pose proof L as []. apply same_word; lia. Qed.

Hypothesis PO : patches_ok m s.

Lemma same_patch_target j : 0 <= j < entryNumber m (metadata s) -> patch_target m1 s j = patch_target m s j.
Proof using All.
  intros Hj. unfold patch_target. rewrite same_patch_off by done. pose proof (entries_nonneg m s).
  pose proof L as []. destruct (po_where _ _ PO j Hj). apply same_word; lia.
Qed.

Lemma same_patches : patches_ok m1 s.
Proof using All.
  split; rewrite same_entries; intros.
  - rewrite same_patch_off by done. by apply PO.
  - rewrite same_patch_target by done. by apply PO.
  - rewrite !same_patch_off by done. by apply PO.
Qed.

Lemma same_loaded m' : loaded m1 s m' -> loaded m s m'.
Proof using All.
  intros [HG HP HD HB]. rewrite same_entries in HP, HD. split; intros.
  - rewrite <- same_got by done. by apply HG.
  - rewrite <- same_patch_off, <- same_patch_target by done. by apply HP.
  - rewrite HD; [|done|intros j Hj; rewrite same_patch_off by done; auto].
    pose proof (entries_nonneg m s). pose proof L as []. apply Same. lia.
  - by apply HB.
Qed.
End SameImage.

(** Where the memory description is: inside the address space, apart from the image and from
    the RAM the program claims. *)
Record placed (s : sections) (interface : Z) : Prop := mkPlaced {
  pl_range : 0 <= interface /\ interface + 40 < 2 ^ 32;
  pl_image : interface + 40 <= metadata s \/ romRamSecAddr s + romRamSecSize (symbols s) <= interface;
  pl_ram : interface + 40 <= relGotSecAddr s \/ relRamSecAddr s + ramSecSize (symbols s) <= interface
}.

Lemma interface_at_ext m m' a : 0 <= a -> a + 40 < 2 ^ 32 ->
  (forall b, a <= b < a + 40 -> rd8 m' b = rd8 m b) -> interface_at m' a = interface_at m a.
Proof.
  intros H0 H1 Hs. unfold interface_at. rewrite !(wrap_small 32) by (unfold is_word; lia).
  f_equal; apply rd32_ext; intros b Hb; apply Hs; lia.
Qed.

(** The stores to the description leave the rest of the memory, and of the description, alone. *)
Lemma update_interface_spec m metadataOff a ram_end :
  let s := sections_of m metadataOff (interface_at m a) in
  loadable m s ram_end -> placed s a ->
  let m1 := update_interface m metadataOff s a in
  let i := interface_at m a in
  (forall b, b < a + 24 \/ a + 28 <= b < a + 32 \/ a + 36 <= b -> rd8 m1 b = rd8 m b) /\
  interface_at m1 a =
    mkInterface (partDescBlockId i) (stackLimit i) (stackTop i) (vidtStart i) (vidtEnd i) (root i)
      (u32 (unusedRomStart i + metadataOff + 28 + romRamEnd (symbols s))) (romEnd i)
      (relRamSecAddr s + ramSecSize (symbols s)) (ramEnd i).
Proof.
  intros s L [[P0 P1] Pi Pr] m1 i. pose proof (entries_nonneg m s) as He. pose proof L as [].
  assert (u32 (relRamSecAddr s + ramSecSize (symbols s)) = relRamSecAddr s + ramSecSize (symbols s)) as Hend
    by (apply wrap_small; unfold is_word; lia).
  unfold m1, update_interface, off_unusedRamStart, off_unusedRomStart. rewrite Hend.
  rewrite !(wrap_small 32 (a + _)) by (unfold is_word; lia).
  set (m0 := wr32 m (a + 32) (relRamSecAddr s + ramSecSize (symbols s))).
  assert (forall x, x + 4 <= a + 32 \/ a + 36 <= x -> rd32 m0 x = rd32 m x) as E0.
  { intros x Hx. apply rd32_ext. intros b Hb. apply rd8_wr32_out. lia. }
  assert (romRamEnd (symbols_at m0 (metadata s)) = romRamEnd (symbols s)) as Hre.
  { cbn [symbols_at romRamEnd].
    change (romRamEnd (symbols s)) with (rd32 m (u32 (metadata s + 20))).
    rewrite (wrap_small 32) by (unfold is_word; lia). apply E0. lia. }
  rewrite Hre, (E0 (a + 24)) by lia.
  set (v := u32 (rd32 m (a + 24) + metadataOff + 28 + romRamEnd (symbols s))).
  assert (is_word 32 v) as Hv by (apply wrap_range; lia).
  split; [intros b Hb; unfold m0; rewrite !rd8_wr32_out by lia; done|].
  assert (forall x, x + 4 <= a + 24 \/ a + 28 <= x -> rd32 (wr32 m0 (a + 24) v) x = rd32 m0 x) as E1.
  { intros x Hx. apply rd32_ext. intros b Hb. apply rd8_wr32_out. lia. }
  unfold i, interface_at. cbn [partDescBlockId stackLimit stackTop vidtStart vidtEnd root unusedRomStart romEnd ramEnd].
  rewrite !(wrap_small 32 (a + _)) by (unfold is_word; lia).
  f_equal; try (rewrite E1, E0 by lia; done).
  - change (a + 4 * 6) with (a + 24). rewrite rd32_wr32_same by done. done.
  - change (a + 4 * 8) with (a + 32). rewrite E1 by lia. apply rd32_wr32_same. unfold is_word. lia.
Qed.

(** C25: Relocation: for a loadable image with valid GOT entries and patch
    information, whose memory description lies apart from the image and from the RAM the image
    claims, start-up reaches the entry point with a relocated image: each
    GOT entry and each patched pointer holds the loaded address of the offset the
    linker stored, the rest of [.rom.ram] is a copy of the image and [.ram] is zero; in the
    description the RAM behind the image is reported as unused and the start of the unused
    ROM is advanced, its other members are kept; and no byte outside the claimed RAM and these
    two members has changed. *)
Theorem load_relocates m metadataOff interface :
  let i := interface_at m interface in
  let s := sections_of m metadataOff i in
  loadable m s (ramEnd i) -> placed s interface ->
  (forall k, 0 <= k < gotSecSize (symbols s) / 4 ->
     got_entry m s k < romSecSize (symbols s) + gotSecSize (symbols s)
                       + romRamSecSize (symbols s) + ramSecSize (symbols s)) ->
  patches_ok m s ->
  exists l, load m metadataOff interface = Ok l /\ loaded m s (l_memory l) /\
    l_entry l = entryPointAddr s /\ l_got l = relGotSecAddr s /\ l_interface l = interface /\
    interface_at (l_memory l) interface =
      mkInterface (partDescBlockId i) (stackLimit i) (stackTop i) (vidtStart i) (vidtEnd i) (root i)
        (u32 (unusedRomStart i + metadataOff + 28 + romRamEnd (symbols s))) (romEnd i)
        (relRamSecAddr s + ramSecSize (symbols s)) (ramEnd i) /\
    (forall b, b < relGotSecAddr s \/ relRamSecAddr s + ramSecSize (symbols s) <= b ->
       b < interface + 24 \/ interface + 28 <= b < interface + 32 \/ interface + 36 <= b ->
       rd8 (l_memory l) b = rd8 m b).
Proof.
  intros i s L P GO PO. destruct (update_interface_spec m metadataOff interface _ L P) as [F Hi].
  fold i in F, Hi. fold s in F, Hi. set (m1 := update_interface m metadataOff s interface) in *.
  assert (same_on m m1 (metadata s) (romRamSecAddr s + romRamSecSize (symbols s))) as Same.
  { intros b Hb. apply F. destruct P. lia. }
  destruct (loaded_stages m1 s (ramEnd i)) as (m' & Hl & Hf & Hst);
    [by eapply same_loadable|by eapply same_patches|intros k Hk; erewrite same_got by done; by apply GO|].
  unfold load. fold i. fold s.
  assert (enough_ram s (ramEnd i) = true) as ->.
  { pose proof L as []. unfold enough_ram. rewrite !(wrap_small 32) by (unfold is_word; lia).
    rewrite !(proj2 (Z.ltb_ge _ _)) by lia. done. }
  cbn [negb]. fold m1. eexists. split.
  - apply res_bind_Ok in Hst as (m2 & Hc & Hst). rewrite Hc. cbn [mbind res_bind].
    apply res_bind_Ok in Hst as (m3 & Hg & Hst). rewrite Hg. cbn [mbind res_bind].
    rewrite Hst. cbn [mbind res_bind]. reflexivity.
  - cbn [l_memory l_entry l_got l_interface]. split_and!; try done.
    + by eapply same_loaded.
    + rewrite <- Hi. destruct P as [[? ?] _ ?]. apply interface_at_ext; [done|done|]. intros b Hb. apply Hf. lia.
    + intros b Hb Hb'. rewrite Hf by done. by apply F.
Qed.

(** Start-up never uses more RAM than there is: when the sections do not fit, it
    stops before it writes anything. *)
Theorem load_checks_ram m metadataOff interface l :
  let i := interface_at m interface in
  let s := sections_of m metadataOff i in
  load m metadataOff interface = Ok l -> u32 (relRamSecAddr s + ramSecSize (symbols s)) <= ramEnd i.
Proof.
  intros i s. unfold load. fold i. fold s.
  destruct (enough_ram s (ramEnd i)) eqn:E; [|done]. intros _.
  unfold enough_ram in E. apply negb_true_iff in E. rewrite !orb_false_iff in E.
  destruct E as ((_ & _) & E). lia.
Qed.

(** ** A small image *)

(** One patch entry, sixteen bytes of ROM, two GOT entries, two words of
    initialised data, the first a pointer into the two words of [.ram]. *)
Definition demo_image : memory :=
  fold_left (fun m '(a, v) => wr32 m a v)
    [(0x1010, 1); (0x1014, 16); (0x1018, 8); (0x101c, 8); (0x1020, 8); (0x1024, 40); (0x1028, 1);
     (0x102c, 24); (0x1040, 4); (0x1044, 28); (0x1048, 32); (0x104c, 77)] ∅.
(** The description lies directly below the RAM, as [exec] places it. *)
Definition demo_interface : Z := 0x1fffffd8.
Definition demo_memory : memory :=
  fold_left (fun m '(a, v) => wr32 m (demo_interface + a) v)
    [(20, 0x1000); (24, 0x1000); (28, 0x80000); (32, 0x20000000); (36, 0x20001000)] demo_image.
Definition demo_sections : sections := sections_of demo_memory 16 (interface_at demo_memory demo_interface).

(** A bounded statement, by evaluation. *)
Lemma range_check (f : Z -> bool) n :
  forallb f (seqZ 0 n) = true -> forall k, 0 <= k < n -> f k = true.
Proof.
  rewrite forallb_forall. intros H k Hk. apply H, list_elem_of_In, elem_of_seqZ. lia.
Qed.

Lemma demo_loadable : loadable demo_memory demo_sections 0x20001000.
Proof. split; vm_compute; first [reflexivity | discriminate | left; discriminate | right; discriminate]. Qed.

Lemma demo_patches : patches_ok demo_memory demo_sections.
Proof.
  assert (entryNumber demo_memory (metadata demo_sections) = 1) as Hn by (vm_compute; reflexivity).
  split; rewrite Hn.
  - intros j Hj. assert (j = 0) as -> by lia. vm_compute. split; discriminate.
  - intros j Hj. assert (j = 0) as -> by lia. vm_compute. split; [reflexivity|].
    intros [_ H]. discriminate H.
  - intros j k Hj Hk Hne. lia.
Qed.

Lemma load_relocates_witness :
  exists l, load demo_memory 16 demo_interface = Ok l /\
    rd32 (l_memory l) 0x20000000 = 0x1034 /\ rd32 (l_memory l) 0x20000008 = 0x20000010 /\
    rd32 (l_memory l) 0x2000000c = 77 /\
    interface_at (l_memory l) demo_interface = mkInterface 0 0 0 0 0 0x1000 (0x1000 + 16 + 28 + 40) 0x80000 0x20000018 0x20001000.
Proof.
  destruct (load_relocates demo_memory 16 demo_interface) as (l & Hl & _).
  - exact demo_loadable.
  - split; vm_compute; [split; [discriminate|reflexivity]|right; discriminate|left; discriminate].
  - intros k Hk. apply Z.ltb_lt. revert k Hk. apply range_check. vm_compute. reflexivity.
  - exact demo_patches.
  - exists l. split; [exact Hl|]. vm_compute in Hl. injection Hl as <-. vm_compute. repeat split.
Defined.
