(* ===== verification/Bitarithm.v ===== *)
(** * Bit arithmetic of the kernel

    Models [core/lib/bitarithm.c] and the functions of
    [core/lib/include/bitarithm.h]: every variant the preprocessor may choose
    (count-leading-zeros instruction, shift cascade, de Bruijn table, shift
    loop) and that all of them compute the highest, the lowest and the number of
    set bits.  [unsigned] has 32 bits. *)

From stdpp Require Import base list.
From Stdlib Require Import ZArith Lia.
From S2P Require Import Prelude.

Local Open Scope Z_scope.

(** The builtins, for an operand other than zero. *)
Definition __builtin_clz (v : Z) : Z := 31 - Z.log2 v.

(** [bitarithm_msb] with the CLZ instruction. *)
Definition bitarithm_msb (v : Z) : Z := u32 (u32 (8 * 4 - __builtin_clz v) - 1).

Definition bitarith_msb_32bit_no_native_clz (v : Z) : Z :=
  let r := Z.shiftl (Z.b2z (0xFFFF <? v)) 4 in let v := Z.shiftr v r in
  let shift := Z.shiftl (Z.b2z (0xFF <? v)) 3 in let v := Z.shiftr v shift in let r := Z.lor r shift in
  let shift := Z.shiftl (Z.b2z (0xF <? v)) 2 in let v := Z.shiftr v shift in let r := Z.lor r shift in
  let shift := Z.shiftl (Z.b2z (0x3 <? v)) 1 in let v := Z.shiftr v shift in let r := Z.lor r shift in
  Z.lor r (Z.shiftr v 1).

(** [while (v >>= 1) ++r], the variant for other word sizes. *)
Fixpoint msb_loop (fuel : nat) (v r : Z) : option Z :=
  match fuel with
  | O => None
  | S fuel =>
      let v := Z.shiftr v 1 in
      if negb (v =? 0) then msb_loop fuel v (u32 (r + 1)) else Some r
  end.

Fixpoint bits_set_loop (fuel : nat) (v c : Z) : option Z :=
  match fuel with
  | O => None
  | S fuel =>
      if negb (v =? 0) then bits_set_loop fuel (Z.land v (u32 (v - 1))) (u32 (c + 1)) else Some c
  end.
Definition bitarithm_bits_set (fuel : nat) (v : Z) : option Z := bits_set_loop fuel v 0.

Definition bitarithm_MultiplyDeBruijnBitPosition : list Z :=
  [0; 1; 28; 2; 29; 14; 24; 3; 30; 22; 20; 15; 25; 17; 4; 8;
   31; 27; 13; 23; 21; 19; 16; 7; 26; 12; 18; 6; 11; 5; 10; 9].

(** [bitarithm_lsb] by table ([BITARITHM_LSB_LOOKUP]). *)
Definition lsb_lookup (v : Z) : Z :=
  nth (Z.to_nat (Z.shiftr (u32 (Z.land v (u32 (- v)) * 0x077CB531)) 27))
    bitarithm_MultiplyDeBruijnBitPosition 0.

(** [bitarithm_lsb] by shifting. *)
Fixpoint lsb_loop (fuel : nat) (v r : Z) : option Z :=
  match fuel with
  | O => None
  | S fuel =>
      if Z.land v 1 =? 0 then lsb_loop fuel (Z.shiftr v 1) (u32 (r + 1)) else Some r
  end.

(** [bitarithm_test_and_clear]: new state and index, with the CLZ instruction
    and with the table. *)
Definition bitarithm_test_and_clear (state : Z) : Z * Z :=
  let index := u8 (8 * 4 - __builtin_clz state - 1) in
  (Z.land state (u32 (Z.lnot (Z.shiftl 1 index))), index).
Definition test_and_clear_lookup (state : Z) : Z * Z :=
  let least_bit := Z.land state (u32 (- state)) in
  (Z.land state (u32 (Z.lnot least_bit)),
   nth (Z.to_nat (Z.shiftr (u32 (least_bit * 0x077CB531)) 27)) bitarithm_MultiplyDeBruijnBitPosition 0).

(** ** Reference *)

(** Number of trailing zeros and of ones, along the binary representation. *)
Fixpoint trailing (p : positive) : Z :=
  match p with xO p => 1 + trailing p | _ => 0 end.
Fixpoint ones (p : positive) : Z :=
  match p with xO p => ones p | xI p => 1 + ones p | xH => 1 end.

Lemma trailing_nonneg p : 0 <= trailing p.
Proof. induction p; cbn [trailing]; lia. Qed.

Lemma trailing_bit p : Z.testbit (Zpos p) (trailing p) = true /\
  forall i, 0 <= i < trailing p -> Z.testbit (Zpos p) i = false.
Proof.
  induction p as [p IH|p IH|]; cbn [trailing]; [split; [done|lia]| |split; [done|lia]].
  pose proof (trailing_nonneg p). destruct IH as [IH1 IH2]. rewrite (Pos2Z.inj_xO p). split.
  - replace (1 + trailing p) with (Z.succ (trailing p)) by lia. by rewrite Z.testbit_even_succ by lia.
  - intros i Hi. destruct (decide (i = 0)) as [->|]; [apply Z.testbit_even_0|].
    replace i with (Z.succ (i - 1)) by lia. rewrite Z.testbit_even_succ by lia. apply IH2. lia.
Qed.

Lemma trailing_log2 p : trailing p <= Z.log2 (Zpos p).
Proof.
  destruct (Z.le_gt_cases (trailing p) (Z.log2 (Zpos p))) as [|Hgt]; [done|].
  destruct (trailing_bit p) as [Hb _]. rewrite Z.bits_above_log2 in Hb by lia. done.
Qed.

Lemma pred_double p : Z.pos (p~0) - 1 = 2 * (Z.pos p - 1) + 1.
Proof. lia. Qed.

(** [v & (v - 1)] has one bit less. *)
Lemma clear_lowest p : exists v, Z.land (Zpos p) (Zpos p - 1) = v /\ 0 <= v < Zpos p /\
  match v with Zpos q => ones q = ones p - 1 | _ => ones p = 1 end.
Proof.
  induction p as [p IH|p IH|].
  - exists (Zpos p~0). replace (Zpos p~1 - 1) with (Zpos p~0) by lia. split; [|cbn [ones]; lia].
    rewrite Pos2Z.inj_xI, (Pos2Z.inj_xO p).
    apply Z.bits_inj'. intros i Hi. rewrite Z.land_spec.
    destruct (decide (i = 0)) as [->|]; [by rewrite Z.testbit_even_0, andb_false_r|].
    replace i with (Z.succ (i - 1)) by lia.
    rewrite Z.testbit_odd_succ, Z.testbit_even_succ by lia. apply andb_diag.
  - destruct IH as (v & Hv & Hr & Ho). exists (2 * v). split.
    2:{ split; [lia|]. destruct v as [|q|q]; [exact Ho|exact Ho|lia]. }
    rewrite pred_double, (Pos2Z.inj_xO p), <- Hv.
    apply Z.bits_inj'. intros i Hi. rewrite Z.land_spec.
    destruct (decide (i = 0)) as [->|]; [by rewrite !Z.testbit_even_0|].
    replace i with (Z.succ (i - 1)) by lia.
    rewrite Z.testbit_odd_succ, !Z.testbit_even_succ, Z.land_spec by lia. done.
  - exists 0. split; [done|]. split; [lia|done].
Qed.

(** [v & -v] is the lowest bit. *)
Lemma lowest_bit p : Z.land (Zpos p) (- Zpos p) = 2 ^ trailing p.
Proof.
  destruct (trailing_bit p) as [H1 H2]. pose proof (trailing_nonneg p) as H0.
  revert H0 H1 H2. generalize (trailing p). clear. intros k H0 H1 H2.
  assert (exists m, Zpos p = 2 ^ k * (2 * m + 1)) as [m Hm].
  { exists (Zpos p / 2 ^ (k + 1)). pose proof (Z.pow_pos_nonneg 2 k).
    assert (Zpos p mod 2 ^ (k + 1) = 2 ^ k) as Hmod.
    { apply Z.bits_inj'. intros i Hi. destruct (decide (i < k + 1)).
      - rewrite Z.mod_pow2_bits_low by lia. destruct (decide (i = k)) as [->|].
        + by rewrite H1, Z.pow2_bits_true.
        + rewrite H2, Z.pow2_bits_false by lia. done.
      - rewrite Z.mod_pow2_bits_high, Z.pow2_bits_false by lia. done. }
    rewrite (Z.div_mod (Zpos p) (2 ^ (k + 1))) at 1 by lia.
    rewrite Hmod, Z.pow_add_r by lia. lia. }
  rewrite Hm. replace (- (2 ^ k * (2 * m + 1))) with (2 ^ k * (2 * (- m - 1) + 1)) by lia.
  rewrite !(Z.mul_comm (2 ^ k)), <- !Z.shiftl_mul_pow2 by lia. rewrite <- Z.shiftl_land.
  replace (Z.land (2 * m + 1) (2 * (- m - 1) + 1)) with 1; [rewrite Z.shiftl_mul_pow2; lia|].
  apply Z.bits_inj'. intros i Hi. rewrite Z.land_spec.
  destruct (decide (i = 0)) as [->|]; [by rewrite !Z.testbit_odd_0|].
  replace i with (Z.succ (i - 1)) by lia. rewrite !Z.testbit_odd_succ by lia.
  replace (- m - 1) with (Z.lnot m) by (unfold Z.lnot; lia). rewrite Z.lnot_spec by lia.
  rewrite andb_negb_r. change 1 with (2 * 0 + 1) at 1. by rewrite Z.testbit_odd_succ, Z.testbit_0_l by lia.
Qed.

(** A number cut to a word before the mask of a smaller word is applied. *)
Lemma land_wrap w v x : 0 <= w -> is_word w v -> Z.land v (wrap w x) = Z.land v x.
Proof.
  intros Hw Hv. unfold wrap. rewrite <- Z.land_ones by lia.
  rewrite (Z.land_comm x), Z.land_assoc, Z.land_ones by lia.
  f_equal. apply Z.mod_small, Hv.
Qed.
Lemma land_u32 v x : is_word 32 v -> Z.land v (u32 x) = Z.land v x.
Proof. by apply land_wrap. Qed.

Lemma lowest_word p : is_word 32 (Zpos p) -> Z.land (Zpos p) (u32 (- Zpos p)) = 2 ^ trailing p.
Proof. intros H. rewrite land_u32 by done. apply lowest_bit. Qed.

Lemma log2_word v : is_word 32 v -> 0 < v -> 0 <= Z.log2 v < 32.
Proof.
  intros [_ H] Hp. split; [apply Z.log2_nonneg|]. by apply Z.log2_lt_pow2.
Qed.

(** ** The variants agree *)

Lemma msb_clz v : is_word 32 v -> 0 < v -> bitarithm_msb v = Z.log2 v.
Proof.
  intros Hv Hp. pose proof (log2_word v Hv Hp). unfold bitarithm_msb, __builtin_clz.
  rewrite (wrap_small 32 (8 * 4 - (31 - Z.log2 v))) by (unfold is_word; lia).
  rewrite wrap_small by (unfold is_word; lia). lia.
Qed.

(** One stage of the cascade takes [s] off the logarithm when it exceeds it. *)
Lemma cascade_stage v s : 0 < v -> 0 <= s ->
  let t := if 2 ^ s - 1 <? v then s else 0 in
  0 < Z.shiftr v t /\ Z.log2 v = t + Z.log2 (Z.shiftr v t) /\ (Z.log2 v < 2 * s -> Z.log2 (Z.shiftr v t) < s).
Proof.
  intros Hv Hs t. subst t. destruct (Z.ltb_spec (2 ^ s - 1) v).
  - assert (s <= Z.log2 v) by (apply Z.log2_le_pow2; lia).
    pose proof (Z.log2_shiftr v s Hv) as Hl. rewrite Z.max_r in Hl by lia.
    split; [|rewrite Hl; lia]. rewrite Z.shiftr_div_pow2 by lia.
    apply Z.div_str_pos. pose proof (Z.pow_pos_nonneg 2 s). lia.
  - rewrite Z.shiftr_0_r. split; [done|]. split; [lia|]. intros _. apply Z.log2_lt_pow2; lia.
Qed.

Lemma shift_flag v c s : Z.shiftl (Z.b2z (c <? v)) s = if c <? v then 2 ^ s else 0.
Proof. destruct (c <? v); cbn [Z.b2z]; [apply Z.shiftl_1_l|apply Z.shiftl_0_l]. Qed.

Lemma msb_cascade v : is_word 32 v -> 0 < v -> bitarith_msb_32bit_no_native_clz v = Z.log2 v.
Proof.
  intros Hv Hp. pose proof (log2_word v Hv Hp) as Hl. unfold bitarith_msb_32bit_no_native_clz.
  rewrite !shift_flag. cbv zeta.
  change (2 ^ 4) with 16. change (2 ^ 3) with 8. change (2 ^ 2) with 4. change (2 ^ 1) with 2.
  destruct (cascade_stage v 16 Hp) as (H1 & E1 & B1); [lia|]. change (2 ^ 16 - 1) with 0xFFFF in *.
  set (v1 := Z.shiftr v (if 65535 <? v then 16 else 0)) in *. destruct (cascade_stage v1 8 H1) as (H2 & E2 & B2); [lia|].
  change (2 ^ 8 - 1) with 0xFF in *.
  set (v2 := Z.shiftr v1 _) in *. destruct (cascade_stage v2 4 H2) as (H3 & E3 & B3); [lia|].
  change (2 ^ 4 - 1) with 0xF in *.
  set (v3 := Z.shiftr v2 _) in *. destruct (cascade_stage v3 2 H3) as (H4 & E4 & B4); [lia|].
  change (2 ^ 2 - 1) with 3 in *. set (v4 := Z.shiftr v3 _) in *. clearbody v4.
  assert (Z.shiftr v4 1 = Z.log2 v4 /\ (Z.log2 v4 = 0 \/ Z.log2 v4 = 1)) as [-> Hend].
  { assert (Z.log2 v4 < 2) as Hlt by lia. apply Z.log2_lt_pow2 in Hlt; [|done].
    assert (v4 = 1 \/ v4 = 2 \/ v4 = 3) as [Hv4 | [Hv4 | Hv4]] by lia; rewrite Hv4; split; auto. }
  revert E1 E2 E3 E4.
  destruct (0xFFFF <? v), (0xFF <? v1), (0xF <? v2), (3 <? v3), Hend as [-> | ->];
    intros -> -> -> ->; reflexivity.
Qed.

Lemma msb_loop_spec fuel v r :
  is_word 32 v -> 0 < v -> 0 <= r -> r + Z.log2 v < 32 -> (Z.to_nat (Z.log2 v) < fuel)%nat ->
  msb_loop fuel v r = Some (r + Z.log2 v).
Proof.
  revert v r. induction fuel as [|fuel IH]; intros v r Hv Hp Hr Hb Hf; [lia|].
  cbn [msb_loop]. pose proof (Z.log2_shiftr v 1 Hp) as Hl. pose proof (Z.log2_nonneg v).
  assert (Z.shiftr v 1 = v / 2) as Hs by (rewrite Z.shiftr_div_pow2; [done|lia]).
  pose proof (Z.div_mod v 2 ltac:(lia)). pose proof (Z.mod_pos_bound v 2 ltac:(lia)). unfold is_word in Hv.
  destruct (Z.eqb_spec (Z.shiftr v 1) 0) as [Hz|Hz]; cbn [negb].
  - assert (v = 1) as -> by lia. cbn. f_equal. lia.
  - assert (1 <= Z.log2 v) by (apply (Z.log2_le_pow2 v 1); lia). rewrite Z.max_r in Hl by lia.
    rewrite wrap_small by (unfold is_word; lia).
    rewrite IH by (unfold is_word; lia). f_equal. lia.
Qed.

Lemma bits_set_loop_spec fuel v c :
  0 <= v < 2 ^ 32 -> 0 <= c ->
  c + match v with Zpos p => ones p | _ => 0 end <= 32 ->
  (Z.to_nat (match v with Zpos p => ones p | _ => 0 end) < fuel)%nat ->
  bits_set_loop fuel v c = Some (c + match v with Zpos p => ones p | _ => 0 end).
Proof.
  revert v c. induction fuel as [|fuel IH]; intros v c Hv Hc Hb Hf; [lia|].
  cbn [bits_set_loop]. destruct v as [|p|p]; [f_equal; lia| |lia].
  change (negb (Zpos p =? 0)) with true. cbv iota.
  rewrite (wrap_small 32 (Zpos p - 1)) by (unfold is_word; lia).
  destruct (clear_lowest p) as (v & -> & Hr & Ho).
  assert (1 <= ones p) by (clear; induction p; cbn [ones]; lia).
  rewrite (wrap_small 32 (c + 1)) by (unfold is_word; lia).
  rewrite IH; [|lia|lia| |]; destruct v; try lia; f_equal; lia.
Qed.

Lemma ones_log2 p : ones p <= Z.log2 (Zpos p) + 1.
Proof.
  induction p as [p IH|p IH|]; cbn [ones]; [| |done].
  - rewrite Pos2Z.inj_xI, Z.log2_succ_double by lia. lia.
  - rewrite Pos2Z.inj_xO, Z.log2_double by lia. lia.
Qed.

Lemma lookup_pow2 k : 0 <= k < 32 ->
  nth (Z.to_nat (Z.shiftr (u32 (2 ^ k * 0x077CB531)) 27)) bitarithm_MultiplyDeBruijnBitPosition 0 = k.
Proof.
  intros Hk. assert (forallb (fun k =>
    nth (Z.to_nat (Z.shiftr (u32 (2 ^ k * 0x077CB531)) 27)) bitarithm_MultiplyDeBruijnBitPosition 0 =? k)
    (seqZ 0 32) = true) as Hall by (vm_compute; reflexivity).
  rewrite forallb_forall in Hall. apply Z.eqb_eq, Hall, list_elem_of_In, elem_of_seqZ. lia.
Qed.

Lemma lsb_loop_spec fuel p r :
  0 <= r -> r + trailing p < 32 -> (Z.to_nat (trailing p) < fuel)%nat ->
  lsb_loop fuel (Zpos p) r = Some (r + trailing p).
Proof.
  revert p r. induction fuel as [|fuel IH]; intros p r Hr Hb Hf; [lia|].
  destruct p as [p|p|]; cbn [trailing] in *; [cbn; f_equal; lia| |cbn; f_equal; lia].
  pose proof (trailing_nonneg p). cbn [lsb_loop].
  change (Z.land (Z.pos p~0) 1 =? 0) with true. cbv iota. change (Z.shiftr (Z.pos p~0) 1) with (Z.pos p).
  rewrite wrap_small by (unfold is_word; lia). rewrite IH by lia. f_equal. lia.
Qed.

Lemma clear_bit v i : is_word 32 v -> 0 <= i < 32 ->
  Z.land v (u32 (Z.lnot (2 ^ i))) = Z.clearbit v i.
Proof. intros Hv Hi. rewrite land_u32 by done. rewrite Z.clearbit_spec'. symmetry. apply Z.ldiff_land. Qed.


