(* ===== verification/Ring.v ===== *)
(** * Ring buffers and circular index buffers

    Models [core/lib/ringbuffer.c] with its header, and [core/lib/include/cib.h].
    A ring buffer is shown to implement a bounded queue of characters; a circular
    index buffer hands out the slots of a power-of-two array in first-in
    first-out order, also when its counters wrap around. *)

From stdpp Require Import base list.
From Stdlib Require Import ZArith Lia.
From S2P Require Import Prelude.

Local Open Scope Z_scope.

Module RingBuffer.

(** ** The data structure *)

(** [buf] is the array the pointer of the struct refers to. *)
Record ringbuffer_t := mkRb { buf : list Z; size : Z; start : Z; avail : Z }.

Definition ringbuffer_init (buffer : list Z) (bufsize : Z) : ringbuffer_t :=
  mkRb buffer bufsize 0 0.

Definition ringbuffer_empty (rb : ringbuffer_t) : bool := avail rb =? 0.
Definition ringbuffer_full (rb : ringbuffer_t) : bool := avail rb =? size rb.
Definition ringbuffer_get_free (rb : ringbuffer_t) : Z := u32 (size rb - avail rb).

Definition add_tail (rb : ringbuffer_t) (c : Z) : ringbuffer_t :=
  let pos := u32 (start rb + avail rb) in
  let pos := if size rb <=? pos then u32 (pos - size rb) else pos in
  mkRb (<[Z.to_nat pos := c]> (buf rb)) (size rb) (start rb) (u32 (avail rb + 1)).

Definition get_head (rb : ringbuffer_t) : Z * ringbuffer_t :=
  let result := default 0 (buf rb !! Z.to_nat (start rb)) in
  let avail' := u32 (avail rb - 1) in
  (* the increment of start is evaluated only if avail is not zero *)
  let start' := if avail' =? 0 then 0
                else let s := u32 (start rb + 1) in if s =? size rb then 0 else s in
  (result, mkRb (buf rb) (size rb) start' avail').

Fixpoint ringbuffer_add (rb : ringbuffer_t) (l : list Z) (i : Z) : Z * ringbuffer_t :=
  match l with
  | [] => (i, rb)
  | c :: l =>
      if ringbuffer_full rb then (i, rb)
      else ringbuffer_add (add_tail rb c) l (i + 1)
  end.

Definition ringbuffer_add_one (rb : ringbuffer_t) (c : Z) : Z * ringbuffer_t :=
  let '(result, rb) := if ringbuffer_full rb then get_head rb else (-1, rb) in
  (result, add_tail rb c).

Definition ringbuffer_get_one (rb : ringbuffer_t) : Z * ringbuffer_t :=
  if negb (ringbuffer_empty rb) then get_head rb else (-1, rb).

(** Returns the count and the characters stored to the caller's buffer. *)
Definition ringbuffer_get (rb : ringbuffer_t) (n : Z) : Z * list Z * ringbuffer_t :=
  let n := if avail rb <? n then avail rb else n in
  if 0 <? n then
    let bytes_till_end := u32 (size rb - start rb) in
    let '(out, start') :=
      if n <=? bytes_till_end then
        (take (Z.to_nat n) (drop (Z.to_nat (start rb)) (buf rb)),
         if bytes_till_end =? n then 0 else u32 (start rb + n))
      else
        let s := u32 (n - bytes_till_end) in
        (take (Z.to_nat bytes_till_end) (drop (Z.to_nat (start rb)) (buf rb))
           ++ take (Z.to_nat s) (buf rb), s) in
    (n, out, mkRb (buf rb) (size rb) start' (u32 (avail rb - n)))
  else (n, [], rb).

Definition ringbuffer_remove (rb : ringbuffer_t) (n : Z) : Z * ringbuffer_t :=
  if avail rb <? n then (avail rb, mkRb (buf rb) (size rb) 0 0)
  else
    let start' := u32 (start rb + n) in
    let start' := if size rb <=? start' then u32 (start' - size rb) else start' in
    (n, mkRb (buf rb) (size rb) start' (u32 (avail rb - n))).

Definition ringbuffer_peek_one (rb : ringbuffer_t) : Z := fst (ringbuffer_get_one rb).
Definition ringbuffer_peek (rb : ringbuffer_t) (n : Z) : Z * list Z :=
  fst (ringbuffer_get rb n).

(** ** The queue it holds *)

Record wf (rb : ringbuffer_t) : Prop := mkWf {
  wf_size : 0 < size rb <= 2 ^ 31;
  wf_len : Z.of_nat (length (buf rb)) = size rb;
  wf_start : 0 <= start rb < size rb;
  wf_avail : 0 <= avail rb <= size rb
}.

(** The buffer from the read position on, once around. *)
Definition unrolled (rb : ringbuffer_t) : list Z :=
  drop (Z.to_nat (start rb)) (buf rb) ++ take (Z.to_nat (start rb)) (buf rb).
Definition contents (rb : ringbuffer_t) : list Z := take (Z.to_nat (avail rb)) (unrolled rb).

Lemma length_unrolled rb : wf rb -> length (unrolled rb) = Z.to_nat (size rb).
Proof. intros []. unfold unrolled. rewrite length_app, length_drop, length_take. lia. Qed.

Lemma length_contents rb : wf rb -> length (contents rb) = Z.to_nat (avail rb).
Proof. intros H. unfold contents. rewrite length_take, length_unrolled by done. destruct H. lia. Qed.

(** Element [i] of the unrolled buffer. *)
Lemma lookup_unrolled rb i :
  wf rb -> 0 <= i < size rb ->
  unrolled rb !! Z.to_nat i =
  buf rb !! Z.to_nat (if size rb <=? start rb + i then start rb + i - size rb else start rb + i).
Proof.
  intros [] Hi. unfold unrolled.
  destruct (Z.leb_spec (size rb) (start rb + i)).
  - rewrite lookup_app_r by (rewrite length_drop; lia).
    rewrite length_drop, lookup_take_lt by lia. f_equal. lia.
  - rewrite lookup_app_l by (rewrite length_drop; lia). rewrite lookup_drop. f_equal. lia.
Qed.

(** Two buffers with the same elements in order. *)
Lemma contents_ext rb l :
  wf rb -> Z.of_nat (length l) = avail rb ->
  (forall i, 0 <= i < avail rb -> unrolled rb !! Z.to_nat i = l !! Z.to_nat i) -> contents rb = l.
Proof.
  intros H Hl Hi. apply list_eq. intros k.
  destruct (decide (k < length l)%nat) as [Hk|Hk].
  - unfold contents. rewrite lookup_take_lt by lia.
    specialize (Hi (Z.of_nat k)). rewrite Nat2Z.id in Hi. apply Hi. lia.
  - rewrite !lookup_ge_None_2; [done|lia|rewrite length_contents by done; lia].
Qed.

Lemma lookup_contents rb i :
  wf rb -> 0 <= i < avail rb -> contents rb !! Z.to_nat i = unrolled rb !! Z.to_nat i.
Proof. intros H Hi. unfold contents. rewrite lookup_take_lt by lia. done. Qed.

Lemma add_tail_spec rb c :
  wf rb -> avail rb < size rb ->
  wf (add_tail rb c) /\ contents (add_tail rb c) = contents rb ++ [c].
Proof.
  intros H Hfree. pose proof H as [Hs Hl Hst Hav].
  set (pos := if size rb <=? start rb + avail rb then start rb + avail rb - size rb
              else start rb + avail rb).
  assert (add_tail rb c = mkRb (<[Z.to_nat pos := c]> (buf rb)) (size rb) (start rb) (avail rb + 1)) as ->.
  { unfold add_tail. rewrite (wrap_small 32 (start rb + avail rb)) by (unfold is_word; lia).
    rewrite (wrap_small 32 (avail rb + 1)) by (unfold is_word; lia).
    unfold pos. destruct (Z.leb_spec (size rb) (start rb + avail rb)); [|done].
    by rewrite (wrap_small 32) by (unfold is_word; lia). }
  assert (0 <= pos < size rb) as Hp.
  { unfold pos. destruct (Z.leb_spec (size rb) (start rb + avail rb)); lia. }
  set (rb' := mkRb _ _ _ _).
  assert (wf rb') as H' by (split; cbn; rewrite ?length_insert; lia).
  split; [done|]. apply contents_ext; [done|rewrite length_app, length_contents by done; cbn; lia|].
  cbn [avail rb']. intros i Hi. rewrite lookup_unrolled by (done || cbn; lia). cbn [size start buf rb'].
  destruct (decide (i = avail rb)) as [-> | Hne].
  - fold pos. rewrite list_lookup_insert_eq by lia.
    rewrite lookup_app_r by (rewrite length_contents by done; lia).
    rewrite length_contents, Nat.sub_diag by done. done.
  - rewrite lookup_app_l by (rewrite length_contents by done; lia).
    rewrite lookup_contents, lookup_unrolled by (done || lia).
    rewrite list_lookup_insert_ne; [done|]. unfold pos.
    destruct (Z.leb_spec (size rb) (start rb + avail rb)), (Z.leb_spec (size rb) (start rb + i)); lia.
Qed.

Lemma get_head_spec rb x q :
  wf rb -> contents rb = x :: q ->
  fst (get_head rb) = x /\ wf (snd (get_head rb)) /\ contents (snd (get_head rb)) = q.
Proof.
  intros H Hc. pose proof H as [Hs Hl Hst Hav].
  assert (Z.of_nat (length (x :: q)) = avail rb) as Hlen
    by (rewrite <- Hc, length_contents by done; lia). cbn [length] in Hlen.
  set (st := if avail rb - 1 =? 0 then 0 else if start rb + 1 =? size rb then 0 else start rb + 1).
  assert (get_head rb = (default 0 (buf rb !! Z.to_nat (start rb)),
            mkRb (buf rb) (size rb) st (avail rb - 1))) as ->.
  { unfold get_head. rewrite (wrap_small 32 (avail rb - 1)), (wrap_small 32 (start rb + 1))
      by (unfold is_word; lia). done. }
  cbn [fst snd]. set (rb' := mkRb _ _ _ _).
  assert (0 <= st < size rb) as Hst'.
  { unfold st. destruct (Z.eqb_spec (avail rb - 1) 0), (Z.eqb_spec (start rb + 1) (size rb)); lia. }
  assert (wf rb') as H' by (split; cbn; lia).
  split_and!; [|done|].
  - pose proof (lookup_contents rb 0 H ltac:(lia)) as E. rewrite Hc in E. cbn in E.
    rewrite (lookup_unrolled rb 0) in E by (done || lia). rewrite Z.add_0_r in E.
    rewrite (proj2 (Z.leb_gt _ _)) in E by lia. by rewrite <- E.
  - apply contents_ext; [done|cbn; lia|]. cbn [avail rb']. intros i Hi.
    rewrite lookup_unrolled by (done || cbn; lia). cbn [size start buf rb'].
    pose proof (lookup_contents rb (i + 1) H ltac:(lia)) as E. rewrite Hc in E.
    replace (Z.to_nat (i + 1)) with (S (Z.to_nat i)) in E by lia.
    change ((x :: q) !! S (Z.to_nat i)) with (q !! Z.to_nat i) in E. rewrite E.
    replace (S (Z.to_nat i)) with (Z.to_nat (i + 1)) by lia.
    rewrite lookup_unrolled by (done || lia). f_equal. f_equal. unfold st.
    destruct (Z.eqb_spec (avail rb - 1) 0); [lia|].
    destruct (Z.eqb_spec (start rb + 1) (size rb)); 
    repeat match goal with |- context [?a <=? ?b] => destruct (Z.leb_spec a b) end; lia.
Qed.

(** ** Refinement *)

(** Adding a block appends as many of its characters as there is room for. *)
Lemma ringbuffer_add_spec rb l i :
  wf rb ->
  let k := Z.to_nat (Z.min (Z.of_nat (length l)) (size rb - avail rb)) in
  fst (ringbuffer_add rb l i) = i + Z.of_nat k /\
  wf (snd (ringbuffer_add rb l i)) /\
  contents (snd (ringbuffer_add rb l i)) = contents rb ++ take k l.
Proof.
  revert rb i. induction l as [|c l IH]; intros rb i H k; pose proof H as [Hs Hl Hst Hav].
  { cbn. rewrite take_nil, app_nil_r. split_and!; [unfold k; cbn; lia|done|done]. }
  cbn [ringbuffer_add]. unfold ringbuffer_full. destruct (Z.eqb_spec (avail rb) (size rb)) as [E|E].
  - assert (k = 0)%nat as -> by (unfold k; lia). cbn. rewrite app_nil_r.
    split_and!; [lia|done|done].
  - destruct (add_tail_spec rb c H ltac:(lia)) as [H' Hc].
    destruct (IH (add_tail rb c) (i + 1) H') as (IH1 & IH2 & IH3).
    assert (avail (add_tail rb c) = avail rb + 1) as Ha.
    { cbn. apply wrap_small. unfold is_word. lia. }
    rewrite Ha in IH1, IH3. change (size (add_tail rb c)) with (size rb) in IH1, IH3.
    assert (k = S (Z.to_nat (Z.min (Z.of_nat (length l)) (size rb - (avail rb + 1))))) as Hk
      by (unfold k; cbn [length]; lia).
    rewrite Hk. split_and!; [rewrite IH1; lia|done|].
    rewrite IH3, Hc, <- app_assoc. done.
Qed.

(** Reading a block takes the oldest characters, at most as many as there are,
    in order, whether or not they wrap around the end of the array. *)
Lemma ringbuffer_get_spec rb n :
  wf rb -> 0 <= n ->
  let k := Z.min n (avail rb) in
  let '(cnt, out, rb') := ringbuffer_get rb n in
  cnt = k /\ out = take (Z.to_nat k) (contents rb) /\ wf rb' /\
  contents rb' = drop (Z.to_nat k) (contents rb).
Proof.
  intros H Hn k. pose proof H as [Hs Hl Hst Hav]. unfold ringbuffer_get.
  assert ((if avail rb <? n then avail rb else n) = k) as ->.
  { unfold k. destruct (Z.ltb_spec (avail rb) n); lia. }
  assert (0 <= k <= avail rb) as Hk by lia. clearbody k.
  destruct (Z.ltb_spec 0 k) as [Hpos|Hz].
  2:{ assert (k = 0) as -> by lia. rewrite take_0, drop_0. done. }
  rewrite (wrap_small 32 (size rb - start rb)) by (unfold is_word; lia).
  rewrite (wrap_small 32 (avail rb - k)) by (unfold is_word; lia).
  set (e := size rb - start rb).
  assert (take (Z.to_nat k) (contents rb) = take (Z.to_nat k) (unrolled rb)) as ->.
  { unfold contents. rewrite take_take. f_equal. lia. }
  set (st := if k <=? e then if e =? k then 0 else start rb + k else k - e).
  assert (0 <= st < size rb) as Hst'.
  { unfold st, e. destruct (Z.leb_spec k (size rb - start rb)), (Z.eqb_spec (size rb - start rb) k); lia. }
  assert (wf (mkRb (buf rb) (size rb) st (avail rb - k)) /\
          contents (mkRb (buf rb) (size rb) st (avail rb - k)) = drop (Z.to_nat k) (contents rb))
    as [H' Hc'].
  { assert (wf (mkRb (buf rb) (size rb) st (avail rb - k))) as H' by (split; cbn; lia).
    split; [done|]. apply contents_ext; [done|rewrite length_drop, length_contents by done; cbn; lia|].
    cbn [avail]. intros i Hi. rewrite lookup_unrolled by (done || cbn; lia). cbn [size start buf].
    rewrite lookup_drop. replace (Z.to_nat k + Z.to_nat i)%nat with (Z.to_nat (k + i)) by lia.
    rewrite lookup_contents, lookup_unrolled by (done || lia). f_equal. f_equal. unfold st, e.
    repeat match goal with
    | |- context [?a <=? ?b] => destruct (Z.leb_spec a b)
    | |- context [?a =? ?b] => destruct (Z.eqb_spec a b) end; lia. }
  unfold st in H', Hc'. destruct (Z.leb_spec k e) as [Hle|Hgt].
  - rewrite (wrap_small 32 (start rb + k)) by (unfold is_word, e in *; lia).
    split_and!; [done| |done|done].
    unfold unrolled. rewrite take_app_le by (rewrite length_drop; unfold e in *; lia). done.
  - rewrite (wrap_small 32 (k - e)) by (unfold is_word, e in *; lia).
    split_and!; [done| |done|done].
    unfold unrolled. rewrite take_app_ge by (rewrite length_drop; unfold e in *; lia).
    rewrite length_drop, take_take. f_equal; [apply take_ge; rewrite length_drop; unfold e in *; lia|].
    f_equal. unfold e in *. lia.
Qed.

Inductive op :=
| Add (l : list Z) | AddOne (c : Z) | GetOne | Get (n : Z) | Remove (n : Z) | PeekOne | Peek (n : Z)
| GetFree.

(** One call: the value returned, the characters handed out, the new state. *)
Definition step (o : op) (rb : ringbuffer_t) : Z * list Z * ringbuffer_t :=
  match o with
  | Add l => let '(k, rb) := ringbuffer_add rb l 0 in (k, [], rb)
  | AddOne c => let '(r, rb) := ringbuffer_add_one rb c in (r, [], rb)
  | GetOne => let '(r, rb) := ringbuffer_get_one rb in (r, [], rb)
  | Get n => ringbuffer_get rb n
  | Remove n => let '(k, rb) := ringbuffer_remove rb n in (k, [], rb)
  | PeekOne => (ringbuffer_peek_one rb, [], rb)
  | Peek n => (ringbuffer_peek rb n, rb)
  | GetFree => (ringbuffer_get_free rb, [], rb)
  end.

(** The same calls on a queue of at most [cap] characters. *)
Definition spec (cap : Z) (o : op) (q : list Z) : Z * list Z * list Z :=
  let len := Z.of_nat (length q) in
  match o with
  | Add l => let k := Z.min (Z.of_nat (length l)) (cap - len) in
             (k, [], q ++ take (Z.to_nat k) l)
  | AddOne c => if len =? cap then (default (-1) (head q), [], tail q ++ [c]) else (-1, [], q ++ [c])
  | GetOne => (default (-1) (head q), [], tail q)
  | Get n => let k := Z.min n len in (k, take (Z.to_nat k) q, drop (Z.to_nat k) q)
  | Remove n => let k := Z.min n len in (k, [], drop (Z.to_nat k) q)
  | PeekOne => (default (-1) (head q), [], q)
  | Peek n => let k := Z.min n len in (k, take (Z.to_nat k) q, q)
  | GetFree => (cap - len, [], q)
  end.

Definition op_ok (o : op) : Prop :=
  match o with Get n | Remove n | Peek n => 0 <= n | _ => True end.

Lemma get_one_spec rb :
  wf rb ->
  let '(r, rb') := ringbuffer_get_one rb in
  r = default (-1) (head (contents rb)) /\ wf rb' /\ contents rb' = tail (contents rb).
Proof.
  intros H. pose proof (length_contents rb H) as Hl. unfold ringbuffer_get_one, ringbuffer_empty.
  destruct (contents rb) as [|x q] eqn:Hc; cbn [length] in Hl; pose proof (wf_avail _ H).
  - assert (avail rb = 0) as -> by lia. cbn. rewrite Hc. done.
  - rewrite (proj2 (Z.eqb_neq _ _)) by lia. cbn [negb].
    destruct (get_head_spec rb x q H Hc) as (Hr & H' & Hc'). destruct (get_head rb). done.
Qed.

Lemma ringbuffer_remove_spec rb n :
  wf rb -> 0 <= n ->
  let '(k, rb') := ringbuffer_remove rb n in
  k = Z.min n (avail rb) /\ wf rb' /\ size rb' = size rb /\
  contents rb' = drop (Z.to_nat k) (contents rb).
Proof.
  intros H Hn. pose proof H as [Hs Hl Hst Hav]. unfold ringbuffer_remove.
  destruct (Z.ltb_spec (avail rb) n).
  - split_and!; [lia|split; cbn; lia|done|].
    rewrite drop_ge by (rewrite length_contents by done; lia). done.
  - rewrite (wrap_small 32 (start rb + n)) by (unfold is_word; lia).
    rewrite (wrap_small 32 (avail rb - n)) by (unfold is_word; lia).
    set (st := if size rb <=? start rb + n then start rb + n - size rb else start rb + n).
    assert ((if size rb <=? start rb + n then u32 (start rb + n - size rb) else start rb + n) = st) as ->.
    { unfold st. destruct (Z.leb_spec (size rb) (start rb + n)); [|done].
      apply wrap_small. unfold is_word. lia. }
    assert (0 <= st < size rb) as Hst'
      by (unfold st; destruct (Z.leb_spec (size rb) (start rb + n)); lia).
    assert (wf (mkRb (buf rb) (size rb) st (avail rb - n))) as H' by (split; cbn; lia).
    split_and!; [lia|done|done|].
    apply contents_ext; [done|rewrite length_drop, length_contents by done; cbn; lia|].
    cbn [avail]. intros i Hi. rewrite lookup_unrolled by (done || cbn; lia). cbn [size start buf].
    rewrite lookup_drop. replace (Z.to_nat n + Z.to_nat i)%nat with (Z.to_nat (n + i)) by lia.
    rewrite lookup_contents, lookup_unrolled by (done || lia). f_equal. f_equal. unfold st.
    repeat match goal with |- context [?a <=? ?b] => destruct (Z.leb_spec a b) end; lia.
Qed.

Lemma ringbuffer_get_size rb n : size (snd (ringbuffer_get rb n)) = size rb.
Proof. unfold ringbuffer_get. by repeat case_match. Qed.

Lemma ringbuffer_add_size rb l i : size (snd (ringbuffer_add rb l i)) = size rb.
Proof.
  revert rb i. induction l as [|c l IH]; intros rb i; cbn [ringbuffer_add]; [done|].
  destruct (ringbuffer_full rb); [done|]. by rewrite IH.
Qed.

(** Every call returns what the queue operation returns and keeps the ring
    buffer a well-formed representation of the resulting queue. *)
Lemma step_refines rb o :
  wf rb -> op_ok o ->
  let '(r, out, rb') := step o rb in
  spec (size rb) o (contents rb) = (r, out, contents rb') /\ wf rb' /\ size rb' = size rb.
Proof.
  intros H Ho. pose proof (length_contents rb H) as Hl. pose proof (wf_avail _ H).
  assert (Z.of_nat (length (contents rb)) = avail rb) as Hlen by lia.
  destruct o as [l|c| |n|n| |n|]; cbn [step spec]; rewrite ?Hlen.
  - destruct (ringbuffer_add_spec rb l 0 H) as (H1 & H2 & H3).
    pose proof (ringbuffer_add_size rb l 0). destruct (ringbuffer_add rb l 0) as [k rb'].
    cbn in *. subst k. rewrite H3. split_and!; [do 2 f_equal; lia|done|done].
  - unfold ringbuffer_add_one, ringbuffer_full.
    destruct (Z.eqb_spec (avail rb) (size rb)) as [E|E].
    + pose proof (wf_size _ H). destruct (contents rb) as [|x q] eqn:Hc; [cbn in *; lia|].
      destruct (get_head_spec rb x q H Hc) as (Hr & H' & Hc').
      assert (avail (snd (get_head rb)) = avail rb - 1 /\ size (snd (get_head rb)) = size rb) as [Ha Hz].
      { split; [|done]. cbn. apply wrap_small. unfold is_word. lia. }
      destruct (get_head rb) as [r rb1]. cbn [fst snd] in *. subst r.
      destruct (add_tail_spec rb1 c H' ltac:(lia)) as [H'' Hc'']. rewrite Hc'', Hc'. done.
    + destruct (add_tail_spec rb c H ltac:(lia)) as [H'' Hc'']. rewrite Hc''. done.
  - pose proof (get_one_spec rb H) as Hg.
    assert (size (snd (ringbuffer_get_one rb)) = size rb) as Hz
      by (unfold ringbuffer_get_one; by destruct (ringbuffer_empty rb)).
    destruct (ringbuffer_get_one rb) as [r rb']. cbn in Hz. destruct Hg as (-> & H' & ->). done.
  - pose proof (ringbuffer_get_spec rb n H Ho) as Hg. pose proof (ringbuffer_get_size rb n) as Hz.
    destruct (ringbuffer_get rb n) as [[k out] rb']. cbn in Hz.
    destruct Hg as (-> & -> & H' & ->). done.
  - pose proof (ringbuffer_remove_spec rb n H Ho) as Hg.
    destruct (ringbuffer_remove rb n) as [k rb']. destruct Hg as (-> & H' & Hz & ->). done.
  - pose proof (get_one_spec rb H) as Hg. unfold ringbuffer_peek_one.
    destruct (ringbuffer_get_one rb) as [r rb']. destruct Hg as (-> & _). done.
  - pose proof (ringbuffer_get_spec rb n H Ho) as Hg. unfold ringbuffer_peek.
    destruct (ringbuffer_get rb n) as [[k out] rb']. destruct Hg as (-> & -> & _). done.
  - pose proof (wf_size _ H). unfold ringbuffer_get_free.
    rewrite (wrap_small 32) by (unfold is_word; lia). done.
Qed.

(** Runs of calls, with what each returns. *)
Fixpoint run {S} (f : op -> S -> Z * list Z * S) (ops : list op) (s : S) : list (Z * list Z) * S :=
  match ops with
  | [] => ([], s)
  | o :: ops =>
      let '(r, out, s) := f o s in
      let '(outs, s) := run f ops s in ((r, out) :: outs, s)
  end.

(** C36: Refinement: any sequence of calls on a ring buffer of [n] bytes returns what
    the same calls return on a first-in first-out queue of capacity [n], the room
    left included; a full
    buffer gives up its oldest character to [ringbuffer_add_one]. *)
Theorem ring_refines_queue buffer n ops :
  0 < n <= 2 ^ 31 -> Z.of_nat (length buffer) = n -> Forall op_ok ops ->
  let '(outs, rb) := run step ops (ringbuffer_init buffer n) in
  run (spec n) ops [] = (outs, contents rb) /\ wf rb.
Proof.
  intros Hn Hb Hops.
  assert (forall rb, wf rb -> size rb = n ->
    let '(outs, rb') := run step ops rb in
    run (spec n) ops (contents rb) = (outs, contents rb') /\ wf rb') as Hgen.
  { induction Hops as [|o ops Ho Hops IH]; intros rb H Hz; cbn [run]; [done|].
    pose proof (step_refines rb o H Ho) as Hst. destruct (step o rb) as [[r out] rb1].
    destruct Hst as (Hs & H1 & Hz1). rewrite <- Hz. rewrite Hs.
    rewrite Hz in Hz1 |- *. specialize (IH rb1 H1 Hz1).
    destruct (run step ops rb1) as [outs rb2]. destruct IH as [-> H2]. done. }
  apply (Hgen (ringbuffer_init buffer n)); [split; cbn; lia|done].
Qed.

Definition demo_ops : list op := [Add [1; 2; 3; 4; 5]; Get 2; Add [6]; AddOne 7; AddOne 8; Get 9; GetFree].

Example demo_run :
  run step demo_ops (ringbuffer_init [0; 0; 0; 0] 4) =
  ([(4, []); (2, [1; 2]); (1, []); (-1, []); (3, []); (4, [4; 6; 7; 8]); (4, [])],
   mkRb [6; 7; 8; 4] 4 3 0).
Proof. vm_compute. reflexivity. Qed.

Lemma ring_refines_queue_witness :
  let '(outs, rb) := run step demo_ops (ringbuffer_init [0; 0; 0; 0] 4) in
  run (spec 4) demo_ops [] = (outs, contents rb) /\ wf rb.
Proof.
  apply ring_refines_queue; [lia|reflexivity|repeat constructor; cbn; lia].
Defined.

End RingBuffer.

Module Cib.

(** ** The counters *)

Record cib_t := mkCib { read_count : Z; write_count : Z; mask : Z }.

(** [None] is the failed assertion that the size is a power of two. *)
Definition cib_init (size : Z) : option cib_t :=
  if Z.land size (u32 (size - 1)) =? 0 then Some (mkCib 0 0 (u32 (size - 1))) else None.

Definition cib_size (c : cib_t) : Z := u32 (mask c + 1).
Definition cib_avail (c : cib_t) : Z := u32 (write_count c - read_count c).
Definition cib_full (c : cib_t) : bool := s32 (mask c) <? s32 (cib_avail c).

Definition cib_get_unsafe (c : cib_t) : Z * cib_t :=
  (s32 (Z.land (read_count c) (mask c)), mkCib (u32 (read_count c + 1)) (write_count c) (mask c)).
Definition cib_get (c : cib_t) : Z * cib_t :=
  if negb (cib_avail c =? 0) then cib_get_unsafe c else (-1, c).
Definition cib_peek (c : cib_t) : Z :=
  if negb (cib_avail c =? 0) then s32 (Z.land (read_count c) (mask c)) else -1.

Definition cib_put_unsafe (c : cib_t) : Z * cib_t :=
  (s32 (Z.land (write_count c) (mask c)), mkCib (read_count c) (u32 (write_count c + 1)) (mask c)).
Definition cib_put (c : cib_t) : Z * cib_t :=
  if s32 (cib_avail c) <=? s32 (mask c) then cib_put_unsafe c else (-1, c).

(** ** Capacity *)

(** A buffer of [2 ^ k] slots with word-sized counters. *)
Record wf (k : Z) (c : cib_t) : Prop := mkWf {
  wf_k : 0 <= k <= 30;
  wf_mask : mask c = 2 ^ k - 1;
  wf_read : is_word 32 (read_count c);
  wf_write : is_word 32 (write_count c);
  wf_avail : cib_avail c <= 2 ^ k
}.

Lemma pow_bound k : 0 <= k <= 30 -> 1 <= 2 ^ k <= 2 ^ 30.
Proof.
  intros. split; [|apply Z.pow_le_mono_r; lia]. pose proof (Z.pow_pos_nonneg 2 k). lia.
Qed.

Lemma cib_init_pow k : 0 <= k <= 30 ->
  exists c, cib_init (2 ^ k) = Some c /\ wf k c /\ cib_avail c = 0.
Proof.
  intros Hk. pose proof (pow_bound k Hk) as Hp. unfold cib_init.
  rewrite (wrap_small 32) by (unfold is_word; lia).
  assert (Z.land (2 ^ k) (2 ^ k - 1) = 0) as ->.
  { replace (2 ^ k - 1) with (Z.ones k) by (rewrite Z.ones_equiv; lia).
    rewrite Z.land_ones by lia. apply Z.mod_same. lia. }
  eexists. split; [reflexivity|]. split; [|done].
  split; [done|done|unfold is_word; cbn; lia|unfold is_word; cbn; lia|].
  change (0 <= 2 ^ k). lia.
Qed.

(** The slot of a counter depends on it modulo the size only. *)
Lemma slot_mod k x : 0 <= k <= 30 -> s32 (Z.land (u32 x) (2 ^ k - 1)) = x mod 2 ^ k.
Proof.
  intros Hk. pose proof (pow_bound k Hk).
  replace (2 ^ k - 1) with (Z.ones k) by (rewrite Z.ones_equiv; lia).
  rewrite Z.land_ones by lia.
  change (u32 x mod 2 ^ k) with (wrap k (wrap 32 x)). rewrite wrap_wrap_le by lia.
  pose proof (wrap_range k x ltac:(lia)) as Hw. unfold is_word in Hw. change (x mod 2 ^ k) with (wrap k x).
  assert (2 ^ 30 < 2 ^ (32 - 1)) by done. apply signed_small; lia.
Qed.

Lemma slot_word k x : 0 <= k <= 30 -> is_word 32 x -> s32 (Z.land x (2 ^ k - 1)) = x mod 2 ^ k.
Proof. intros Hk Hx. rewrite <- slot_mod by done. by rewrite (wrap_small 32 x). Qed.

Section Slots.
Variables (k : Z) (c : cib_t).
Hypothesis H : wf k c.

Lemma avail_range : 0 <= cib_avail c <= 2 ^ k.
Proof using All. split; [apply (wrap_range 32); lia|apply H]. Qed.

Lemma full_iff : cib_full c = (cib_avail c =? 2 ^ k).
Proof using All.
  pose proof avail_range as Ha. pose proof (pow_bound k (wf_k _ _ H)) as Hp. unfold cib_full.
  rewrite (wf_mask _ _ H). rewrite !signed_small by (cbn; lia).
  destruct (Z.eqb_spec (cib_avail c) (2 ^ k)); [apply Z.ltb_lt|apply Z.ltb_ge]; lia.
Qed.

Lemma put_spec :
  cib_avail c < 2 ^ k ->
  exists c', cib_put c = (write_count c mod 2 ^ k, c') /\ wf k c' /\
    cib_avail c' = cib_avail c + 1 /\ read_count c' = read_count c.
Proof using All.
  intros Hlt. pose proof avail_range as Ha. pose proof (pow_bound k (wf_k _ _ H)) as Hp.
  unfold cib_put. rewrite (wf_mask _ _ H), !signed_small by (cbn; lia).
  rewrite (proj2 (Z.leb_le _ _)) by lia. unfold cib_put_unsafe. rewrite (wf_mask _ _ H).
  rewrite slot_word by apply H.
  eexists. split; [reflexivity|].
  assert (cib_avail (mkCib (read_count c) (u32 (write_count c + 1)) (2 ^ k - 1)) = cib_avail c + 1) as Hav.
  { unfold cib_avail in *. cbn [write_count read_count].
    replace (u32 (write_count c + 1) - read_count c) with (u32 (write_count c + 1) + - read_count c) by lia.
    rewrite wrap_add_l by lia.
    replace (write_count c + 1 + - read_count c) with (write_count c - read_count c + 1) by lia.
    rewrite <- wrap_add_l by lia. apply wrap_small. unfold is_word. cbn. lia. }
  split_and!; [|done|done]. destruct H. split; cbn [mask read_count write_count]; try done.
  - apply wrap_range. lia.
  - rewrite Hav. lia.
Qed.

Lemma put_full : cib_avail c = 2 ^ k -> cib_put c = (-1, c).
Proof using All.
  intros Hf. pose proof (pow_bound k (wf_k _ _ H)) as Hp. unfold cib_put.
  rewrite (wf_mask _ _ H), !signed_small by (cbn; lia). by rewrite (proj2 (Z.leb_gt _ _)) by lia.
Qed.

Lemma get_spec :
  0 < cib_avail c ->
  exists c', cib_get c = (read_count c mod 2 ^ k, c') /\ wf k c' /\
    cib_avail c' = cib_avail c - 1 /\ read_count c' = u32 (read_count c + 1).
Proof using All.
  intros Hlt. pose proof avail_range as Ha. pose proof (pow_bound k (wf_k _ _ H)) as Hp.
  unfold cib_get. rewrite (proj2 (Z.eqb_neq _ _)) by lia. cbn [negb]. unfold cib_get_unsafe.
  rewrite (wf_mask _ _ H). rewrite slot_word by apply H.
  eexists. split; [reflexivity|].
  assert (cib_avail (mkCib (u32 (read_count c + 1)) (write_count c) (2 ^ k - 1)) = cib_avail c - 1) as Hav.
  { unfold cib_avail in *. cbn [write_count read_count].
    assert (u32 (write_count c - u32 (read_count c + 1)) =
            u32 (u32 (write_count c - read_count c) + -1)) as ->.
    { rewrite wrap_add_l by lia. unfold wrap. rewrite Zminus_mod_idemp_r. f_equal. lia. }
    apply wrap_small. unfold is_word. cbn. lia. }
  split_and!; [|done|done]. destruct H. split; cbn [mask read_count write_count]; try done.
  - apply wrap_range. lia.
  - rewrite Hav. lia.
Qed.

Lemma get_empty : cib_avail c = 0 -> cib_get c = (-1, c).
Proof using. intros E. unfold cib_get. by rewrite E. Qed.
End Slots.

(** ** The queue in the array the indices refer to *)

Section Array.
Context {A : Type}.

(** The elements between the counters, oldest first, of a store [f] of slots. *)
Definition slots (k : Z) (c : cib_t) (f : Z -> A) : list A :=
  map (fun j => f ((read_count c + j) mod 2 ^ k)) (seqZ 0 (cib_avail c)).

Lemma write_mod k c : wf k c -> write_count c mod 2 ^ k = (read_count c + cib_avail c) mod 2 ^ k.
Proof.
  intros H. destruct (wf_k _ _ H). unfold cib_avail.
  change ((read_count c + u32 (write_count c - read_count c)) mod 2 ^ k)
    with (wrap k (read_count c + u32 (write_count c - read_count c))).
  rewrite <- (wrap_wrap_le k 32 (read_count c + _)) by lia. rewrite wrap_add_r by lia.
  rewrite wrap_wrap_le by lia. unfold wrap. f_equal. lia.
Qed.

(** Positions less than the size apart are different slots. *)
Lemma slots_differ k r i j :
  0 <= k <= 30 -> 0 <= i < j -> j < 2 ^ k -> (r + i) mod 2 ^ k <> (r + j) mod 2 ^ k.
Proof.
  intros Hk Hi Hj E. pose proof (pow_bound k Hk) as Hp.
  assert ((r + j - (r + i)) mod 2 ^ k = 0) as E0.
  { rewrite Zminus_mod, E, Z.sub_diag. apply Z.mod_0_l. lia. }
  replace (r + j - (r + i)) with (j - i) in E0 by lia. rewrite Z.mod_small in E0 by lia. lia.
Qed.

Lemma slots_ext k c f g : 0 <= k <= 30 -> (forall i, 0 <= i < 2 ^ k -> f i = g i) -> slots k c f = slots k c g.
Proof. intros Hk H. apply map_ext. intros j. apply H, Z.mod_pos_bound. pose proof (pow_bound k Hk). lia. Qed.

Section Ops.
Variables (k : Z) (c : cib_t).
Hypothesis H : wf k c.

Lemma slots_put f f' v :
  cib_avail c < 2 ^ k ->
  exists n c', cib_put c = (n, c') /\ 0 <= n < 2 ^ k /\ wf k c' /\
    (f' n = v -> (forall i, 0 <= i < 2 ^ k -> i <> n -> f' i = f i) -> slots k c' f' = slots k c f ++ [v]).
Proof using H.
  intros Hlt. pose proof (wf_k _ _ H) as Hk. pose proof (pow_bound k Hk) as Hp.
  pose proof (avail_range k c H) as Ha. destruct (put_spec k c H Hlt) as (c' & Hput & H' & Hav & Hr).
  exists (write_count c mod 2 ^ k), c'.
  pose proof (Z.mod_pos_bound (write_count c) (2 ^ k) ltac:(lia)) as Hn.
  split_and!; [done|lia|lia|done|]. intros Hv Hf. unfold slots. rewrite Hav, Hr.
  rewrite seqZ_app by lia. rewrite map_app. cbn [map seqZ]. rewrite !Z.add_0_l.
  rewrite (seqZ_cons (cib_avail c)) by lia. rewrite (seqZ_nil (Z.succ _)) by lia. cbn [map].
  rewrite <- write_mod, Hv by done. f_equal. apply map_ext_in. intros j Hj%list_elem_of_In%elem_of_seqZ.
  apply Hf; [apply Z.mod_pos_bound; lia|]. rewrite write_mod by done. apply slots_differ; [done|lia|lia].
Qed.

Lemma slots_get f :
  0 < cib_avail c ->
  exists n c', cib_get c = (n, c') /\ 0 <= n < 2 ^ k /\ wf k c' /\ cib_avail c' = cib_avail c - 1 /\
    slots k c f = f n :: slots k c' f.
Proof using H.
  intros Hlt. pose proof (wf_k _ _ H) as Hk. pose proof (pow_bound k Hk) as Hp.
  pose proof (avail_range k c H) as Ha. destruct (get_spec k c H Hlt) as (c' & Hget & H' & Hav & Hr).
  exists (read_count c mod 2 ^ k), c'.
  pose proof (Z.mod_pos_bound (read_count c) (2 ^ k) ltac:(lia)) as Hn.
  split_and!; [done|lia|lia|done|done|]. unfold slots. rewrite Hav, Hr.
  rewrite seqZ_cons by lia. cbn [map]. rewrite Z.add_0_r. f_equal.
  change (Z.succ 0) with 1. replace (Z.pred (cib_avail c)) with (cib_avail c - 1) by lia.
  apply list_eq. intros i. rewrite !list_lookup_fmap.
  destruct (decide (Z.of_nat i < cib_avail c - 1)).
  - rewrite !lookup_seqZ_lt by lia. cbn [fmap option_fmap option_map]. rewrite Z.add_0_l.
    do 2 f_equal.
    change ((read_count c + (1 + Z.of_nat i)) mod 2 ^ k) with (wrap k (read_count c + (1 + Z.of_nat i))).
    change ((u32 (read_count c + 1) + Z.of_nat i) mod 2 ^ k)
      with (wrap k (u32 (read_count c + 1) + Z.of_nat i)).
    rewrite <- (wrap_wrap_le k 32 (u32 _ + _)) by lia. rewrite wrap_add_l by lia.
    rewrite wrap_wrap_le by lia. f_equal. lia.
  - rewrite !lookup_seqZ_ge by lia. done.
Qed.

Lemma slots_empty f : slots k c f = [] <-> cib_avail c = 0.
Proof using H.
  pose proof (avail_range k c H) as Ha. split.
  - intros E. destruct (decide (0 < cib_avail c)) as [Hlt|]; [|lia].
    destruct (slots_get f Hlt) as (n & c' & _ & _ & _ & _ & Hs). by rewrite Hs in E.
  - intros E. unfold slots. by rewrite E.
Qed.
End Ops.

End Array.

(** The elements in an array that is indexed by the slots. *)
Definition queued {A} (k : Z) (c : cib_t) (arr : list A) : list (option A) :=
  slots k c (fun i => arr !! Z.to_nat i).

(** C37: First in, first out: with the array indexed by the returned slots, a put
    appends its element and a get takes the oldest one, also when the counters
    wrap around; a full buffer refuses puts and an empty one gets, unchanged. *)
Theorem cib_fifo {A} k c (arr : list A) :
  wf k c -> Z.of_nat (length arr) = 2 ^ k ->
  (forall v, cib_avail c < 2 ^ k ->
     exists n c', cib_put c = (n, c') /\ 0 <= n < 2 ^ k /\ wf k c' /\
       queued k c' (<[Z.to_nat n := v]> arr) = queued k c arr ++ [Some v]) /\
  (cib_avail c = 2 ^ k -> cib_put c = (-1, c)) /\
  (0 < cib_avail c ->
     exists n c', cib_get c = (n, c') /\ 0 <= n < 2 ^ k /\ wf k c' /\
       queued k c arr = (arr !! Z.to_nat n) :: queued k c' arr) /\
  (cib_avail c = 0 -> cib_get c = (-1, c)).
Proof.
  intros H Hlen. split_and!.
  - intros v Hlt.
    destruct (slots_put k c H (fun i => arr !! Z.to_nat i) (fun i => <[Z.to_nat (fst (cib_put c)) := v]> arr !! Z.to_nat i)
      (Some v) Hlt) as (n & c' & Hput & Hn & H' & Hs).
    exists n, c'. split_and!; [done|lia|lia|done|]. replace (Z.to_nat n) with (Z.to_nat (fst (cib_put c))) by (by rewrite Hput). apply Hs.
    + rewrite Hput. apply list_lookup_insert_eq. cbn. lia.
    + intros i Hi Hne. rewrite Hput. apply list_lookup_insert_ne. cbn. lia.
  - apply (put_full k c H).
  - intros Hlt. destruct (slots_get k c H (fun i => arr !! Z.to_nat i) Hlt) as (n & c' & Hget & Hn & H' & _ & Hs).
    by exists n, c'.
  - apply get_empty.
Qed.

(** Counters about to wrap around: one element read, one free slot. *)
Lemma cib_fifo_witness :
  let c := mkCib (2 ^ 32 - 1) 2 3 in
  queued 2 c [10; 11; 12; 13] = [Some 13; Some 10; Some 11] /\
  exists n c', cib_get c = (n, c') /\ queued 2 c [10; 11; 12; 13] = [10; 11; 12; 13] !! Z.to_nat n :: queued 2 c' [10; 11; 12; 13].
Proof.
  intros c. split; [vm_compute; reflexivity|].
  destruct (cib_fifo 2 c [10; 11; 12; 13]) as (_ & _ & Hget & _).
  - split; vm_compute; first [reflexivity | discriminate | split; first [discriminate | reflexivity]].
  - reflexivity.
  - destruct Hget as (n & c' & H1 & _ & _ & H2); [vm_compute; reflexivity|].
    exists n, c'. split; [exact H1|exact H2].
Defined.

End Cib.
