(* ===== verification/Lists.v ===== *)
(** * Linked lists of the kernel

    Models the intrusive lists of [core/lib]: [list.h], the circular lists of
    [clist.h] and the priority queue of [priority_queue.c].  Nodes are addresses,
    the store maps an address to its [next] member, a list head is a node too;
    [0] is [NULL].  Each structure is shown to implement operations on a list of
    nodes; loops that follow pointers take fuel and return [None] without it. *)

From stdpp Require Import base gmap list sorting.
From Stdlib Require Import ZArith Lia.
From S2P Require Import Prelude.

Local Open Scope Z_scope.

Abbreviation links := (gmap Z Z).

Definition nxt (h : links) (a : Z) : Z := default 0 (h !! a).
Definition set_nxt (h : links) (a v : Z) : links := <[a := v]> h.

(** ** [list.h] *)

Definition list_add (h : links) (node new_node : Z) : links :=
  let h := set_nxt h new_node (nxt h node) in
  set_nxt h node new_node.

Definition list_remove_head (h : links) (list : Z) : links * Z :=
  let head := nxt h list in
  if negb (head =? 0) then (set_nxt h list (nxt h head), head) else (h, head).

Fixpoint list_remove (fuel : nat) (h : links) (list node : Z) : option (links * Z) :=
  match fuel with
  | O => None
  | S fuel =>
      if negb (nxt h list =? 0) then
        if nxt h list =? node then Some (set_nxt h list (nxt h node), node)
        else list_remove fuel h (nxt h list) node
      else Some (h, nxt h list)
  end.

(** ** [clist.h] *)

Definition clist_is_empty (h : links) (list : Z) : bool := nxt h list =? 0.

Definition clist_rpush (h : links) (list new_node : Z) : links :=
  let h :=
    if negb (nxt h list =? 0) then
      let h := set_nxt h new_node (nxt h (nxt h list)) in
      set_nxt h (nxt h list) new_node
    else set_nxt h new_node new_node in
  set_nxt h list new_node.

Definition clist_lpush (h : links) (list new_node : Z) : links :=
  if negb (nxt h list =? 0) then
    let h := set_nxt h new_node (nxt h (nxt h list)) in
    set_nxt h (nxt h list) new_node
  else
    let h := set_nxt h new_node new_node in
    set_nxt h list new_node.

Definition clist_lpop (h : links) (list : Z) : links * Z :=
  if negb (nxt h list =? 0) then
    let first := nxt h (nxt h list) in
    let h := if nxt h list =? first then set_nxt h list 0
             else set_nxt h (nxt h list) (nxt h first) in
    (h, first)
  else (h, 0).

Definition clist_lpoprpush (h : links) (list : Z) : links :=
  if negb (nxt h list =? 0) then set_nxt h list (nxt h (nxt h list)) else h.

Definition clist_lpeek (h : links) (list : Z) : Z :=
  if negb (nxt h list =? 0) then nxt h (nxt h list) else 0.

Definition clist_rpeek (h : links) (list : Z) : Z := nxt h list.

Fixpoint rpop_loop (fuel : nat) (h : links) (list last : Z) : option links :=
  match fuel with
  | O => None
  | S fuel =>
      if negb (nxt h (nxt h list) =? last) then rpop_loop fuel (clist_lpoprpush h list) list last
      else Some h
  end.

Definition clist_rpop (fuel : nat) (h : links) (list : Z) : option (links * Z) :=
  if negb (nxt h list =? 0) then
    match rpop_loop fuel h list (nxt h list) with
    | Some h => Some (clist_lpop h list)
    | None => None
    end
  else Some (h, 0).

(** The do-while loops visit each node once, starting with the first. *)
Fixpoint find_loop (fuel : nat) (h : links) (list node pos : Z) : option Z :=
  match fuel with
  | O => None
  | S fuel =>
      let pos := nxt h pos in
      if nxt h pos =? node then Some pos
      else if negb (pos =? nxt h list) then find_loop fuel h list node pos
      else Some 0
  end.

Definition clist_find_before (fuel : nat) (h : links) (list node : Z) : option Z :=
  let pos := nxt h list in
  if pos =? 0 then Some 0 else find_loop fuel h list node pos.

Definition clist_find (fuel : nat) (h : links) (list node : Z) : option Z :=
  match clist_find_before fuel h list node with
  | Some tmp => Some (if negb (tmp =? 0) then nxt h tmp else 0)
  | None => None
  end.

Definition clist_remove (fuel : nat) (h : links) (list node : Z) : option (links * Z) :=
  if negb (nxt h list =? 0) then
    if nxt h (nxt h list) =? node then Some (clist_lpop h list)
    else
      match clist_find_before fuel h list node with
      | Some tmp =>
          if negb (tmp =? 0) then
            let h := set_nxt h tmp (nxt h (nxt h tmp)) in
            let h := if node =? nxt h list then set_nxt h list tmp else h in
            Some (h, node)
          else Some (h, 0)
      | None => None
      end
  else Some (h, 0).

Fixpoint foreach_loop (fuel : nat) (h : links) (list : Z) (func : Z -> bool) (node : Z) : option Z :=
  match fuel with
  | O => None
  | S fuel =>
      let node := nxt h node in
      if func node then Some node
      else if negb (node =? nxt h list) then foreach_loop fuel h list func node
      else Some 0
  end.

Definition clist_foreach (fuel : nat) (h : links) (list : Z) (func : Z -> bool) : option Z :=
  let node := nxt h list in
  if negb (node =? 0) then foreach_loop fuel h list func node else Some 0.

Fixpoint count_loop (fuel : nat) (h : links) (list node cnt : Z) : option Z :=
  match fuel with
  | O => None
  | S fuel =>
      let node := nxt h node in
      let cnt := cnt + 1 in
      if negb (node =? nxt h list) then count_loop fuel h list node cnt else Some cnt
  end.

Definition clist_count (fuel : nat) (h : links) (list : Z) : option Z :=
  let node := nxt h list in
  if negb (node =? 0) then count_loop fuel h list node 0 else Some 0.

Definition clist_exactly_one (h : links) (list : Z) : bool :=
  negb (clist_is_empty h list) && (nxt h list =? nxt h (nxt h list)).
Definition clist_more_than_one (h : links) (list : Z) : bool :=
  negb (clist_is_empty h list) && negb (nxt h list =? nxt h (nxt h list)).

(** ** Segments *)

(** [seg h a l b]: following [next] from [a] visits [l] and then reaches [b]. *)
Fixpoint seg (h : links) (a : Z) (l : list Z) (b : Z) : Prop :=
  match l with
  | [] => nxt h a = b
  | x :: l => nxt h a = x /\ seg h x l b
  end.

Lemma nxt_set_eq h a v : nxt (set_nxt h a v) a = v.
Proof. unfold nxt, set_nxt. by rewrite lookup_insert_eq. Qed.
Lemma nxt_set_ne h a b v : a <> b -> nxt (set_nxt h a v) b = nxt h b.
Proof. intros. unfold nxt, set_nxt. by rewrite lookup_insert_ne. Qed.

Create HintDb links.
#[export] Hint Rewrite nxt_set_eq : links.
#[export] Hint Rewrite nxt_set_ne using congruence : links.

Lemma seg_snoc h a l b c : seg h a (l ++ [b]) c <-> seg h a l b /\ nxt h b = c.
Proof. revert a. induction l as [|x l IH]; intros a; cbn; [done|]. rewrite IH. tauto. Qed.

Lemma seg_app h a l x r b : seg h a (l ++ x :: r) b <-> seg h a l x /\ seg h x r b.
Proof. revert a. induction l as [|y l IH]; intros a; cbn; [done|]. rewrite IH. tauto. Qed.

(** A segment from another start that has the same successor. *)
Lemma seg_move h h' a a' l b :
  seg h a l b -> nxt h' a' = nxt h a -> (forall x, x ∈ l -> nxt h' x = nxt h x) -> seg h' a' l b.
Proof.
  revert a a'. induction l as [|x l IH]; intros a a' Hs Ha Hl; cbn in *.
  - congruence.
  - destruct Hs as [Hx Hs]. split; [congruence|]. eapply IH; [exact Hs| |].
    + apply Hl, elem_of_cons. by left.
    + intros y Hy. apply Hl, elem_of_cons. by right.
Qed.

(** ** Circular lists *)

(** [clist h root l]: the head [root] represents the nodes [l], first to last;
    it points to the last one, which points to the first. *)
Definition clist (h : links) (root : Z) (l : list Z) : Prop :=
  NoDup l /\ root ∉ l /\ 0 ∉ l /\
  ((l = [] /\ nxt h root = 0) \/
   (exists i z, l = i ++ [z] /\ nxt h root = z /\ seg h z i z)).

Section Clist.
Variables (h : links) (root : Z).

Lemma clist_empty : clist h root [] -> nxt h root = 0.
Proof using.
  intros (_ & _ & _ & [[_ H]|(i & z & H & _)]); [done|]. by destruct i.
Qed.

Lemma clist_last i z :
  clist h root (i ++ [z]) ->
  nxt h root = z /\ seg h z i z /\ z <> 0 /\ root <> z /\ z ∉ i /\ root ∉ i /\ NoDup i /\ 0 ∉ i.
Proof using.
  intros (Hnd & Hr & H0 & [[H _]|(i' & z' & Hl & Hn & Hs)]); [by destruct i|].
  apply app_inj_2 in Hl as [<- Hz]; [|done]. injection Hz as <-.
  apply NoDup_app in Hnd as (Hi & Hd & _).
  rewrite elem_of_app, list_elem_of_singleton in Hr, H0.
  split_and!; try done; try tauto; try (by intros ->; tauto).
  intros Hz. apply (Hd _ Hz). by apply list_elem_of_singleton.
Qed.

Lemma clist_intro i z :
  nxt h root = z -> seg h z i z -> NoDup (i ++ [z]) -> root ∉ i ++ [z] -> 0 ∉ i ++ [z] ->
  clist h root (i ++ [z]).
Proof using. intros. split; [done|]. split; [done|]. split; [done|]. right. by exists i, z. Qed.
End Clist.

Lemma destruct_list_last (l : list Z) : l = [] \/ exists i z, l = i ++ [z].
Proof. induction l as [|z i _] using rev_ind; [by left|right; eauto]. Qed.

(** The last element decides the shape. *)
Ltac clist_cases l i z Hl :=
  destruct (destruct_list_last l) as [Hl | (i & z & Hl)]; subst l.

Lemma NoDup_snoc (l : list Z) x : NoDup (l ++ [x]) <-> x ∉ l /\ NoDup l.
Proof.
  rewrite NoDup_app. split.
  - intros (H1 & H2 & _). split; [|done]. intros Hx. apply (H2 _ Hx). by apply list_elem_of_singleton.
  - intros [H1 H2]. split_and!; [done| |apply NoDup_singleton].
    intros y Hy ->%list_elem_of_singleton. done.
Qed.

Lemma not_elem_snoc (l : list Z) x y : y ∉ l ++ [x] <-> y ∉ l /\ y <> x.
Proof. rewrite elem_of_app, list_elem_of_singleton. tauto. Qed.

Section ClistOps.
Variables (h : links) (root : Z).

Lemma clist_rpush_spec l x :
  clist h root l -> x ∉ l -> x <> root -> x <> 0 -> clist (clist_rpush h root x) root (l ++ [x]).
Proof using.
  intros Hc Hx Hr H0. pose proof Hc as (Hnd & Hrl & H0l & _).
  clist_cases l i z Hl; unfold clist_rpush.
  - rewrite (clist_empty _ _ Hc). cbn [negb Z.eqb].
    apply clist_intro; [by rewrite nxt_set_eq| | | |].
    + cbn. rewrite nxt_set_ne by done. apply nxt_set_eq.
    + apply NoDup_singleton.
    + by intros ->%list_elem_of_singleton.
    + by intros <-%list_elem_of_singleton.
  - destruct (clist_last _ _ _ _ Hc) as (Hn & Hs & Hz0 & Hrz & Hzi & Hri & Hni & H0i).
    apply not_elem_snoc in Hx as [Hxi Hxz]. rewrite Hn, (proj2 (Z.eqb_neq z 0)) by done. cbn [negb].
    rewrite (nxt_set_ne h x root), Hn by done.
    apply clist_intro; [apply nxt_set_eq| | | |].
    + apply seg_snoc. split.
      * eapply seg_move; [exact Hs| |].
        -- rewrite nxt_set_ne, nxt_set_ne, nxt_set_eq by done. done.
        -- intros y Hy. assert (y <> root /\ y <> z /\ y <> x) as (?&?&?) by (split_and!; intros ->; done).
           by rewrite !nxt_set_ne by done.
      * rewrite nxt_set_ne by done. apply nxt_set_eq.
    + apply NoDup_snoc. split; [apply not_elem_snoc; done|done].
    + rewrite !not_elem_snoc. done.
    + rewrite !not_elem_snoc. done.
Qed.

Lemma clist_lpush_spec l x :
  clist h root l -> x ∉ l -> x <> root -> x <> 0 -> clist (clist_lpush h root x) root (x :: l).
Proof using.
  intros Hc Hx Hr H0. pose proof Hc as (Hnd & Hrl & H0l & _).
  clist_cases l i z Hl; unfold clist_lpush.
  - rewrite (clist_empty _ _ Hc). cbn [negb Z.eqb].
    apply (clist_intro _ _ []); [by rewrite nxt_set_eq| | | |]; cbn [app].
    + cbn. rewrite nxt_set_ne by done. apply nxt_set_eq.
    + apply NoDup_singleton.
    + by intros ->%list_elem_of_singleton.
    + by intros <-%list_elem_of_singleton.
  - destruct (clist_last _ _ _ _ Hc) as (Hn & Hs & Hz0 & Hrz & Hzi & Hri & Hni & H0i).
    apply not_elem_snoc in Hx as [Hxi Hxz]. rewrite Hn, (proj2 (Z.eqb_neq z 0)) by done. cbn [negb].
    rewrite (nxt_set_ne h x root), Hn by done.
    apply (clist_intro _ _ (x :: i)); cbn [app].
    + rewrite !nxt_set_ne by done. done.
    + split; [apply nxt_set_eq|]. eapply seg_move; [exact Hs| |].
      * rewrite nxt_set_ne, nxt_set_eq by done. done.
      * intros y Hy. assert (y <> z /\ y <> x) as (?&?) by (split_and!; intros ->; done).
        by rewrite !nxt_set_ne by done.
    + apply NoDup_cons. split; [by apply not_elem_snoc|done].
    + rewrite not_elem_of_cons. done.
    + rewrite not_elem_of_cons. done.
Qed.

Lemma clist_lpeek_spec l : clist h root l -> clist_lpeek h root = default 0 (head l).
Proof using.
  intros Hc. clist_cases l i z Hl; unfold clist_lpeek.
  - by rewrite (clist_empty _ _ Hc).
  - destruct (clist_last _ _ _ _ Hc) as (-> & Hs & Hz0 & _). rewrite (proj2 (Z.eqb_neq z 0)) by done.
    destruct i; cbn in Hs; [done|apply Hs].
Qed.

Lemma clist_rpeek_spec l : clist h root l -> clist_rpeek h root = default 0 (list.last l).
Proof using.
  intros Hc. clist_cases l i z Hl; unfold clist_rpeek.
  - by rewrite (clist_empty _ _ Hc).
  - rewrite last_snoc. by destruct (clist_last _ _ _ _ Hc) as (-> & _).
Qed.

Lemma clist_lpop_spec l :
  clist h root l ->
  clist (fst (clist_lpop h root)) root (tail l) /\ snd (clist_lpop h root) = default 0 (head l).
Proof using.
  intros Hc. pose proof Hc as (Hnd & Hrl & H0l & _). clist_cases l i z Hl; unfold clist_lpop.
  - rewrite (clist_empty _ _ Hc). done.
  - destruct (clist_last _ _ _ _ Hc) as (-> & Hs & Hz0 & Hrz & Hzi & Hri & Hni & H0i).
    rewrite (proj2 (Z.eqb_neq z 0)) by done. cbn [negb].
    destruct i as [|x i]; cbn in Hs; cbn [app tail head default].
    + rewrite Hs, Z.eqb_refl. cbn [fst snd]. split; [|done].
      split; [apply NoDup_nil_2|]. split; [apply not_elem_of_nil|]. split; [apply not_elem_of_nil|].
      left. split; [done|apply nxt_set_eq].
    + destruct Hs as [Hx Hs]. rewrite Hx. apply not_elem_of_cons in Hzi as [Hzx Hzi].
      apply not_elem_of_cons in Hri as [Hrx Hri]. apply NoDup_cons in Hni as [Hxi Hni].
      apply not_elem_of_cons in H0i as [H0x H0i].
      rewrite (proj2 (Z.eqb_neq z x)) by done. cbn [fst snd]. split; [|done].
      cbn [app] in Hnd, Hrl, H0l. apply NoDup_cons in Hnd as [_ Hnd].
      apply not_elem_of_cons in Hrl as [_ Hrl]. apply not_elem_of_cons in H0l as [_ H0l].
      apply clist_intro; [|  |done|done|done].
      * rewrite nxt_set_ne by done. by destruct (clist_last _ _ _ _ Hc) as (-> & _).
      * eapply seg_move; [exact Hs|by rewrite nxt_set_eq|].
        intros y Hy. rewrite nxt_set_ne; [done|]. by intros ->.
Qed.

Definition rotate (l : list Z) : list Z := match l with [] => [] | x :: l => l ++ [x] end.

Lemma clist_lpoprpush_spec l : clist h root l -> clist (clist_lpoprpush h root) root (rotate l).
Proof using.
  intros Hc. pose proof Hc as (Hnd & Hrl & H0l & _). clist_cases l i z Hl; unfold clist_lpoprpush.
  - rewrite (clist_empty _ _ Hc). done.
  - destruct (clist_last _ _ _ _ Hc) as (-> & Hs & Hz0 & Hrz & Hzi & Hri & Hni & H0i).
    rewrite (proj2 (Z.eqb_neq z 0)) by done. cbn [negb].
    destruct i as [|x i]; cbn in Hs; cbn [app rotate].
    + rewrite Hs. apply (clist_intro _ _ []); [by rewrite nxt_set_eq| |done|done|done].
      cbn. by rewrite nxt_set_ne.
    + destruct Hs as [Hx Hs]. rewrite Hx. apply clist_intro; [by rewrite nxt_set_eq| | | |].
      * assert (forall y, y ∈ (x :: i) ++ [z] -> nxt (set_nxt h root x) y = nxt h y) as Hsame.
        { intros y Hy. apply nxt_set_ne. by intros ->. }
        apply seg_snoc. split.
        -- eapply seg_move; [exact Hs| |]; [|intros y Hy]; apply Hsame; set_solver.
        -- rewrite Hsame by set_solver. done.
      * cbn [app] in Hnd. apply NoDup_cons in Hnd as [H1 H2]. by apply NoDup_snoc.
      * cbn [app] in Hrl. apply not_elem_of_cons in Hrl as [H1 H2]. by apply not_elem_snoc.
      * cbn [app] in H0l. apply not_elem_of_cons in H0l as [H1 H2]. by apply not_elem_snoc.
Qed.
End ClistOps.

Section ClistLoops.
Variables (h : links) (root : Z).

Lemma count_loop_spec fuel a l z cnt :
  seg h a l z -> z ∉ l -> nxt h root = z -> (length l < fuel)%nat ->
  count_loop fuel h root a cnt = Some (cnt + Z.of_nat (length l) + 1).
Proof using.
  revert a l cnt. induction fuel as [|fuel IH]; intros a l cnt Hs Hz Hr Hf; [lia|].
  cbn [count_loop]. destruct l as [|x l]; cbn in Hs.
  - rewrite Hs, Hr, Z.eqb_refl. cbn. f_equal. lia.
  - destruct Hs as [-> Hs]. apply not_elem_of_cons in Hz as [Hzx Hz].
    rewrite Hr, (proj2 (Z.eqb_neq x z)) by done. cbn [negb].
    rewrite (IH x l) by (done || (cbn in Hf; lia)). cbn [length]. f_equal. lia.
Qed.

Lemma clist_count_spec fuel l :
  clist h root l -> (length l < fuel)%nat -> clist_count fuel h root = Some (Z.of_nat (length l)).
Proof using.
  intros Hc Hf. clist_cases l i z Hl; unfold clist_count.
  - by rewrite (clist_empty _ _ Hc).
  - destruct (clist_last _ _ _ _ Hc) as (Hr & Hs & Hz0 & _ & Hzi & _).
    rewrite Hr, (proj2 (Z.eqb_neq z 0)) by done. cbn [negb]. rewrite length_app in Hf. cbn in Hf.
    rewrite (count_loop_spec fuel z i z) by (done || lia). rewrite length_app. f_equal. cbn. lia.
Qed.

(** The walk finds the node whose successor is sought, or visits all. *)
Lemma find_loop_spec fuel a l z node :
  seg h a l z -> z ∉ l -> nxt h root = z -> (length l < fuel)%nat ->
  exists p, find_loop fuel h root node a = Some p /\
    ((p ∈ l ++ [z] /\ nxt h p = node) \/ (p = 0 /\ forall y, y ∈ l ++ [z] -> nxt h y <> node)).
Proof using.
  revert a l. induction fuel as [|fuel IH]; intros a l Hs Hz Hr Hf; [lia|].
  cbn [find_loop]. destruct l as [|x l]; cbn in Hs.
  - rewrite Hs. destruct (Z.eqb_spec (nxt h z) node) as [E|E].
    + exists z. split; [done|]. left. split; [apply list_elem_of_singleton; done|done].
    + rewrite Hr, Z.eqb_refl. cbn. exists 0. split; [done|]. right. split; [done|].
      by intros y ->%list_elem_of_singleton.
  - destruct Hs as [-> Hs]. apply not_elem_of_cons in Hz as [Hzx Hz].
    destruct (Z.eqb_spec (nxt h x) node) as [E|E].
    + exists x. split; [done|]. left. split; [apply elem_of_cons; by left|done].
    + rewrite Hr, (proj2 (Z.eqb_neq x z)) by done. cbn [negb].
      destruct (IH x l) as (p & Hp & Hcase); [done|done|done|cbn in Hf; lia|].
      exists p. split; [done|]. destruct Hcase as [[Hin Hn]|[H0 Hall]].
      * left. split; [|done]. cbn [app]. apply elem_of_cons. by right.
      * right. split; [done|]. cbn [app]. intros y [-> | Hy]%elem_of_cons; [done|by apply Hall].
Qed.

Lemma seg_succ a l z y : seg h a l z -> y ∈ a :: l -> nxt h y ∈ l ++ [z].
Proof using.
  revert a. induction l as [|x l IH]; intros a Hs Hy; cbn in *.
  - apply list_elem_of_singleton in Hy as ->. rewrite Hs. by apply list_elem_of_singleton.
  - destruct Hs as [Hx Hs]. apply elem_of_cons in Hy as [-> | Hy].
    + rewrite Hx. apply elem_of_cons. by left.
    + apply elem_of_cons. right. by apply (IH x).
Qed.

Lemma seg_pred a l z y : seg h a l z -> y ∈ l ++ [z] -> exists p, p ∈ a :: l /\ nxt h p = y.
Proof using.
  revert a. induction l as [|x l IH]; intros a Hs Hy; cbn in *.
  - apply list_elem_of_singleton in Hy as ->. exists a. split; [by apply list_elem_of_singleton|done].
  - destruct Hs as [Hx Hs]. apply elem_of_cons in Hy as [-> | Hy].
    + exists a. split; [apply elem_of_cons; by left|done].
    + destruct (IH x Hs Hy) as (p & Hp & Hn). exists p. split; [apply elem_of_cons; by right|done].
Qed.

Lemma clist_find_before_spec fuel l node :
  clist h root l -> (length l < fuel)%nat ->
  exists p, clist_find_before fuel h root node = Some p /\
    ((p ∈ l /\ nxt h p = node /\ node ∈ l) \/ (p = 0 /\ node ∉ l)).
Proof using.
  intros Hc Hf. clist_cases l i z Hl; unfold clist_find_before.
  - rewrite (clist_empty _ _ Hc). exists 0. split; [done|]. right. split; [done|apply not_elem_of_nil].
  - destruct (clist_last _ _ _ _ Hc) as (Hr & Hs & Hz0 & _ & Hzi & _).
    rewrite Hr, (proj2 (Z.eqb_neq z 0)) by done. rewrite length_app in Hf. cbn in Hf.
    destruct (find_loop_spec fuel z i z node Hs Hzi Hr ltac:(lia)) as (p & -> & [[Hp Hn]|[-> Hall]]).
    + exists p. split; [done|]. left. split_and!; [done|done|].
      rewrite <- Hn. eapply seg_succ; [exact Hs|].
      apply elem_of_app in Hp as [Hp|Hp%list_elem_of_singleton]; apply elem_of_cons; [by right|by left].
    + exists 0. split; [done|]. right. split; [done|]. intros Hin.
      destruct (seg_pred _ _ _ _ Hs Hin) as (p & Hp & Hn). apply (Hall p); [|done].
      apply elem_of_cons in Hp as [-> | Hp]; apply elem_of_app;
        [right; by apply list_elem_of_singleton|by left].
Qed.

Lemma clist_find_spec fuel l node :
  clist h root l -> (length l < fuel)%nat ->
  clist_find fuel h root node = Some (if decide (node ∈ l) then node else 0).
Proof using.
  intros Hc Hf. unfold clist_find.
  destruct (clist_find_before_spec fuel l node Hc Hf) as (p & -> & [(Hp & Hn & Hin)|[-> Hin]]).
  - assert (p <> 0) by (intros ->; by apply Hc in Hp).
    rewrite (proj2 (Z.eqb_neq p 0)) by done. cbn [negb]. by rewrite Hn, decide_True.
  - by rewrite decide_False.
Qed.

(** In a list without repetitions a node has one predecessor. *)
Lemma seg_pred_unique a l z p q :
  seg h a l z -> NoDup (l ++ [z]) -> p ∈ a :: l -> q ∈ a :: l -> a ∉ l -> nxt h p = nxt h q -> p = q.
Proof using.
  revert a. induction l as [|x l IH]; intros a Hs Hnd Hp Hq Ha E.
  - apply list_elem_of_singleton in Hp as ->, Hq as ->. done.
  - cbn in Hs, Hnd. destruct Hs as [Hx Hs]. apply NoDup_cons in Hnd as [Hxl Hnd].
    apply elem_of_cons in Hp as [-> | Hp], Hq as [-> | Hq]; [done| | |].
    + exfalso. apply Hxl. rewrite <- Hx, E. by apply (seg_succ x).
    + exfalso. apply Hxl. rewrite <- Hx, <- E. by apply (seg_succ x).
    + apply (IH x); try done. intros Hin. apply Hxl, elem_of_app. by left.
Qed.
End ClistLoops.

(** Rotating until the last element is the first. *)
Lemma rpop_loop_spec fuel h root a z b :
  clist h root (a ++ z :: b) -> (length a < fuel)%nat ->
  exists h', rpop_loop fuel h root z = Some h' /\ clist h' root (z :: b ++ a).
Proof.
  revert h b fuel. induction a as [|x a IH]; intros h b fuel Hc Hf;
    (destruct fuel as [|fuel]; [cbn in Hf; lia|]); cbn [rpop_loop].
  - pose proof (clist_lpeek_spec _ _ _ Hc) as Hp. unfold clist_lpeek in Hp.
    destruct (Z.eqb_spec (nxt h root) 0) as [E|E]; cbn in Hp.
    { exfalso. destruct Hc as (_ & _ & H0 & _). apply H0. rewrite Hp. apply elem_of_cons. by left. }
    rewrite Hp, Z.eqb_refl. exists h. by rewrite app_nil_r.
  - pose proof (clist_lpeek_spec _ _ _ Hc) as Hp. unfold clist_lpeek in Hp.
    pose proof Hc as (Hnd & _ & H0 & _).
    destruct (Z.eqb_spec (nxt h root) 0) as [E|E]; cbn in Hp.
    { exfalso. apply H0. rewrite Hp. apply elem_of_cons. by left. }
    assert (x <> z) as Hxz.
    { intros ->. cbn in Hnd. apply NoDup_cons in Hnd as [Hn _]. apply Hn, elem_of_app. right.
      apply elem_of_cons. by left. }
    rewrite Hp, (proj2 (Z.eqb_neq x z)) by done. cbn [negb].
    destruct (IH (clist_lpoprpush h root) (b ++ [x]) fuel) as (h' & Hl & Hc').
    + pose proof (clist_lpoprpush_spec _ _ _ Hc) as Hr. cbn [rotate app] in Hr.
      by rewrite <- app_assoc in Hr.
    + cbn in Hf. lia.
    + exists h'. split; [done|]. by rewrite <- app_assoc in Hc'.
Qed.

Lemma clist_rpop_spec fuel h root l :
  clist h root l -> (length l < fuel)%nat ->
  exists h', clist_rpop fuel h root = Some (h', default 0 (list.last l)) /\ clist h' root (removelast l).
Proof.
  intros Hc Hf. clist_cases l i z Hl; unfold clist_rpop.
  - rewrite (clist_empty _ _ Hc). cbn. by exists h.
  - destruct (clist_last _ _ _ _ Hc) as (Hr & _ & Hz0 & _).
    rewrite Hr, (proj2 (Z.eqb_neq z 0)) by done. cbn [negb]. rewrite length_app in Hf. cbn in Hf.
    destruct (rpop_loop_spec fuel h root i z [] Hc) as (h' & -> & Hc'); [lia|].
    destruct (clist_lpop_spec _ _ _ Hc') as [Hp Hv]. cbn [tail head app] in Hp, Hv.
    destruct (clist_lpop h' root) as [h'' v]. cbn in Hp, Hv. subst v.
    exists h''. rewrite last_snoc, removelast_last. done.
Qed.

(** Unlinking a node that is not the first. *)
Lemma clist_unlink h root l1 p node l2 :
  clist h root (l1 ++ p :: node :: l2) ->
  let h1 := set_nxt h p (nxt h (nxt h p)) in
  let h2 := if node =? nxt h1 root then set_nxt h1 root p else h1 in
  nxt h p = node /\ clist h2 root (l1 ++ p :: l2).
Proof.
  intros Hc h1 h2. pose proof Hc as (Hnd & Hrl & H0l & _).
  assert (Permutation (node :: l1 ++ p :: l2) (l1 ++ p :: node :: l2)) as HP.
  { change (l1 ++ p :: node :: l2) with (l1 ++ [p] ++ node :: l2).
    change (l1 ++ p :: l2) with (l1 ++ [p] ++ l2). rewrite !app_assoc. apply Permutation_middle. }
  assert (NoDup (l1 ++ p :: l2) /\ node ∉ l1 ++ p :: l2) as [Hnd' Hnode].
  { rewrite <- HP in Hnd. apply NoDup_cons in Hnd. tauto. }
  assert (root ∉ l1 ++ p :: l2 /\ root <> node) as [Hrl' Hrn].
  { rewrite <- HP in Hrl. apply not_elem_of_cons in Hrl. tauto. }
  assert (0 ∉ l1 ++ p :: l2) as H0l' by (rewrite <- HP in H0l; apply not_elem_of_cons in H0l; tauto).
  assert (root <> p) as Hrp by (intros ->; apply Hrl', elem_of_app; right; apply elem_of_cons; by left).
  assert (p <> node) as Hpn by (intros ->; apply Hnode, elem_of_app; right; apply elem_of_cons; by left).
  assert (p ∉ l1 /\ p ∉ l2) as [Hp1 Hp2].
  { apply NoDup_app in Hnd' as (_ & Hd & Hpl). apply NoDup_cons in Hpl as [Hp2 _].
    split; [|done]. intros Hin. apply (Hd _ Hin), elem_of_cons. by left. }
  clist_cases l2 i z Hl.
  - replace (l1 ++ [p; node]) with ((l1 ++ [p]) ++ [node]) in * by (by rewrite <- app_assoc).
    destruct (clist_last _ _ _ _ Hc) as (Hr & Hs & Hz0 & _). apply seg_snoc in Hs as [Hs Hn].
    split; [done|]. unfold h2, h1. rewrite nxt_set_ne by done. rewrite Hr, Z.eqb_refl.
    apply clist_intro; [by rewrite nxt_set_eq| |done|done|done].
    eapply seg_move; [exact Hs|rewrite nxt_set_ne by done; by rewrite nxt_set_eq, Hn|].
    intros y Hy. rewrite !nxt_set_ne; [done|by intros ->|].
    intros <-. apply Hrl'. apply elem_of_app. by left.
  - replace (l1 ++ p :: node :: i ++ [z]) with ((l1 ++ p :: node :: i) ++ [z]) in *
      by (by rewrite <- app_assoc).
    replace (l1 ++ p :: i ++ [z]) with ((l1 ++ p :: i) ++ [z]) in * by (by rewrite <- app_assoc).
    destruct (clist_last _ _ _ _ Hc) as (Hr & Hs & Hz0 & _).
    apply seg_app in Hs as [Hs1 Hs2]. destruct Hs2 as [Hn Hs2].
    apply not_elem_snoc in Hp2 as [Hpi Hpz]. apply not_elem_snoc in Hnode as [Hnl Hnz].
    split; [done|]. unfold h2, h1. rewrite nxt_set_ne by done.
    rewrite Hr, (proj2 (Z.eqb_neq node z)) by done.
    apply clist_intro; [by rewrite nxt_set_ne| |done|done|done].
    apply seg_app. split.
    + eapply seg_move; [exact Hs1|by rewrite nxt_set_ne|]. intros y Hy. apply nxt_set_ne. by intros ->.
    + eapply seg_move; [exact Hs2|by rewrite nxt_set_eq, Hn|]. intros y Hy. apply nxt_set_ne. by intros ->.
Qed.

(** The nodes of a non-empty list as a cycle. *)
Lemma clist_cycle h root l :
  clist h root l -> l <> [] ->
  exists z i, l = i ++ [z] /\ seg h z i z /\ NoDup (i ++ [z]) /\ z ∉ i /\
    forall y, y ∈ l -> y ∈ z :: i.
Proof.
  intros Hc Hne. pose proof Hc as (Hnd & _). clist_cases l i z Hl; [done|].
  destruct (clist_last _ _ _ _ Hc) as (_ & Hs & _ & _ & Hzi & _). exists z, i. split_and!; try done.
  intros y [Hy|Hy%list_elem_of_singleton]%elem_of_app; apply elem_of_cons; [by right|by left].
Qed.

(** The list without a node. *)
Definition remove1 (x : Z) (l : list Z) : list Z := filter (fun y => y <> x) l.

Lemma remove1_not_in x l : x ∉ l -> remove1 x l = l.
Proof.
  intros Hx. unfold remove1. induction l as [|y l IH]; [done|].
  apply not_elem_of_cons in Hx as [Hxy Hx]. rewrite filter_cons_True by done. by rewrite IH.
Qed.

Lemma remove1_mid x l1 l2 : x ∉ l1 -> x ∉ l2 -> remove1 x (l1 ++ x :: l2) = l1 ++ l2.
Proof.
  intros H1 H2. unfold remove1. rewrite filter_app, filter_cons_False by tauto.
  fold (remove1 x l1). fold (remove1 x l2). by rewrite !remove1_not_in.
Qed.

Lemma clist_remove_spec fuel h root l node :
  clist h root l -> (length l < fuel)%nat -> node <> 0 ->
  exists h', clist_remove fuel h root node = Some (h', if decide (node ∈ l) then node else 0) /\
    clist h' root (remove1 node l).
Proof.
  intros Hc Hf Hn0. pose proof Hc as (Hnd & Hrl & H0l & _).
  pose proof (clist_lpeek_spec _ _ _ Hc) as Hp. unfold clist_lpeek in Hp.
  unfold clist_remove. destruct (Z.eqb_spec (nxt h root) 0) as [E|E]; cbn [negb] in Hp |- *.
  { destruct l as [|x l]; [|exfalso; apply H0l; cbn in Hp; rewrite Hp; apply elem_of_cons; by left].
    rewrite decide_False by apply not_elem_of_nil. by exists h. }
  destruct l as [|x l]; [by apply clist_empty in Hc|]. cbn in Hp. rewrite Hp.
  apply NoDup_cons in Hnd as [Hxl Hnd].
  destruct (Z.eqb_spec x node) as [->|Hne].
  { destruct (clist_lpop_spec _ _ _ Hc) as [Hpop Hv]. cbn in Hpop, Hv.
    rewrite decide_True by (apply elem_of_cons; by left).
    destruct (clist_lpop h root) as [h' v]. cbn in Hpop, Hv. subst v. exists h'. split; [done|].
    unfold remove1. rewrite filter_cons_False by tauto. fold (remove1 node l).
    by rewrite remove1_not_in. }
  destruct (clist_find_before_spec h root fuel (x :: l) node Hc Hf)
    as (tmp & -> & [(Ht & Hn & Hin)|[-> Hin]]).
  2:{ cbn [Z.eqb negb]. exists h. rewrite decide_False, remove1_not_in by done. done. }
  assert (tmp <> 0) as Ht0 by (by intros ->). rewrite (proj2 (Z.eqb_neq tmp 0)) by done. cbn [negb].
  rewrite decide_True by done.
  apply list_elem_of_split in Hin as (l1 & l2 & Hl).
  destruct (destruct_list_last l1) as [-> | (l1' & p & ->)]; [cbn in Hl; congruence|].
  rewrite <- app_assoc in Hl. cbn in Hl. rewrite Hl in *.
  destruct (clist_unlink _ _ _ _ _ _ Hc) as [Hpn Hc'].
  assert (tmp = p) as ->.
  { destruct (clist_cycle _ _ _ Hc) as (z & i & Hi & Hs & Hni & Hzi & Hset); [by destruct l1'|].
    apply (seg_pred_unique h z i z); [done|done|apply Hset; done|apply Hset|done|congruence].
    apply elem_of_app. right. apply elem_of_cons. by left. }
  eexists. split; [reflexivity|].
  pose proof Hc as (Hnd' & _).
  assert (node ∉ l1' ++ [p] /\ node ∉ l2) as [Hn1 Hn2].
  { change (l1' ++ p :: node :: l2) with (l1' ++ [p] ++ node :: l2) in Hnd'. rewrite app_assoc in Hnd'.
    apply NoDup_app in Hnd' as (_ & Hd & Hnl). apply NoDup_cons in Hnl as [Hn2 _]. split; [|done].
    intros Hin. apply (Hd _ Hin), elem_of_cons. by left. }
  change (l1' ++ p :: node :: l2) with (l1' ++ [p] ++ node :: l2). rewrite app_assoc.
  rewrite remove1_mid by done. rewrite <- app_assoc. exact Hc'.
Qed.

(** ** Queries *)

(** The node in front of [x], when [p] is in front of the first. *)
Fixpoint prev (p : Z) (l : list Z) (x : Z) : Z :=
  match l with [] => 0 | y :: l => if y =? x then p else prev y l x end.

Lemma seg_prev h a l z x :
  seg h a l z -> x ∈ l ++ [z] -> nxt h (prev a (l ++ [z]) x) = x /\ prev a (l ++ [z]) x ∈ a :: l.
Proof.
  revert a. induction l as [|y l IH]; intros a Hs Hx; cbn in *.
  - apply list_elem_of_singleton in Hx as ->. rewrite Z.eqb_refl. split; [done|by left].
  - destruct Hs as [Hy Hs]. destruct (Z.eqb_spec y x) as [->|Hne]; [split; [done|by left]|].
    apply elem_of_cons in Hx as [->|Hx]; [done|]. destruct (IH y Hs Hx) as [H1 H2]. split; [done|by right].
Qed.

Lemma clist_find_before_prev fuel h root l node :
  clist h root l -> (length l < fuel)%nat ->
  clist_find_before fuel h root node =
    Some (if decide (node ∈ l) then prev (default 0 (list.last l)) l node else 0).
Proof.
  intros Hc Hf. destruct (clist_find_before_spec _ _ fuel l node Hc Hf) as (p & -> & [(Hp & Hn & Hin)|[-> Hin]]);
    [rewrite decide_True by done|by rewrite decide_False].
  pose proof Hc as (Hnd & _). f_equal. clist_cases l i z Hl; [by apply not_elem_of_nil in Hin|].
  destruct (clist_last _ _ _ _ Hc) as (_ & Hs & _ & _ & Hzi & _). rewrite last_snoc. cbn [default from_option id].
  destruct (seg_prev h z i z node Hs Hin) as [H1 H2].
  apply (seg_pred_unique h z i z); [done|done| |done|done|congruence].
  apply elem_of_app in Hp as [Hp|Hp%list_elem_of_singleton]; apply elem_of_cons; auto.
Qed.

(** The first node of a list that [f] accepts, or NULL. *)
Fixpoint first_sat (f : Z -> bool) (l : list Z) : Z :=
  match l with [] => 0 | x :: l => if f x then x else first_sat f l end.

Lemma foreach_loop_spec fuel h root a l z f :
  seg h a l z -> z ∉ l -> nxt h root = z -> (length l < fuel)%nat ->
  foreach_loop fuel h root f a = Some (first_sat f (l ++ [z])).
Proof.
  revert a l. induction fuel as [|fuel IH]; intros a l Hs Hz Hr Hf; [lia|].
  cbn [foreach_loop]. destruct l as [|x l]; cbn in Hs |- *.
  - rewrite Hs. destruct (f z); [done|]. by rewrite Hr, Z.eqb_refl.
  - destruct Hs as [-> Hs]. apply not_elem_of_cons in Hz as [Hzx Hz]. destruct (f x); [done|].
    rewrite Hr, (proj2 (Z.eqb_neq x z)) by done. cbn [negb]. apply IH; try done. cbn in Hf. lia.
Qed.

Lemma clist_foreach_spec fuel h root l f :
  clist h root l -> (length l < fuel)%nat -> clist_foreach fuel h root f = Some (first_sat f l).
Proof.
  intros Hc Hf. clist_cases l i z Hl; unfold clist_foreach.
  - by rewrite (clist_empty _ _ Hc).
  - destruct (clist_last _ _ _ _ Hc) as (Hr & Hs & Hz0 & _ & Hzi & _).
    rewrite Hr, (proj2 (Z.eqb_neq z 0)) by done. cbn [negb]. rewrite length_app in Hf. cbn in Hf.
    apply foreach_loop_spec; done || lia.
Qed.

Lemma clist_tests h root l :
  clist h root l ->
  clist_is_empty h root = bool_decide (l = []) /\
  clist_exactly_one h root = bool_decide (length l = 1%nat) /\
  clist_more_than_one h root = bool_decide (1 < length l)%nat.
Proof.
  intros Hc. unfold clist_exactly_one, clist_more_than_one, clist_is_empty. clist_cases l i z Hl.
  - by rewrite (clist_empty _ _ Hc).
  - destruct (clist_last _ _ _ _ Hc) as (Hr & Hs & Hz0 & _ & Hzi & _).
    rewrite Hr, (proj2 (Z.eqb_neq z 0)) by done. cbn [negb andb].
    rewrite bool_decide_eq_false_2 by (by destruct i). destruct i as [|y i]; cbn in Hs |- *.
    + rewrite Hs, Z.eqb_refl. done.
    + destruct Hs as [-> _]. apply not_elem_of_cons in Hzi as [Hzy _]. rewrite (proj2 (Z.eqb_neq z y)) by done.
      rewrite length_app. cbn [length negb]. rewrite bool_decide_eq_false_2, bool_decide_eq_true_2 by lia. done.
Qed.

(** ** Refinement *)

Inductive cop :=
| IsEmpty | ExactlyOne | MoreThanOne | FindBefore (x : Z) | Foreach (f : Z -> bool)
| RPush (x : Z) | LPush (x : Z) | LPop | RPop | LPopRPush | LPeek | RPeek | Find (x : Z)
| Remove (x : Z) | Count.

(** A call on the store: its result ([0] for calls without one) and the store. *)
Definition cstep (fuel : nat) (root : Z) (o : cop) (h : links) : option (Z * links) :=
  match o with
  | IsEmpty => Some (Z.b2z (clist_is_empty h root), h)
  | ExactlyOne => Some (Z.b2z (clist_exactly_one h root), h)
  | MoreThanOne => Some (Z.b2z (clist_more_than_one h root), h)
  | FindBefore x => match clist_find_before fuel h root x with Some y => Some (y, h) | None => None end
  | Foreach f => match clist_foreach fuel h root f with Some y => Some (y, h) | None => None end
  | RPush x => Some (0, clist_rpush h root x)
  | LPush x => Some (0, clist_lpush h root x)
  | LPop => let '(h, x) := clist_lpop h root in Some (x, h)
  | RPop => match clist_rpop fuel h root with Some (h, x) => Some (x, h) | None => None end
  | LPopRPush => Some (0, clist_lpoprpush h root)
  | LPeek => Some (clist_lpeek h root, h)
  | RPeek => Some (clist_rpeek h root, h)
  | Find x => match clist_find fuel h root x with Some y => Some (y, h) | None => None end
  | Remove x => match clist_remove fuel h root x with Some (h, y) => Some (y, h) | None => None end
  | Count => match clist_count fuel h root with Some n => Some (n, h) | None => None end
  end.

(** The same call on a list of nodes. *)
Definition cspec (o : cop) (l : list Z) : Z * list Z :=
  match o with
  | IsEmpty => (Z.b2z (bool_decide (l = [])), l)
  | ExactlyOne => (Z.b2z (bool_decide (length l = 1%nat)), l)
  | MoreThanOne => (Z.b2z (bool_decide (1 < length l)%nat), l)
  | FindBefore x => (if decide (x ∈ l) then prev (default 0 (list.last l)) l x else 0, l)
  | Foreach f => (first_sat f l, l)
  | RPush x => (0, l ++ [x])
  | LPush x => (0, x :: l)
  | LPop => (default 0 (head l), tail l)
  | RPop => (default 0 (list.last l), removelast l)
  | LPopRPush => (0, rotate l)
  | LPeek => (default 0 (head l), l)
  | RPeek => (default 0 (list.last l), l)
  | Find x => (if decide (x ∈ l) then x else 0, l)
  | Remove x => (if decide (x ∈ l) then x else 0, remove1 x l)
  | Count => (Z.of_nat (length l), l)
  end.

(** New nodes are neither in the list nor its head. *)
Definition cop_ok (root : Z) (l : list Z) (o : cop) : Prop :=
  match o with
  | RPush x | LPush x => x ∉ l /\ x <> root /\ x <> 0
  | Remove x => x <> 0
  | _ => True
  end.

(** C29: Circular lists refine lists: every operation of clist.h but sorting (which has
    a theorem of its own) terminates within one turn around the list, returns
    what the list operation returns, and leaves the head representing the
    resulting list.  A node that is pushed is not in the list, nor its head. *)
Theorem clist_refines fuel h root l o :
  clist h root l -> (length l < fuel)%nat -> cop_ok root l o ->
  exists h', cstep fuel root o h = Some (fst (cspec o l), h') /\ clist h' root (snd (cspec o l)).
Proof.
  intros Hc Hf Hok. destruct o as [| | |x|f|x|x| | | | | |x|x|]; cbn [cstep cspec fst snd].
  - destruct (clist_tests _ _ _ Hc) as (-> & _ & _). by exists h.
  - destruct (clist_tests _ _ _ Hc) as (_ & -> & _). by exists h.
  - destruct (clist_tests _ _ _ Hc) as (_ & _ & ->). by exists h.
  - rewrite (clist_find_before_prev fuel _ _ _ _ Hc Hf). by exists h.
  - rewrite (clist_foreach_spec fuel _ _ _ _ Hc Hf). by exists h.
  - eexists. split; [reflexivity|]. by apply clist_rpush_spec; destruct Hok as (?&?&?).
  - eexists. split; [reflexivity|]. by apply clist_lpush_spec; destruct Hok as (?&?&?).
  - destruct (clist_lpop_spec _ _ _ Hc) as [Hp Hv]. destruct (clist_lpop h root) as [h' v].
    cbn in Hp, Hv. subst v. by exists h'.
  - destruct (clist_rpop_spec fuel _ _ _ Hc Hf) as (h' & -> & Hp). by exists h'.
  - eexists. split; [reflexivity|]. by apply clist_lpoprpush_spec.
  - rewrite (clist_lpeek_spec _ _ _ Hc). by exists h.
  - rewrite (clist_rpeek_spec _ _ _ Hc). by exists h.
  - rewrite (clist_find_spec _ _ fuel _ _ Hc Hf). by exists h.
  - destruct (clist_remove_spec fuel _ _ _ _ Hc Hf Hok) as (h' & -> & Hp). by exists h'.
  - rewrite (clist_count_spec _ _ fuel _ Hc Hf). by exists h.
Qed.

(** A list of three nodes behind the head at address 1. *)
Definition demo_links : links :=
  clist_rpush (clist_rpush (clist_rpush ∅ 1 10) 1 20) 1 30.

Lemma demo_clist : clist demo_links 1 [10; 20; 30].
Proof.
  split; [repeat (apply NoDup_cons; split; [set_solver|]); apply NoDup_nil_2|].
  split; [set_solver|]. split; [set_solver|]. right. exists [10; 20], 30.
  vm_compute. repeat split.
Qed.

Lemma clist_refines_witness :
  exists h', cstep 5 1 (Remove 20) demo_links = Some (20, h') /\ clist h' 1 [10; 30].
Proof.
  destruct (clist_refines 5 demo_links 1 [10; 20; 30] (Remove 20)) as (h' & H1 & H2).
  - exact demo_clist.
  - cbn. lia.
  - discriminate.
  - exists h'. split; [exact H1|exact H2].
Defined.

(** ** [priority_queue.c] *)

Inductive pq_error := AssertFailed | NoFuel.

Fixpoint pq_remove_loop (fuel : nat) (h : links) (root node : Z) : res pq_error links :=
  match fuel with
  | O => Err NoFuel
  | S fuel =>
      if negb (nxt h root =? 0) then
        if nxt h root =? node then
          let h := set_nxt h root (nxt h node) in Ok (set_nxt h node 0)
        else pq_remove_loop fuel h (nxt h root) node
      else Ok h
  end.
Definition priority_queue_remove (fuel : nat) (h : links) (root node : Z) : res pq_error links :=
  pq_remove_loop fuel h root node.

Definition priority_queue_remove_head (h : links) (root : Z) : links * Z :=
  let head := nxt h root in
  (if negb (head =? 0) then set_nxt h root (nxt h head) else h, head).

Lemma pq_remove_loop_spec fuel h root node l :
  seg h root l 0 -> NoDup (root :: l) -> 0 ∉ l -> node <> root -> (length l < fuel)%nat ->
  exists h', pq_remove_loop fuel h root node = Ok h' /\ seg h' root (remove1 node l) 0 /\
    (node ∈ l -> nxt h' node = 0) /\ (forall y, y ∉ root :: l -> nxt h' y = nxt h y).
Proof.
  revert root l. induction fuel as [|fuel IH]; intros root l Hs Hnd H0 Hne Hf; [lia|].
  apply NoDup_cons in Hnd as [Hrl Hnd]. cbn [pq_remove_loop]. destruct l as [|y l]; cbn in Hs.
  - rewrite Hs. cbn [Z.eqb negb]. exists h. split_and!; try done. by intros ?%elem_of_nil.
  - destruct Hs as [Hy Hs]. rewrite Hy. apply not_elem_of_cons in H0 as [H0y H0].
    apply not_elem_of_cons in Hrl as [Hry Hrl]. apply NoDup_cons in Hnd as [Hyl Hnd].
    rewrite (proj2 (Z.eqb_neq y 0)) by done. cbn [negb].
    destruct (Z.eqb_spec y node) as [<-|Hyn].
    + eexists. split; [reflexivity|].
      assert (remove1 y (y :: l) = l) as ->.
      { unfold remove1. rewrite filter_cons_False by tauto. fold (remove1 y l). by apply remove1_not_in. }
      split_and!.
      * eapply seg_move; [exact Hs| |].
        -- by rewrite nxt_set_ne, nxt_set_eq.
        -- intros z Hz. rewrite !nxt_set_ne; [done|by intros ->|by intros ->].
      * intros _. apply nxt_set_eq.
      * intros z Hz. apply not_elem_of_cons in Hz as [Hz1 Hz2].
        apply not_elem_of_cons in Hz2 as [Hz2 _]. by rewrite !nxt_set_ne.
    + destruct (IH y l Hs) as (h' & Hl & Hs' & Hn & Hfr);
        [by apply NoDup_cons|done|done|cbn in Hf; lia|].
      exists h'. split; [done|].
      assert (remove1 node (y :: l) = y :: remove1 node l) as ->
        by (unfold remove1; by rewrite filter_cons_True).
      split_and!.
      * cbn. split; [|done]. rewrite Hfr; [done|]. by apply not_elem_of_cons.
      * intros [-> | Hin]%elem_of_cons; [done|by apply Hn].
      * intros z Hz. apply not_elem_of_cons in Hz as [Hz1 Hz2]. by apply Hfr.
Qed.

Section PriorityQueue.
(** The [priority] member of a node. *)
Variable priority : Z -> Z.

Fixpoint pq_add_loop (fuel : nat) (h : links) (node new_obj : Z) : res pq_error links :=
  match fuel with
  | O => Err NoFuel
  | S fuel =>
      if negb (nxt h node =? 0) then
        if nxt h node =? new_obj then Err AssertFailed
        else if priority new_obj <? priority (nxt h node) then
          let h := set_nxt h new_obj (nxt h node) in Ok (set_nxt h node new_obj)
        else pq_add_loop fuel h (nxt h node) new_obj
      else
        let h := set_nxt h node new_obj in Ok (set_nxt h new_obj 0)
  end.
Definition priority_queue_add (fuel : nat) (h : links) (root new_obj : Z) : res pq_error links :=
  pq_add_loop fuel h root new_obj.

(** [pq h root l]: the queue [root] holds the nodes [l]. *)
Definition pq (h : links) (root : Z) (l : list Z) : Prop :=
  seg h root l 0 /\ NoDup l /\ root ∉ l /\ 0 ∉ l.

(** Insertion behind all nodes of the same or a smaller priority value. *)
Fixpoint insert_prio (x : Z) (l : list Z) : list Z :=
  match l with
  | [] => [x]
  | y :: l => if priority x <? priority y then x :: y :: l else y :: insert_prio x l
  end.

Definition by_priority (a b : Z) : Prop := priority a <= priority b.

Lemma insert_prio_split x l :
  StronglySorted by_priority l ->
  exists l1 l2, insert_prio x l = l1 ++ x :: l2 /\ l = l1 ++ l2 /\
    Forall (fun y => priority y <= priority x) l1 /\ Forall (fun y => priority x < priority y) l2.
Proof using.
  induction 1 as [|y l Hs IH Hy]; [exists [], []; cbn; split_and!; constructor|].
  cbn. destruct (Z.ltb_spec (priority x) (priority y)).
  - exists [], (y :: l). split_and!; [done|done|constructor|]. constructor; [done|].
    eapply Forall_impl; [exact Hy|]. unfold by_priority. intros. lia.
  - destruct IH as (l1 & l2 & -> & -> & H1 & H2). exists (y :: l1), l2.
    split_and!; [done|done|by constructor|done].
Qed.

Lemma insert_prio_perm x l : Permutation (insert_prio x l) (x :: l).
Proof using.
  induction l as [|y l IH]; cbn; [done|]. destruct (_ <? _); [done|].
  rewrite IH. apply Permutation_swap.
Qed.

Lemma insert_prio_sorted x l :
  StronglySorted by_priority l -> StronglySorted by_priority (insert_prio x l).
Proof using.
  induction 1 as [|y l Hs IH Hy]; cbn; [repeat constructor|].
  destruct (Z.ltb_spec (priority x) (priority y)) as [Hlt|Hge].
  - constructor; [by constructor|]. constructor; [unfold by_priority; lia|].
    eapply Forall_impl; [exact Hy|]. unfold by_priority. intros. lia.
  - constructor; [done|]. rewrite insert_prio_perm. constructor; [unfold by_priority; lia|done].
Qed.

Lemma pq_add_loop_spec fuel h node x l :
  seg h node l 0 -> x ∉ node :: l -> NoDup (node :: l) -> 0 ∉ l -> (length l < fuel)%nat ->
  exists h', pq_add_loop fuel h node x = Ok h' /\ seg h' node (insert_prio x l) 0 /\
    forall y, y <> x -> y ∉ node :: l -> nxt h' y = nxt h y.
Proof using.
  revert node l. induction fuel as [|fuel IH]; intros node l Hs Hx Hnd H0 Hf; [lia|].
  apply not_elem_of_cons in Hx as [Hxn Hx]. apply NoDup_cons in Hnd as [Hnl Hnd].
  cbn [pq_add_loop]. destruct l as [|y l]; cbn in Hs.
  - rewrite Hs. cbn [Z.eqb negb]. eexists. split; [reflexivity|]. split.
    + cbn. split; [by rewrite nxt_set_ne, nxt_set_eq|]. apply nxt_set_eq.
    + intros z Hz Hzn. apply not_elem_of_cons in Hzn as [Hzn _]. by rewrite !nxt_set_ne.
  - destruct Hs as [Hy Hs]. rewrite Hy. apply not_elem_of_cons in Hx as [Hxy Hx].
    apply not_elem_of_cons in H0 as [H0y H0]. apply not_elem_of_cons in Hnl as [Hny Hnl].
    rewrite (proj2 (Z.eqb_neq y 0)) by done. cbn [negb].
    rewrite (proj2 (Z.eqb_neq y x)) by done. cbn [insert_prio].
    destruct (priority x <? priority y).
    + eexists. split; [reflexivity|]. split.
      * cbn. split; [apply nxt_set_eq|]. split; [by rewrite nxt_set_ne, nxt_set_eq|].
        eapply seg_move; [exact Hs| |].
        -- by rewrite !nxt_set_ne.
        -- intros z Hz. rewrite !nxt_set_ne; [done|by intros ->|by intros ->].
      * intros z Hz Hzn. apply not_elem_of_cons in Hzn as [Hzn _]. by rewrite !nxt_set_ne.
    + destruct (IH y l Hs) as (h' & Hl & Hs' & Hfr); [by apply not_elem_of_cons|done|done|cbn in Hf; lia|].
      exists h'. split; [done|]. split.
      * cbn. split; [|done]. rewrite Hfr; [done|done|]. by apply not_elem_of_cons.
      * intros z Hz Hzn. apply not_elem_of_cons in Hzn as [Hzn Hzl]. by apply Hfr.
Qed.

(** The priority queue: adding a node keeps the queue sorted with the new node
    behind all nodes of the same priority, removing a node takes out exactly
    that one, and the head is a node of the smallest priority value. *)
Theorem priority_queue_refines fuel h root l x :
  pq h root l -> StronglySorted by_priority l -> (length l < fuel)%nat -> x <> root -> x <> 0 ->
  (x ∉ l -> exists h' l1 l2, priority_queue_add fuel h root x = Ok h' /\
     l = l1 ++ l2 /\ pq h' root (l1 ++ x :: l2) /\ StronglySorted by_priority (l1 ++ x :: l2) /\
     Forall (fun y => priority y <= priority x) l1 /\ Forall (fun y => priority x < priority y) l2) /\
  (exists h', priority_queue_remove fuel h root x = Ok h' /\ pq h' root (remove1 x l)) /\
  (exists h', priority_queue_remove_head h root = (h', default 0 (head l)) /\ pq h' root (tail l) /\
     Forall (fun y => priority (default 0 (head l)) <= priority y) l).
Proof using.
  intros (Hs & Hnd & Hr & H0) Hsort Hf Hxr Hx0.
  assert (NoDup (root :: l)) as Hnd' by (by apply NoDup_cons). split_and!.
  - intros Hx. destruct (pq_add_loop_spec fuel h root x l Hs) as (h' & Ha & Hs' & _);
      [by apply not_elem_of_cons|done|done|done|].
    destruct (insert_prio_split x l Hsort) as (l1 & l2 & Hi & Hl & H1 & H2).
    exists h', l1, l2. rewrite <- Hi. pose proof (insert_prio_perm x l) as HP.
    split_and!; [done|done| |by apply insert_prio_sorted|done|done].
    split; [done|]. split; [rewrite HP; by apply NoDup_cons|].
    split; rewrite HP; by apply not_elem_of_cons.
  - destruct (pq_remove_loop_spec fuel h root x l Hs Hnd' H0 Hxr Hf) as (h' & Hd & Hs' & _).
    exists h'. split; [done|]. split; [done|]. unfold remove1.
    split; [by apply NoDup_filter|]. split; rewrite list_elem_of_filter; tauto.
  - unfold priority_queue_remove_head. destruct l as [|y l]; cbn in Hs |- *.
    + rewrite Hs. cbn. exists h. split_and!; [done| |constructor].
      split; [done|]. split; [apply NoDup_nil_2|]. split; apply not_elem_of_nil.
    + destruct Hs as [Hy Hs]. rewrite Hy. apply not_elem_of_cons in H0 as [H0y H0].
      apply not_elem_of_cons in Hr as [Hry Hr]. apply NoDup_cons in Hnd as [Hyl Hnd].
      rewrite (proj2 (Z.eqb_neq y 0)) by done. cbn [negb].
      eexists. split; [reflexivity|]. split.
      * split; [|done]. eapply seg_move; [exact Hs|by rewrite nxt_set_eq|].
        intros z Hz. apply nxt_set_ne. by intros ->.
      * inversion Hsort; subst. constructor; [lia|done].
Qed.
End PriorityQueue.

(** A queue with the priorities 3 and 5; a node of priority 3 goes between. *)
Lemma priority_queue_refines_witness :
  let prio a := if a =? 10 then 3 else if a =? 20 then 5 else 3 in
  let h : links := {[1 := 10; 10 := 20; 20 := 0]} in
  exists h' l1 l2, priority_queue_add prio 5 h 1 30 = Ok h' /\ [10; 20] = l1 ++ l2 /\
    pq h' 1 (l1 ++ 30 :: l2).
Proof.
  intros prio h.
  destruct (priority_queue_refines prio 5 h 1 [10; 20] 30) as (Hadd & _).
  - split; [vm_compute; repeat split|]. split; [repeat (apply NoDup_cons; split; [set_solver|]); apply NoDup_nil_2|].
    split; set_solver.
  - repeat constructor; unfold by_priority; vm_compute; discriminate.
  - cbn. lia.
  - lia.
  - lia.
  - destruct Hadd as (h' & l1 & l2 & H1 & H2 & H3 & _); [set_solver|].
    exists h', l1, l2. split; [exact H1|]. split; [exact H2|exact H3].
Defined.
