(* ===== verification/ClistSort.v ===== *)
(** * Sorting a circular list

    Models [_clist_sort] of [core/lib/clist.c] with [clist_sort] of [clist.h]: a
    merge sort that works on the links alone, in passes over runs of doubling
    length.  It is shown to end, to keep the nodes, to order them and to leave
    equal nodes in their order. *)

From stdpp Require Import base gmap list sorting.
From Stdlib Require Import ZArith Lia.
From S2P Require Import Prelude Lists.

Local Open Scope Z_scope.

Section ClistSort.
Variable cmp : Z -> Z -> Z.

(** ** The code *)

(** The node after [x], [NULL] at the end of the list that began at [oldhead]. *)
Definition next_or_null (h : links) (oldhead x : Z) : Z := if nxt h x =? oldhead then 0 else nxt h x.

(** The loop that steps [insize] places along from [p]: [q] and [psize]. *)
Fixpoint skip_loop (i : nat) (h : links) (oldhead q psize : Z) : Z * Z :=
  match i with
  | O => (q, psize)
  | S i =>
      let psize := psize + 1 in
      let q := next_or_null h oldhead q in
      if q =? 0 then (q, psize) else skip_loop i h oldhead q psize
  end.

(** The merge of two runs: [q], the first and the last node of the merged list. *)
Fixpoint merge_loop (fuel : nat) (h : links) (oldhead p q psize qsize list tail : Z) : option (links * (Z * Z * Z)) :=
  match fuel with
  | O => None
  | S fuel =>
      if (0 <? psize) || ((0 <? qsize) && negb (q =? 0)) then
        let from_p := (p, (next_or_null h oldhead p, q, psize - 1, qsize)) in
        let from_q := (q, (p, next_or_null h oldhead q, psize, qsize - 1)) in
        let '(e, (p, q, psize, qsize)) :=
          if psize =? 0 then from_q
          else if (qsize =? 0) || (q =? 0) then from_p
          else if cmp p q <=? 0 then from_p
          else from_q in
        let '(h, list) := if negb (tail =? 0) then (set_nxt h tail e, list) else (h, e) in
        merge_loop fuel h oldhead p q psize qsize list e
      else Some (h, (q, list, tail))
  end.

(** One pass over the list: the first and the last node and the number of merges. *)
Fixpoint pass_loop (fuel : nat) (h : links) (oldhead insize p list tail nmerges : Z) : option (links * (Z * Z * Z)) :=
  match fuel with
  | O => None
  | S fuel' =>
      if p =? 0 then Some (h, (list, tail, nmerges))
      else
        let '(q, psize) := skip_loop (Z.to_nat insize) h oldhead p 0 in
        match merge_loop fuel h oldhead p q psize insize list tail with
        | Some (h, (q, list, tail)) => pass_loop fuel' h oldhead insize q list tail (nmerges + 1)
        | None => None
        end
  end.

Fixpoint sort_loop (passes fuel : nat) (h : links) (list insize : Z) : option (links * Z) :=
  match passes with
  | O => None
  | S passes =>
      match pass_loop fuel h list insize list 0 0 0 with
      | Some (h, (list, tail, nmerges)) =>
          let h := set_nxt h tail list in
          if nmerges <=? 1 then Some (h, tail) else sort_loop passes fuel h list (s32 (insize * 2))
      | None => None
      end
  end.

Definition _clist_sort (fuel : nat) (h : links) (list : Z) : option (links * Z) :=
  if list =? 0 then Some (h, 0) else sort_loop fuel fuel h list 1.

Definition clist_sort (fuel : nat) (h : links) (list : Z) : option links :=
  if negb (nxt h list =? 0) then
    match _clist_sort fuel h (nxt h (nxt h list)) with
    | Some (h, last) => Some (set_nxt h list last)
    | None => None
    end
  else Some h.
End ClistSort.

(** ** Paths *)

(** [chain h l z]: the nodes [l] are linked one after the other, and the last to [z]. *)
Fixpoint chain (h : links) (l : list Z) (z : Z) : Prop :=
  match l with
  | [] => True
  | x :: l => nxt h x = default z (head l) /\ chain h l z
  end.

(** The pointer to a list that may be empty. *)
Abbreviation first l := (default 0 (head l)).

Lemma chain_app h l r z : chain h (l ++ r) z <-> chain h l (default z (head r)) /\ chain h r z.
Proof.
  induction l as [|x l IH]; cbn [app chain]; [tauto|]. rewrite IH. destruct l as [|y l]; cbn [app head from_option id]; tauto.
Qed.

Lemma chain_frame h h' l z : (forall x, x ∈ l -> nxt h' x = nxt h x) -> chain h l z -> chain h' l z.
Proof.
  induction l as [|x l IH]; intros Hl; [done|]. intros [H1 H2]. split; [by rewrite Hl by left|].
  apply IH; [|done]. intros y Hy. apply Hl. by right.
Qed.

(** A node is hung behind the last of a chain. *)
Lemma chain_push h l t w e z :
  NoDup (l ++ [t]) -> e ∉ l ++ [t] -> nxt h e = z -> chain h (l ++ [t]) w ->
  chain (set_nxt h t e) ((l ++ [t]) ++ [e]) z.
Proof.
  intros Hd He Hz Hc. apply not_elem_snoc in He as [Hel Het]. apply NoDup_snoc in Hd as [Htl _].
  apply chain_app in Hc as [Hc _]. rewrite !chain_app. cbn. split_and!; [|by rewrite nxt_set_eq|done| |done].
  - eapply chain_frame; [|exact Hc]. intros x Hx. apply nxt_set_ne. by intros ->.
  - by rewrite nxt_set_ne.
Qed.

Lemma chain_seg h x l z : chain h (x :: l) z <-> seg h x l z.
Proof.
  revert x. induction l as [|y l IH]; intros x; [cbn; tauto|].
  change (chain h (x :: y :: l) z) with (nxt h x = y /\ chain h (y :: l) z). rewrite IH. done.
Qed.

Lemma next_or_null_chain h oldhead x l :
  chain h (x :: l) oldhead -> oldhead ∉ l -> 0 ∉ l -> next_or_null h oldhead x = first l.
Proof.
  intros [Hx _] Ho _. unfold next_or_null. rewrite Hx. destruct l as [|y l]; cbn [head from_option id].
  - by rewrite Z.eqb_refl.
  - rewrite (proj2 (Z.eqb_neq y oldhead)); [done|]. intros ->. apply Ho. by left.
Qed.

Lemma first_zero (l : list Z) : 0 ∉ l -> (first l =? 0) = bool_decide (l = []).
Proof.
  intros H0. destruct l as [|x l]; [done|]. rewrite bool_decide_eq_false_2 by done. apply Z.eqb_neq.
  cbn. intros ->. apply H0. by left.
Qed.

Lemma skip_loop_spec i h oldhead l psize :
  l <> [] -> chain h l oldhead -> oldhead ∉ tail l -> 0 ∉ l -> (0 < i)%nat ->
  skip_loop i h oldhead (first l) psize = (first (drop i l), psize + Z.of_nat (length (take i l))).
Proof.
  revert l psize. induction i as [|i IH]; intros l psize Hne Hc Ho H0 Hi; [lia|]. destruct l as [|x l]; [done|].
  cbn [skip_loop head from_option id tail] in *. apply not_elem_of_cons in H0 as [_ H0].
  rewrite (next_or_null_chain h oldhead x l) by done. rewrite first_zero by done.
  cbn [drop take length]. case_bool_decide as El.
  - subst l. rewrite drop_nil, take_nil. done.
  - destruct i as [|i].
    + cbn. done.
    + rewrite IH; [f_equal; lia|done|apply Hc| |done|lia].
      intros Hx. apply Ho. destruct l; [done|]. by right.
Qed.

(** ** Merging *)

Abbreviation final l := (default 0 (last l)).

(** The links after [e] has been added to the merged list. *)
Definition hung (h : links) (out : list Z) (e : Z) : links :=
  match out with [] => h | _ => set_nxt h (final out) e end.

Lemma hung_chain h out e :
  NoDup (out ++ [e]) -> (exists w, chain h out w) -> exists w, chain (hung h out e) (out ++ [e]) w.
Proof.
  intros Hd [w Hc]. destruct (destruct_list_last out) as [->|(i & t & ->)]; [by exists (nxt h e)|].
  exists (nxt h e). apply NoDup_snoc in Hd as [He Hd]. unfold hung. rewrite last_snoc. cbn [from_option id].
  destruct (i ++ [t]) eqn:E; [by destruct i|]. rewrite <- E in *. by eapply chain_push.
Qed.

Lemma hung_frame h out e x : x ∉ out -> nxt (hung h out e) x = nxt h x.
Proof.
  intros Hx. destruct (destruct_list_last out) as [->|(i & t & ->)]; [done|]. unfold hung. rewrite last_snoc.
  apply not_elem_snoc in Hx as [_ Hx]. destruct (i ++ [t]); [done|]. by rewrite nxt_set_ne.
Qed.

Lemma final_zero (l : list Z) : 0 ∉ l -> (final l =? 0) = bool_decide (l = []).
Proof.
  intros H0. destruct (destruct_list_last l) as [->|(i & t & ->)]; [done|].
  rewrite last_snoc, bool_decide_eq_false_2 by (by destruct i). apply Z.eqb_neq. cbn. intros ->.
  apply H0, elem_of_app. right. by left.
Qed.

(** The merged nodes, the rest of the first run and what follows in the list. *)
Record merging (h : links) (oldhead : Z) (out ps rs : list Z) : Prop := mkMerging {
  mg_nodup : NoDup (out ++ ps ++ rs);
  mg_zero : 0 ∉ out ++ ps ++ rs;
  mg_old_ps : oldhead ∉ tail ps;
  mg_old_rs : oldhead ∉ rs;
  mg_out : exists w, chain h out w;
  mg_ps : exists w, chain h ps w;
  mg_rs : chain h rs oldhead
}.

Lemma merging_p h oldhead out e ps rs :
  merging h oldhead out (e :: ps) rs -> merging (hung h out e) oldhead (out ++ [e]) ps rs.
Proof.
  intros [Hd H0 Hop Hor Hout [w Hps] Hrs].
  assert ((out ++ [e]) ++ ps ++ rs = out ++ (e :: ps) ++ rs) as E by (by rewrite <- app_assoc).
  assert (NoDup (out ++ [e])) as Hde.
  { rewrite <- E in Hd. by apply NoDup_app in Hd as (? & _ & _). }
  assert (forall x, x ∈ ps ++ rs -> x ∉ out) as Hx.
  { intros x Hx Ho. apply NoDup_app in Hd as (_ & Hd & _). apply (Hd x Ho). by right. }
  constructor; rewrite ?E; try done.
  - intros Hi. apply Hop. destruct ps; [done|]. by right.
  - by apply hung_chain.
  - exists w. eapply chain_frame; [|apply Hps]. intros x Hi. apply hung_frame, Hx, elem_of_app. by left.
  - eapply chain_frame; [|exact Hrs]. intros x Hi. apply hung_frame, Hx, elem_of_app. by right.
Qed.

Lemma merging_q h oldhead out ps e rs :
  merging h oldhead out ps (e :: rs) -> merging (hung h out e) oldhead (out ++ [e]) ps rs.
Proof.
  intros [Hd H0 Hop Hor Hout [w Hps] Hrs].
  assert ((out ++ [e]) ++ ps ++ rs ≡ₚ out ++ ps ++ e :: rs) as E.
  { rewrite <- app_assoc. apply Permutation_app_head. cbn. apply Permutation_middle. }
  assert (NoDup ((out ++ [e]) ++ ps ++ rs)) as Hd' by by rewrite E.
  assert (forall x, x ∈ ps ++ rs -> x ∉ out) as Hx.
  { intros x Hx Ho. apply NoDup_app in Hd' as (_ & Hn & _). apply (Hn x); [|done]. apply elem_of_app. by left. }
  apply not_elem_of_cons in Hor as [_ Hor].
  constructor; rewrite ?E; try done.
  - apply hung_chain; [|done]. by apply NoDup_app in Hd' as (? & _ & _).
  - exists w. eapply chain_frame; [|exact Hps]. intros x Hi. apply hung_frame, Hx, elem_of_app. by left.
  - eapply chain_frame; [|apply Hrs]. intros x Hi. apply hung_frame, Hx, elem_of_app. by right.
Qed.

Lemma add_node h (out : list Z) e :
  0 ∉ out ->
  (if negb (final out =? 0) then (set_nxt h (final out) e, first out) else (h, e)) =
  (hung h out e, first (out ++ [e])).
Proof. intros H0. rewrite final_zero by done. by destruct out. Qed.

Lemma merging_zero h oldhead out ps rs :
  merging h oldhead out ps rs -> 0 ∉ out /\ 0 ∉ ps /\ 0 ∉ rs.
Proof. intros [_ H0 _ _ _ _ _]. rewrite !elem_of_app in H0. tauto. Qed.

Section Merge.
Variable cmp : Z -> Z -> Z.

Definition le (x y : Z) : Prop := cmp x y <= 0.
#[export] Instance le_dec : RelDecision le.
Proof. intros x y. apply Z.le_dec. Defined.

(** What a merge leaves: the two runs merged behind the rest, and the list after them. *)
Record merged (h h' : links) (oldhead : Z) (out ps qs rs : list Z) : Prop := mkMerged {
  md_out : exists w, chain h' (out ++ list_merge le ps qs) w;
  md_rs : chain h' rs oldhead;
  md_frame : forall x, x ∉ out ++ ps ++ qs -> nxt h' x = nxt h x
}.

Definition merge_ok (fuel : nat) : Prop := forall h oldhead out ps rs p qn,
  merging h oldhead out ps rs -> (ps <> [] -> p = first ps) ->
  (length ps + length (take qn rs) < fuel)%nat ->
  exists h', merge_loop cmp fuel h oldhead p (first rs) (Z.of_nat (length ps)) (Z.of_nat qn) (first out) (final out) =
    Some (h', (first (drop qn rs), first (out ++ list_merge le ps (take qn rs)), final (out ++ list_merge le ps (take qn rs)))) /\
    merged h h' oldhead out ps (take qn rs) (drop qn rs).

(** The rest of the merge after [e] was taken from one of the runs. *)
Lemma merge_step fuel h oldhead out ps rs qn e ps1 rs1 p1 qn1 :
  merge_ok fuel ->
  merging (hung h out e) oldhead (out ++ [e]) ps1 rs1 -> (ps1 <> [] -> p1 = first ps1) ->
  (length ps1 + length (take qn1 rs1) < fuel)%nat ->
  list_merge le ps (take qn rs) = e :: list_merge le ps1 (take qn1 rs1) -> drop qn rs = drop qn1 rs1 ->
  (forall x, x ∉ out ++ ps ++ take qn rs -> x ∉ (out ++ [e]) ++ ps1 ++ take qn1 rs1) ->
  exists h', merge_loop cmp fuel (hung h out e) oldhead p1 (first rs1) (Z.of_nat (length ps1)) (Z.of_nat qn1)
      (first (out ++ [e])) e =
    Some (h', (first (drop qn rs), first (out ++ list_merge le ps (take qn rs)), final (out ++ list_merge le ps (take qn rs)))) /\
    merged h h' oldhead out ps (take qn rs) (drop qn rs).
Proof using.
  intros IH Hm1 Hp1 Hf1 El Ed Hin.
  destruct (IH _ _ _ _ _ _ _ Hm1 Hp1 Hf1) as (h' & E & [[w Hw] Hr Hfr]).
  rewrite last_snoc in E. cbn [from_option id] in E. exists h'.
  rewrite El, Ed. rewrite <- app_assoc in E, Hw. cbn [app] in E, Hw. split; [exact E|].
  constructor; rewrite ?El; [by exists w|done|]. intros x Hx. rewrite Hfr by (by apply Hin).
  apply hung_frame. intros Ho. apply Hx, elem_of_app. by left.
Qed.

(** The first run is empty: the nodes come from the second. *)
Lemma merge_right fuel h oldhead out rs p qn :
  merge_ok fuel -> merging h oldhead out [] rs -> (length (take qn rs) < S fuel)%nat ->
  exists h', merge_loop cmp (S fuel) h oldhead p (first rs) 0 (Z.of_nat qn) (first out) (final out) =
    Some (h', (first (drop qn rs), first (out ++ list_merge le [] (take qn rs)), final (out ++ list_merge le [] (take qn rs)))) /\
    merged h h' oldhead out [] (take qn rs) (drop qn rs).
Proof using.
  intros IH Hm Hf. destruct (merging_zero _ _ _ _ _ Hm) as (H0o & _ & H0r). cbn [merge_loop].
  destruct qn as [|qn].
  { cbn -[Z.of_nat]. rewrite app_nil_r. exists h. split; [done|].
    destruct Hm. constructor; cbn; rewrite ?app_nil_r; done. }
  destruct rs as [|e rs].
  { cbn -[Z.of_nat]. rewrite andb_false_r, app_nil_r. exists h. split; [done|].
    destruct Hm. constructor; cbn; rewrite ?app_nil_r; done. }
  apply not_elem_of_cons in H0r as [He H0r]. change (first (e :: rs)) with e.
  assert ((0 <? 0) || (0 <? Z.of_nat (S qn)) && negb (e =? 0) = true) as ->.
  { rewrite (proj2 (Z.eqb_neq e 0)) by done. by rewrite (proj2 (Z.ltb_lt 0 (Z.of_nat (S qn)))) by lia. }
  change (0 =? 0) with true. cbv iota beta. rewrite add_node by done. rewrite (next_or_null_chain h oldhead e rs).
  2: { apply Hm. } 2: { pose proof (mg_old_rs _ _ _ _ _ Hm) as Ho. by apply not_elem_of_cons in Ho as [_ ?]. } 2: done.
  replace (Z.of_nat (S qn) - 1) with (Z.of_nat qn) by lia.
  apply (merge_step fuel h oldhead out [] (e :: rs) (S qn) e [] rs p qn IH);
    [by apply merging_q|done|cbn in *; lia|by rewrite !list_merge_nil_l|done|].
  intros y Hy. cbn [app take] in *. rewrite <- app_assoc. exact Hy.
Qed.

Lemma merge_loop_spec fuel : merge_ok fuel.
Proof using.
  induction fuel as [|fuel IH]; intros h oldhead out ps rs p qn Hm Hp Hf; [lia|].
  destruct (merging_zero _ _ _ _ _ Hm) as (H0o & H0p & H0r).
  destruct ps as [|x ps]; [by apply merge_right|]. cbn [merge_loop].
  rewrite (Hp ltac:(done)). clear Hp. change (first (x :: ps)) with x.
  assert (exists w, chain h (x :: ps) w) as [w [Hx _]] by apply Hm.
  assert (ps <> [] -> next_or_null h oldhead x = first ps) as Hadv.
  { intros Hne. unfold next_or_null. destruct ps as [|y ps]; [done|]. cbn [head from_option id] in *. rewrite Hx.
    rewrite (proj2 (Z.eqb_neq y oldhead)); [done|]. intros ->. apply (mg_old_ps _ _ _ _ _ Hm). by left. }
  rewrite (proj2 (Z.ltb_lt 0 (Z.of_nat (length (x :: ps))))) by (cbn [length]; lia).
  rewrite (proj2 (Z.eqb_neq (Z.of_nat (length (x :: ps))) 0)) by (cbn [length]; lia). cbn [orb].
  replace (Z.of_nat (length (x :: ps)) - 1) with (Z.of_nat (length ps)) by (cbn [length]; lia).
  assert (forall x', x' ∉ out ++ (x :: ps) ++ take qn rs -> x' ∉ (out ++ [x]) ++ ps ++ take qn rs) as Hin
    by (intros x' Hx'; by rewrite <- app_assoc).
  destruct (decide (take qn rs = [])) as [Et|Et].
  + (* the second run is empty *)
    assert ((Z.of_nat qn =? 0) || (first rs =? 0) = true) as ->.
    { destruct qn; [done|]. destruct rs; [by rewrite orb_true_r|done]. }
    rewrite add_node by done.
    apply (merge_step fuel h oldhead out (x :: ps) rs qn x ps rs _ qn IH); [by apply merging_p|done|cbn in *; lia| |done|exact Hin].
    rewrite Et, !list_merge_nil_r. done.
  + destruct qn as [|qn]; [done|]. destruct rs as [|e rs]; [done|]. pose proof H0r as H0r'.
    apply not_elem_of_cons in H0r as [He H0r]. change (first (e :: rs)) with e.
    rewrite (proj2 (Z.eqb_neq e 0)) by done. rewrite (proj2 (Z.eqb_neq (Z.of_nat (S qn)) 0)) by lia. cbn [orb].
    cbn [take]. destruct (Z.leb_spec (cmp x e) 0) as [Hle|Hgt].
    * rewrite add_node by done. change e with (first (e :: rs)) at 1.
      apply (merge_step fuel h oldhead out (x :: ps) (e :: rs) (S qn) x ps (e :: rs) _ (S qn) IH); [by apply merging_p|done|cbn in *; lia| |done|exact Hin].
      cbn [take]. rewrite list_merge_cons, decide_True by done. done.
    * rewrite add_node by done. rewrite (next_or_null_chain h oldhead e rs).
      2: { apply Hm. } 2: { pose proof (mg_old_rs _ _ _ _ _ Hm) as Ho. by apply not_elem_of_cons in Ho as [_ ?]. } 2: done.
      replace (Z.of_nat (S qn) - 1) with (Z.of_nat qn) by lia.
      apply (merge_step fuel h oldhead out (x :: ps) (e :: rs) (S qn) e (x :: ps) rs x qn IH); [by apply merging_q|done|cbn in *; lia| |done|].
      -- cbn [take]. rewrite list_merge_cons, decide_False by (unfold le; lia). done.
      -- cbn [take]. set_solver.
Qed.
End Merge.

(** ** Passes *)

Lemma final_in (l : list Z) : l <> [] -> final l ∈ l.
Proof.
  intros Hne. destruct (destruct_list_last l) as [->|(i & t & ->)]; [done|]. rewrite last_snoc. cbn.
  apply elem_of_app. right. by left.
Qed.

(** The last node of a chain is linked anew. *)
Lemma chain_close h l w z : l <> [] -> NoDup l -> chain h l w -> chain (set_nxt h (final l) z) l z.
Proof.
  intros Hne Hd Hc. destruct (destruct_list_last l) as [->|(i & t & ->)]; [done|]. rewrite last_snoc. cbn [from_option id].
  apply NoDup_snoc in Hd as [Ht _]. rewrite chain_app in Hc |- *. destruct Hc as [Hc _]. cbn [head from_option id] in *.
  split; [|cbn; split; [apply nxt_set_eq|done]]. eapply chain_frame; [|exact Hc].
  intros x Hx. apply nxt_set_ne. by intros ->.
Qed.

Section Passes.
Variable cmp : Z -> Z -> Z.
Abbreviation le := (le cmp).

(** One pass with runs of [n] nodes, and the number of its merges. *)
Inductive passed (n : nat) : list Z -> list Z -> nat -> Prop :=
| passed_nil : passed n [] [] 0
| passed_cons l m k :
    l <> [] -> passed n (drop n (drop n l)) m k ->
    passed n l (list_merge le (take n l) (take n (drop n l)) ++ m) (S k).

Lemma pass_loop_spec fuel h oldhead out rs (n : nat) k0 :
  (0 < n)%nat -> NoDup (out ++ rs) -> 0 ∉ out ++ rs -> oldhead ∉ tail rs ->
  (exists w, chain h out w) -> chain h rs oldhead -> (length rs < fuel)%nat ->
  exists h' m k, pass_loop cmp fuel h oldhead (Z.of_nat n) (first rs) (first out) (final out) k0 =
      Some (h', (first (out ++ m), final (out ++ m), k0 + Z.of_nat k)) /\
    passed n rs m k /\ (exists w, chain h' (out ++ m) w) /\ (forall x, x ∉ out ++ rs -> nxt h' x = nxt h x).
Proof using.
  intros Hn. revert h out rs k0. induction fuel as [|fuel IH]; intros h out rs k0 Hd H0 Ho Hout Hrs Hf; [lia|].
  cbn [pass_loop]. assert (0 ∉ rs) as H0r by (rewrite elem_of_app in H0; tauto). rewrite first_zero by done.
  case_bool_decide as Ers.
  { subst rs. exists h, [], 0%nat. rewrite app_nil_r, Z.add_0_r. split; [done|]. split; [constructor|]. done. }
  rewrite skip_loop_spec by (done || lia). rewrite Nat2Z.id.
  rewrite <- (take_drop n rs) in Hd, H0, Hrs. apply chain_app in Hrs as [Hc1 Hc2].
  assert (oldhead ∉ tail (take n rs) /\ oldhead ∉ drop n rs) as [Ho1 Ho2].
  { destruct n as [|n]; [lia|]. destruct rs as [|x rs]; [done|]. cbn [take drop tail] in *.
    rewrite <- (take_drop n rs), elem_of_app in Ho. tauto. }
  assert (merging h oldhead out (take n rs) (drop n rs)) as Hm by (constructor; eauto).
  destruct (merge_loop_spec cmp (S fuel) _ _ _ _ _ (first rs) n Hm) as (h1 & E1 & [[w Hw] Hr Hfr]).
  { intros _. destruct rs; [done|]. by destruct n; [lia|]. }
  { rewrite !length_take, length_drop. lia. }
  rewrite Z.add_0_l, E1. set (ms := list_merge le (take n rs) (take n (drop n rs))) in *.
  set (rest := drop n (drop n rs)) in *.
  assert ((out ++ ms) ++ rest ≡ₚ out ++ take n rs ++ drop n rs) as Hperm.
  { rewrite <- app_assoc. apply Permutation_app_head. unfold ms. rewrite merge_Permutation, <- app_assoc.
    apply Permutation_app_head. unfold rest. by rewrite take_drop. }
  assert (length rest < fuel)%nat as Hlen.
  { unfold rest. rewrite !length_drop. destruct rs; [done|]. cbn [length] in *. lia. }
  destruct (IH h1 (out ++ ms) rest (k0 + 1)) as (h2 & m & k & E2 & Hps & Hout2 & Hfr2);
    [by rewrite Hperm|by rewrite Hperm| |by exists w|exact Hr|exact Hlen|].
  { intros Hi. apply Ho2. rewrite <- (take_drop n (drop n rs)), elem_of_app. right. fold rest. by destruct rest; [|right]. }
  exists h2, (ms ++ m), (S k). rewrite <- app_assoc in E2, Hout2. split; [rewrite E2; do 3 f_equal; lia|].
  split; [by constructor|]. split; [done|]. intros x Hx.
  rewrite Hfr2 by (rewrite Hperm, take_drop; exact Hx). apply Hfr.
  rewrite !elem_of_app. rewrite <- (take_drop n rs), <- (take_drop n (drop n rs)), !elem_of_app in Hx. tauto.
Qed.

(** ** What a pass does to the order *)

Lemma passed_perm n l m k : passed n l m k -> m ≡ₚ l.
Proof using.
  induction 1 as [|l m k _ _ IH]; [done|]. rewrite merge_Permutation, IH, <- app_assoc, take_drop. by rewrite take_drop.
Qed.

Lemma passed_few n l m k : passed n l m k -> (k <= 1)%nat -> (length l <= n + n)%nat.
Proof using.
  intros [|l' m' k' _ Hp] Hk; [cbn; lia|]. assert (k' = 0)%nat as -> by lia. inversion Hp as [E|].
  apply (f_equal length) in E. rewrite !length_drop in E. cbn in E. lia.
Qed.

Lemma passed_many n l m k : (0 < n)%nat -> passed n l m k -> (1 < k)%nat -> (n + n < length l)%nat.
Proof using.
  intros Hn [|l' m' k' _ Hp] Hk; [lia|]. inversion Hp as [E|l2 m2 k2 Hne _ E]; [lia|].
  assert (length (drop n (drop n l')) <> 0)%nat as Hl by (by destruct (drop n (drop n l'))).
  rewrite !length_drop in Hl. lia.
Qed.

(** [l] is made of sorted runs of [n] nodes, the last one perhaps shorter. *)
Inductive runs (n : nat) : list Z -> Prop :=
| runs_last l : (length l <= n)%nat -> Sorted le l -> runs n l
| runs_app a l : length a = n -> Sorted le a -> runs n l -> runs n (a ++ l).

Lemma runs_take n l : runs n l -> Sorted le (take n l) /\ runs n (drop n l).
Proof using.
  intros [l' Hl Hs|a l' Hl Hs Hr].
  - rewrite take_ge, drop_ge by done. split; [done|]. apply runs_last; [cbn; lia|constructor].
  - rewrite take_app_length', drop_app_length' by done. done.
Qed.

Lemma runs_all n l : (0 < n)%nat -> runs n l -> (length l <= n)%nat -> Sorted le l.
Proof using.
  intros Hn Hr Hl. apply runs_take in Hr as [Hs _]. by rewrite take_ge in Hs by done.
Qed.

Context `{!Total le}.

Lemma passed_runs n l m k : passed n l m k -> runs n l -> runs (n + n) m.
Proof using All.
  induction 1 as [|l m k Hne Hp IH]; intros Hr; [apply runs_last; [cbn; lia|constructor]|].
  apply runs_take in Hr as [Hs1 Hr]. apply runs_take in Hr as [Hs2 Hr].
  set (ms := list_merge le (take n l) (take n (drop n l))).
  assert (Sorted le ms) as Hms by (by apply Sorted_list_merge).
  assert (length ms = length (take n l) + length (take n (drop n l)))%nat as Hlen.
  { unfold ms. by rewrite merge_Permutation, length_app. }
  rewrite !length_take, length_drop in Hlen.
  destruct (decide (length ms = n + n)%nat) as [E|E]; [apply runs_app; auto|].
  assert (drop n (drop n l) = []) as Hnil by (apply drop_ge; rewrite length_drop; lia).
  rewrite Hnil in Hp. inversion Hp as [E2|]; [|done]. rewrite app_nil_r. apply runs_last; [lia|done].
Qed.

(** ** Stability *)

Context `{!Transitive le}.

(** The nodes of [l] the comparison does not tell apart from [x], in their order. *)
Definition equals (x : Z) (l : list Z) : list Z := filter (fun y => le x y /\ le y x) l.

Lemma equals_app x l r : equals x (l ++ r) = equals x l ++ equals x r.
Proof using. apply filter_app. Qed.

Lemma equals_above x y l : ~ le y x -> StronglySorted le (y :: l) -> equals x (y :: l) = [].
Proof using All.
  intros Hy Hs. apply StronglySorted_inv in Hs as [_ Hs]. unfold equals.
  assert (forall z, z ∈ y :: l -> ~ (le x z /\ le z x)) as Hno.
  { intros z [->|Hz]%elem_of_cons [_ Hzx]; [done|]. rewrite Forall_forall in Hs. apply Hy. by transitivity z; [apply Hs|]. }
  revert Hno. generalize (y :: l). clear. intros l Hno. induction l as [|z l IH]; [done|].
  rewrite filter_cons_False by (apply Hno; by left). apply IH. intros w Hw. apply Hno. by right.
Qed.

Lemma merge_stable x xs ys :
  StronglySorted le xs -> StronglySorted le ys -> equals x (list_merge le xs ys) = equals x xs ++ equals x ys.
Proof using All.
  revert ys. induction xs as [|a xs IHx]; intros ys Hx Hy; [by rewrite list_merge_nil_l|].
  induction ys as [|b ys IHy]; [by rewrite list_merge_nil_r, app_nil_r|]. rewrite list_merge_cons.
  destruct (decide (le a b)) as [Hab|Hab].
  - pose proof (StronglySorted_inv Hx) as [Hx' _]. specialize (IHx (b :: ys) Hx' Hy).
    change (a :: list_merge le xs (b :: ys)) with ([a] ++ list_merge le xs (b :: ys)).
    change (a :: xs) with ([a] ++ xs). by rewrite !equals_app, IHx, app_assoc.
  - pose proof (StronglySorted_inv Hy) as [Hy' _]. specialize (IHy Hy').
    change (b :: list_merge le (a :: xs) ys) with ([b] ++ list_merge le (a :: xs) ys).
    change (b :: ys) with ([b] ++ ys). rewrite !equals_app, IHy, !app_assoc. f_equal.
    destruct (decide (le x b /\ le b x)) as [[Hxb Hbx]|Hne].
    + rewrite (equals_above x a xs); [by rewrite app_nil_r| |done]. intros Hax. apply Hab. by transitivity x.
    + assert (equals x [b] = []) as -> by (unfold equals; by rewrite filter_cons_False). by rewrite app_nil_r.
Qed.

Lemma passed_stable n l m k x : passed n l m k -> runs n l -> equals x m = equals x l.
Proof using All.
  induction 1 as [|l m k Hne Hp IH]; intros Hr; [done|].
  apply runs_take in Hr as [Hs1 Hr]. apply runs_take in Hr as [Hs2 Hr].
  rewrite equals_app, merge_stable, IH by (done || by apply Sorted_StronglySorted).
  rewrite <- !equals_app, <- app_assoc, take_drop. by rewrite take_drop.
Qed.

(** ** The whole sort *)

Lemma sort_loop_spec passes fuel h l (n : nat) :
  l <> [] -> NoDup l -> 0 ∉ l -> chain h l (first l) -> (0 < n)%nat -> runs n l ->
  (length l < fuel)%nat -> Z.of_nat (length l) <= 2 ^ 30 -> (0 < passes)%nat -> (length l < n + n + passes)%nat ->
  exists h' l', sort_loop cmp passes fuel h (first l) (Z.of_nat n) = Some (h', final l') /\
    chain h' l' (first l') /\ l' ≡ₚ l /\ Sorted le l' /\ (forall x, equals x l' = equals x l) /\
    (forall x, x ∉ l -> nxt h' x = nxt h x).
Proof using All.
  revert h l n. induction passes as [|passes IH]; intros h l n Hne Hd H0 Hc Hn Hr Hf Hz Hp0 Hp; [lia|].
  cbn [sort_loop]. destruct (pass_loop_spec fuel h (first l) [] l n 0 Hn Hd H0) as (h1 & m & k & E & Hps & [w Hw] & Hfr);
    [|by exists 0|done|done|].
  { destruct l as [|x l]; [done|]. by apply NoDup_cons in Hd as [Hx _]. }
  cbn [app] in *. change (first (@nil Z)) with 0 in E. change (final (@nil Z)) with 0 in E. rewrite E.
  pose proof (passed_perm _ _ _ _ Hps) as Hperm. pose proof (passed_runs _ _ _ _ Hps Hr) as Hr'.
  assert (m <> []) as Hmne by (intros ->; by apply Permutation_nil_l in Hperm).
  assert (length m = length l) as Hlm by by rewrite Hperm.
  assert (NoDup m) as Hdm by by rewrite Hperm. assert (0 ∉ m) as H0m by by rewrite Hperm.
  assert (chain (set_nxt h1 (final m) (first m)) m (first m)) as Hc2 by (by eapply chain_close).
  assert (forall x, x ∉ l -> nxt (set_nxt h1 (final m) (first m)) x = nxt h x) as Hfr2.
  { intros x Hx. rewrite nxt_set_ne; [by apply Hfr|]. intros <-. apply Hx. rewrite <- Hperm. by apply final_in. }
  assert (forall x, equals x m = equals x l) as Hst by (intros; by eapply passed_stable).
  destruct (Z.leb_spec (0 + Z.of_nat k) 1) as [Hk|Hk].
  - exists (set_nxt h1 (final m) (first m)), m. split_and!; try done.
    eapply (runs_all (n + n)); [lia|done|]. rewrite Hlm. eapply passed_few; [exact Hps|lia].
  - assert (n + n < length l)%nat as Hlt by (eapply passed_many; [exact Hn|exact Hps|lia]).
    rewrite signed_small by lia. replace (Z.of_nat n * 2) with (Z.of_nat (n + n)) by lia.
    destruct (IH (set_nxt h1 (final m) (first m)) m (n + n)%nat) as (h' & l' & E' & C' & P' & S' & St' & F');
      [done..|lia|done|lia|lia|lia|lia|].
    exists h', l'. split_and!; try done.
    + by rewrite P'.
    + intros x. by rewrite St'.
    + intros x Hx. rewrite F' by by rewrite Hperm. by apply Hfr2.
Qed.
End Passes.

(** ** The theorem *)

(** A circular list that is not empty, as a closed chain. *)
Lemma clist_chain h root l :
  l <> [] ->
  clist h root l <-> NoDup l /\ root ∉ l /\ 0 ∉ l /\ nxt h root = final l /\ chain h l (first l).
Proof.
  intros Hne. destruct (destruct_list_last l) as [->|(i & z & ->)]; [done|]. rewrite last_snoc. cbn [from_option id].
  assert (chain h (i ++ [z]) (first (i ++ [z])) <-> seg h z i z) as Hcs.
  { destruct i as [|x i]; [cbn; tauto|]. cbn [app head from_option id seg]. rewrite chain_seg, seg_snoc. tauto. }
  rewrite Hcs. split.
  - intros Hc. pose proof Hc as (? & ? & ? & _). destruct (clist_last _ _ _ _ Hc) as (? & ? & _). done.
  - intros (? & ? & ? & ? & ?). by apply clist_intro.
Qed.

(** C30: Sorting a circular list: for a comparison that is a total preorder the merge
    sort ends, keeps exactly the nodes of the list, orders them, leaves nodes
    that compare equal in the order they had, and touches no link of another
    node than the head's. *)
Theorem clist_sort_correct cmp fuel h root l :
  Total (le cmp) -> Transitive (le cmp) ->
  clist h root l -> (length l < fuel)%nat -> Z.of_nat (length l) <= 2 ^ 30 ->
  exists h' l', clist_sort cmp fuel h root = Some h' /\ clist h' root l' /\
    l' ≡ₚ l /\ Sorted (le cmp) l' /\ (forall x, equals cmp x l' = equals cmp x l) /\
    (forall x, x ∉ root :: l -> nxt h' x = nxt h x).
Proof.
  intros Htot Htr Hc Hf Hz. unfold clist_sort. destruct (decide (l = [])) as [->|Hne].
  { rewrite (clist_empty _ _ Hc). exists h, []. done. }
  pose proof Hc as Hc0. apply clist_chain in Hc as (Hd & Hr & H0 & Hlast & Hch); [|done].
  assert (final l ∈ l) as Hin by by apply final_in.
  rewrite Hlast, (proj2 (Z.eqb_neq (final l) 0)) by (intros E; by rewrite E in Hin). cbn [negb].
  assert (nxt h (final l) = first l) as ->.
  { destruct (destruct_list_last l) as [->|(i & z & ->)]; [done|]. rewrite last_snoc.
    apply chain_app in Hch as [_ [Hch _]]. exact Hch. }
  unfold _clist_sort. rewrite first_zero, bool_decide_eq_false_2 by done.
  destruct (sort_loop_spec cmp fuel fuel h l 1) as (h' & l' & E & C & P & S & St & F); try done; try lia.
  { clear -l. induction l as [|x l IH]; [apply runs_last; [cbn; lia|constructor]|].
    apply (runs_app cmp 1 [x]); [done|by repeat constructor|done]. }
  change (Z.of_nat 1) with 1 in E. rewrite E.
  assert (l' <> []) as Hne' by (intros ->; by apply Permutation_nil_l in P).
  assert (root ∉ l') as Hr' by by rewrite P.
  eexists _, l'. split; [reflexivity|]. split_and!; try done.
  - apply clist_chain; [done|]. split_and!; [by rewrite P|done|by rewrite P|apply nxt_set_eq|].
    eapply chain_frame; [|exact C]. intros x Hx. apply nxt_set_ne. by intros <-.
  - intros x [Hxr Hxl]%not_elem_of_cons. rewrite nxt_set_ne by done. by apply F.
Qed.

(** Sorting by the tens digit: 31, 12, 35, 11 become 12, 11, 31, 35. *)
Definition tens (a b : Z) : Z := a / 10 - b / 10.
Definition unsorted : links := set_nxt (set_nxt (set_nxt (set_nxt (set_nxt ∅ 1 11) 11 31) 31 12) 12 35) 35 11.

Lemma clist_sort_correct_witness :
  exists h', clist_sort tens 5 unsorted 1 = Some h' /\ clist h' 1 [12; 11; 31; 35].
Proof.
  destruct (clist_sort_correct tens 5 unsorted 1 [31; 12; 35; 11]) as (h' & l' & E & C & _).
  - intros x y. unfold le, tens. lia.
  - intros x y z. unfold le, tens. lia.
  - apply (clist_chain unsorted 1 [31; 12; 35; 11]); [discriminate|].
    split; [apply (bool_decide_unpack _); vm_compute; exact I|].
    split; [apply (bool_decide_unpack _); vm_compute; exact I|].
    split; [apply (bool_decide_unpack _); vm_compute; exact I|]. vm_compute. repeat split.
  - cbn. lia.
  - cbn. lia.
  - exists h'. split; [exact E|]. apply clist_chain; [discriminate|].
    split; [apply (bool_decide_unpack _); vm_compute; exact I|].
    split; [apply (bool_decide_unpack _); vm_compute; exact I|].
    split; [apply (bool_decide_unpack _); vm_compute; exact I|].
    vm_compute in E. injection E as <-. vm_compute. repeat split.
Defined.
