(* ===== verification/Kernel.v ===== *)
(** * The RIOT kernel: state, scheduler, threads

    Models [core/sched.c] with the functions of [core/include/sched.h], and
    [core/thread.c] with those of [core/include/thread.h], in the configuration
    of the port to Pip: CLZ instruction, no idle thread, no DEVELHELP, messages
    and thread flags compiled in, no priority inheritance, assertions on.

    Objects are named by their addresses; [0] is [NULL].  A thread's [rq_entry]
    links it into the run queue of its priority or into one wait list, so the
    lists are kept together in one map from list heads to the threads on them,
    first to last; [Lists.clist_refines] shows that the pointer operations on
    [clist_node_t] are these list operations.

    Kernel functions run with interrupts disabled between explicit points and
    may give up the processor in the middle.  A [kcmd] is code that runs
    without interruption; a [kprog] is a sequence of such sections with the
    points at which [thread_yield_higher] is called, where the scheduler decides
    which thread goes on.  ([thread_yield_higher] of the port asks Pip to raise the
    PendSV handler of the partition, which calls [sched_run].) *)

From stdpp Require Import base gmap list countable.
From Stdlib Require Import ZArith Lia String.
From S2P Require Import Prelude Ring Bitarithm.
Import Cib.

Local Open Scope Z_scope.

(** ** Data *)

Definition SCHED_PRIO_LEVELS : Z := 16.
Definition MAXTHREADS : Z := 32.
Definition KERNEL_PID_UNDEF : Z := 0.
Definition KERNEL_PID_FIRST : Z := KERNEL_PID_UNDEF + 1.
Definition KERNEL_PID_LAST : Z := KERNEL_PID_FIRST + MAXTHREADS - 1.
Definition KERNEL_PID_ISR : Z := KERNEL_PID_LAST + 1.
Definition THREAD_PRIORITY_MIN : Z := SCHED_PRIO_LEVELS - 1.
Definition THREAD_PRIORITY_IDLE : Z := THREAD_PRIORITY_MIN.
Definition THREAD_PRIORITY_MAIN : Z := THREAD_PRIORITY_MIN - SCHED_PRIO_LEVELS / 2.
Definition THREAD_CREATE_SLEEPING : Z := 1.
Definition THREAD_CREATE_WOUT_YIELD : Z := 4.
Definition THREAD_CREATE_STACKTEST : Z := 8.
(** Values of newlib's [errno.h]. *)
Definition EINVAL : Z := 22.
Definition EOVERFLOW : Z := 139.
Definition ECANCELED : Z := 140.

Inductive thread_status_t :=
  | STATUS_STOPPED | STATUS_ZOMBIE | STATUS_SLEEPING | STATUS_MUTEX_BLOCKED
  | STATUS_RECEIVE_BLOCKED | STATUS_SEND_BLOCKED | STATUS_REPLY_BLOCKED
  | STATUS_FLAG_BLOCKED_ANY | STATUS_FLAG_BLOCKED_ALL | STATUS_MBOX_BLOCKED
  | STATUS_COND_BLOCKED | STATUS_RUNNING | STATUS_PENDING.
#[export] Instance thread_status_eq : EqDecision thread_status_t.
Proof. solve_decision. Defined.

Definition status_num (s : thread_status_t) : Z :=
  match s with
  | STATUS_STOPPED => 0 | STATUS_ZOMBIE => 1 | STATUS_SLEEPING => 2 | STATUS_MUTEX_BLOCKED => 3
  | STATUS_RECEIVE_BLOCKED => 4 | STATUS_SEND_BLOCKED => 5 | STATUS_REPLY_BLOCKED => 6
  | STATUS_FLAG_BLOCKED_ANY => 7 | STATUS_FLAG_BLOCKED_ALL => 8 | STATUS_MBOX_BLOCKED => 9
  | STATUS_COND_BLOCKED => 10 | STATUS_RUNNING => 11 | STATUS_PENDING => 12
  end.
(** [st >= STATUS_ON_RUNQUEUE]. *)
Definition on_runqueue (s : thread_status_t) : bool := status_num STATUS_RUNNING <=? status_num s.
(** [(thread_status_t)-1]: the enumeration is an unsigned byte under the ARM EABI. *)
Definition STATUS_NOT_FOUND : Z := u8 (-1).

Record msg_t := mkMsg { sender_pid : Z; type_ : Z; content : Z }.

(** [rq_entry] and [msg_waiters] are in the map of lists; [start] is the entry
    point and argument that [thread_stack_init] puts on the new stack. *)
Record thread_t := mkThread {
  status : thread_status_t;
  priority : Z;
  pid : Z;
  flags : Z;
  wait_data : Z;
  msg_queue : cib_t;
  msg_array : Z;
  start : Z * Z
}.

Definition set_status (s : thread_status_t) (t : thread_t) : thread_t :=
  mkThread s (priority t) (pid t) (flags t) (wait_data t) (msg_queue t) (msg_array t) (start t).
Definition set_priority (p : Z) (t : thread_t) : thread_t :=
  mkThread (status t) p (pid t) (flags t) (wait_data t) (msg_queue t) (msg_array t) (start t).
Definition set_flags (v : Z) (t : thread_t) : thread_t :=
  mkThread (status t) (priority t) (pid t) v (wait_data t) (msg_queue t) (msg_array t) (start t).
Definition set_wait_data (v : Z) (t : thread_t) : thread_t :=
  mkThread (status t) (priority t) (pid t) (flags t) v (msg_queue t) (msg_array t) (start t).
Definition set_msg_queue (c : cib_t) (t : thread_t) : thread_t :=
  mkThread (status t) (priority t) (pid t) (flags t) (wait_data t) c (msg_array t) (start t).
Definition set_msg_array (v : Z) (t : thread_t) : thread_t :=
  mkThread (status t) (priority t) (pid t) (flags t) (wait_data t) (msg_queue t) v (start t).

(** Heads of the lists threads are linked into. *)
Inductive head_t :=
  | RunQueue (prio : Z) | MutexQueue (mutex : Z) | CondQueue (cond : Z)
  | MboxReaders (mbox : Z) | MboxWriters (mbox : Z) | MsgWaiters (thread : Z).
#[export] Instance head_eq : EqDecision head_t.
Proof. solve_decision. Defined.
#[export] Instance head_countable : Countable head_t.
Proof.
  refine (inj_countable'
    (fun h => match h with
      | RunQueue p => (0%nat, p) | MutexQueue m => (1%nat, m) | CondQueue c => (2%nat, c)
      | MboxReaders b => (3%nat, b) | MboxWriters b => (4%nat, b) | MsgWaiters t => (5%nat, t) end)
    (fun p => match p with
      | (0%nat, x) => RunQueue x | (1%nat, x) => MutexQueue x | (2%nat, x) => CondQueue x
      | (3%nat, x) => MboxReaders x | (4%nat, x) => MboxWriters x | (_, x) => MsgWaiters x end) _).
  by intros [].
Defined.

Record mbox_t := mkMbox { cib : cib_t; mbox_array : Z }.
Record rmutex_t := mkRmutex { refcount : Z; owner : Z }.
Record mutex_cancel_t := mkCancel { mc_mutex : Z; mc_thread : Z; cancelled : Z }.
Record msg_bus_t := mkBus { subs : list Z; bus_id : Z }.
Record msg_bus_entry_t := mkEntry { event_mask : Z; entry_pid : Z }.

(** The objects client code allocates for communication. *)
Record objects := mkObjects {
  msgs : gmap Z msg_t;
  mboxes : gmap Z mbox_t;
  rmutexes : gmap Z rmutex_t;
  cancels : gmap Z mutex_cancel_t;
  buses : gmap Z msg_bus_t;
  entries : gmap Z msg_bus_entry_t;
  bus_count : Z
}.

(** [locked]: the mutexes whose [queue.next] is [MUTEX_LOCKED]. *)
Record kernel := mkKernel {
  tcbs : gmap Z thread_t;
  sched_threads : gmap Z Z;
  sched_num_threads : Z;
  queues : gmap head_t (list Z);
  locked : gset Z;
  runqueue_bitcache : Z;
  sched_active_thread : Z;
  sched_active_pid : Z;
  sched_context_switch_request : bool;
  in_irq : bool;
  objs : objects
}.

Definition queue (k : kernel) (q : head_t) : list Z := default [] (queues k !! q).

Definition with_tcbs (f : gmap Z thread_t -> gmap Z thread_t) (k : kernel) : kernel :=
  mkKernel (f (tcbs k)) (sched_threads k) (sched_num_threads k) (queues k) (locked k)
    (runqueue_bitcache k) (sched_active_thread k) (sched_active_pid k)
    (sched_context_switch_request k) (in_irq k) (objs k).
Definition set_sched_threads (f : gmap Z Z -> gmap Z Z) (d : Z) (k : kernel) : kernel :=
  mkKernel (tcbs k) (f (sched_threads k)) (sched_num_threads k + d) (queues k) (locked k)
    (runqueue_bitcache k) (sched_active_thread k) (sched_active_pid k)
    (sched_context_switch_request k) (in_irq k) (objs k).
Definition set_queue (q : head_t) (l : list Z) (k : kernel) : kernel :=
  mkKernel (tcbs k) (sched_threads k) (sched_num_threads k) (<[q := l]> (queues k)) (locked k)
    (runqueue_bitcache k) (sched_active_thread k) (sched_active_pid k)
    (sched_context_switch_request k) (in_irq k) (objs k).
Definition set_locked (f : gset Z -> gset Z) (k : kernel) : kernel :=
  mkKernel (tcbs k) (sched_threads k) (sched_num_threads k) (queues k) (f (locked k))
    (runqueue_bitcache k) (sched_active_thread k) (sched_active_pid k)
    (sched_context_switch_request k) (in_irq k) (objs k).
Definition set_bitcache (v : Z) (k : kernel) : kernel :=
  mkKernel (tcbs k) (sched_threads k) (sched_num_threads k) (queues k) (locked k)
    v (sched_active_thread k) (sched_active_pid k)
    (sched_context_switch_request k) (in_irq k) (objs k).
Definition set_active (t p : Z) (k : kernel) : kernel :=
  mkKernel (tcbs k) (sched_threads k) (sched_num_threads k) (queues k) (locked k)
    (runqueue_bitcache k) t p (sched_context_switch_request k) (in_irq k) (objs k).
Definition set_request (b : bool) (k : kernel) : kernel :=
  mkKernel (tcbs k) (sched_threads k) (sched_num_threads k) (queues k) (locked k)
    (runqueue_bitcache k) (sched_active_thread k) (sched_active_pid k) b (in_irq k) (objs k).
Definition set_irq (b : bool) (k : kernel) : kernel :=
  mkKernel (tcbs k) (sched_threads k) (sched_num_threads k) (queues k) (locked k)
    (runqueue_bitcache k) (sched_active_thread k) (sched_active_pid k)
    (sched_context_switch_request k) b (objs k).
Definition with_objs (f : objects -> objects) (k : kernel) : kernel :=
  mkKernel (tcbs k) (sched_threads k) (sched_num_threads k) (queues k) (locked k)
    (runqueue_bitcache k) (sched_active_thread k) (sched_active_pid k)
    (sched_context_switch_request k) (in_irq k) (f (objs k)).

(** ** Sections and programs *)

(** [Misuse] is no behaviour of the code: it marks a caller that breaks the contract
    of a call. *)
Inductive kerr := NullPointer | OutOfBounds | AssertFailed | StillIdle | NoFuel | Misuse.

Abbreviation kcmd := (cmd kernel kerr).

Inductive kprog (A : Type) : Type :=
  | Ret (a : A)
  | Atomic (f : kernel -> res kerr (kprog A * kernel))
  | Yield (p : kprog A).
Arguments Ret {A} a.
Arguments Atomic {A} f.
Arguments Yield {A} p.

Fixpoint kbind {A B} (f : A -> kprog B) (p : kprog A) : kprog B :=
  match p with
  | Ret a => f a
  | Atomic g => Atomic (fun k => match g k with
                                 | Ok (p', k') => Ok (kbind f p', k')
                                 | Err e => Err e
                                 end)
  | Yield p => Yield (kbind f p)
  end.
#[export] Instance kprog_ret : MRet kprog := fun A a => Ret a.
#[export] Instance kprog_bind : MBind kprog := fun A B f p => kbind f p.

(** A section with interrupts disabled, up to [irq_restore]. *)
Definition atomically {A} (c : kcmd A) : kprog A :=
  Atomic (fun k => match c k with Ok (a, k') => Ok (Ret a, k') | Err e => Err e end).

Definition thread_yield_higher : kprog unit := Yield (Ret tt).

(** ** [sched.c] *)

Definition thread_at (t : Z) : kcmd thread_t := fun k =>
  match tcbs k !! t with Some th => Ok (th, k) | None => Err NullPointer end.
Definition upd_thread (t : Z) (f : thread_t -> thread_t) : kcmd unit :=
  th ← thread_at t; modify (with_tcbs (insert t (f th))).

Definition BIT31 : Z := 0x80000000.

Definition _set_runqueue_bit (prio : Z) : kcmd unit :=
  modify (fun k => set_bitcache (Z.lor (runqueue_bitcache k) (Z.shiftr BIT31 prio)) k).
Definition _clear_runqueue_bit (prio : Z) : kcmd unit :=
  modify (fun k =>
    set_bitcache (Z.land (runqueue_bitcache k) (u32 (Z.lnot (Z.shiftr BIT31 prio)))) k).
Definition _get_prio_queue_from_runqueue (k : kernel) : Z :=
  u32 (31 - bitarithm_msb (runqueue_bitcache k)).

Definition _unschedule (active_thread : Z) : kcmd unit :=
  upd_thread active_thread (fun t =>
    if decide (status t = STATUS_RUNNING) then set_status STATUS_PENDING t else t).

(** [do { sched_arch_idle(); } while (!runqueue_bitcache)]: each call of
    [sched_arch_idle] lets one pending interrupt in; [irqs] are their handlers. *)
Fixpoint idle_loop (irqs : list (kcmd unit)) : kcmd unit :=
  match irqs with
  | [] => fail StillIdle
  | irq :: irqs =>
      irq;;
      b ← gets runqueue_bitcache;
      if b =? 0 then idle_loop irqs else mret tt
  end.

(** Waits while no thread is ready; the local [active_thread] afterwards. *)
Definition sched_idle (irqs : list (kcmd unit)) (active_thread : Z) : kcmd Z :=
  b ← gets runqueue_bitcache;
  if b =? 0 then
    (if negb (active_thread =? 0) then _unschedule active_thread else mret tt);;
    idle_loop irqs;;
    mret 0
  else mret active_thread.

(** Makes the first thread of the most urgent run queue the running one. *)
Definition sched_pick (previous_thread active_thread : Z) : kcmd Z :=
  modify (set_request false);;
  nextrq ← gets _get_prio_queue_from_runqueue;
  rq ← gets (fun k => queue k (RunQueue nextrq));
  match rq with
  | [] => fail NullPointer
  | next_thread :: _ =>
      upd_thread next_thread (set_status STATUS_RUNNING);;
      (if previous_thread =? next_thread then mret tt
       else
         (if negb (active_thread =? 0) then _unschedule active_thread else mret tt);;
         next ← thread_at next_thread;
         modify (set_active next_thread (pid next)));;
      mret next_thread
  end.

Definition sched_run (irqs : list (kcmd unit)) : kcmd Z :=
  previous_thread ← gets sched_active_thread;
  active_thread ← sched_idle irqs previous_thread;
  sched_pick previous_thread active_thread.

Definition _runqueue_push (thread prio : Z) : kcmd unit :=
  modify (fun k => set_queue (RunQueue prio) (queue k (RunQueue prio) ++ [thread]) k);;
  _set_runqueue_bit prio.

Definition _runqueue_pop (thread : Z) : kcmd unit :=
  t ← thread_at thread;
  let q := RunQueue (priority t) in
  modify (fun k => set_queue q (tail (queue k q)) k);;
  rq ← gets (fun k => queue k q);
  match rq with [] => _clear_runqueue_bit (priority t) | _ => mret tt end.

Definition sched_set_status (process : Z) (s : thread_status_t) : kcmd unit :=
  p ← thread_at process;
  (if on_runqueue s then
     if negb (on_runqueue (status p)) then _runqueue_push process (priority p) else mret tt
   else
     if on_runqueue (status p) then _runqueue_pop process else mret tt);;
  upd_thread process (set_status s).

Definition sched_switch (other_prio : Z) : kprog unit :=
  yield ← atomically (
    active_thread ← gets sched_active_thread;
    me ← thread_at active_thread;
    irq ← gets in_irq;
    if negb (on_runqueue (status me)) || (other_prio <? priority me) then
      if irq : bool then modify (set_request true);; mret false else mret true
    else mret false);
  if yield : bool then thread_yield_higher else mret tt.

Definition sched_runq_advance (prio : Z) : kcmd unit :=
  modify (fun k =>
    set_queue (RunQueue prio)
      (match queue k (RunQueue prio) with [] => [] | x :: l => l ++ [x] end) k).

Definition sched_runq_is_empty (prio : Z) (k : kernel) : bool :=
  match queue k (RunQueue prio) with [] => true | _ => false end.
Definition sched_runq_exactly_one (prio : Z) (k : kernel) : bool :=
  match queue k (RunQueue prio) with [_] => true | _ => false end.
Definition sched_runq_more_than_one (prio : Z) (k : kernel) : bool :=
  match queue k (RunQueue prio) with _ :: _ :: _ => true | _ => false end.

(** [sched_task_exit], up to the switch to another thread. *)
Definition sched_task_exit : kprog unit :=
  atomically (
    p ← gets sched_active_pid;
    t ← gets sched_active_thread;
    modify (set_sched_threads (delete p) (-1));;
    sched_set_status t STATUS_STOPPED;;
    modify (fun k => set_active 0 (sched_active_pid k) k));;
  thread_yield_higher.

(** The part of [sched_change_priority] with interrupts disabled. *)
Definition change_priority_section (thread prio : Z) : kcmd unit :=
  t ← thread_at thread;
  (if on_runqueue (status t) then _runqueue_pop thread;; _runqueue_push thread prio else mret tt);;
  upd_thread thread (set_priority prio).

(** Whether the scheduler would decide otherwise now. *)
Definition change_priority_yields (thread prio : Z) : kcmd bool :=
  active ← gets sched_active_thread;
  if active =? thread then mret true
  else if negb (active =? 0) then
    a ← thread_at active;
    t ← thread_at thread;
    mret ((prio <? priority a) && on_runqueue (status t))
  else mret false.

Definition sched_change_priority (thread prio : Z) : kprog unit :=
  same ← atomically (
    check AssertFailed (negb (thread =? 0) && (prio <? SCHED_PRIO_LEVELS));;
    t ← thread_at thread;
    mret (priority t =? prio));
  if same : bool then mret tt
  else
    atomically (change_priority_section thread prio);;
    yield ← atomically (change_priority_yields thread prio);
    if yield : bool then thread_yield_higher else mret tt.

(** ** [thread.c] *)

Definition pid_is_valid (p : Z) : bool := (KERNEL_PID_FIRST <=? p) && (p <=? KERNEL_PID_LAST).

(** The array has [KERNEL_PID_LAST + 1] entries. *)
Definition thread_get_unchecked (p : Z) : kcmd Z := fun k =>
  if (0 <=? p) && (p <=? KERNEL_PID_LAST) then Ok (default 0 (sched_threads k !! p), k)
  else Err OutOfBounds.
Definition thread_get (p : Z) : kcmd Z :=
  if pid_is_valid p then thread_get_unchecked p else mret 0.

Definition thread_getstatus (p : Z) : kcmd Z :=
  thread ← thread_get p;
  if negb (thread =? 0) then t ← thread_at thread; mret (status_num (status t))
  else mret STATUS_NOT_FOUND.

Definition thread_zombify : kprog unit :=
  irq ← atomically (gets in_irq);
  if irq : bool then mret tt
  else
    atomically (
      me ← gets sched_active_thread;
      sched_set_status me STATUS_ZOMBIE);;
    thread_yield_higher.

Definition thread_kill_zombie (p : Z) : kcmd Z :=
  thread ← thread_get p;
  if thread =? 0 then mret STATUS_NOT_FOUND
  else
    t ← thread_at thread;
    if decide (status t = STATUS_ZOMBIE) then
      modify (set_sched_threads (delete p) (-1));;
      sched_set_status thread STATUS_STOPPED;;
      mret 1
    else mret STATUS_NOT_FOUND.

Definition thread_sleep : kprog unit :=
  irq ← atomically (gets in_irq);
  if irq : bool then mret tt
  else
    atomically (
      me ← gets sched_active_thread;
      sched_set_status me STATUS_SLEEPING);;
    thread_yield_higher.

Definition thread_wakeup (p : Z) : kprog Z :=
  woken ← atomically (
    thread ← thread_get p;
    if thread =? 0 then mret None
    else
      t ← thread_at thread;
      if decide (status t = STATUS_SLEEPING) then
        sched_set_status thread STATUS_RUNNING;;
        mret (Some (priority t))
      else mret None);
  match woken with
  | Some prio => sched_switch prio;; mret 1
  | None => mret STATUS_NOT_FOUND
  end.

Definition thread_yield : kprog unit :=
  atomically (
    me ← gets sched_active_thread;
    t ← thread_at me;
    if on_runqueue (status t) then sched_runq_advance (priority t) else mret tt);;
  thread_yield_higher.

(** The walk of [thread_add_to_list]: behind all entries of at least the same
    urgency, before the first one with a larger priority value. *)
Fixpoint add_sorted (prio_of : Z -> Z) (my_prio new_node : Z) (l : list Z) : list Z :=
  match l with
  | [] => [new_node]
  | entry :: rest =>
      if my_prio <? prio_of entry then new_node :: entry :: rest
      else entry :: add_sorted prio_of my_prio new_node rest
  end.

Definition prio_of (k : kernel) (t : Z) : Z :=
  match tcbs k !! t with Some th => priority th | None => 0 end.

Definition thread_add_to_list (list : head_t) (thread : Z) : kcmd unit :=
  t ← thread_at thread;
  check AssertFailed (negb (on_runqueue (status t)));;
  modify (fun k =>
    set_queue list (add_sorted (prio_of k) (priority t) thread (queue k list)) k).

(** [list_remove_head], [NULL] for an empty list. *)
Definition remove_head (list : head_t) : kcmd Z := fun k =>
  match queue k list with
  | [] => Ok (0, k)
  | x :: l => Ok (x, set_queue list l k)
  end.

(** Words of a stack that still hold their own address, from the bottom. *)
Fixpoint stack_free_loop (fuel : nat) (m : memory) (stackp : Z) : option Z :=
  match fuel with
  | O => None
  | S fuel => if rd32 m stackp =? stackp then stack_free_loop fuel m (stackp + 4) else Some stackp
  end.
Definition thread_measure_stack_free (fuel : nat) (m : memory) (stack : Z) : option Z :=
  match stack_free_loop fuel m stack with
  | Some stackp => Some (u32 (stackp - stack))
  | None => None
  end.

(** Alignment of pointers and of [thread_t]. *)
Definition ALIGN : Z := 4.
Definition SIZEOF_THREAD_T : Z := 40.

(** Address of the control block at the top of the (aligned) stack. *)
Definition tcb_address (stack stacksize : Z) : Z :=
  let misalignment := u32 stack mod ALIGN in
  let '(stack, stacksize) :=
    if negb (misalignment =? 0) then
      let misalignment := u32 (ALIGN - misalignment) in
      (u32 (stack + misalignment), s32 (stacksize - misalignment))
    else (stack, stacksize) in
  let stacksize := s32 (stacksize - SIZEOF_THREAD_T) in
  let stacksize := s32 (stacksize - u32 stacksize mod ALIGN) in
  u32 (stack + stacksize).

(** The search for a free entry of [sched_threads], from [i] up to the last. *)
Fixpoint free_pid (fuel : nat) (threads : gmap Z Z) (i : Z) : Z :=
  match fuel with
  | O => KERNEL_PID_UNDEF
  | S fuel =>
      if i <=? KERNEL_PID_LAST then
        if default 0 (threads !! i) =? 0 then i else free_pid fuel threads (i + 1)
      else KERNEL_PID_UNDEF
  end.

(** The members a new control block gets; [flags] keeps what the memory held. *)
Definition new_thread (p prio old_flags function arg : Z) (empty : cib_t) : thread_t :=
  mkThread STATUS_STOPPED prio p old_flags 0 empty 0 (function, arg).

(** [thread_create] from [irq_disable] on: the result and whether a switch is
    wanted; [old_flags] is what the memory of the stack held for [flags]. *)
Definition create_section (thread prio create_flags function arg old_flags : Z) : kcmd (Z * bool) :=
  threads ← gets sched_threads;
  let p := free_pid (Z.to_nat MAXTHREADS) threads KERNEL_PID_FIRST in
  if p =? KERNEL_PID_UNDEF then mret (- EOVERFLOW, false)
  else
    match cib_init 0 with
    | None => fail AssertFailed
    | Some empty =>
        modify (set_sched_threads (insert p thread) 1);;
        modify (with_tcbs (insert thread (new_thread p prio old_flags function arg empty)));;
        modify (set_queue (MsgWaiters thread) []);;
        if negb (Z.land create_flags THREAD_CREATE_SLEEPING =? 0) then
          sched_set_status thread STATUS_SLEEPING;; mret (p, false)
        else
          sched_set_status thread STATUS_PENDING;;
          mret (p, Z.land create_flags THREAD_CREATE_WOUT_YIELD =? 0)
    end.

Definition thread_create (stack stacksize prio create_flags function arg old_flags : Z) : kprog Z :=
  if SCHED_PRIO_LEVELS <=? prio then mret (- EINVAL)
  else
    let thread := tcb_address stack stacksize in
    r ← atomically (create_section thread prio create_flags function arg old_flags);
    (if snd r : bool then sched_switch prio else mret tt);;
    mret (fst r).

(** ** [init.c] *)

(** State of the zero-initialised data before [kernel_init]. *)
Definition boot_kernel : kernel :=
  mkKernel ∅ ∅ 0 ∅ ∅ 0 0 KERNEL_PID_UNDEF false false (mkObjects ∅ ∅ ∅ ∅ ∅ ∅ 0).

(** Creates the main thread and switches to it. *)
Definition kernel_init (main_stack main_stacksize main_trampoline old_flags : Z) : kprog unit :=
  thread_create main_stack main_stacksize THREAD_PRIORITY_MAIN
    (Z.lor THREAD_CREATE_WOUT_YIELD THREAD_CREATE_STACKTEST) main_trampoline 0 old_flags;;
  thread_yield_higher.

Definition thread_state_to_string (s : thread_status_t) : string :=
  match s with
  | STATUS_STOPPED => "stopped" | STATUS_ZOMBIE => "zombie" | STATUS_SLEEPING => "sleeping"
  | STATUS_MUTEX_BLOCKED => "bl mutex" | STATUS_RECEIVE_BLOCKED => "bl rx"
  | STATUS_SEND_BLOCKED => "bl send" | STATUS_REPLY_BLOCKED => "bl reply"
  | STATUS_FLAG_BLOCKED_ANY => "bl anyfl" | STATUS_FLAG_BLOCKED_ALL => "bl allfl"
  | STATUS_MBOX_BLOCKED => "bl mbox" | STATUS_COND_BLOCKED => "bl cond"
  | STATUS_RUNNING => "running" | STATUS_PENDING => "pending"
  end.
