(* ===== verification/KernelSync.v ===== *)
(** * The RIOT kernel: mutexes, condition variables, thread flags

    Models [core/mutex.c], [core/lib/rmutex.c], [core/cond.c] and
    [core/thread_flags.c] over the state of [Kernel].  The [queue.next] member of
    a mutex is [NULL], [MUTEX_LOCKED] or the first waiting thread. *)

From stdpp Require Import base gmap list.
From Stdlib Require Import ZArith Lia.
From S2P Require Import Prelude Kernel.

Local Open Scope Z_scope.

(** ** [mutex.c] *)

Inductive mutex_next := NextNull | NextLocked | NextNode (t : Z).

Definition queue_next (mutex : Z) (k : kernel) : mutex_next :=
  if decide (mutex ∈ locked k) then NextLocked
  else match queue k (MutexQueue mutex) with [] => NextNull | t :: _ => NextNode t end.

(** The three values the code stores to [queue.next]. *)
Definition store_null (mutex : Z) (k : kernel) : kernel :=
  set_queue (MutexQueue mutex) [] (set_locked (fun l => l ∖ {[mutex]}) k).
Definition store_locked (mutex : Z) (k : kernel) : kernel :=
  set_queue (MutexQueue mutex) [] (set_locked (fun l => {[mutex]} ∪ l) k).
Definition store_node (mutex t : Z) (k : kernel) : kernel :=
  set_queue (MutexQueue mutex) [t] (set_locked (fun l => l ∖ {[mutex]}) k).

Definition mutex_init (mutex : Z) : kcmd unit := modify (store_null mutex).

Definition mutex_block (mutex : Z) : kcmd unit :=
  me ← gets sched_active_thread;
  check AssertFailed (negb (me =? 0));;
  sched_set_status me STATUS_MUTEX_BLOCKED;;
  n ← gets (queue_next mutex);
  match n with
  | NextLocked => modify (store_node mutex me)
  | _ => thread_add_to_list (MutexQueue mutex) me
  end.

Definition mutex_lock_internal (mutex : Z) (block : bool) : kprog bool :=
  r ← atomically (
    n ← gets (queue_next mutex);
    match n with
    | NextNull => modify (store_locked mutex);; mret (true, false)
    | _ => if negb block then mret (false, false) else mutex_block mutex;; mret (true, true)
    end);
  (if snd r : bool then thread_yield_higher else mret tt);;
  mret (fst r).

Definition mutex_trylock (mutex : Z) : kprog bool := mutex_lock_internal mutex false.
Definition mutex_lock (mutex : Z) : kprog unit := mutex_lock_internal mutex true;; mret tt.

Definition with_cancels (f : gmap Z mutex_cancel_t -> gmap Z mutex_cancel_t) : kernel -> kernel :=
  with_objs (fun o => mkObjects (msgs o) (mboxes o) (rmutexes o) (f (cancels o)) (buses o)
                        (entries o) (bus_count o)).
Definition cancel_at (mc : Z) : kcmd mutex_cancel_t := fun k =>
  match cancels (objs k) !! mc with Some c => Ok (c, k) | None => Err NullPointer end.

Definition mutex_cancel_init (mc mutex : Z) : kcmd unit :=
  me ← gets sched_active_thread;
  modify (with_cancels (insert mc (mkCancel mutex me 0))).

Definition mutex_lock_cancelable (mc : Z) : kprog Z :=
  r ← atomically (
    c ← cancel_at mc;
    if negb (cancelled c =? 0) then mret (Some (- ECANCELED))
    else
      n ← gets (queue_next (mc_mutex c));
      match n with
      | NextNull => modify (store_locked (mc_mutex c));; mret (Some 0)
      | _ => mutex_block (mc_mutex c);; mret None
      end);
  match r with
  | Some v => mret v
  | None =>
      thread_yield_higher;;
      c ← atomically (cancel_at mc);
      mret (if negb (cancelled c =? 0) then - ECANCELED else 0)
  end.

(** Hands the mutex to the first waiting thread, which is returned. *)
Definition mutex_wake_first (mutex : Z) : kcmd Z :=
  process ← remove_head (MutexQueue mutex);
  sched_set_status process STATUS_PENDING;;
  n ← gets (queue_next mutex);
  match n with NextNull => modify (store_locked mutex) | _ => mret tt end;;
  mret process.

Definition mutex_unlock (mutex : Z) : kprog unit :=
  r ← atomically (
    n ← gets (queue_next mutex);
    match n with
    | NextNull => mret None
    | NextLocked => modify (store_null mutex);; mret None
    | NextNode _ =>
        process ← mutex_wake_first mutex;
        p ← thread_at process;
        mret (Some (priority p))
    end);
  match r with Some prio => sched_switch prio | None => mret tt end.

Definition mutex_unlock_and_sleep (mutex : Z) : kprog unit :=
  atomically (
    n ← gets (queue_next mutex);
    match n with
    | NextNull => mret tt
    | NextLocked => modify (store_null mutex)
    | NextNode _ => mutex_wake_first mutex;; mret tt
    end;;
    me ← gets sched_active_thread;
    sched_set_status me STATUS_SLEEPING);;
  thread_yield_higher.

(** [list_remove] on the queue of a mutex: whether the node was found. *)
Definition remove_waiter (mutex thread : Z) : kcmd bool := fun k =>
  let l := queue k (MutexQueue mutex) in
  if decide (thread ∈ l)
  then Ok (true, set_queue (MutexQueue mutex) (filter (fun x => x <> thread) l) k)
  else Ok (false, k).

Definition mutex_cancel (mc : Z) : kprog unit :=
  r ← atomically (
    c ← cancel_at mc;
    modify (with_cancels (insert mc (mkCancel (mc_mutex c) (mc_thread c) 1)));;
    t ← thread_at (mc_thread c);
    if on_runqueue (status t) then mret None
    else
      n ← gets (queue_next (mc_mutex c));
      match n with
      | NextNode _ =>
          found ← remove_waiter (mc_mutex c) (mc_thread c);
          if found : bool then
            n ← gets (queue_next (mc_mutex c));
            match n with NextNull => modify (store_locked (mc_mutex c)) | _ => mret tt end;;
            sched_set_status (mc_thread c) STATUS_PENDING;;
            mret (Some (priority t))
          else mret None
      | _ => mret None
      end);
  match r with Some prio => sched_switch prio | None => mret tt end.

(** ** [rmutex.c]: the mutex is the first member, at the same address *)

Definition with_rmutexes (f : gmap Z rmutex_t -> gmap Z rmutex_t) : kernel -> kernel :=
  with_objs (fun o => mkObjects (msgs o) (mboxes o) (f (rmutexes o)) (cancels o) (buses o)
                        (entries o) (bus_count o)).
Definition rmutex_at (rmutex : Z) : kcmd rmutex_t := fun k =>
  match rmutexes (objs k) !! rmutex with Some r => Ok (r, k) | None => Err NullPointer end.

Definition rmutex_init (rmutex : Z) : kcmd unit :=
  modify (with_rmutexes (insert rmutex (mkRmutex 0 KERNEL_PID_UNDEF)));;
  mutex_init rmutex.

Definition _lock (rmutex : Z) (trylock : bool) : kprog bool :=
  got ← mutex_trylock rmutex;
  held ←
    (if got : bool then mret true
     else
       mine ← atomically (
         r ← rmutex_at rmutex;
         p ← gets sched_active_pid;
         mret (owner r =? p));
       if negb mine then if trylock : bool then mret false else mutex_lock rmutex;; mret true
       else mret true);
  if held : bool then
    atomically (
      r ← rmutex_at rmutex;
      p ← gets sched_active_pid;
      modify (with_rmutexes (insert rmutex (mkRmutex (u16 (refcount r + 1)) p))));;
    mret true
  else mret false.

Definition rmutex_lock (rmutex : Z) : kprog unit := _lock rmutex false;; mret tt.
Definition rmutex_trylock (rmutex : Z) : kprog bool := _lock rmutex true.

Definition rmutex_unlock (rmutex : Z) : kprog unit :=
  last ← atomically (
    r ← rmutex_at rmutex;
    p ← gets sched_active_pid;
    check AssertFailed (owner r =? p);;
    check AssertFailed (0 <? refcount r);;
    let refcount := u16 (refcount r - 1) in
    let owner := if refcount =? 0 then KERNEL_PID_UNDEF else owner r in
    modify (with_rmutexes (insert rmutex (mkRmutex refcount owner)));;
    mret (refcount =? 0));
  if last : bool then mutex_unlock rmutex else mret tt.

(** ** [cond.c] *)

Definition cond_init (cond : Z) : kcmd unit := modify (set_queue (CondQueue cond) []).

Definition cond_wait (cond mutex : Z) : kprog unit :=
  me ← atomically (gets sched_active_thread);
  mutex_unlock mutex;;
  atomically (
    sched_set_status me STATUS_COND_BLOCKED;;
    thread_add_to_list (CondQueue cond) me);;
  thread_yield_higher;;
  mutex_lock mutex.

(** The loop over the waiting threads; each round takes one off the queue. *)
Fixpoint signal_loop (fuel : nat) (cond : Z) (broadcast : bool) (min_prio : Z) : kcmd Z :=
  match fuel with
  | O => fail NoFuel
  | S fuel =>
      process ← remove_head (CondQueue cond);
      if negb (process =? 0) then
        sched_set_status process STATUS_PENDING;;
        p ← thread_at process;
        let min_prio := if priority p <? min_prio then priority p else min_prio in
        if negb broadcast then mret min_prio else signal_loop fuel cond broadcast min_prio
      else mret min_prio
  end.

Definition _cond_signal (cond : Z) (broadcast : bool) : kprog unit :=
  min_prio ← atomically (fun k =>
    signal_loop (S (length (queue k (CondQueue cond)))) cond broadcast (THREAD_PRIORITY_MIN + 1) k);
  if min_prio <=? THREAD_PRIORITY_MIN then sched_switch min_prio else mret tt.

Definition cond_signal (cond : Z) : kprog unit := _cond_signal cond false.
Definition cond_broadcast (cond : Z) : kprog unit := _cond_signal cond true.

(** ** [thread_flags.c] *)

Definition THREAD_FLAG_MSG_WAITING : Z := Z.shiftl 1 15.

Definition flags_wakeup (t : thread_t) : bool :=
  let mask := u16 (wait_data t) in
  match status t with
  | STATUS_FLAG_BLOCKED_ANY => negb (Z.land (flags t) mask =? 0)
  | STATUS_FLAG_BLOCKED_ALL => Z.land (flags t) mask =? mask
  | _ => false
  end.

Definition _thread_flags_wake (thread : Z) : kcmd bool :=
  t ← thread_at thread;
  if flags_wakeup t then
    sched_set_status thread STATUS_PENDING;;
    modify (set_request true);;
    mret true
  else mret false.

Definition thread_flags_wake (thread : Z) : kcmd bool := _thread_flags_wake thread.

Definition _thread_flags_clear_atomic (thread mask : Z) : kcmd Z :=
  t ← thread_at thread;
  let mask := Z.land mask (flags t) in
  upd_thread thread (set_flags (Z.land (flags t) (u16 (Z.lnot mask))));;
  mret mask.

Definition _thread_flags_wait (mask thread : Z) (threadstate : thread_status_t) : kcmd unit :=
  upd_thread thread (set_wait_data mask);;
  sched_set_status thread threadstate.

Definition thread_flags_clear (mask : Z) : kprog Z :=
  atomically (me ← gets sched_active_thread; _thread_flags_clear_atomic me mask).

Definition _thread_flags_wait_any (mask : Z) : kprog unit :=
  blocked ← atomically (
    me ← gets sched_active_thread;
    t ← thread_at me;
    if Z.land (flags t) mask =? 0 then
      _thread_flags_wait mask me STATUS_FLAG_BLOCKED_ANY;; mret true
    else mret false);
  if blocked : bool then thread_yield_higher else mret tt.

Definition thread_flags_wait_any (mask : Z) : kprog Z :=
  me ← atomically (gets sched_active_thread);
  _thread_flags_wait_any mask;;
  atomically (_thread_flags_clear_atomic me mask).

Definition thread_flags_wait_one (mask : Z) : kprog Z :=
  _thread_flags_wait_any mask;;
  tmp ← atomically (
    me ← gets sched_active_thread;
    t ← thread_at me;
    let tmp := Z.land (flags t) mask in
    mret (me, Z.land tmp (u16 (Z.lnot tmp + 1))));
  atomically (_thread_flags_clear_atomic (fst tmp) (snd tmp)).

Definition thread_flags_wait_all (mask : Z) : kprog Z :=
  r ← atomically (
    me ← gets sched_active_thread;
    t ← thread_at me;
    if negb (Z.land (flags t) mask =? mask) then
      _thread_flags_wait mask me STATUS_FLAG_BLOCKED_ALL;; mret (me, true)
    else mret (me, false));
  (if snd r : bool then thread_yield_higher else mret tt);;
  atomically (_thread_flags_clear_atomic (fst r) mask).

Definition thread_flags_set (thread mask : Z) : kprog unit :=
  woken ← atomically (
    upd_thread thread (fun t => set_flags (Z.lor (flags t) mask) t);;
    _thread_flags_wake thread);
  if woken : bool then thread_yield_higher else mret tt.
