(* ===== verification/KernelMsg.v ===== *)
(** * The RIOT kernel: messages, mailboxes, message buses

    Models [core/msg.c], [core/mbox.c] with [core/include/mbox.h], and
    [core/msg_bus.c] with [core/include/msg_bus.h].  Messages live in a store by
    address: a send writes to the receiver's buffer or to a slot of its queue,
    and a blocked sender's message is read where the sender left it. *)

From stdpp Require Import base gmap list.
From Stdlib Require Import ZArith Lia.
From S2P Require Import Prelude Ring Kernel KernelSync.
Import Cib.

Local Open Scope Z_scope.

Definition SIZEOF_MSG_T : Z := 8.

Definition with_msgs (f : gmap Z msg_t -> gmap Z msg_t) : kernel -> kernel :=
  with_objs (fun o => mkObjects (f (msgs o)) (mboxes o) (rmutexes o) (cancels o) (buses o)
                        (entries o) (bus_count o)).
Definition with_mboxes (f : gmap Z mbox_t -> gmap Z mbox_t) : kernel -> kernel :=
  with_objs (fun o => mkObjects (msgs o) (f (mboxes o)) (rmutexes o) (cancels o) (buses o)
                        (entries o) (bus_count o)).
Definition with_buses (f : gmap Z msg_bus_t -> gmap Z msg_bus_t) (d : Z) : kernel -> kernel :=
  with_objs (fun o => mkObjects (msgs o) (mboxes o) (rmutexes o) (cancels o) (f (buses o))
                        (entries o) (u16 (bus_count o + d))).
Definition with_entries (f : gmap Z msg_bus_entry_t -> gmap Z msg_bus_entry_t) : kernel -> kernel :=
  with_objs (fun o => mkObjects (msgs o) (mboxes o) (rmutexes o) (cancels o) (buses o)
                        (f (entries o)) (bus_count o)).

(** Loads and stores of whole messages. *)
Definition msg_load (a : Z) : kcmd msg_t := fun k =>
  if a =? 0 then Err NullPointer else Ok (default (mkMsg 0 0 0) (msgs (objs k) !! a), k).
Definition msg_store (a : Z) (m : msg_t) : kcmd unit :=
  check NullPointer (negb (a =? 0));; modify (with_msgs (insert a m)).
Definition set_sender (m p : Z) : kcmd unit :=
  v ← msg_load m; msg_store m (mkMsg p (type_ v) (content v)).

(** ** [msg.c] *)

Definition thread_has_msg_queue (t : thread_t) : bool := negb (msg_array t =? 0).

Definition queue_msg (target m : Z) : kcmd Z :=
  t ← thread_at target;
  let '(n, q) := cib_put (msg_queue t) in
  if n <? 0 then mret 0
  else
    upd_thread target (set_msg_queue q);;
    v ← msg_load m;
    msg_store (msg_array t + SIZEOF_MSG_T * n) v;;
    upd_thread target (fun t => set_flags (Z.lor (flags t) THREAD_FLAG_MSG_WAITING) t);;
    thread_flags_wake target;;
    mret 1.

(** [_msg_send] for a target that exists, up to [irq_restore]: the result and
    whether the call yields then. *)
Definition send_to (m target : Z) (block : bool) : kcmd (Z * bool) :=
  me ← gets sched_active_thread;
  t ← thread_at target;
  if decide (status t <> STATUS_RECEIVE_BLOCKED) then
    queued ← queue_msg target m;
    if negb (queued =? 0) then
      i ← thread_at me;
      request ← gets sched_context_switch_request;
      mret (1, bool_decide (status i = STATUS_REPLY_BLOCKED) || request)
    else if negb block then mret (0, false)
    else
      upd_thread me (set_wait_data m);;
      i ← thread_at me;
      sched_set_status me
        (if decide (status i = STATUS_REPLY_BLOCKED) then STATUS_REPLY_BLOCKED
         else STATUS_SEND_BLOCKED);;
      thread_add_to_list (MsgWaiters target) me;;
      upd_thread target (fun t => set_flags (Z.lor (flags t) THREAD_FLAG_MSG_WAITING) t);;
      thread_flags_wake target;;
      mret (1, true)
  else
    v ← msg_load m;
    msg_store (wait_data t) v;;
    sched_set_status target STATUS_PENDING;;
    mret (1, true).

Definition send_section (m target_pid : Z) (block : bool) : kcmd (Z * bool) :=
  target ← thread_get_unchecked target_pid;
  p ← gets sched_active_pid;
  set_sender m p;;
  if target =? 0 then mret (-1, false) else send_to m target block.

(** The rest of a call whose section returned [r]. *)
Definition yield_return (r : Z * bool) : kprog Z :=
  (if snd r : bool then thread_yield_higher else mret tt);;
  mret (fst r).

Definition _msg_send (m target_pid : Z) (block : bool) : kprog Z :=
  r ← atomically (send_section m target_pid block);
  yield_return r.

Definition msg_send_to_self (m : Z) : kcmd Z :=
  p ← gets sched_active_pid;
  set_sender m p;;
  me ← gets sched_active_thread;
  queue_msg me m.

Definition _msg_send_oneway (m target_pid : Z) : kcmd Z :=
  target ← thread_get_unchecked target_pid;
  if target =? 0 then mret (-1)
  else
    t ← thread_at target;
    if decide (status t = STATUS_RECEIVE_BLOCKED) then
      v ← msg_load m;
      msg_store (wait_data t) v;;
      sched_set_status target STATUS_PENDING;;
      modify (set_request true);;
      mret 1
    else queue_msg target m.

Definition msg_send_int (m target_pid : Z) : kcmd Z :=
  set_sender m KERNEL_PID_ISR;;
  _msg_send_oneway m target_pid.

Definition msg_dispatch (m target_pid : Z) (block : bool) : kprog Z :=
  irq ← atomically (gets in_irq);
  if irq : bool then atomically (msg_send_int m target_pid)
  else
    p ← atomically (gets sched_active_pid);
    if p =? target_pid then atomically (msg_send_to_self m)
    else _msg_send m target_pid block.

Definition msg_send (m target_pid : Z) : kprog Z := msg_dispatch m target_pid true.
Definition msg_try_send (m target_pid : Z) : kprog Z := msg_dispatch m target_pid false.

(** [msg_send_receive] enters [_msg_send] with interrupts still disabled. *)
Definition send_receive_section (m reply target_pid : Z) : kcmd (Z * bool) :=
  me ← gets sched_active_thread;
  sched_set_status me STATUS_REPLY_BLOCKED;;
  upd_thread me (set_wait_data reply);;
  v ← msg_load m;
  msg_store reply v;;
  send_section reply target_pid true.

Definition msg_send_receive (m reply target_pid : Z) : kprog Z :=
  atomically (
    p ← gets sched_active_pid;
    check AssertFailed (negb (p =? target_pid)));;
  r ← atomically (send_receive_section m reply target_pid);
  yield_return r.

(** The reply is copied to the requester, which becomes ready; its priority. *)
Definition deliver_reply (m reply : Z) (checked : bool) : kcmd (option Z) :=
  v ← msg_load m;
  target ← thread_get_unchecked (sender_pid v);
  check (if checked then AssertFailed else NullPointer) (negb (target =? 0));;
  t ← thread_at target;
  if decide (status t <> STATUS_REPLY_BLOCKED) then mret None
  else
    r ← msg_load reply;
    msg_store (wait_data t) r;;
    sched_set_status target STATUS_PENDING;;
    mret (Some (priority t)).

Definition msg_reply (m reply : Z) : kprog Z :=
  r ← atomically (deliver_reply m reply true);
  match r with
  | Some target_prio => sched_switch target_prio;; mret 1
  | None => mret (-1)
  end.

Definition msg_reply_int (m reply : Z) : kcmd Z :=
  r ← deliver_reply m reply false;
  match r with
  | Some _ => modify (set_request true);; mret 1
  | None => mret (-1)
  end.

(** What is left to do after the section of [_msg_receive]. *)
Inductive receive_next := Return (v : Z) | Block | Switch (prio : Z).

(** A blocked sender's message is copied to [m] and the sender made ready, unless
    it awaits a reply. *)
Definition copy_from_sender (sender m : Z) : kcmd receive_next :=
  s ← thread_at sender;
  v ← msg_load (wait_data s);
  msg_store m v;;
  if decide (status s <> STATUS_REPLY_BLOCKED) then
    upd_thread sender (set_wait_data 0);;
    sched_set_status sender STATUS_PENDING;;
    mret (if priority s <? THREAD_PRIORITY_IDLE then Switch (priority s) else Return 1)
  else mret (Return 1).

(** The destination is the queue slot just freed when a queued message was
    delivered. *)
Definition take_waiter (me : Z) (t : thread_t) (q : cib_t) (queue_index m sender : Z) : kcmd receive_next :=
  if 0 <=? queue_index then
    upd_thread me (set_msg_queue (snd (cib_put q)));;
    copy_from_sender sender (msg_array t + SIZEOF_MSG_T * fst (cib_put q))
  else copy_from_sender sender m.

(** [_msg_receive] up to [irq_restore]. *)
Definition receive_section (m : Z) (block : bool) : kcmd receive_next :=
  me ← gets sched_active_thread;
  t ← thread_at me;
  let '(queue_index, q) :=
    if thread_has_msg_queue t then cib_get (msg_queue t) else (-1, msg_queue t) in
  upd_thread me (set_msg_queue q);;
  waiters ← gets (fun k => queue k (MsgWaiters me));
  if negb block && (match waiters with [] => true | _ => false end && (queue_index =? -1))
  then mret (Return (-1))
  else
    (if 0 <=? queue_index then
       v ← msg_load (msg_array t + SIZEOF_MSG_T * queue_index); msg_store m v
     else upd_thread me (set_wait_data m));;
    sender ← remove_head (MsgWaiters me);
    if negb (sender =? 0) then take_waiter me t q queue_index m sender
    else if queue_index <? 0 then sched_set_status me STATUS_RECEIVE_BLOCKED;; mret Block
    else mret (Return 1).

Definition _msg_receive (m : Z) (block : bool) : kprog Z :=
  r ← atomically (receive_section m block);
  match r with
  | Return v => mret v
  | Switch prio => sched_switch prio;; mret 1
  | Block =>
      thread_yield_higher;;
      atomically (
        me ← gets sched_active_thread;
        t ← thread_at me;
        check AssertFailed (bool_decide (status t <> STATUS_RECEIVE_BLOCKED)));;
      mret 1
  end.

Definition msg_try_receive (m : Z) : kprog Z := _msg_receive m false.
Definition msg_receive (m : Z) : kprog Z := _msg_receive m true.

Definition _msg_avail (thread : Z) : kcmd Z :=
  t ← thread_at thread;
  mret (if thread_has_msg_queue t then cib_avail (msg_queue t) else 0).
Definition msg_avail_thread (p : Z) : kcmd Z := thread ← thread_get p; _msg_avail thread.
Definition msg_avail : kcmd Z := me ← gets sched_active_thread; _msg_avail me.
Definition msg_queue_capacity (p : Z) : kcmd Z :=
  thread ← thread_get p;
  t ← thread_at thread;
  mret (s32 (if thread_has_msg_queue t then cib_size (msg_queue t) else 0)).
Definition msg_init_queue (array num : Z) : kcmd unit :=
  me ← gets sched_active_thread;
  upd_thread me (set_msg_array array);;
  match cib_init (u32 num) with
  | Some c => upd_thread me (set_msg_queue c)
  | None => fail AssertFailed
  end.

Definition msg_sent_by_int (m : msg_t) : bool := sender_pid m =? KERNEL_PID_ISR.

(** ** [mbox.c] *)

Definition mbox_at (mbox : Z) : kcmd mbox_t := fun k =>
  match mboxes (objs k) !! mbox with Some b => Ok (b, k) | None => Err NullPointer end.

(** [CIB_INIT(queue_size)] takes the size without a check. *)
Definition mbox_init (mbox queue_array queue_size : Z) : kcmd unit :=
  modify (with_mboxes (insert mbox (mkMbox (mkCib 0 0 (u32 (queue_size - 1))) queue_array)));;
  modify (set_queue (MboxReaders mbox) []);;
  modify (set_queue (MboxWriters mbox) []).

(** [_wake_waiter] without the final [sched_switch]; the priority. *)
Definition wake_waiter_section (thread : Z) : kcmd Z :=
  sched_set_status thread STATUS_PENDING;;
  t ← thread_at thread;
  mret (priority t).
Definition _wait_section (wait_list : head_t) : kcmd unit :=
  me ← gets sched_active_thread;
  sched_set_status me STATUS_MBOX_BLOCKED;;
  thread_add_to_list wait_list me.

(** The message goes to the queue with the sender filled in. *)
Definition mbox_enqueue (mbox msg : Z) : kcmd unit :=
  p ← gets sched_active_pid;
  set_sender msg p;;
  b ← mbox_at mbox;
  let '(n, c) := cib_put_unsafe (cib b) in
  modify (with_mboxes (insert mbox (mkMbox c (mbox_array b))));;
  v ← msg_load msg;
  msg_store (mbox_array b + SIZEOF_MSG_T * n) v.

(** What one round of [while (cib_full(...))] decides. *)
Inductive put_next := PutDone | PutFailed | PutWait.
Definition mbox_try (mbox msg : Z) (blocking : bool) : kcmd put_next :=
  b ← mbox_at mbox;
  if cib_full (cib b) then
    if blocking then _wait_section (MboxWriters mbox);; mret PutWait
    else mret PutFailed
  else mbox_enqueue mbox msg;; mret PutDone.

(** The rest of a round after its first section; [fuel] bounds the number of
    times the thread is woken and finds the queue full again. *)
Fixpoint mbox_put_loop (fuel : nat) (mbox msg : Z) (blocking : bool) (r : put_next) : kprog Z :=
  match r with
  | PutDone => mret 1
  | PutFailed => mret 0
  | PutWait =>
      thread_yield;;
      match fuel with
      | O => atomically (fail NoFuel)
      | S fuel =>
          r ← atomically (mbox_try mbox msg blocking);
          mbox_put_loop fuel mbox msg blocking r
      end
  end.

(** The first section: a waiting reader gets the message and its priority is
    returned, or the first round of the loop is made. *)
Definition put_section (mbox msg : Z) (blocking : bool) : kcmd (Z + put_next) :=
  next ← remove_head (MboxReaders mbox);
  if negb (next =? 0) then
    t ← thread_at next;
    v ← msg_load msg;
    msg_store (wait_data t) v;;
    prio ← wake_waiter_section next;
    mret (inl prio)
  else
    r ← mbox_try mbox msg blocking;
    mret (inr r).

Definition _mbox_put (fuel : nat) (mbox msg : Z) (blocking : bool) : kprog Z :=
  r ← atomically (put_section mbox msg blocking);
  match r with
  | inl prio => sched_switch prio;; mret 1
  | inr r => mbox_put_loop fuel mbox msg blocking r
  end.

Inductive get_next := GetDone | GetFailed | GetWait | GetSwitch (prio : Z).

(** A waiting writer, if any, is woken once a slot is free. *)
Definition wake_writer (mbox : Z) : kcmd get_next :=
  next ← remove_head (MboxWriters mbox);
  if negb (next =? 0) then prio ← wake_waiter_section next; mret (GetSwitch prio)
  else mret GetDone.

Definition get_section (mbox msg : Z) (blocking : bool) : kcmd get_next :=
  b ← mbox_at mbox;
  if negb (cib_avail (cib b) =? 0) then
    let '(n, c) := cib_get_unsafe (cib b) in
    modify (with_mboxes (insert mbox (mkMbox c (mbox_array b))));;
    v ← msg_load (mbox_array b + SIZEOF_MSG_T * n);
    msg_store msg v;;
    wake_writer mbox
  else if blocking then
    me ← gets sched_active_thread;
    upd_thread me (set_wait_data msg);;
    _wait_section (MboxReaders mbox);;
    mret GetWait
  else mret GetFailed.

Definition _mbox_get (mbox msg : Z) (blocking : bool) : kprog Z :=
  r ← atomically (get_section mbox msg blocking);
  match r with
  | GetDone => mret 1
  | GetFailed => mret 0
  | GetWait => thread_yield;; mret 1
  | GetSwitch prio => sched_switch prio;; mret 1
  end.

Definition mbox_put (fuel : nat) (mbox msg : Z) : kprog unit := _mbox_put fuel mbox msg true;; mret tt.
Definition mbox_try_put (mbox msg : Z) : kprog Z := _mbox_put 0 mbox msg false.
Definition mbox_get (mbox msg : Z) : kprog unit := _mbox_get mbox msg true;; mret tt.
Definition mbox_try_get (mbox msg : Z) : kprog Z := _mbox_get mbox msg false.
Definition mbox_size (mbox : Z) : kcmd Z :=
  b ← mbox_at mbox; mret (if negb (mask (cib b) =? 0) then u32 (mask (cib b) + 1) else 0).
Definition mbox_avail (mbox : Z) : kcmd Z := b ← mbox_at mbox; mret (cib_avail (cib b)).

(** ** [msg_bus.c] *)

Definition MSB_BUS_PID_FLAG : Z := Z.shiftl 1 15.

Definition bus_at (bus : Z) : kcmd msg_bus_t := fun k =>
  match buses (objs k) !! bus with Some b => Ok (b, k) | None => Err NullPointer end.
Definition entry_at (entry : Z) : kcmd msg_bus_entry_t := fun k =>
  match entries (objs k) !! entry with Some e => Ok (e, k) | None => Err NullPointer end.

Definition msg_bus_init (bus : Z) : kcmd unit :=
  n ← gets (fun k => bus_count (objs k));
  modify (with_buses (insert bus (mkBus [] n)) 1).

(** [list_add] puts the entry right behind the head. *)
Definition msg_bus_attach (bus entry : Z) : kcmd unit :=
  p ← gets sched_active_pid;
  modify (with_entries (insert entry (mkEntry 0 p)));;
  b ← bus_at bus;
  modify (with_buses (insert bus (mkBus (entry :: subs b) (bus_id b))) 0).

Definition msg_bus_detach (bus entry : Z) : kcmd unit :=
  b ← bus_at bus;
  modify (with_buses (insert bus (mkBus (filter (fun x => x <> entry) (subs b)) (bus_id b))) 0).

Fixpoint entry_loop (l : list Z) (p : Z) : kcmd Z :=
  match l with
  | [] => mret 0
  | e :: l => s ← entry_at e; if entry_pid s =? p then mret e else entry_loop l p
  end.
Definition msg_bus_get_entry (bus : Z) : kcmd Z :=
  b ← bus_at bus;
  p ← gets sched_active_pid;
  entry_loop (subs b) p.

Definition msg_bus_subscribe (entry type : Z) : kcmd unit :=
  check AssertFailed (type <? 32);;
  e ← entry_at entry;
  modify (with_entries (insert entry (mkEntry (Z.lor (event_mask e) (Z.shiftl 1 type)) (entry_pid e)))).
Definition msg_bus_unsubscribe (entry type : Z) : kcmd unit :=
  check AssertFailed (type <? 32);;
  e ← entry_at entry;
  modify (with_entries
    (insert entry (mkEntry (Z.land (event_mask e) (u32 (Z.lnot (Z.shiftl 1 type)))) (entry_pid e)))).

(** The loop over the subscribers in [msg_send_bus]. *)
Fixpoint bus_loop (l : list Z) (m mask count : Z) : kcmd Z :=
  match l with
  | [] => mret count
  | e :: l =>
      s ← entry_at e;
      if Z.land (event_mask s) mask =? 0 then bus_loop l m mask count
      else
        r ← _msg_send_oneway m (entry_pid s);
        bus_loop l m mask (if 0 <? r then count + 1 else count)
  end.

Definition msg_send_bus (m bus : Z) : kprog Z :=
  r ← atomically (
    irq ← gets in_irq;
    v ← msg_load m;
    let mask := Z.shiftl 1 (Z.land (type_ v) 0x1F) in
    p ← gets sched_active_pid;
    set_sender m (s16 (Z.lor (if irq : bool then KERNEL_PID_ISR else p) MSB_BUS_PID_FLAG));;
    b ← bus_at bus;
    count ← bus_loop (subs b) m mask 0;
    request ← gets sched_context_switch_request;
    mret (count, request && negb irq));
  yield_return r.

(** [m] is the local message of the caller's frame. *)
Definition msg_bus_post (m bus type arg : Z) : kprog Z :=
  atomically (
    check AssertFailed (type <? 32);;
    b ← bus_at bus;
    msg_store m (mkMsg 0 (u16 (Z.lor type (Z.shiftl (bus_id b) 5))) arg));;
  msg_send_bus m bus.

Definition msg_bus_get_type (m : msg_t) : Z :=
  if negb (Z.land (u32 (sender_pid m)) MSB_BUS_PID_FLAG =? 0) then Z.land (type_ m) 0x1F else type_ m.
Definition msg_bus_get_sender_pid (m : msg_t) : Z :=
  s16 (Z.land (u32 (sender_pid m)) (u32 (Z.lnot MSB_BUS_PID_FLAG))).
Definition msg_is_from_bus (bus : option msg_bus_t) (m : msg_t) : bool :=
  match bus with
  | Some b => if negb (bus_id b =? Z.shiftr (type_ m) 5) then false
              else negb (Z.land (u32 (sender_pid m)) MSB_BUS_PID_FLAG =? 0)
  | None => negb (Z.land (u32 (sender_pid m)) MSB_BUS_PID_FLAG =? 0)
  end.
