(* ===== verification/KernelInv.v ===== *)
(** * The RIOT kernel: what holds of its state

    The invariant of the scheduler and of the wait lists, and the lemmas on the
    primitives all kernel functions are made of: making a thread ready, blocking
    the running thread, entering and leaving a wait list, choosing the next
    thread.  [winv x] is the invariant of a state in which the thread [x] is on
    its way between two lists; [inv] is the invariant when no thread is. *)

From stdpp Require Import base gmap list.
From Stdlib Require Import ZArith Lia.
From S2P Require Import Prelude Bitarithm Kernel.

Local Open Scope Z_scope.

(** ** The invariant *)

(** A thread on a list has the status that goes with the list. *)
Definition belongs (q : head_t) (th : thread_t) : Prop :=
  match q with
  | RunQueue p => on_runqueue (status th) = true /\ priority th = p
  | MutexQueue _ => status th = STATUS_MUTEX_BLOCKED
  | CondQueue _ => status th = STATUS_COND_BLOCKED
  | MboxReaders _ | MboxWriters _ => status th = STATUS_MBOX_BLOCKED
  | MsgWaiters _ => status th = STATUS_SEND_BLOCKED \/ status th = STATUS_REPLY_BLOCKED
  end.

(** A ready thread is on the run queue of its priority and a thread that waits
    for a wake-up from a list is on such a list. *)
Definition listed (k : kernel) (t : Z) (th : thread_t) : Prop :=
  match status th with
  | STATUS_RUNNING | STATUS_PENDING => t ∈ queue k (RunQueue (priority th))
  | STATUS_MUTEX_BLOCKED => exists m, t ∈ queue k (MutexQueue m)
  | STATUS_COND_BLOCKED => exists c, t ∈ queue k (CondQueue c)
  | STATUS_MBOX_BLOCKED => exists b, t ∈ queue k (MboxReaders b) \/ t ∈ queue k (MboxWriters b)
  | STATUS_SEND_BLOCKED => exists u, t ∈ queue k (MsgWaiters u)
  | _ => True
  end.

(** The bit of each priority tells whether its run queue has a thread. *)
Definition bits_ok (k : kernel) : Prop :=
  is_word 32 (runqueue_bitcache k) /\
  forall p, 0 <= p < 32 ->
    Z.testbit (runqueue_bitcache k) (31 - p) = bool_decide (queue k (RunQueue p) <> []).

Record winv (x : Z) (k : kernel) : Prop := mkWinv {
  w_nodup : forall q, NoDup (queue k q);
  w_disj : forall q1 q2 t, t ∈ queue k q1 -> t ∈ queue k q2 -> q1 = q2;
  w_member : forall q t, t ∈ queue k q -> exists th, tcbs k !! t = Some th /\ belongs q th;
  w_out : forall q, x ∉ queue k q;
  w_listed : forall t th, tcbs k !! t = Some th -> t <> x -> listed k t th;
  w_prio : forall t th, tcbs k !! t = Some th -> 0 <= priority th < SCHED_PRIO_LEVELS;
  w_bits : bits_ok k;
  w_null : tcbs k !! 0 = None;
  w_reg : forall t th, tcbs k !! t = Some th -> t <> x -> status th <> STATUS_STOPPED ->
    sched_threads k !! pid th = Some t;
  w_threads : forall p t, sched_threads k !! p = Some t ->
    KERNEL_PID_FIRST <= p <= KERNEL_PID_LAST /\ exists th, tcbs k !! t = Some th /\ pid th = p;
  w_num : sched_num_threads k = Z.of_nat (size (sched_threads k));
  w_active : sched_active_thread k = 0 \/
    exists th, tcbs k !! sched_active_thread k = Some th /\ pid th = sched_active_pid k;
  w_locked : forall m, m ∈ locked k -> queue k (MutexQueue m) = []
}.
Definition inv (k : kernel) : Prop := winv 0 k.

(** The active thread is ready and at the front of the run queue of its
    priority: the state in which thread code runs. *)
Definition running (k : kernel) : Prop :=
  exists th l, tcbs k !! sched_active_thread k = Some th /\ on_runqueue (status th) = true /\
    queue k (RunQueue (priority th)) = sched_active_thread k :: l.

(** The thread [me] runs. *)
Definition good (me : Z) (k : kernel) : Prop :=
  inv k /\ sched_active_thread k = me /\ running k.

(** ** State updates *)

Lemma queue_set k q l q' : queue (set_queue q l k) q' = if decide (q = q') then l else queue k q'.
Proof.
  unfold queue, set_queue. cbn. destruct (decide (q = q')) as [<-|Hne].
  - by rewrite lookup_insert_eq.
  - by rewrite lookup_insert_ne.
Qed.
Lemma queue_set_eq k q l : queue (set_queue q l k) q = l.
Proof. by rewrite queue_set, decide_True. Qed.
Lemma queue_set_ne k q l q' : q <> q' -> queue (set_queue q l k) q' = queue k q'.
Proof. intros. by rewrite queue_set, decide_False. Qed.

(** Members of the kernel state the invariant does not mention. *)
Definition same_sched (k k' : kernel) : Prop :=
  tcbs k' = tcbs k /\ sched_threads k' = sched_threads k /\
  sched_num_threads k' = sched_num_threads k /\ queues k' = queues k /\ locked k' = locked k /\
  runqueue_bitcache k' = runqueue_bitcache k /\ sched_active_thread k' = sched_active_thread k /\
  sched_active_pid k' = sched_active_pid k.

Lemma same_sched_queue k k' : same_sched k k' -> queue k' = queue k.
Proof. intros (_&_&_&H&_). unfold queue. by rewrite H. Qed.

Lemma winv_same x k k' : same_sched k k' -> winv x k -> winv x k'.
Proof.
  intros Hs [H1 H2 H3 H4 H5 H6 H7 H8 H9 H10 H11 H12 H13].
  pose proof (same_sched_queue _ _ Hs) as Hq. destruct Hs as (Ht & Hth & Hn & _ & Hl & Hb & Ha & Hp).
  split; unfold bits_ok, listed in *; rewrite ?Ht, ?Hth, ?Hn, ?Hl, ?Hb, ?Ha, ?Hp, ?Hq; assumption.
Qed.

Lemma running_same k k' : same_sched k k' -> running k -> running k'.
Proof.
  intros Hs (th & l & H1 & H2 & H3). pose proof (same_sched_queue _ _ Hs) as Hq.
  destruct Hs as (Ht & _ & _ & _ & _ & _ & Ha & _). exists th, l. by rewrite Ht, Ha, Hq.
Qed.

(** ** Run queue bits *)

Lemma bit31_shift p : 0 <= p < 32 -> Z.shiftr BIT31 p = 2 ^ (31 - p).
Proof.
  intros Hp. unfold BIT31. change 0x80000000 with (2 ^ 31).
  rewrite Z.shiftr_div_pow2 by lia. rewrite <- Z.pow_sub_r by lia. done.
Qed.

Lemma bits_push k p l :
  0 <= p < 32 -> bits_ok k -> l <> [] ->
  bits_ok (set_bitcache (Z.lor (runqueue_bitcache k) (Z.shiftr BIT31 p)) (set_queue (RunQueue p) l k)).
Proof.
  intros Hp [Hw Hb] Hl. split.
  - cbn. apply word_lor; [lia|done|]. rewrite bit31_shift by done.
    split; [apply Z.pow_nonneg; lia|]. apply Z.pow_lt_mono_r; lia.
  - intros p' Hp'. cbn [runqueue_bitcache set_bitcache].
    change (queue (set_bitcache _ ?k) ?q) with (queue k q). rewrite Z.lor_spec, Hb, bit31_shift, queue_set by done.
    destruct (decide (p = p')) as [<-|Hne].
    + rewrite decide_True by done. rewrite Z.pow2_bits_true, orb_true_r by lia. symmetry. by apply bool_decide_eq_true.
    + rewrite decide_False by congruence. rewrite Z.pow2_bits_false by lia. apply orb_false_r.
Qed.

Lemma bits_clear k p :
  0 <= p < 32 -> bits_ok k ->
  bits_ok (set_bitcache (Z.land (runqueue_bitcache k) (u32 (Z.lnot (Z.shiftr BIT31 p))))
             (set_queue (RunQueue p) [] k)).
Proof.
  intros Hp [Hw Hb]. rewrite bit31_shift by done. split.
  - cbn. apply word_land; [lia|done|]. apply wrap_range. lia.
  - intros p' Hp'. cbn [runqueue_bitcache set_bitcache].
    change (queue (set_bitcache _ ?k) ?q) with (queue k q).
    rewrite land_u32, Z.land_spec, Z.lnot_spec, Hb, queue_set by (done || lia).
    destruct (decide (p = p')) as [<-|Hne].
    + rewrite decide_True by done. rewrite Z.pow2_bits_true by lia. by rewrite andb_false_r.
    + rewrite decide_False by congruence. rewrite Z.pow2_bits_false by lia. apply andb_true_r.
Qed.

(** A run queue that stays as empty or non-empty as it was keeps its bit. *)
Lemma bits_set k p l :
  bits_ok k -> (l = [] <-> queue k (RunQueue p) = []) -> bits_ok (set_queue (RunQueue p) l k).
Proof.
  intros [Hw Hb] Hl. split; [done|]. intros p' Hp'. cbn [runqueue_bitcache set_queue].
  rewrite Hb, queue_set by done. case_decide as Hd; [|done]. injection Hd as <-.
  apply bool_decide_ext. tauto.
Qed.

Lemma bits_other k q l :
  (forall p, q <> RunQueue p) -> bits_ok k -> bits_ok (set_queue q l k).
Proof.
  intros Hq [Hw Hb]. split; [done|]. intros p Hp. cbn [runqueue_bitcache set_queue].
  by rewrite queue_set_ne, Hb.
Qed.

(** A non-empty run queue shows in the cache, and the decoded priority is the
    most urgent one with a thread. *)
Lemma highest_priority k :
  inv k -> runqueue_bitcache k <> 0 ->
  let p := _get_prio_queue_from_runqueue k in
  0 <= p < SCHED_PRIO_LEVELS /\ queue k (RunQueue p) <> [] /\
  forall p', p' < p -> queue k (RunQueue p') = [].
Proof.
  intros H Hne p. pose proof (w_bits _ _ H) as [Hw Hb].
  assert (0 < runqueue_bitcache k) as Hpos by (destruct Hw; lia).
  pose proof (log2_word _ Hw Hpos) as Hl.
  assert (p = 31 - Z.log2 (runqueue_bitcache k)) as Hp.
  { subst p. unfold _get_prio_queue_from_runqueue. rewrite msb_clz by done.
    apply wrap_small. unfold is_word. lia. }
  assert (queue k (RunQueue p) <> []) as Hq.
  { specialize (Hb p ltac:(lia)). replace (31 - p) with (Z.log2 (runqueue_bitcache k)) in Hb by lia.
    rewrite Z.bit_log2 in Hb by done. symmetry in Hb. by apply bool_decide_eq_true in Hb. }
  assert (forall p', queue k (RunQueue p') <> [] -> 0 <= p' < SCHED_PRIO_LEVELS) as Hr.
  { intros p' Hq'. destruct (queue k (RunQueue p')) as [|t l] eqn:E; [done|].
    destruct (w_member _ _ H (RunQueue p') t) as (th & Ht & _ & <-); [rewrite E; left|].
    by eapply w_prio. }
  split; [by apply Hr|]. split; [done|]. intros p' Hlt.
  destruct (queue k (RunQueue p')) as [|t l] eqn:E; [done|]. exfalso.
  assert (0 <= p' < SCHED_PRIO_LEVELS) as Hr' by (apply Hr; by rewrite E). unfold SCHED_PRIO_LEVELS in Hr'.
  specialize (Hb p' ltac:(lia)). rewrite E, bool_decide_eq_true_2 in Hb by done.
  rewrite Z.bits_above_log2 in Hb by lia. done.
Qed.

(** ** Making a thread ready, blocking a thread *)

Definition put_thread (t : Z) (th : thread_t) : kernel -> kernel := with_tcbs (insert t th).

Definition push_state (t p : Z) (k : kernel) : kernel :=
  set_bitcache (Z.lor (runqueue_bitcache k) (Z.shiftr BIT31 p))
    (set_queue (RunQueue p) (queue k (RunQueue p) ++ [t]) k).
Definition pop_state (p : Z) (k : kernel) : kernel :=
  let k' := set_queue (RunQueue p) (tail (queue k (RunQueue p))) k in
  match tail (queue k (RunQueue p)) with
  | [] => set_bitcache (Z.land (runqueue_bitcache k) (u32 (Z.lnot (Z.shiftr BIT31 p)))) k'
  | _ => k'
  end.

Lemma tcbs_pop p k : tcbs (pop_state p k) = tcbs k.
Proof. unfold pop_state. by destruct (tail _). Qed.

Ltac kunfold :=
  unfold sched_set_status, _runqueue_push, _runqueue_pop, _set_runqueue_bit, _clear_runqueue_bit,
    upd_thread, thread_at, modify, gets, check, mbind, cmd_bind, mret, cmd_ret; cbn.

Section SetStatus.
Variables (k : kernel) (t : Z) (th : thread_t) (s : thread_status_t).
Hypothesis Ht : tcbs k !! t = Some th.

Lemma set_status_push :
  on_runqueue s = true -> on_runqueue (status th) = false ->
  sched_set_status t s k = Ok (tt, put_thread t (set_status s th) (push_state t (priority th) k)).
Proof using All. intros H1 H2. kunfold. rewrite Ht, H1, H2. cbn. by rewrite Ht. Qed.

Lemma set_status_pop :
  on_runqueue s = false -> on_runqueue (status th) = true ->
  sched_set_status t s k = Ok (tt, put_thread t (set_status s th) (pop_state (priority th) k)).
Proof using All.
  intros H1 H2. kunfold. rewrite Ht, H1, H2. cbn. rewrite Ht. unfold pop_state.
  rewrite queue_set_eq. destruct (tail (queue k (RunQueue (priority th)))); cbn; by rewrite Ht.
Qed.

Lemma set_status_stay :
  on_runqueue s = on_runqueue (status th) ->
  sched_set_status t s k = Ok (tt, put_thread t (set_status s th) k).
Proof using All. intros H1. kunfold. rewrite Ht, H1. destruct (on_runqueue (status th)); cbn; by rewrite Ht. Qed.
End SetStatus.

Lemma tcbs_put t th k u :
  tcbs (put_thread t th k) !! u = if decide (t = u) then Some th else tcbs k !! u.
Proof.
  unfold put_thread, with_tcbs. cbn. destruct (decide (t = u)) as [<-|Hne].
  - by rewrite lookup_insert_eq.
  - by rewrite lookup_insert_ne.
Qed.

Lemma winv_put_gen x k t th th' :
  winv x k -> tcbs k !! t = Some th -> 0 <= priority th' < SCHED_PRIO_LEVELS -> pid th' = pid th ->
  (forall q, t ∈ queue k q -> belongs q th') ->
  (t <> x -> listed k t th' /\ (status th' <> STATUS_STOPPED -> sched_threads k !! pid th' = Some t)) ->
  winv x (put_thread t th' k).
Proof.
  intros [H1 H2 H3 H4 H5 H6 H7 H8 H9 H10 H11 H12 H13] Ht Hp Hi Hbel Hx.
  split; try assumption.
  - intros q u Hu. destruct (H3 q u Hu) as (thu & Hlu & Hbu). setoid_rewrite tcbs_put.
    case_decide; [subst|eauto]. exists th'. split; [done|]. by apply Hbel.
  - intros u thu. rewrite tcbs_put. case_decide; [subst|by apply H5].
    intros [= <-] Hne. by apply Hx.
  - intros u thu. rewrite tcbs_put. case_decide; [by intros [= <-]|]. by apply H6.
  - rewrite tcbs_put. case_decide; [subst; congruence|done].
  - intros u thu. rewrite tcbs_put. case_decide; [subst|by apply H9].
    intros [= <-] Hne Hs. by apply Hx.
  - intros p u Hu. destruct (H10 p u Hu) as (Hr & thu & Hlu & Hpu). split; [done|].
    setoid_rewrite tcbs_put. case_decide; [subst|eauto]. exists th'. split; [done|]. congruence.
  - destruct H12 as [H12|(thu & Hlu & Hpu)]; [by left|right].
    change (sched_active_thread (put_thread t th' k)) with (sched_active_thread k).
    setoid_rewrite tcbs_put. case_decide; [|eauto]. exists th'. split; [done|].
    change (sched_active_pid (put_thread t th' k)) with (sched_active_pid k). congruence.
Qed.

(** Members of a control block other than status, priority and pid. *)
Lemma winv_put x k t th th' :
  winv x k -> tcbs k !! t = Some th ->
  status th' = status th -> priority th' = priority th -> pid th' = pid th ->
  winv x (put_thread t th' k).
Proof.
  intros H Ht Hs Hp Hi.
  eapply winv_put_gen; [exact H|exact Ht|rewrite Hp; by apply (w_prio _ _ H _ _ Ht)|done| |].
  - intros q Hq. destruct (w_member _ _ H q t Hq) as (th0 & Ht0 & Hb). simplify_eq.
    destruct q; unfold belongs in *; by rewrite ?Hs, ?Hp.
  - intros Hne. split.
    + pose proof (w_listed _ _ H _ _ Ht Hne) as Hl. unfold listed in *. by rewrite Hs, Hp.
    + rewrite Hs, Hi. by apply (w_reg _ _ H).
Qed.

(** The control block of the thread that is between lists. *)
Lemma winv_put_out x k th th' :
  winv x k -> tcbs k !! x = Some th -> 0 <= priority th' < SCHED_PRIO_LEVELS -> pid th' = pid th ->
  winv x (put_thread x th' k).
Proof.
  intros H Ht Hp Hi. eapply winv_put_gen; [done..| |done].
  intros q Hq. by destruct (w_out _ _ H q).
Qed.

(** A thread that is between lists may stay there in a state that needs no list. *)
Definition needs_list (s : thread_status_t) : bool :=
  match s with
  | STATUS_STOPPED | STATUS_ZOMBIE | STATUS_SLEEPING | STATUS_RECEIVE_BLOCKED
  | STATUS_REPLY_BLOCKED | STATUS_FLAG_BLOCKED_ANY | STATUS_FLAG_BLOCKED_ALL => false
  | _ => true
  end.

Lemma winv_close x k th :
  winv x k -> tcbs k !! x = Some th -> needs_list (status th) = false ->
  (status th <> STATUS_STOPPED -> sched_threads k !! pid th = Some x) -> inv k.
Proof.
  intros [H1 H2 H3 H4 H5 H6 H7 H8 H9 H10 H11 H12 H13] Ht Hs Hr. split; try assumption.
  - intros q Hq. destruct (H3 q 0 Hq) as (th0 & Hn & _). congruence.
  - intros t tht Hlt _. destruct (decide (t = x)) as [->|Hne]; [|by apply H5].
    simplify_eq. unfold listed. by destruct (status th).
  - intros t tht Hlt _. destruct (decide (t = x)) as [->|Hne]; [|by apply H9].
    simplify_eq. done.
Qed.

(** Replacing the list of one head, together with the cache of the run queues;
    [y] is the thread between lists before, [x] the one after. *)
Lemma winv_lists x y k q l b :
  winv y k -> bits_ok (set_bitcache b (set_queue q l k)) ->
  NoDup l -> x ∉ l -> (forall q', x ∈ queue k q' -> q' = q) ->
  (forall t, t ∈ l -> t ∈ queue k q \/ (t = y /\ exists th, tcbs k !! y = Some th /\ belongs q th)) ->
  (forall t, t ∈ queue k q -> t ∈ l \/ t = x) ->
  (y <> x -> forall th, tcbs k !! y = Some th -> y ∈ l /\ belongs q th /\ sched_threads k !! pid th = Some y) ->
  (forall m, q = MutexQueue m -> m ∈ locked k -> l = []) ->
  winv x (set_bitcache b (set_queue q l k)).
Proof.
  intros [H1 H2 H3 H4 H5 H6 H7 H8 H9 H10 H11 H12 H13] Hq Hnd Hx Hxq Hin Hout Hy Hlk.
  assert (forall t, t ∈ l -> forall q', t ∈ queue k q' -> q' = q) as Hdl.
  { intros t Ht q' Hq'. destruct (Hin t Ht) as [Htq|[-> _]]; [by apply (H2 _ _ t)|by destruct (H4 q')]. }
  split; try assumption; try change (queue (set_bitcache b ?k')) with (queue k').
  - intros q'. rewrite queue_set. case_decide; [done|apply H1].
  - intros q1 q2 t. rewrite !queue_set. repeat case_decide; subst; intros Ht1 Ht2; try done.
    + symmetry. by eapply Hdl.
    + by eapply Hdl.
    + by eapply H2.
  - intros q' t. rewrite queue_set. case_decide; [subst q'|by apply H3].
    intros Ht. destruct (Hin t Ht) as [Htq|[-> Hb]]; [by apply H3|done].
  - intros q'. rewrite queue_set. case_decide as Hd; [done|]. intros Hxq'. apply Hd. symmetry. by apply Hxq.
  - intros t th Ht Hne. destruct (decide (t = y)) as [->|Hty].
    + destruct (Hy Hne th Ht) as (Hyl & Hb & _). unfold listed, belongs in *.
      change (queue (set_bitcache b ?k')) with (queue k').
      destruct q; rewrite ?Hb.
      * destruct Hb as [Hon <-]. by destruct (status th); try discriminate Hon; rewrite queue_set_eq.
      * exists mutex. by rewrite queue_set_eq.
      * exists cond. by rewrite queue_set_eq.
      * exists mbox. left. by rewrite queue_set_eq.
      * exists mbox. right. by rewrite queue_set_eq.
      * destruct Hb as [-> | ->]; [|done]. exists thread. by rewrite queue_set_eq.
    + specialize (H5 t th Ht Hty).
      assert (forall q', t ∈ queue k q' -> t ∈ queue (set_queue q l k) q') as Hmono.
      { intros q' Htq. rewrite queue_set. case_decide; [|done]. subst q'.
        by destruct (Hout t Htq) as [Hl|Hl]. }
      unfold listed in *. change (queue (set_bitcache b ?k')) with (queue k').
      destruct (status th); try done; try (by apply Hmono); try (destruct H5 as [o Ho]; exists o; by apply Hmono).
      destruct H5 as [o [Ho|Ho]]; exists o; [left|right]; by apply Hmono.
  - intros t th Ht Hne Hs. destruct (decide (t = y)) as [->|Hty]; [|by apply H9].
    by destruct (Hy Hne th Ht) as (_ & _ & Hreg).
  - intros m Hm. rewrite queue_set. case_decide as Hd; [subst q; by eapply Hlk|by apply H13].
Qed.

Lemma winv_set_queue x y k q l :
  winv y k -> (forall p, q <> RunQueue p) ->
  NoDup l -> x ∉ l -> (forall q', x ∈ queue k q' -> q' = q) ->
  (forall t, t ∈ l -> t ∈ queue k q \/ (t = y /\ exists th, tcbs k !! y = Some th /\ belongs q th)) ->
  (forall t, t ∈ queue k q -> t ∈ l \/ t = x) ->
  (y <> x -> forall th, tcbs k !! y = Some th -> y ∈ l /\ belongs q th /\ sched_threads k !! pid th = Some y) ->
  (forall m, q = MutexQueue m -> m ∈ locked k -> l = []) ->
  winv x (set_queue q l k).
Proof.
  intros H Hq. intros. apply (winv_lists x y k q l (runqueue_bitcache k)); try assumption.
  apply (bits_other k q l Hq), H.
Qed.

Lemma inv_out k q : inv k -> 0 ∉ queue k q.
Proof. intros H. apply H. Qed.

Lemma inv_tcb_ne0 x k th : winv x k -> tcbs k !! 0 = Some th -> False.
Proof. intros H Ht. rewrite (w_null _ _ H) in Ht. done. Qed.

(** *** Leaving and entering a wait list *)

Lemma winv_detach k q x l :
  inv k -> (forall p, q <> RunQueue p) -> Permutation (queue k q) (x :: l) -> winv x (set_queue q l k).
Proof.
  intros H Hq HP. pose proof (w_nodup _ _ H q) as Hnd. rewrite HP in Hnd. apply NoDup_cons in Hnd as [Hx Hnd].
  assert (x ∈ queue k q) as Hxq by (rewrite HP; left).
  eapply winv_set_queue; [exact H|done|done|done| | | | |].
  - intros q' Hq'. by eapply (w_disj _ _ H).
  - intros t Ht. left. rewrite HP. by right.
  - intros t Ht. rewrite HP in Ht. apply elem_of_cons in Ht as [->|Ht]; auto.
  - intros _ th Hth. by destruct (inv_tcb_ne0 _ _ _ H Hth).
  - intros m -> Hm. rewrite (w_locked _ _ H m Hm) in HP. by apply Permutation_nil_cons in HP.
Qed.

Lemma winv_attach k q x th l :
  winv x k -> (forall p, q <> RunQueue p) -> tcbs k !! x = Some th -> belongs q th ->
  sched_threads k !! pid th = Some x -> (forall m, q = MutexQueue m -> m ∉ locked k) ->
  Permutation l (x :: queue k q) -> inv (set_queue q l k).
Proof.
  intros H Hq Hth Hb Hreg Hlk HP.
  assert (x <> 0) as Hx0 by (intros ->; by eapply inv_tcb_ne0).
  eapply winv_set_queue; [exact H|done| | | | | | |].
  - rewrite HP. apply NoDup_cons. split; [apply H|apply H].
  - rewrite HP. apply not_elem_of_cons. split; [done|]. intros H0.
    destruct (w_member _ _ H _ _ H0) as (th0 & Hth0 & _). exact (inv_tcb_ne0 _ _ _ H Hth0).
  - intros q' H0. destruct (w_member _ _ H _ _ H0) as (th0 & Hth0 & _). by destruct (inv_tcb_ne0 _ _ _ H Hth0).
  - intros t Ht. rewrite HP in Ht. apply elem_of_cons in Ht as [->|Ht]; [right; eauto|by left].
  - intros t Ht. left. rewrite HP. by right.
  - intros _ th' Hth'. simplify_eq. split_and!; [rewrite HP; left|done|done].
  - intros m Hm Hlm. by destruct (Hlk m Hm).
Qed.

(** *** Ready and blocked *)

Lemma winv_push k x th th' :
  winv x k -> tcbs k !! x = Some th -> on_runqueue (status th') = true ->
  0 <= priority th' < SCHED_PRIO_LEVELS -> pid th' = pid th -> sched_threads k !! pid th = Some x ->
  inv (put_thread x th' (push_state x (priority th') k)).
Proof.
  intros H Ht Hs Hp Hpid Hreg. assert (x <> 0) as Hx0 by (intros ->; by eapply inv_tcb_ne0).
  assert (winv x (put_thread x th' k)) as H' by (by eapply winv_put_out).
  unfold SCHED_PRIO_LEVELS in Hp.
  assert (tcbs (put_thread x th' k) !! x = Some th') as Ht' by (by rewrite tcbs_put, decide_True).
  change (inv (set_bitcache (Z.lor (runqueue_bitcache k) (Z.shiftr BIT31 (priority th')))
    (set_queue (RunQueue (priority th')) (queue k (RunQueue (priority th')) ++ [x]) (put_thread x th' k)))).
  eapply winv_lists; [exact H'| | | | | | | |].
  - apply (bits_push (put_thread x th' k)); [lia|apply H'|by intros [_ Hnil]%app_nil].
  - apply NoDup_app. split_and!; [apply H| |apply NoDup_singleton].
    intros y Hy ->%list_elem_of_singleton. by destruct (w_out _ _ H (RunQueue (priority th'))).
  - rewrite elem_of_app, list_elem_of_singleton. intros [H0|H0]; [|done].
    destruct (w_member _ _ H _ _ H0) as (th0 & Hth0 & _). exact (inv_tcb_ne0 _ _ _ H Hth0).
  - intros q' H0. destruct (w_member _ _ H _ _ H0) as (th0 & Hth0 & _). by destruct (inv_tcb_ne0 _ _ _ H Hth0).
  - intros t [Htq|Htq]%elem_of_app; [by left|right].
    apply list_elem_of_singleton in Htq as ->. split; [done|]. exists th'. split; [exact Ht'|]. by split.
  - intros t Htq. left. apply elem_of_app. by left.
  - intros _ th0 Hth0. rewrite Ht' in Hth0. injection Hth0 as <-. split_and!; [|done|].
    + apply elem_of_app. right. by apply list_elem_of_singleton.
    + by rewrite Hpid.
  - done.
Qed.

Lemma winv_wake k x th s :
  winv x k -> tcbs k !! x = Some th -> on_runqueue s = true -> sched_threads k !! pid th = Some x ->
  inv (put_thread x (set_status s th) (push_state x (priority th) k)).
Proof.
  intros H Ht Hs Hreg. apply (winv_push k x th (set_status s th)); try done. apply (w_prio _ _ H _ _ Ht).
Qed.

Lemma winv_pop k x th l :
  inv k -> tcbs k !! x = Some th -> queue k (RunQueue (priority th)) = x :: l ->
  winv x (pop_state (priority th) k).
Proof.
  intros H Ht Hq. pose proof (w_prio _ _ H _ _ Ht) as Hp. unfold SCHED_PRIO_LEVELS in Hp.
  unfold pop_state. rewrite Hq. cbn [tail].
  pose proof (w_nodup _ _ H (RunQueue (priority th))) as Hnd. rewrite Hq in Hnd.
  apply NoDup_cons in Hnd as [Hx Hnd].
  assert (forall b, bits_ok (set_bitcache b (set_queue (RunQueue (priority th)) l k)) ->
    winv x (set_bitcache b (set_queue (RunQueue (priority th)) l k))) as Hall.
  { intros b Hb. eapply winv_lists; [exact H|done|done|done| | | | |done].
    - intros q' Hq'. eapply (w_disj _ _ H); [exact Hq'|]. rewrite Hq. left.
    - intros t Ht'. left. rewrite Hq. by right.
    - intros t Ht'. rewrite Hq in Ht'. apply elem_of_cons in Ht' as [->|Ht']; auto.
    - intros _ th0 Hth0. by destruct (inv_tcb_ne0 _ _ _ H Hth0). }
  destruct l as [|y l]; [apply Hall, bits_clear; [lia|apply H]|].
  apply (Hall (runqueue_bitcache k)), (bits_set k (priority th) (y :: l)); [apply H|]. rewrite Hq. done.
Qed.

Lemma winv_block k x th s l :
  inv k -> tcbs k !! x = Some th -> queue k (RunQueue (priority th)) = x :: l ->
  winv x (put_thread x (set_status s th) (pop_state (priority th) k)).
Proof.
  intros H Ht Hq. pose proof (winv_pop k x th l H Ht Hq) as H'.
  eapply winv_put_out; [exact H'|by rewrite tcbs_pop|by apply (w_prio _ _ H _ _ Ht)|done].
Qed.
