(* ===== verification/KernelRun.v ===== *)
(** * The RIOT kernel: running sections and programs

    Inversion lemmas that take a successful section apart, the relation between
    the states before and after a section that wakes threads, the lemma on
    [sched_run], and the predicate [wp] by which a kernel program is safe for the
    thread that runs it however interrupts and other threads come in between. *)

From stdpp Require Import base gmap list.
From Stdlib Require Import ZArith Lia.
From S2P Require Import Prelude Bitarithm Kernel KernelInv.

Local Open Scope Z_scope.

(** ** Taking sections apart *)

Section Inversion.
Variables k k' : kernel.

Lemma gets_inv {A} (f : kernel -> A) a : gets (E := kerr) f k = Ok (a, k') -> a = f k /\ k' = k.
Proof using. by intros [= <- <-]. Qed.
Lemma modify_inv (f : kernel -> kernel) u : modify (E := kerr) f k = Ok (u, k') -> k' = f k.
Proof using. by intros [= _ <-]. Qed.
Lemma mret_inv {A} (b a : A) : (mret b : kcmd A) k = Ok (a, k') -> a = b /\ k' = k.
Proof using. by intros [= <- <-]. Qed.
Lemma check_inv e b u : check (E := kerr) e b k = Ok (u, k') -> b = true /\ k' = k.
Proof using. unfold check. destruct b; [|done]. by intros [= _ <-]. Qed.
Lemma thread_at_inv t th : thread_at t k = Ok (th, k') -> tcbs k !! t = Some th /\ k' = k.
Proof using. unfold thread_at. destruct (tcbs k !! t); [|done]. by intros [= <- <-]. Qed.
Lemma upd_thread_inv t f u : upd_thread t f k = Ok (u, k') ->
  exists th, tcbs k !! t = Some th /\ k' = put_thread t (f th) k.
Proof using.
  unfold upd_thread. intros H. apply cmd_bind_inv in H as (th & k1 & H1 & H2).
  unfold thread_at in H1. destruct (tcbs k !! t) eqn:E; [|done]. injection H1 as <- <-.
  exists t0. split; [done|]. by injection H2 as _ <-.
Qed.
Lemma remove_head_inv q x : remove_head q k = Ok (x, k') ->
  (queue k q = [] /\ x = 0 /\ k' = k) \/ (exists l, queue k q = x :: l /\ k' = set_queue q l k).
Proof using.
  unfold remove_head. destruct (queue k q) as [|y l]; intros [= <- <-]; [by left|right; eauto].
Qed.
Lemma thread_get_unchecked_inv p t : thread_get_unchecked p k = Ok (t, k') ->
  k' = k /\ (t = 0 \/ sched_threads k !! p = Some t).
Proof using.
  unfold thread_get_unchecked. destruct (_ && _); [|done]. intros [= <- <-]. split; [done|].
  destruct (sched_threads k !! p); [by right|by left].
Qed.
Lemma thread_get_inv p t : thread_get p k = Ok (t, k') ->
  k' = k /\ (t = 0 \/ sched_threads k !! p = Some t).
Proof using.
  unfold thread_get. destruct (pid_is_valid p); [apply thread_get_unchecked_inv|].
  intros [= <- <-]. split; [done|by left].
Qed.
End Inversion.

(** One step of taking a successful section [H] apart. *)
Ltac kinv1 H :=
  match type of H with
  | mbind _ _ _ = Ok _ =>
      let a := fresh "a" in let k1 := fresh "k" in let H1 := fresh "H" in
      apply cmd_bind_inv in H as (a & k1 & H1 & H); kinv1 H1
  | gets _ _ = Ok _ => apply gets_inv in H as [? ?]; subst
  | modify _ _ = Ok _ => apply modify_inv in H; subst
  | mret _ _ = Ok _ => apply mret_inv in H as [? ?]; subst
  | check _ _ _ = Ok _ => apply check_inv in H as [? ?]; subst
  | fail _ _ = Ok _ => discriminate H
  | thread_at _ _ = Ok _ =>
      let H' := fresh "Hat" in apply thread_at_inv in H as [H' ?]; subst
  | upd_thread _ _ _ = Ok _ =>
      let th := fresh "th" in let H' := fresh "Hat" in
      apply upd_thread_inv in H as (th & H' & ?); subst
  | thread_get _ _ = Ok _ =>
      let H' := fresh "Hget" in apply thread_get_inv in H as [? H']; subst
  | thread_get_unchecked _ _ = Ok _ =>
      let H' := fresh "Hget" in apply thread_get_unchecked_inv in H as [? H']; subst
  | remove_head _ _ = Ok _ =>
      let H' := fresh "Hrm" in apply remove_head_inv in H as H'
  | _ => idtac
  end.
Ltac kinv H := repeat (progress kinv1 H).

(** ** What wake-ups leave as it is *)

(** The active thread stays the same, and running if it was. *)
Definition evolves (k k' : kernel) : Prop :=
  sched_active_thread k' = sched_active_thread k /\ sched_active_pid k' = sched_active_pid k /\
  (running k -> running k').

#[export] Instance evolves_preorder : PreOrder evolves.
Proof.
  split; [by intros k|]. intros k1 k2 k3 (H1 & H2 & H3) (H4 & H5 & H6).
  split; [congruence|]. split; [congruence|auto].
Qed.

Lemma evolves_same k k' : same_sched k k' -> evolves k k'.
Proof. intros Hs. split; [apply Hs|]. split; [apply Hs|by apply running_same]. Qed.

Lemma evolves_queue k q l : (forall p, q <> RunQueue p) -> evolves k (set_queue q l k).
Proof.
  intros Hq. split; [done|]. split; [done|]. intros (th & l' & H1 & H2 & H3).
  exists th, l'. split; [done|]. split; [done|]. by rewrite queue_set_ne.
Qed.

Lemma evolves_put k t th th' :
  tcbs k !! t = Some th -> on_runqueue (status th') = on_runqueue (status th) ->
  priority th' = priority th -> evolves k (put_thread t th' k).
Proof.
  intros Ht Hs Hp. split; [done|]. split; [done|]. intros (tha & l & H1 & H2 & H3).
  unfold running. change (sched_active_thread (put_thread t th' k)) with (sched_active_thread k).
  change (queue (put_thread t th' k)) with (queue k). setoid_rewrite tcbs_put.
  case_decide as Hd; [|by exists tha, l]. subst t. rewrite H1 in Ht. injection Ht as <-.
  exists th', l. split; [done|]. split; [congruence|]. by rewrite Hp.
Qed.

Lemma evolves_push k t th s :
  tcbs k !! t = Some th -> on_runqueue (status th) = false ->
  evolves k (put_thread t (set_status s th) (push_state t (priority th) k)).
Proof.
  intros Ht Hs. split; [done|]. split; [done|]. intros (tha & l & H1 & H2 & H3).
  assert (t <> sched_active_thread k) as Hne by (intros ->; congruence).
  unfold running, push_state.
  change (sched_active_thread (put_thread t (set_status s th) _)) with (sched_active_thread k).
  setoid_rewrite tcbs_put. rewrite decide_False by done.
  change (queue (put_thread _ _ (set_bitcache _ ?k'))) with (queue k').
  destruct (decide (priority th = priority tha)) as [He|Hn].
  - exists tha, (l ++ [t]). split; [done|]. split; [done|]. by rewrite He, queue_set_eq, H3.
  - exists tha, l. split; [done|]. split; [done|]. rewrite queue_set_ne by congruence. done.
Qed.

Lemma evolves_locked k f : evolves k (set_locked f k).
Proof. split; [done|]. split; [done|]. intros (th & l & H). by exists th, l. Qed.

Lemma good_evolves me k k' : good me k -> evolves k k' -> inv k' -> good me k'.
Proof. intros (H1 & H2 & H3) (E1 & E2 & E3) H'. split; [done|]. split; [congruence|auto]. Qed.

(** A section that other threads and interrupts may run at any time. *)
Definition keeps {A} (c : kcmd A) : Prop :=
  forall k a k', inv k -> c k = Ok (a, k') -> inv k' /\ evolves k k'.

Lemma keeps_bind {A B} (c : kcmd A) (f : A -> kcmd B) :
  keeps c -> (forall a, keeps (f a)) -> keeps (a ← c; f a).
Proof.
  intros Hc Hf k b k' Hi H. apply cmd_bind_inv in H as (a & k1 & H1 & H2).
  destruct (Hc _ _ _ Hi H1) as [Hi1 E1]. destruct (Hf a _ _ _ Hi1 H2) as [Hi2 E2].
  split; [done|]. by etrans.
Qed.
Lemma keeps_ret {A} (a : A) : keeps (mret a).
Proof. intros k b k' Hi [= _ <-]. by split. Qed.
Lemma keeps_gets {A} (f : kernel -> A) : keeps (gets f).
Proof. intros k b k' Hi [= _ <-]. by split. Qed.
Lemma keeps_fail {A} e : keeps (fail e : kcmd A).
Proof. intros k b k' Hi. done. Qed.
Lemma keeps_check e b : keeps (check e b).
Proof. intros k u k' Hi [_ ->]%check_inv. by split. Qed.
Lemma keeps_thread_at t : keeps (thread_at t).
Proof. intros k u k' Hi [_ ->]%thread_at_inv. by split. Qed.
Lemma keeps_thread_get p : keeps (thread_get p).
Proof. intros k u k' Hi [-> _]%thread_get_inv. by split. Qed.
Lemma keeps_thread_get_unchecked p : keeps (thread_get_unchecked p).
Proof. intros k u k' Hi [-> _]%thread_get_unchecked_inv. by split. Qed.
Lemma keeps_same f : (forall k, same_sched k (f k)) -> keeps (modify f).
Proof.
  intros Hf k u k' Hi ->%modify_inv. split; [by eapply winv_same|by apply evolves_same].
Qed.
Lemma keeps_request b : keeps (modify (set_request b)).
Proof. by apply keeps_same. Qed.
Lemma keeps_objs f : keeps (modify (with_objs f)).
Proof. by apply keeps_same. Qed.

(** Changes to members of a control block the scheduler does not look at. *)
Lemma keeps_upd t f :
  (forall th, status (f th) = status th /\ priority (f th) = priority th /\ pid (f th) = pid th) ->
  keeps (upd_thread t f).
Proof.
  intros Hf k u k' Hi (th & Ht & ->)%upd_thread_inv. destruct (Hf th) as (H1 & H2 & H3). split.
  - by eapply winv_put.
  - eapply evolves_put; [done| |done]. by rewrite H1.
Qed.

Create HintDb keeps.
#[export] Hint Resolve keeps_ret keeps_gets keeps_fail keeps_check keeps_thread_at keeps_thread_get
  keeps_thread_get_unchecked keeps_request keeps_objs : keeps.

(** Walks through a section made of such parts. *)
Ltac keeps_tac :=
  repeat (cbv zeta; match goal with
  | |- keeps (mbind _ _) => apply keeps_bind; [|intro]
  | |- keeps (if ?b then _ else _) => destruct b
  | |- keeps (match ?x with _ => _ end) => destruct x
  | |- keeps (upd_thread _ _) => apply keeps_upd; by intros
  | |- keeps (modify (with_objs _)) => apply keeps_objs
  | _ => progress auto with keeps nocore
  end).

(** ** Wake-ups *)

(** Statuses of threads that are on no list. *)
Definition unlisted (s : thread_status_t) : bool :=
  match s with
  | STATUS_STOPPED | STATUS_ZOMBIE | STATUS_SLEEPING | STATUS_RECEIVE_BLOCKED
  | STATUS_FLAG_BLOCKED_ANY | STATUS_FLAG_BLOCKED_ALL => true
  | _ => false
  end.

Lemma unlisted_out k t th q :
  inv k -> tcbs k !! t = Some th -> unlisted (status th) = true -> t ∉ queue k q.
Proof.
  intros H Ht Hs Hq. destruct (w_member _ _ H q t Hq) as (th' & Ht' & Hb). simplify_eq.
  destruct q; unfold belongs in Hb; try (rewrite Hb in Hs; done).
  - destruct Hb as [Hb _]. by destruct (status th).
  - destruct Hb as [Hb|Hb]; rewrite Hb in Hs; done.
Qed.

Lemma winv_open k t : inv k -> (forall q, t ∉ queue k q) -> winv t k.
Proof.
  intros [H1 H2 H3 H4 H5 H6 H7 H8 H9 H10 H11 H12 H13] Hout. split; try assumption.
  - intros u th Hu _. apply H5; [done|]. intros ->. congruence.
  - intros u th Hu _. apply H9; [done|]. intros ->. congruence.
Qed.

Lemma inv_nonnull k t th : inv k -> tcbs k !! t = Some th -> t <> 0.
Proof. intros H Ht ->. by rewrite (w_null _ _ H) in Ht. Qed.

Lemma inv_registered k t th :
  inv k -> tcbs k !! t = Some th -> status th <> STATUS_STOPPED -> sched_threads k !! pid th = Some t.
Proof. intros H Ht Hs. apply (w_reg _ _ H); [done| |done]. by eapply inv_nonnull. Qed.

Lemma wake_off_list k t th s u k' :
  inv k -> tcbs k !! t = Some th -> (forall q, t ∉ queue k q) ->
  on_runqueue (status th) = false -> status th <> STATUS_STOPPED -> on_runqueue s = true ->
  sched_set_status t s k = Ok (u, k') -> inv k' /\ evolves k k'.
Proof.
  intros H Ht Hout Hon Hst Hs Heq. rewrite (set_status_push _ _ _ _ Ht Hs Hon) in Heq.
  injection Heq as _ <-. split.
  - apply winv_wake; [by apply winv_open|done|done|by apply inv_registered].
  - by apply evolves_push.
Qed.

(** A status that is on no list and not stopped, made ready. *)
Lemma wake_unlisted k t th s u k' :
  inv k -> tcbs k !! t = Some th -> unlisted (status th) = true -> status th <> STATUS_STOPPED ->
  on_runqueue s = true -> sched_set_status t s k = Ok (u, k') -> inv k' /\ evolves k k'.
Proof.
  intros H Ht Hun Hst Hs Heq. eapply wake_off_list; try done.
  - intros q. by eapply unlisted_out.
  - by destruct (status th).
Qed.

Lemma waiter_status k q t :
  inv k -> (forall p, q <> RunQueue p) -> t ∈ queue k q ->
  exists th, tcbs k !! t = Some th /\ belongs q th /\ on_runqueue (status th) = false /\
    sched_threads k !! pid th = Some t /\ t <> 0.
Proof.
  intros H Hq Ht. destruct (w_member _ _ H q t Ht) as (th & Hth & Hb). exists th.
  assert (on_runqueue (status th) = false /\ status th <> STATUS_STOPPED) as [Hon Hst].
  { destruct q; unfold belongs in Hb; [by destruct (Hq prio)|..]; try (rewrite Hb; done).
    destruct Hb as [Hb|Hb]; rewrite Hb; done. }
  split_and!; try done; [by apply inv_registered|by eapply inv_nonnull].
Qed.

(** The first thread of a wait list, taken off and made ready. *)
Lemma wake_from_list k q x l s u k' :
  inv k -> (forall p, q <> RunQueue p) -> Permutation (queue k q) (x :: l) -> on_runqueue s = true ->
  sched_set_status x s (set_queue q l k) = Ok (u, k') ->
  exists th, tcbs k !! x = Some th /\
    k' = put_thread x (set_status s th) (push_state x (priority th) (set_queue q l k)) /\
    inv k' /\ evolves k k'.
Proof.
  intros H Hq Hl Hs Heq. destruct (waiter_status k q x H Hq) as (th & Ht & Hb & Hon & Hreg & _);
    [rewrite Hl; left|].
  exists th. split; [done|].
  assert (tcbs (set_queue q l k) !! x = Some th) as Ht' by done.
  rewrite (set_status_push _ _ _ _ Ht' Hs Hon) in Heq. injection Heq as _ <-.
  split; [done|]. split.
  - apply winv_wake; [by apply winv_detach|done|done|done].
  - etrans; [by apply (evolves_queue k q l)|by apply evolves_push].
Qed.

(** ** Blocking the running thread *)

Lemma block_running me k s u k' :
  good me k -> on_runqueue s = false -> sched_set_status me s k = Ok (u, k') ->
  exists th, tcbs k !! me = Some th /\
    k' = put_thread me (set_status s th) (pop_state (priority th) k) /\ winv me k' /\
    tcbs k' !! me = Some (set_status s th) /\ sched_threads k' !! pid th = Some me /\
    sched_active_thread k' = me.
Proof.
  intros (H & <- & th & l & Ht & Hon & Hq) Hs Heq. exists th. split; [done|].
  rewrite (set_status_pop _ _ _ _ Ht Hs Hon) in Heq. injection Heq as _ <-.
  split; [done|]. split; [by eapply winv_block|].
  split; [by rewrite tcbs_put, decide_True|].
  assert (sched_threads k !! pid th = Some (sched_active_thread k)) as Hreg.
  { apply inv_registered; [done|done|]. by destruct (status th). }
  unfold pop_state. by destruct (tail _).
Qed.

(** ** [sched_run] *)

Lemma unschedule_keeps t : keeps (_unschedule t).
Proof.
  intros k u k' H Heq. unfold _unschedule in Heq. apply upd_thread_inv in Heq as (th & Ht & ->).
  case_decide as Hs; [|split; [by eapply winv_put|by eapply evolves_put]]. split.
  - eapply winv_put_gen; [exact H|exact Ht|apply (w_prio _ _ H _ _ Ht)|done| |].
    + intros q Hq. destruct (w_member _ _ H q t Hq) as (th' & Ht' & Hb). simplify_eq.
      destruct q; unfold belongs in *; cbn in *; rewrite Hs in Hb; try done; by destruct Hb.
    + intros Hne. split; [|intros _; apply (inv_registered k t th H Ht); by rewrite Hs].
      pose proof (w_listed _ _ H _ _ Ht Hne) as Hl. unfold listed in *. by rewrite Hs in Hl.
  - eapply evolves_put; [done| |done]. by rewrite Hs.
Qed.

Lemma idle_keeps irqs : Forall keeps irqs -> keeps (idle_loop irqs).
Proof.
  induction 1 as [|irq irqs Hirq _ IH]; cbn [idle_loop]; [apply keeps_fail|]. keeps_tac; done.
Qed.

Lemma idle_nonzero irqs k u k' : idle_loop irqs k = Ok (u, k') -> runqueue_bitcache k' <> 0.
Proof.
  revert k. induction irqs as [|irq irqs IH]; intros k H; cbn in H; [done|]. kinv H.
  case_match eqn:Hz; [by eapply IH|]. kinv H. by apply Z.eqb_neq.
Qed.

Lemma listed_ready k t th : on_runqueue (status th) = true -> listed k t th ->
  t ∈ queue k (RunQueue (priority th)).
Proof. unfold listed. by destruct (status th). Qed.

(** The thread at the front of a run queue gets the status of the running one. *)
Lemma set_running k t th p l :
  inv k -> tcbs k !! t = Some th -> queue k (RunQueue p) = t :: l ->
  inv (put_thread t (set_status STATUS_RUNNING th) k) /\ priority th = p /\ on_runqueue (status th) = true.
Proof.
  intros H Ht Hq. assert (t ∈ queue k (RunQueue p)) as Htq by (rewrite Hq; left).
  destruct (w_member _ _ H _ _ Htq) as (th' & Ht' & Hon & Hp). simplify_eq. split; [|done].
  eapply winv_put_gen; [exact H|exact Ht|apply (w_prio _ _ H _ _ Ht)|done| |].
  - intros q Htq'. pose proof (w_disj _ _ H _ _ _ Htq Htq') as <-. done.
  - intros Hne. split; [done|]. intros _. apply (inv_registered k t th H Ht). by destruct (status th).
Qed.

Lemma winv_active k t th p :
  inv k -> tcbs k !! t = Some th -> pid th = p -> inv (set_active t p k).
Proof.
  intros [H1 H2 H3 H4 H5 H6 H7 H8 H9 H10 H11 H12 H13] Ht Hp. split; try assumption. right. by exists th.
Qed.

Lemma sched_idle_keeps irqs t : Forall keeps irqs -> keeps (sched_idle irqs t).
Proof.
  intros Hirqs. unfold sched_idle. keeps_tac; auto using unschedule_keeps, idle_keeps.
Qed.

Lemma sched_idle_nonzero irqs t k a k' : sched_idle irqs t k = Ok (a, k') -> runqueue_bitcache k' <> 0.
Proof.
  intros H. unfold sched_idle in H. apply cmd_bind_inv in H as (b & k1 & [-> ->]%gets_inv & H).
  destruct (Z.eqb_spec (runqueue_bitcache k) 0) as [Hz|Hz].
  - apply cmd_bind_inv in H as (u2 & k2 & _ & H). apply cmd_bind_inv in H as (u3 & k3 & H3 & H).
    apply mret_inv in H as [_ ->]. by eapply idle_nonzero.
  - by apply mret_inv in H as [_ ->].
Qed.

Lemma sched_pick_good previous active k next k' :
  inv k -> runqueue_bitcache k <> 0 -> (previous = sched_active_thread k) ->
  sched_pick previous active k = Ok (next, k') ->
  good next k' /\ head (queue k (RunQueue (_get_prio_queue_from_runqueue k))) = Some next.
Proof.
  intros H Hb -> Heq. unfold sched_pick in Heq.
  apply cmd_bind_inv in Heq as (u1 & k1 & ->%modify_inv & Heq).
  apply cmd_bind_inv in Heq as (p & k2 & [-> ->]%gets_inv & Heq).
  apply cmd_bind_inv in Heq as (rq & k3 & [-> ->]%gets_inv & Heq).
  change (_get_prio_queue_from_runqueue (set_request false k)) with (_get_prio_queue_from_runqueue k) in Heq.
  change (queue (set_request false k)) with (queue k) in Heq.
  destruct (queue k (RunQueue (_get_prio_queue_from_runqueue k))) as [|t l] eqn:Hq; [done|].
  apply cmd_bind_inv in Heq as (u4 & k4 & (th & Ht & ->)%upd_thread_inv & Heq).
  assert (inv (set_request false k)) as H' by (by apply (winv_same 0 k)).
  destruct (set_running (set_request false k) t th _ l H' Ht Hq) as (H2 & Hp & Hon).
  set (k2 := put_thread _ _ _) in *.
  assert (tcbs k2 !! t = Some (set_status STATUS_RUNNING th)) as Ht2
    by (subst k2; by rewrite tcbs_put, decide_True).
  apply cmd_bind_inv in Heq as (u5 & k5 & Hif & Heq). apply mret_inv in Heq as [-> ->]. split; [|done].
  destruct (Z.eqb_spec (sched_active_thread k) t) as [<-|Hne].
  - apply mret_inv in Hif as [_ ->]. split; [done|]. split; [done|].
    exists (set_status STATUS_RUNNING th), l. split; [done|]. split; [done|]. cbn. by rewrite Hp.
  - apply cmd_bind_inv in Hif as (u6 & k6 & Hun & Hif).
    apply cmd_bind_inv in Hif as (nth & k7 & [Hn ->]%thread_at_inv & Hif). apply modify_inv in Hif as ->.
    assert (inv k6 /\ queue k6 = queue k2 /\
      exists th', tcbs k6 !! t = Some th' /\ on_runqueue (status th') = true /\
        priority th' = priority th) as (H6 & Hq6 & th' & Ht6 & Hon6 & Hp6).
    { destruct (negb (active =? 0)).
      - destruct (unschedule_keeps _ _ _ _ H2 Hun) as [H6 _]. split; [done|].
        unfold _unschedule in Hun. apply upd_thread_inv in Hun as (tha & Hta & ->). split; [done|].
        destruct (decide (active = t)) as [Hd|Hd].
        + subst active. rewrite Ht2 in Hta. injection Hta as <-. eexists.
          split; [rewrite tcbs_put, decide_True by done; reflexivity|]. by case_decide.
        + exists (set_status STATUS_RUNNING th). rewrite tcbs_put, decide_False by done. done.
      - apply mret_inv in Hun as [_ ->]. split; [done|]. split; [done|].
        by exists (set_status STATUS_RUNNING th). }
    split; [eapply winv_active; [exact H6|exact Hn|done]|]. split; [done|]. exists nth, l.
    rewrite Ht6 in Hn. injection Hn as <-. split; [done|]. split; [done|].
    change (queue (set_active _ _ ?x)) with (queue x). rewrite Hq6, Hp6, Hp. exact Hq.
Qed.

Lemma sched_run_good irqs k next k' :
  inv k -> Forall keeps irqs -> sched_run irqs k = Ok (next, k') -> good next k'.
Proof.
  intros H Hirqs Heq. unfold sched_run in Heq.
  apply cmd_bind_inv in Heq as (p & k1 & [-> ->]%gets_inv & Heq).
  apply cmd_bind_inv in Heq as (a & k2 & Hi & Heq).
  destruct (sched_idle_keeps _ _ Hirqs _ _ _ H Hi) as [H2 (Ha & _)].
  eapply sched_pick_good; [exact H2|by eapply sched_idle_nonzero|by symmetry|exact Heq].
Qed.

(** ** Programs *)

(** [wp me Q p k]: run by the thread [me] from [k], the program [p] keeps the
    invariant at every point where it can be interrupted or gives up the
    processor, whatever other threads and interrupts make of the state in
    between as long as it is [good] for [me] when [me] goes on, and it ends in [Q].
    A section starts from a state in which [me] runs, or, where the code may be
    interrupted after it has blocked, from any state in which [me] is active.  When
    it gives up the processor, no other thread has become active. *)
Definition gone (me : Z) (k : kernel) : Prop :=
  inv k /\ (sched_active_thread k = me \/ sched_active_thread k = 0).

Fixpoint wp {A} (me : Z) (Q : A -> kernel -> Prop) (p : kprog A) (k : kernel) : Prop :=
  match p with
  | Ret a => Q a k
  | Atomic f =>
      (good me k /\ forall k1, good me k1 ->
         match f k1 with Ok (p', k2) => wp me Q p' k2 | Err _ => True end) \/
      (inv k /\ sched_active_thread k = me /\ forall k1, inv k1 -> sched_active_thread k1 = me ->
         match f k1 with Ok (p', k2) => wp me Q p' k2 | Err _ => True end)
  | Yield p => gone me k /\ forall k1, good me k1 -> wp me Q p k1
  end.

Section Wp.
Variable me : Z.

Lemma wp_mono {A} (Q Q' : A -> kernel -> Prop) :
  (forall a k, Q a k -> Q' a k) -> forall p k, wp me Q p k -> wp me Q' p k.
Proof using.
  intros HQ. fix IH 1. intros [a|f|p] k; cbn [wp].
  - apply HQ.
  - intros [[H1 H2]|(H1 & H2 & H3)]; [left|right].
    + split; [done|]. intros k1 Hk1. specialize (H2 k1 Hk1).
      destruct (f k1) as [[p' k2]|e]; [|done]. by apply IH.
    + split; [done|]. split; [done|]. intros k1 Hk1 Ha. specialize (H3 k1 Hk1 Ha).
      destruct (f k1) as [[p' k2]|e]; [|done]. by apply IH.
  - intros [H1 H2]. split; [done|]. intros k1 Hk1. by apply IH, H2.
Qed.

Lemma wp_bind {A B} (Q : B -> kernel -> Prop) (g : A -> kprog B) :
  forall p k, wp me (fun a => wp me Q (g a)) p k -> wp me Q (kbind g p) k.
Proof using.
  fix IH 1. intros [a|f|p] k; cbn [wp kbind].
  - done.
  - intros [[H1 H2]|(H1 & H2 & H3)]; [left|right].
    + split; [done|]. intros k1 Hk1. specialize (H2 k1 Hk1).
      destruct (f k1) as [[p' k2]|e]; [|done]. by apply IH.
    + split; [done|]. split; [done|]. intros k1 Hk1 Ha. specialize (H3 k1 Hk1 Ha).
      destruct (f k1) as [[p' k2]|e]; [|done]. by apply IH.
  - intros [H1 H2]. split; [done|]. intros k1 Hk1. by apply IH, H2.
Qed.

(** Wake-ups by others do not disturb a program at one of its points. *)
Lemma wp_stable {A} (p : kprog A) k k' :
  inv k' -> evolves k k' -> wp me (fun _ => good me) p k -> wp me (fun _ => good me) p k'.
Proof using.
  intros Hi He. destruct p as [a|f|p]; cbn [wp].
  - intros Hg. by eapply good_evolves.
  - intros [[H1 H2]|(H1 & H2 & H3)]; [left|right].
    + split; [by eapply good_evolves|done].
    + split; [done|]. split; [|done]. destruct He as (-> & _). done.
  - intros [[_ Ha] H2]. split; [|done]. split; [done|]. destruct He as (-> & _). done.
Qed.

(** A thread goes on from any state that is good for it. *)
Lemma wp_resume {A} (p : kprog A) k k' :
  good me k' -> wp me (fun _ => good me) p k -> wp me (fun _ => good me) p k'.
Proof using.
  intros Hg. destruct p as [a|f|p]; cbn [wp]; [done| |].
  - intros [[_ H2]|(_ & _ & H3)]; [left; by split|right].
    split; [apply Hg|]. split; [apply Hg|done].
  - intros [_ H2]. split; [|done]. destruct Hg as (H1 & H3 & _). split; [done|by left].
Qed.

Lemma wp_active {A} (p : kprog A) k :
  wp me (fun _ => good me) p k ->
  inv k /\ (sched_active_thread k = me \/ sched_active_thread k = 0).
Proof using.
  destruct p as [a|f|p]; cbn [wp].
  - intros (H1 & H2 & _). split; [done|by left].
  - intros [[(H1 & H2 & _) _]|(H1 & H2 & _)]; (split; [done|by left]).
  - by intros [H1 _].
Qed.

Lemma wp_atomically {A} (Q : A -> kernel -> Prop) (c : kcmd A) k :
  good me k -> (forall k1 a k2, good me k1 -> c k1 = Ok (a, k2) -> Q a k2) ->
  wp me Q (atomically c) k.
Proof using.
  intros Hg HQ. left. split; [done|]. intros k1 Hk1.
  destruct (c k1) as [[a k2]|e] eqn:E; [|done]. by eapply HQ.
Qed.

Lemma wp_atomically_any {A} (Q : A -> kernel -> Prop) (c : kcmd A) k :
  inv k -> sched_active_thread k = me ->
  (forall k1 a k2, inv k1 -> sched_active_thread k1 = me -> c k1 = Ok (a, k2) -> Q a k2) ->
  wp me Q (atomically c) k.
Proof using.
  intros Hi Ha HQ. right. split; [done|]. split; [done|]. intros k1 Hk1 Ha1.
  destruct (c k1) as [[a k2]|e] eqn:E; [|done]. by eapply HQ.
Qed.
End Wp.

(** A call that any running thread may make. *)
Definition safe_call {A} (p : kprog A) : Prop :=
  forall me k, good me k -> wp me (fun _ => good me) p k.

Lemma safe_ret {A} (a : A) : safe_call (mret a).
Proof. by intros me k. Qed.

Lemma safe_bind {A B} (p : kprog A) (f : A -> kprog B) :
  safe_call p -> (forall a, safe_call (f a)) -> safe_call (a ← p; f a).
Proof.
  intros Hp Hf me k Hg. apply wp_bind. eapply wp_mono; [|by apply Hp].
  intros a k' Hk'. by apply Hf.
Qed.

Lemma safe_keeps {A} (c : kcmd A) : keeps c -> safe_call (atomically c).
Proof.
  intros Hc me k Hg. apply wp_atomically; [done|]. intros k1 a k2 Hk1 Heq.
  destruct (Hc _ _ _ (proj1 Hk1) Heq) as [Hi He]. by eapply good_evolves.
Qed.

Lemma good_gone me k : good me k -> gone me k.
Proof. intros (H1 & H2 & _). split; [done|by left]. Qed.

Lemma active_gone me k : inv k -> sched_active_thread k = me -> gone me k.
Proof. split; [done|by left]. Qed.

Lemma safe_yield : safe_call thread_yield_higher.
Proof. intros me k Hg. split; [by apply good_gone|]. by intros k1 Hk1. Qed.

(** A section after which the thread may have blocked: then the rest of the
    call has to start with giving up the processor. *)
Lemma safe_section {A B} (c : kcmd A) (f : A -> kprog B) :
  (forall me k a k', good me k -> c k = Ok (a, k') -> wp me (fun _ => good me) (f a) k') ->
  safe_call (a ← atomically c; f a).
Proof.
  intros Hc me k Hg. apply wp_bind. apply wp_atomically; [done|]. intros k1 a k2 Hk1 Heq. by eapply Hc.
Qed.

Lemma wp_yield {B} me (p : kprog B) k :
  gone me k -> safe_call p -> wp me (fun _ => good me) (thread_yield_higher;; p) k.
Proof. intros Hi Hp. split; [done|]. intros k1 Hk1. by apply Hp. Qed.

Lemma wp_yield_only me k : gone me k -> wp me (fun _ => good me) thread_yield_higher k.
Proof. intros Hi. split; [done|]. by intros k1 Hk1. Qed.

Create HintDb safe.
#[export] Hint Resolve safe_ret safe_yield : safe.

(** Walks through a program of such calls. *)
Ltac safe_tac :=
  repeat (cbv zeta; match goal with
  | |- safe_call (mbind _ _) => apply safe_bind; [|intro]
  | |- safe_call (atomically _) => apply safe_keeps
  | |- safe_call (if ?b then _ else _) => destruct b
  | |- safe_call (match ?x with _ => _ end) => destruct x
  | _ => progress auto with safe nocore
  end).

Lemma safe_sched_switch prio : safe_call (sched_switch prio).
Proof. unfold sched_switch. safe_tac. keeps_tac. Qed.
#[export] Hint Resolve safe_sched_switch : safe.

(** ** Calls that only wake threads *)

(** Every section keeps the invariant and the running thread, from any state:
    such a call may be made by an interrupt handler too. *)
Fixpoint calm {A} (p : kprog A) : Prop :=
  match p with
  | Ret _ => True
  | Atomic f => forall k, inv k ->
      match f k with Ok (p', k') => (inv k' /\ evolves k k') /\ calm p' | Err _ => True end
  | Yield p => calm p
  end.

Lemma calm_safe {A} (p : kprog A) : calm p -> safe_call p.
Proof.
  revert p. unfold safe_call. fix IH 1. intros [a|f|p] Hc me k Hg; cbn [wp calm] in *.
  - done.
  - left. split; [done|]. intros k1 Hk1. specialize (Hc k1 (proj1 Hk1)).
    destruct (f k1) as [[p' k2]|e]; [|done]. destruct Hc as [[Hi He] Hc].
    apply IH; [done|]. by eapply good_evolves.
  - split; [by apply good_gone|]. intros k1 Hk1. by apply IH.
Qed.

Lemma calm_bind {A B} (f : A -> kprog B) : (forall a, calm (f a)) ->
  forall p : kprog A, calm p -> calm (a ← p; f a).
Proof.
  intros Hf. unfold mbind, kprog_bind. fix IH 1. intros [a|g|p] Hp; cbn [kbind calm] in *.
  - apply Hf.
  - intros k Hk. specialize (Hp k Hk). destruct (g k) as [[p' k']|e]; [|done].
    destruct Hp as [H1 H2]. split; [done|]. by apply IH.
  - by apply IH.
Qed.

Lemma calm_keeps {A} (c : kcmd A) : keeps c -> calm (atomically c).
Proof. intros Hc k Hk. destruct (c k) as [[a k']|e] eqn:E; [|done]. split; [by eapply Hc|done]. Qed.

Lemma calm_ret {A} (a : A) : calm (mret a).
Proof. done. Qed.
Lemma calm_yield : calm thread_yield_higher.
Proof. done. Qed.

Create HintDb calm.
#[export] Hint Resolve calm_ret calm_yield : calm.

Ltac calm_tac :=
  repeat (cbv zeta; match goal with
  | |- calm (mbind _ _) => apply calm_bind; [intro|]
  | |- calm (atomically _) => apply calm_keeps
  | |- calm (if ?b then _ else _) => destruct b
  | |- calm (match ?x with _ => _ end) => destruct x
  | _ => progress auto with calm nocore
  end).

Lemma calm_sched_switch prio : calm (sched_switch prio).
Proof. unfold sched_switch. calm_tac. keeps_tac. Qed.
#[export] Hint Resolve calm_sched_switch : calm.

(** An interrupt handler runs a call to its end; a yield requests a switch. *)
Fixpoint isr {A} (p : kprog A) (k : kernel) : res kerr (A * kernel) :=
  match p with
  | Ret a => Ok (a, k)
  | Atomic f => match f k with Ok (p', k') => isr p' k' | Err e => Err e end
  | Yield p => isr p (set_request true k)
  end.

Lemma isr_keeps {A} (p : kprog A) : calm p -> keeps (isr p).
Proof.
  revert p. unfold keeps. fix IH 1. intros [a|f|p] Hc k b k' Hi Heq; cbn [isr calm] in *.
  - by injection Heq as _ <-.
  - specialize (Hc k Hi). destruct (f k) as [[p' k1]|e]; [|done]. destruct Hc as [[H1 H2] Hc].
    destruct (IH p' Hc k1 b k' H1 Heq) as [H3 H4]. split; [done|]. by etrans.
  - assert (inv (set_request true k)) as Hi' by (by apply (winv_same 0 k)).
    destruct (IH p Hc _ b k' Hi' Heq) as [H3 H4]. split; [done|].
    etrans; [|exact H4]. by apply evolves_same.
Qed.

(** ** Pieces of the sections *)

Lemma wake_out k x th s u k' :
  winv x k -> tcbs k !! x = Some th -> on_runqueue (status th) = false ->
  sched_threads k !! pid th = Some x -> on_runqueue s = true ->
  sched_set_status x s k = Ok (u, k') -> inv k' /\ evolves k k'.
Proof.
  intros H Ht Hon Hreg Hs Heq. rewrite (set_status_push _ _ _ _ Ht Hs Hon) in Heq.
  injection Heq as _ <-. split; [by apply winv_wake|by apply evolves_push].
Qed.

Lemma detach_head k q x l :
  inv k -> (forall p, q <> RunQueue p) -> queue k q = x :: l ->
  winv x (set_queue q l k) /\ evolves k (set_queue q l k) /\
  exists th, tcbs k !! x = Some th /\ belongs q th /\ on_runqueue (status th) = false /\
    sched_threads k !! pid th = Some x /\ x <> 0.
Proof.
  intros H Hq Hl. split; [apply winv_detach; [done|done|by rewrite Hl]|].
  split; [by apply evolves_queue|]. apply (waiter_status k q x H Hq). rewrite Hl. left.
Qed.

(** The first thread of a wait list made ready, and what follows. *)
Lemma keeps_wake_head {B} q (f : Z -> kcmd B) :
  (forall p, q <> RunQueue p) -> (forall x, keeps (f x)) ->
  keeps (x ← remove_head q; sched_set_status x STATUS_PENDING;; f x).
Proof.
  intros Hq Hf k b k' Hi H. apply cmd_bind_inv in H as (x & k1 & Hrm & H).
  apply cmd_bind_inv in H as (u & k2 & Hset & H).
  apply remove_head_inv in Hrm as [(Hnil & -> & ->)|(l & Hl & ->)].
  - unfold sched_set_status in Hset. apply cmd_bind_inv in Hset as (th & k3 & [Hat _]%thread_at_inv & _).
    by rewrite (w_null _ _ Hi) in Hat.
  - destruct (detach_head k q x l Hi Hq Hl) as (Hw & He & th & Ht & _ & Hon & Hreg & _).
    destruct (wake_out _ _ _ STATUS_PENDING _ _ Hw Ht Hon Hreg eq_refl Hset) as [H2 He2].
    destruct (Hf x _ _ _ H2 H) as [H3 He3]. split; [done|]. etrans; [exact He|]. by etrans.
Qed.

(** The running thread leaves the run queue for a state that needs no list. *)
Lemma block_alone me k s u k' :
  good me k -> on_runqueue s = false -> needs_list s = false ->
  sched_set_status me s k = Ok (u, k') -> inv k' /\ sched_active_thread k' = me /\
    exists th, tcbs k !! me = Some th /\ tcbs k' !! me = Some (set_status s th).
Proof.
  intros Hg Hon Hn Heq. destruct (block_running _ _ _ _ _ Hg Hon Heq) as (th & Ht & -> & Hw & Ht' & Hreg & Ha).
  split; [|split; [done|by exists th]]. eapply winv_close; [exact Hw|exact Ht'|done|done].
Qed.

Lemma add_sorted_perm f p x l : Permutation (add_sorted f p x l) (x :: l).
Proof.
  induction l as [|y l IH]; cbn [add_sorted]; [done|]. destruct (_ <? _); [done|].
  rewrite IH. apply Permutation_swap.
Qed.

Lemma add_to_list_inv q t k u k' : thread_add_to_list q t k = Ok (u, k') ->
  exists th, tcbs k !! t = Some th /\
    k' = set_queue q (add_sorted (prio_of k) (priority th) t (queue k q)) k.
Proof.
  unfold thread_add_to_list. intros H. apply cmd_bind_inv in H as (th & k1 & [Ht ->]%thread_at_inv & H).
  apply cmd_bind_inv in H as (v & k2 & [_ ->]%check_inv & ->%modify_inv). by exists th.
Qed.

(** A thread between lists enters a wait list. *)
Lemma enter_list k q x th u k' :
  winv x k -> (forall p, q <> RunQueue p) -> tcbs k !! x = Some th -> belongs q th ->
  sched_threads k !! pid th = Some x -> (forall m, q = MutexQueue m -> m ∉ locked k) ->
  thread_add_to_list q x k = Ok (u, k') ->
  inv k' /\ sched_active_thread k' = sched_active_thread k.
Proof.
  intros Hw Hq Ht Hb Hreg Hlk (th' & Ht' & ->)%add_to_list_inv. split; [|done].
  eapply winv_attach; [exact Hw|done|exact Ht|done|done|done|]. apply add_sorted_perm.
Qed.

Lemma inv_set_locked f k :
  inv k -> (forall m, m ∈ f (locked k) -> queue k (MutexQueue m) = []) -> inv (set_locked f k).
Proof. intros [H1 H2 H3 H4 H5 H6 H7 H8 H9 H10 H11 H12 H13] Hf. split; assumption. Qed.

Lemma inv_set_nil q k : (forall p, q <> RunQueue p) -> inv k -> queue k q = [] -> inv (set_queue q [] k).
Proof.
  intros Hq H Hnil. eapply winv_set_queue; [exact H|done|apply NoDup_nil_2|apply not_elem_of_nil| | | |done|done].
  - intros q' Hq'. by destruct (inv_out k q').
  - intros t []%not_elem_of_nil.
  - rewrite Hnil. intros t []%not_elem_of_nil.
Qed.

(** A run queue in another order. *)
Lemma inv_rotate p l k : inv k -> Permutation l (queue k (RunQueue p)) -> inv (set_queue (RunQueue p) l k).
Proof.
  intros H HP. apply (winv_lists 0 0 k (RunQueue p) l (runqueue_bitcache k)); try assumption.
  - apply (bits_set k p l); [apply H|]. split; intros E; rewrite E in HP.
    + symmetry in HP. by apply Permutation_nil_r in HP.
    + by apply Permutation_nil_r in HP.
  - rewrite HP. apply H.
  - rewrite HP. by apply inv_out.
  - intros q' Hq'. by destruct (inv_out k q').
  - intros t Ht. left. by rewrite <- HP.
  - intros t Ht. left. by rewrite HP.
  - done.
  - done.
Qed.
