(* ===== verification/KernelCalls.v ===== *)
(** * The RIOT kernel: every call keeps the invariant

    For each function of [sched.c], [thread.c], [mutex.c], [rmutex.c], [cond.c] and
    [thread_flags.c] a client may call: it is [calm] when it only wakes threads, so
    that interrupt handlers may call it too, and a [safe_call] when it may block its
    caller.  [assuming] states what a few calls rely on. *)

From stdpp Require Import base gmap list.
From Stdlib Require Import ZArith Lia.
From S2P Require Import Prelude Ring Lists Kernel KernelSync KernelInv KernelRun.

Local Open Scope Z_scope.

(** A section called in the states its caller promises; the code does not test the
    promise. *)
Definition assuming {A} (P : kernel -> bool) (c : kcmd A) : kcmd A :=
  fun k => if P k then c k else Err Misuse.

(** ** [thread.c] *)

Lemma safe_block_alone s (f : unit -> kprog unit) :
  on_runqueue s = false -> needs_list s = false -> (forall u, safe_call (f u)) ->
  safe_call (atomically (me ← gets sched_active_thread; sched_set_status me s);;
             u ← thread_yield_higher; f u).
Proof.
  intros Hon Hn Hf. apply safe_section. intros me k u k' Hg H.
  apply cmd_bind_inv in H as (a & k1 & [-> ->]%gets_inv & H).
  assert (sched_active_thread k = me) as E by apply Hg. rewrite E in H.
  destruct (block_alone me k s u k' Hg Hon Hn H) as (Hi & Ha & _).
  split; [by apply active_gone|]. intros k1 Hk1. by apply Hf.
Qed.

Lemma safe_thread_sleep : safe_call thread_sleep.
Proof.
  unfold thread_sleep. apply safe_bind; [apply safe_keeps; auto with keeps|]. intros []; [apply safe_ret|].
  apply (safe_block_alone STATUS_SLEEPING (fun u => mret u)); [done|done|]. intros. apply safe_ret.
Qed.

Lemma safe_thread_zombify : safe_call thread_zombify.
Proof.
  unfold thread_zombify. apply safe_bind; [apply safe_keeps; auto with keeps|]. intros []; [apply safe_ret|].
  apply (safe_block_alone STATUS_ZOMBIE (fun u => mret u)); [done|done|]. intros. apply safe_ret.
Qed.

Lemma inv_unregister x k th p :
  winv x k -> tcbs k !! x = Some th -> pid th = p -> sched_threads k !! p = Some x ->
  winv x (set_sched_threads (delete p) (-1) k).
Proof.
  intros [H1 H2 H3 H4 H5 H6 H7 H8 H9 H10 H11 H12 H13] Ht Hp Hreg. split; try assumption.
  - intros t tht Htt Hne Hs. cbn. rewrite lookup_delete_ne; [by apply H9|].
    intros E. specialize (H9 t tht Htt Hne Hs). rewrite <- E, Hreg in H9. congruence.
  - intros q t. cbn. rewrite lookup_delete_Some. intros [_ Hq]. by apply H10.
  - cbn. rewrite H11, map_size_delete, Hreg. cbn.
    assert (size (sched_threads k) <> 0%nat); [|lia].
    intros E%map_size_empty_inv. by rewrite E, lookup_empty in Hreg.
Qed.

Lemma keeps_thread_kill_zombie p : keeps (thread_kill_zombie p).
Proof.
  intros k v k' Hi H. unfold thread_kill_zombie in H.
  apply cmd_bind_inv in H as (t & k1 & [-> Hget]%thread_get_inv & H).
  destruct (Z.eqb_spec t 0) as [->|Hne]; [by apply mret_inv in H as [_ ->]|].
  destruct Hget as [Hget|Hget]; [done|].
  apply cmd_bind_inv in H as (th & k2 & [Ht ->]%thread_at_inv & H).
  case_decide as Hs; [|by apply mret_inv in H as [_ ->]].
  apply cmd_bind_inv in H as (u & k3 & ->%modify_inv & H).
  apply cmd_bind_inv in H as (u4 & k4 & Hset & [_ ->]%mret_inv).
  destruct (w_threads _ _ Hi _ _ Hget) as (_ & th' & Ht' & Hp). rewrite Ht in Ht'. injection Ht' as <-.
  assert (winv t (set_sched_threads (delete p) (-1) k)) as Hw.
  { eapply inv_unregister; try done. apply winv_open; [done|]. intros q.
    eapply unlisted_out; [done|done|by rewrite Hs]. }
  assert (tcbs (set_sched_threads (delete p) (-1) k) !! t = Some th) as Ht2 by done.
  rewrite (set_status_stay _ _ _ STATUS_STOPPED Ht2) in Hset by (by rewrite Hs).
  injection Hset as _ <-. split.
  - apply (winv_close t _ (set_status STATUS_STOPPED th)); [| |done|done].
    + eapply winv_put_out; [exact Hw|exact Ht2|apply (w_prio _ _ Hw _ _ Ht2)|done].
    + by rewrite tcbs_put, decide_True.
  - etrans; [|eapply evolves_put; [exact Ht2|by rewrite Hs|done]].
    split; [done|]. split; [done|]. intros (tha & l & Hr). by exists tha, l.
Qed.

Lemma calm_thread_wakeup p : calm (thread_wakeup p).
Proof.
  unfold thread_wakeup. calm_tac. intros k v k' Hi H.
  apply cmd_bind_inv in H as (t & k1 & [-> Hget]%thread_get_inv & H).
  destruct (Z.eqb_spec t 0) as [->|Hne]; [by apply mret_inv in H as [_ ->]|].
  apply cmd_bind_inv in H as (th & k2 & [Ht ->]%thread_at_inv & H).
  case_decide as Hs; [|by apply mret_inv in H as [_ ->]].
  apply cmd_bind_inv in H as (u & k3 & Hset & [_ ->]%mret_inv).
  eapply wake_unlisted; [done|exact Ht|by rewrite Hs|by rewrite Hs| |exact Hset]. done.
Qed.

Lemma runq_advance_inv p u k k' : inv k -> sched_runq_advance p k = Ok (u, k') ->
  inv k' /\ sched_active_thread k' = sched_active_thread k.
Proof.
  intros Hi ->%modify_inv. split; [|done]. apply inv_rotate; [done|].
  destruct (queue k (RunQueue p)) as [|x l]; [done|]. symmetry. apply Permutation_cons_append.
Qed.

(** Also when the caller has blocked just before. *)
Lemma wp_thread_yield me k :
  inv k -> sched_active_thread k = me -> wp me (fun _ => good me) thread_yield k.
Proof.
  intros Hi Ha. apply wp_bind. apply wp_atomically_any; [done|done|]. intros k1 u k2 Hi1 Ha1 H.
  apply cmd_bind_inv in H as (a & k3 & [-> ->]%gets_inv & H).
  apply cmd_bind_inv in H as (th & k4 & [Ht ->]%thread_at_inv & H).
  apply wp_yield_only. destruct (on_runqueue (status th)).
  - destruct (runq_advance_inv _ _ _ _ Hi1 H) as [Hi2 Ha2]. apply active_gone; congruence.
  - apply mret_inv in H as [_ ->]. by apply active_gone.
Qed.

Lemma safe_thread_yield : safe_call thread_yield.
Proof. intros me k (Hi & Ha & _). by apply wp_thread_yield. Qed.

Lemma set_status_threads f d t s k :
  sched_set_status t s (set_sched_threads f d k) =
  match sched_set_status t s k with Ok (u, k') => Ok (u, set_sched_threads f d k') | Err e => Err e end.
Proof.
  unfold sched_set_status. kunfold. destruct (tcbs k !! t) as [th|] eqn:E; [|done].
  destruct (on_runqueue s), (on_runqueue (status th)); cbn; rewrite ?E; cbn; rewrite ?E; try done.
  change (queue (set_queue ?q ?l (set_sched_threads f d k))) with (queue (set_queue q l k)).
  change (queue (set_sched_threads f d k)) with (queue k).
  destruct (queue (set_queue _ _ k) _); cbn; by rewrite E.
Qed.

Lemma safe_sched_task_exit : safe_call sched_task_exit.
Proof.
  unfold sched_task_exit. apply safe_section. intros me k u k' Hg H.
  apply cmd_bind_inv in H as (p & k1 & [-> ->]%gets_inv & H).
  apply cmd_bind_inv in H as (t & k2 & [-> ->]%gets_inv & H).
  apply cmd_bind_inv in H as (u3 & k3 & ->%modify_inv & H).
  apply cmd_bind_inv in H as (u4 & k4 & Hset & ->%modify_inv).
  apply wp_yield_only. rewrite set_status_threads in Hset.
  destruct (sched_set_status _ _ k) as [[u5 k5]|e] eqn:Hset5; [|done]. injection Hset as <- <-.
  pose proof Hg as (Hi & Ha & _). rewrite Ha in Hset5.
  destruct (block_running me k STATUS_STOPPED _ _ Hg eq_refl Hset5) as (th & Ht & _ & Hw & Ht5 & Hreg & Ha5).
  assert (pid th = sched_active_pid k) as Hpid.
  { destruct (w_active _ _ Hi) as [H0|(th0 & H0 & Hp0)].
    - rewrite Ha in H0. rewrite H0, (w_null _ _ Hi) in Ht. done.
    - rewrite Ha in H0. congruence. }
  assert (winv me (set_sched_threads (delete (sched_active_pid k)) (-1) k5)) as Hw'
    by (rewrite <- Hpid; eapply inv_unregister; [exact Hw|exact Ht5|done|done]).
  assert (inv (set_sched_threads (delete (sched_active_pid k)) (-1) k5)) as Hi5
    by (eapply winv_close; [exact Hw'|exact Ht5|done|done]).
  split; [|by right]. destruct Hi5 as [H1 H2 H3 H4 H5 H6 H7 H8 H9 H10 H11 H12 H13]. split; try assumption. by left.
Qed.

(** [thread_create] relies on the control block's memory not being in use. *)
Definition fresh_tcb (t prio : Z) (k : kernel) : bool :=
  negb (t =? 0) && negb (t =? sched_active_thread k) && (0 <=? prio) &&
  bool_decide (map_Forall (fun _ l => t ∉ l) (queues k)) &&
  bool_decide (map_Forall (fun _ u => u <> t) (sched_threads k)) &&
  bool_decide (queue k (MsgWaiters t) = []).

Lemma fresh_tcb_spec t prio k : fresh_tcb t prio k = true ->
  t <> 0 /\ t <> sched_active_thread k /\ 0 <= prio /\ (forall q, t ∉ queue k q) /\
  (forall p, sched_threads k !! p <> Some t) /\ queue k (MsgWaiters t) = [].
Proof.
  unfold fresh_tcb. rewrite !andb_true_iff, !bool_decide_eq_true, !negb_true_iff, !Z.eqb_neq, Z.leb_le.
  intros (((((H1 & H2) & H3) & H4) & H5) & H6). split_and!; try done.
  - intros q. unfold queue. destruct (queues k !! q) as [l|] eqn:E; [by apply (H4 q)|apply not_elem_of_nil].
  - intros p Hp. by apply (H5 p t Hp).
Qed.

Lemma free_pid_spec n threads i :
  let p := free_pid n threads i in
  p = KERNEL_PID_UNDEF \/ (i <= p <= KERNEL_PID_LAST /\ default 0 (threads !! p) = 0).
Proof.
  revert i. induction n as [|n IH]; intros i; cbn [free_pid]; [by left|].
  destruct (Z.leb_spec i KERNEL_PID_LAST); [|by left].
  destruct (Z.eqb_spec (default 0 (threads !! i)) 0); [right; split; [lia|done]|].
  destruct (IH (i + 1)) as [H'|[H1 H2]]; [by left|right]. split; [lia|done].
Qed.

Lemma winv_new_thread k t p prio old function arg empty :
  inv k -> fresh_tcb t prio k = true -> prio < SCHED_PRIO_LEVELS ->
  KERNEL_PID_FIRST <= p <= KERNEL_PID_LAST -> sched_threads k !! p = None ->
  winv t (set_queue (MsgWaiters t) []
    (put_thread t (new_thread p prio old function arg empty) (set_sched_threads (insert p t) 1 k))).
Proof.
  intros Hi (Ht0 & Hact & Hprio & Hout & Hfree & Hq)%fresh_tcb_spec Hlt Hp Hnone.
  set (new := new_thread _ _ _ _ _ _). set (k1 := put_thread t new (set_sched_threads (insert p t) 1 k)).
  assert (winv t k1) as Hw.
  { destruct (winv_open k t Hi Hout) as [H1 H2 H3 H4 H5 H6 H7 H8 H9 H10 H11 H12 H13].
    split; subst k1; try assumption.
    - intros q u Hu. rewrite tcbs_put. case_decide; [subst; by destruct (Hout q)|by apply H3].
    - intros u thu. rewrite tcbs_put. case_decide; [by subst|]. apply H5.
    - intros u thu. rewrite tcbs_put. case_decide; [intros [= <-]; cbn; lia|]. apply H6.
    - rewrite tcbs_put, decide_False by done. done.
    - intros u thu. rewrite tcbs_put. case_decide; [by subst|]. intros Hu Hne Hs. cbn.
      specialize (H9 u thu Hu Hne Hs). rewrite lookup_insert_ne; [done|]. intros E. congruence.
    - intros q u. cbn. rewrite lookup_insert_Some. intros [[<- <-]|[Hne Hu]].
      + split; [done|]. exists new. by rewrite lookup_insert_eq.
      + destruct (H10 q u Hu) as (Hr & thu & Hlu & Hpu). split; [done|]. exists thu.
        rewrite lookup_insert_ne; [done|]. intros ->. by destruct (Hfree q).
    - cbn. rewrite map_size_insert, Hnone, H11. lia.
    - destruct H12 as [H12|(thu & Hlu & Hpu)]; [by left|right]. exists thu. cbn.
      rewrite lookup_insert_ne; [done|]. intros E. by apply Hact. }
  eapply winv_set_queue; [exact Hw|done|apply NoDup_nil_2|apply not_elem_of_nil| | | |done|done].
  - intros q' Hq'. by destruct (Hout q').
  - intros u []%not_elem_of_nil.
  - intros u. change (queue k1 (MsgWaiters t)) with (queue k (MsgWaiters t)). rewrite Hq.
    intros []%not_elem_of_nil.
Qed.

Lemma keeps_create thread prio create_flags function arg old :
  prio < SCHED_PRIO_LEVELS ->
  keeps (assuming (fresh_tcb thread prio) (create_section thread prio create_flags function arg old)).
Proof.
  intros Hprio k r k' Hi H. unfold assuming in H. destruct (fresh_tcb thread prio k) eqn:Hf; [|done].
  unfold create_section in H. apply cmd_bind_inv in H as (threads & k1 & [-> ->]%gets_inv & H).
  cbv zeta in H. set (p := free_pid _ _ _) in *.
  destruct (free_pid_spec (Z.to_nat MAXTHREADS) (sched_threads k) KERNEL_PID_FIRST) as [Hp|[Hp Hd]]; fold p in Hp.
  { rewrite Hp in H. by apply mret_inv in H as [_ ->]. }
  fold p in Hd. rewrite (proj2 (Z.eqb_neq p KERNEL_PID_UNDEF)) in H by (unfold KERNEL_PID_FIRST, KERNEL_PID_UNDEF in *; lia).
  assert (sched_threads k !! p = None) as Hnone.
  { destruct (sched_threads k !! p) as [u|] eqn:E; [|done]. cbn in Hd. subst u.
    destruct (w_threads _ _ Hi _ _ E) as (_ & th & Hth & _). by rewrite (w_null _ _ Hi) in Hth. }
  destruct (Cib.cib_init 0) as [empty|]; [|done].
  apply cmd_bind_inv in H as (u2 & k2 & ->%modify_inv & H).
  apply cmd_bind_inv in H as (u3 & k3 & ->%modify_inv & H).
  apply cmd_bind_inv in H as (u4 & k4 & ->%modify_inv & H).
  pose proof (winv_new_thread k thread p prio old function arg empty Hi Hf Hprio Hp Hnone) as Hw.
  fold (put_thread thread (new_thread p prio old function arg empty)) in H.
  set (new := new_thread _ _ _ _ _ _) in *. set (k5 := set_queue _ _ _) in *.
  assert (tcbs k5 !! thread = Some new) as Hnew
    by (subst k5; change (tcbs (set_queue ?q ?l ?x)) with (tcbs x); by rewrite tcbs_put, decide_True).
  assert (sched_threads k5 !! pid new = Some thread) as Hreg by (by cbn; rewrite lookup_insert_eq).
  assert (evolves k k5) as He.
  { split; [done|]. split; [done|]. intros (tha & l & H1 & H2 & H3). exists tha, l.
    apply fresh_tcb_spec in Hf as (_ & Hact & _). split; [|split; [done|]].
    - subst k5. cbn. by rewrite lookup_insert_ne.
    - subst k5. rewrite queue_set_ne by done. exact H3. }
  destruct (negb _).
  - apply cmd_bind_inv in H as (u6 & k6 & Hset & [_ ->]%mret_inv).
    rewrite (set_status_stay _ _ _ STATUS_SLEEPING Hnew) in Hset by done. injection Hset as _ <-. split.
    + apply (winv_close thread _ (set_status STATUS_SLEEPING new)); [|by rewrite tcbs_put, decide_True|done|done].
      eapply winv_put_out; [exact Hw|exact Hnew|apply (w_prio _ _ Hw _ _ Hnew)|done].
    + etrans; [exact He|]. by eapply evolves_put.
  - apply cmd_bind_inv in H as (u6 & k6 & Hset & [_ ->]%mret_inv).
    destruct (wake_out k5 thread new STATUS_PENDING _ _ Hw Hnew eq_refl Hreg eq_refl Hset) as [H1 H2].
    split; [done|]. by etrans.
Qed.

(** [sched_change_priority] takes the first thread off the run queue, so it
    relies on a ready thread being the first one of its priority. *)
Definition first_or_blocked (t prio : Z) (k : kernel) : bool :=
  (0 <=? prio) && (prio <? SCHED_PRIO_LEVELS) &&
  match tcbs k !! t with
  | Some th => negb (on_runqueue (status th)) ||
               bool_decide (head (queue k (RunQueue (priority th))) = Some t)
  | None => true
  end.

(** A thread on no list or between lists changes its priority in place. *)
Lemma inv_set_priority k t th prio :
  inv k -> tcbs k !! t = Some th -> on_runqueue (status th) = false -> 0 <= prio < SCHED_PRIO_LEVELS ->
  inv (put_thread t (set_priority prio th) k) /\ evolves k (put_thread t (set_priority prio th) k).
Proof.
  intros Hi Ht Hon Hp. split.
  - eapply winv_put_gen; [exact Hi|exact Ht|done|done| |].
    + intros q Hq. destruct (w_member _ _ Hi q t Hq) as (th' & Ht' & Hb). simplify_eq.
      destruct q; unfold belongs in *; try exact Hb. destruct Hb as [Hb _]. rewrite Hb in Hon. done.
    + intros Hne. split; [|intros Hs; by apply (inv_registered k t th Hi Ht)].
      pose proof (w_listed _ _ Hi _ _ Ht Hne) as Hl. unfold listed in *. cbn.
      by destruct (status th).
  - split; [done|]. split; [done|]. intros (tha & l & H1 & H2 & H3).
    exists tha, l. split; [|done]. change (sched_active_thread (put_thread t _ k)) with (sched_active_thread k).
    rewrite tcbs_put. case_decide; [subst; congruence|done].
Qed.

Definition push_pop_prio (t prio : Z) (th : thread_t) (k : kernel) : kernel :=
  put_thread t (set_priority prio th) (push_state t prio (pop_state (priority th) k)).

(** The first thread of a run queue moves to the end of another one. *)
Lemma inv_push_pop k t th l prio :
  inv k -> tcbs k !! t = Some th -> on_runqueue (status th) = true ->
  queue k (RunQueue (priority th)) = t :: l -> 0 <= prio < SCHED_PRIO_LEVELS ->
  inv (push_pop_prio t prio th k) /\
  (sched_active_thread k <> t -> evolves k (push_pop_prio t prio th k)).
Proof.
  intros Hi Ht Hon Hq Hp. split.
  - apply (winv_push (pop_state (priority th) k) t th (set_priority prio th)); try done.
    + by eapply winv_pop.
    + by rewrite tcbs_pop.
    + assert (sched_threads k !! pid th = Some t) as Hreg.
      { apply (inv_registered k t th Hi Ht). by destruct (status th). }
      unfold pop_state. by destruct (tail _).
  - intros Hact. unfold push_pop_prio, pop_state. rewrite Hq. cbn [tail].
    assert (forall k', tcbs k' = tcbs k -> queue k' = queue (set_queue (RunQueue (priority th)) l k) ->
      sched_active_thread k' = sched_active_thread k -> sched_active_pid k' = sched_active_pid k ->
      evolves k (put_thread t (set_priority prio th) (push_state t prio k'))) as Hall.
    { intros k' E1 E2 E3 E4. split; [done|]. split; [done|]. intros (tha & la & H1 & H2 & H3).
      exists tha. unfold push_state. setoid_rewrite tcbs_put.
      change (sched_active_thread (put_thread t _ (set_bitcache _ (set_queue _ _ k')))) with (sched_active_thread k').
      change (queue (put_thread _ _ (set_bitcache _ ?x))) with (queue x).
      change (tcbs (set_bitcache _ (set_queue _ _ k'))) with (tcbs k').
      rewrite E3, decide_False, E1 by done.
      assert (priority tha <> priority th) as Hnp.
      { intros E. rewrite E, Hq in H3. injection H3 as E' _. done. }
      rewrite queue_set, E2, !queue_set, (decide_False (P := RunQueue (priority th) = RunQueue (priority tha))) by congruence.
      case_decide as Hd; [|by exists la]. injection Hd as ->.
      rewrite decide_False by congruence. rewrite H3. by exists (la ++ [t]). }
    destruct l; by apply Hall.
Qed.

(** After the section the caller still runs, or it is the thread that was moved. *)
Lemma change_priority_inv me t prio k u k' :
  good me k -> assuming (first_or_blocked t prio) (change_priority_section t prio) k = Ok (u, k') ->
  inv k' /\ sched_active_thread k' = me /\ (me <> t -> good me k').
Proof.
  intros Hg H. pose proof Hg as (Hi & Ha & _). unfold assuming in H.
  destruct (first_or_blocked t prio k) eqn:Hf; [|done]. unfold first_or_blocked in Hf.
  rewrite !andb_true_iff, Z.leb_le, Z.ltb_lt in Hf. destruct Hf as [Hp Hf]. unfold change_priority_section in H.
  apply cmd_bind_inv in H as (th & k2 & [Ht ->]%thread_at_inv & H). rewrite Ht in Hf.
  apply cmd_bind_inv in H as (u3 & k3 & Hmv & (th4 & Ht4 & ->)%upd_thread_inv).
  destruct (on_runqueue (status th)) eqn:Hon.
  - cbn [negb orb] in Hf. apply bool_decide_eq_true in Hf.
    destruct (queue k (RunQueue (priority th))) as [|t' l] eqn:Hq; [done|]. injection Hf as ->.
    destruct (inv_push_pop k t th l prio Hi Ht Hon Hq Hp) as [H1 H2].
    assert (put_thread t (set_priority prio th4) k3 = push_pop_prio t prio th k) as ->.
    { revert Hmv. kunfold. rewrite Ht, Hq. cbn. rewrite queue_set_eq. unfold push_pop_prio, pop_state.
      rewrite Hq. cbn [tail].
      destruct l; intros [= _ <-]; cbn in Ht4; rewrite Ht in Ht4; injection Ht4 as <-; done. }
    split_and!; [done| |].
    + unfold push_pop_prio, pop_state. by destruct (tail _).
    + intros Hne. eapply good_evolves; [exact Hg|apply H2; congruence|done].
  - apply mret_inv in Hmv as [_ ->]. rewrite Ht in Ht4. injection Ht4 as <-.
    destruct (inv_set_priority k t th prio Hi Ht Hon Hp) as [H1 H2]. split_and!; [done|done|].
    intros _. by eapply good_evolves.
Qed.

(** The decision leaves the state, and a thread that moved itself yields. *)
Lemma change_priority_yields_inv t prio k y k' : change_priority_yields t prio k = Ok (y, k') ->
  k' = k /\ (sched_active_thread k = t -> y = true).
Proof.
  intros H. unfold change_priority_yields in H. apply cmd_bind_inv in H as (a & k1 & [-> ->]%gets_inv & H).
  destruct (Z.eqb_spec (sched_active_thread k) t) as [|Hne]; [by apply mret_inv in H as [-> ->]|].
  split; [|done]. destruct (negb _); [|by apply mret_inv in H as [_ ->]].
  apply cmd_bind_inv in H as (tha & k2 & [_ ->]%thread_at_inv & H).
  apply cmd_bind_inv in H as (tht & k3 & [_ ->]%thread_at_inv & H). by apply mret_inv in H as [_ ->].
Qed.

Lemma safe_change_priority_rest t prio :
  safe_call (atomically (assuming (first_or_blocked t prio) (change_priority_section t prio));;
    yield ← atomically (change_priority_yields t prio);
    if yield : bool then thread_yield_higher else mret tt).
Proof.
  apply safe_section. intros me k u k' Hg H.
  destruct (change_priority_inv me t prio k u k' Hg H) as (Hi & Ha & Hgood).
  destruct (decide (me = t)) as [->|Hne]; apply wp_bind.
  - apply wp_atomically_any; [done|done|]. intros k1 y k2 Hi1 Ha1 [-> Hy]%change_priority_yields_inv.
    rewrite (Hy Ha1). by apply wp_yield_only, active_gone.
  - apply wp_atomically; [by apply Hgood|]. intros k1 y k2 Hg1 [-> _]%change_priority_yields_inv.
    destruct y; [by apply wp_yield_only, good_gone|done].
Qed.

(** ** [mutex.c] *)

Lemma inv_store_locked m k :
  inv k -> queue k (MutexQueue m) = [] -> inv (store_locked m k) /\ evolves k (store_locked m k).
Proof.
  intros Hi Hq. unfold store_locked. split.
  - apply inv_set_nil; [done| |done]. apply inv_set_locked; [done|].
    intros m' [->%elem_of_singleton|Hm]%elem_of_union; [done|by apply (w_locked _ _ Hi)].
  - etrans; [apply evolves_locked|by apply evolves_queue].
Qed.

Lemma inv_store_null m k :
  inv k -> queue k (MutexQueue m) = [] -> inv (store_null m k) /\ evolves k (store_null m k).
Proof.
  intros Hi Hq. unfold store_null. split.
  - apply inv_set_nil; [done| |done]. apply inv_set_locked; [done|].
    intros m' [Hm _]%elem_of_difference. by apply (w_locked _ _ Hi).
  - etrans; [apply evolves_locked|by apply evolves_queue].
Qed.

Lemma next_null m k : queue_next m k = NextNull -> queue k (MutexQueue m) = [].
Proof. unfold queue_next. case_decide; [done|]. by destruct (queue k _). Qed.

Lemma next_locked m k : inv k -> queue_next m k = NextLocked -> queue k (MutexQueue m) = [].
Proof.
  intros Hi. unfold queue_next. case_decide; [intros _; by apply (w_locked _ _ Hi)|]. by destruct (queue k _).
Qed.

(** The running thread enters the queue of a mutex that is not free. *)
Lemma mutex_block_inv me m k u k' :
  good me k -> mutex_block m k = Ok (u, k') -> inv k' /\ sched_active_thread k' = me.
Proof.
  intros Hg H. unfold mutex_block in H.
  apply cmd_bind_inv in H as (a & k1 & [-> ->]%gets_inv & H).
  apply cmd_bind_inv in H as (u2 & k2 & [_ ->]%check_inv & H).
  apply cmd_bind_inv in H as (u3 & k3 & Hset & H).
  apply cmd_bind_inv in H as (n & k4 & [-> ->]%gets_inv & H).
  pose proof Hg as (_ & Ha & _). rewrite Ha in *.
  destruct (block_running me k STATUS_MUTEX_BLOCKED _ _ Hg eq_refl Hset)
    as (th & _ & _ & Hw & Ht & Hreg & Ha3).
  destruct (queue_next m k3) eqn:Hn.
  - rewrite <- Ha3. eapply (enter_list k3 (MutexQueue m) me); [exact Hw|done|exact Ht|done|done| |exact H].
    intros m' [= <-] Hm. unfold queue_next in Hn. by rewrite decide_True in Hn.
  - apply modify_inv in H as ->. split; [|done]. unfold store_node.
    assert (queue k3 (MutexQueue m) = []) as Hnil.
    { apply (w_locked _ _ Hw). unfold queue_next in Hn. case_decide; [done|]. by destruct (queue k3 _). }
    eapply winv_attach; [|done|exact Ht|done|exact Hreg| |].
    + destruct Hw as [H1 H2 H3 H4 H5 H6 H7 H8 H9 H10 H11 H12 H13]. split; try assumption.
      intros m' [Hm _]%elem_of_difference. by apply H13.
    + intros m' [= <-]. cbn. set_solver.
    + change (queue (set_locked _ k3)) with (queue k3). by rewrite Hnil.
  - rewrite <- Ha3. eapply (enter_list k3 (MutexQueue m) me); [exact Hw|done|exact Ht|done|done| |exact H].
    intros m' [= <-] Hm. unfold queue_next in Hn. by rewrite decide_True in Hn.
Qed.

Lemma wp_after_yield {B} me (f : unit -> kprog B) k (b : bool) :
  (if b then gone me k else good me k) -> (forall u, safe_call (f u)) ->
  wp me (fun _ => good me) (u ← (if b then thread_yield_higher else mret tt); f u) k.
Proof.
  intros Hk Hf. destruct b; [split; [done|]; intros k1 Hk1|]; by apply Hf.
Qed.

Lemma safe_mutex_lock_internal m block : safe_call (mutex_lock_internal m block).
Proof.
  unfold mutex_lock_internal. apply safe_section. intros me k r k' Hg H.
  apply wp_after_yield; [|intros; apply safe_ret].
  apply cmd_bind_inv in H as (n & k1 & [-> ->]%gets_inv & H).
  destruct (queue_next m k) eqn:Hn.
  - apply cmd_bind_inv in H as (u & k2 & ->%modify_inv & [-> ->]%mret_inv).
    destruct (inv_store_locked m k (proj1 Hg) (next_null _ _ Hn)) as [H1 H2]. by eapply good_evolves.
  - destruct block; cbn [negb] in H; [|by apply mret_inv in H as [-> ->]].
    apply cmd_bind_inv in H as (u & k2 & Hb & [-> ->]%mret_inv). cbn.
    destruct (mutex_block_inv me m k u k2 Hg Hb). by apply active_gone.
  - destruct block; cbn [negb] in H; [|by apply mret_inv in H as [-> ->]].
    apply cmd_bind_inv in H as (u & k2 & Hb & [-> ->]%mret_inv). cbn.
    destruct (mutex_block_inv me m k u k2 Hg Hb). by apply active_gone.
Qed.

Lemma safe_mutex_lock m : safe_call (mutex_lock m).
Proof. unfold mutex_lock. safe_tac. apply safe_mutex_lock_internal. Qed.
Lemma safe_mutex_trylock m : safe_call (mutex_trylock m).
Proof. exact (safe_mutex_lock_internal m false). Qed.

Lemma keeps_cancel_at mc : keeps (cancel_at mc).
Proof.
  intros k c k' Hi H. unfold cancel_at in H. destruct (cancels (objs k) !! mc); [|done].
  by injection H as _ <-.
Qed.
#[export] Hint Resolve keeps_cancel_at : keeps.

Lemma safe_mutex_lock_cancelable mc : safe_call (mutex_lock_cancelable mc).
Proof.
  unfold mutex_lock_cancelable. apply safe_section. intros me k r k' Hg H.
  assert (match r with Some _ => good me k' | None => gone me k' end) as Hr.
  { apply cmd_bind_inv in H as (c & k1 & Hc & H).
    destruct (keeps_cancel_at mc _ _ _ (proj1 Hg) Hc) as [Hi1 He1].
    assert (good me k1) as Hg1 by (by eapply good_evolves).
    destruct (negb (cancelled c =? 0)); [by apply mret_inv in H as [-> ->]|].
    apply cmd_bind_inv in H as (n & k2 & [-> ->]%gets_inv & H).
    destruct (queue_next (mc_mutex c) k1) eqn:Hn.
    - apply cmd_bind_inv in H as (u & k2 & ->%modify_inv & [-> ->]%mret_inv).
      destruct (inv_store_locked (mc_mutex c) k1 (proj1 Hg1) (next_null _ _ Hn)) as [H1 H2].
      by eapply good_evolves.
    - apply cmd_bind_inv in H as (u & k2 & Hb & [-> ->]%mret_inv).
      destruct (mutex_block_inv me (mc_mutex c) k1 u k2 Hg1 Hb). by apply active_gone.
    - apply cmd_bind_inv in H as (u & k2 & Hb & [-> ->]%mret_inv).
      destruct (mutex_block_inv me (mc_mutex c) k1 u k2 Hg1 Hb). by apply active_gone. }
  destruct r as [v|]; [done|]. apply wp_yield; [done|]. safe_tac. auto with keeps.
Qed.

Lemma keeps_relock m :
  keeps (n ← gets (queue_next m);
         match n with NextNull => modify (store_locked m) | _ => mret tt end).
Proof.
  intros k u k' Hi H. apply cmd_bind_inv in H as (n & k1 & [-> ->]%gets_inv & H).
  destruct (queue_next m k) eqn:Hn; [|by apply mret_inv in H as [_ ->]..].
  apply modify_inv in H as ->. by apply inv_store_locked, next_null.
Qed.

Lemma keeps_mutex_wake_first m : keeps (mutex_wake_first m).
Proof.
  unfold mutex_wake_first. apply keeps_wake_head; [done|]. intros x k u k' Hi H.
  apply cmd_bind_inv in H as (n & k1 & [-> ->]%gets_inv & H).
  apply cmd_bind_inv in H as (u2 & k2 & H2 & [_ ->]%mret_inv).
  eapply (keeps_relock m k); [done|]. unfold mbind, cmd_bind. cbn. exact H2.
Qed.
#[export] Hint Resolve keeps_mutex_wake_first : keeps.

Lemma keeps_store_null m k u k' :
  inv k -> queue_next m k = NextLocked -> modify (E := kerr) (store_null m) k = Ok (u, k') ->
  inv k' /\ evolves k k'.
Proof. intros Hi Hn ->%modify_inv. apply inv_store_null; [done|by apply next_locked]. Qed.

Lemma calm_mutex_unlock m : calm (mutex_unlock m).
Proof.
  unfold mutex_unlock. calm_tac. intros k r k' Hi H.
  apply cmd_bind_inv in H as (n & k1 & [-> ->]%gets_inv & H). destruct (queue_next m k) eqn:Hn.
  - by apply mret_inv in H as [_ ->].
  - apply cmd_bind_inv in H as (u & k2 & H2 & [_ ->]%mret_inv). by eapply keeps_store_null.
  - revert k r k' Hi Hn H. intros k r k' Hi _. revert k r k' Hi. change (keeps (process ← mutex_wake_first m;
      p ← thread_at process; mret (Some (priority p)))). keeps_tac.
Qed.
#[export] Hint Resolve calm_mutex_unlock : calm.

Lemma safe_mutex_unlock_and_sleep m : safe_call (mutex_unlock_and_sleep m).
Proof.
  unfold mutex_unlock_and_sleep. apply safe_section. intros me k u k' Hg H.
  apply cmd_bind_inv in H as (n & k1 & [-> ->]%gets_inv & H).
  apply cmd_bind_inv in H as (u2 & k2 & H2 & H).
  apply cmd_bind_inv in H as (a & k3 & [-> ->]%gets_inv & H). apply wp_yield_only.
  assert (inv k2 /\ evolves k k2) as [Hi2 He2].
  { pose proof (proj1 Hg) as Hi. destruct (queue_next m k) eqn:Hn.
    - by apply mret_inv in H2 as [_ ->].
    - by eapply keeps_store_null.
    - apply cmd_bind_inv in H2 as (x & k4 & H4 & [_ ->]%mret_inv). by eapply keeps_mutex_wake_first. }
  assert (good me k2) as Hg2 by (by eapply good_evolves).
  pose proof Hg2 as (_ & Ha2 & _). rewrite Ha2 in H.
  destruct (block_alone me k2 STATUS_SLEEPING _ _ Hg2 eq_refl eq_refl H) as (Hi3 & Ha3 & _).
  by apply active_gone.
Qed.

Lemma keeps_with_cancels f : keeps (modify (with_cancels f)).
Proof. apply keeps_objs. Qed.
#[export] Hint Resolve keeps_with_cancels : keeps.

Lemma remove_waiter_inv m t k b k' : remove_waiter m t k = Ok (b, k') ->
  (b = false /\ k' = k) \/
  (b = true /\ t ∈ queue k (MutexQueue m) /\
   k' = set_queue (MutexQueue m) (filter (fun x => x <> t) (queue k (MutexQueue m))) k).
Proof. unfold remove_waiter. case_decide; intros [= <- <-]; auto. Qed.

Lemma filter_remove (t : Z) l :
  NoDup l -> t ∈ l -> Permutation l (t :: filter (fun x => x <> t) l).
Proof.
  induction 1 as [|x l Hx Hnd IH]; [intros []%not_elem_of_nil|].
  intros [<-|Ht]%elem_of_cons.
  - rewrite filter_cons_False by tauto. fold (remove1 t l). by rewrite remove1_not_in.
  - rewrite filter_cons_True by (intros ->; done). rewrite (IH Ht) at 1. apply Permutation_swap.
Qed.

Lemma calm_mutex_cancel mc : calm (mutex_cancel mc).
Proof.
  unfold mutex_cancel. calm_tac. apply keeps_bind; [auto with keeps|]. intros c.
  apply keeps_bind; [auto with keeps|]. intros _ k r k' Hi H.
  apply cmd_bind_inv in H as (th & k1 & [Ht ->]%thread_at_inv & H).
  destruct (on_runqueue (status th)) eqn:Hon; [by apply mret_inv in H as [_ ->]|].
  apply cmd_bind_inv in H as (n & k2 & [-> ->]%gets_inv & H).
  destruct (queue_next (mc_mutex c) k) eqn:Hn; [by apply mret_inv in H as [_ ->]..|].
  apply cmd_bind_inv in H as (b & k3 & Hrm & H).
  apply remove_waiter_inv in Hrm as [[-> ->]|(-> & Hin & ->)]; [by apply mret_inv in H as [_ ->]|].
  set (q := MutexQueue (mc_mutex c)) in *. set (l := filter _ _) in *.
  assert (Permutation (queue k q) (mc_thread c :: l)) as HP
    by (apply filter_remove; [apply (w_nodup _ _ Hi)|done]).
  assert (winv (mc_thread c) (set_queue q l k)) as Hw by (by apply winv_detach).
  apply cmd_bind_inv in H as (n2 & k4 & [-> ->]%gets_inv & H).
  apply cmd_bind_inv in H as (u5 & k5 & H5 & H).
  apply cmd_bind_inv in H as (u6 & k6 & H6 & [_ ->]%mret_inv).
  assert (winv (mc_thread c) k5 /\ evolves k k5 /\ tcbs k5 = tcbs k /\ sched_threads k5 = sched_threads k)
    as (Hw5 & He5 & Et5 & Es5).
  { assert (evolves k (set_queue q l k)) as He by (by apply evolves_queue).
    destruct (queue_next (mc_mutex c) (set_queue q l k)) eqn:Hn2; [|by apply mret_inv in H5 as [_ ->]..].
    apply modify_inv in H5 as ->. apply next_null in Hn2. split_and!; [|etrans; [exact He|]|done|done].
    - unfold store_locked.
      assert (winv (mc_thread c) (set_locked (fun s => {[mc_mutex c]} ∪ s) (set_queue q l k))) as Hw2.
      { destruct Hw as [H1 H2 H3 H4 H5 H6' H7 H8 H9 H10 H11 H12 H13]. split; try assumption.
        intros m' [->%elem_of_singleton|Hm]%elem_of_union; [done|by apply H13]. }
      eapply winv_set_queue; [exact Hw2|done|apply NoDup_nil_2|apply not_elem_of_nil| | | |done|done].
      + intros q' Hq'. by destruct (w_out _ _ Hw2 q').
      + intros y []%not_elem_of_nil.
      + intros y. change (queue (set_locked _ ?x)) with (queue x). rewrite Hn2. intros []%not_elem_of_nil.
    - etrans; [apply evolves_locked|by apply evolves_queue]. }
  destruct (wake_out k5 (mc_thread c) th STATUS_PENDING u6 k6 Hw5) as [H7 H8].
  - by rewrite Et5.
  - done.
  - rewrite Es5. apply (inv_registered k _ th Hi Ht).
    destruct (waiter_status k q (mc_thread c) Hi) as (th' & Ht' & Hb & _); [done|done|].
    rewrite Ht in Ht'. injection Ht' as <-. by rewrite Hb.
  - done.
  - exact H6.
  - split; [done|]. by etrans.
Qed.

(** ** [rmutex.c] *)

Lemma keeps_rmutex_at r : keeps (rmutex_at r).
Proof.
  intros k c k' Hi H. unfold rmutex_at in H. destruct (rmutexes (objs k) !! r); [|done].
  by injection H as _ <-.
Qed.
Lemma keeps_with_rmutexes f : keeps (modify (with_rmutexes f)).
Proof. apply keeps_objs. Qed.
#[export] Hint Resolve keeps_rmutex_at keeps_with_rmutexes : keeps.
#[export] Hint Resolve safe_mutex_lock safe_mutex_trylock : safe.

Lemma safe_lock r trylock : safe_call (_lock r trylock).
Proof. unfold _lock. safe_tac; keeps_tac. Qed.
Lemma safe_rmutex_lock r : safe_call (rmutex_lock r).
Proof. unfold rmutex_lock. safe_tac. apply safe_lock. Qed.
Lemma safe_rmutex_trylock r : safe_call (rmutex_trylock r).
Proof. exact (safe_lock r true). Qed.
Lemma calm_rmutex_unlock r : calm (rmutex_unlock r).
Proof. unfold rmutex_unlock. calm_tac; keeps_tac. Qed.

(** ** [cond.c] *)

(** The running thread takes a status and enters the list that goes with it. *)
Lemma block_on_list me q s k k1 k2 u u' :
  good me k -> on_runqueue s = false -> (forall p, q <> RunQueue p) -> (forall m, q <> MutexQueue m) ->
  (forall th, belongs q (set_status s th)) ->
  sched_set_status me s k = Ok (u, k1) -> thread_add_to_list q me k1 = Ok (u', k2) ->
  inv k2 /\ sched_active_thread k2 = me.
Proof.
  intros Hg Hs Hq Hm Hb Hset Hadd.
  destruct (block_running me k s _ _ Hg Hs Hset) as (th & _ & _ & Hw & Ht & Hreg & Ha).
  rewrite <- Ha. eapply (enter_list k1 q me); [exact Hw|done|exact Ht|apply Hb|done| |exact Hadd].
  intros m E. by destruct (Hm m).
Qed.

Lemma safe_cond_wait c m : safe_call (cond_wait c m).
Proof.
  unfold cond_wait. intros me k Hg. apply wp_bind, wp_atomically; [done|].
  intros k1 a k2 Hg1 [-> ->]%gets_inv. pose proof Hg1 as (_ & -> & _).
  apply wp_bind. eapply wp_mono; [|by apply (calm_safe _ (calm_mutex_unlock m))]. cbv beta.
  intros u2 k3 Hg3. apply wp_bind, wp_atomically; [done|]. intros k4 u k5 Hg4 H.
  apply cmd_bind_inv in H as (u6 & k6 & Hset & H).
  apply wp_yield; [|apply safe_mutex_lock].
  destruct (block_on_list me (CondQueue c) STATUS_COND_BLOCKED k4 k6 k5 u6 u) as [Hi Ha]; try done.
  by apply active_gone.
Qed.

(** [adopts x q c]: the section [c] takes care of the thread [x], just taken off
    the list [q]. *)
Definition adopts {B} (x : Z) (q : head_t) (c : kcmd B) : Prop :=
  forall k th b k', winv x k -> tcbs k !! x = Some th -> belongs q th ->
    on_runqueue (status th) = false -> sched_threads k !! pid th = Some x ->
    c k = Ok (b, k') -> inv k' /\ evolves k k'.

Lemma adopts_wake {B} x q (f : unit -> kcmd B) :
  (forall u, keeps (f u)) -> adopts x q (u ← sched_set_status x STATUS_PENDING; f u).
Proof.
  intros Hf k th b k' Hw Ht _ Hon Hreg H. apply cmd_bind_inv in H as (u & k1 & Hset & H).
  destruct (wake_out k x th STATUS_PENDING _ _ Hw Ht Hon Hreg eq_refl Hset) as [H1 H2].
  destruct (Hf u _ _ _ H1 H) as [H3 H4]. split; [done|]. by etrans.
Qed.

Lemma adopts_same {A B} x q (c : kcmd A) (f : A -> kcmd B) :
  (forall k a k', c k = Ok (a, k') -> same_sched k k') -> (forall a, adopts x q (f a)) ->
  adopts x q (a ← c; f a).
Proof.
  intros Hc Hf k th b k' Hw Ht Hb Hon Hreg H. apply cmd_bind_inv in H as (a & k1 & H1 & H).
  pose proof (Hc _ _ _ H1) as Hs. destruct (Hf a k1 th b k') as [H3 H4]; try done.
  - by eapply winv_same.
  - destruct Hs as (-> & _). done.
  - destruct Hs as (_ & -> & _). done.
  - split; [done|]. etrans; [|exact H4]. by apply evolves_same.
Qed.

Lemma same_thread_at t k a k' : thread_at t k = Ok (a, k') -> same_sched k k'.
Proof. by intros [_ ->]%thread_at_inv. Qed.

Lemma keeps_take {B} q (f : Z -> kcmd B) (c : kcmd B) :
  (forall p, q <> RunQueue p) -> (forall x, adopts x q (f x)) -> keeps c ->
  keeps (x ← remove_head q; if negb (x =? 0) then f x else c).
Proof.
  intros Hq Hf Hc k b k' Hi H. apply cmd_bind_inv in H as (x & k1 & Hrm & H).
  apply remove_head_inv in Hrm as [(_ & -> & ->)|(l & Hl & ->)]; [by eapply Hc|].
  destruct (detach_head k q x l Hi Hq Hl) as (Hw & He & th & Ht & Hb & Hon & Hreg & Hne).
  rewrite (proj2 (Z.eqb_neq x 0)) in H by done.
  destruct (Hf x _ th b k' Hw Ht Hb Hon Hreg H) as [H1 H2]. split; [done|]. by etrans.
Qed.

Lemma keeps_signal_loop fuel c broadcast min_prio : keeps (signal_loop fuel c broadcast min_prio).
Proof.
  revert min_prio. induction fuel as [|fuel IH]; intros min_prio; cbn [signal_loop]; [apply keeps_fail|].
  apply keeps_take; [done| |apply keeps_ret]. intros x. apply adopts_wake. intros _. keeps_tac.
Qed.

Lemma calm_cond_signal c broadcast : calm (_cond_signal c broadcast).
Proof.
  unfold _cond_signal. calm_tac. intros k v k' Hi H. by eapply keeps_signal_loop.
Qed.

(** ** [thread_flags.c] *)

Lemma keeps_thread_flags_wake t : keeps (thread_flags_wake t).
Proof.
  intros k b k' Hi H. unfold thread_flags_wake, _thread_flags_wake in H.
  apply cmd_bind_inv in H as (th & k1 & [Ht ->]%thread_at_inv & H).
  destruct (flags_wakeup th) eqn:Hf; [|by apply mret_inv in H as [_ ->]].
  apply cmd_bind_inv in H as (u2 & k2 & Hset & H). apply cmd_bind_inv in H as (u3 & k3 & ->%modify_inv & [_ ->]%mret_inv).
  assert (unlisted (status th) = true /\ status th <> STATUS_STOPPED) as [Hun Hst]
    by (unfold flags_wakeup in Hf; by destruct (status th)).
  destruct (wake_unlisted k t th STATUS_PENDING _ _ Hi Ht Hun Hst eq_refl Hset) as [H1 H2].
  destruct (keeps_request true _ _ _ H1 eq_refl) as [H3 H4]. split; [exact H3|]. by etrans.
Qed.
Lemma keeps_flags_clear t mask : keeps (_thread_flags_clear_atomic t mask).
Proof. unfold _thread_flags_clear_atomic. keeps_tac. Qed.
#[export] Hint Resolve keeps_thread_flags_wake keeps_flags_clear : keeps.

Lemma calm_thread_flags_set t mask : calm (thread_flags_set t mask).
Proof. unfold thread_flags_set. calm_tac. keeps_tac. Qed.

Lemma calm_thread_flags_clear mask : calm (thread_flags_clear mask).
Proof. unfold thread_flags_clear. calm_tac. keeps_tac. Qed.

Lemma flags_wait_inv me mask s k u k' :
  good me k -> on_runqueue s = false -> needs_list s = false ->
  _thread_flags_wait mask me s k = Ok (u, k') -> gone me k'.
Proof.
  intros Hg Hon Hn H. unfold _thread_flags_wait in H. apply cmd_bind_inv in H as (u1 & k1 & H1 & H).
  assert (keeps (upd_thread me (set_wait_data mask))) as Hk by (by apply keeps_upd).
  destruct (Hk _ _ _ (proj1 Hg) H1) as [Hi1 He1].
  assert (good me k1) as Hg1 by (by eapply good_evolves).
  destruct (block_alone me k1 s _ _ Hg1 Hon Hn H) as (Hi & Ha & _). by apply active_gone.
Qed.

Lemma safe_flags_wait_any mask : safe_call (_thread_flags_wait_any mask).
Proof.
  unfold _thread_flags_wait_any. apply safe_section. intros me k b k' Hg H.
  apply cmd_bind_inv in H as (a & k1 & [-> ->]%gets_inv & H). pose proof Hg as (_ & Ha & _). rewrite Ha in H.
  apply cmd_bind_inv in H as (th & k2 & [Ht ->]%thread_at_inv & H).
  destruct (_ =? _); [|by apply mret_inv in H as [-> ->]].
  apply cmd_bind_inv in H as (u & k2 & H2 & [-> ->]%mret_inv). apply wp_yield_only.
  by eapply (flags_wait_inv me mask STATUS_FLAG_BLOCKED_ANY k).
Qed.
#[export] Hint Resolve safe_flags_wait_any : safe.

Lemma safe_thread_flags_wait_any mask : safe_call (thread_flags_wait_any mask).
Proof. unfold thread_flags_wait_any. safe_tac; auto with keeps. Qed.
Lemma safe_thread_flags_wait_one mask : safe_call (thread_flags_wait_one mask).
Proof. unfold thread_flags_wait_one. safe_tac; keeps_tac. Qed.

Lemma safe_thread_flags_wait_all mask : safe_call (thread_flags_wait_all mask).
Proof.
  unfold thread_flags_wait_all. apply safe_section. intros me k r k' Hg H.
  apply wp_after_yield; [|intros; apply safe_keeps, keeps_flags_clear].
  apply cmd_bind_inv in H as (a & k1 & [-> ->]%gets_inv & H). pose proof Hg as (_ & Ha & _). rewrite Ha in H.
  apply cmd_bind_inv in H as (th & k2 & [Ht ->]%thread_at_inv & H).
  destruct (negb _); [|by apply mret_inv in H as [-> ->]].
  apply cmd_bind_inv in H as (u & k2 & H2 & [-> ->]%mret_inv). cbn.
  by eapply (flags_wait_inv me mask STATUS_FLAG_BLOCKED_ALL k).
Qed.
