(* ===== verification/KernelMsgCalls.v ===== *)
(** * The RIOT kernel: message calls keep the invariant

    The same for [msg.c], [mbox.c] and [msg_bus.c].  Two calls rely on their callers:
    [msg_send_receive] on the target existing, [msg_reply] on the requester having
    been received from. *)

From stdpp Require Import base gmap list.
From Stdlib Require Import ZArith Lia.
From S2P Require Import Prelude Ring Lists Kernel KernelSync KernelMsg KernelInv KernelRun KernelCalls.

Local Open Scope Z_scope.

(** ** Messages in memory *)

Lemma same_msg_load a k v k' : msg_load a k = Ok (v, k') -> same_sched k k'.
Proof. unfold msg_load. destruct (a =? 0); [done|]. by intros [= _ <-]. Qed.
Lemma same_msg_store a m k v k' : msg_store a m k = Ok (v, k') -> same_sched k k'.
Proof.
  unfold msg_store. intros H. apply cmd_bind_inv in H as (u & k1 & [_ ->]%check_inv & ->%modify_inv). done.
Qed.

Lemma keeps_if_same {A} (c : kcmd A) : (forall k a k', c k = Ok (a, k') -> same_sched k k') -> keeps c.
Proof. intros Hc k a k' Hi H. pose proof (Hc _ _ _ H). split; [by eapply winv_same|by apply evolves_same]. Qed.

Lemma keeps_msg_load a : keeps (msg_load a).
Proof. apply keeps_if_same, same_msg_load. Qed.
Lemma keeps_msg_store a m : keeps (msg_store a m).
Proof. apply keeps_if_same, same_msg_store. Qed.
#[export] Hint Resolve keeps_msg_load keeps_msg_store : keeps.
Lemma keeps_set_sender m p : keeps (set_sender m p).
Proof. unfold set_sender. keeps_tac. Qed.
Lemma keeps_queue_msg t m : keeps (queue_msg t m).
Proof. unfold queue_msg. keeps_tac. Qed.
#[export] Hint Resolve keeps_set_sender keeps_queue_msg : keeps.

(** The receiver of a direct copy becomes ready. *)
Lemma keeps_direct {B} t m (f : thread_t -> kcmd B) (g : unit -> kcmd B) :
  (forall th, keeps (f th)) -> (forall u, keeps (g u)) ->
  keeps (th ← thread_at t;
         if decide (status th = STATUS_RECEIVE_BLOCKED)
         then v ← msg_load m; msg_store (wait_data th) v;; u ← sched_set_status t STATUS_PENDING; g u
         else f th).
Proof.
  intros Hf Hg k b k' Hi H. apply cmd_bind_inv in H as (th & k1 & [Ht ->]%thread_at_inv & H).
  case_decide as Hst; [|by eapply Hf].
  apply cmd_bind_inv in H as (v & k2 & H2%same_msg_load & H).
  apply cmd_bind_inv in H as (u & k3 & H3%same_msg_store & H).
  apply cmd_bind_inv in H as (u4 & k4 & Hset & H).
  assert (inv k3 /\ evolves k k3) as [Hi3 He3].
  { split; [eapply winv_same; [exact H3|by eapply winv_same]|].
    etrans; [by apply evolves_same|by apply evolves_same]. }
  assert (tcbs k3 !! t = Some th) as Ht3 by (destruct H2 as (E2 & _), H3 as (E3 & _); by rewrite E3, E2).
  destruct (wake_unlisted k3 t th STATUS_PENDING u4 k4 Hi3 Ht3) as [Hi4 He4];
    [by rewrite Hst|by rewrite Hst|done|exact Hset|].
  destruct (Hg u4 _ _ _ Hi4 H) as [Hi5 He5]. split; [done|]. etrans; [exact He3|]. by etrans.
Qed.

Lemma keeps_msg_send_oneway m p : keeps (_msg_send_oneway m p).
Proof.
  unfold _msg_send_oneway. apply keeps_bind; [auto with keeps|]. intros t.
  destruct (t =? 0); [apply keeps_ret|]. apply keeps_direct; intros; keeps_tac.
Qed.
#[export] Hint Resolve keeps_msg_send_oneway : keeps.

Lemma keeps_msg_send_int m p : keeps (msg_send_int m p).
Proof. unfold msg_send_int. keeps_tac. Qed.
Lemma keeps_msg_send_to_self m : keeps (msg_send_to_self m).
Proof. unfold msg_send_to_self. keeps_tac. Qed.
#[export] Hint Resolve keeps_msg_send_int keeps_msg_send_to_self : keeps.

(** ** Sending *)

Lemma set_status_inv t s k u k' : sched_set_status t s k = Ok (u, k') ->
  exists th k1, tcbs k !! t = Some th /\ tcbs k1 = tcbs k /\ k' = put_thread t (set_status s th) k1.
Proof.
  intros H. destruct (tcbs k !! t) as [th|] eqn:Ht.
  2:{ unfold sched_set_status, thread_at, mbind, cmd_bind in H. by rewrite Ht in H. }
  exists th. destruct (on_runqueue s) eqn:E1, (on_runqueue (status th)) eqn:E2.
  - rewrite (set_status_stay _ _ _ s Ht) in H by congruence. injection H as _ <-. exists k. split_and!; reflexivity.
  - rewrite (set_status_push _ _ _ s Ht) in H by done. injection H as _ <-.
    eexists. split; [done|]. split; [|reflexivity]. done.
  - rewrite (set_status_pop _ _ _ s Ht) in H by done. injection H as _ <-.
    exists (pop_state (priority th) k). by rewrite tcbs_pop.
  - rewrite (set_status_stay _ _ _ s Ht) in H by congruence. injection H as _ <-. exists k. split_and!; reflexivity.
Qed.

Lemma flags_wake_frame t k b k' v :
  thread_flags_wake t k = Ok (b, k') -> v <> t -> tcbs k' !! v = tcbs k !! v.
Proof.
  intros H Hv. unfold thread_flags_wake, _thread_flags_wake in H.
  apply cmd_bind_inv in H as (th & k1 & [Ht ->]%thread_at_inv & H).
  destruct (flags_wakeup th); [|by apply mret_inv in H as [_ ->]].
  apply cmd_bind_inv in H as (u2 & k2 & Hset & H).
  apply cmd_bind_inv in H as (u3 & k3 & ->%modify_inv & [_ ->]%mret_inv).
  apply set_status_inv in Hset as (th' & k1 & _ & E & ->). cbn [tcbs set_request].
  by rewrite tcbs_put, decide_False, E.
Qed.

(** A message is queued without changing other threads, or nothing changes. *)
Lemma queue_msg_frame t m k v k' :
  queue_msg t m k = Ok (v, k') ->
  (v = 0 /\ k' = k) \/ (v = 1 /\ forall u, u <> t -> tcbs k' !! u = tcbs k !! u).
Proof.
  intros H. unfold queue_msg in H. apply cmd_bind_inv in H as (th & k1 & [Ht ->]%thread_at_inv & H).
  destruct (Cib.cib_put (msg_queue th)) as [n q]. destruct (n <? 0).
  { left. by apply mret_inv in H as [-> ->]. }
  right. apply cmd_bind_inv in H as (u2 & k2 & (th2 & _ & ->)%upd_thread_inv & H).
  apply cmd_bind_inv in H as (v3 & k3 & (E3 & _)%same_msg_load & H).
  apply cmd_bind_inv in H as (u4 & k4 & (E4 & _)%same_msg_store & H).
  apply cmd_bind_inv in H as (u5 & k5 & (th5 & _ & ->)%upd_thread_inv & H).
  apply cmd_bind_inv in H as (b & k6 & Hw & [-> ->]%mret_inv). split; [done|]. intros u Hu.
  rewrite (flags_wake_frame _ _ _ _ u Hw) by done.
  by rewrite tcbs_put, decide_False, E4, E3, tcbs_put, decide_False.
Qed.

(** The caller of [_msg_send] either runs or has just blocked for a reply. *)
Definition awaits_reply (me : Z) (k : kernel) : Prop :=
  exists th, tcbs k !! me = Some th /\ status th = STATUS_REPLY_BLOCKED /\ forall q, me ∉ queue k q.

Definition sender (me : Z) (k : kernel) : Prop :=
  inv k /\ sched_active_thread k = me /\ (running k \/ awaits_reply me k).

(** The sender enters the list of the target. *)
Lemma enter_waiters me target m k u1 k1 i k2 u3 k3 u4 k4 :
  sender me k -> upd_thread me (set_wait_data m) k = Ok (u1, k1) -> thread_at me k1 = Ok (i, k2) ->
  sched_set_status me (if decide (status i = STATUS_REPLY_BLOCKED) then STATUS_REPLY_BLOCKED
                       else STATUS_SEND_BLOCKED) k2 = Ok (u3, k3) ->
  thread_add_to_list (MsgWaiters target) me k3 = Ok (u4, k4) ->
  inv k4 /\ sched_active_thread k4 = me.
Proof.
  intros (Hi & Ha & Hs) Hup [Ht ->]%thread_at_inv Hset Hadd.
  assert (keeps (upd_thread me (set_wait_data m))) as Hk by (by apply keeps_upd).
  destruct (Hk _ _ _ Hi Hup) as [Hi1 He1].
  apply upd_thread_inv in Hup as (th & Hth & ->). rewrite tcbs_put, decide_True in Ht by done.
  injection Ht as <-. destruct Hs as [Hr|(th' & Hth' & Hst & Hout)].
  - assert (good me (put_thread me (set_wait_data m th) k)) as Hg
      by (apply (good_evolves me k); [split; [exact Hi|by split]|exact He1|exact Hi1]).
    destruct Hr as (tha & l & Hta & Hon & _). rewrite Ha, Hth in Hta. injection Hta as <-.
    rewrite decide_False in Hset by (cbn; intros E; by rewrite E in Hon).
    eapply (block_on_list me (MsgWaiters target) STATUS_SEND_BLOCKED); [exact Hg|done|done|done| |exact Hset|exact Hadd].
    intros th0. by left.
  - rewrite Hth in Hth'. injection Hth' as <-. rewrite decide_True in Hset by done.
    set (k1 := put_thread me (set_wait_data m th) k) in *.
    assert (tcbs k1 !! me = Some (set_wait_data m th)) as Ht1 by (subst k1; by rewrite tcbs_put, decide_True).
    rewrite (set_status_stay _ _ _ STATUS_REPLY_BLOCKED Ht1) in Hset by (cbn; by rewrite Hst).
    injection Hset as _ <-.
    assert (winv me k1) as Hw by (apply winv_open; [done|exact Hout]).
    split.
    + eapply (enter_list _ (MsgWaiters target) me (set_status STATUS_REPLY_BLOCKED (set_wait_data m th)));
        [|done| |by right| |done|exact Hadd].
      * eapply winv_put_out; [exact Hw|exact Ht1|apply (w_prio _ _ Hw _ _ Ht1)|done].
      * by rewrite tcbs_put, decide_True.
      * apply (inv_registered k me th Hi Hth). by rewrite Hst.
    + apply add_to_list_inv in Hadd as (th5 & _ & ->). exact Ha.
Qed.

Lemma thread_get_unchecked_eq p t k k' : thread_get_unchecked p k = Ok (t, k') ->
  k' = k /\ t = default 0 (sched_threads k !! p).
Proof. unfold thread_get_unchecked. destruct (_ && _); [|done]. by intros [= <- <-]. Qed.

#[export] Instance same_sched_trans : Transitive same_sched.
Proof.
  intros k1 k2 k3 (?&?&?&?&?&?&?&?) (?&?&?&?&?&?&?&?). split_and!; etrans; eassumption.
Qed.

Lemma same_set_sender m p k u k' : set_sender m p k = Ok (u, k') -> same_sched k k'.
Proof.
  unfold set_sender. intros H. apply cmd_bind_inv in H as (v & k1 & H1%same_msg_load & H2%same_msg_store).
  by etrans.
Qed.

Lemma awaits_same me k k' : same_sched k k' -> awaits_reply me k -> awaits_reply me k'.
Proof.
  intros Hs (th & H1 & H2 & H3). exists th. rewrite (same_sched_queue _ _ Hs).
  destruct Hs as (-> & _). done.
Qed.

Lemma sender_same me k k' : same_sched k k' -> sender me k -> sender me k'.
Proof.
  intros Hs (Hi & Ha & Hr). split; [by eapply winv_same|].
  split; [destruct Hs as (_&_&_&_&_&_&->&_); done|].
  destruct Hr as [Hr|Hr]; [left; by eapply running_same|right; by eapply awaits_same].
Qed.

Lemma send_to_spec me m target block k r k' :
  sender me k -> send_to m target block k = Ok (r, k') ->
  inv k' /\ sched_active_thread k' = me /\ (snd r = false -> running k -> running k') /\
  (snd r = false -> awaits_reply me k -> block = true -> target = me).
Proof.
  intros Hs H. pose proof Hs as (Hi & Ha & _). unfold send_to in H.
  apply cmd_bind_inv in H as (a & k0 & [-> ->]%gets_inv & H). rewrite Ha in H.
  apply cmd_bind_inv in H as (t & k1 & [Ht ->]%thread_at_inv & H). case_decide as Hst.
  - apply cmd_bind_inv in H as (n & k2 & Hq & H).
    pose proof (keeps_queue_msg target m _ _ _ Hi Hq) as [Hi2 (Ha2 & _ & Hr2)].
    destruct (queue_msg_frame _ _ _ _ _ Hq) as [[-> ->]|[-> Hfr]]; cbn [Z.eqb negb] in H.
    + destruct block; cbn [negb] in H; [|by apply mret_inv in H as [-> ->]].
      apply cmd_bind_inv in H as (u3 & k3 & H3 & H). apply cmd_bind_inv in H as (i & k4 & H4 & H).
      apply cmd_bind_inv in H as (u5 & k5 & H5 & H). apply cmd_bind_inv in H as (u6 & k6 & H6 & H).
      destruct (enter_waiters me target m _ _ _ _ _ _ _ _ _ Hs H3 H4 H5 H6) as [Hi6 Ha6].
      apply cmd_bind_inv in H as (u7 & k7 & H7 & H).
      assert (keeps (upd_thread target (fun t => set_flags (Z.lor (flags t) THREAD_FLAG_MSG_WAITING) t)))
        as Hk7 by (by apply keeps_upd).
      destruct (Hk7 _ _ _ Hi6 H7) as [Hi7 (Ha7 & _)].
      apply cmd_bind_inv in H as (b & k8 & H8 & [-> ->]%mret_inv).
      destruct (keeps_thread_flags_wake target _ _ _ Hi7 H8) as [Hi8 (Ha8 & _)].
      split; [done|]. split; [congruence|]. by split.
    + apply cmd_bind_inv in H as (i & k3 & [Hme ->]%thread_at_inv & H).
      apply cmd_bind_inv in H as (b & k4 & [-> ->]%gets_inv & [-> ->]%mret_inv).
      split; [done|]. split; [congruence|]. split; [intros _; apply Hr2|].
      intros Hb (th & Hth & Hrep & _) _. apply orb_false_iff in Hb as [Hb _].
      destruct (decide (target = me)) as [|Hne]; [done|]. apply bool_decide_eq_false in Hb.
      rewrite Hfr, Hth in Hme by done. injection Hme as <-. done.
  - assert (status t = STATUS_RECEIVE_BLOCKED) as Hst' by (by destruct (status t)).
    assert (keeps (th ← thread_at target;
         if decide (status th = STATUS_RECEIVE_BLOCKED)
         then v ← msg_load m; msg_store (wait_data th) v;;
              u ← sched_set_status target STATUS_PENDING; (fun _ => mret (1, true)) u
         else mret (1, true))) as Hk by (apply keeps_direct; intros; apply keeps_ret).
    assert (r = (1, true)) as ->.
    { apply cmd_bind_inv in H as (v & k2 & _ & H). apply cmd_bind_inv in H as (u & k3 & _ & H).
      by apply cmd_bind_inv in H as (u4 & k4 & _ & [-> _]%mret_inv). }
    edestruct (Hk k) as [Hi' (Ha' & _)]; [exact Hi| |].
    { unfold mbind, cmd_bind at 1, thread_at. rewrite Ht, decide_True by done. exact H. }
    split; [done|]. split; [congruence|]. by split.
Qed.

(** The outcome of the section: without a yield the caller is as before, and
    running if it was; a caller that awaits a reply yields unless there is no
    other thread to send to. *)
Lemma send_section_spec me m p block k r k' :
  sender me k -> send_section m p block k = Ok (r, k') ->
  inv k' /\ sched_active_thread k' = me /\ (snd r = false -> running k -> running k') /\
  (snd r = false -> awaits_reply me k -> block = true ->
   default 0 (sched_threads k !! p) = 0 \/ default 0 (sched_threads k !! p) = me).
Proof.
  intros Hs H. unfold send_section in H.
  apply cmd_bind_inv in H as (target & k1 & [-> Hget]%thread_get_unchecked_eq & H).
  apply cmd_bind_inv in H as (pp & k2 & [-> ->]%gets_inv & H).
  apply cmd_bind_inv in H as (u3 & k3 & Hsame%same_set_sender & H).
  pose proof (sender_same _ _ _ Hsame Hs) as Hs3. rewrite <- Hget.
  destruct (Z.eqb_spec target 0) as [Ht0|Ht0].
  - apply mret_inv in H as [-> ->]. split; [apply Hs3|]. split; [apply Hs3|].
    split; [intros _; by apply running_same|by left].
  - destruct (send_to_spec me m target block k3 r k' Hs3 H) as (H1 & H2 & H3 & H4).
    split; [done|]. split; [done|]. split; [intros Hb Hr; apply H3; [done|by eapply running_same]|].
    intros Hb Hw Hbl. right. apply H4; [done|by eapply awaits_same|done].
Qed.

Lemma wp_yield_return me (r : Z * bool) k :
  (if snd r : bool then gone me k else good me k) -> wp me (fun _ => good me) (yield_return r) k.
Proof. intros Hr. apply wp_after_yield; [done|]. intros. apply safe_ret. Qed.

Lemma safe_msg_send_section m p block : safe_call (_msg_send m p block).
Proof.
  unfold _msg_send. apply safe_section. intros me k r k' Hg H. apply wp_yield_return.
  assert (sender me k) as Hs by (destruct Hg as (?&?&?); split; [done|]; split; [done|by left]).
  destruct (send_section_spec me m p block k r k' Hs H) as (Hi & Ha & Hr & _).
  destruct (snd r); [by apply active_gone|]. split; [done|]. split; [done|]. apply Hr; [done|apply Hg].
Qed.

Lemma safe_msg_dispatch m p block : safe_call (msg_dispatch m p block).
Proof. unfold msg_dispatch. safe_tac; auto with keeps. apply safe_msg_send_section. Qed.

(** [msg_send_receive] relies on the target being another thread that exists. *)
Definition reachable (p : Z) (k : kernel) : bool :=
  let t := default 0 (sched_threads k !! p) in negb (t =? 0) && negb (t =? sched_active_thread k).

Lemma safe_send_receive m reply p :
  safe_call (r ← atomically (assuming (reachable p) (send_receive_section m reply p)); yield_return r).
Proof.
  apply safe_section. intros me k r k' Hg H. unfold assuming in H.
  destruct (reachable p k) eqn:Hre; [|done]. unfold reachable in Hre.
  apply andb_true_iff in Hre as [Hre1%negb_true_iff%Z.eqb_neq Hre2%negb_true_iff%Z.eqb_neq].
  unfold send_receive_section in H. pose proof Hg as (Hi & Ha & Hrun).
  apply cmd_bind_inv in H as (a & k1 & [-> ->]%gets_inv & H). rewrite Ha in *.
  apply cmd_bind_inv in H as (u2 & k2 & Hset & H).
  destruct (block_running me k STATUS_REPLY_BLOCKED _ _ Hg eq_refl Hset) as (th & Ht & E2 & Hw & Ht2 & Hreg & Ha2).
  assert (sched_threads k2 = sched_threads k) as Es2
    by (rewrite E2; unfold pop_state; by destruct (tail _)).
  assert (sender me k2) as Hs2.
  { split; [eapply winv_close; [exact Hw|exact Ht2|done|done]|]. split; [done|right].
    exists (set_status STATUS_REPLY_BLOCKED th). split; [exact Ht2|]. split; [done|]. apply Hw. }
  clear E2.
  apply cmd_bind_inv in H as (u3 & k3 & H3 & H).
  assert (sender me k3 /\ sched_threads k3 = sched_threads k /\ awaits_reply me k3) as (Hs3 & Es3 & Hw3).
  { assert (keeps (upd_thread me (set_wait_data reply))) as Hk by (by apply keeps_upd).
    destruct (Hk _ _ _ (proj1 Hs2) H3) as [Hi3 (Ha3 & _)].
    apply upd_thread_inv in H3 as (th3 & Hth3 & ->). rewrite Ht2 in Hth3. injection Hth3 as <-.
    assert (awaits_reply me (put_thread me (set_wait_data reply (set_status STATUS_REPLY_BLOCKED th)) k2)) as Haw.
    { exists (set_wait_data reply (set_status STATUS_REPLY_BLOCKED th)).
      split; [by rewrite tcbs_put, decide_True|]. split; [done|]. apply Hw. }
    split; [split; [done|split; [congruence|by right]]|]. split; [exact Es2|done]. }
  apply cmd_bind_inv in H as (v & k4 & H4%same_msg_load & H).
  apply cmd_bind_inv in H as (u5 & k5 & H5%same_msg_store & H).
  assert (same_sched k3 k5) as Hs35 by (by etrans).
  pose proof (sender_same _ _ _ Hs35 Hs3) as Hs5. pose proof (awaits_same _ _ _ Hs35 Hw3) as Hw5.
  destruct (send_section_spec me reply p true k5 r k' Hs5 H) as (Hi' & Ha' & _ & Hy).
  assert (sched_threads k5 = sched_threads k) as Es5 by (destruct Hs35 as (_ & -> & _); done).
  apply wp_yield_return. destruct (snd r) eqn:Er; [by apply active_gone|]. exfalso.
  rewrite Es5 in Hy. by destruct (Hy eq_refl Hw5 eq_refl).
Qed.

(** [msg_reply] relies on the requester's message having been received. *)
Definition reply_ready (m : Z) (k : kernel) : bool :=
  let v := default (mkMsg 0 0 0) (msgs (objs k) !! m) in
  let t := default 0 (sched_threads k !! sender_pid v) in
  bool_decide (map_Forall (fun _ l => t ∉ l) (queues k)).

Lemma keeps_deliver_reply m reply checked :
  keeps (assuming (reply_ready m) (deliver_reply m reply checked)).
Proof.
  intros k r k' Hi H. unfold assuming in H. destruct (reply_ready m k) eqn:Hre; [|done].
  unfold deliver_reply in H. apply cmd_bind_inv in H as (v & k1 & Hl & H).
  assert (k1 = k /\ v = default (mkMsg 0 0 0) (msgs (objs k) !! m)) as [-> ->].
  { unfold msg_load in Hl. destruct (m =? 0); [done|]. by injection Hl as <- <-. }
  apply cmd_bind_inv in H as (t & k2 & [-> Hget]%thread_get_unchecked_eq & H).
  unfold reply_ready in Hre. apply bool_decide_eq_true in Hre. cbv zeta in Hre. rewrite <- Hget in Hre.
  apply cmd_bind_inv in H as (u3 & k3 & [_ ->]%check_inv & H).
  apply cmd_bind_inv in H as (th & k4 & [Ht ->]%thread_at_inv & H).
  case_decide as Hst; [by apply mret_inv in H as [_ ->]|].
  assert (status th = STATUS_REPLY_BLOCKED) as Hst' by (by destruct (status th)).
  apply cmd_bind_inv in H as (w & k5 & H5%same_msg_load & H).
  apply cmd_bind_inv in H as (u6 & k6 & H6%same_msg_store & H).
  apply cmd_bind_inv in H as (u7 & k7 & Hset & [_ ->]%mret_inv).
  assert (same_sched k k6) as Hs by (by etrans).
  destruct (wake_off_list k6 t th STATUS_PENDING u7 k7) as [Hi7 He7]; try done.
  - by eapply winv_same.
  - destruct Hs as (-> & _). done.
  - intros q. rewrite (same_sched_queue _ _ Hs). unfold queue.
    destruct (queues k !! q) as [l|] eqn:E; [by apply (Hre q)|apply not_elem_of_nil].
  - by rewrite Hst'.
  - by rewrite Hst'.
  - split; [done|]. etrans; [|exact He7]. by apply evolves_same.
Qed.

Lemma calm_msg_reply m reply :
  calm (r ← atomically (assuming (reply_ready m) (deliver_reply m reply true));
        match r with Some target_prio => sched_switch target_prio;; mret 1 | None => mret (-1) end).
Proof. calm_tac. apply keeps_deliver_reply. Qed.

Lemma keeps_msg_reply_int m reply :
  keeps (r ← assuming (reply_ready m) (deliver_reply m reply false);
         match r with Some _ => modify (set_request true);; mret 1 | None => mret (-1) end).
Proof. keeps_tac. apply keeps_deliver_reply. Qed.

(** ** Receiving *)

Lemma adopts_upd {B} x q t g (f : unit -> kcmd B) :
  (forall th, status (g th) = status th /\ priority (g th) = priority th /\ pid (g th) = pid th) ->
  (forall u, adopts x q (f u)) -> adopts x q (u ← upd_thread t g; f u).
Proof.
  intros Hg Hf k th b k' Hw Ht Hb Hon Hreg H.
  apply cmd_bind_inv in H as (u & k1 & (th1 & Ht1 & ->)%upd_thread_inv & H).
  destruct (Hg th1) as (G1 & G2 & G3).
  assert (exists th', tcbs (put_thread t (g th1) k) !! x = Some th' /\ status th' = status th /\
    priority th' = priority th /\ pid th' = pid th) as (th' & E1 & E2 & E3 & E4).
  { rewrite tcbs_put. case_decide; [subst|by exists th]. rewrite Ht in Ht1. injection Ht1 as <-. by eexists. }
  destruct (Hf u (put_thread t (g th1) k) th' b k') as [H1 H2]; try done.
  - by eapply winv_put.
  - destruct q; unfold belongs in *; by rewrite ?E2, ?E3.
  - by rewrite E2.
  - by rewrite E4.
  - split; [done|]. etrans; [|exact H2]. eapply evolves_put; [done| |done]. by rewrite G1.
Qed.

Lemma adopts_copy x me m : adopts x (MsgWaiters me) (copy_from_sender x m).
Proof.
  intros k th b k' Hw Ht Hb Hon Hreg H. unfold copy_from_sender in H.
  apply cmd_bind_inv in H as (s & k1 & [Hs ->]%thread_at_inv & H). rewrite Ht in Hs. injection Hs as <-.
  apply cmd_bind_inv in H as (v & k2 & H2%same_msg_load & H).
  apply cmd_bind_inv in H as (u3 & k3 & H3%same_msg_store & H).
  assert (same_sched k k3) as Hs by (by etrans).
  assert (winv x k3) as Hw3 by (by eapply winv_same).
  assert (tcbs k3 !! x = Some th) as Ht3 by (destruct Hs as (-> & _); done).
  assert (sched_threads k3 !! pid th = Some x) as Hreg3 by (destruct Hs as (_ & -> & _); done).
  assert (evolves k k3) as He3 by (by apply evolves_same).
  case_decide as Hst.
  - assert (adopts x (MsgWaiters me) (upd_thread x (set_wait_data 0);; sched_set_status x STATUS_PENDING;;
      mret (if priority th <? THREAD_PRIORITY_IDLE then Switch (priority th) else Return 1))) as Ha.
    { apply adopts_upd; [done|]. intros _. apply adopts_wake. intros _. apply keeps_ret. }
    destruct (Ha _ _ _ _ Hw3 Ht3 Hb Hon Hreg3 H) as [H4 H5]. split; [done|]. by etrans.
  - apply mret_inv in H as [-> ->]. split; [|done].
    assert (status th = STATUS_REPLY_BLOCKED) as Hst' by (by destruct (status th)).
    eapply winv_close; [exact Hw3|exact Ht3|by rewrite Hst'|done].
Qed.

Lemma adopts_take_waiter me t q i m x : adopts x (MsgWaiters me) (take_waiter me t q i m x).
Proof.
  unfold take_waiter. destruct (0 <=? i); [|apply adopts_copy].
  apply adopts_upd; [done|]. intros _. apply adopts_copy.
Qed.

Lemma receive_section_spec me m block k r k' :
  good me k -> receive_section m block k = Ok (r, k') ->
  match r with Block => gone me k' | _ => good me k' end.
Proof.
  intros Hg H. unfold receive_section in H.
  apply cmd_bind_inv in H as (a & k1 & [-> ->]%gets_inv & H). pose proof Hg as (_ & Ha & _). rewrite Ha in H.
  apply cmd_bind_inv in H as (t & k2 & [Ht ->]%thread_at_inv & H).
  destruct (if thread_has_msg_queue t then _ else _) as [i q].
  apply cmd_bind_inv in H as (u3 & k3 & H3 & H).
  assert (keeps (upd_thread me (set_msg_queue q))) as Hk3 by (by apply keeps_upd).
  destruct (Hk3 _ _ _ (proj1 Hg) H3) as [Hi3 He3]. assert (good me k3) as Hg3 by (by eapply good_evolves).
  apply cmd_bind_inv in H as (w & k4 & [-> ->]%gets_inv & H).
  destruct (negb block && _); [by apply mret_inv in H as [-> ->]|].
  apply cmd_bind_inv in H as (u5 & k5 & H5 & H).
  assert (keeps (if 0 <=? i then v ← msg_load (msg_array t + SIZEOF_MSG_T * i); msg_store m v
    else upd_thread me (set_wait_data m))) as Hk5 by keeps_tac.
  destruct (Hk5 _ _ _ Hi3 H5) as [Hi5 He5]. assert (good me k5) as Hg5 by (by eapply good_evolves).
  apply cmd_bind_inv in H as (x & k6 & Hrm & H).
  apply remove_head_inv in Hrm as [(_ & -> & ->)|(l & Hl & ->)].
  - cbn [Z.eqb negb] in H. destruct (i <? 0); [|by apply mret_inv in H as [-> ->]].
    apply cmd_bind_inv in H as (u7 & k7 & Hset & [-> ->]%mret_inv).
    destruct (block_alone me k5 STATUS_RECEIVE_BLOCKED _ _ Hg5 eq_refl eq_refl Hset) as (Hi7 & Ha7 & _).
    by apply active_gone.
  - destruct (detach_head k5 (MsgWaiters me) x l Hi5) as (Hw & He & th & Hth & Hb & Hon & Hreg & Hne); [done|done|].
    rewrite (proj2 (Z.eqb_neq x 0)) in H by done. cbn [negb] in H.
    destruct (adopts_take_waiter me t q i m x _ th r k' Hw Hth Hb Hon Hreg H) as [H1 H2].
    assert (good me k') as Hg' by (eapply good_evolves; [exact Hg5| |done]; by etrans).
    destruct r; [done|by apply good_gone|done].
Qed.

Lemma safe_msg_receive m block : safe_call (_msg_receive m block).
Proof.
  unfold _msg_receive. apply safe_section. intros me k r k' Hg H.
  pose proof (receive_section_spec me m block k r k' Hg H) as Hr. destruct r as [v| |prio].
  - done.
  - apply wp_yield; [done|]. safe_tac. keeps_tac.
  - assert (safe_call (sched_switch prio;; mret 1)) as Hs by safe_tac. by apply Hs.
Qed.

(** ** Mailboxes *)

Lemma same_mbox_at b k a k' : mbox_at b k = Ok (a, k') -> same_sched k k'.
Proof. unfold mbox_at. destruct (mboxes (objs k) !! b); [|done]. by intros [= _ <-]. Qed.
Lemma keeps_mbox_at b : keeps (mbox_at b).
Proof. apply keeps_if_same, same_mbox_at. Qed.
Lemma keeps_with_mboxes f : keeps (modify (with_mboxes f)).
Proof. apply keeps_objs. Qed.
#[export] Hint Resolve keeps_mbox_at keeps_with_mboxes : keeps.

Lemma keeps_mbox_enqueue b m : keeps (mbox_enqueue b m).
Proof. unfold mbox_enqueue. keeps_tac. Qed.
#[export] Hint Resolve keeps_mbox_enqueue : keeps.

Lemma adopts_wake_waiter {B} x q (f : Z -> kcmd B) :
  (forall p, keeps (f p)) -> adopts x q (p ← wake_waiter_section x; f p).
Proof.
  intros Hf k th b k' Hw Ht Hb Hon Hreg H. apply cmd_bind_inv in H as (p & k1 & H1 & H).
  assert (adopts x q (wake_waiter_section x)) as Ha
    by (unfold wake_waiter_section; apply adopts_wake; intros; keeps_tac).
  destruct (Ha _ _ _ _ Hw Ht Hb Hon Hreg H1) as [H2 H3].
  destruct (Hf p _ _ _ H2 H) as [H4 H5]. split; [done|]. by etrans.
Qed.

Lemma wait_section_spec me q k u k' :
  good me k -> (forall p, q <> RunQueue p) -> (forall m, q <> MutexQueue m) ->
  (forall th, belongs q (set_status STATUS_MBOX_BLOCKED th)) ->
  _wait_section q k = Ok (u, k') -> inv k' /\ sched_active_thread k' = me.
Proof.
  intros Hg H1 H2 H3 H. unfold _wait_section in H.
  apply cmd_bind_inv in H as (a & k1 & [-> ->]%gets_inv & H). pose proof Hg as (_ & Ha & _). rewrite Ha in H.
  apply cmd_bind_inv in H as (u2 & k2 & Hset & H). by eapply (block_on_list me q STATUS_MBOX_BLOCKED k k2 k').
Qed.

(** The state a thread is in between the rounds of a blocking put. *)
Definition put_state (me : Z) (r : put_next) (k : kernel) : Prop :=
  match r with PutWait => inv k /\ sched_active_thread k = me | _ => good me k end.

Lemma mbox_try_spec me b m blocking k r k' :
  good me k -> mbox_try b m blocking k = Ok (r, k') -> put_state me r k'.
Proof.
  intros Hg H. unfold mbox_try in H. apply cmd_bind_inv in H as (x & k1 & H1 & H).
  destruct (keeps_mbox_at b _ _ _ (proj1 Hg) H1) as [Hi1 He1].
  assert (good me k1) as Hg1 by (by eapply good_evolves).
  destruct (Cib.cib_full (cib x)).
  - destruct blocking; [|by apply mret_inv in H as [-> ->]].
    apply cmd_bind_inv in H as (u & k2 & H2 & [-> ->]%mret_inv).
    by eapply (wait_section_spec me (MboxWriters b) k1).
  - apply cmd_bind_inv in H as (u & k2 & H2 & [-> ->]%mret_inv).
    destruct (keeps_mbox_enqueue b m _ _ _ Hi1 H2) as [Hi2 He2]. by eapply good_evolves.
Qed.

Lemma wp_mbox_put_loop me fuel b m blocking r k :
  put_state me r k -> wp me (fun _ => good me) (mbox_put_loop fuel b m blocking r) k.
Proof.
  revert r k. induction fuel as [|fuel IH]; intros r k Hr; cbn [mbox_put_loop]; destruct r; try exact Hr.
  - destruct Hr as [Hi Ha]. apply wp_bind. eapply wp_mono; [|by apply wp_thread_yield]. cbv beta.
    intros u k1 Hg1. apply (safe_keeps (fail NoFuel)); [apply keeps_fail|done].
  - destruct Hr as [Hi Ha]. apply wp_bind. eapply wp_mono; [|by apply wp_thread_yield]. cbv beta.
    intros u k1 Hg1. apply wp_bind, wp_atomically; [done|]. intros k2 r k3 Hg2 H. apply IH.
    by eapply mbox_try_spec.
Qed.

Lemma adopts_put_reader b m x :
  adopts x (MboxReaders b) (t ← thread_at x; v ← msg_load m; msg_store (wait_data t) v;;
    prio ← wake_waiter_section x; mret (inl prio : Z + put_next)).
Proof.
  apply adopts_same; [apply same_thread_at|]. intros t. apply adopts_same; [apply same_msg_load|].
  intros v. apply adopts_same; [apply same_msg_store|]. intros _. apply adopts_wake_waiter.
  intros. apply keeps_ret.
Qed.

Lemma put_section_spec me b m blocking k r k' :
  good me k -> put_section b m blocking k = Ok (r, k') ->
  match r with inl _ => good me k' | inr r => put_state me r k' end.
Proof.
  intros Hg H. unfold put_section in H. apply cmd_bind_inv in H as (x & k1 & Hrm & H).
  apply remove_head_inv in Hrm as [(_ & -> & ->)|(l & Hl & ->)].
  - cbn [Z.eqb negb] in H. apply cmd_bind_inv in H as (r' & k2 & H2 & [-> ->]%mret_inv).
    by eapply mbox_try_spec.
  - destruct (detach_head k (MboxReaders b) x l (proj1 Hg)) as (Hw & He & th & Hth & Hb & Hon & Hreg & Hne); [done|done|].
    rewrite (proj2 (Z.eqb_neq x 0)) in H by done. cbn [negb] in H.
    assert (exists p, r = inl p) as [p ->].
    { apply cmd_bind_inv in H as (t & k2 & _ & H). apply cmd_bind_inv in H as (v & k3 & _ & H).
      apply cmd_bind_inv in H as (u & k4 & _ & H). apply cmd_bind_inv in H as (p & k5 & _ & [-> _]%mret_inv).
      by exists p. }
    destruct (adopts_put_reader b m x _ th _ k' Hw Hth Hb Hon Hreg H) as [H1 H2].
    eapply good_evolves; [exact Hg| |done]. by etrans.
Qed.

Lemma safe_mbox_put fuel b m blocking : safe_call (_mbox_put fuel b m blocking).
Proof.
  unfold _mbox_put. apply safe_section. intros me k r k' Hg H.
  pose proof (put_section_spec me b m blocking k r k' Hg H) as Hr. destruct r as [p|r].
  - assert (safe_call (sched_switch p;; mret 1)) as Hs by safe_tac. by apply Hs.
  - by apply wp_mbox_put_loop.
Qed.

Lemma keeps_wake_writer b : keeps (wake_writer b).
Proof.
  unfold wake_writer. apply keeps_take; [done| |apply keeps_ret]. intros x.
  apply adopts_wake_waiter. intros. apply keeps_ret.
Qed.
#[export] Hint Resolve keeps_wake_writer : keeps.

Lemma safe_mbox_get b m blocking : safe_call (_mbox_get b m blocking).
Proof.
  unfold _mbox_get. apply safe_section. intros me k r k' Hg H. unfold get_section in H.
  apply cmd_bind_inv in H as (x & k1 & H1 & H).
  destruct (keeps_mbox_at b _ _ _ (proj1 Hg) H1) as [Hi1 He1].
  assert (good me k1) as Hg1 by (by eapply good_evolves).
  destruct (negb (Cib.cib_avail (cib x) =? 0)).
  - assert (good me k' /\ (exists p, r = GetSwitch p) \/ good me k' /\ r = GetDone) as Hr.
    { destruct (Cib.cib_get_unsafe (cib x)) as [n c].
      apply cmd_bind_inv in H as (u2 & k2 & H2 & H). apply cmd_bind_inv in H as (v & k3 & H3 & H).
      apply cmd_bind_inv in H as (u4 & k4 & H4 & H).
      destruct (keeps_with_mboxes _ _ _ _ Hi1 H2) as [Hi2 He2].
      destruct (keeps_msg_load _ _ _ _ Hi2 H3) as [Hi3 He3].
      destruct (keeps_msg_store _ _ _ _ _ Hi3 H4) as [Hi4 He4].
      destruct (keeps_wake_writer _ _ _ _ Hi4 H) as [Hi5 He5].
      assert (good me k') as Hg'.
      { eapply good_evolves; [exact Hg1| |done]. etrans; [exact He2|]. etrans; [exact He3|]. by etrans. }
      unfold wake_writer in H. apply cmd_bind_inv in H as (y & k6 & _ & H).
      destruct (negb (y =? 0)); [left|right].
      - apply cmd_bind_inv in H as (p & k7 & _ & [-> _]%mret_inv). split; [done|by exists p].
      - by apply mret_inv in H as [-> _]. }
    destruct Hr as [[Hg' [p ->]]|[Hg' ->]]; [|done].
    assert (safe_call (sched_switch p;; mret 1)) as Hs by safe_tac. by apply Hs.
  - destruct blocking; [|by apply mret_inv in H as [-> ->]].
    apply cmd_bind_inv in H as (a & k2 & [-> ->]%gets_inv & H). pose proof Hg1 as (_ & Ha1 & _). rewrite Ha1 in H.
    apply cmd_bind_inv in H as (u3 & k3 & H3 & H). apply cmd_bind_inv in H as (u4 & k4 & H4 & [-> ->]%mret_inv).
    assert (keeps (upd_thread me (set_wait_data m))) as Hk3 by (by apply keeps_upd).
    destruct (Hk3 _ _ _ Hi1 H3) as [Hi3 He3]. assert (good me k3) as Hg3 by (by eapply good_evolves).
    destruct (wait_section_spec me (MboxReaders b) k3 u4 k4 Hg3) as [Hi4 Ha4]; [done..|].
    apply wp_bind. eapply wp_mono; [|by apply wp_thread_yield]. done.
Qed.

(** Without blocking, mailbox calls may be made by interrupt handlers. *)
Lemma calm_section {A B} (c : kcmd A) (f : A -> kprog B) :
  keeps c -> (forall k a k', c k = Ok (a, k') -> calm (f a)) -> calm (a ← atomically c; f a).
Proof.
  intros Hc Hf k Hi. cbn. destruct (c k) as [[a k']|e] eqn:E; [|done]. split; [by eapply Hc|by eapply Hf].
Qed.

Lemma keeps_put_section b m : keeps (put_section b m false).
Proof.
  unfold put_section. apply keeps_take; [done|apply adopts_put_reader|]. unfold mbox_try. keeps_tac.
Qed.

Lemma calm_mbox_try_put b m : calm (mbox_try_put b m).
Proof.
  apply calm_section; [apply keeps_put_section|]. intros k r k' H. destruct r as [p|r]; [calm_tac|].
  destruct r; [done|done|]. exfalso. unfold put_section in H. apply cmd_bind_inv in H as (x & k1 & _ & H).
  destruct (negb (x =? 0)).
  - apply cmd_bind_inv in H as (t & k2 & _ & H). apply cmd_bind_inv in H as (v & k3 & _ & H).
    apply cmd_bind_inv in H as (u & k4 & _ & H). by apply cmd_bind_inv in H as (p & k5 & _ & [? _]%mret_inv).
  - apply cmd_bind_inv in H as (r & k2 & H & [[= <-] ->]%mret_inv). unfold mbox_try in H.
    apply cmd_bind_inv in H as (y & k3 & _ & H).
    destruct (Cib.cib_full (cib y)); [by apply mret_inv in H as [? _]|].
    by apply cmd_bind_inv in H as (u & k4 & _ & [? _]%mret_inv).
Qed.

Lemma keeps_get_section b m : keeps (get_section b m false).
Proof. unfold get_section. keeps_tac. Qed.

Lemma calm_mbox_try_get b m : calm (mbox_try_get b m).
Proof.
  apply calm_section; [apply keeps_get_section|]. intros k r k' H.
  destruct r; [calm_tac|calm_tac| |calm_tac]. exfalso. unfold get_section in H.
  apply cmd_bind_inv in H as (x & k1 & _ & H). destruct (negb (Cib.cib_avail (cib x) =? 0)).
  - destruct (Cib.cib_get_unsafe (cib x)) as [n c].
    apply cmd_bind_inv in H as (u2 & k2 & _ & H). apply cmd_bind_inv in H as (v & k3 & _ & H).
    apply cmd_bind_inv in H as (u4 & k4 & _ & H). unfold wake_writer in H.
    apply cmd_bind_inv in H as (y & k5 & _ & H). destruct (negb (y =? 0)).
    + by apply cmd_bind_inv in H as (p & k6 & _ & [? _]%mret_inv).
    + by apply mret_inv in H as [? _].
  - by apply mret_inv in H as [? _].
Qed.

(** ** Message buses *)

Lemma same_bus_at b k a k' : bus_at b k = Ok (a, k') -> same_sched k k'.
Proof. unfold bus_at. destruct (buses (objs k) !! b); [|done]. by intros [= _ <-]. Qed.
Lemma same_entry_at e k a k' : entry_at e k = Ok (a, k') -> same_sched k k'.
Proof. unfold entry_at. destruct (entries (objs k) !! e); [|done]. by intros [= _ <-]. Qed.
Lemma keeps_bus_at b : keeps (bus_at b).
Proof. apply keeps_if_same, same_bus_at. Qed.
Lemma keeps_entry_at e : keeps (entry_at e).
Proof. apply keeps_if_same, same_entry_at. Qed.
#[export] Hint Resolve keeps_bus_at keeps_entry_at : keeps.

Lemma keeps_bus_loop l m mask count : keeps (bus_loop l m mask count).
Proof. revert count. induction l as [|e l IH]; intros count; cbn [bus_loop]; keeps_tac. Qed.
#[export] Hint Resolve keeps_bus_loop : keeps.

Lemma calm_msg_send_bus m b : calm (msg_send_bus m b).
Proof. unfold msg_send_bus, yield_return. calm_tac. keeps_tac. Qed.
