(* ===== verification/KernelMachine.v ===== *)
(** * The RIOT kernel: the machine

    Threads that make kernel calls in any order, interrupts that may come between
    any two sections, and the scheduler, as a step relation.  A few calls rely on
    something their caller promises and the code does not test; [call] lists the
    promise of each call beside its program, and a run is a run in which the
    promises are kept.  Every state the kernel can reach from [kernel_init] by such
    a run satisfies the invariant of [KernelInv]. *)

From stdpp Require Import base gmap list relations.
From Stdlib Require Import ZArith Lia.
From S2P Require Import Prelude Ring Kernel KernelSync KernelMsg KernelInv KernelRun KernelCalls KernelMsgCalls.

Local Open Scope Z_scope.

(** ** Calls and handlers *)

Definition drop {A} (p : kprog A) : kprog unit := p;; mret tt.

(** A list head may be initialised while no thread waits on it. *)
Definition nobody_waits (qs : list head_t) (k : kernel) : bool :=
  forallb (fun q => match queue k q with [] => true | _ => false end) qs.

(** What a caller promises of the states in which the sections of its call run, one
    promise per section; sections past the end of the list need none. *)
Definition promise : Type := kernel -> bool.
Definition any : promise := fun _ => true.
Definition promised (ps : list promise) (k : kernel) : bool :=
  match ps with P :: _ => P k | [] => true end.

(** The kernel calls of a thread, as the code has them, with their promises:
    - [thread_create]: the memory of the control block is in no use ([fresh_tcb]);
    - [sched_change_priority]: a ready thread is the first of its run queue
      ([first_or_blocked]);
    - the initialisers of mutexes, conditions and mailboxes: no thread waits on the
      object ([nobody_waits]);
    - [msg_send_receive]: the target exists and is another thread ([reachable]);
    - [msg_reply]: the requester waits on no list, that is its request has been
      received ([reply_ready]). *)
Inductive call : list promise -> kprog unit -> Prop :=
  | call_sleep : call [] thread_sleep
  | call_zombify : call [] thread_zombify
  | call_yield : call [] thread_yield
  | call_exit : call [] sched_task_exit
  | call_wakeup p : call [] (drop (thread_wakeup p))
  | call_kill_zombie p : call [] (drop (atomically (thread_kill_zombie p)))
  | call_create stack size prio fl f a old :
      call [fresh_tcb (tcb_address stack size) prio] (drop (thread_create stack size prio fl f a old))
  | call_change_priority t prio :
      call [any; first_or_blocked t prio] (sched_change_priority t prio)
  | call_mutex_init m : call [nobody_waits [MutexQueue m]] (atomically (mutex_init m))
  | call_rmutex_init r : call [nobody_waits [MutexQueue r]] (atomically (rmutex_init r))
  | call_lock m : call [] (mutex_lock m)
  | call_trylock m : call [] (drop (mutex_trylock m))
  | call_cancel_init mc m : call [] (atomically (mutex_cancel_init mc m))
  | call_lock_cancelable mc : call [] (drop (mutex_lock_cancelable mc))
  | call_cancel mc : call [] (mutex_cancel mc)
  | call_unlock m : call [] (mutex_unlock m)
  | call_unlock_and_sleep m : call [] (mutex_unlock_and_sleep m)
  | call_rmutex_lock r : call [] (rmutex_lock r)
  | call_rmutex_trylock r : call [] (drop (rmutex_trylock r))
  | call_rmutex_unlock r : call [] (rmutex_unlock r)
  | call_cond_init c : call [nobody_waits [CondQueue c]] (atomically (cond_init c))
  | call_cond_wait c m : call [] (cond_wait c m)
  | call_cond_signal c : call [] (cond_signal c)
  | call_cond_broadcast c : call [] (cond_broadcast c)
  | call_flags_set t mask : call [] (thread_flags_set t mask)
  | call_flags_clear mask : call [] (drop (thread_flags_clear mask))
  | call_flags_wait_any mask : call [] (drop (thread_flags_wait_any mask))
  | call_flags_wait_one mask : call [] (drop (thread_flags_wait_one mask))
  | call_flags_wait_all mask : call [] (drop (thread_flags_wait_all mask))
  | call_init_queue a n : call [] (atomically (msg_init_queue a n))
  | call_send m p : call [] (drop (msg_send m p))
  | call_try_send m p : call [] (drop (msg_try_send m p))
  | call_send_to_self m : call [] (drop (atomically (msg_send_to_self m)))
  | call_send_receive m reply p :
      call [any; reachable p] (drop (msg_send_receive m reply p))
  | call_reply m reply : call [reply_ready m] (drop (msg_reply m reply))
  | call_receive m : call [] (drop (msg_receive m))
  | call_try_receive m : call [] (drop (msg_try_receive m))
  | call_mbox_init b a n :
      call [nobody_waits [MboxReaders b; MboxWriters b]] (atomically (mbox_init b a n))
  | call_mbox_put fuel b m : call [] (mbox_put fuel b m)
  | call_mbox_try_put b m : call [] (drop (mbox_try_put b m))
  | call_mbox_get b m : call [] (mbox_get b m)
  | call_mbox_try_get b m : call [] (drop (mbox_try_get b m))
  | call_bus_init b : call [] (atomically (msg_bus_init b))
  | call_bus_attach b e : call [] (atomically (msg_bus_attach b e))
  | call_bus_detach b e : call [] (atomically (msg_bus_detach b e))
  | call_bus_subscribe e t : call [] (atomically (msg_bus_subscribe e t))
  | call_bus_unsubscribe e t : call [] (atomically (msg_bus_unsubscribe e t))
  | call_bus_post m b t a : call [] (drop (msg_bus_post m b t a)).

(** What an interrupt handler may call, and sequences of it.  [msg_reply_int] relies
    on [reply_ready] where it runs. *)
Inductive handler : kcmd unit -> Prop :=
  | h_none : handler (mret tt)
  | h_wakeup p : handler (isr (drop (thread_wakeup p)))
  | h_unlock m : handler (isr (mutex_unlock m))
  | h_cancel mc : handler (isr (mutex_cancel mc))
  | h_signal c : handler (isr (cond_signal c))
  | h_broadcast c : handler (isr (cond_broadcast c))
  | h_flags_set t mask : handler (isr (thread_flags_set t mask))
  | h_send m p : handler (isr (drop (atomically (msg_send_int m p))))
  | h_reply m reply :
      handler (isr (drop (atomically (r ← assuming (reply_ready m) (deliver_reply m reply false);
         match r with Some _ => modify (set_request true);; mret 1 | None => mret (-1) end))))
  | h_try_put b m : handler (isr (drop (mbox_try_put b m)))
  | h_try_get b m : handler (isr (drop (mbox_try_get b m)))
  | h_bus_post m b t a : handler (isr (drop (msg_bus_post m b t a)))
  | h_seq h1 h2 : handler h1 -> handler h2 -> handler (h1;; h2).

(** ** Steps *)

(** [conts] is what is left of the call each thread is in, with the promises for its
    next sections; a thread without an entry is between calls. *)
Record machine := mkMachine { kern : kernel; conts : gmap Z (list promise * kprog unit) }.

Definition rest (m : machine) (t : Z) : list promise * kprog unit :=
  default ([], Ret tt) (conts m !! t).

(** A handler runs in interrupt context. *)
Definition interrupt (h : kcmd unit) : kcmd unit :=
  modify (set_irq true);; h;; modify (set_irq false).

Inductive step : machine -> machine -> Prop :=
  | step_call k c t ps0 ps p :
      sched_active_thread k = t -> t <> 0 -> rest (mkMachine k c) t = (ps0, Ret tt) -> call ps p ->
      step (mkMachine k c) (mkMachine k (<[t := (ps, p)]> c))
  | step_section k c t ps f p k' :
      sched_active_thread k = t -> t <> 0 -> rest (mkMachine k c) t = (ps, Atomic f) ->
      promised ps k = true -> f k = Ok (p, k') ->
      step (mkMachine k c) (mkMachine k' (<[t := (tail ps, p)]> c))
  | step_yield k c t ps p irqs next k' :
      sched_active_thread k = t -> t <> 0 -> rest (mkMachine k c) t = (ps, Yield p) -> Forall handler irqs ->
      sched_run (map interrupt irqs) k = Ok (next, k') ->
      step (mkMachine k c) (mkMachine k' (<[t := ([], p)]> c))
  | step_dispatch k c irqs next k' :
      sched_active_thread k = 0 -> Forall handler irqs ->
      sched_run (map interrupt irqs) k = Ok (next, k') ->
      step (mkMachine k c) (mkMachine k' c)
  | step_irq k c h k' :
      handler h -> interrupt h k = Ok (tt, k') -> sched_context_switch_request k' = false ->
      step (mkMachine k c) (mkMachine k' c)
  | step_irq_switch k c h k1 irqs next k' :
      handler h -> interrupt h k = Ok (tt, k1) -> sched_context_switch_request k1 = true ->
      Forall handler irqs -> sched_run (map interrupt irqs) k1 = Ok (next, k') ->
      step (mkMachine k c) (mkMachine k' c).

(** The state [kernel_init] leaves before the first dispatch. *)
Inductive booted : machine -> Prop :=
  boot stack size f old r k :
    tcb_address stack size <> 0 ->
    create_section (tcb_address stack size) THREAD_PRIORITY_MAIN
      (Z.lor THREAD_CREATE_WOUT_YIELD THREAD_CREATE_STACKTEST) f 0 old boot_kernel = Ok (r, k) ->
    booted (mkMachine k ∅).

Definition reaches (m : machine) : Prop := exists m0, booted m0 /\ rtc step m0 m.

(** ** The invariant of the machine *)

Lemma keeps_assuming {A} P (c : kcmd A) : keeps c -> keeps (assuming P c).
Proof. intros Hc k a k' Hi H. unfold assuming in H. destruct (P k); [by eapply Hc|done]. Qed.

Lemma nobody_waits_spec qs k q : nobody_waits qs k = true -> q ∈ qs -> queue k q = [].
Proof.
  unfold nobody_waits. rewrite forallb_forall. intros H Hq. specialize (H q (proj1 (list_elem_of_In _ _) Hq)).
  by destruct (queue k q).
Qed.

Lemma keeps_nil q k u k' : (forall p, q <> RunQueue p) -> inv k -> queue k q = [] ->
  modify (E := kerr) (set_queue q []) k = Ok (u, k') -> inv k' /\ evolves k k'.
Proof. intros Hq Hi Hn ->%modify_inv. split; [by apply inv_set_nil|by apply evolves_queue]. Qed.

Lemma keeps_cond_init c : keeps (assuming (nobody_waits [CondQueue c]) (cond_init c)).
Proof.
  intros k u k' Hi H. unfold assuming in H. destruct (nobody_waits _ k) eqn:Hn; [|done].
  eapply (keeps_nil (CondQueue c)); [done|done| |exact H]. eapply nobody_waits_spec; [done|left].
Qed.

Lemma keeps_mbox_init b a n :
  keeps (assuming (nobody_waits [MboxReaders b; MboxWriters b]) (mbox_init b a n)).
Proof.
  intros k u k' Hi H. unfold assuming in H. destruct (nobody_waits _ k) eqn:Hn; [|done].
  pose proof (nobody_waits_spec _ _ (MboxReaders b) Hn ltac:(left)) as Hr.
  pose proof (nobody_waits_spec _ _ (MboxWriters b) Hn ltac:(right; left)) as Hw.
  unfold mbox_init in H. apply cmd_bind_inv in H as (u1 & k1 & H1 & H).
  destruct (keeps_with_mboxes _ _ _ _ Hi H1) as [Hi1 He1]. apply modify_inv in H1 as ->.
  apply cmd_bind_inv in H as (u2 & k2 & H2 & H).
  destruct (keeps_nil (MboxReaders b) _ _ _ ltac:(done) Hi1 Hr H2) as [Hi2 He2]. apply modify_inv in H2 as ->.
  destruct (keeps_nil (MboxWriters b) _ _ _ ltac:(done) Hi2 ltac:(by rewrite queue_set_ne) H) as [Hi3 He3].
  split; [done|]. etrans; [exact He1|]. by etrans.
Qed.

Lemma keeps_mutex_init m : keeps (assuming (nobody_waits [MutexQueue m]) (mutex_init m)).
Proof.
  intros k u k' Hi H. unfold assuming in H. destruct (nobody_waits _ k) eqn:Hn; [|done].
  apply modify_inv in H as ->. apply inv_store_null; [done|]. eapply nobody_waits_spec; [done|left].
Qed.
Lemma keeps_rmutex_init r : keeps (assuming (nobody_waits [MutexQueue r]) (rmutex_init r)).
Proof.
  intros k u k' Hi H. unfold assuming in H. destruct (nobody_waits _ k) eqn:Hn; [|done].
  unfold rmutex_init in H. apply cmd_bind_inv in H as (u1 & k1 & H1 & H).
  destruct (keeps_with_rmutexes _ _ _ _ Hi H1) as [Hi1 He1]. apply modify_inv in H1 as ->.
  destruct (keeps_mutex_init r _ u k' Hi1) as [Hi2 He2].
  { unfold assuming. change (nobody_waits ?l (with_rmutexes ?f k)) with (nobody_waits l k). rewrite Hn. exact H. }
  split; [done|]. by etrans.
Qed.

Lemma keeps_msg_init_queue a n : keeps (msg_init_queue a n).
Proof. unfold msg_init_queue. keeps_tac. Qed.
Lemma keeps_with_buses f d : keeps (modify (with_buses f d)).
Proof. apply keeps_objs. Qed.
Lemma keeps_with_entries f : keeps (modify (with_entries f)).
Proof. apply keeps_objs. Qed.
#[export] Hint Resolve keeps_with_buses keeps_with_entries keeps_with_cancels : keeps.

Lemma calm_msg_bus_post m b t a : calm (msg_bus_post m b t a).
Proof. unfold msg_bus_post. calm_tac; [apply calm_msg_send_bus|]. keeps_tac. Qed.

Lemma safe_drop {A} (p : kprog A) : safe_call p -> safe_call (drop p).
Proof. intros Hp. unfold drop. apply safe_bind; [done|]. intros _. apply safe_ret. Qed.
Lemma calm_drop {A} (p : kprog A) : calm p -> calm (drop p).
Proof. intros Hp. unfold drop. apply calm_bind; [done|done]. Qed.

(** A call that ends with an error where a promise is broken. *)
Fixpoint guard {A} (ps : list promise) (p : kprog A) : kprog A :=
  match ps, p with
  | P :: ps, Atomic f => Atomic (fun k =>
      if P k then match f k with Ok (p', k') => Ok (guard ps p', k') | Err e => Err e end
      else Err Misuse)
  | _, _ => p
  end.

(** Programs that begin with sections of the same effect. *)
Definition same_head {A} (p q : kprog A) : Prop :=
  match p, q with Atomic f, Atomic g => forall k, f k = g k | _, _ => p = q end.

Lemma safe_same_head {A} (p q : kprog A) : same_head p q -> safe_call q -> safe_call p.
Proof.
  intros H Hq me k Hg. specialize (Hq me k Hg). destruct p as [|f|], q as [|g|]; cbn [same_head] in H;
    try (rewrite H; exact Hq).
  cbn in *. destruct Hq as [[? Hq]|(? & ? & Hq)]; [left|right]; split_and!; try done;
    intros k1; intros; rewrite H; by apply Hq.
Qed.

(** Both are the same section once its promise and its result are known. *)
Ltac same_section :=
  let k := fresh "k" in intros k; cbn; unfold assuming;
  repeat match goal with
  | |- context [if ?b then _ else _] => destruct b; cbn
  | |- context [match ?c k with _ => _ end] => destruct (c k) as [[]|]; cbn
  end; reflexivity.

Lemma safe_guard_first {A B} P (c : kcmd A) (f : A -> kprog B) :
  safe_call (r ← atomically (assuming P c); f r) -> safe_call (guard [P] (r ← atomically c; f r)).
Proof. apply safe_same_head. same_section. Qed.

Lemma safe_guard_section {A} P (c : kcmd A) :
  keeps (assuming P c) -> safe_call (guard [P] (atomically c)).
Proof. intros H. eapply safe_same_head; [|exact (safe_keeps _ H)]. same_section. Qed.

Lemma safe_guard_second {A B} (c : kcmd A) P (f : A -> kprog B) :
  keeps c -> (forall a, safe_call (guard [P] (f a))) ->
  safe_call (guard [any; P] (r ← atomically c; f r)).
Proof.
  intros Hc Hf. apply (safe_same_head _ (r ← atomically c; guard [P] (f r))); [same_section|].
  apply safe_bind; [by apply safe_keeps|done].
Qed.

Lemma guard_safe_create stack size prio fl f a old :
  safe_call (guard [fresh_tcb (tcb_address stack size) prio] (drop (thread_create stack size prio fl f a old))).
Proof.
  unfold thread_create, drop. destruct (Z.leb_spec SCHED_PRIO_LEVELS prio) as [|Hp]; [apply safe_ret|].
  eapply safe_same_head; [|apply (safe_bind (r ← atomically (assuming (fresh_tcb (tcb_address stack size) prio)
    (create_section (tcb_address stack size) prio fl f a old));
    (if snd r : bool then sched_switch prio else mret tt);; mret (fst r)) (fun _ => mret tt))]; [same_section| |].
  - safe_tac. by apply keeps_create.
  - intros. apply safe_ret.
Qed.

Lemma guard_safe_change_priority t prio :
  safe_call (guard [any; first_or_blocked t prio] (sched_change_priority t prio)).
Proof.
  unfold sched_change_priority. apply safe_guard_second; [keeps_tac|]. intros [|]; [apply safe_ret|].
  apply safe_guard_first. apply safe_change_priority_rest.
Qed.

Lemma guard_safe_send_receive m reply p :
  safe_call (guard [any; reachable p] (drop (msg_send_receive m reply p))).
Proof.
  unfold msg_send_receive, drop.
  eapply safe_same_head; [|apply (safe_guard_second (gets sched_active_pid ≫= fun q =>
    check AssertFailed (negb (q =? p))) (reachable p) (fun _ =>
      (r ← atomically (send_receive_section m reply p); yield_return r);; mret tt))].
  - same_section.
  - keeps_tac.
  - intros _. eapply safe_same_head; [|apply (safe_bind (r ← atomically (assuming (reachable p)
      (send_receive_section m reply p)); yield_return r) (fun _ => mret tt))]; [same_section|apply safe_send_receive|].
    intros. apply safe_ret.
Qed.

Lemma guard_safe_reply m reply : safe_call (guard [reply_ready m] (drop (msg_reply m reply))).
Proof.
  unfold msg_reply, drop.
  eapply safe_same_head; [|apply (safe_bind (r ← atomically (assuming (reply_ready m) (deliver_reply m reply true));
    match r with Some prio => sched_switch prio;; mret 1 | None => mret (-1) end) (fun _ => mret tt))];
    [same_section|apply calm_safe, calm_msg_reply|]. intros. apply safe_ret.
Qed.

Lemma call_safe ps p : call ps p -> safe_call (guard ps p).
Proof.
  destruct 1; try change (guard [] ?p) with p;
    try match goal with |- safe_call (drop _) => apply safe_drop end.
  - apply safe_thread_sleep.
  - apply safe_thread_zombify.
  - apply safe_thread_yield.
  - apply safe_sched_task_exit.
  - apply calm_safe, calm_thread_wakeup.
  - apply safe_keeps, keeps_thread_kill_zombie.
  - apply guard_safe_create.
  - apply guard_safe_change_priority.
  - apply safe_guard_section, keeps_mutex_init.
  - apply safe_guard_section, keeps_rmutex_init.
  - apply safe_mutex_lock.
  - apply safe_mutex_trylock.
  - apply safe_keeps. unfold mutex_cancel_init. keeps_tac.
  - apply safe_mutex_lock_cancelable.
  - apply calm_safe, calm_mutex_cancel.
  - apply calm_safe, calm_mutex_unlock.
  - apply safe_mutex_unlock_and_sleep.
  - apply safe_rmutex_lock.
  - apply safe_rmutex_trylock.
  - apply calm_safe, calm_rmutex_unlock.
  - apply safe_guard_section, keeps_cond_init.
  - apply safe_cond_wait.
  - exact (calm_safe _ (calm_cond_signal c false)).
  - exact (calm_safe _ (calm_cond_signal c true)).
  - apply calm_safe, calm_thread_flags_set.
  - apply calm_safe, calm_thread_flags_clear.
  - apply safe_thread_flags_wait_any.
  - apply safe_thread_flags_wait_one.
  - apply safe_thread_flags_wait_all.
  - apply safe_keeps, keeps_msg_init_queue.
  - apply safe_msg_dispatch.
  - apply safe_msg_dispatch.
  - apply safe_keeps, keeps_msg_send_to_self.
  - apply guard_safe_send_receive.
  - apply guard_safe_reply.
  - apply safe_msg_receive.
  - apply safe_msg_receive.
  - apply safe_guard_section, keeps_mbox_init.
  - unfold mbox_put. safe_tac. apply safe_mbox_put.
  - apply safe_mbox_put.
  - unfold mbox_get. safe_tac. apply safe_mbox_get.
  - apply safe_mbox_get.
  - apply safe_keeps. unfold msg_bus_init. keeps_tac.
  - apply safe_keeps. unfold msg_bus_attach. keeps_tac.
  - apply safe_keeps. unfold msg_bus_detach. keeps_tac.
  - apply safe_keeps. unfold msg_bus_subscribe. keeps_tac.
  - apply safe_keeps. unfold msg_bus_unsubscribe. keeps_tac.
  - apply calm_safe, calm_msg_bus_post.
Qed.

Lemma handler_keeps h : handler h -> keeps h.
Proof.
  induction 1; try (apply isr_keeps; try match goal with |- calm (drop _) => apply calm_drop end).
  - apply keeps_ret.
  - apply calm_thread_wakeup.
  - apply calm_mutex_unlock.
  - apply calm_mutex_cancel.
  - exact (calm_cond_signal c false).
  - exact (calm_cond_signal c true).
  - apply calm_thread_flags_set.
  - apply calm_keeps, keeps_msg_send_int.
  - apply calm_keeps, keeps_msg_reply_int.
  - apply calm_mbox_try_put.
  - apply calm_mbox_try_get.
  - apply calm_msg_bus_post.
  - by apply keeps_bind.
Qed.

Lemma interrupt_keeps h : handler h -> keeps (interrupt h).
Proof.
  intros Hh. unfold interrupt. apply keeps_bind; [by apply keeps_same|]. intros _.
  apply keeps_bind; [by apply handler_keeps|]. intros _. by apply keeps_same.
Qed.

Lemma interrupts_keep irqs : Forall handler irqs -> Forall keeps (map interrupt irqs).
Proof. induction 1; constructor; [by apply interrupt_keeps|done]. Qed.

Definition guarded (x : list promise * kprog unit) : kprog unit := guard x.1 x.2.

(** Every thread can go on with its call while its promises are kept. *)
Definition resumable (c : gmap Z (list promise * kprog unit)) : Prop :=
  forall u k, good u k -> wp u (fun _ => good u) (guarded (default ([], Ret tt) (c !! u))) k.

Lemma resumable_insert c t x : resumable c -> (forall k, good t k -> wp t (fun _ => good t) (guarded x) k) ->
  resumable (<[t := x]> c).
Proof.
  intros Hr Hp u k Hg. destruct (decide (t = u)) as [<-|Hne].
  - rewrite lookup_insert_eq. by apply Hp.
  - rewrite lookup_insert_ne by done. by apply Hr.
Qed.

(** Every thread can go on with its call when it is scheduled, and the active one
    from the present state. *)
Record minv (m : machine) : Prop := mkMinv {
  m_inv : inv (kern m);
  m_rest : resumable (conts m);
  m_active : sched_active_thread (kern m) <> 0 ->
    wp (sched_active_thread (kern m)) (fun _ => good (sched_active_thread (kern m)))
      (guarded (rest m (sched_active_thread (kern m)))) (kern m)
}.

(** After a switch the chosen thread runs. *)
Lemma minv_switch k c irqs next k' :
  inv k -> resumable c ->
  Forall handler irqs -> sched_run (map interrupt irqs) k = Ok (next, k') -> minv (mkMachine k' c).
Proof.
  intros Hi Hr Hh H. destruct (sched_run_good _ _ _ _ Hi (interrupts_keep _ Hh) H) as (H1 & H2 & H3).
  split; cbn; [done|done|]. intros _. rewrite H2. apply Hr. by split.
Qed.

Lemma minv_section c t x k' :
  resumable c -> wp t (fun _ => good t) (guarded x) k' -> minv (mkMachine k' (<[t := x]> c)).
Proof.
  intros Hr Hwp. destruct (wp_active _ _ _ Hwp) as [Hi Ha]. split; cbn; [done| |].
  - apply resumable_insert; [done|]. intros k1 Hg. by eapply wp_resume.
  - intros Hne. destruct Ha as [->|]; [|done]. unfold rest. cbn. by rewrite lookup_insert_eq.
Qed.

Lemma minv_irq k c h k' : minv (mkMachine k c) -> handler h -> interrupt h k = Ok (tt, k') ->
  inv k' /\ minv (mkMachine k' c).
Proof.
  intros [Hi Hr Ha] Hh Hk. cbn in *. destruct (interrupt_keeps _ Hh _ _ _ Hi Hk) as [Hi' He].
  split; [done|]. split; cbn; [done|done|]. intros Hne.
  assert (sched_active_thread k' = sched_active_thread k) as Hsame by apply He.
  rewrite Hsame in *. eapply wp_stable; [done|done|]. by apply Ha.
Qed.

(** A section that runs while its promise is kept. *)
Lemma guarded_section t ps f k p k' :
  wp t (fun _ => good t) (guarded (ps, Atomic f)) k -> inv k -> sched_active_thread k = t ->
  promised ps k = true -> f k = Ok (p, k') -> wp t (fun _ => good t) (guarded (tail ps, p)) k'.
Proof.
  intros Ha Hi Ht Hps Hf. destruct ps as [|P ps]; cbn in Ha, Hps; destruct Ha as [[Hg Ha]|(_ & _ & Ha)];
    (specialize (Ha k Hg) || specialize (Ha k Hi Ht)); rewrite ?Hps, Hf in Ha; exact Ha.
Qed.

Lemma step_minv m m' : minv m -> step m m' -> minv m'.
Proof.
  intros Hm Hs. destruct Hs as
    [k c t ps0 ps p Ht Hne Hrest Hp|k c t ps f p k' Ht Hne Hrest Hps Hf|k c t ps p irqs next k' Ht Hne Hrest Hh Hrun
    |k c irqs next k' Ht Hh Hrun|k c h k' Hh Hk Hreq|k c h k1 irqs next k' Hh Hk Hreq Hhs Hrun];
    pose proof Hm as [Hi Hr Ha]; cbn in *;
    try (specialize (Ha ltac:(congruence)); rewrite Ht, Hrest in Ha).
  - apply minv_section; [done|]. apply call_safe; [done|]. by destruct ps0.
  - apply minv_section; [done|]. by eapply guarded_section.
  - assert (guarded (ps, Yield p) = Yield p) as E by (by destruct ps). rewrite E in Ha. destruct Ha as [_ Ha]. eapply minv_switch; [exact Hi| |exact Hh|exact Hrun].
    by apply resumable_insert.
  - by eapply minv_switch.
  - by eapply minv_irq.
  - destruct (minv_irq _ _ _ _ Hm Hh Hk) as [Hi1 [_ Hr1 _]]. by eapply minv_switch.
Qed.

(** ** Reachable states *)

Lemma queue_boot q : queue boot_kernel q = [].
Proof. done. Qed.

Lemma inv_boot : inv boot_kernel.
Proof.
  split; try (intros *; rewrite ?queue_boot); try (cbn; set_solver).
  { apply NoDup_nil_2. }
  split; [done|]. intros p _. by rewrite Z.bits_0, queue_boot.
Qed.

Lemma fresh_boot t prio : t <> 0 -> 0 <= prio -> fresh_tcb t prio boot_kernel = true.
Proof.
  intros Ht Hp. unfold fresh_tcb. rewrite !andb_true_iff, !bool_decide_eq_true, !negb_true_iff, !Z.eqb_neq, Z.leb_le.
  by split_and!.
Qed.

Lemma booted_minv m : booted m -> minv m.
Proof.
  intros [stack size f old r k Ht H].
  destruct (keeps_create (tcb_address stack size) THREAD_PRIORITY_MAIN
    (Z.lor THREAD_CREATE_WOUT_YIELD THREAD_CREATE_STACKTEST) f 0 old ltac:(done) boot_kernel r k inv_boot) as [Hi (Ha & _)].
  { unfold assuming. by rewrite fresh_boot. }
  split; [done| |intros Hne; cbn in Hne; by rewrite Ha in Hne].
  intros u k' Hg. cbn. by rewrite lookup_empty.
Qed.

Lemma steps_minv m m' : rtc step m m' -> minv m -> minv m'.
Proof. induction 1; [done|]. eauto using step_minv. Qed.

