(* ===== verification/KernelSpec.v ===== *)
(** * The RIOT kernel: what its calls do

    Functional theorems on the scheduler, threads, mutexes, thread flags and
    messages, for the stretch of code a thread runs up to its next scheduling
    point; [KernelMachine] covers what may come in between. *)

From stdpp Require Import base gmap list sorting.
From Stdlib Require Import ZArith Lia.
From S2P Require Import Prelude Bitarithm Ring Kernel KernelSync KernelMsg KernelInv KernelRun KernelCalls.

Local Open Scope Z_scope.

(** ** Running to the next scheduling point *)

Fixpoint segment {A} (p : kprog A) (k : kernel) : res kerr (kprog A * kernel) :=
  match p with
  | Atomic f => match f k with Ok (p', k') => segment p' k' | Err e => Err e end
  | _ => Ok (p, k)
  end.

Lemma segment_bind {A B} (f : A -> kprog B) : forall p k,
  segment (kbind f p) k =
    match segment p k with
    | Ok (Ret a, k') => segment (f a) k'
    | Ok (p', k') => Ok (kbind f p', k')
    | Err e => Err e
    end.
Proof.
  fix IH 1. intros [a|g|p] k; cbn [kbind segment]; [done| |done].
  destruct (g k) as [[p' k']|e]; [apply IH|done].
Qed.

Lemma segment_section {A B} (c : kcmd A) (f : A -> kprog B) k a k' :
  c k = Ok (a, k') -> segment (x ← atomically c; f x) k = segment (f a) k'.
Proof. intros H. unfold mbind, kprog_bind. rewrite segment_bind. cbn. by rewrite H. Qed.

(** ** The scheduler *)

Section Sched.
Variable k : kernel.
Hypothesis Hinv : inv k.

Lemma ready_bits t th : tcbs k !! t = Some th -> on_runqueue (status th) = true ->
  runqueue_bitcache k <> 0.
Proof using Hinv.
  intros Ht Hon Hz. pose proof (listed_ready _ _ _ Hon (w_listed _ _ Hinv _ _ Ht (inv_nonnull _ _ _ Hinv Ht))) as Hin.
  pose proof (w_prio _ _ Hinv _ _ Ht) as Hp. unfold SCHED_PRIO_LEVELS in Hp.
  destruct (w_bits _ _ Hinv) as [_ Hb]. specialize (Hb (priority th) ltac:(lia)).
  rewrite Hz, Z.bits_0 in Hb. symmetry in Hb. apply bool_decide_eq_false in Hb. apply Hb.
  intros Hn. rewrite Hn in Hin. by apply not_elem_of_nil in Hin.
Qed.

(** The first thread of the most urgent run queue is chosen, and the lists stay. *)
Lemma sched_run_chooses irqs t l :
  runqueue_bitcache k <> 0 -> queue k (RunQueue (_get_prio_queue_from_runqueue k)) = t :: l ->
  exists k', sched_run irqs k = Ok (t, k') /\ good t k' /\ queues k' = queues k /\
    runqueue_bitcache k' = runqueue_bitcache k.
Proof using Hinv.
  intros Hb Hq.
  assert (exists k', sched_run irqs k = Ok (t, k') /\ queues k' = queues k /\
    runqueue_bitcache k' = runqueue_bitcache k) as (k' & Hrun & Hqs & Hbs).
  { destruct (w_member _ _ Hinv _ t ltac:(rewrite Hq; left)) as (th & Ht & _).
    unfold sched_run, sched_idle, sched_pick, _unschedule, upd_thread, thread_at, gets, modify, mbind, cmd_bind, mret, cmd_ret.
    rewrite (proj2 (Z.eqb_neq _ _) Hb). cbn. change (_get_prio_queue_from_runqueue (set_request false k)) with (_get_prio_queue_from_runqueue k).
    change (queue (set_request false k)) with (queue k). rewrite Hq. cbn. rewrite Ht.
    destruct (Z.eqb_spec (sched_active_thread k) t) as [<-|Hne]; [by eexists|].
    destruct (Z.eqb_spec (sched_active_thread k) 0) as [Hz|Hnz].
    - cbn. rewrite lookup_insert_eq. by eexists.
    - destruct (w_active _ _ Hinv) as [Hz|(tha & Hta & _)]; [done|]. cbn.
      rewrite lookup_insert_ne, Hta by done. cbn. rewrite lookup_insert_ne, lookup_insert_eq by done. by eexists. }
  exists k'. split; [done|]. split; [|done].
  unfold sched_run in Hrun. apply cmd_bind_inv in Hrun as (p & k1 & [-> ->]%gets_inv & Hrun).
  unfold sched_idle in Hrun. rewrite (cmd_bind_Ok _ _ _ (sched_active_thread k) k) in Hrun.
  - by eapply sched_pick_good.
  - unfold gets, mbind, cmd_bind. by rewrite (proj2 (Z.eqb_neq _ _) Hb).
Qed.
End Sched.

(** C24: When a thread is ready, [sched_run] returns without waiting for interrupts: it
    makes the first thread in the run queue of the smallest priority value among the
    ready threads the active one, whatever thread was active before, and moves no
    thread between lists. *)
Theorem sched_run_most_urgent irqs k t th :
  inv k -> tcbs k !! t = Some th -> on_runqueue (status th) = true ->
  exists next nth k',
    sched_run irqs k = Ok (next, k') /\ good next k' /\ queues k' = queues k /\
    tcbs k !! next = Some nth /\ head (queue k (RunQueue (priority nth))) = Some next /\
    forall u thu, tcbs k !! u = Some thu -> on_runqueue (status thu) = true -> priority nth <= priority thu.
Proof.
  intros Hi Ht Hon. pose proof (ready_bits k Hi t th Ht Hon) as Hb.
  destruct (highest_priority k Hi Hb) as (Hp & Hne & Hmin).
  destruct (queue k (RunQueue (_get_prio_queue_from_runqueue k))) as [|next l] eqn:Hq; [done|].
  destruct (sched_run_chooses k Hi irqs next l Hb Hq) as (k' & Hrun & Hg & Hqs & _).
  destruct (w_member _ _ Hi _ next ltac:(rewrite Hq; left)) as (nth & Hn & _ & Hpn).
  exists next, nth, k'. rewrite Hpn, Hq. split_and!; try done.
  intros u thu Hu Hou. pose proof (listed_ready _ _ _ Hou (w_listed _ _ Hi _ _ Hu (inv_nonnull _ _ _ Hi Hu))) as Hin.
  destruct (decide (priority thu < _get_prio_queue_from_runqueue k)) as [Hlt|Hge]; [|lia].
  rewrite (Hmin _ Hlt) in Hin. by apply not_elem_of_nil in Hin.
Qed.

(** ** Yielding *)

(** The active thread calls [thread_yield] and the scheduler runs. *)
Definition yield_round (k : kernel) : res kerr kernel :=
  match segment thread_yield k with
  | Ok (_, k1) => match sched_run [] k1 with Ok (_, k2) => Ok k2 | Err e => Err e end
  | Err e => Err e
  end.
Fixpoint yield_rounds (n : nat) (k : kernel) : res kerr kernel :=
  match n with
  | O => Ok k
  | S n => match yield_round k with Ok k' => yield_rounds n k' | Err e => Err e end
  end.

Lemma yield_round_rotates k t l :
  good t k -> queue k (RunQueue (_get_prio_queue_from_runqueue k)) = t :: l -> 
  exists k' u l', yield_round k = Ok k' /\ l ++ [t] = u :: l' /\ good u k' /\
    queue k' (RunQueue (_get_prio_queue_from_runqueue k')) = u :: l'.
Proof.
  intros (Hi & Ha & th & l0 & Ht & Hon & Hq0) Hq. set (p := _get_prio_queue_from_runqueue k) in *.
  assert (priority th = p) as Hp.
  { destruct (w_member _ _ Hi (RunQueue p) t ltac:(rewrite Hq; left)) as (th' & Ht' & _ & Hp'). rewrite Ha in Ht. congruence. }
  unfold yield_round, thread_yield.
  erewrite segment_section; last first.
  { rewrite (cmd_bind_Ok _ _ _ (sched_active_thread k) k) by done.
    rewrite (cmd_bind_Ok _ _ _ th k) by (unfold thread_at; by rewrite Ht). rewrite Hon. reflexivity. }
  cbn [segment thread_yield_higher]. rewrite Hp, Hq.
  set (k1 := set_queue _ _ _).
  assert (inv k1) as Hi1.
  { apply inv_rotate; [done|]. rewrite Hq. symmetry. apply Permutation_cons_append. }
  assert (runqueue_bitcache k1 <> 0) as Hb by exact (ready_bits k Hi _ th Ht Hon).
  assert (queue k1 (RunQueue (_get_prio_queue_from_runqueue k1)) = l ++ [t]) as Hq1.
  { subst k1. change (_get_prio_queue_from_runqueue (set_queue _ _ k)) with p. by rewrite queue_set_eq. }
  destruct (l ++ [t]) as [|u l'] eqn:E; [by destruct l|].
  destruct (sched_run_chooses k1 Hi1 [] u l' Hb Hq1) as (k2 & Hrun & Hg & Hqs & Hbs). rewrite Hrun.
  exists k2, u, l'. split_and!; try done.
  unfold queue. rewrite Hqs. unfold _get_prio_queue_from_runqueue. rewrite Hbs. exact Hq1.
Qed.

(** C28: Ready threads of the top priority share the processor: when each thread that gets
    it yields, the [n]th thread of that run queue runs after [n] rounds, so within
    the length of the queue every one of them has run. *)
Theorem yield_round_robin n k t u l :
  good t k -> queue k (RunQueue (_get_prio_queue_from_runqueue k)) = t :: l -> (t :: l) !! n = Some u ->
  exists k', yield_rounds n k = Ok k' /\ sched_active_thread k' = u /\ good u k'.
Proof.
  revert k t l. induction n as [|n IH]; intros k t l Hg Hq Hn.
  - cbn in Hn. injection Hn as <-. exists k. split; [done|]. split; [apply Hg|done].
  - destruct (yield_round_rotates k t l Hg Hq) as (k' & x & l' & Hr & Hl & Hg' & Hq').
    cbn [yield_rounds]. rewrite Hr. apply (IH k' x l' Hg' Hq'). rewrite <- Hl. cbn in Hn.
    rewrite lookup_app_l by (by apply lookup_lt_Some in Hn). done.
Qed.

(** ** Wait lists *)

Section WaitList.
Variable prio : Z -> Z.

Definition urgency (x y : Z) : Prop := prio x <= prio y.

(** Behind the waiting threads that are at least as urgent, before the others. *)
Definition enqueue (t : Z) (l : list Z) : list Z :=
  filter (fun x => prio x <= prio t) l ++ t :: filter (fun x => prio t < prio x) l.

Lemma filter_above t l : Forall (fun x => prio t < prio x) l -> filter (fun x => prio x <= prio t) l = [].
Proof using. induction 1 as [|x l Hx _ IH]; [done|]. rewrite filter_cons_False by lia. done. Qed.
Lemma filter_all_above t l : Forall (fun x => prio t < prio x) l -> filter (fun x => prio t < prio x) l = l.
Proof using. induction 1 as [|x l Hx _ IH]; [done|]. rewrite filter_cons_True by lia. by f_equal. Qed.

Lemma add_sorted_enqueue t l : StronglySorted urgency l -> add_sorted prio (prio t) t l = enqueue t l.
Proof using.
  unfold enqueue. induction 1 as [|x l Hs IH Hx]; [done|]. cbn [add_sorted].
  destruct (Z.ltb_spec (prio t) (prio x)) as [Hlt|Hge].
  - assert (Forall (fun y => prio t < prio y) (x :: l)) as Hall.
    { constructor; [done|]. eapply Forall_impl; [exact Hx|]. unfold urgency. intros y; lia. }
    by rewrite filter_above, filter_all_above.
  - rewrite filter_cons_True, filter_cons_False by lia. cbn. by rewrite IH.
Qed.

Lemma StronglySorted_filter (P : Z -> Prop) `{!forall x, Decision (P x)} l :
  StronglySorted urgency l -> StronglySorted urgency (filter P l).
Proof using.
  induction 1 as [|x l Hs IH Hx]; [constructor|]. rewrite filter_cons. case_decide; [|done].
  constructor; [done|]. rewrite Forall_forall in *. intros y [_ Hy]%list_elem_of_filter. by apply Hx.
Qed.

Lemma enqueue_sorted t l : StronglySorted urgency l -> StronglySorted urgency (enqueue t l).
Proof using.
  intros Hs. unfold enqueue. apply StronglySorted_app_2.
  - intros x y [Hx _]%list_elem_of_filter. unfold urgency.
    intros [->|[Hy _]%list_elem_of_filter]%elem_of_cons; lia.
  - by apply StronglySorted_filter.
  - constructor; [by apply StronglySorted_filter|]. apply Forall_forall. intros y [Hy _]%list_elem_of_filter.
    unfold urgency. lia.
Qed.
End WaitList.

(** ** Mutexes *)

(** What a mutex promises: it is free, or held while threads wait in line. *)
Inductive mutex_state := Free | Held (waiters : list Z).

Definition mutex_view (m : Z) (k : kernel) : mutex_state :=
  match queue_next m k with
  | NextNull => Free
  | NextLocked => Held []
  | NextNode _ => Held (queue k (MutexQueue m))
  end.
Definition waiters (s : mutex_state) : list Z := match s with Free => [] | Held l => l end.

Lemma view_free m k : mutex_view m k = Free <-> m ∉ locked k /\ queue k (MutexQueue m) = [].
Proof. unfold mutex_view, queue_next. case_decide; [naive_solver|]. destruct (queue _ _); naive_solver. Qed.
Lemma view_held m k l : inv k -> mutex_view m k = Held l <->
  queue k (MutexQueue m) = l /\ (l = [] -> m ∈ locked k) /\ (m ∈ locked k -> l = []).
Proof.
  intros Hi. unfold mutex_view, queue_next. case_decide as Hd.
  - rewrite (w_locked _ _ Hi m Hd). naive_solver.
  - destruct (queue _ _) as [|x l']; naive_solver.
Qed.

(** The thread [t] has left the processor with status [s]; no other thread and no
    other list changed. *)
Definition parked (t : Z) (s : thread_status_t) (k k' : kernel) : Prop :=
  exists th, tcbs k !! t = Some th /\ tcbs k' = <[t := set_status s th]> (tcbs k).

Lemma prio_of_status k k' t s th : tcbs k !! t = Some th -> tcbs k' = <[t := set_status s th]> (tcbs k) ->
  forall u, prio_of k' u = prio_of k u.
Proof.
  intros Ht Heq u. unfold prio_of. rewrite Heq. destruct (decide (t = u)) as [<-|Hne].
  - by rewrite lookup_insert_eq, Ht.
  - by rewrite lookup_insert_ne.
Qed.

Lemma add_sorted_ext f g p x l : (forall y, f y = g y) -> add_sorted f p x l = add_sorted g p x l.
Proof. intros H. induction l as [|y l IH]; [done|]. cbn. by rewrite H, IH. Qed.

Lemma queue_pop_other p k q : (forall p', q <> RunQueue p') -> queue (pop_state p k) q = queue k q.
Proof.
  intros Hq. unfold pop_state. destruct (tail _);
    change (queue (set_bitcache ?b ?k')) with (queue k'); by rewrite queue_set_ne.
Qed.

Lemma lock_free m k block : mutex_view m k = Free ->
  segment (mutex_lock_internal m block) k = Ok (Ret true, store_locked m k) /\
  mutex_view m (store_locked m k) = Held [].
Proof.
  intros Hv. assert (queue_next m k = NextNull) as Hn.
  { apply view_free in Hv as [H1 H2]. unfold queue_next. by rewrite decide_False, H2. }
  split.
  - unfold mutex_lock_internal. erewrite segment_section; last first.
    { rewrite (cmd_bind_Ok _ _ _ NextNull k) by (unfold gets; by rewrite Hn). reflexivity. }
    done.
  - unfold mutex_view, queue_next. rewrite decide_True; [done|]. cbn. set_solver.
Qed.

Lemma try_held m k l : mutex_view m k = Held l -> segment (mutex_trylock m) k = Ok (Ret false, k).
Proof.
  intros Hv. unfold mutex_trylock, mutex_lock_internal. rewrite (segment_section _ _ _ (false, false) k); [done|].
  rewrite (cmd_bind_Ok _ _ _ (queue_next m k) k) by done. unfold mutex_view in Hv. by destruct (queue_next m k).
Qed.

Section MutexOps.
Variables (m me : Z) (k : kernel).
Hypothesis Hgood : good me k.

Lemma mutex_block_runs l :
  mutex_view m k = Held l -> StronglySorted (urgency (prio_of k)) l ->
  exists k', mutex_block m k = Ok (tt, k') /\ mutex_view m k' = Held (enqueue (prio_of k) me l) /\
    parked me STATUS_MUTEX_BLOCKED k k' /\ inv k'.
Proof using Hgood.
  intros Hv Hs. destruct Hgood as (Hi & Ha & th & l0 & Ht & Hon & Hq). rewrite Ha in Ht, Hq.
  pose proof (inv_nonnull _ _ _ Hi Ht) as Hnz. pose proof Hv as Hv'. apply view_held in Hv' as (Hl & Hl1 & Hl2); [|done].
  set (k1 := put_thread me (set_status STATUS_MUTEX_BLOCKED th) (pop_state (priority th) k)).
  assert (sched_set_status me STATUS_MUTEX_BLOCKED k = Ok (tt, k1)) as Hset by (by apply set_status_pop).
  assert (locked k1 = locked k) as Hlk by (subst k1; unfold pop_state; by destruct (tail _)).
  assert (queue k1 (MutexQueue m) = l) as Hq1 by (subst k1; change (queue (put_thread ?t ?x ?y)) with (queue y); by rewrite queue_pop_other).
  assert (tcbs k1 = <[me := set_status STATUS_MUTEX_BLOCKED th]> (tcbs k)) as Htc by (cbn; by rewrite tcbs_pop).
  assert (exists k', mutex_block m k = Ok (tt, k') /\ mutex_view m k' = Held (enqueue (prio_of k) me l) /\
    tcbs k' = tcbs k1) as (k' & Hb & Hview & Htcb).
  { unfold mutex_block. rewrite (cmd_bind_Ok _ _ _ me k) by (unfold gets; by rewrite Ha).
    rewrite (cmd_bind_Ok _ _ _ tt k) by (apply check_true; by apply negb_true_iff, Z.eqb_neq).
    rewrite (cmd_bind_Ok _ _ _ tt k1) by done. rewrite (cmd_bind_Ok _ _ _ (queue_next m k1) k1) by done.
    unfold queue_next. rewrite Hlk, Hq1. case_decide as Hd.
    - eexists. split; [reflexivity|]. split; [|done]. rewrite (Hl2 Hd). unfold mutex_view, queue_next.
      change (locked (store_node m me k1)) with (locked k1 ∖ {[m]}). rewrite decide_False by set_solver. unfold store_node. by rewrite !queue_set_eq.
    - destruct l as [|w ws]; [exfalso; apply Hd, Hl1; reflexivity|].
      unfold thread_add_to_list. rewrite (cmd_bind_Ok _ _ _ (set_status STATUS_MUTEX_BLOCKED th) k1)
        by (unfold thread_at; by rewrite Htc, lookup_insert_eq).
      rewrite (cmd_bind_Ok _ _ _ tt k1) by done. eexists. split; [reflexivity|]. split; [|done].
      rewrite Hq1. cbn [priority set_status].
      rewrite (add_sorted_ext _ (prio_of k)) by (by eapply prio_of_status).
      assert (priority th = prio_of k me) as -> by (unfold prio_of; by rewrite Ht).
      rewrite add_sorted_enqueue by done. unfold mutex_view, queue_next.
      change (locked (set_queue ?q ?x k1)) with (locked k1). rewrite Hlk, decide_False, queue_set_eq by done.
      unfold enqueue. by destruct (filter _ (w :: ws)). }
  exists k'. split; [done|]. split; [done|]. split; [exists th; by rewrite Htcb|].
  by eapply (mutex_block_inv me m k).
Qed.

Lemma lock_held l :
  mutex_view m k = Held l -> StronglySorted (urgency (prio_of k)) l ->
  exists k', segment (mutex_lock m) k = Ok (Yield (Ret tt), k') /\
    mutex_view m k' = Held (enqueue (prio_of k) me l) /\ parked me STATUS_MUTEX_BLOCKED k k' /\ inv k'.
Proof using Hgood.
  intros Hv Hs. destruct (mutex_block_runs l Hv Hs) as (k' & Hb & H).
  exists k'. split; [|done].
  assert (segment (mutex_lock_internal m true) k = Ok (Yield (Ret true), k')) as Hseg.
  { unfold mutex_lock_internal. rewrite (segment_section _ _ _ (true, true) k'); [done|].
    rewrite (cmd_bind_Ok _ _ _ (queue_next m k) k) by done. unfold mutex_view in Hv.
    destruct (queue_next m k); [done|..]; cbn [negb]; by rewrite (cmd_bind_Ok _ _ _ tt k'). }
  unfold mutex_lock, mbind, kprog_bind. by rewrite segment_bind, Hseg.
Qed.
End MutexOps.

(** The next step of a thread after it made one of priority [prio] ready. *)
Definition after_wake (prio : Z) (me : thread_t) : kprog unit :=
  if prio <? priority me then Yield (Ret tt) else Ret tt.

Lemma sched_switch_runs prio k th :
  tcbs k !! sched_active_thread k = Some th -> on_runqueue (status th) = true -> in_irq k = false ->
  segment (sched_switch prio) k = Ok (after_wake prio th, k).
Proof.
  intros Ht Hon Hirq. unfold sched_switch, after_wake.
  rewrite (segment_section _ _ _ (prio <? priority th) k); [by destruct (prio <? priority th)|].
  rewrite (cmd_bind_Ok _ _ _ (sched_active_thread k) k) by done.
  rewrite (cmd_bind_Ok _ _ _ th k) by (unfold thread_at; by rewrite Ht).
  rewrite (cmd_bind_Ok _ _ _ false k) by (unfold gets; by rewrite Hirq).
  rewrite Hon. cbn. by destruct (prio <? priority th).
Qed.

(** The thread [t] becomes ready, last in the run queue of its priority. *)
Definition readied (t : Z) (k k' : kernel) : Prop :=
  exists th, tcbs k !! t = Some th /\ tcbs k' = <[t := set_status STATUS_PENDING th]> (tcbs k) /\
    queue k' (RunQueue (priority th)) = queue k (RunQueue (priority th)) ++ [t].

Lemma StronglySorted_ext_urgency f g l : (forall u, g u = f u) ->
  StronglySorted (urgency f) l -> StronglySorted (urgency g) l.
Proof.
  intros H. induction 1 as [|x l Hs IH Hx]; constructor; [done|].
  eapply Forall_impl; [exact Hx|]. unfold urgency. intros y. by rewrite !H.
Qed.

Section MutexUnlock.
Variables (m : Z) (k : kernel).
Hypothesis Hinv : inv k.

Lemma wake_first_runs w ws : mutex_view m k = Held (w :: ws) ->
  exists k', mutex_wake_first m k = Ok (w, k') /\ mutex_view m k' = Held ws /\ readied w k k' /\
    sched_active_thread k' = sched_active_thread k /\ in_irq k' = in_irq k.
Proof using Hinv.
  intros Hv. apply view_held in Hv as (Hq & _ & Hl); [|done].
  assert (m ∉ locked k) as Hm by (intros Hm; by specialize (Hl Hm)).
  destruct (w_member _ _ Hinv (MutexQueue m) w ltac:(rewrite Hq; left)) as (th & Ht & Hst). cbn in Hst.
  set (k1 := set_queue (MutexQueue m) ws k).
  set (k2 := put_thread w (set_status STATUS_PENDING th) (push_state w (priority th) k1)).
  assert (sched_set_status w STATUS_PENDING k1 = Ok (tt, k2)) as Hset.
  { apply set_status_push; [done|done|]. by rewrite Hst. }
  assert (queue k2 (MutexQueue m) = ws) as Hq2.
  { subst k2 k1. change (queue (put_thread ?t ?x ?y)) with (queue y). unfold push_state.
    change (queue (set_bitcache ?b ?x)) with (queue x). by rewrite queue_set_ne, queue_set_eq. }
  assert (queue k2 (RunQueue (priority th)) = queue k (RunQueue (priority th)) ++ [w]) as Hr2.
  { subst k2 k1. change (queue (put_thread ?t ?x ?y)) with (queue y). unfold push_state.
    change (queue (set_bitcache ?b ?x)) with (queue x). by rewrite queue_set_eq, queue_set_ne. }
  unfold mutex_wake_first. rewrite (cmd_bind_Ok _ _ _ w k1) by (unfold remove_head; by rewrite Hq).
  rewrite (cmd_bind_Ok _ _ _ tt k2) by done. rewrite (cmd_bind_Ok _ _ _ (queue_next m k2) k2) by done.
  unfold queue_next at 1. change (locked k2) with (locked k). rewrite decide_False, Hq2 by done.
  destruct ws as [|x ws].
  - exists (store_locked m k2). split; [done|]. split; [|split; [|done]].
    + unfold mutex_view, queue_next. rewrite decide_True; [done|]. cbn. set_solver.
    + exists th. split; [done|]. split; [done|]. unfold store_locked. by rewrite queue_set_ne.
  - exists k2. split; [done|]. split; [|split; [by exists th|done]].
    unfold mutex_view, queue_next. change (locked k2) with (locked k). by rewrite decide_False, Hq2.
Qed.
End MutexUnlock.

Lemma unlock_idle m k : waiters (mutex_view m k) = [] ->
  exists k', segment (mutex_unlock m) k = Ok (Ret tt, k') /\ mutex_view m k' = Free /\ tcbs k' = tcbs k.
Proof.
  intros Hw. unfold mutex_unlock. destruct (queue_next m k) eqn:Hn.
  - exists k. rewrite (segment_section _ _ _ None k). 
    + split; [done|]. split; [|done]. unfold mutex_view. by rewrite Hn.
    + rewrite (cmd_bind_Ok _ _ _ NextNull k) by (unfold gets; by rewrite Hn). done.
  - exists (store_null m k). rewrite (segment_section _ _ _ None (store_null m k)). 
    + split; [done|]. split; [|done]. apply view_free. unfold store_null. rewrite queue_set_eq. split; [|done].
      cbn. set_solver.
    + rewrite (cmd_bind_Ok _ _ _ NextLocked k) by (unfold gets; by rewrite Hn). done.
  - unfold mutex_view in Hw. rewrite Hn in Hw. unfold queue_next in Hn. case_decide; [done|].
    cbn in Hw. by rewrite Hw in Hn.
Qed.

Section Unlock.
Variables (m me : Z) (k : kernel) (th : thread_t).
Hypothesis Hgood : good me k.
Hypothesis Hme : tcbs k !! me = Some th.
Hypothesis Hirq : in_irq k = false.

Lemma unlock_handover w ws : mutex_view m k = Held (w :: ws) ->
  exists k', segment (mutex_unlock m) k = Ok (after_wake (prio_of k w) th, k') /\
    mutex_view m k' = Held ws /\ readied w k k'.
Proof using Hgood Hme Hirq.
  intros Hv. destruct Hgood as (Hi & Ha & th' & l0 & Ht & Hon & Hq).
  rewrite Ha, Hme in Ht. injection Ht as <-.
  destruct (wake_first_runs m k Hi w ws Hv) as (k' & Hwake & Hv' & Hr & Ha' & Hirq').
  exists k'. split; [|done]. destruct Hr as (thw & Htw & Htc & _).
  assert (w <> me) as Hne.
  { intros ->. apply view_held in Hv as (Hqm & _); [|done].
    destruct (w_member _ _ Hi (MutexQueue m) me ltac:(rewrite Hqm; left)) as (th' & Ht' & Hst). cbn in Hst.
    rewrite Hme in Ht'. injection Ht' as <-. by rewrite Hst in Hon. }
  unfold mutex_unlock. rewrite (segment_section _ _ _ (Some (priority thw)) k').
  - replace (prio_of k w) with (priority thw) by (unfold prio_of; by rewrite Htw).
    apply sched_switch_runs; [|done|congruence]. by rewrite Ha', Ha, Htc, lookup_insert_ne.
  - rewrite (cmd_bind_Ok _ _ _ (queue_next m k) k) by done. unfold mutex_view in Hv.
    destruct (queue_next m k); [done..|]. rewrite (cmd_bind_Ok _ _ _ w k') by done.
    rewrite (cmd_bind_Ok _ _ _ (set_status STATUS_PENDING thw) k'); [done|].
    unfold thread_at. by rewrite Htc, lookup_insert_eq.
Qed.
End Unlock.

(** C12: The mutex functions do what a mutex promises, on every branch: a free mutex is
    taken at once; [mutex_trylock] on a held one fails and changes nothing;
    [mutex_lock] on a held one parks the caller behind the waiters that are at
    least as urgent, in a line that stays sorted by urgency, and the caller gives up the
    processor; [mutex_unlock] frees a mutex nobody waits for, and otherwise leaves it
    held while exactly the first waiter becomes ready, after which the caller yields
    if that thread is more urgent. *)
Theorem mutex_refines m me k th :
  good me k -> tcbs k !! me = Some th -> in_irq k = false ->
  StronglySorted (urgency (prio_of k)) (waiters (mutex_view m k)) ->
  match mutex_view m k with
  | Free => exists k', mutex_view m k' = Held [] /\ tcbs k' = tcbs k /\
      forall block, segment (mutex_lock_internal m block) k = Ok (Ret true, k')
  | Held l =>
      segment (mutex_trylock m) k = Ok (Ret false, k) /\
      exists k', segment (mutex_lock m) k = Ok (Yield (Ret tt), k') /\ inv k' /\
        mutex_view m k' = Held (enqueue (prio_of k) me l) /\ parked me STATUS_MUTEX_BLOCKED k k' /\
        StronglySorted (urgency (prio_of k')) (enqueue (prio_of k) me l)
  end /\
  match waiters (mutex_view m k) with
  | [] => exists k', segment (mutex_unlock m) k = Ok (Ret tt, k') /\ mutex_view m k' = Free /\ tcbs k' = tcbs k
  | w :: ws => exists k', segment (mutex_unlock m) k = Ok (after_wake (prio_of k w) th, k') /\
      mutex_view m k' = Held ws /\ readied w k k'
  end.
Proof.
  intros Hg Hme Hirq Hs. split.
  - destruct (mutex_view m k) as [|l] eqn:Hv.
    + destruct (lock_free m k true Hv) as [_ Hv']. exists (store_locked m k). split; [done|]. split; [done|].
      intros block. by apply lock_free.
    + split; [by eapply try_held|]. destruct (lock_held m me k Hg l Hv Hs) as (k' & H1 & H2 & H3 & H4).
      exists k'. split_and!; try done. destruct H3 as (th' & Ht' & Htc).
      apply (StronglySorted_ext_urgency _ _ _ (prio_of_status k k' me _ th' Ht' Htc)). by apply enqueue_sorted.
  - destruct (waiters (mutex_view m k)) as [|w ws] eqn:Hw; [by apply unlock_idle|].
    apply (unlock_handover m me k th Hg Hme Hirq). destruct (mutex_view m k); [done|]. cbn in Hw. by rewrite Hw.
Qed.
