(* ===== verification/KernelInbox.v ===== *)
(** * The RIOT kernel: delivery of messages

    The messages that wait for a thread are those in its message queue, oldest
    first, followed by those of the threads blocked in sending to it, in the
    order of the wait list.  A receive takes the first of them and leaves the
    rest; a send appends to them or blocks. *)

From stdpp Require Import base gmap list sorting.
From Stdlib Require Import ZArith Lia.
From S2P Require Import Prelude Ring Kernel KernelSync KernelMsg KernelInv KernelRun KernelCalls KernelSpec.
Import Cib.

Local Open Scope Z_scope.

(** ** Pending messages *)

Definition msg_at (k : kernel) (a : Z) : msg_t := default (mkMsg 0 0 0) (msgs (objs k) !! a).
Definition slot_addr (th : thread_t) (i : Z) : Z := msg_array th + SIZEOF_MSG_T * i.

Definition inbox (n : Z) (th : thread_t) (k : kernel) : list msg_t :=
  if thread_has_msg_queue th then slots n (msg_queue th) (fun i => msg_at k (slot_addr th i)) else [].
Definition waiting (k : kernel) (w : Z) : msg_t :=
  match tcbs k !! w with Some th => msg_at k (wait_data th) | None => mkMsg 0 0 0 end.
Definition pending (n t : Z) (k : kernel) : list msg_t :=
  match tcbs k !! t with
  | Some th => inbox n th k ++ map (waiting k) (queue k (MsgWaiters t))
  | None => []
  end.

(** The message queue of a thread: none, or [2 ^ n] slots in an array. *)
Definition queue_ok (n : Z) (th : thread_t) : Prop :=
  if thread_has_msg_queue th then wf n (msg_queue th) /\ 0 < msg_array th
  else cib_init 0 = Some (msg_queue th).

(** The buffer [m] is none of the slots of [th]. *)
Definition off_slots (n : Z) (th : thread_t) (m : Z) : Prop :=
  m <> 0 /\ (thread_has_msg_queue th = true -> forall i, 0 <= i < 2 ^ n -> m <> slot_addr th i).

Lemma slot_nonzero n th i : queue_ok n th -> thread_has_msg_queue th = true -> 0 <= i -> slot_addr th i <> 0.
Proof. unfold queue_ok. intros Hok Hq Hi. rewrite Hq in Hok. unfold slot_addr, SIZEOF_MSG_T. lia. Qed.

Lemma slot_inj th i j : slot_addr th i = slot_addr th j -> i = j.
Proof. unfold slot_addr, SIZEOF_MSG_T. lia. Qed.

Lemma msg_load_ok a k : a <> 0 -> msg_load a k = Ok (msg_at k a, k).
Proof. intros Ha. unfold msg_load. by rewrite (proj2 (Z.eqb_neq _ _) Ha). Qed.
Lemma msg_store_ok a v k : a <> 0 -> msg_store a v k = Ok (tt, with_msgs (insert a v) k).
Proof. intros Ha. unfold msg_store, mbind, cmd_bind, check. by rewrite (proj2 (Z.eqb_neq _ _) Ha). Qed.
Lemma thread_at_ok t th k : tcbs k !! t = Some th -> thread_at t k = Ok (th, k).
Proof. intros Ht. unfold thread_at. by rewrite Ht. Qed.
Lemma upd_thread_ok t f th k : tcbs k !! t = Some th -> upd_thread t f k = Ok (tt, put_thread t (f th) k).
Proof. intros Ht. unfold upd_thread, mbind, cmd_bind. by rewrite (thread_at_ok t th k Ht). Qed.

Lemma msg_at_store a v k b : msg_at (with_msgs (insert a v) k) b = if decide (a = b) then v else msg_at k b.
Proof.
  unfold msg_at. cbn. destruct (decide (a = b)) as [<-|Hne].
  - by rewrite lookup_insert_eq.
  - by rewrite lookup_insert_ne.
Qed.
Lemma msg_at_ext k k' a : msgs (objs k') = msgs (objs k) -> msg_at k' a = msg_at k a.
Proof. intros H. unfold msg_at. by rewrite H. Qed.

Lemma set_msg_queue_id th : set_msg_queue (msg_queue th) th = th.
Proof. by destruct th. Qed.

(** What delivering the message of a blocked sender leaves as it is. *)
Record delivered (w dst : Z) (v : msg_t) (k k' : kernel) : Prop := mkDelivered {
  d_msgs : msgs (objs k') = <[dst := v]> (msgs (objs k));
  d_tcbs : forall u, u <> w -> tcbs k' !! u = tcbs k !! u;
  d_queue : forall q, (forall p, q <> RunQueue p) -> queue k' q = queue k q;
  d_active : sched_active_thread k' = sched_active_thread k;
  d_irq : in_irq k' = in_irq k
}.

Lemma copy_runs w ths dst k :
  tcbs k !! w = Some ths -> on_runqueue (status ths) = false -> wait_data ths <> 0 -> dst <> 0 ->
  exists k' r, copy_from_sender w dst k = Ok (r, k') /\ (r = Return 1 \/ exists p, r = Switch p) /\
    delivered w dst (msg_at k (wait_data ths)) k k' /\
    (status ths <> STATUS_REPLY_BLOCKED -> option_map status (tcbs k' !! w) = Some STATUS_PENDING).
Proof.
  intros Hw Hs Hd Hdst. unfold copy_from_sender.
  rewrite (cmd_bind_Ok _ _ _ _ _ (thread_at_ok _ _ _ Hw)).
  rewrite (cmd_bind_Ok _ _ _ _ _ (msg_load_ok _ _ Hd)), (cmd_bind_Ok _ _ _ _ _ (msg_store_ok _ _ _ Hdst)).
  set (k1 := with_msgs _ k). case_decide as Hr.
  - set (th0 := set_wait_data 0 ths).
    rewrite (cmd_bind_Ok _ _ _ _ _ (upd_thread_ok w (set_wait_data 0) ths k1 Hw)).
    set (k2 := put_thread w _ k1).
    assert (tcbs k2 !! w = Some th0) as H2 by (subst k2; by rewrite tcbs_put, decide_True).
    rewrite (cmd_bind_Ok _ _ _ _ _ (set_status_push k2 w th0 STATUS_PENDING H2 eq_refl Hs)).
    eexists _, _. split; [reflexivity|]. split; [case_match; eauto|]. split; [split|].
    + done.
    + intros u Hu. rewrite tcbs_put, decide_False by done.
      change (tcbs (push_state w (priority th0) k2)) with (tcbs k2). subst k2. by rewrite tcbs_put, decide_False.
    + intros q Hq. change (queue (put_thread ?t ?x ?y)) with (queue y). unfold push_state.
      change (queue (set_bitcache ?b ?x)) with (queue x). by rewrite queue_set_ne.
    + done.
    + done.
    + intros _. by rewrite tcbs_put, decide_True.
  - eexists _, _. split; [reflexivity|]. split; [by left|]. split; [by split|]. intros Hc. by destruct Hr.
Qed.

(** ** Receiving *)

(** A call that returns [v], after a switch to another thread or at once. *)
Definition returns {A} (v : A) (p : kprog A) : Prop := p = Ret v \/ p = Yield (Ret v).

Lemma after_wake_returns {A} prio th k (v : A) :
  tcbs k !! sched_active_thread k = Some th -> on_runqueue (status th) = true -> in_irq k = false ->
  exists p, segment (sched_switch prio;; mret v) k = Ok (p, k) /\ returns v p.
Proof.
  intros Ht Hon Hirq. unfold mbind, kprog_bind. rewrite segment_bind, (sched_switch_runs prio k th Ht Hon Hirq).
  unfold after_wake. destruct (prio <? priority th); eexists; (split; [reflexivity|]); [by right|by left].
Qed.

Lemma receive_returns m block k k' r th :
  receive_section m block k = Ok (r, k') -> (r = Return 1 \/ exists p, r = Switch p) ->
  tcbs k' !! sched_active_thread k' = Some th -> on_runqueue (status th) = true -> in_irq k' = false ->
  exists p, segment (_msg_receive m block) k = Ok (p, k') /\ returns 1 p.
Proof.
  intros Hsec Hr Ht Hon Hirq. unfold _msg_receive. rewrite (segment_section _ _ _ r k' Hsec).
  destruct Hr as [->|[p ->]]; [exists (Ret 1); split; [done|by left]|]. by eapply after_wake_returns.
Qed.

Section Receive.
Variables (n me m : Z) (k : kernel) (th : thread_t).
Hypothesis Hgood : good me k.
Hypothesis Hme : tcbs k !! me = Some th.
Hypothesis Hok : queue_ok n th.
Hypothesis Hm : off_slots n th m.
(** The buffers of blocked senders are elsewhere. *)
Hypothesis Hsenders : forall w ths, w ∈ queue k (MsgWaiters me) -> tcbs k !! w = Some ths ->
  off_slots n th (wait_data ths) /\ wait_data ths <> m.
Hypothesis Hirq : in_irq k = false.

Lemma me_ready : on_runqueue (status th) = true.
Proof using Hgood Hme.
  destruct Hgood as (_ & Ha & th' & l & Ht & Hon & _). rewrite Ha, Hme in Ht. by injection Ht as <-.
Qed.

(** The sender at the head of the wait list. *)
Lemma sender_blocked w ws : queue k (MsgWaiters me) = w :: ws ->
  exists ths, tcbs k !! w = Some ths /\ on_runqueue (status ths) = false /\ w <> me /\
    off_slots n th (wait_data ths) /\ wait_data ths <> m.
Proof using Hgood Hme Hsenders.
  intros Hq. destruct Hgood as (Hi & _).
  assert (w ∈ queue k (MsgWaiters me)) as Hin by (rewrite Hq; left).
  destruct (w_member _ _ Hi _ w Hin) as (ths & Hw & Hst). cbn in Hst.
  assert (on_runqueue (status ths) = false) as Hon by (by destruct Hst as [-> | ->]).
  exists ths. split; [done|]. split; [done|]. split; [|by apply (Hsenders w)].
  intros ->. rewrite Hme in Hw. injection Hw as <-. by rewrite me_ready in Hon.
Qed.

(** The messages of the other senders are where they were. *)
Lemma waiting_rest w ws k' dst :
  queue k (MsgWaiters me) = w :: ws ->
  (forall a, a <> m -> a <> dst -> msg_at k' a = msg_at k a) ->
  (dst = m \/ exists i, 0 <= i < 2 ^ n /\ thread_has_msg_queue th = true /\ dst = slot_addr th i) ->
  (forall u, u <> w -> u <> me -> tcbs k' !! u = tcbs k !! u) ->
  map (waiting k') ws = map (waiting k) ws.
Proof using Hgood Hme Hsenders.
  intros Hq Hmsg Hdst Htc. apply map_ext_in. intros u Hu%list_elem_of_In.
  destruct Hgood as (Hi & _).
  assert (u ∈ queue k (MsgWaiters me)) as Hin by (rewrite Hq; by right).
  assert (u <> w) as Huw.
  { intros ->. pose proof (w_nodup _ _ Hi (MsgWaiters me)) as Hnd. rewrite Hq in Hnd. by apply NoDup_cons in Hnd as [? _]. }
  destruct (w_member _ _ Hi _ u Hin) as (thu & Htu & Hst). cbn in Hst.
  assert (u <> me) as Hum.
  { intros ->. rewrite Hme in Htu. injection Htu as <-. pose proof me_ready as Hon. by destruct Hst as [E|E]; rewrite E in Hon. }
  unfold waiting. rewrite Htc, Htu by done. destruct (Hsenders u thu Hin Htu) as [[_ Hoff] Hnm].
  apply Hmsg; [done|]. destruct Hdst as [->|(i & Hi' & Hq' & ->)]; [done|]. by apply Hoff.
Qed.

(** The section ends with the message [x] in the buffer and [rest] pending. *)
Definition takes (block : bool) (x : msg_t) (rest : list msg_t) : Prop :=
  exists k' r th', receive_section m block k = Ok (r, k') /\ (r = Return 1 \/ exists p, r = Switch p) /\
    tcbs k' !! me = Some th' /\ status th' = status th /\ sched_active_thread k' = me /\ in_irq k' = false /\
    msg_at k' m = x /\ pending n me k' = rest.

Lemma active_me : sched_active_thread k = me.
Proof using Hgood. apply Hgood. Qed.

(** The first steps of the section. *)
Lemma receive_starts block qi q :
  (if thread_has_msg_queue th then cib_get (msg_queue th) else (-1, msg_queue th)) = (qi, q) ->
  negb block && (match queue k (MsgWaiters me) with [] => true | _ => false end && (qi =? -1)) = false ->
  receive_section m block k =
    (( (if 0 <=? qi then v ← msg_load (msg_array th + SIZEOF_MSG_T * qi); msg_store m v
        else upd_thread me (set_wait_data m));;
      sender ← remove_head (MsgWaiters me);
      if negb (sender =? 0) then take_waiter me th q qi m sender
      else if qi <? 0 then sched_set_status me STATUS_RECEIVE_BLOCKED;; mret Block
      else mret (Return 1)) : kcmd receive_next) (put_thread me (set_msg_queue q th) k).
Proof using Hgood Hme.
  intros Hq Hb. unfold receive_section.
  rewrite (cmd_bind_Ok _ _ _ me k) by (unfold gets; by rewrite active_me).
  rewrite (cmd_bind_Ok _ _ _ _ _ (thread_at_ok _ _ _ Hme)), Hq.
  rewrite (cmd_bind_Ok _ _ _ _ _ (upd_thread_ok me (set_msg_queue q) th k Hme)).
  rewrite (cmd_bind_Ok _ _ _ (queue k (MsgWaiters me)) (put_thread me (set_msg_queue q th) k)) by done.
  by rewrite Hb.
Qed.

(** Taking the oldest message of the queue. *)
Lemma inbox_get x l : inbox n th k = x :: l ->
  exists i c, thread_has_msg_queue th = true /\ cib_get (msg_queue th) = (i, c) /\ 0 <= i < 2 ^ n /\ wf n c /\
    cib_avail c < 2 ^ n /\ slot_addr th i <> 0 /\ x = msg_at k (slot_addr th i) /\
    l = slots n c (fun i => msg_at k (slot_addr th i)).
Proof using Hok.
  unfold inbox, queue_ok in *. destruct (thread_has_msg_queue th) eqn:Hq; [|done]. intros Hin.
  destruct Hok as [Hwf Hpos]. pose proof (avail_range n _ Hwf) as Hr.
  assert (0 < cib_avail (msg_queue th)) as Hav.
  { destruct (decide (cib_avail (msg_queue th) = 0)) as [E|]; [|lia].
    eapply slots_empty in E; [|done]. by rewrite E in Hin. }
  destruct (slots_get n _ Hwf (fun i => msg_at k (slot_addr th i)) Hav) as (i & c & Hget & Hi & Hwf' & Hav' & Hs).
  rewrite Hs in Hin. injection Hin as Hx Hl. exists i, c.
  split_and!; try done; try lia. unfold slot_addr, SIZEOF_MSG_T. lia.
Qed.

(** The state in which the wait list is looked at, after a queued message went to [m]. *)
Lemma receive_queued block i c x :
  thread_has_msg_queue th = true -> cib_get (msg_queue th) = (i, c) -> 0 <= i -> slot_addr th i <> 0 ->
  x = msg_at k (slot_addr th i) ->
  receive_section m block k =
    ((sender ← remove_head (MsgWaiters me);
      if negb (sender =? 0) then take_waiter me th c i m sender else mret (Return 1)) : kcmd receive_next)
    (with_msgs (insert m x) (put_thread me (set_msg_queue c th) k)).
Proof using Hgood Hme Hm.
  intros Hq Hget Hi Hnz Hx. destruct Hm as [Hm0 _].
  rewrite (receive_starts block i c); [|by rewrite Hq|]; last first.
  { rewrite (proj2 (Z.eqb_neq i (-1))) by lia. by rewrite !andb_false_r. }
  rewrite (proj2 (Z.leb_le 0 i)), (proj2 (Z.ltb_ge i 0)) by lia.
  rewrite (cmd_bind_Ok _ _ _ tt (with_msgs (insert m x) (put_thread me (set_msg_queue c th) k))); [done|].
  rewrite (cmd_bind_Ok _ _ _ _ _ (msg_load_ok _ _ Hnz)). rewrite msg_store_ok by done. by rewrite Hx.
Qed.

Lemma receive_from_queue block x l :
  inbox n th k = x :: l -> queue k (MsgWaiters me) = [] -> takes block x l.
Proof using Hgood Hme Hok Hm Hirq.
  intros Hin Hws. destruct (inbox_get x l Hin) as (i & c & Hq & Hget & Hi & Hwf & _ & Hnz & Hx & Hl).
  destruct Hm as [Hm0 Hoff]. specialize (Hoff Hq).
  set (k1 := put_thread me (set_msg_queue c th) k).
  exists (with_msgs (insert m x) k1), (Return 1), (set_msg_queue c th).
  assert (tcbs (with_msgs (insert m x) k1) !! me = Some (set_msg_queue c th)) as Ht1
    by (subst k1; change (tcbs (with_msgs ?f ?y)) with (tcbs y); by rewrite tcbs_put, decide_True).
  split_and!; try done; try apply active_me; [|by left| |].
  - rewrite (receive_queued block i c x) by (done || lia).
    rewrite (cmd_bind_Ok _ _ _ 0 (with_msgs (insert m x) k1)); [done|].
    unfold remove_head. change (queue (with_msgs ?f ?k1)) with (queue k). by rewrite Hws.
  - rewrite msg_at_store, decide_True by done. done.
  - unfold pending. rewrite Ht1. change (queue (with_msgs ?f k1)) with (queue k). rewrite Hws. cbn [map]. rewrite app_nil_r.
    unfold inbox. change (thread_has_msg_queue (set_msg_queue c th)) with (thread_has_msg_queue th). rewrite Hq, Hl.
    apply slots_ext; [apply Hwf|]. intros j Hj. rewrite msg_at_store, decide_False by (by apply Hoff). done.
Qed.

(** A queued message goes to the caller and the first sender's to the free slot. *)
Lemma receive_refill block x l w ws :
  inbox n th k = x :: l -> queue k (MsgWaiters me) = w :: ws ->
  takes block x (l ++ map (waiting k) (w :: ws)).
Proof using Hgood Hme Hok Hm Hsenders Hirq.
  intros Hin Hws. destruct (inbox_get x l Hin) as (i & c & Hq & Hget & Hi & Hwf & Hroom & Hnz & Hx & Hl).
  destruct (sender_blocked w ws Hws) as (ths & Hw & Hst & Hne & [Hd0 Hdoff] & Hdm). specialize (Hdoff Hq).
  pose proof Hm as [Hm0 Hoff]. specialize (Hoff Hq).
  set (k2 := with_msgs (insert m x) (put_thread me (set_msg_queue c th) k)).
  set (f := fun j => msg_at k (slot_addr th j)). set (v := msg_at k (wait_data ths)).
  destruct (slots_put n c Hwf f (fun j => if j =? fst (cib_put c) then v else f j) v Hroom)
    as (j & c' & Hput & Hj & Hwf' & Hs).
  set (k4 := put_thread me (set_msg_queue c' (set_msg_queue c th)) (set_queue (MsgWaiters me) ws k2)).
  assert (tcbs k4 !! w = Some ths) as Hw4.
  { subst k4 k2. rewrite tcbs_put, decide_False by done. cbn. by rewrite lookup_insert_ne. }
  assert (slot_addr th j <> 0) as Hjz by (eapply slot_nonzero; [done|done|lia]).
  destruct (copy_runs w ths (slot_addr th j) k4 Hw4 Hst Hd0 Hjz) as (k' & r & Hcopy & Hr & [D1 D2 D3 D4 D5] & _).
  assert (msg_at k4 (wait_data ths) = v) as Hv.
  { change (msg_at k4) with (msg_at (with_msgs (insert m x) k)). rewrite msg_at_store, decide_False by done. done. }
  rewrite Hv in D1.
  assert (forall a, msg_at k' a = if decide (slot_addr th j = a) then v else if decide (m = a) then x else msg_at k a) as Hat.
  { intros a. rewrite (msg_at_ext (with_msgs (insert (slot_addr th j) v) (with_msgs (insert m x) k)) k' a) by exact D1.
    by rewrite !msg_at_store. }
  assert (tcbs k' !! me = Some (set_msg_queue c' (set_msg_queue c th))) as Hme'.
  { rewrite D2 by done. subst k4. by rewrite tcbs_put, decide_True. }
  exists k', r, (set_msg_queue c' (set_msg_queue c th)). split_and!; try done.
  - rewrite (receive_queued block i c x) by (done || lia).
    rewrite (cmd_bind_Ok _ _ _ w (set_queue (MsgWaiters me) ws k2)); last first.
    { unfold remove_head. change (queue (with_msgs ?g ?y)) with (queue k). by rewrite Hws. }
    rewrite (proj2 (Z.eqb_neq w 0)) by (by eapply inv_nonnull; [apply Hgood|]). cbn [negb].
    unfold take_waiter. rewrite (proj2 (Z.leb_le 0 i)), Hput by lia. cbn [fst snd].
    rewrite (cmd_bind_Ok _ _ _ tt k4); [exact Hcopy|]. apply upd_thread_ok.
    subst k2. cbn. by rewrite lookup_insert_eq.
  - rewrite D4. apply active_me.
  - by rewrite D5.
  - rewrite Hat, decide_False, decide_True by (done || (intros E; by apply (Hoff j))). done.
  - unfold pending. rewrite Hme'. rewrite D3 by done.
    change (queue k4) with (queue (set_queue (MsgWaiters me) ws k)). rewrite queue_set_eq.
    rewrite (waiting_rest w ws k' (slot_addr th j) Hws).
    + cbn [map]. unfold waiting at 2. rewrite Hw. fold v. rewrite (cons_middle v), app_assoc. f_equal.
      unfold inbox. change (thread_has_msg_queue (set_msg_queue c' (set_msg_queue c th))) with (thread_has_msg_queue th).
      rewrite Hq, Hl. fold f. rewrite <- Hs.
      * apply slots_ext; [apply Hwf|]. intros a Ha. rewrite Hat, Hput. cbn [fst].
        change (slot_addr (set_msg_queue c' (set_msg_queue c th)) a) with (slot_addr th a).
        destruct (Z.eqb_spec a j) as [->|Hne']; [by rewrite decide_True|].
        rewrite decide_False by (intros E; by apply slot_inj in E). rewrite decide_False by (by apply Hoff). done.
      * rewrite Hput. cbn [fst]. by rewrite Z.eqb_refl.
      * intros a Ha Hne'. rewrite Hput. cbn [fst]. by rewrite (proj2 (Z.eqb_neq a j)).
    + intros a Ha1 Ha2. by rewrite Hat, !decide_False.
    + right. exists j. done.
    + intros u Hu1 Hu2. rewrite D2 by done. subst k4 k2. rewrite tcbs_put, decide_False by done. cbn. by rewrite lookup_insert_ne.
Qed.

(** Without a queued message the queue is left as it is. *)
Lemma inbox_none : inbox n th k = [] ->
  (if thread_has_msg_queue th then cib_get (msg_queue th) else (-1, msg_queue th)) = (-1, msg_queue th).
Proof using Hok.
  unfold inbox, queue_ok in *. destruct (thread_has_msg_queue th); [|done]. destruct Hok as [Hwf _].
  intros E%slots_empty; [|done]. by apply get_empty.
Qed.

Lemma inbox_with th' k' : msg_queue th' = msg_queue th -> msg_array th' = msg_array th ->
  inbox n th k = [] -> inbox n th' k' = [].
Proof using Hok.
  unfold inbox, queue_ok, thread_has_msg_queue in *. intros -> ->. destruct (negb _); [|done].
  destruct Hok as [Hwf _]. by rewrite !slots_empty.
Qed.

(** The first sender's message goes to the caller. *)
Lemma receive_from_sender block w ws :
  inbox n th k = [] -> queue k (MsgWaiters me) = w :: ws ->
  takes block (waiting k w) (map (waiting k) ws).
Proof using Hgood Hme Hok Hm Hsenders Hirq.
  intros Hin Hws. destruct (sender_blocked w ws Hws) as (ths & Hw & Hst & Hne & [Hd0 _] & Hdm).
  pose proof Hm as [Hm0 _].
  set (k2 := put_thread me (set_wait_data m th) (put_thread me (set_msg_queue (msg_queue th) th) k)).
  set (k3 := set_queue (MsgWaiters me) ws k2).
  assert (forall u, u <> me -> tcbs k3 !! u = tcbs k !! u) as Htc.
  { intros u Hu. subst k3 k2. cbn. by rewrite !lookup_insert_ne. }
  assert (tcbs k3 !! w = Some ths) as Hw3 by (by rewrite Htc).
  destruct (copy_runs w ths m k3 Hw3 Hst Hd0 Hm0) as (k' & r & Hcopy & Hr & [D1 D2 D3 D4 D5] & _).
  change (msg_at k3) with (msg_at k) in D1. assert (waiting k w = msg_at k (wait_data ths)) as Hv by (unfold waiting; by rewrite Hw).
  assert (forall a, msg_at k' a = if decide (m = a) then waiting k w else msg_at k a) as Hat.
  { intros a. rewrite (msg_at_ext (with_msgs (insert m (waiting k w)) k) k' a) by (rewrite Hv; exact D1).
    by rewrite msg_at_store. }
  assert (tcbs k' !! me = Some (set_wait_data m th)) as Hme'.
  { rewrite D2 by done. subst k3 k2. cbn. by rewrite lookup_insert_eq. }
  exists k', r, (set_wait_data m th). split_and!; try done.
  - rewrite (receive_starts block (-1) (msg_queue th) (inbox_none Hin)) by (rewrite Hws; by rewrite andb_false_r).
    cbn [Z.leb Z.compare]. rewrite (cmd_bind_Ok _ _ _ tt k2).
    + rewrite (cmd_bind_Ok _ _ _ w k3).
      * rewrite (proj2 (Z.eqb_neq w 0)) by (by eapply inv_nonnull; [apply Hgood|]). exact Hcopy.
      * unfold remove_head. change (queue k2) with (queue k). by rewrite Hws.
    + rewrite (upd_thread_ok _ _ (set_msg_queue (msg_queue th) th)) by (cbn; by rewrite lookup_insert_eq).
      done.
  - rewrite D4. apply active_me.
  - by rewrite D5.
  - by rewrite Hat, decide_True.
  - unfold pending. rewrite Hme'. rewrite D3 by done. change (queue k3) with (queue (set_queue (MsgWaiters me) ws k)).
    rewrite queue_set_eq. rewrite (inbox_with _ k') by done. cbn [app]. eapply (waiting_rest w ws k' m Hws).
    + intros a Ha _. by rewrite Hat, decide_False.
    + by left.
    + intros u Hu1 Hu2. rewrite D2 by done. by apply Htc.
Qed.

(** With nothing pending a receive without blocking fails and a blocking one parks
    the caller, whose [wait_data] is the buffer. *)
Lemma receive_nothing : inbox n th k = [] -> queue k (MsgWaiters me) = [] ->
  segment (msg_try_receive m) k = Ok (Ret (-1), k) /\
  exists k' p th', segment (msg_receive m) k = Ok (Yield p, k') /\ tcbs k' !! me = Some th' /\
    status th' = STATUS_RECEIVE_BLOCKED /\ wait_data th' = m /\ pending n me k' = [].
Proof using Hgood Hme Hok Hsenders Hirq.
  intros Hin Hws. pose proof active_me as Ha. split.
  - unfold msg_try_receive, _msg_receive. rewrite (segment_section _ _ _ (Return (-1)) k); [done|].
    unfold receive_section. rewrite (cmd_bind_Ok _ _ _ me k) by (unfold gets; by rewrite Ha).
    rewrite (cmd_bind_Ok _ _ _ _ _ (thread_at_ok _ _ _ Hme)), (inbox_none Hin).
    rewrite (cmd_bind_Ok _ _ _ _ _ (upd_thread_ok me _ th k Hme)), set_msg_queue_id.
    assert (put_thread me th k = k) as ->.
    { unfold put_thread, with_tcbs. rewrite insert_id by done. by destruct k. }
    rewrite (cmd_bind_Ok _ _ _ [] k) by (unfold gets; by rewrite Hws). done.
  - set (k2 := put_thread me (set_wait_data m th) (put_thread me (set_msg_queue (msg_queue th) th) k)).
    assert (tcbs k2 !! me = Some (set_wait_data m th)) as Ht2 by (subst k2; by rewrite tcbs_put, decide_True).
    pose proof (set_status_pop k2 me _ STATUS_RECEIVE_BLOCKED Ht2 eq_refl me_ready) as Hset.
    set (k3 := put_thread me _ (pop_state _ _)) in Hset.
    exists k3. eexists _, (set_status STATUS_RECEIVE_BLOCKED (set_wait_data m th)).
    assert (tcbs k3 !! me = Some (set_status STATUS_RECEIVE_BLOCKED (set_wait_data m th))) as Ht3
      by (subst k3; by rewrite tcbs_put, decide_True).
    split; [|split_and!; try done].
    + unfold msg_receive, _msg_receive. rewrite (segment_section _ _ _ Block k3); [reflexivity|].
      rewrite (receive_starts true (-1) (msg_queue th) (inbox_none Hin)) by done. cbn [Z.leb Z.compare].
      rewrite (cmd_bind_Ok _ _ _ tt k2); last first.
      { rewrite (upd_thread_ok _ _ (set_msg_queue (msg_queue th) th)) by (cbn; by rewrite lookup_insert_eq).
        done. }
      rewrite (cmd_bind_Ok _ _ _ 0 k2) by (unfold remove_head; change (queue k2) with (queue k); by rewrite Hws).
      cbn [Z.eqb negb Z.ltb Z.compare]. by rewrite (cmd_bind_Ok _ _ _ tt k3).
    + unfold pending. rewrite Ht3. rewrite (inbox_with _ k3) by done.
      subst k3. change (queue (put_thread ?t ?x ?y)) with (queue y). rewrite queue_pop_other by done.
      change (queue k2) with (queue k). by rewrite Hws.
Qed.
End Receive.

(** C13: The messages that wait for a thread, in its queue and with blocked senders, are
    one queue: [msg_receive] and [msg_try_receive] copy the first of them to the
    caller's buffer and leave exactly the others in their order, refilling the freed
    slot from the first blocked sender; when there is none, [msg_try_receive] returns
    -1 and changes nothing, and [msg_receive] parks the caller as receive-blocked
    with its buffer registered. *)
Theorem receive_refines n me m k th :
  good me k -> tcbs k !! me = Some th -> in_irq k = false -> queue_ok n th -> off_slots n th m ->
  (forall w ths, w ∈ queue k (MsgWaiters me) -> tcbs k !! w = Some ths ->
     off_slots n th (wait_data ths) /\ wait_data ths <> m) ->
  match pending n me k with
  | [] =>
      segment (msg_try_receive m) k = Ok (Ret (-1), k) /\
      exists k' p th', segment (msg_receive m) k = Ok (Yield p, k') /\ tcbs k' !! me = Some th' /\
        status th' = STATUS_RECEIVE_BLOCKED /\ wait_data th' = m /\ pending n me k' = []
  | x :: rest => forall block, exists k' p,
      segment (_msg_receive m block) k = Ok (p, k') /\ returns 1 p /\
      msg_at k' m = x /\ pending n me k' = rest
  end.
Proof.
  intros Hg Hme Hirq Hok Hm Hs. unfold pending at 1. rewrite Hme.
  destruct (inbox n th k ++ map (waiting k) (queue k (MsgWaiters me))) as [|x rest] eqn:E.
  { apply app_nil in E as [E1 E2]. apply map_eq_nil in E2. by apply (receive_nothing n me m k th). }
  intros block. assert (takes n me m k th block x rest) as (k' & r & th' & Hsec & Hr & Ht' & Hst & Ha & Hi' & Hx & Hp).
  { destruct (inbox n th k) as [|y l] eqn:Hin.
    - cbn in E. destruct (queue k (MsgWaiters me)) as [|w ws] eqn:Hq; [done|]. injection E as <- <-.
      rewrite <- Hq in Hs. by apply receive_from_sender.
    - cbn in E. injection E as <- <-. destruct (queue k (MsgWaiters me)) as [|w ws] eqn:Hq.
      + cbn. rewrite app_nil_r. rewrite <- Hq in Hs. by apply receive_from_queue.
      + rewrite <- Hq in Hs. by apply receive_refill. }
  destruct (receive_returns m block k k' r th' Hsec Hr) as (p & Hseg & Hret); [by rewrite Ha| |done|].
  { rewrite Hst. by apply (me_ready me k th). }
  by exists k', p.
Qed.

(** ** Sending *)

Definition has_room (n : Z) (th : thread_t) : bool :=
  thread_has_msg_queue th && (cib_avail (msg_queue th) <? 2 ^ n).

(** What happens to the thread [t] and its queue when flags are set and it may be
    woken; messages and wait lists stay. *)
Record notified (t : Z) (k k' : kernel) : Prop := mkNotified {
  n_objs : objs k' = objs k;
  n_tcbs : forall u, u <> t -> tcbs k' !! u = tcbs k !! u;
  n_queue : forall q, (forall p, q <> RunQueue p) -> queue k' q = queue k q;
  n_active : sched_active_thread k' = sched_active_thread k;
  n_irq : in_irq k' = in_irq k;
  n_target : forall th, tcbs k !! t = Some th -> exists th', tcbs k' !! t = Some th' /\
    msg_queue th' = msg_queue th /\ msg_array th' = msg_array th
}.

Lemma notify_runs t th k : tcbs k !! t = Some th ->
  exists b k', (upd_thread t (fun t => set_flags (Z.lor (flags t) THREAD_FLAG_MSG_WAITING) t);;
                thread_flags_wake t) k = Ok (b, k') /\ notified t k k'.
Proof.
  intros Ht. rewrite (cmd_bind_Ok _ _ _ _ _ (upd_thread_ok _ _ _ _ Ht)).
  set (th1 := set_flags _ th). set (k1 := put_thread t th1 k).
  assert (tcbs k1 !! t = Some th1) as Ht1 by (subst k1; by rewrite tcbs_put, decide_True).
  unfold thread_flags_wake, _thread_flags_wake. rewrite (cmd_bind_Ok _ _ _ _ _ (thread_at_ok _ _ _ Ht1)).
  destruct (flags_wakeup th1) eqn:Hf.
  - assert (on_runqueue (status th1) = false) as Hon by (unfold flags_wakeup in Hf; by destruct (status th1)).
    rewrite (cmd_bind_Ok _ _ _ _ _ (set_status_push k1 t th1 STATUS_PENDING Ht1 eq_refl Hon)).
    eexists _, _. split; [reflexivity|]. split; try done.
    + intros u Hu. cbn. by rewrite !lookup_insert_ne.
    + intros q Hq. unfold push_state. change (queue (set_request true ?y)) with (queue y).
      change (queue (put_thread ?a ?b ?y)) with (queue y). change (queue (set_bitcache ?b ?y)) with (queue y).
      by rewrite queue_set_ne.
    + intros th0 Ht0. rewrite Ht in Ht0. injection Ht0 as <-. eexists.
      split; [cbn; by rewrite lookup_insert_eq|done].
  - eexists _, _. split; [reflexivity|]. split; try done.
    + intros u Hu. subst k1. by rewrite tcbs_put, decide_False.
    + intros th0 Ht0. rewrite Ht in Ht0. injection Ht0 as <-. by exists th1.
Qed.

Lemma yield_return_returns (r : Z * bool) k' :
  exists p, segment (yield_return r) k' = Ok (p, k') /\ returns (fst r) p.
Proof.
  destruct r as [v []]; eexists; (split; [reflexivity|]); [by right|by left].
Qed.

Section Send.
Variables (n me t pid_t m : Z) (k : kernel) (th tht : thread_t).
Hypothesis Hgood : good me k.
Hypothesis Hme : tcbs k !! me = Some th.
Hypothesis Hirq : in_irq k = false.
Hypothesis Hpid : sched_threads k !! pid_t = Some t.
Hypothesis Hother : pid_t <> sched_active_pid k.
Hypothesis Ht : tcbs k !! t = Some tht.
Hypothesis Hok : queue_ok n tht.
Hypothesis Hm : off_slots n tht m.

(** The message as it is sent. *)
Definition outgoing : msg_t := mkMsg (sched_active_pid k) (type_ (msg_at k m)) (content (msg_at k m)).

Lemma me_not_target : me <> t.
Proof using All.
  intros ->. destruct Hgood as (Hi & Ha & _). rewrite Hme in Ht. injection Ht as <-.
  destruct (w_threads _ _ Hi _ _ Hpid) as (_ & th' & Ht' & Hp). rewrite Hme in Ht'. injection Ht' as <-.
  destruct (w_active _ _ Hi) as [Hz|(th' & Ht' & Hp')].
  - rewrite Ha in Hz. by apply (inv_nonnull _ _ _ Hi Hme).
  - rewrite Ha, Hme in Ht'. injection Ht' as <-. congruence.
Qed.

Lemma send_me_ready : on_runqueue (status th) = true.
Proof using All. by apply (me_ready me k th). Qed.

(** Up to the test of the target's state. *)
Lemma send_starts block k' r :
  send_to m t block (with_msgs (insert m outgoing) k) = Ok (r, k') ->
  segment (msg_dispatch m pid_t block) k = segment (yield_return r) k'.
Proof using All.
  intros Hs. unfold msg_dispatch. rewrite (segment_section _ _ _ false k) by (unfold gets; by rewrite Hirq).
  rewrite (segment_section _ _ _ (sched_active_pid k) k) by done.
  rewrite (proj2 (Z.eqb_neq _ _)) by congruence. unfold _msg_send. apply segment_section.
  destruct Hgood as (Hi & _). destruct (w_threads _ _ Hi _ _ Hpid) as (Hr & th' & Ht' & _).
  unfold send_section, thread_get_unchecked. rewrite (cmd_bind_Ok _ _ _ t k); last first.
  { unfold KERNEL_PID_FIRST, KERNEL_PID_UNDEF in Hr.
    rewrite (proj2 (Z.leb_le 0 pid_t)), (proj2 (Z.leb_le pid_t _)) by lia. by rewrite Hpid. }
  rewrite (cmd_bind_Ok _ _ _ (sched_active_pid k) k) by done.
  rewrite (cmd_bind_Ok _ _ _ tt (with_msgs (insert m outgoing) k)); last first.
  { unfold set_sender. rewrite (cmd_bind_Ok _ _ _ _ _ (msg_load_ok _ _ (proj1 Hm))). by rewrite msg_store_ok by apply Hm. }
  by rewrite (proj2 (Z.eqb_neq t 0)) by (by eapply inv_nonnull).
Qed.

(** A receiver that waits gets the message and becomes ready. *)
Lemma send_direct block :
  status tht = STATUS_RECEIVE_BLOCKED -> wait_data tht <> 0 ->
  exists k', segment (msg_dispatch m pid_t block) k = Ok (Yield (Ret 1), k') /\
    msg_at k' (wait_data tht) = outgoing /\ readied t k k'.
Proof using All.
  intros Hst Hw. set (k1 := with_msgs (insert m outgoing) k).
  set (k2 := with_msgs (insert (wait_data tht) outgoing) k1).
  set (k3 := put_thread t (set_status STATUS_PENDING tht) (push_state t (priority tht) k2)). exists k3. split_and!.
  - rewrite (send_starts block k3 (1, true)); [done|]. unfold send_to.
    rewrite (cmd_bind_Ok _ _ _ (sched_active_thread k) _) by done.
    rewrite (cmd_bind_Ok _ _ _ tht _) by (by apply thread_at_ok). rewrite decide_False by (by intros []).
    rewrite (cmd_bind_Ok _ _ _ _ _ (msg_load_ok _ _ (proj1 Hm))). rewrite msg_at_store, decide_True by done.
    rewrite (cmd_bind_Ok _ _ _ _ _ (msg_store_ok _ _ _ Hw)). fold k1. fold k2.
    rewrite (cmd_bind_Ok _ _ _ _ _ (set_status_push k2 t tht STATUS_PENDING Ht eq_refl ltac:(by rewrite Hst))).
    done.
  - change (msg_at k3) with (msg_at k2). subst k2. by rewrite msg_at_store, decide_True.
  - exists tht. split; [done|]. split; [done|]. subst k3. unfold push_state.
    change (queue (put_thread ?a ?b ?y)) with (queue y). change (queue (set_bitcache ?b ?y)) with (queue y).
    by rewrite queue_set_eq.
Qed.

(** [queue_msg] with a free slot appends the message. *)
Lemma queue_msg_runs k1 :
  tcbs k1 !! t = Some tht -> has_room n tht = true ->
  exists k' tht', queue_msg t m k1 = Ok (1, k') /\ tcbs k' !! t = Some tht' /\
    inbox n tht' k' = inbox n tht k1 ++ [msg_at k1 m] /\
    (forall u, u <> t -> tcbs k' !! u = tcbs k1 !! u) /\
    (forall q, (forall p, q <> RunQueue p) -> queue k' q = queue k1 q).
Proof using All.
  intros Ht1 [Hq Hlt%Z.ltb_lt]%andb_true_iff. pose proof Hok as Hok'. unfold queue_ok in Hok'. rewrite Hq in Hok'.
  destruct Hok' as [Hwf Hpos]. set (f := fun j => msg_at k1 (slot_addr tht j)). set (v := msg_at k1 m).
  destruct (slots_put n _ Hwf f (fun j => if j =? fst (cib_put (msg_queue tht)) then v else f j) v Hlt)
    as (j & c & Hput & Hj & Hwf' & Hs).
  set (tht1 := set_msg_queue c tht).
  set (k2 := with_msgs (insert (slot_addr tht j) v) (put_thread t tht1 k1)).
  assert (tcbs k2 !! t = Some tht1) as Ht2 by (subst k2; cbn; by rewrite lookup_insert_eq).
  destruct (notify_runs t tht1 k2 Ht2) as (b & k' & Hnot & [N1 N2 N3 N4 N5 N6]).
  destruct (N6 _ Ht2) as (tht' & Ht' & Hmq & Hma). exists k', tht'. split_and!; [|done| | |].
  - unfold queue_msg. rewrite (cmd_bind_Ok _ _ _ _ _ (thread_at_ok _ _ _ Ht1)), Hput.
    rewrite (proj2 (Z.ltb_ge j 0)) by lia.
    rewrite (cmd_bind_Ok _ _ _ _ _ (upd_thread_ok _ _ _ _ Ht1)). fold tht1.
    rewrite (cmd_bind_Ok _ _ _ _ _ (msg_load_ok _ _ (proj1 Hm))).
    assert (slot_addr tht j <> 0) as Hnz by (eapply slot_nonzero; [done|done|lia]).
    rewrite (cmd_bind_Ok _ _ _ _ _ (msg_store_ok _ _ _ Hnz)). fold k2.
    rewrite <- cmd_bind_assoc. by rewrite (cmd_bind_Ok _ _ _ _ _ Hnot).
  - unfold inbox, thread_has_msg_queue. rewrite Hmq, Hma. cbn [msg_queue msg_array set_msg_queue tht1].
    change (negb (msg_array tht =? 0)) with (thread_has_msg_queue tht). rewrite Hq. fold f. rewrite <- Hs.
    + apply slots_ext; [apply Hwf|]. intros a Ha. unfold slot_addr. rewrite Hma. rewrite Hput. cbn [fst].
      rewrite (msg_at_ext k2 k') by (by rewrite N1). subst k2. rewrite msg_at_store.
      destruct (Z.eqb_spec a j) as [->|Hne]; [by rewrite decide_True|].
      rewrite decide_False; [done|]. intros E. apply Hne. symmetry. by apply (slot_inj tht).
    + rewrite Hput. cbn [fst]. by rewrite Z.eqb_refl.
    + intros a Ha Hne. rewrite Hput. cbn [fst]. by rewrite (proj2 (Z.eqb_neq a j)).
  - intros u Hu. rewrite N2 by done. subst k2. cbn. by rewrite lookup_insert_ne.
  - intros q Hq'. by rewrite N3.
Qed.

Lemma queue_msg_full k1 : tcbs k1 !! t = Some tht -> has_room n tht = false -> queue_msg t m k1 = Ok (0, k1).
Proof using All.
  intros Ht1 Hr. unfold queue_msg. rewrite (cmd_bind_Ok _ _ _ _ _ (thread_at_ok _ _ _ Ht1)).
  assert (cib_put (msg_queue tht) = (-1, msg_queue tht)) as ->; [|done].
  unfold has_room in Hr. pose proof Hok as Hok'. unfold queue_ok in Hok'. destruct (thread_has_msg_queue tht).
  - destruct Hok' as [Hwf _]. apply (put_full n _ Hwf). pose proof (avail_range n _ Hwf).
    cbn in Hr. apply Z.ltb_ge in Hr. lia.
  - injection Hok' as <-. done.
Qed.

(** The slots of the target do not depend on the caller's buffer. *)
Lemma inbox_outgoing : inbox n tht (with_msgs (insert m outgoing) k) = inbox n tht k.
Proof using All.
  unfold inbox, queue_ok in *. destruct (thread_has_msg_queue tht) eqn:Hq; [|done]. destruct Hok as [Hwf _].
  apply slots_ext; [apply Hwf|]. intros a Ha. rewrite msg_at_store, decide_False; [done|]. by apply Hm.
Qed.

Lemma send_to_busy block :
  status tht <> STATUS_RECEIVE_BLOCKED ->
  send_to m t block (with_msgs (insert m outgoing) k) =
    ((queued ← queue_msg t m;
      if negb (queued =? 0) then
        i ← thread_at me;
        request ← gets sched_context_switch_request;
        mret (1, bool_decide (status i = STATUS_REPLY_BLOCKED) || request)
      else if negb block then mret (0, false)
      else
        upd_thread me (set_wait_data m);;
        i ← thread_at me;
        sched_set_status me
          (if decide (status i = STATUS_REPLY_BLOCKED) then STATUS_REPLY_BLOCKED else STATUS_SEND_BLOCKED);;
        thread_add_to_list (MsgWaiters t) me;;
        upd_thread t (fun t => set_flags (Z.lor (flags t) THREAD_FLAG_MSG_WAITING) t);;
        thread_flags_wake t;;
        mret (1, true)) : kcmd (Z * bool)) (with_msgs (insert m outgoing) k).
Proof using All.
  intros Hst. unfold send_to. rewrite (cmd_bind_Ok _ _ _ me _) by (unfold gets; cbn; by rewrite (active_me me k Hgood)).
  rewrite (cmd_bind_Ok _ _ _ tht _) by (by apply thread_at_ok). by rewrite decide_True.
Qed.

(** A free slot takes the message. *)
Lemma send_queued block :
  status tht <> STATUS_RECEIVE_BLOCKED -> has_room n tht = true ->
  exists k' p tht', segment (msg_dispatch m pid_t block) k = Ok (p, k') /\ returns 1 p /\
    tcbs k' !! t = Some tht' /\ inbox n tht' k' = inbox n tht k ++ [outgoing] /\
    queue k' (MsgWaiters t) = queue k (MsgWaiters t).
Proof using All.
  intros Hst Hr. set (k1 := with_msgs (insert m outgoing) k).
  destruct (queue_msg_runs k1 Ht Hr) as (k' & tht' & Hqm & Ht' & Hin & Htc & Hqs).
  assert (tcbs k' !! me = Some th) as Hme' by (rewrite Htc; [done|apply me_not_target]).
  set (r := (1, bool_decide (status th = STATUS_REPLY_BLOCKED) || sched_context_switch_request k')).
  destruct (yield_return_returns r k') as (p & Hp & Hret). exists k', p, tht'. split_and!; try done.
  - rewrite (send_starts block k' r); [done|]. rewrite send_to_busy by done.
    rewrite (cmd_bind_Ok _ _ _ _ _ Hqm). cbn [Z.eqb negb].
    rewrite (cmd_bind_Ok _ _ _ _ _ (thread_at_ok _ _ _ Hme')). done.
  - rewrite Hin. subst k1. by rewrite inbox_outgoing, msg_at_store, decide_True.
  - by rewrite Hqs.
Qed.

(** Without blocking a full queue refuses the message. *)
Lemma send_refused :
  status tht <> STATUS_RECEIVE_BLOCKED -> has_room n tht = false ->
  exists k', segment (msg_try_send m pid_t) k = Ok (Ret 0, k') /\ tcbs k' = tcbs k /\
    queues k' = queues k /\ inbox n tht k' = inbox n tht k.
Proof using All.
  intros Hst Hr. exists (with_msgs (insert m outgoing) k). split_and!; [|done|done|apply inbox_outgoing].
  unfold msg_try_send. rewrite (send_starts false (with_msgs (insert m outgoing) k) (0, false)); [done|].
  rewrite send_to_busy by done. by rewrite (cmd_bind_Ok _ _ _ _ _ (queue_msg_full (with_msgs (insert m outgoing) k) Ht Hr)).
Qed.

(** Otherwise the sender waits in line with its message. *)
Lemma send_waits :
  status tht <> STATUS_RECEIVE_BLOCKED -> has_room n tht = false ->
  StronglySorted (urgency (prio_of k)) (queue k (MsgWaiters t)) ->
  exists k' th' tht', segment (msg_send m pid_t) k = Ok (Yield (Ret 1), k') /\
    tcbs k' !! me = Some th' /\ status th' = STATUS_SEND_BLOCKED /\ wait_data th' = m /\
    msg_at k' m = outgoing /\ queue k' (MsgWaiters t) = enqueue (prio_of k) me (queue k (MsgWaiters t)) /\
    tcbs k' !! t = Some tht' /\ inbox n tht' k' = inbox n tht k.
Proof using All.
  intros Hst Hr Hs. set (k1 := with_msgs (insert m outgoing) k). set (th1 := set_wait_data m th).
  set (k2 := put_thread me th1 k1). set (th2 := set_status STATUS_SEND_BLOCKED th1).
  assert (tcbs k2 !! me = Some th1) as H2 by (subst k2; by rewrite tcbs_put, decide_True).
  pose proof (set_status_pop k2 me th1 STATUS_SEND_BLOCKED H2 eq_refl send_me_ready) as Hset. fold th2 in Hset.
  set (k3 := put_thread me th2 _) in Hset.
  assert (tcbs k3 = <[me := th2]> (tcbs k)) as Htc3.
  { subst k3. unfold put_thread at 1, with_tcbs. cbn [tcbs]. rewrite tcbs_pop. apply insert_insert_eq. }
  assert (queue k3 (MsgWaiters t) = queue k (MsgWaiters t)) as Hq3.
  { subst k3. change (queue (put_thread ?a ?b ?y)) with (queue y). by rewrite queue_pop_other. }
  assert (forall u, prio_of k3 u = prio_of k u) as Hpr.
  { intros u. unfold prio_of. rewrite Htc3. destruct (decide (me = u)) as [<-|Hne].
    - by rewrite lookup_insert_eq, Hme.
    - by rewrite lookup_insert_ne. }
  set (k4 := set_queue (MsgWaiters t) (enqueue (prio_of k) me (queue k (MsgWaiters t))) k3).
  assert (tcbs k4 !! t = Some tht) as Ht4.
  { change (tcbs k4) with (tcbs k3). rewrite Htc3, lookup_insert_ne; [done|apply me_not_target]. }
  destruct (notify_runs t tht k4 Ht4) as (b & k' & Hnot & [N1 N2 N3 N4 N5 N6]).
  destruct (N6 _ Ht4) as (tht' & Ht' & Hmq & Hma). exists k', th2, tht'.
  assert (objs k' = objs k1) as Hob by (rewrite N1; subst k4 k3; unfold pop_state; by destruct (tail _)).
  split_and!; try done.
  - unfold msg_send. rewrite (send_starts true k' (1, true)); [done|].
    rewrite send_to_busy by done. rewrite (cmd_bind_Ok _ _ _ _ _ (queue_msg_full (with_msgs (insert m outgoing) k) Ht Hr)). cbn [Z.eqb negb].
    rewrite (cmd_bind_Ok _ _ _ _ _ (upd_thread_ok me (set_wait_data m) th k1 Hme)). fold th1. fold k2.
    rewrite (cmd_bind_Ok _ _ _ _ _ (thread_at_ok _ _ _ H2)).
    rewrite decide_False by (intros E; pose proof send_me_ready as Hon; change (status th1) with (status th) in E; by rewrite E in Hon).
    rewrite (cmd_bind_Ok _ _ _ _ _ Hset). rewrite (cmd_bind_Ok _ _ _ tt k4); last first.
    { unfold thread_add_to_list. rewrite (cmd_bind_Ok _ _ _ th2 k3) by (apply thread_at_ok; by rewrite Htc3, lookup_insert_eq).
      rewrite (cmd_bind_Ok _ _ _ tt k3) by done. unfold modify. rewrite Hq3, (add_sorted_ext _ (prio_of k)) by done.
      replace (priority th2) with (prio_of k me) by (unfold prio_of; by rewrite Hme).
      by rewrite add_sorted_enqueue. }
    rewrite <- cmd_bind_assoc. by rewrite (cmd_bind_Ok _ _ _ _ _ Hnot).
  - rewrite N2 by apply me_not_target. change (tcbs k4) with (tcbs k3). by rewrite Htc3, lookup_insert_eq.
  - rewrite (msg_at_ext k1 k') by (by rewrite Hob). subst k1. by rewrite msg_at_store, decide_True.
  - rewrite N3 by done. apply queue_set_eq.
  - rewrite <- inbox_outgoing. unfold inbox, thread_has_msg_queue, slot_addr. rewrite Hmq, Hma.
    unfold slots, msg_at. by rewrite Hob.
Qed.
End Send.

(** C14: Every send takes one of four ways, by the state of the target alone: a receiver
    that waits gets the message in its buffer and becomes ready, and the sender gives
    up the processor; a queue with a free slot gets the message behind those
    it holds; otherwise [msg_try_send] returns 0 and [msg_send] parks the caller
    in the target's line of senders, sorted by urgency, with its message kept for
    the receiver.  The message carries the sender's pid in all of them. *)
Theorem send_refines n me t pid_t m k th tht :
  good me k -> tcbs k !! me = Some th -> in_irq k = false ->
  sched_threads k !! pid_t = Some t -> pid_t <> sched_active_pid k -> tcbs k !! t = Some tht ->
  queue_ok n tht -> off_slots n tht m ->
  (status tht = STATUS_RECEIVE_BLOCKED -> wait_data tht <> 0) ->
  StronglySorted (urgency (prio_of k)) (queue k (MsgWaiters t)) ->
  if decide (status tht = STATUS_RECEIVE_BLOCKED) then
    forall block, exists k', segment (msg_dispatch m pid_t block) k = Ok (Yield (Ret 1), k') /\
      msg_at k' (wait_data tht) = outgoing m k /\ readied t k k'
  else if has_room n tht then
    forall block, exists k' p tht', segment (msg_dispatch m pid_t block) k = Ok (p, k') /\ returns 1 p /\
      tcbs k' !! t = Some tht' /\ inbox n tht' k' = inbox n tht k ++ [outgoing m k] /\
      queue k' (MsgWaiters t) = queue k (MsgWaiters t)
  else
    (exists k', segment (msg_try_send m pid_t) k = Ok (Ret 0, k') /\ tcbs k' = tcbs k /\
       queues k' = queues k /\ inbox n tht k' = inbox n tht k) /\
    (exists k' th' tht', segment (msg_send m pid_t) k = Ok (Yield (Ret 1), k') /\
       tcbs k' !! me = Some th' /\ status th' = STATUS_SEND_BLOCKED /\ wait_data th' = m /\
       msg_at k' m = outgoing m k /\ queue k' (MsgWaiters t) = enqueue (prio_of k) me (queue k (MsgWaiters t)) /\
       tcbs k' !! t = Some tht' /\ inbox n tht' k' = inbox n tht k).
Proof.
  intros Hg Hme Hirq Hpid Hne Ht Hok Hm Hw Hs. destruct (decide (status tht = STATUS_RECEIVE_BLOCKED)) as [Hst|Hst].
  - intros block. by apply (send_direct n me t pid_t m k th tht); auto.
  - destruct (has_room n tht) eqn:Hr.
    + intros block. by apply (send_queued n me t pid_t m k th tht).
    + split; [by apply (send_refused n me t pid_t m k th tht)|by apply (send_waits n me t pid_t m k th tht)].
Qed.
