(* ===== verification/KernelThreads.v ===== *)
(** * The RIOT kernel: creating threads and thread flags

    What [thread_create] returns and registers on every path, and the
    protocol of [thread_flags.c] between the thread that waits and the one that
    sets flags. *)

From stdpp Require Import base gmap list.
From Stdlib Require Import ZArith Lia.
From S2P Require Import Prelude Bitarithm Ring Kernel KernelSync KernelMsg KernelInv KernelRun KernelCalls KernelSpec KernelInbox.

Local Open Scope Z_scope.

(** ** [thread_create] *)

Lemma free_pid_least n threads p i :
  i <= p <= KERNEL_PID_LAST -> p < i + Z.of_nat n -> default 0 (threads !! p) = 0 ->
  (forall j, i <= j < p -> default 0 (threads !! j) <> 0) -> free_pid n threads i = p.
Proof.
  revert i. induction n as [|n IH]; intros i Hp Hn Hfree Hused; [lia|]. cbn [free_pid].
  rewrite (proj2 (Z.leb_le i _)) by lia. destruct (Z.eqb_spec (default 0 (threads !! i)) 0) as [E|E].
  - destruct (decide (i = p)) as [->|Hne]; [done|]. by destruct (Hused i ltac:(lia)).
  - apply IH; [|lia|done|].
    + assert (i <> p) by congruence. lia.
    + intros j Hj. apply Hused. lia.
Qed.

Lemma free_pid_none n threads i :
  (forall j, i <= j <= KERNEL_PID_LAST -> default 0 (threads !! j) <> 0) -> free_pid n threads i = KERNEL_PID_UNDEF.
Proof.
  revert i. induction n as [|n IH]; intros i Hused; [done|]. cbn [free_pid].
  destruct (Z.leb_spec i KERNEL_PID_LAST); [|done].
  rewrite (proj2 (Z.eqb_neq _ _)) by (apply Hused; lia). apply IH. intros j Hj. apply Hused. lia.
Qed.

(** Entries of the thread table are never [NULL]. *)
Lemma used_pid k p : inv k -> is_Some (sched_threads k !! p) -> default 0 (sched_threads k !! p) <> 0.
Proof.
  intros Hi [t Ht]. rewrite Ht. cbn. destruct (w_threads _ _ Hi _ _ Ht) as (_ & th & Hth & _). by eapply inv_nonnull.
Qed.

(** Status of a new thread. *)
Definition first_status (create_flags : Z) : thread_status_t :=
  if Z.land create_flags THREAD_CREATE_SLEEPING =? 0 then STATUS_PENDING else STATUS_SLEEPING.

Section Create.
Variables (k : kernel) (t prio create_flags function arg old : Z).
Hypothesis Hinv : inv k.
Hypothesis Hprio : prio < SCHED_PRIO_LEVELS.
Hypothesis Hfresh : fresh_tcb t prio k = true.

Lemma create_section_runs p :
  KERNEL_PID_FIRST <= p <= KERNEL_PID_LAST -> sched_threads k !! p = None ->
  (forall j, KERNEL_PID_FIRST <= j < p -> is_Some (sched_threads k !! j)) ->
  exists k' empty, create_section t prio create_flags function arg old k =
      Ok ((p, (Z.land create_flags THREAD_CREATE_SLEEPING =? 0) && (Z.land create_flags THREAD_CREATE_WOUT_YIELD =? 0)), k') /\
    sched_threads k' = <[p := t]> (sched_threads k) /\ sched_num_threads k' = sched_num_threads k + 1 /\
    tcbs k' = <[t := set_status (first_status create_flags) (new_thread p prio old function arg empty)]> (tcbs k) /\
    sched_active_thread k' = sched_active_thread k /\ in_irq k' = in_irq k.
Proof using All.
  intros Hp Hnone Hused. unfold create_section. rewrite (cmd_bind_Ok _ _ _ (sched_threads k) k) by done. cbv zeta.
  rewrite (free_pid_least _ _ p); [|done|unfold MAXTHREADS, KERNEL_PID_LAST, MAXTHREADS in *; lia|by rewrite Hnone|
    intros j Hj; by apply used_pid, Hused].
  rewrite (proj2 (Z.eqb_neq p KERNEL_PID_UNDEF)) by (unfold KERNEL_PID_FIRST in *; lia).
  destruct (Cib.cib_init 0) as [empty|] eqn:He; [|by vm_compute in He].
  set (new := new_thread p prio old function arg empty).
  rewrite (cmd_bind_Ok _ _ _ tt (set_sched_threads (insert p t) 1 k)) by done.
  rewrite (cmd_bind_Ok _ _ _ tt (put_thread t new (set_sched_threads (insert p t) 1 k))) by done.
  set (k5 := set_queue (MsgWaiters t) [] (put_thread t new (set_sched_threads (insert p t) 1 k))).
  rewrite (cmd_bind_Ok _ _ _ tt k5) by done.
  assert (tcbs k5 !! t = Some new) as Hnew by (cbn; by rewrite lookup_insert_eq).
  unfold first_status. destruct (Z.land create_flags THREAD_CREATE_SLEEPING =? 0); cbn [negb andb].
  - rewrite (cmd_bind_Ok _ _ _ _ _ (set_status_push k5 t new STATUS_PENDING Hnew eq_refl eq_refl)).
    eexists _, empty. split; [reflexivity|]. split_and!; try done. cbn. by rewrite insert_insert_eq.
  - rewrite (cmd_bind_Ok _ _ _ _ _ (set_status_stay k5 t new STATUS_SLEEPING Hnew eq_refl)).
    eexists _, empty. split; [reflexivity|]. split_and!; try done. cbn. by rewrite insert_insert_eq.
Qed.
End Create.

(** C31: [thread_create] refuses a priority out of range with [-EINVAL] and a full thread
    table with [-EOVERFLOW], in both cases without any change; otherwise it returns the
    lowest free pid, under which exactly the new control block is registered, ready
    or sleeping as the flags say, with the given priority, entry point and argument. *)
Theorem thread_create_correct me k stack size prio create_flags function arg old :
  good me k -> in_irq k = false -> fresh_tcb (tcb_address stack size) prio k = true ->
  let t := tcb_address stack size in
  let call := thread_create stack size prio create_flags function arg old in
  (SCHED_PRIO_LEVELS <= prio -> segment call k = Ok (Ret (- EINVAL), k)) /\
  (prio < SCHED_PRIO_LEVELS ->
   (forall p, KERNEL_PID_FIRST <= p <= KERNEL_PID_LAST -> is_Some (sched_threads k !! p)) ->
   segment call k = Ok (Ret (- EOVERFLOW), k)) /\
  (prio < SCHED_PRIO_LEVELS ->
   forall p, KERNEL_PID_FIRST <= p <= KERNEL_PID_LAST -> sched_threads k !! p = None ->
   (forall j, KERNEL_PID_FIRST <= j < p -> is_Some (sched_threads k !! j)) ->
   exists k' r empty, segment call k = Ok (r, k') /\ returns p r /\ inv k' /\
     sched_threads k' = <[p := t]> (sched_threads k) /\ sched_num_threads k' = sched_num_threads k + 1 /\
     tcbs k' = <[t := set_status (first_status create_flags) (new_thread p prio old function arg empty)]> (tcbs k)).
Proof.
  intros Hg Hirq Hf t call. destruct Hg as (Hi & Ha & th & l & Ht & Hon & _).
  split_and!; unfold call, thread_create.
  - intros Hge. by rewrite (proj2 (Z.leb_le _ _) Hge).
  - intros Hlt Hall. rewrite (proj2 (Z.leb_gt _ _) Hlt). cbv zeta.
    rewrite (segment_section _ _ _ (- EOVERFLOW, false) k); [done|]. unfold create_section.
    rewrite (cmd_bind_Ok _ _ _ (sched_threads k) k) by done. cbv zeta.
    by rewrite free_pid_none by (intros j Hj; by apply used_pid, Hall).
  - intros Hlt p Hp Hnone Hused. rewrite (proj2 (Z.leb_gt _ _) Hlt). cbv zeta. fold t.
    destruct (create_section_runs k t prio create_flags function arg old Hi Hlt Hf p Hp Hnone Hused)
      as (k' & empty & Hsec & H1 & H2 & H3 & H4 & H5).
    rewrite (segment_section _ _ _ _ _ Hsec). cbn [fst snd].
    assert (inv k') as Hi'.
    { eapply (keeps_create t prio create_flags function arg old Hlt k _ k' Hi). unfold assuming. change (fresh_tcb t prio k) with (fresh_tcb (tcb_address stack size) prio k). rewrite Hf. exact Hsec. }
    assert (tcbs k' !! sched_active_thread k' = Some th) as Ht'.
    { rewrite H4, H3, lookup_insert_ne; [done|]. by apply fresh_tcb_spec in Hf as (_ & Hact & _). }
    destruct (_ && _).
    + destruct (after_wake_returns prio th k' p Ht' Hon) as (r & Hseg & Hr); [congruence|].
      exists k', r, empty. by split_and!.
    + exists k', (Ret p), empty. split_and!; try done. by left.
Qed.

(** ** Thread flags *)

Lemma clear_flags_word f mask :
  is_word 16 f -> Z.land f (u16 (Z.lnot (Z.land mask f))) = Z.ldiff f mask.
Proof.
  intros Hf. apply Z.bits_inj'. intros i Hi. rewrite Z.land_spec, Z.ldiff_spec.
  destruct (Z.testbit f i) eqn:E; [|done]. cbn [andb].
  assert (i < 16).
  { destruct (decide (i < 16)); [done|]. apply is_word_bits in Hf as [_ Hf]; [|done]. by rewrite Hf in E by lia. }
  unfold wrap. rewrite Z.mod_pow2_bits_low, Z.lnot_spec, Z.land_spec, E by done. by rewrite andb_true_r.
Qed.

Lemma word_submask w a b : 0 <= w -> is_word w a -> is_word w (Z.land a b).
Proof.
  intros Hw [H1 H2]%is_word_bits; [|done]. apply is_word_bits; [done|]. split; [apply Z.land_nonneg; by left|].
  intros i Hi. by rewrite Z.land_spec, H2.
Qed.

(** What a call that consumes the flags in [mask] does. *)
Definition consumes (me mask : Z) (th : thread_t) (k : kernel) (p : kprog Z) : Prop :=
  segment p k = Ok (Ret (Z.land (flags th) mask), put_thread me (set_flags (Z.ldiff (flags th) mask) th) k).

Lemma clear_consumes me mask th k :
  tcbs k !! me = Some th -> is_word 16 (flags th) ->
  consumes me mask th k (atomically (_thread_flags_clear_atomic me mask)).
Proof.
  intros Ht Hf. unfold consumes. cbn [segment atomically]. unfold _thread_flags_clear_atomic.
  rewrite (cmd_bind_Ok _ _ _ _ _ (thread_at_ok _ _ _ Ht)). cbv zeta.
  rewrite (cmd_bind_Ok _ _ _ _ _ (upd_thread_ok _ _ _ _ Ht)). rewrite clear_flags_word by done.
  by rewrite Z.land_comm.
Qed.

Section Flags.
Variables (me mask : Z) (k : kernel) (th : thread_t).
Hypothesis Hgood : good me k.
Hypothesis Hme : tcbs k !! me = Some th.
Hypothesis Hword : is_word 16 (flags th).

(** The caller waits with [mask] until the flags suffice; when it is scheduled
    again the call [p] consumes them. *)
Definition awaits (s : thread_status_t) (p : kprog Z) : Prop :=
  exists k' p', segment p k = Ok (Yield p', k') /\
    tcbs k' !! me = Some (set_status s (set_wait_data mask th)) /\ inv k' /\
    forall k2 th2, tcbs k2 !! me = Some th2 -> is_word 16 (flags th2) -> consumes me mask th2 k2 p'.

Lemma flags_wait_runs s : on_runqueue s = false -> needs_list s = false ->
  exists k', _thread_flags_wait mask me s k = Ok (tt, k') /\
    tcbs k' !! me = Some (set_status s (set_wait_data mask th)) /\ inv k'.
Proof using All.
  intros Hs Hn. set (th1 := set_wait_data mask th). set (k1 := put_thread me th1 k).
  assert (tcbs k1 !! me = Some th1) as Ht1 by (subst k1; by rewrite tcbs_put, decide_True).
  pose proof (set_status_pop k1 me th1 s Ht1 Hs (me_ready me k th Hgood Hme)) as Hset.
  eexists. split; [unfold _thread_flags_wait; rewrite (cmd_bind_Ok _ _ _ _ _ (upd_thread_ok _ _ _ _ Hme)); exact Hset|].
  split; [by rewrite tcbs_put, decide_True|].
  assert (_thread_flags_wait mask me s k = Ok (tt, put_thread me (set_status s th1) (pop_state (priority th1) k1))) as Hw
    by (unfold _thread_flags_wait; rewrite (cmd_bind_Ok _ _ _ _ _ (upd_thread_ok _ _ _ _ Hme)); exact Hset).
  by eapply (flags_wait_inv me mask s k).
Qed.

Lemma wait_any_runs :
  if Z.land (flags th) mask =? 0 then awaits STATUS_FLAG_BLOCKED_ANY (thread_flags_wait_any mask)
  else consumes me mask th k (thread_flags_wait_any mask).
Proof using All.
  pose proof (active_me me k Hgood) as Ha. unfold awaits, consumes, thread_flags_wait_any.
  rewrite (segment_section _ _ _ me k) by (unfold gets; by rewrite Ha).
  assert (forall b k', (if Z.land (flags th) mask =? 0 then _thread_flags_wait mask me STATUS_FLAG_BLOCKED_ANY;; mret true
      else mret false) k = Ok (b, k') ->
    segment (_thread_flags_wait_any mask;; atomically (_thread_flags_clear_atomic me mask)) k =
    segment ((if b : bool then thread_yield_higher else mret tt);; atomically (_thread_flags_clear_atomic me mask)) k') as Hstart.
  { intros b k' H. unfold mbind, kprog_bind. rewrite !segment_bind. unfold _thread_flags_wait_any.
    rewrite (segment_section _ _ _ b k'); [done|].
    rewrite (cmd_bind_Ok _ _ _ me k) by (unfold gets; by rewrite Ha).
    by rewrite (cmd_bind_Ok _ _ _ _ _ (thread_at_ok _ _ _ Hme)). }
  destruct (Z.land (flags th) mask =? 0) eqn:E.
  - destruct (flags_wait_runs STATUS_FLAG_BLOCKED_ANY eq_refl eq_refl) as (k' & Hw & Ht' & Hi').
    exists k'. eexists. split; [rewrite (Hstart true k'); [reflexivity|by rewrite (cmd_bind_Ok _ _ _ _ _ Hw)]|].
    split; [done|]. split; [done|]. intros k2 th2 Ht2 Hf2. by apply clear_consumes.
  - rewrite (Hstart false k) by done. by apply clear_consumes.
Qed.

Lemma wait_all_runs :
  if Z.land (flags th) mask =? mask then consumes me mask th k (thread_flags_wait_all mask)
  else awaits STATUS_FLAG_BLOCKED_ALL (thread_flags_wait_all mask).
Proof using All.
  pose proof (active_me me k Hgood) as Ha. unfold awaits, consumes, thread_flags_wait_all.
  destruct (Z.land (flags th) mask =? mask) eqn:E.
  - rewrite (segment_section _ _ _ (me, false) k); [by apply clear_consumes|].
    rewrite (cmd_bind_Ok _ _ _ me k) by (unfold gets; by rewrite Ha).
    by rewrite (cmd_bind_Ok _ _ _ _ _ (thread_at_ok _ _ _ Hme)), E.
  - destruct (flags_wait_runs STATUS_FLAG_BLOCKED_ALL eq_refl eq_refl) as (k' & Hw & Ht' & Hi').
    exists k'. eexists. split; [rewrite (segment_section _ _ _ (me, true) k'); [reflexivity|]|].
    + rewrite (cmd_bind_Ok _ _ _ me k) by (unfold gets; by rewrite Ha).
      rewrite (cmd_bind_Ok _ _ _ _ _ (thread_at_ok _ _ _ Hme)), E. cbn [negb]. by rewrite (cmd_bind_Ok _ _ _ _ _ Hw).
    + split; [done|]. split; [done|]. intros k2 th2 Ht2 Hf2. by apply clear_consumes.
Qed.

(** The lowest of the flags waited for. *)
Lemma wait_one_runs p : Z.land (flags th) mask = Zpos p ->
  segment (thread_flags_wait_one mask) k =
    Ok (Ret (2 ^ trailing p), put_thread me (set_flags (Z.ldiff (flags th) (2 ^ trailing p)) th) k).
Proof using All.
  intros Hp. pose proof (active_me me k Hgood) as Ha. unfold thread_flags_wait_one.
  assert (Z.land (Zpos p) (u16 (Z.lnot (Zpos p) + 1)) = 2 ^ trailing p) as Hlow.
  { rewrite <- (lowest_bit p). replace (Z.lnot (Zpos p) + 1) with (- Zpos p) by (unfold Z.lnot; lia).
    apply land_wrap; [done|]. rewrite <- Hp. by apply word_submask. }
  assert (segment (_thread_flags_wait_any mask) k = Ok (Ret tt, k)) as Hany.
  { unfold _thread_flags_wait_any. rewrite (segment_section _ _ _ false k); [done|].
    rewrite (cmd_bind_Ok _ _ _ me k) by (unfold gets; by rewrite Ha).
    by rewrite (cmd_bind_Ok _ _ _ _ _ (thread_at_ok _ _ _ Hme)), Hp. }
  unfold mbind at 1, kprog_bind at 1. rewrite segment_bind, Hany.
  rewrite (segment_section _ _ _ (me, 2 ^ trailing p) k); last first.
  { rewrite (cmd_bind_Ok _ _ _ me k) by (unfold gets; by rewrite Ha).
    rewrite (cmd_bind_Ok _ _ _ _ _ (thread_at_ok _ _ _ Hme)), Hp. cbv zeta. by rewrite Hlow. }
  cbn [fst snd]. rewrite (clear_consumes me (2 ^ trailing p) th k Hme Hword). do 4 f_equal.
  rewrite <- Hlow, <- Hp. apply Z.bits_inj'. intros i Hi. rewrite !Z.land_spec.
  destruct (Z.testbit (flags th) i), (Z.testbit mask i); done.
Qed.
End Flags.

(** What a thread that waits for flags has asked for, bit by bit of its 16-bit mask: one
    of the flags, or all of them. *)
Definition satisfied (st : thread_status_t) (mask f : Z) : Prop :=
  match st with
  | STATUS_FLAG_BLOCKED_ANY => exists i, 0 <= i < 16 /\ Z.testbit mask i = true /\ Z.testbit f i = true
  | STATUS_FLAG_BLOCKED_ALL => forall i, 0 <= i < 16 -> Z.testbit mask i = true -> Z.testbit f i = true
  | _ => False
  end.

Lemma testbit_u16 x i : 0 <= i -> Z.testbit (u16 x) i = (i <? 16) && Z.testbit x i.
Proof.
  intros Hi. unfold wrap. destruct (Z.ltb_spec i 16).
  - by rewrite Z.mod_pow2_bits_low by lia.
  - by rewrite Z.mod_pow2_bits_high by lia.
Qed.

Lemma flags_wakeup_iff t : flags_wakeup t = true <-> satisfied (status t) (wait_data t) (flags t).
Proof.
  assert (0 <= u16 (wait_data t)) as Hm by (apply (wrap_range 16); lia).
  unfold flags_wakeup, satisfied. destruct (status t); try done.
  - rewrite negb_true_iff, Z.eqb_neq. split.
    + intros Hne. assert (0 < Z.land (flags t) (u16 (wait_data t))) as Hp
        by (pose proof (proj2 (Z.land_nonneg (flags t) (u16 (wait_data t))) (or_intror Hm)); lia).
      pose proof (Z.bit_log2 _ Hp) as Hb. pose proof (Z.log2_nonneg (Z.land (flags t) (u16 (wait_data t)))) as Hl.
      rewrite Z.land_spec, testbit_u16, !andb_true_iff in Hb by done. destruct Hb as (Hf & Hlt & Hw).
      apply Z.ltb_lt in Hlt. by eexists.
    + intros (i & Hi & Hw & Hf) E. assert (Z.testbit (Z.land (flags t) (u16 (wait_data t))) i = true) as Hb.
      { rewrite Z.land_spec, testbit_u16, Hf, Hw by lia. cbn. rewrite andb_true_r. apply Z.ltb_lt. lia. }
      by rewrite E, Z.bits_0 in Hb.
  - rewrite Z.eqb_eq. split.
    + intros E i Hi Hw. assert (Z.testbit (u16 (wait_data t)) i = true) as Hb.
      { rewrite testbit_u16, Hw, andb_true_r by lia. apply Z.ltb_lt. lia. }
      rewrite <- E, Z.land_spec in Hb. by apply andb_true_iff in Hb as [? _].
    + intros Hall. apply Z.bits_inj'. intros i Hi. rewrite Z.land_spec, testbit_u16 by done.
      destruct (Z.ltb_spec i 16); [|by rewrite andb_false_r]. destruct (Z.testbit (wait_data t) i) eqn:Hw; [|by rewrite andb_false_r].
      by rewrite Hall.
Qed.

Lemma flags_set_runs t m k tht : tcbs k !! t = Some tht ->
  let tht' := set_flags (Z.lor (flags tht) m) tht in
  if flags_wakeup tht' then
    exists k', segment (thread_flags_set t m) k = Ok (Yield (Ret tt), k') /\
      tcbs k' = <[t := set_status STATUS_PENDING tht']> (tcbs k) /\
      queue k' (RunQueue (priority tht)) = queue k (RunQueue (priority tht)) ++ [t]
  else segment (thread_flags_set t m) k = Ok (Ret tt, put_thread t tht' k).
Proof.
  intros Ht tht'. set (k1 := put_thread t tht' k).
  assert (tcbs k1 !! t = Some tht') as Ht1 by (subst k1; by rewrite tcbs_put, decide_True).
  destruct (flags_wakeup tht') eqn:Hf; unfold thread_flags_set.
  - assert (on_runqueue (status tht') = false) as Hon by (unfold flags_wakeup in Hf; by destruct (status tht')).
    pose proof (set_status_push k1 t tht' STATUS_PENDING Ht1 eq_refl Hon) as Hset.
    set (k2 := put_thread t (set_status _ _) _) in Hset. exists (set_request true k2). split_and!.
    + rewrite (segment_section _ _ _ true (set_request true k2)); [done|].
      rewrite (cmd_bind_Ok _ _ _ _ _ (upd_thread_ok _ _ _ _ Ht)). unfold _thread_flags_wake.
      rewrite (cmd_bind_Ok _ _ _ _ _ (thread_at_ok _ _ _ Ht1)), Hf. by rewrite (cmd_bind_Ok _ _ _ _ _ Hset).
    + subst k2 k1. cbn. by rewrite insert_insert_eq.
    + subst k2. change (queue (set_request true (put_thread ?a ?b ?y))) with (queue y). unfold push_state.
      change (queue (set_bitcache ?b ?y)) with (queue y). by rewrite queue_set_eq.
  - rewrite (segment_section _ _ _ false k1); [done|].
    rewrite (cmd_bind_Ok _ _ _ _ _ (upd_thread_ok _ _ _ _ Ht)). unfold _thread_flags_wake.
    by rewrite (cmd_bind_Ok _ _ _ _ _ (thread_at_ok _ _ _ Ht1)), Hf.
Qed.

(** C32: Thread flags: [thread_flags_wait_any] and [thread_flags_wait_all] return the flags
    of the mask that are set and clear exactly them, at once when the condition holds,
    and otherwise park the caller with its mask and do so when it is scheduled again;
    [thread_flags_wait_one] takes the lowest flag of the mask when one is set; [thread_flags_set]
    adds its flags and makes the target ready exactly when it waits for any flag of its mask and
    one of them is set now, or for all flags of its mask and every one is set now; a target that
    does not wait for flags only gets them.  The kernel is in a state that satisfies the
    kernel's invariant, with the caller running. *)
Theorem thread_flags_protocol me mask k th t m tht :
  good me k -> tcbs k !! me = Some th -> is_word 16 (flags th) -> tcbs k !! t = Some tht ->
  let tht' := set_flags (Z.lor (flags tht) m) tht in
  (if Z.land (flags th) mask =? 0 then awaits me mask k th STATUS_FLAG_BLOCKED_ANY (thread_flags_wait_any mask)
   else consumes me mask th k (thread_flags_wait_any mask)) /\
  (if Z.land (flags th) mask =? mask then consumes me mask th k (thread_flags_wait_all mask)
   else awaits me mask k th STATUS_FLAG_BLOCKED_ALL (thread_flags_wait_all mask)) /\
  (forall p, Z.land (flags th) mask = Zpos p ->
     segment (thread_flags_wait_one mask) k =
       Ok (Ret (2 ^ trailing p), put_thread me (set_flags (Z.ldiff (flags th) (2 ^ trailing p)) th) k)) /\
  (satisfied (status tht) (wait_data tht) (Z.lor (flags tht) m) ->
     exists k', segment (thread_flags_set t m) k = Ok (Yield (Ret tt), k') /\
       tcbs k' = <[t := set_status STATUS_PENDING tht']> (tcbs k) /\
       queue k' (RunQueue (priority tht)) = queue k (RunQueue (priority tht)) ++ [t]) /\
  (~ satisfied (status tht) (wait_data tht) (Z.lor (flags tht) m) ->
     segment (thread_flags_set t m) k = Ok (Ret tt, put_thread t tht' k)).
Proof.
  intros Hg Hme Hw Ht tht'. split_and!.
  - by apply wait_any_runs.
  - by apply wait_all_runs.
  - intros p Hp. by apply (wait_one_runs me mask).
  - intros Hs%(flags_wakeup_iff tht'). pose proof (flags_set_runs t m k tht Ht) as H. cbv zeta in H. fold tht' in H.
    by rewrite Hs in H.
  - intros Hs. pose proof (flags_set_runs t m k tht Ht) as H. cbv zeta in H. fold tht' in H.
    destruct (flags_wakeup tht') eqn:E; [|done]. by apply (flags_wakeup_iff tht') in E.
Qed.
