(* ===== verification/KernelDemo.v ===== *)
(** * The RIOT kernel: executions

    The theorems on the kernel at concrete states, reached from the start of the
    system by running its functions, and the executions behind the findings on
    [sched_change_priority], [msg_send_receive] and the mailboxes. *)

From stdpp Require Import base gmap list relations sorting.
From Stdlib Require Import ZArith Lia.
From S2P Require Import Prelude Ring Kernel KernelSync KernelMsg KernelInv KernelRun KernelCalls KernelMsgCalls KernelMachine KernelSpec KernelInbox KernelThreads.

Local Open Scope Z_scope.

(** ** Running the kernel *)

Definition result {A} (r : res kerr (A * kernel)) (k : kernel) : kernel :=
  match r with Ok (_, k') => k' | Err _ => k end.
Definition section {A} (c : kcmd A) (k : kernel) : kernel := result (c k) k.
Definition go {A} (p : kprog A) (k : kernel) : kernel := result (segment p k) k.
Definition dispatch (k : kernel) : kernel := section (sched_run []) k.

(** A safe call up to its next scheduling point leaves the invariant. *)
Lemma wp_segment {A} me (Q : A -> kernel -> Prop) : forall p k p' k',
  wp me Q p k -> segment p k = Ok (p', k') -> wp me Q p' k'.
Proof.
  fix IH 1. intros [a|f|p] k p' k' Hwp Hs; cbn [segment] in Hs.
  - by injection Hs as <- <-.
  - cbn [wp] in Hwp. destruct Hwp as [[H1 H2]|(H1 & H2 & H3)].
    + specialize (H2 k H1). destruct (f k) as [[q k1]|e]; [|done]. exact (IH q k1 p' k' H2 Hs).
    + specialize (H3 k H1 H2). destruct (f k) as [[q k1]|e]; [|done]. exact (IH q k1 p' k' H3 Hs).
  - by injection Hs as <- <-.
Qed.

Lemma segment_good {A} me (p : kprog A) k a k' :
  safe_call p -> good me k -> segment p k = Ok (Ret a, k') -> good me k'.
Proof. intros Hp Hg Hs. exact (wp_segment me (fun _ => good me) p k _ _ (Hp me k Hg) Hs). Qed.

Lemma segment_inv {A} me (p p' : kprog A) k k' :
  safe_call p -> good me k -> segment p k = Ok (Yield p', k') -> inv k'.
Proof. intros Hp Hg Hs. apply (wp_segment me (fun _ => good me) p k _ _ (Hp me k Hg) Hs). Qed.

(** ** Threads of the examples *)

Definition stack_of (i : Z) : Z := 0x20000000 + 0x1000 * i.
Definition tcb (i : Z) : Z := tcb_address (stack_of i) 1024.
Definition NOYIELD : Z := Z.lor THREAD_CREATE_WOUT_YIELD THREAD_CREATE_STACKTEST.
Definition spawn (i prio : Z) : kcmd (Z * bool) := create_section (tcb i) prio NOYIELD 0x1001 0 0.

(** The main thread is created and scheduled. *)
Definition k_boot : kernel := section (spawn 0 THREAD_PRIORITY_MAIN) boot_kernel.
Definition k_main : kernel := dispatch k_boot.

Example main_active : sched_active_thread k_main = tcb 0.
Proof. vm_compute. reflexivity. Qed.
Example main_pid : sched_active_pid k_main = 1.
Proof. vm_compute. reflexivity. Qed.

Lemma spawn_good me i prio k r k' :
  good me k -> prio < SCHED_PRIO_LEVELS -> fresh_tcb (tcb i) prio k = true -> spawn i prio k = Ok (r, k') -> good me k'.
Proof.
  intros Hg Hp Hf Hs. destruct (keeps_create (tcb i) prio NOYIELD 0x1001 0 0 Hp k r k' (proj1 Hg)) as [Hi He].
  { unfold assuming. rewrite Hf. exact Hs. }
  by eapply good_evolves.
Qed.

Lemma dispatch_good k t k' : inv k -> sched_run [] k = Ok (t, k') -> good t k'.
Proof. intros Hi. apply sched_run_good; [done|constructor]. Qed.

Lemma k_boot_inv : inv k_boot.
Proof.
  destruct (keeps_create (tcb 0) THREAD_PRIORITY_MAIN NOYIELD 0x1001 0 0 ltac:(done) boot_kernel (1, false) k_boot inv_boot)
    as [Hi _]; [|done]. vm_compute. reflexivity.
Qed.

Lemma k_main_good : good (tcb 0) k_main.
Proof. apply (dispatch_good k_boot); [apply k_boot_inv|]. vm_compute. reflexivity. Qed.

(** A second thread, more urgent, is ready. *)
Definition k_two : kernel := section (spawn 1 5) k_main.
Lemma k_two_good : good (tcb 0) k_two.
Proof.
  apply (spawn_good (tcb 0) 1 5 k_main (2, false)); [apply k_main_good|done|vm_compute; reflexivity|vm_compute; reflexivity].
Qed.

(** The first thread holds the mutex 500, the second waits for it, the first runs. *)
Definition k_locked : kernel := section (spawn 1 5) (go (mutex_lock 500) k_main).
Lemma k_locked_good : good (tcb 0) k_locked.
Proof.
  apply (spawn_good (tcb 0) 1 5 (go (mutex_lock 500) k_main) (2, false));
    [|done|vm_compute; reflexivity|vm_compute; reflexivity].
  apply (segment_good (tcb 0) (mutex_lock 500) k_main tt); [apply safe_mutex_lock|apply k_main_good|].
  vm_compute. reflexivity.
Qed.
Definition k_contend : kernel := dispatch (go thread_yield k_locked).
Lemma k_contend_good : good (tcb 1) k_contend.
Proof.
  apply (dispatch_good (go thread_yield k_locked)); [|vm_compute; reflexivity].
  apply (segment_inv (tcb 0) thread_yield (Ret tt) k_locked); [apply safe_thread_yield|apply k_locked_good|].
  vm_compute. reflexivity.
Qed.
Definition k_waited : kernel := dispatch (go (mutex_lock 500) k_contend).
Lemma k_waited_good : good (tcb 0) k_waited.
Proof.
  apply (dispatch_good (go (mutex_lock 500) k_contend)); [|vm_compute; reflexivity].
  apply (segment_inv (tcb 1) (mutex_lock 500) (Ret tt) k_contend); [apply safe_mutex_lock|apply k_contend_good|].
  vm_compute. reflexivity.
Qed.

Definition thread_in (k : kernel) (t : Z) : thread_t :=
  default (mkThread STATUS_STOPPED 0 0 0 0 (Cib.mkCib 0 0 0) 0 (0, 0)) (tcbs k !! t).

(** ** The theorems at these states *)

(** The main thread is scheduled, calls [mutex_lock] and runs its section. *)
Definition m_booted : machine := mkMachine k_boot ∅.
Definition m_locking : machine := mkMachine (go (mutex_lock 500) k_main) {[ tcb 0 := ([], Ret tt) ]}.

Lemma m_locking_reached : reaches m_locking.
Proof.
  exists m_booted. split.
  - apply (boot (stack_of 0) 1024 0x1001 0 (1, false)); [done|]. vm_compute. reflexivity.
  - apply (rtc_l _ _ (mkMachine k_main ∅)).
    { apply (step_dispatch k_boot ∅ [] (tcb 0)); [done|constructor|]. vm_compute. reflexivity. }
    apply (rtc_l _ _ (mkMachine k_main {[ tcb 0 := ([], mutex_lock 500) ]})).
    { eapply step_call; [vm_compute; reflexivity|done|reflexivity|constructor]. }
    apply rtc_once. unfold m_locking.
    replace {[ tcb 0 := ([], Ret tt) ]} with
      (<[ tcb 0 := (tail [], Ret tt) ]> ({[ tcb 0 := ([], mutex_lock 500) ]} : gmap Z (list promise * kprog unit)))
      by (apply insert_singleton_eq).
    eapply step_section; [vm_compute; reflexivity|done| |reflexivity|].
    + unfold rest. cbn [conts]. rewrite lookup_singleton_eq. reflexivity.
    + vm_compute. reflexivity.
Qed.


Lemma sched_run_most_urgent_witness : exists next nth k',
  sched_run [] k_two = Ok (next, k') /\ good next k' /\ queues k' = queues k_two /\
  tcbs k_two !! next = Some nth /\ head (queue k_two (RunQueue (priority nth))) = Some next /\
  forall u thu, tcbs k_two !! u = Some thu -> on_runqueue (status thu) = true -> priority nth <= priority thu.
Proof.
  apply (sched_run_most_urgent [] k_two (tcb 0) (thread_in k_two (tcb 0)) (proj1 k_two_good)).
  - vm_compute. reflexivity.
  - vm_compute. reflexivity.
Defined.

(** Two threads of the same priority take turns. *)
Definition k_pair : kernel := section (spawn 1 THREAD_PRIORITY_MAIN) k_main.
Lemma k_pair_good : good (tcb 0) k_pair.
Proof.
  apply (spawn_good (tcb 0) 1 THREAD_PRIORITY_MAIN k_main (2, false));
    [apply k_main_good|done|vm_compute; reflexivity|vm_compute; reflexivity].
Qed.
Lemma yield_round_robin_witness :
  exists k', yield_rounds 1 k_pair = Ok k' /\ sched_active_thread k' = tcb 1 /\ good (tcb 1) k'.
Proof. apply (yield_round_robin 1 k_pair (tcb 0) (tcb 1) [tcb 1] k_pair_good); vm_compute; reflexivity. Defined.

Lemma mutex_refines_witness : exists k',
  segment (mutex_unlock 500) k_waited = Ok (Yield (Ret tt), k') /\
  mutex_view 500 k' = Held [] /\ readied (tcb 1) k_waited k'.
Proof.
  assert (mutex_view 500 k_waited = Held [tcb 1]) as Hv by (vm_compute; reflexivity).
  pose proof (mutex_refines 500 (tcb 0) k_waited (thread_in k_waited (tcb 0)) k_waited_good) as H.
  rewrite Hv in H. cbn [waiters] in H.
  destruct H as [_ H]; [vm_compute; reflexivity|vm_compute; reflexivity|by repeat constructor|].
  replace (after_wake (prio_of k_waited (tcb 1)) (thread_in k_waited (tcb 0))) with (Yield (Ret tt)) in H
    by (vm_compute; reflexivity).
  exact H.
Defined.

(** Two messages the main thread sent to itself wait in its queue of two slots. *)
Definition fill_inbox : kcmd unit :=
  msg_init_queue 4096 2;; msg_store 800 (mkMsg 0 1 11);; msg_send_to_self 800;;
  msg_store 808 (mkMsg 0 2 22);; msg_send_to_self 808;; mret tt.
Definition k_inbox : kernel := section fill_inbox k_main.
Lemma keeps_good {A} me (c : kcmd A) k a k' : keeps c -> good me k -> c k = Ok (a, k') -> good me k'.
Proof. intros Hc Hg H. destruct (Hc _ _ _ (proj1 Hg) H). by eapply good_evolves. Qed.
Lemma k_inbox_good : good (tcb 0) k_inbox.
Proof.
  apply (keeps_good (tcb 0) fill_inbox k_main tt); [|apply k_main_good|vm_compute; reflexivity].
  unfold fill_inbox.   keeps_tac; auto using keeps_msg_init_queue, keeps_msg_send_to_self with keeps.
Qed.

Lemma two_queued : Cib.wf 1 (Cib.mkCib 0 2 1).
Proof. by split. Qed.

Lemma receive_refines_witness : exists k' p,
  segment (_msg_receive 900 true) k_inbox = Ok (p, k') /\ returns 1 p /\
  msg_at k' 900 = mkMsg 1 1 11 /\ pending 1 (tcb 0) k' = [mkMsg 1 2 22].
Proof.
  set (th := thread_in k_inbox (tcb 0)).
  assert (msg_queue th = Cib.mkCib 0 2 1) as Hc by (vm_compute; reflexivity).
  assert (msg_array th = 4096) as Ha by (vm_compute; reflexivity).
  assert (pending 1 (tcb 0) k_inbox = [mkMsg 1 1 11; mkMsg 1 2 22]) as Hp by (vm_compute; reflexivity).
  pose proof (receive_refines 1 (tcb 0) 900 k_inbox th k_inbox_good) as H. rewrite Hp in H.
  apply H; [vm_compute; reflexivity|vm_compute; reflexivity| | |].
  - unfold queue_ok, thread_has_msg_queue. rewrite Ha, Hc. exact (conj two_queued eq_refl).
  - split; [discriminate|]. intros _ i Hi. unfold slot_addr, SIZEOF_MSG_T. rewrite Ha. clear - Hi. lia.
  - intros w ths Hw _. exfalso. apply (not_elem_of_nil w).
    replace (queue k_inbox (MsgWaiters (tcb 0))) with ([] : list Z) in Hw by (vm_compute; reflexivity). exact Hw.
Defined.

Lemma go_inv {A} me (p : kprog A) k :
  safe_call p -> good me k -> match segment p k with Ok (Yield _, _) => true | _ => false end = true -> inv (go p k).
Proof.
  intros Hp Hg. unfold go. destruct (segment p k) as [[[a|f|p'] k']|e] eqn:E; try done. intros _.
  by eapply segment_inv.
Qed.

(** The second thread waits for a message, the first one has one to send. *)
Definition k_worker : kernel := dispatch (go thread_yield k_two).
Lemma k_worker_good : good (tcb 1) k_worker.
Proof.
  apply (dispatch_good (go thread_yield k_two)); [|vm_compute; reflexivity].
  apply (go_inv (tcb 0)); [apply safe_thread_yield|apply k_two_good|vm_compute; reflexivity].
Qed.
Definition k_listen : kernel := section (msg_store 800 (mkMsg 0 7 99)) (dispatch (go (msg_receive 600) k_worker)).
Lemma k_listen_good : good (tcb 0) k_listen.
Proof.
  eapply (keeps_good (tcb 0) (msg_store 800 (mkMsg 0 7 99)) (dispatch (go (msg_receive 600) k_worker)) tt);
    [apply keeps_msg_store| |vm_compute; reflexivity].
  apply (dispatch_good (go (msg_receive 600) k_worker)); [|vm_compute; reflexivity].
  apply (go_inv (tcb 1)); [apply safe_msg_receive|apply k_worker_good|vm_compute; reflexivity].
Qed.

Lemma send_refines_witness : exists k',
  segment (msg_send 800 2) k_listen = Ok (Yield (Ret 1), k') /\
  msg_at k' 600 = mkMsg 1 7 99 /\ readied (tcb 1) k_listen k'.
Proof.
  set (tht := thread_in k_listen (tcb 1)).
  assert (status tht = STATUS_RECEIVE_BLOCKED) as Hst by (vm_compute; reflexivity).
  assert (wait_data tht = 600) as Hw by (vm_compute; reflexivity).
  assert (outgoing 800 k_listen = mkMsg 1 7 99) as Hout by (vm_compute; reflexivity).
  pose proof (send_refines 1 (tcb 0) (tcb 1) 2 800 k_listen (thread_in k_listen (tcb 0)) tht k_listen_good) as H.
  rewrite decide_True, Hw, Hout in H by exact Hst. apply (H ltac:(vm_compute; reflexivity)).
  - vm_compute. reflexivity.
  - vm_compute. reflexivity.
  - vm_compute. discriminate.
  - vm_compute. reflexivity.
  - vm_compute. reflexivity.
  - split; [discriminate|]. intros Hq. exfalso. revert Hq. vm_compute. discriminate.
  - intros _. discriminate.
  - vm_compute. constructor.
Defined.

Lemma thread_create_correct_witness : exists k' r empty,
  segment (thread_create (stack_of 2) 1024 9 THREAD_CREATE_SLEEPING 0x1001 5 0) k_two = Ok (r, k') /\ returns 3 r /\ inv k' /\
  sched_threads k' = <[3 := tcb 2]> (sched_threads k_two) /\ sched_num_threads k' = sched_num_threads k_two + 1 /\
  tcbs k' = <[tcb 2 := set_status STATUS_SLEEPING (new_thread 3 9 0 0x1001 5 empty)]> (tcbs k_two).
Proof.
  assert (in_irq k_two = false) as Hirq by (vm_compute; reflexivity).
  assert (fresh_tcb (tcb 2) 9 k_two = true) as Hf by (vm_compute; reflexivity).
  destruct (thread_create_correct (tcb 0) k_two (stack_of 2) 1024 9 THREAD_CREATE_SLEEPING 0x1001 5 0 k_two_good Hirq Hf)
    as (_ & _ & H).
  apply (H eq_refl 3).
  - split; discriminate.
  - vm_compute. reflexivity.
  - intros j Hj. assert (j = 1 \/ j = 2) as [-> | ->] by (unfold KERNEL_PID_FIRST, KERNEL_PID_UNDEF in Hj; clear - Hj; lia);
      vm_compute; eexists; reflexivity.
Defined.

(** The second thread waits for two flags, of which the first one sets the last. *)
Definition k_flags : kernel :=
  section (upd_thread (tcb 1) (set_flags 1)) (dispatch (go (thread_flags_wait_all 3) k_worker)).
Lemma k_flags_good : good (tcb 0) k_flags.
Proof.
  eapply (keeps_good (tcb 0) (upd_thread (tcb 1) (set_flags 1)) (dispatch (go (thread_flags_wait_all 3) k_worker)) tt);
    [by apply keeps_upd| |vm_compute; reflexivity].
  apply (dispatch_good (go (thread_flags_wait_all 3) k_worker)); [|vm_compute; reflexivity].
  apply (go_inv (tcb 1)); [apply safe_thread_flags_wait_all|apply k_worker_good|vm_compute; reflexivity].
Qed.

Lemma thread_flags_protocol_witness : exists k',
  segment (thread_flags_set (tcb 1) 2) k_flags = Ok (Yield (Ret tt), k') /\
  tcbs k' = <[tcb 1 := set_status STATUS_PENDING (set_flags 3 (thread_in k_flags (tcb 1)))]> (tcbs k_flags) /\
  queue k' (RunQueue 5) = queue k_flags (RunQueue 5) ++ [tcb 1].
Proof.
  set (tht := thread_in k_flags (tcb 1)).
  assert (Z.lor (flags tht) 2 = 3) as Hf by (vm_compute; reflexivity).
  assert (status tht = STATUS_FLAG_BLOCKED_ALL) as Hs by (vm_compute; reflexivity).
  assert (wait_data tht = 3) as Hw by (vm_compute; reflexivity).
  assert (priority tht = 5) as Hp by (vm_compute; reflexivity).
  pose proof (thread_flags_protocol (tcb 0) 1 k_flags (thread_in k_flags (tcb 0)) (tcb 1) 2 tht k_flags_good) as H.
  cbv zeta in H. rewrite Hf, Hs, Hw, Hp in H. apply H.
  - vm_compute. reflexivity.
  - vm_compute. split; [discriminate|reflexivity].
  - vm_compute. reflexivity.
  - intros i _ Hi. exact Hi.
Defined.

(** ** Executions behind the findings *)

(** Two threads of priority 9 are ready.  Moving the second one to priority 10 takes
    the first one off the run queue of priority 9 and leaves the second on both: the
    thread that was not to be changed is ready but never scheduled again. *)
Definition k_ready : kernel := section (spawn 2 9) (section (spawn 1 9) k_main).
Definition k_moved : kernel := go (sched_change_priority (tcb 2) 10) k_ready.
Example change_priority_loses_a_thread :
  queue k_ready (RunQueue 9) = [tcb 1; tcb 2] /\
  queue k_moved (RunQueue 9) = [tcb 2] /\ queue k_moved (RunQueue 10) = [tcb 2] /\
  option_map status (tcbs k_moved !! tcb 1) = Some STATUS_PENDING.
Proof. vm_compute. repeat split; reflexivity. Qed.

(** A request to a pid without a thread fails, and the caller goes on running while
    it is reply-blocked and on no run queue: it is not scheduled again after its
    next interruption. *)
Definition k_request : kernel := go (msg_send_receive 800 808 5) (section (msg_store 800 (mkMsg 0 1 0)) k_main).
Example failed_request_leaves_caller_blocked :
  segment (msg_send_receive 800 808 5) (section (msg_store 800 (mkMsg 0 1 0)) k_main) = Ok (Ret (-1), k_request) /\
  option_map status (tcbs k_request !! tcb 0) = Some STATUS_REPLY_BLOCKED /\
  sched_active_thread k_request = tcb 0 /\ queue k_request (RunQueue THREAD_PRIORITY_MAIN) = [].
Proof. vm_compute. repeat split; reflexivity. Qed.

(** A mailbox of one slot is full and a less urgent thread waits to put a second message.
    The main thread takes the first message and asks for another one, which the woken
    writer then puts in the queue without looking at the readers: the main
    thread stays blocked while a message waits for it. *)
Definition fill_mbox : kcmd unit :=
  mbox_init 700 4096 1;; msg_store 800 (mkMsg 0 1 0);; msg_store 808 (mkMsg 0 2 0);; mret tt.
(** [go] with what is left of the call. *)
Definition go_rest {A} (p : kprog A) (k : kernel) : kprog A * kernel :=
  match segment p k with Ok (Yield p', k') => (p', k') | Ok r => r | Err _ => (p, k) end.

Definition k_full : kernel := go (mbox_try_put 700 800) (section fill_mbox (section (spawn 1 9) k_main)).
(** The main thread sleeps; the writer finds the mailbox full and waits. *)
Definition k_writer : kprog unit * kernel := go_rest (mbox_put 3 700 808) (dispatch (go thread_sleep k_full)).
(** An interrupt wakes the main thread, which gets one message and waits for the next. *)
Definition k_awake : kernel := section (sched_run [interrupt (isr (drop (thread_wakeup 1)))]) (snd k_writer).
Definition k_reader : kernel := go (mbox_get 700 908) (go (mbox_get 700 900) k_awake).
(** The writer goes on with its call. *)
Definition k_stuck : kernel := go (fst k_writer) (dispatch k_reader).
Example mailbox_message_misses_reader :
  queue (snd k_writer) (MboxWriters 700) = [tcb 1] /\
  sched_active_thread k_awake = tcb 0 /\
  queue k_reader (MboxReaders 700) = [tcb 0] /\
  msg_at k_reader 900 = mkMsg 1 1 0 /\ sched_active_thread k_stuck = tcb 1 /\
  queue k_stuck (MboxReaders 700) = [tcb 0] /\
  (option_map (fun b => Cib.cib_avail (cib b)) (mboxes (objs k_stuck) !! 700) = Some 1) /\
  option_map status (tcbs k_stuck !! tcb 0) = Some STATUS_MBOX_BLOCKED.
Proof. vm_compute. repeat split; reflexivity. Qed.
