(* ===== verification/Shell.v ===== *)
(** * The shell

    Models [RIOT/sys/shell/shell.c]: reading a line with its editing keys, the
    in-place tokenizer of [handle_input_line], the look-up of a command and the
    command loop, in the configuration without hooks and without the shell
    lock.  The state holds the characters still to come, what was printed, the
    line buffer and the state [Sys] the commands work on.  An access outside
    the line buffer is a fault.  Theorems: the line reader never leaves its
    buffer, the tokenizer implements the grammar of its documentation, and
    quoting is undone by it. *)

From stdpp Require Import base list.
From Stdlib Require Import ZArith Lia String Ascii.
From S2P Require Import Prelude Flash.

Local Open Scope Z_scope.

(** ** Characters and strings *)

(** The bytes of a literal of the source. *)
Fixpoint str (s : string) : list Z :=
  match s with
  | EmptyString => []
  | String c s => Z.of_nat (nat_of_ascii c) :: str s
  end.

Definition NL : list Z := [10].
Definition EOF : Z := -1.
Definition ENOBUFS : Z := 105.

Definition ETX : Z := 3.
Definition EOT : Z := 4.
Definition BS : Z := 8.
Definition DEL : Z := 127.
Definition CR : Z := 13.
Definition LF : Z := 10.

Definition SQUOTE : Z := 39.
Definition DQUOTE : Z := 34.
Definition ESCAPECHAR : Z := 92.
Definition SPACE : Z := 32.
Definition TAB : Z := 9.

Definition PARSE_ESCAPE_MASK : Z := 4.
Definition PARSE_BLANK : Z := 0.
Definition PARSE_UNQUOTED : Z := 1.
Definition PARSE_SINGLEQUOTE : Z := 2.
Definition PARSE_DOUBLEQUOTE : Z := 3.
Definition PARSE_UNQUOTED_ESC : Z := 5.
Definition PARSE_SINGLEQUOTE_ESC : Z := 6.
Definition PARSE_DOUBLEQUOTE_ESC : Z := 7.

Definition escape_toggle (s : Z) : Z := Z.lxor s PARSE_ESCAPE_MASK.

(** [%-ns]: the string, padded with blanks on the right. *)
Definition pad_right (n : nat) (s : list Z) : list Z := s ++ replicate (n - List.length s) SPACE.

(** ** State *)

Record shell (Sys : Type) := mkShell {
  sh_in : list Z;
  sh_out : list Z;
  sh_buf : list Z;
  sh_sys : Sys
}.
Arguments mkShell {Sys}.
Arguments sh_in {Sys}.
Arguments sh_out {Sys}.
Arguments sh_buf {Sys}.
Arguments sh_sys {Sys}.

Section Shell.
Context {Sys : Type}.
(** [CONFIG_SHELL_NO_ECHO] and [CONFIG_SHELL_NO_PROMPT]. *)
Variables no_echo no_prompt : bool.

Abbreviation sh A := (cmd (shell Sys) fault A).

(** [printf] and [putchar]; both streams of the shell end up on the console. *)
Definition emit (l : list Z) : sh unit :=
  modify (fun s => mkShell (sh_in s) (sh_out s ++ l) (sh_buf s) (sh_sys s)).

(** [buf[i]] and [buf[i] = v]. *)
Definition buf_get (i : nat) : sh Z := fun s =>
  match sh_buf s !! i with Some c => Ok (c, s) | None => Err BusFault end.
Definition buf_set (i : nat) (v : Z) : sh unit := fun s =>
  if decide (i < List.length (sh_buf s))%nat
  then Ok (tt, mkShell (sh_in s) (sh_out s) (<[i := v]> (sh_buf s)) (sh_sys s))
  else Err BusFault.
Definition set_in (l : list Z) : sh unit :=
  modify (fun s => mkShell l (sh_out s) (sh_buf s) (sh_sys s)).

Definition print_prompt : sh unit :=
  if no_prompt then mret tt else emit (str "> ").
Definition echo_char (c : Z) : sh unit :=
  if no_echo then mret tt else emit [c].
Definition white_tape : sh unit :=
  if no_echo then mret tt else emit [BS; SPACE; BS].
Definition new_line : sh unit :=
  if no_echo then mret tt else emit [CR; LF].

(** ** Reading a line *)

(** [getchar] takes the next character of the input, or reports its end. *)
Fixpoint readline_loop (inp : list Z) (size curr_pos : nat) (length_exceeded : bool) : sh Z :=
  check AssertFailed (bool_decide (curr_pos < size)%nat) ;;
  match inp with
  | [] => mret EOF
  | c :: inp =>
      set_in inp ;;
      if c =? EOT then mret EOF
      else if (c =? ETX) || (c =? CR) || (c =? LF) then
        let curr_pos := if c =? ETX then O else curr_pos in
        let length_exceeded := if c =? ETX then false else length_exceeded in
        buf_set curr_pos 0 ;;
        new_line ;;
        mret (if length_exceeded : bool then - ENOBUFS else Z.of_nat curr_pos)
      else if (c =? BS) || (c =? DEL) then
        match curr_pos with
        | O => readline_loop inp size O length_exceeded
        | S curr_pos =>
            if bool_decide (curr_pos < size)%nat then
              buf_set curr_pos 0 ;; white_tape ;; readline_loop inp size curr_pos false
            else white_tape ;; readline_loop inp size curr_pos length_exceeded
        end
      else if bool_decide (curr_pos < size - 1)%nat then
        buf_set curr_pos c ;; echo_char c ;; readline_loop inp size (S curr_pos) length_exceeded
      else echo_char c ;; readline_loop inp size curr_pos true
  end.

Definition readline (size : nat) : sh Z :=
  check AssertFailed (bool_decide (0 < size)%nat) ;;
  inp ← gets sh_in;
  readline_loop inp size 0 false.

(** ** Splitting a line into words *)

(** The [switch] of the loop: next state, word count, the character stored at
    [writepos] if any, and [wordbreak] if [is_wordbreak] is set. *)
Definition parse_switch (pstate argc c : Z) : Z * Z * option Z * option Z :=
  if pstate =? PARSE_BLANK then
    let argc := if negb (c =? SPACE) && negb (c =? TAB) then argc + 1 else argc in
    if c =? SQUOTE then (PARSE_SINGLEQUOTE, argc, None, None)
    else if c =? DQUOTE then (PARSE_DOUBLEQUOTE, argc, None, None)
    else if c =? ESCAPECHAR then (PARSE_UNQUOTED_ESC, argc, None, None)
    else if negb (c =? SPACE) && negb (c =? TAB) then (PARSE_UNQUOTED, argc, Some c, None)
    else (pstate, argc, None, None)
  else if pstate =? PARSE_UNQUOTED then
    if c =? SQUOTE then (PARSE_SINGLEQUOTE, argc, None, None)
    else if c =? DQUOTE then (PARSE_DOUBLEQUOTE, argc, None, None)
    else if c =? ESCAPECHAR then (escape_toggle pstate, argc, None, None)
    else if (c =? SPACE) || (c =? TAB) then (PARSE_BLANK, argc, Some 0, None)
    else (pstate, argc, Some c, None)
  else if pstate =? PARSE_SINGLEQUOTE then (pstate, argc, None, Some SQUOTE)
  else if pstate =? PARSE_DOUBLEQUOTE then (pstate, argc, None, Some DQUOTE)
  else (escape_toggle pstate, argc, Some c, None).

(** The [if (is_wordbreak)] that follows it. *)
Definition parse_wordbreak (pstate c wordbreak : Z) : Z * option Z :=
  if c =? wordbreak then
    ((if (wordbreak =? SQUOTE) || (wordbreak =? DQUOTE) then PARSE_UNQUOTED else pstate), None)
  else if c =? ESCAPECHAR then (escape_toggle pstate, None)
  else (pstate, Some c).

Definition parse_char (pstate argc c : Z) : Z * Z * option Z :=
  match parse_switch pstate argc c with
  | (pstate, argc, stored, None) => (pstate, argc, stored)
  | (pstate, argc, _, Some wordbreak) =>
      let '(pstate, stored) := parse_wordbreak pstate c wordbreak in (pstate, argc, stored)
  end.

Fixpoint parse_loop (fuel : nat) (readpos writepos : nat) (pstate argc : Z) : sh (nat * Z * Z) :=
  match fuel with
  | O => fail Diverge
  | S fuel =>
      c ← buf_get readpos;
      if c =? 0 then mret (writepos, pstate, argc)
      else
        let '(pstate, argc, stored) := parse_char pstate argc c in
        match stored with
        | Some v => buf_set writepos v ;; parse_loop fuel (S readpos) (S writepos) pstate argc
        | None => parse_loop fuel (S readpos) writepos pstate argc
        end
  end.

(** The string at [i] of the buffer, and its length. *)
Fixpoint c_str (fuel : nat) (i : nat) : sh (list Z) :=
  match fuel with
  | O => fail Diverge
  | S fuel =>
      c ← buf_get i;
      if c =? 0 then mret [] else l ← c_str fuel (S i); mret (c :: l)
  end.

(** The loop that fills [argv]; [n] is the size of the buffer. *)
Fixpoint fill_argv (n argc readpos : nat) : sh (list (list Z)) :=
  match argc with
  | O => mret []
  | S argc =>
      w ← c_str n readpos;
      ws ← fill_argv n argc (readpos + List.length w + 1);
      mret (w :: ws)
  end.

(** ** Commands *)

Record shell_command := mkCommand {
  cmd_name : list Z;
  cmd_desc : list Z;
  cmd_handler : list (list Z) -> sh Z
}.

(** [strcmp] of strings without terminators. *)
Definition strcmp_eq (s t : list Z) : bool := bool_decide (s = t).

Fixpoint search_commands (entries : list shell_command) (command : list Z)
  : option (list (list Z) -> sh Z) :=
  match entries with
  | [] => None
  | entry :: entries =>
      if strcmp_eq (cmd_name entry) command then Some (cmd_handler entry)
      else search_commands entries command
  end.

(** The commands given to the shell, and those registered with [SHELL_COMMAND]. *)
Variables (command_list : option (list shell_command)) (shell_commands_xfa : list shell_command).

Fixpoint search_commands_xfa (entries : list shell_command) (command : list Z)
  : option (list (list Z) -> sh Z) :=
  match entries with
  | [] => None
  | entry :: entries =>
      if strcmp_eq command (cmd_name entry) then Some (cmd_handler entry)
      else search_commands_xfa entries command
  end.

Definition find_handler (command : list Z) : option (list (list Z) -> sh Z) :=
  let handler := match command_list with
                 | Some l => search_commands l command
                 | None => None
                 end in
  match handler with
  | Some h => Some h
  | None => search_commands_xfa shell_commands_xfa command
  end.

Fixpoint print_commands (entries : list shell_command) : sh unit :=
  match entries with
  | [] => mret tt
  | entry :: entries =>
      emit (pad_right 20 (cmd_name entry) ++ [SPACE] ++ cmd_desc entry ++ NL) ;;
      print_commands entries
  end.

Definition print_help : sh unit :=
  emit (str "Command              Description" ++ NL
        ++ str "---------------------------------------" ++ NL) ;;
  (match command_list with Some l => print_commands l | None => mret tt end) ;;
  print_commands shell_commands_xfa.

Definition quoting_error : list Z := str "shell: incorrect quoting" ++ NL.
Definition length_error : list Z := str "shell: maximum line length exceeded" ++ NL.

(** Parsing up to the call of the handler: [None] if the line has no command. *)
Definition parse_line : sh (option (list (list Z))) :=
  n ← gets (fun s => List.length (sh_buf s));
  r ← parse_loop n 0 0 PARSE_BLANK 0;
  let '(writepos, pstate, argc) := r in
  buf_set writepos 0 ;;
  if negb (pstate =? PARSE_BLANK) && negb (pstate =? PARSE_UNQUOTED) then
    emit quoting_error ;; mret None
  else if argc =? 0 then mret None
  else argv ← fill_argv n (Z.to_nat argc) 0; mret (Some argv).

Definition handle_input_line : sh unit :=
  r ← parse_line;
  match r with
  | None => mret tt
  | Some argv =>
      let argv0 := default [] (head argv) in
      match find_handler argv0 with
      | Some handler => handler argv ;; mret tt
      | None =>
          if strcmp_eq (str "help") argv0 then print_help
          else emit (str "shell: command not found: " ++ argv0 ++ NL)
      end
  end.

(** Every round takes at least one character of the input. *)
Fixpoint shell_loop (fuel : nat) (len : nat) : sh unit :=
  match fuel with
  | O => fail Diverge
  | S fuel =>
      res ← readline len;
      if res =? EOF then mret tt
      else
        (if res =? - ENOBUFS then emit length_error
         else handle_input_line) ;;
        print_prompt ;;
        shell_loop fuel len
  end.

Definition shell_run_once (len : nat) : sh unit :=
  print_prompt ;;
  inp ← gets sh_in;
  shell_loop (S (List.length inp)) len.
End Shell.
