(* ===== verification/ShellSpec.v ===== *)
(** * What the shell promises

    The grammar of command lines as the documentation of [handle_input_line]
    gives it, the theorem that the in-place tokenizer implements it, the round
    trip through quoting, and what the line reader leaves in its buffer. *)

From stdpp Require Import base list.
From Stdlib Require Import ZArith Lia.
From S2P Require Import Prelude Flash Shell.

Local Open Scope Z_scope.

(** ** The grammar *)

(** Where in a line the reader is: between words, in a word outside quotes, or
    inside quotes of the given kind; the last two with the word so far. *)
Inductive mode := Blank | Word (cur : list Z) | Quoted (q : Z) (cur : list Z).

Definition is_blank (c : Z) : bool := (c =? SPACE) || (c =? TAB).
Definition is_quote (c : Z) : bool := (c =? SQUOTE) || (c =? DQUOTE).

(** The words of a line, [None] if a quote or an escape is left open. *)
Fixpoint words (m : mode) (t : list Z) : option (list (list Z)) :=
  match t with
  | [] => match m with Blank => Some [] | Word cur => Some [cur] | Quoted _ _ => None end
  | c :: t' =>
      let escaped (k : Z -> mode) :=
        match t' with [] => None | d :: t'' => words (k d) t'' end in
      match m with
      | Blank =>
          if is_blank c then words Blank t'
          else if is_quote c then words (Quoted c []) t'
          else if c =? ESCAPECHAR then escaped (fun d => Word [d])
          else words (Word [c]) t'
      | Word cur =>
          if is_blank c then cons cur <$> words Blank t'
          else if is_quote c then words (Quoted c cur) t'
          else if c =? ESCAPECHAR then escaped (fun d => Word (cur ++ [d]))
          else words (Word (cur ++ [c])) t'
      | Quoted q cur =>
          if c =? q then words (Word cur) t'
          else if c =? ESCAPECHAR then escaped (fun d => Quoted q (cur ++ [d]))
          else words (Quoted q (cur ++ [c])) t'
      end
  end.

Definition line_words (t : list Z) : option (list (list Z)) := words Blank t.

(** ** Quoting *)

(** A word in single quotes, with quotes and escapes escaped. *)
Definition quote_char (c : Z) : list Z :=
  if (c =? SQUOTE) || (c =? ESCAPECHAR) then [ESCAPECHAR; c] else [c].
Definition quote (w : list Z) : list Z := [SQUOTE] ++ flat_map quote_char w ++ [SQUOTE].
Fixpoint join (ws : list (list Z)) : list Z :=
  match ws with
  | [] => []
  | [w] => w
  | w :: ws => w ++ [SPACE] ++ join ws
  end.

Lemma words_quoted w cur t :
  words (Quoted SQUOTE cur) (flat_map quote_char w ++ [SQUOTE] ++ t) = words (Word (cur ++ w)) t.
Proof.
  revert cur. induction w as [|c w IH]; intros cur; cbn [flat_map app].
  - by rewrite app_nil_r.
  - unfold quote_char at 1. replace (cur ++ c :: w) with ((cur ++ [c]) ++ w) by (by rewrite <- app_assoc).
    destruct (Z.eqb_spec c SQUOTE) as [->|H1]; cbn [orb]; [cbn [app words]; apply IH|].
    destruct (Z.eqb_spec c ESCAPECHAR) as [->|H2]; [cbn [app words]; apply IH|].
    cbn [app words]. rewrite (proj2 (Z.eqb_neq _ _)) by done. rewrite (proj2 (Z.eqb_neq _ _)) by done.
    apply IH.
Qed.

Lemma words_quote w t : words Blank (quote w ++ t) = words (Word w) t.
Proof.
  unfold quote. rewrite <- !app_assoc. cbn [app words is_blank is_quote].
  apply (words_quoted w []).
Qed.

Lemma words_join_quoted ws : line_words (join (map quote ws)) = Some ws.
Proof.
  unfold line_words. induction ws as [|w ws IH]; [done|]. destruct ws as [|w' ws].
  - cbn [map join]. rewrite <- (app_nil_r (quote w)). by rewrite words_quote.
  - change (join (map quote (w :: w' :: ws)))
      with (quote w ++ [SPACE] ++ join (map quote (w' :: ws))).
    rewrite words_quote. cbn [app words is_blank orb]. change (SPACE =? SPACE) with true.
    cbn [orb]. by rewrite IH.
Qed.

(** Words that need no quotes. *)
Definition plain_char (c : Z) : bool :=
  negb (is_blank c) && negb (is_quote c) && negb (c =? ESCAPECHAR).
Definition plain (w : list Z) : Prop := w <> [] /\ Forall (fun c => plain_char c = true) w.

Lemma words_plain_rest w cur t :
  Forall (fun c => plain_char c = true) w ->
  words (Word cur) (w ++ t) = words (Word (cur ++ w)) t.
Proof.
  intros Hw. revert cur. induction Hw as [|c w Hc Hw IH]; intros cur; cbn [app].
  { by rewrite app_nil_r. }
  unfold plain_char in Hc. rewrite !andb_true_iff, !negb_true_iff in Hc. destruct Hc as [[H1 H2] H3].
  cbn [words]. rewrite H1, H2, H3, IH, <- app_assoc. done.
Qed.

Lemma words_plain w t : plain w -> words Blank (w ++ t) = words (Word w) t.
Proof.
  intros [Hne Hw]. destruct w as [|c w]; [done|]. apply Forall_cons in Hw as [Hc Hw].
  unfold plain_char in Hc. rewrite !andb_true_iff, !negb_true_iff in Hc. destruct Hc as [[H1 H2] H3].
  cbn [app words]. rewrite H1, H2, H3. by rewrite words_plain_rest.
Qed.

Lemma words_join_plain ws : Forall plain ws -> line_words (join ws) = Some ws.
Proof.
  unfold line_words. induction 1 as [|w ws Hw Hws IH]; [done|]. destruct ws as [|w' ws].
  - cbn [join]. rewrite <- (app_nil_r w) at 1. by rewrite words_plain.
  - change (join (w :: w' :: ws)) with (w ++ [SPACE] ++ join (w' :: ws)).
    rewrite words_plain by done. cbn [app words is_blank]. change (SPACE =? SPACE) with true.
    cbn [orb]. by rewrite IH.
Qed.

(** ** The tokenizer *)

(** What the state machine of the code makes of a text: final state, word count
    and the characters stored. *)
Fixpoint parse_text (pstate argc : Z) (t : list Z) : Z * Z * list Z :=
  match t with
  | [] => (pstate, argc, [])
  | c :: t =>
      let '(pstate, argc, stored) := parse_char pstate argc c in
      let '(pstate', argc', o) := parse_text pstate argc t in
      (pstate', argc', match stored with Some v => v :: o | None => o end)
  end.

Abbreviation nonzero := (Forall (fun c : Z => c <> 0)).

(** The strings [ws], each with its terminator. *)
Definition strings (ws : list (list Z)) : list Z := flat_map (fun w => w ++ [0]) ws.

Section Parser.
Context {Sys : Type}.
Implicit Types (s : shell Sys) (t out mid rest : list Z).

Definition set_buf s (b : list Z) : shell Sys := mkShell (sh_in s) (sh_out s) b (sh_sys s).

Lemma buf_get_app s l c l' : sh_buf s = l ++ c :: l' -> buf_get (length l) s = Ok (c, s).
Proof using. intros Hb. unfold buf_get. by rewrite Hb, list_lookup_middle. Qed.

Lemma buf_set_app s l c l' v :
  sh_buf s = l ++ c :: l' -> buf_set (length l) v s = Ok (tt, set_buf s (l ++ v :: l')).
Proof using.
  intros Hb. unfold buf_set. rewrite Hb, decide_True by (rewrite length_app; cbn; lia).
  by rewrite insert_app_r_alt, Nat.sub_diag by done.
Qed.

(** The loop over the buffer computes [parse_text]: it writes at or before the
    position it reads, so it never overwrites a character still to be read. *)
Lemma parse_loop_text t s fuel out mid rest p n :
  sh_buf s = out ++ mid ++ t ++ 0 :: rest -> nonzero t -> (length t < fuel)%nat ->
  exists mid',
    let '(p', n', o) := parse_text p n t in
    parse_loop fuel (length out + length mid) (length out) p n s =
      Ok ((length out + length o, p', n')%nat, set_buf s (out ++ o ++ mid' ++ 0 :: rest)) /\
    (length o + length mid' = length mid + length t)%nat.
Proof using.
  revert s fuel out mid p n. induction t as [|c t IH]; intros s fuel out mid p n Hb Hz Hf;
    (destruct fuel as [|fuel]; [cbn in Hf; lia|]).
  - exists mid. cbn [parse_text parse_loop app length]. cbn [app] in Hb. rewrite app_assoc in Hb.
    erewrite cmd_bind_Ok by (rewrite <- length_app; by eapply buf_get_app).
    change (0 =? 0) with true. cbn iota. rewrite Nat.add_0_r. split; [|lia].
    unfold mret, cmd_ret. do 2 f_equal. destruct s; cbn in *. by rewrite Hb, <- app_assoc.
  - apply Forall_cons in Hz as [Hc Hz]. cbn in Hf. cbn [parse_text parse_loop].
    assert (sh_buf s = (out ++ mid) ++ c :: t ++ 0 :: rest) as Hb' by (by rewrite Hb, <- app_assoc).
    destruct (parse_char p n c) as [[p1 n1] stored] eqn:Hpc.
    destruct stored as [v|].
    + destruct (mid ++ [c]) as [|x mid1] eqn:Hm; [by destruct mid|].
      assert (sh_buf s = out ++ x :: mid1 ++ t ++ 0 :: rest) as Hb2.
      { change (out ++ x :: mid1 ++ t ++ 0 :: rest) with (out ++ (x :: mid1) ++ t ++ 0 :: rest).
        rewrite Hb, <- Hm, <- app_assoc. done. }
      destruct (IH (set_buf s (out ++ v :: mid1 ++ t ++ 0 :: rest)) fuel (out ++ [v]) mid1 p1 n1)
        as (mid' & Hmid'); [cbn; by rewrite <- app_assoc|done|lia|].
      exists mid'. destruct (parse_text p1 n1 t) as [[p' n'] o]. destruct Hmid' as [Hl Hlen].
      apply (f_equal length) in Hm. rewrite length_app in Hm. cbn in Hm.
      cbn [app length] in *. split; [|lia].
      erewrite cmd_bind_Ok by (rewrite <- length_app; by eapply buf_get_app).
      rewrite (proj2 (Z.eqb_neq _ _)) by done. rewrite Hpc.
      erewrite cmd_bind_Ok by (by eapply buf_set_app).
      rewrite length_app in Hl. cbn [length] in Hl.
      replace (S (length out + length mid)) with (length out + 1 + length mid1)%nat by lia.
      replace (S (length out)) with (length out + 1)%nat by lia. rewrite Hl.
      rewrite <- app_assoc. cbn [app].
      by replace (length out + 1 + length o)%nat with (length out + S (length o))%nat by lia.
    + destruct (IH s fuel out (mid ++ [c]) p1 n1) as (mid' & Hmid');
        [rewrite Hb; by rewrite <- !app_assoc|done|lia|].
      exists mid'. destruct (parse_text p1 n1 t) as [[p' n'] o]. destruct Hmid' as [Hl Hlen].
      rewrite length_app in Hl, Hlen. cbn [app length] in *. split; [|lia].
      erewrite cmd_bind_Ok by (rewrite <- length_app; by eapply buf_get_app).
      rewrite (proj2 (Z.eqb_neq _ _)) by done. rewrite Hpc.
      by replace (S (length out + length mid)) with (length out + (length mid + 1))%nat by lia.
Qed.

Lemma c_str_app fuel s l w rest :
  sh_buf s = l ++ w ++ 0 :: rest -> nonzero w -> (length w < fuel)%nat ->
  c_str fuel (length l) s = Ok (w, s).
Proof using.
  revert fuel l. induction w as [|c w IH]; intros fuel l Hb Hz Hf;
    (destruct fuel as [|fuel]; [cbn in Hf; lia|]); cbn [c_str app] in *.
  - erewrite cmd_bind_Ok by (by eapply buf_get_app). done.
  - apply Forall_cons in Hz as [Hc Hz].
    erewrite cmd_bind_Ok by (by eapply buf_get_app).
    rewrite (proj2 (Z.eqb_neq _ _)) by done.
    erewrite cmd_bind_Ok; [done|].
    replace (S (length l)) with (length (l ++ [c])) by (rewrite length_app; cbn; lia).
    apply IH; [by rewrite <- app_assoc|done|cbn in Hf; lia].
Qed.

Lemma fill_argv_strings s l ws rest n :
  sh_buf s = l ++ strings ws ++ rest -> Forall nonzero ws -> (length (sh_buf s) <= n)%nat ->
  fill_argv n (length ws) (length l) s = Ok (ws, s).
Proof using.
  revert l. induction ws as [|w ws IH]; intros l Hb Hz Hn; cbn [fill_argv length]; [done|].
  apply Forall_cons in Hz as [Hw Hz]. cbn [strings flat_map] in Hb. rewrite <- !app_assoc in Hb.
  cbn [app] in Hb.
  assert (length w < n)%nat
    by (rewrite Hb in Hn; rewrite !length_app in Hn; cbn in Hn; lia).
  erewrite cmd_bind_Ok by (by eapply c_str_app).
  replace (length l + length w + 1)%nat with (length (l ++ w ++ [0]))
    by (rewrite !length_app; cbn; lia).
  erewrite cmd_bind_Ok; [done|]. apply IH; [|done|done].
  rewrite Hb, <- !app_assoc. done.
Qed.
End Parser.

(** ** The tokenizer implements the grammar *)

Definition cur_of (m : mode) : list Z :=
  match m with Blank => [] | Word cur => cur | Quoted _ cur => cur end.
(** Words counted when they start. *)
Definition started (m : mode) : Z := match m with Blank => 0 | _ => 1 end.
Definition state_of (m : mode) : Z :=
  match m with
  | Blank => PARSE_BLANK
  | Word _ => PARSE_UNQUOTED
  | Quoted q _ => if q =? SQUOTE then PARSE_SINGLEQUOTE else PARSE_DOUBLEQUOTE
  end.
Definition mode_ok (m : mode) : Prop :=
  nonzero (cur_of m) /\ match m with Quoted q _ => q = SQUOTE \/ q = DQUOTE | _ => True end.

(** The final state of the machine on an open quote or escape. *)
Definition closed (p : Z) : bool := (p =? PARSE_BLANK) || (p =? PARSE_UNQUOTED).

(** What the machine must have stored for the words [r]. *)
Definition parsed (m : mode) (n : Z) (r : option (list (list Z))) (a : Z * Z * list Z) : Prop :=
  let '(p, n', o) := a in
  match r with
  | Some ws =>
      closed p = true /\ n' + started m = n + Z.of_nat (length ws) /\ Forall nonzero ws /\
      exists tail, cur_of m ++ o ++ [0] = strings ws ++ tail
  | None => closed p = false
  end.

(** Moving from one mode to another within a word, or into a word. *)
Lemma parsed_move m m' n n1 stored r t p :
  parsed m' n1 r (parse_text p n1 t) ->
  n1 + started m = n + started m' -> cur_of m' = cur_of m ++ stored ->
  let '(p', n', o) := parse_text p n1 t in parsed m n r (p', n', stored ++ o).
Proof.
  destruct (parse_text p n1 t) as [[p' n'] o]. unfold parsed.
  destruct r as [ws|]; [|done]. intros (Hc & Hn & Hz & tail & Ht) Hst Hcur.
  split_and!; [done|lia|done|]. exists tail. rewrite Hcur in Ht. by rewrite <- Ht, <- !app_assoc.
Qed.

(** The end of a word. *)
Lemma parsed_break cur n r t :
  nonzero cur -> parsed Blank n r (parse_text PARSE_BLANK n t) ->
  let '(p', n', o) := parse_text PARSE_BLANK n t in
  parsed (Word cur) n (cons cur <$> r) (p', n', 0 :: o).
Proof.
  intros Hz. destruct (parse_text PARSE_BLANK n t) as [[p' n'] o]. unfold parsed.
  destruct r as [ws|]; cbn [fmap option_fmap option_map]; [|done].
  intros (Hc & Hn & Hzs & tail & Ht). cbn [started cur_of app] in *.
  split_and!; [done|cbn [length]; lia|by constructor|]. exists tail.
  cbn [strings flat_map]. fold (strings ws). rewrite <- !app_assoc, <- Ht. done.
Qed.

Local Ltac neqb := repeat (rewrite (proj2 (Z.eqb_neq _ _)) by done).

(** The escaped states store the next character and return. *)
Lemma parsed_escape m m' n n1 t p :
  (forall d t', t = d :: t' -> d <> 0 ->
     cur_of (m' d) = cur_of m ++ [d] /\ n1 + started m = n + started (m' d) /\
     parse_char p n1 d = (state_of (m' d), n1, Some d) /\
     parsed (m' d) n1 (words (m' d) t') (parse_text (state_of (m' d)) n1 t')) ->
  closed p = false -> nonzero t ->
  parsed m n (match t with [] => None | d :: t' => words (m' d) t' end) (parse_text p n1 t).
Proof.
  intros H Hp Hz. destruct t as [|d t']; [done|]. apply Forall_cons in Hz as [Hd Hz].
  destruct (H d t' eq_refl Hd) as (Hcur & Hn & Hch & Hrec). cbn [parse_text]. rewrite Hch.
  pose proof (parsed_move m (m' d) n n1 [d] _ _ _ Hrec Hn Hcur) as HM.
  by destruct (parse_text (state_of (m' d)) n1 t') as [[p' n'] o].
Qed.

(** One character: the machine moves to the state of the next mode [m'] and
    stores what the next mode adds to the word. *)
Lemma parsed_char m m' n n1 c t stored :
  parse_char (state_of m) n c = (state_of m', n1, stored) ->
  cur_of m' = cur_of m ++ match stored with Some v => [v] | None => [] end ->
  n1 + started m = n + started m' ->
  parsed m' n1 (words m' t) (parse_text (state_of m') n1 t) ->
  parsed m n (words m' t) (parse_text (state_of m) n (c :: t)).
Proof.
  intros Hch Hcur Hn Hrec. cbn [parse_text]. rewrite Hch.
  pose proof (parsed_move m m' n n1 _ _ _ _ Hrec Hn Hcur) as HM.
  destruct (parse_text (state_of m') n1 t) as [[p' n'] o]. by destruct stored.
Qed.

Lemma blank_cases c :
  (is_blank c = true /\ (c = SPACE \/ c = TAB)) \/
  (is_blank c = false /\ c <> SPACE /\ c <> TAB /\
   ((is_quote c = true /\ (c = SQUOTE \/ c = DQUOTE)) \/
    (is_quote c = false /\ c <> SQUOTE /\ c <> DQUOTE))).
Proof.
  unfold is_blank, is_quote.
  destruct (Z.eqb_spec c SPACE), (Z.eqb_spec c TAB), (Z.eqb_spec c SQUOTE), (Z.eqb_spec c DQUOTE);
    subst; cbn; tauto || done.
Qed.

Lemma nonzero_snoc cur d : nonzero cur -> d <> 0 -> nonzero (cur ++ [d]).
Proof. intros. apply Forall_app_2; [done|]. by constructor. Qed.

Section Grammar.
Variable k : nat.
Hypothesis IH : forall t m n, (length t < k)%nat -> mode_ok m -> nonzero t ->
  parsed m n (words m t) (parse_text (state_of m) n t).

Lemma grammar_blank c t n :
  (length t < k)%nat -> nonzero (c :: t) ->
  parsed Blank n (words Blank (c :: t)) (parse_text PARSE_BLANK n (c :: t)).
Proof using IH.
  intros Hk [Hc Hz]%Forall_cons. cbn [words].
  destruct (blank_cases c) as [[-> Hb]|(-> & H1 & H2 & [[-> Hq]|(-> & H3 & H4)])].
  - apply (parsed_char Blank Blank n n c t None); [|done|done|by apply IH].
    destruct Hb as [-> | ->]; reflexivity.
  - apply (parsed_char Blank (Quoted c []) n (n + 1) c t None); [|done|cbn; lia|by apply IH; [|split|]].
    destruct Hq as [-> | ->]; reflexivity.
  - destruct (Z.eqb_spec c ESCAPECHAR) as [->|H5].
    + cbn [parse_text]. change (parse_char PARSE_BLANK n ESCAPECHAR) with (PARSE_UNQUOTED_ESC, n + 1, @None Z).
      cbv iota beta.
      assert (parsed Blank n (match t with [] => None | d :: t' => words (Word [d]) t' end)
                (parse_text PARSE_UNQUOTED_ESC (n + 1) t)) as HP;
        [|by destruct (parse_text PARSE_UNQUOTED_ESC (n + 1) t) as [[??]?]].
      apply (parsed_escape Blank (fun d => Word [d]) n (n + 1)); [|done|done].
      intros d t' -> Hd. split_and!; [done|cbn; lia|done|].
      apply IH; [cbn in Hk; lia|by split; [constructor|]|by apply Forall_cons in Hz as [_ ?]].
    + apply (parsed_char Blank (Word [c]) n (n + 1) c t (Some c)); [|done|cbn; lia|].
      * unfold parse_char, parse_switch. cbn. by neqb.
      * apply IH; [done|by split; [constructor|]|done].
Qed.

Lemma grammar_word cur c t n :
  (length t < k)%nat -> nonzero cur -> nonzero (c :: t) ->
  parsed (Word cur) n (words (Word cur) (c :: t)) (parse_text PARSE_UNQUOTED n (c :: t)).
Proof using IH.
  intros Hk Hcur [Hc Hz]%Forall_cons. cbn [words].
  destruct (blank_cases c) as [[-> Hb]|(-> & H1 & H2 & [[-> Hq]|(-> & H3 & H4)])].
  - cbn [parse_text].
    replace (parse_char PARSE_UNQUOTED n c) with (PARSE_BLANK, n, Some 0)
      by (destruct Hb as [-> | ->]; reflexivity).
    pose proof (parsed_break cur n _ t Hcur (IH t Blank n Hk ltac:(done) Hz)) as HB.
    by destruct (parse_text PARSE_BLANK n t) as [[??]?].
  - apply (parsed_char (Word cur) (Quoted c cur) n n c t None);
      [|by rewrite app_nil_r|done|by apply IH].
    destruct Hq as [-> | ->]; reflexivity.
  - destruct (Z.eqb_spec c ESCAPECHAR) as [->|H5].
    + cbn [parse_text]. change (parse_char PARSE_UNQUOTED n ESCAPECHAR) with (PARSE_UNQUOTED_ESC, n, @None Z).
      cbv iota beta.
      assert (parsed (Word cur) n (match t with [] => None | d :: t' => words (Word (cur ++ [d])) t' end)
                (parse_text PARSE_UNQUOTED_ESC n t)) as HP;
        [|by destruct (parse_text PARSE_UNQUOTED_ESC n t) as [[??]?]].
      apply (parsed_escape (Word cur) (fun d => Word (cur ++ [d])) n n); [|done|done].
      intros d t' -> Hd. split_and!; [done|done|done|].
      apply IH; [cbn in Hk; lia|by split; [apply nonzero_snoc|]|by apply Forall_cons in Hz as [_ ?]].
    + apply (parsed_char (Word cur) (Word (cur ++ [c])) n n c t (Some c)); [|done|done|].
      * unfold parse_char, parse_switch. cbn. by neqb.
      * apply IH; [done|by split; [apply nonzero_snoc|]|done].
Qed.

Lemma grammar_quoted q cur c t n :
  (length t < k)%nat -> q = SQUOTE \/ q = DQUOTE -> nonzero cur -> nonzero (c :: t) ->
  parsed (Quoted q cur) n (words (Quoted q cur) (c :: t))
    (parse_text (state_of (Quoted q cur)) n (c :: t)).
Proof using IH.
  intros Hk Hq Hcur [Hc Hz]%Forall_cons. cbn [words].
  destruct (Z.eqb_spec c q) as [->|H1].
  { apply (parsed_char (Quoted q cur) (Word cur) n n q t None);
      [by destruct Hq as [-> | ->]|by rewrite app_nil_r|done|by apply IH]. }
  destruct (Z.eqb_spec c ESCAPECHAR) as [->|H2].
  - cbn [parse_text].
    replace (parse_char (state_of (Quoted q cur)) n ESCAPECHAR)
      with (escape_toggle (state_of (Quoted q cur)), n, @None Z) by (by destruct Hq as [-> | ->]).
    cbv iota beta. set (p := escape_toggle _).
    assert (parsed (Quoted q cur) n (match t with [] => None | d :: t' => words (Quoted q (cur ++ [d])) t' end)
              (parse_text p n t)) as HP; [|by destruct (parse_text p n t) as [[??]?]].
    apply (parsed_escape (Quoted q cur) (fun d => Quoted q (cur ++ [d])) n n); [|by destruct Hq as [-> | ->]|done].
    intros d t' -> Hd. split_and!; [done|done|by destruct Hq as [-> | ->]|].
    apply IH; [cbn in Hk; lia|by split; [apply nonzero_snoc|]|by apply Forall_cons in Hz as [_ ?]].
  - apply (parsed_char (Quoted q cur) (Quoted q (cur ++ [c])) n n c t (Some c)); [|done|done|].
    + unfold parse_char, parse_switch, parse_wordbreak. destruct Hq as [-> | ->]; cbn; by neqb.
    + apply IH; [done|by split; [apply nonzero_snoc|]|done].
Qed.
End Grammar.

Lemma parse_text_words t m n :
  mode_ok m -> nonzero t -> parsed m n (words m t) (parse_text (state_of m) n t).
Proof.
  assert (forall k t m n, (length t < k)%nat -> mode_ok m -> nonzero t ->
    parsed m n (words m t) (parse_text (state_of m) n t)) as H; [|eauto].
  clear. induction k as [|k IH]; intros t m n Hk [Hm Hq] Hz; [lia|].
  destruct t as [|c t].
  - destruct m as [|cur|q cur]; cbn in *.
    + split_and!; [done|lia|done|]. by exists [0].
    + split_and!; [done|lia|by constructor|]. exists []. cbn. by rewrite !app_nil_r.
    + by destruct Hq as [-> | ->].
  - cbn in Hk. destruct m as [|cur|q cur].
    + apply (grammar_blank k); [done|lia|done].
    + apply (grammar_word k); [done|lia|done|done].
    + apply (grammar_quoted k); [done|lia|done|done|done].
Qed.

Section Line.
Context {Sys : Type}.
Implicit Types (s : shell Sys) (t rest : list Z).

Definition add_out s (l : list Z) : shell Sys :=
  mkShell (sh_in s) (sh_out s ++ l) (sh_buf s) (sh_sys s).

(** The command words of a line in the buffer, and the message for a bad one. *)
Lemma parse_line_spec s t rest :
  sh_buf s = t ++ 0 :: rest -> nonzero t ->
  exists b, length b = length (sh_buf s) /\
    parse_line s =
    match line_words t with
    | None => Ok (None, add_out (set_buf s b) quoting_error)
    | Some [] => Ok (None, set_buf s b)
    | Some ws => Ok (Some ws, set_buf s b)
    end.
Proof using.
  intros Hb Hz. unfold parse_line. rewrite (cmd_bind_Ok _ _ _ _ _ eq_refl).
  set (n := length (sh_buf s)).
  assert (length t < n)%nat as Hn by (unfold n; rewrite Hb, length_app; cbn; lia).
  destruct (parse_loop_text t s n [] [] rest PARSE_BLANK 0 Hb Hz Hn) as (mid & Hmid).
  pose proof (parse_text_words t Blank 0 ltac:(done) Hz) as HP. cbn [state_of] in HP.
  destruct (parse_text PARSE_BLANK 0 t) as [[p n'] o]. destruct Hmid as [Hl Hlen].
  cbn [length Nat.add app] in Hl, Hlen. erewrite cmd_bind_Ok by exact Hl. cbv beta iota.
  assert (exists x l', mid ++ 0 :: rest = x :: l') as (x & l' & Hx)
    by (destruct mid as [|x mid]; cbn; eauto).
  rewrite Hx. erewrite cmd_bind_Ok by (by eapply buf_set_app).
  set (b := o ++ 0 :: l').
  assert (length b = n) as Hlb.
  { unfold b, n. rewrite Hb, !length_app. apply (f_equal length) in Hx.
    rewrite length_app in Hx. cbn in Hx |- *. lia. }
  exists b. split; [done|].
  change (set_buf (set_buf s _) b) with (set_buf s b). unfold parsed in HP. fold (line_words t) in HP.
  destruct (line_words t) as [ws|].
  - destruct HP as (Hc & Hw & Hzs & tail & Ht). cbn [cur_of started app] in Ht, Hw.
    replace (negb (p =? PARSE_BLANK) && negb (p =? PARSE_UNQUOTED)) with false
      by (symmetry; rewrite <- negb_orb; unfold closed in Hc; by rewrite Hc).
    destruct (Z.eqb_spec n' 0) as [H0|H0].
    { by assert (ws = []) as -> by (destruct ws; [done|cbn in Hw; lia]). }
    destruct ws as [|w ws]; [cbn in Hw; lia|].
    replace (Z.to_nat n') with (length (w :: ws)) by lia.
    erewrite cmd_bind_Ok; [done|].
    apply (fill_argv_strings (set_buf s b) [] (w :: ws) (tail ++ l')); [|done|cbn [sh_buf set_buf]; lia].
    cbn [sh_buf set_buf app]. unfold b. rewrite app_assoc, <- Ht, <- app_assoc. done.
  - unfold closed in HP. apply orb_false_elim in HP as [-> ->]. done.
Qed.

(** C38: The in-place tokenizer implements the documented grammar: whatever line is
    in the buffer, it stays within the buffer and yields exactly the words of
    the grammar, no command for a line without words, and the quoting message
    for a line with an open quote or escape. *)
Theorem parse_line_refines s t rest :
  sh_buf s = t ++ 0 :: rest -> nonzero t ->
  exists b, length b = length (sh_buf s) /\
    parse_line s =
    match line_words t with
    | None => Ok (None, add_out (set_buf s b) quoting_error)
    | Some [] => Ok (None, set_buf s b)
    | Some ws => Ok (Some ws, set_buf s b)
    end.
Proof using. apply parse_line_spec. Qed.

(** Quoting is undone: words of any characters but the terminator, empty words
    included, written in quotes and separated by blanks, are the arguments the
    command gets. *)
Theorem quoted_words_arrive s ws rest :
  sh_buf s = join (map quote ws) ++ 0 :: rest -> ws <> [] -> Forall nonzero ws ->
  exists s', parse_line s = Ok (Some ws, s').
Proof using.
  intros Hb Hne Hz.
  assert (nonzero (join (map quote ws))) as Hj.
  { clear -Hz. induction Hz as [|w ws Hw Hws IH]; [constructor|].
    assert (nonzero (quote w)) as Hq.
    { unfold quote. apply Forall_app_2; [by repeat constructor|].
      apply Forall_app_2; [|by repeat constructor].
      clear -Hw. induction Hw as [|c w Hc Hw IH]; cbn; [constructor|]. apply Forall_app_2; [|done].
      unfold quote_char. destruct (_ || _); by repeat constructor. }
    destruct ws as [|w' ws]; [done|]. cbn [map join] in *.
    apply Forall_app_2; [done|]. by constructor. }
  destruct (parse_line_spec s _ _ Hb Hj) as (b & _ & Hp). rewrite words_join_quoted in Hp.
  destruct ws as [|w ws]; [done|]. eauto.
Qed.
End Line.

(** ** Reading a line *)

(** What the line should be, whatever the size of the buffer: a deletion key takes the
    last character typed, every other character is added. *)
Definition edit (c : Z) (l : list Z) : list Z :=
  if (c =? BS) || (c =? DEL) then removelast l else l ++ [c].

Inductive line_end := Eof | TooLong | Line.

(** How the input ends the line typed so far, the line and the rest of the input. *)
Fixpoint read_spec (inp l : list Z) : line_end * list Z * list Z :=
  match inp with
  | [] => (Eof, l, [])
  | c :: inp =>
      if c =? EOT then (Eof, l, inp)
      else if c =? ETX then (Line, [], inp)
      else if (c =? CR) || (c =? LF) then (Line, l, inp)
      else read_spec inp (edit c l)
  end.

(** The result the documentation of [readline] promises for a buffer of [size] cells. *)
Definition read_value (size : nat) (e : line_end) (l : list Z) : Z :=
  match e with
  | Eof => EOF
  | _ => if decide (length l < size)%nat then Z.of_nat (length l) else - ENOBUFS
  end.

(** No deletion key is hit while the line is longer than the buffer holds. *)
Fixpoint no_late_deletion (size : nat) (inp l : list Z) : bool :=
  match inp with
  | [] => true
  | c :: inp =>
      if (c =? EOT) || (c =? ETX) || (c =? CR) || (c =? LF) then true
      else if ((c =? BS) || (c =? DEL)) && bool_decide (size <= length l)%nat then false
      else no_late_deletion size inp (edit c l)
  end.

(** What the loop keeps: at most [size - 1] characters, and the flag that one was
    dropped, which a deletion resets. *)
Definition kept_edit (size : nat) (c : Z) (l : list Z) (ex : bool) : list Z * bool :=
  if (c =? BS) || (c =? DEL) then
    (removelast l, match l with [] => ex | _ => false end)
  else if decide (length l < size - 1)%nat then (l ++ [c], ex)
  else (l, true).

Fixpoint kept_spec (size : nat) (inp l : list Z) (ex : bool) : line_end * list Z * list Z :=
  match inp with
  | [] => (Eof, l, [])
  | c :: inp =>
      if c =? EOT then (Eof, l, inp)
      else if c =? ETX then (Line, [], inp)
      else if (c =? CR) || (c =? LF) then (if ex then TooLong else Line, l, inp)
      else let '(l, ex) := kept_edit size c l ex in kept_spec size inp l ex
  end.

Definition result_of (e : line_end) (l : list Z) : Z :=
  match e with Eof => EOF | TooLong => - ENOBUFS | Line => Z.of_nat (length l) end.

Section Reader.
Context {Sys : Type}.
Variables (no_echo : bool) (size : nat).
Implicit Types (s : shell Sys).

Lemma emit_frame s l : emit l s = Ok (tt, add_out s l).
Proof using. done. Qed.

Definition holds s (l : list Z) : Prop :=
  (length l < size)%nat /\ (size <= length (sh_buf s))%nat /\ take (length l) (sh_buf s) = l.

(** [buf] after a line: same length, same cells from [size] on. *)
Definition framed (b b' : list Z) : Prop := length b' = length b /\ drop size b' = drop size b.

Lemma buf_set_spec s i v :
  (i < size)%nat -> (size <= length (sh_buf s))%nat ->
  buf_set i v s = Ok (tt, set_buf s (<[i := v]> (sh_buf s))) /\
  framed (sh_buf s) (<[i := v]> (sh_buf s)).
Proof using.
  intros Hi Hb. unfold buf_set, framed. rewrite decide_True by lia.
  split; [done|]. rewrite length_insert, drop_insert_lt by done. done.
Qed.

Lemma framed_trans b1 b2 b3 : framed b1 b2 -> framed b2 b3 -> framed b1 b3.
Proof using. unfold framed. intros [??] [??]. split; congruence. Qed.

Lemma take_set_end (l b : list Z) (v : Z) :
  take (length l) b = l -> (length l < length b)%nat ->
  take (S (length l)) (<[length l := v]> b) = l ++ [v].
Proof using.
  intros Ht Hl. rewrite (take_S_r _ _ v) by (by apply list_lookup_insert_eq).
  by rewrite take_insert_ge, Ht by lia.
Qed.

(** Commands that only print. *)
Definition prints (c : cmd (shell Sys) fault unit) : Prop :=
  forall s, exists o, c s = Ok (tt, add_out s o).

Lemma echo_prints c : prints (echo_char no_echo c).
Proof using. intros s. unfold echo_char. destruct no_echo; [|by eexists]. exists []. unfold add_out. rewrite app_nil_r. by destruct s. Qed.
Lemma tape_prints : prints (white_tape no_echo).
Proof using. intros s. unfold white_tape. destruct no_echo; [|by eexists]. exists []. unfold add_out. rewrite app_nil_r. by destruct s. Qed.
Lemma new_line_prints : prints (new_line no_echo).
Proof using. intros s. unfold new_line. destruct no_echo; [|by eexists]. exists []. unfold add_out. rewrite app_nil_r. by destruct s. Qed.

(** How a command that returns [r] has left the shell after reading. *)
Definition read_result s (r : Z) s' (e : line_end) (l rest : list Z) : Prop :=
  r = result_of e l /\ sh_in s' = rest /\ sh_sys s' = sh_sys s /\ framed (sh_buf s) (sh_buf s') /\
  (length l < size)%nat /\ (e = Eof \/ take (S (length l)) (sh_buf s') = l ++ [0]).

Definition reads inp s l ex : Prop :=
  let '(e, l', rest) := kept_spec size inp l ex in
  exists r s', readline_loop no_echo inp size (length l) ex s = Ok (r, s') /\
    read_result s r s' e l' rest.

(** Going on after a step that kept input, system and the cells past [size]. *)
Lemma reads_step c inp s s1 l l1 ex ex1 :
  kept_spec size (c :: inp) l ex = kept_spec size inp l1 ex1 ->
  readline_loop no_echo (c :: inp) size (length l) ex s =
    readline_loop no_echo inp size (length l1) ex1 s1 ->
  sh_sys s1 = sh_sys s -> framed (sh_buf s) (sh_buf s1) ->
  reads inp s1 l1 ex1 -> reads (c :: inp) s l ex.
Proof using.
  unfold reads. intros -> -> Hsys Hf. destruct (kept_spec size inp l1 ex1) as [[e l'] rest].
  intros (r & s' & Hr & H1 & H2 & H3 & H4 & H5). exists r, s'. split; [done|].
  split_and!; [done|done|congruence|by eapply framed_trans|by destruct H5|by destruct H5].
Qed.

Local Ltac prints_tac H :=
  let o := fresh "o" in let Ho := fresh "Ho" in
  match goal with |- context [(_ ← ?c; _) ?s] => destruct (H s) as (o & Ho) end;
  erewrite cmd_bind_Ok by exact Ho.

(** The end of a line. *)
Lemma readline_return s l (r : Z) :
  holds s l ->
  exists s', (buf_set (length l) 0 ;; new_line no_echo ;; mret r) s = Ok (r, s') /\
    sh_in s' = sh_in s /\ sh_sys s' = sh_sys s /\ framed (sh_buf s) (sh_buf s') /\
    take (S (length l)) (sh_buf s') = l ++ [0].
Proof using.
  intros (Hl & Hb & Ht). destruct (buf_set_spec s (length l) 0 Hl Hb) as [Hs Hf].
  erewrite cmd_bind_Ok by exact Hs. prints_tac new_line_prints.
  eexists. split; [reflexivity|]. split_and!; [done|done|done|].
  cbn [sh_buf add_out set_buf]. apply take_set_end; [done|lia].
Qed.

Definition with_in s (inp : list Z) : shell Sys := mkShell inp (sh_out s) (sh_buf s) (sh_sys s).

(** A key that edits the line. *)
Lemma readline_edit c inp s l ex :
  (forall s' l' ex', sh_in s' = inp -> holds s' l' -> reads inp s' l' ex') ->
  (c =? EOT) = false -> (c =? ETX) = false -> (c =? CR) || (c =? LF) = false ->
  holds s l -> reads (c :: inp) s l ex.
Proof using.
  intros IH H1 H2 H3 Hh. pose proof Hh as (Hl & Hb & Ht).
  destruct (kept_edit size c l ex) as [l1 ex1] eqn:He.
  assert (kept_spec size (c :: inp) l ex = kept_spec size inp l1 ex1) as Hrs
    by (cbn [kept_spec]; by rewrite H1, H2, H3, He).
  cut (exists s1, readline_loop no_echo (c :: inp) size (length l) ex s =
         readline_loop no_echo inp size (length l1) ex1 s1 /\
       sh_sys s1 = sh_sys s /\ framed (sh_buf s) (sh_buf s1) /\ sh_in s1 = inp /\
       take (length l1) (sh_buf s1) = l1 /\ (length l1 < size)%nat).
  { intros (s1 & Hs1 & Hsys & Hf & Hin & Ht1 & Hl1). eapply reads_step; [done..|].
    apply IH; [done|]. split; [done|]. split; [|done]. destruct Hf. lia. }
  cbn [readline_loop]. erewrite cmd_bind_Ok by (apply check_true; by apply bool_decide_eq_true_2).
  erewrite cmd_bind_Ok by reflexivity. rewrite H1, H2. cbn [orb]. rewrite H3.
  fold (with_in s inp). unfold kept_edit in He. destruct ((c =? BS) || (c =? DEL)).
  - destruct l as [|y l _] using rev_ind; cbn [removelast] in He.
    + injection He as <- <-. exists (with_in s inp). by split_and!.
    + rewrite removelast_last in He. replace ex1 with false in * by (by destruct l; simplify_eq).
      injection He as <- _. rewrite length_app, Nat.add_1_r in *. cbn [length] in *.
      rewrite bool_decide_eq_true_2 by lia.
      destruct (buf_set_spec (with_in s inp) (length l) 0 ltac:(lia) Hb) as [Hs Hf].
      erewrite cmd_bind_Ok by exact Hs. prints_tac tape_prints.
      eexists. split; [reflexivity|]. split_and!; [done|done|done| |lia].
      cbn [sh_buf add_out set_buf with_in]. rewrite take_insert_ge by done.
      apply (f_equal (take (length l))) in Ht. rewrite take_take, take_app_length in Ht.
      by rewrite Nat.min_l in Ht by lia.
  - destruct (decide (length l < size - 1)%nat) as [Hlt|Hlt]; injection He as <- <-.
    + rewrite bool_decide_eq_true_2 by done.
      destruct (buf_set_spec (with_in s inp) (length l) c Hl Hb) as [Hs Hf].
      erewrite cmd_bind_Ok by exact Hs. prints_tac (echo_prints c).
      eexists. split; [rewrite length_app, Nat.add_1_r; reflexivity|].
      rewrite length_app, Nat.add_1_r. split_and!; [done|done|done| |lia].
      cbn [sh_buf add_out set_buf with_in]. apply take_set_end; [done|lia].
    + rewrite bool_decide_eq_false_2 by done. prints_tac (echo_prints c).
      eexists. split; [reflexivity|]. by split_and!.
Qed.

Lemma readline_loop_spec inp s l ex : sh_in s = inp -> holds s l -> reads inp s l ex.
Proof using.
  revert s l ex. induction inp as [|c inp IH]; intros s l ex Hin Hh; pose proof Hh as (Hl & Hb & Ht).
  { unfold reads. cbn [kept_spec readline_loop].
    erewrite cmd_bind_Ok by (apply check_true; by apply bool_decide_eq_true_2).
    exists EOF, s. split; [done|]. unfold read_result. split_and!; try done. by left. }
  destruct (c =? EOT) eqn:H1; [|destruct (c =? ETX) eqn:H2; [|destruct ((c =? CR) || (c =? LF)) eqn:H3]].
  4: by apply readline_edit.
  all: unfold reads; cbn [kept_spec readline_loop]; rewrite ?H1, ?H2, ?H3.
  all: erewrite cmd_bind_Ok by (apply check_true; by apply bool_decide_eq_true_2).
  all: erewrite cmd_bind_Ok by reflexivity; cbn [orb]; fold (with_in s inp).
  - exists EOF, (with_in s inp). split; [done|]. unfold read_result. split_and!; try done. by left.
  - destruct (readline_return (with_in s inp) [] 0) as (s' & Hs & Hi & Hy & Hf & Ht');
      [split; [cbn; lia|by split]|].
    exists 0, s'. split; [exact Hs|]. split_and!; try done; [cbn; lia|by right].
  - rewrite H3. destruct (readline_return (with_in s inp) l (if ex then - ENOBUFS else Z.of_nat (length l)))
      as (s' & Hs & Hi & Hy & Hf & Ht'); [done|].
    eexists _, s'. split; [exact Hs|]. split_and!; try done; [by destruct ex|by right].
Qed.

(** The loop consumes the input up to the end of the line, whatever it has kept of it. *)
Lemma kept_spec_rest inp l ex L :
  (kept_spec size inp l ex).2 = (read_spec inp L).2 /\
  ((kept_spec size inp l ex).1.1 = Eof <-> (read_spec inp L).1.1 = Eof).
Proof using.
  revert l ex L. induction inp as [|c inp IH]; intros l ex L; cbn [kept_spec read_spec]; [done|].
  repeat case_match; try (by destruct ex); done || apply IH.
Qed.

(** What is kept of the line typed so far: all of it, or its first characters and the flag. *)
Definition kept_of (L l : list Z) (ex : bool) : Prop :=
  l = take (size - 1) L /\ ex = bool_decide (size <= length L)%nat.

Lemma kept_of_edit c L l ex :
  (0 < size)%nat -> kept_of L l ex -> ((c =? BS) || (c =? DEL)) && bool_decide (size <= length L)%nat = false ->
  let '(l', ex') := kept_edit size c l ex in kept_of (edit c L) l' ex'.
Proof using.
  intros H0 [-> ->] Hd. unfold kept_edit, edit, kept_of. destruct ((c =? BS) || (c =? DEL)); cbn [andb] in Hd.
  - rewrite Hd. apply bool_decide_eq_false in Hd. rewrite take_ge by lia.
    destruct L as [|y L _] using rev_ind; [cbn [removelast]; rewrite take_nil, bool_decide_eq_false_2 by (cbn; lia); done|].
    rewrite removelast_last, length_app in *. cbn [length] in Hd. rewrite take_ge by lia. split; [done|].
    rewrite bool_decide_eq_false_2 by lia. by destruct L.
  - rewrite length_app. cbn [length]. destruct (decide (length (take (size - 1) L) < size - 1)%nat) as [Hlt|Hge];
      rewrite length_take in *.
    + rewrite (take_ge L) by lia. rewrite take_ge by (rewrite length_app; cbn; lia).
      split; [done|]. by rewrite !bool_decide_eq_false_2 by lia.
    + rewrite take_app_le by lia. split; [done|]. by rewrite bool_decide_eq_true_2 by lia.
Qed.

(** Without a late deletion the loop keeps the beginning of the line and knows whether that is all. *)
Lemma kept_spec_refines inp L l ex :
  (0 < size)%nat -> kept_of L l ex -> no_late_deletion size inp L = true ->
  let '(e, l', _) := kept_spec size inp l ex in
  let '(e1, L', _) := read_spec inp L in
  result_of e l' = read_value size e1 L' /\ l' = take (size - 1) L'.
Proof using.
  intros H0. revert L l ex. induction inp as [|c inp IH]; intros L l ex HK Hn; cbn [kept_spec read_spec no_late_deletion] in *.
  { by destruct HK. }
  destruct (c =? EOT); [by destruct HK|]. destruct (c =? ETX).
  { cbn. rewrite decide_True by (cbn; lia). by rewrite take_nil. }
  cbn [orb] in Hn. destruct ((c =? CR) || (c =? LF)).
  { destruct HK as [-> ->]. split; [|done]. cbn [read_value]. case_bool_decide.
    - by rewrite decide_False by lia.
    - rewrite decide_True by lia. cbn. by rewrite take_ge by lia. }
  destruct (((c =? BS) || (c =? DEL)) && bool_decide (size <= length L)%nat) eqn:Hd; [done|].
  pose proof (kept_of_edit c L l ex H0 HK Hd) as HK'. destruct (kept_edit size c l ex) as [l1 ex1]. by apply IH.
Qed.

(** C39: The line reader.  On every input it returns, it writes nothing outside the [size] cells
    it was given, it consumes the input up to the end of the line however long the line is, and it
    returns [EOF] exactly for the end of the input, and otherwise leaves a terminated string shorter
    than the buffer.  When no deletion key is hit while the line is longer than the buffer holds, it
    returns what its documentation says of the line the editing keys make of the input: its length,
    with the line in the buffer, or [-ENOBUFS] when the line exceeds the buffer, with its first
    [size - 1] characters there. *)
Theorem readline_refines s :
  (0 < size)%nat -> (size <= length (sh_buf s))%nat ->
  let '(e, l, rest) := read_spec (sh_in s) [] in
  exists r s', readline no_echo size s = Ok (r, s') /\
    sh_in s' = rest /\ sh_sys s' = sh_sys s /\
    length (sh_buf s') = length (sh_buf s) /\ drop size (sh_buf s') = drop size (sh_buf s) /\
    (r = EOF <-> e = Eof) /\
    (e = Eof \/ exists kept, (length kept < size)%nat /\ take (S (length kept)) (sh_buf s') = kept ++ [0] /\
       (r = - ENOBUFS \/ r = Z.of_nat (length kept))) /\
    (no_late_deletion size (sh_in s) [] = true ->
     r = read_value size e l /\
     (e = Eof \/ take (S (length (take (size - 1) l))) (sh_buf s') = take (size - 1) l ++ [0])).
Proof using.
  intros H0 Hb. pose proof (readline_loop_spec (sh_in s) s [] false eq_refl ltac:(by split)) as HR.
  pose proof (kept_spec_rest (sh_in s) [] false []) as [Hrest Heof].
  pose proof (kept_spec_refines (sh_in s) [] [] false H0) as Hk. unfold reads in HR.
  destruct (read_spec (sh_in s) []) as [[e l] rest].
  destruct (kept_spec size (sh_in s) [] false) as [[e' l'] rest']. cbn [fst snd] in *. subst rest'.
  destruct HR as (r & s' & Hr & H1 & H2 & H3 & [H4 H5] & H6 & H7). exists r, s'.
  split_and!; try done.
  - unfold readline. erewrite cmd_bind_Ok by (apply check_true; by apply bool_decide_eq_true_2).
    by erewrite cmd_bind_Ok by reflexivity.
  - rewrite H1, <- Heof. destruct e'; cbn [result_of]; unfold EOF, ENOBUFS; split; intros; (done || lia).
  - destruct H7 as [H7|H7]; [left; by apply Heof|]. destruct e'; [left; by apply Heof|right..];
      exists l'; (split_and!; [done|done|]); rewrite H1; [by left|by right].
  - intros Hn. destruct Hk as [Hv Hl]; [split; [by rewrite take_nil|by rewrite bool_decide_eq_false_2 by (cbn; lia)]|done|].
    rewrite H1. split; [done|]. destruct H7 as [H7|H7]; [left; by apply Heof|right; by rewrite <- Hl].
Qed.
End Reader.

(** ** Running a script *)

(** Characters the line reader stores as they are. *)
Definition ordinary (c : Z) : bool :=
  negb ((c =? 0) || (c =? EOT) || (c =? ETX) || (c =? CR) || (c =? LF) || (c =? BS) || (c =? DEL)).

Lemma ordinary_keys c :
  ordinary c = true ->
  c <> 0 /\ (c =? EOT) = false /\ (c =? ETX) = false /\ (c =? CR) || (c =? LF) = false /\
  (c =? BS) || (c =? DEL) = false.
Proof.
  unfold ordinary. rewrite negb_true_iff, !orb_false_iff. intros ((((((H0&H1)&H2)&H3)&H4)&H5)&H6).
  rewrite H3, H4, H5, H6. split_and!; try done. by apply Z.eqb_neq.
Qed.

Lemma kept_spec_line size t l more :
  Forall (fun c => ordinary c = true) t -> (length l + length t < size)%nat ->
  kept_spec size (t ++ LF :: more) l false = (Line, l ++ t, more).
Proof.
  intros Ht. revert l. induction Ht as [|c t Hc Ht IH]; intros l Hl; cbn [app kept_spec].
  { by rewrite app_nil_r. }
  destruct (ordinary_keys c Hc) as (_ & H1 & H2 & H3 & H4). rewrite H1, H2, H3.
  unfold kept_edit. cbn [length] in Hl. rewrite H4, decide_True by lia.
  rewrite IH; [by rewrite <- app_assoc|rewrite length_app; cbn; lia].
Qed.

Lemma ordinary_nonzero t : Forall (fun c => ordinary c = true) t -> nonzero t.
Proof. intros H. eapply Forall_impl; [exact H|]. intros c Hc. by apply ordinary_keys in Hc as [? _]. Qed.

Section Script.
Context {Sys : Type}.
Variables (no_echo no_prompt : bool) (len : nat).
Variables (command_list : option (list (shell_command (Sys := Sys))))
          (commands_xfa : list (shell_command (Sys := Sys))).
Implicit Types (s : shell Sys) (P Q R : Sys -> Prop).

(** [h] run with [argv] takes a system with [P] to one with [Q] and leaves the
    input and the size of the buffer alone. *)
Definition triple P (h : list (list Z) -> cmd (shell Sys) fault Z) (argv : list (list Z)) Q : Prop :=
  forall s, P (sh_sys s) ->
  exists r s', h argv s = Ok (r, s') /\ Q (sh_sys s') /\ sh_in s' = sh_in s /\
    length (sh_buf s') = length (sh_buf s).

Lemma triple_post P h argv Q Q' :
  triple P h argv Q -> (forall d, Q d -> Q' d) -> triple P h argv Q'.
Proof using.
  intros Ht Hq s HP. destruct (Ht s HP) as (r & s' & H1 & H2 & H3). exists r, s'. split; [done|]. split; [by apply Hq|done].
Qed.

(** A line of the script: a command and arguments that need no quotes. *)
Definition line_ok (argv : list (list Z)) : Prop :=
  argv <> [] /\ Forall plain argv /\ (length (join argv) < len)%nat /\
  Forall (fun c => ordinary c = true) (join argv).

Definition script_text (lines : list (list (list Z))) : list Z :=
  flat_map (fun argv => join argv ++ [LF]) lines.

(** Commands found under the first word of each line take [P] to [Q]. *)
Fixpoint script_does P (lines : list (list (list Z))) Q : Prop :=
  match lines with
  | [] => forall d, P d -> Q d
  | argv :: lines =>
      exists R h, find_handler command_list commands_xfa (default [] (head argv)) = Some h /\
        triple P h argv R /\ script_does R lines Q
  end.

(** A line that is a command: the shell reads it, splits it and calls the handler. *)
Lemma run_line fuel s argv more h :
  line_ok argv -> sh_in s = join argv ++ LF :: more -> (len <= length (sh_buf s))%nat ->
  find_handler command_list commands_xfa (default [] (head argv)) = Some h ->
  exists s', sh_in s' = more /\ sh_sys s' = sh_sys s /\ length (sh_buf s') = length (sh_buf s) /\
    shell_loop no_echo no_prompt command_list commands_xfa (S fuel) len s =
    (h argv ;; print_prompt no_prompt ;;
     shell_loop no_echo no_prompt command_list commands_xfa fuel len) s'.
Proof using.
  intros (Hne & Hplain & Hlen & Hord) Hin Hb Hh.
  assert (holds len s []) as H0 by (split; [cbn; lia|by split]).
  pose proof (readline_loop_spec no_echo len (sh_in s) s [] false eq_refl H0) as HR.
  unfold reads in HR. rewrite Hin, kept_spec_line in HR by done. cbn [app] in HR.
  destruct HR as (r & s1 & Hr & -> & H2 & H3 & [H4 _] & _ & H5).
  destruct H5 as [H5|H5]; [done|].
  assert (sh_buf s1 = join argv ++ 0 :: drop (S (length (join argv))) (sh_buf s1)) as Hb1.
  { rewrite <- (take_drop (S (length (join argv))) (sh_buf s1)) at 1. by rewrite H5, <- app_assoc. }
  destruct (parse_line_spec s1 _ _ Hb1 (ordinary_nonzero _ Hord)) as (b & Hlb & Hp).
  rewrite words_join_plain in Hp by done. destruct argv as [|w ws]; [done|].
  exists (set_buf s1 b). split_and!; [done|done|cbn; congruence|].
  cbn [shell_loop].
  assert (readline no_echo len s = Ok (Z.of_nat (length (join (w :: ws))), s1)) as Hrd.
  { unfold readline. erewrite cmd_bind_Ok by (apply check_true; apply bool_decide_eq_true_2; lia).
    erewrite cmd_bind_Ok by reflexivity. rewrite Hin. exact Hr. }
  erewrite cmd_bind_Ok by exact Hrd.
  rewrite (proj2 (Z.eqb_neq _ EOF)) by (unfold EOF; lia).
  rewrite (proj2 (Z.eqb_neq _ (- ENOBUFS))) by (unfold ENOBUFS; lia).
  unfold handle_input_line, mbind, cmd_bind. rewrite Hp. rewrite Hh.
  by destruct (h (w :: ws) (set_buf s1 b)) as [[? ?]|].
Qed.

Lemma prompt_frame s : exists o, print_prompt no_prompt s = Ok (tt, add_out s o).
Proof using.
  unfold print_prompt. destruct no_prompt; [|by eexists].
  exists []. unfold add_out. rewrite app_nil_r. by destruct s.
Qed.

(** A script given as input is executed line by line until the end of the input. *)
Lemma script_loop lines P Q s fuel :
  script_does P lines Q -> Forall line_ok lines -> sh_in s = script_text lines ->
  (0 < len <= length (sh_buf s))%nat -> (length lines < fuel)%nat -> P (sh_sys s) ->
  exists s', shell_loop no_echo no_prompt command_list commands_xfa fuel len s = Ok (tt, s') /\
    Q (sh_sys s') /\ sh_in s' = [].
Proof using.
  revert P s fuel. induction lines as [|argv lines IH]; intros P s fuel Hsc Hok Hin Hlen Hf HP;
    (destruct fuel as [|fuel]; [cbn in Hf; lia|]).
  - exists s. cbn [shell_loop script_does script_text flat_map] in *. split; [|by split; [apply Hsc|]].
    unfold readline.
    erewrite cmd_bind_Ok; [|erewrite cmd_bind_Ok by (apply check_true; apply bool_decide_eq_true_2; lia);
      erewrite cmd_bind_Ok by reflexivity; rewrite Hin; cbn [readline_loop];
      erewrite cmd_bind_Ok by (apply check_true; apply bool_decide_eq_true_2; lia); reflexivity].
    done.
  - apply Forall_cons in Hok as [Hl Hok]. destruct Hsc as (R & h & Hh & Ht & Hsc).
    cbn [script_text flat_map] in Hin. rewrite <- app_assoc in Hin. cbn [app] in Hin.
    destruct (run_line fuel s argv (script_text lines) h Hl Hin ltac:(lia) Hh)
      as (s1 & H1 & H2 & H3 & ->).
    destruct (Ht s1) as (r & s2 & Hr & HR & Hin2 & Hb2); [by rewrite H2|].
    erewrite cmd_bind_Ok by exact Hr.
    destruct (prompt_frame s2) as (o & Ho). erewrite cmd_bind_Ok by exact Ho.
    apply (IH R); [done|done|by cbn; rewrite Hin2|cbn; rewrite Hb2, H3; lia|cbn in Hf; lia|done].
Qed.

Lemma script_text_length lines : (length lines <= length (script_text lines))%nat.
Proof using.
  induction lines as [|a lines IH]; cbn [script_text flat_map length]; [lia|].
  rewrite !length_app. cbn. fold (script_text lines). lia.
Qed.

Lemma run_script lines P Q s :
  script_does P lines Q -> Forall line_ok lines -> sh_in s = script_text lines ->
  (0 < len <= length (sh_buf s))%nat -> P (sh_sys s) ->
  exists s', shell_run_once no_echo no_prompt command_list commands_xfa len s = Ok (tt, s') /\
    Q (sh_sys s') /\ sh_in s' = [].
Proof using.
  intros Hsc Hok Hin Hlen HP. unfold shell_run_once.
  destruct (prompt_frame s) as (o & Ho). erewrite cmd_bind_Ok by exact Ho.
  rewrite (cmd_bind_Ok _ _ _ _ _ eq_refl). apply (script_loop lines P); try done.
  cbn [sh_in add_out]. rewrite Hin. pose proof (script_text_length lines). lia.
Qed.
End Script.
