(* ===== verification/XipFsShell.v ===== *)
(** * The file-system commands of the shell

    Models the commands of [RIOT/sys/shell/cmds] that use the file system:
    [mkbin], [ldbin], [rm], [cp], [cat], [df], [ls], [fmtbin] and [hexdump].  The
    commands work on the file system and on the static [offset] of [ldbin.c];
    what they print is part of the state of [Shell].  Assertions are compiled
    in, as in the default build. *)

From stdpp Require Import base gmap list.
From Stdlib Require Import ZArith Lia String.
From S2P Require Import Prelude Flash XipFs Shell.

Local Open Scope Z_scope.

(** The state of the commands: the file system and [offset] of [ldbin.c]. *)
Record device := mkDevice { dev_fs : tinyfs; ld_offset : Z }.

Abbreviation sh A := (cmd (shell device) fault A).

Definition set_sys (d : device) (s : shell device) : shell device :=
  mkShell (sh_in s) (sh_out s) (sh_buf s) d.
Definition the_fs (s : shell device) : tinyfs := dev_fs (sh_sys s).

(** A call of the file system. *)
Definition on_fs {A} (c : fs A) : sh A := fun s =>
  match c (the_fs s) with
  | Ok (a, f) => Ok (a, set_sys (mkDevice f (ld_offset (sh_sys s))) s)
  | Err e => Err e
  end.
Definition set_offset (v : Z) : sh unit :=
  modify (fun s => set_sys (mkDevice (the_fs s) v) s).

Abbreviation arg argv i := (default [] (argv !! i%nat)).

(** Names of commands, for the scripts of the host. *)
Definition word_mkbin : list Z := str "mkbin".
Definition word_ldbin : list Z := str "ldbin".
Definition suffix_bin : list Z := str ".bin".

(** ** Numbers *)

Definition LONG_MAX : Z := 2 ^ 31 - 1.
Definition LONG_MIN : Z := - 2 ^ 31.
Definition UINT32_MAX : Z := 2 ^ 32 - 1.

Definition isspace (c : Z) : bool := (c =? 32) || ((9 <=? c) && (c <=? 13)).
Definition isdigit (c : Z) : bool := (48 <=? c) && (c <=? 57).
Definition isprint (c : Z) : bool := (32 <=? c) && (c <=? 126).

Fixpoint skip_spaces (s : list Z) : list Z :=
  match s with c :: s' => if isspace c then skip_spaces s' else s | [] => [] end.

(** The value of the digits at the start of a string, and what follows them. *)
Fixpoint digits (acc : Z) (s : list Z) : Z * list Z :=
  match s with
  | c :: s' => if isdigit c then digits (10 * acc + (c - 48)) s' else (acc, s)
  | [] => (acc, [])
  end.

(** [strtol(str, &endptr, 10)]: the value, whether [errno] is set, and [endptr]
    as the string that starts there. *)
Definition strtol (s : list Z) : Z * bool * list Z :=
  let t := skip_spaces s in
  let '(neg, t) := match t with
                   | 45 :: t' => (true, t')
                   | 43 :: t' => (false, t')
                   | _ => (false, t)
                   end in
  let '(v, rest) := digits 0 t in
  if bool_decide (List.length rest = List.length t) then (0, false, s)
  else
    let v := if neg : bool then - v else v in
    if LONG_MAX <? v then (LONG_MAX, true, rest)
    else if v <? LONG_MIN then (LONG_MIN, true, rest)
    else (v, false, rest).

(** [Some v] is the return value 0 with [*val] set, [None] is -1. *)
Definition convert (s : list Z) : option Z :=
  let '(l, errno, endptr) := strtol s in
  if (l =? LONG_MIN) && errno then None
  else if (l =? LONG_MAX) && errno then None
  else if bool_decide (List.length endptr = List.length s) then None
  else if UINT32_MAX <? u32 l then None
  else if l <? 0 then None
  else if negb (bool_decide (endptr = [])) then None
  else Some (u32 l).

(** Conversions of [printf]. *)
Fixpoint show_base (fuel : nat) (b : Z) (v : Z) (acc : list Z) : list Z :=
  match fuel with
  | O => acc
  | S fuel =>
      let d := v mod b in
      let acc := (if d <? 10 then 48 + d else 87 + d) :: acc in
      if v / b =? 0 then acc else show_base fuel b (v / b) acc
  end.
Definition show_hex (v : Z) : list Z := show_base 16 16 v [].
Definition show_dec (v : Z) : list Z :=
  if v <? 0 then 45 :: show_base 20 10 (- v) [] else show_base 20 10 v [].
(** [%02x] of a byte. *)
Definition show_byte (v : Z) : list Z :=
  let h := show_hex v in replicate (2 - List.length h) 48 ++ h.

Section Commands.
Context `{HN : Nvmc}.

Definition err (argv : list (list Z)) (l : list Z) : sh Z :=
  emit (arg argv 0 ++ l ++ NL) ;; mret 1.

(** ** [mkbin] *)

Definition _mkbin (argv : list (list Z)) : sh Z :=
  if bool_decide (List.length argv < 4)%nat then err argv (str ": name size exec")
  else
    found ← on_fs (tinyfs_file_search (arg argv 1));
    if negb (found =? NULL) then err argv (str ": " ++ arg argv 1 ++ str ": file name already used")
    else
      match convert (arg argv 2) with
      | None => err argv (str ": " ++ arg argv 1 ++ str ": invalid size")
      | Some size =>
          match convert (arg argv 3) with
          | None => err argv (str ": " ++ arg argv 1 ++ str ": invalid rights")
          | Some exec =>
              if negb (exec =? 0) && negb (exec =? 1)
              then err argv (str ": " ++ arg argv 1 ++ str ": invalid rights")
              else
                file ← on_fs (tinyfs_create_file (arg argv 1) size exec TINYFS_STATUS_CREATED);
                if file =? NULL then err argv (str ": " ++ arg argv 1 ++ str ": unable to create file")
                else mret 0
          end
      end.

(** ** [ldbin] *)

Definition b64 : list Z :=
  str "ABCDEFGHIJKLMNOPQRSTUVWXYZabcdefghijklmnopqrstuvwxyz0123456789+/".

(** [strchr(b64, c) - b64]; [None] is a null result.  The terminator is found
    at the end of the string. *)
Definition b64_index (c : Z) : option Z :=
  match list_find (fun x => x = c) (b64 ++ [0]) with
  | Some (i, _) => Some (Z.of_nat i)
  | None => None
  end.

Definition is_loading (file : Z) : fs Z :=
  status ← gets (fun s => file_status (mem s) file);
  mret (if status =? TINYFS_STATUS_LOADING then 1 else 0).

Fixpoint count_loading_loop (fuel : nat) (file counter : Z) : fs Z :=
  match fuel with
  | O => fail Diverge
  | S fuel =>
      file ← tinyfs_get_next_file file;
      if file =? NULL then mret counter
      else n ← is_loading file; count_loading_loop fuel file (counter + n)
  end.

Definition count_loading : fs Z :=
  file ← tinyfs_get_first_file;
  if file =? NULL then mret 0
  else n ← is_loading file; count_loading_loop (S max_files) file n.

Definition valid (c : Z) : Z :=
  if (65 <=? c) && (c <=? 90) then 0
  else if (97 <=? c) && (c <=? 122) then 0
  else if (48 <=? c) && (c <=? 57) then 0
  else if (c =? 43) || (c =? 47) || (c =? 61) then 0
  else -1.

Definition check_chunk (chunk : list Z) : Z :=
  let len := Z.of_nat (List.length chunk) in
  if len =? 0 then -1
  else if negb (Z.land len 3 =? 0) then -1
  else if existsb (fun c => negb (valid c =? 0)) chunk then -1
  else 0.

(** One round of the loop: the three bytes of [buf] and their number [r]; the
    difference of a null pointer and [b64] is undefined. *)
Definition decode_quad (c0 c1 c2 c3 : Z) : option (list Z * Z) :=
  match b64_index c0, b64_index c1 with
  | Some i0, Some i1 =>
      let bytes := Z.lor 0 (Z.shiftl i0 18) in
      let bytes := Z.lor bytes (Z.shiftl i1 12) in
      let '(bytes, r) := match b64_index c2 with
                         | Some i => (Z.lor bytes (Z.shiftl i 6), 3)
                         | None => (bytes, 2)
                         end in
      let '(bytes, r) := match b64_index c3 with
                         | Some i => (Z.lor bytes i, r)
                         | None => (bytes, r - 1)
                         end in
      Some ([Z.land (Z.shiftr bytes 16) 255; Z.land (Z.shiftr bytes 8) 255; Z.land bytes 255], r)
  | _, _ => None
  end.

Fixpoint b64decode (file : Z) (chunk : list Z) : sh unit :=
  match chunk with
  | [] => mret tt
  | c0 :: c1 :: c2 :: c3 :: rest =>
      size ← gets (fun s => file_size (mem (the_fs s)) file);
      offset ← gets (fun s => ld_offset (sh_sys s));
      if offset <? size then
        match decode_quad c0 c1 c2 c3 with
        | None => fail Undefined
        | Some (buf, r) =>
            on_fs (tinyfs_file_write file offset (Auto buf) r) ;;
            set_offset (u32 (offset + r)) ;;
            b64decode file rest
        end
      else mret tt
  | _ => fail Undefined
  end.

Definition _ldbin (argv : list (list Z)) : sh Z :=
  if bool_decide (List.length argv < 3)%nat then err argv (str ": name chunk")
  else
    file ← on_fs (tinyfs_file_search (arg argv 1));
    if file =? NULL then err argv (str ": " ++ arg argv 1 ++ str ": no such file")
    else if negb (check_chunk (arg argv 2) =? 0)
    then err argv (str ": " ++ arg argv 1 ++ str ": invalid chunk")
    else
      loading ← on_fs count_loading;
      check AssertFailed (loading <=? 1) ;;
      status ← gets (fun s => file_status (mem (the_fs s)) file);
      if (loading =? 1) && negb (status =? TINYFS_STATUS_LOADING)
      then err argv (str ": another file is already being loaded")
      else
        (if status =? TINYFS_STATUS_CREATED then
           r ← on_fs (tinyfs_file_status file TINYFS_STATUS_LOADING);
           check AssertFailed (r =? 0)
         else mret tt) ;;
        b64decode file (arg argv 2) ;;
        size ← gets (fun s => file_size (mem (the_fs s)) file);
        offset ← gets (fun s => ld_offset (sh_sys s));
        (if size =? offset then
           r ← on_fs (tinyfs_file_status file TINYFS_STATUS_LOADED);
           check AssertFailed (r =? 0) ;;
           set_offset 0
         else mret tt) ;;
        mret 0.

(** ** [rm], [cp], [cat], [df], [fmtbin] *)

Fixpoint rm_loop (argv0 : list Z) (names : list (list Z)) : sh unit :=
  match names with
  | [] => mret tt
  | name :: names =>
      r ← on_fs (tinyfs_remove name);
      (if negb (r =? 0)
       then emit (argv0 ++ str ": cannot remove '" ++ name ++ str "': no such file" ++ NL)
       else mret tt) ;;
      rm_loop argv0 names
  end.

Definition rm_main (argv : list (list Z)) : sh Z :=
  if bool_decide (List.length argv < 2)%nat then err argv (str " [FILE]...")
  else rm_loop (arg argv 0) (tail argv) ;; mret 0.

Definition cp_main (argv : list (list Z)) : sh Z :=
  if bool_decide (List.length argv < 3)%nat then err argv (str " SOURCE DEST")
  else
    file ← on_fs (tinyfs_file_search (arg argv 1));
    if file =? NULL then err argv (str ": '" ++ arg argv 1 ++ str "': no such file")
    else
      f ← gets (fun s => file_at (mem (the_fs s)) file);
      if negb (f_status f =? TINYFS_STATUS_LOADED)
      then err argv (str ": '" ++ arg argv 1 ++ str "': file is not loaded")
      else if strncmp (Z.to_nat TINYFS_NAME_MAX) (f_name f) (arg argv 2) =? 0
      then err argv (str ": '" ++ arg argv 1 ++ str "' and '" ++ arg argv 2
                     ++ str "' are the same file")
      else
        new ← on_fs (tinyfs_create_file (arg argv 2) (f_size f) (f_exec f) TINYFS_STATUS_LOADED);
        if new =? NULL then err argv (str ": '" ++ arg argv 2 ++ str "': failed to create the new file")
        else
          size ← gets (fun s => file_size (mem (the_fs s)) file);
          r ← on_fs (tinyfs_file_write new 0 (At (u32 (file + sizeof_file))) size);
          if negb (r =? 0) then err argv (str ": '" ++ arg argv 2 ++ str "': failed to copy file")
          else mret 0.

(** The loop over the bytes of the file. *)
Fixpoint cat_loop (n : nat) (addr : Z) : sh unit :=
  match n with
  | O => mret tt
  | S n =>
      c ← gets (fun s => rd8 (mem (the_fs s)) addr);
      emit [c] ;; cat_loop n (u32 (addr + 1))
  end.

Definition cat_main (argv : list (list Z)) : sh Z :=
  if bool_decide (List.length argv < 2)%nat then err argv (str ": name")
  else
    file ← on_fs (tinyfs_file_search (arg argv 1));
    if file =? NULL then err argv (str ": " ++ arg argv 1 ++ str ": no such file")
    else
      size ← gets (fun s => file_size (mem (the_fs s)) file);
      cat_loop (Z.to_nat size) (u32 (file + sizeof_file)) ;;
      emit NL ;;
      mret 0.

Fixpoint count_files_loop (fuel : nat) (file i : Z) : fs Z :=
  match fuel with
  | O => fail Diverge
  | S fuel =>
      file ← tinyfs_get_next_file file;
      if file =? NULL then mret i else count_files_loop fuel file (i + 1)
  end.

Definition count_files : fs Z :=
  file ← tinyfs_get_first_file;
  if file =? NULL then mret 0 else count_files_loop (S max_files) file 1.

Definition df_main (_ : list (list Z)) : sh Z := on_fs count_files.

Definition _fmtbin (_ : list (list Z)) : sh Z := on_fs tinyfs_format ;; mret 0.

(** ** [ls] *)

(** The string at an address; names are shorter than a page. *)
Fixpoint str_at (fuel : nat) (addr : Z) : sh (list Z) :=
  match fuel with
  | O => fail Undefined
  | S fuel =>
      c ← gets (fun s => rd8 (mem (the_fs s)) addr);
      if c =? 0 then mret [] else l ← str_at fuel (u32 (addr + 1)); mret (c :: l)
  end.

Definition file_infos (file : Z) (f : file_t) (name : list Z) : list Z :=
  pad_right 10 (if f_status f =? TINYFS_STATUS_LOADED then str "loaded"
                else if f_status f =? TINYFS_STATUS_LOADING then str "loading"
                else if f_status f =? TINYFS_STATUS_CREATED then str "created"
                else str "???")
  ++ str " "
  ++ pad_right 3 (if f_exec f =? 0 then str "-" else if f_exec f =? 1 then str "x" else str "???")
  ++ str " 0x" ++ pad_right 10 (show_hex (u32 (file + sizeof_file)))
  ++ str " " ++ pad_right 10 (show_dec (s32 (f_size f)))
  ++ str " " ++ pad_right 32 name
  ++ NL.

Definition print_file_infos (file : Z) : sh unit :=
  f ← gets (fun s => file_at (mem (the_fs s)) file);
  name ← str_at (Z.to_nat FLASHPAGE_SIZE) file;
  emit (file_infos file f name).

Fixpoint ls_loop (fuel : nat) (file : Z) : sh unit :=
  match fuel with
  | O => fail Diverge
  | S fuel =>
      file ← on_fs (tinyfs_get_next_file file);
      if file =? NULL then mret tt else print_file_infos file ;; ls_loop fuel file
  end.

Definition ls_main (_ : list (list Z)) : sh Z :=
  file ← on_fs tinyfs_get_first_file;
  if file =? NULL then mret 0
  else print_file_infos file ;; ls_loop (S max_files) file ;; mret 0.

(** ** [hexdump] *)

Definition FST_COL_END : nat := 8.
Definition SND_COL_END : nat := 16.

(** A line of the dump for the bytes that are left on it. *)
Definition dump_line (ptr : Z) (row : list Z) : list Z :=
  show_hex ptr ++ str "  "
  ++ flat_map (fun b => show_byte b ++ str " ") (take FST_COL_END row)
  ++ str "  "
  ++ flat_map (fun b => show_byte b ++ str " ") (drop FST_COL_END row)
  ++ mjoin (replicate (SND_COL_END - List.length row) (str "   "))
  ++ str " |" ++ map (fun b => if isprint b then b else 46) row ++ str "|" ++ NL.

Fixpoint dump_loop (fuel : nat) (ptr left_ : Z) : sh unit :=
  match fuel with
  | O => fail Diverge
  | S fuel =>
      if 0 <? left_ then
        let n := Z.min left_ (Z.of_nat SND_COL_END) in
        row ← gets (fun s => rd_bytes (mem (the_fs s)) ptr (Z.to_nat n));
        emit (dump_line ptr row) ;;
        dump_loop fuel (u32 (ptr + n)) (left_ - n)
      else emit (show_hex ptr ++ NL)
  end.

Definition dump (addr size : Z) : sh unit := dump_loop (S (Z.to_nat size)) addr size.

Definition hexdump_main (argv : list (list Z)) : sh Z :=
  if bool_decide (List.length argv < 2)%nat then err argv (str ": name")
  else
    file ← on_fs (tinyfs_file_search (arg argv 1));
    if file =? NULL then err argv (str ": " ++ arg argv 1 ++ str ": no such file")
    else
      size ← gets (fun s => file_size (mem (the_fs s)) file);
      dump (u32 (file + sizeof_file)) size ;;
      mret 0.

(** The registrations with [SHELL_COMMAND]. *)
Definition xipfs_commands : list (shell_command (Sys := device)) :=
  [ mkCommand (str "cat") (str "print files on the standard output") cat_main;
    mkCommand (str "cp") (str "copy files") cp_main;
    mkCommand (str "df") (str "report file system flash space usage") df_main;
    mkCommand (str "fmtbin") (str "format the file system") _fmtbin;
    mkCommand (str "hexdump") (str "ascii and hexadecimal dump") hexdump_main;
    mkCommand (str "ldbin") (str "load a chunk of machine code") _ldbin;
    mkCommand (str "ls") (str "list files") ls_main;
    mkCommand (str "mkbin") (str "allocate the space needed to load a binary") _mkbin;
    mkCommand (str "rm") (str "remove files") rm_main ].
End Commands.
