(* ===== verification/Base64.v ===== *)
(** * The encoding of uploads

    The host side of an upload, [put] and [run] of [RIOT/dist/tools/pyterm/pyterm]
    with the base64 encoding of RFC 4648 it uses, and the proof that the decoder
    of [ldbin] inverts the encoding, quad by quad and chunk by chunk. *)

From stdpp Require Import base gmap list.
From Stdlib Require Import ZArith Lia.
From S2P Require Import Prelude Flash XipFs Shell XipFsShell.

Local Open Scope Z_scope.

(** ** The encoding *)

Definition b64_char (i : Z) : Z := default 0 (b64 !! Z.to_nat i).
Definition PAD : Z := 61.

Fixpoint b64encode (l : list Z) : list Z :=
  match l with
  | [] => []
  | [a] => [b64_char (a / 4); b64_char (a mod 4 * 16); PAD; PAD]
  | [a; b] => [b64_char (a / 4); b64_char (a mod 4 * 16 + b / 16); b64_char (b mod 16 * 4); PAD]
  | a :: b :: c :: l =>
      b64_char (a / 4) :: b64_char (a mod 4 * 16 + b / 16) ::
      b64_char (b mod 16 * 4 + c / 64) :: b64_char (c mod 64) :: b64encode l
  end.

(** ** The host tool *)

(** [SHELL_DEFAULT_BUFSIZE] of the tool, one less than the buffer of the shell. *)
Definition HOST_BUFSIZE : Z := 128 - 1.
Definition trunc (x y : Z) : Z := Z.land x (Z.lnot (y - 1)).

(** [rfind] of a character, and what follows the last one. *)
Fixpoint rfind (c : Z) (i : nat) (l : list Z) (found : option nat) : option nat :=
  match l with
  | [] => found
  | x :: l => rfind c (S i) l (if x =? c then Some i else found)
  end.
Definition path_name (filename : list Z) : list Z :=
  match rfind 47 0 filename None with Some i => drop (S i) filename | None => filename end.
(** [pathlib.Path(filename).suffix]. *)
Definition path_suffix (filename : list Z) : list Z :=
  let name := path_name filename in
  match rfind 46 0 name None with
  | Some i => if decide (0 < i < length name - 1)%nat then drop i name else []
  | None => []
  end.

(** [[s[i:i+k] for i in range(0, len(s), k)]]. *)
Fixpoint slices (fuel k : nat) (l : list Z) : list (list Z) :=
  match fuel, l with
  | O, _ | _, [] => []
  | S fuel, _ => take k l :: slices fuel k (drop k l)
  end.

(** The script [put] writes for a file, whose name and text are Unicode characters; [None] if its name is too long. *)
Definition put (filename binstr : list Z) : option (list Z) :=
  if decide (32 <= length filename)%nat then None
  else
    let chksz := trunc (HOST_BUFSIZE - Z.of_nat (length (word_ldbin ++ [SPACE] ++ filename ++ [SPACE]))) 4 in
    let flashsz := Z.of_nat (length binstr) in
    let b64str := b64encode binstr in
    Some ((if decide (path_suffix filename = suffix_bin)
           then word_mkbin ++ [SPACE] ++ filename ++ [SPACE] ++ show_dec flashsz ++ [SPACE; 49; LF]
           else word_mkbin ++ [SPACE] ++ filename ++ [SPACE] ++ show_dec flashsz ++ [SPACE; 48; LF])
          ++ flat_map (fun chunk => word_ldbin ++ [SPACE] ++ filename ++ [SPACE] ++ chunk ++ [LF])
               (slices (length b64str) (Z.to_nat chksz) b64str)).

(** [split] at line ends and [strip], which takes the blanks of Unicode away. *)
Fixpoint split_lines (cur l : list Z) : list (list Z) :=
  match l with
  | [] => [cur]
  | c :: l => if c =? LF then cur :: split_lines [] l else split_lines (cur ++ [c]) l
  end.
Definition py_space (c : Z) : bool :=
  ((9 <=? c) && (c <=? 13)) || ((28 <=? c) && (c <=? 32)) || (c =? 0x85) || (c =? 0xa0) || (c =? 0x1680) ||
  ((0x2000 <=? c) && (c <=? 0x200a)) || (c =? 0x2028) || (c =? 0x2029) || (c =? 0x202f) || (c =? 0x205f) || (c =? 0x3000).
Fixpoint lstrip (l : list Z) : list Z :=
  match l with c :: l' => if py_space c then lstrip l' else l | [] => [] end.
Definition strip (l : list Z) : list Z := rev (lstrip (rev (lstrip l))).

(** The line ends a file opened as text is read with. *)
Fixpoint newlines (l : list Z) : list Z :=
  match l with
  | [] => []
  | c :: l' =>
      if c =? CR then LF :: match l' with d :: l'' => if d =? LF then newlines l'' else newlines l' | [] => [] end
      else c :: newlines l'
  end.

(** [i.encode("utf-8")] of a character; [None] is the exception for a surrogate. *)
Definition utf8 (c : Z) : option (list Z) :=
  if (0 <=? c) && (c <? 0x80) then Some [c]
  else if (0x80 <=? c) && (c <? 0x800) then Some [192 + c / 64; 128 + c mod 64]
  else if (0x800 <=? c) && (c <? 0x10000) && negb ((0xd800 <=? c) && (c <? 0xe000)) then
    Some [224 + c / 4096; 128 + c / 64 mod 64; 128 + c mod 64]
  else if (0x10000 <=? c) && (c <? 0x110000) then
    Some [240 + c / 262144; 128 + c / 4096 mod 64; 128 + c / 64 mod 64; 128 + c mod 64]
  else None.
Definition encode (l : list Z) : option (list Z) := (fun bs => concat bs) <$> mapM utf8 l.

(** The bytes [run] sends for the characters of a script; [None] is an exception, also the one
    of [cmds[-1]] for an empty script. *)
Definition host_run (script : list Z) : option (list Z) :=
  let cmds := newlines script in
  match last cmds with
  | None => None
  | Some c =>
      let lines := split_lines [] cmds in
      let lines := if c =? LF then removelast lines else lines in
      encode (flat_map (fun cmd => strip cmd ++ [LF]) lines)
  end.

(** ** Facts of the alphabet *)

(** A property of the sixty-four values, checked on each. *)
Lemma sextets (P : Z -> bool) :
  forallb P (map Z.of_nat (seq 0 64)) = true -> forall i, 0 <= i < 64 -> P i = true.
Proof.
  intros H i Hi. rewrite forallb_forall in H. apply H, in_map_iff.
  exists (Z.to_nat i). split; [lia|]. apply in_seq. lia.
Qed.

Lemma b64_index_char i : 0 <= i < 64 -> b64_index (b64_char i) = Some i.
Proof.
  intros Hi.
  assert (bool_decide (b64_index (b64_char i) = Some i) = true) as H; [|by apply bool_decide_eq_true_1 in H].
  revert i Hi. apply sextets. vm_compute. reflexivity.
Qed.

Lemma b64_index_pad : b64_index PAD = None.
Proof. reflexivity. Qed.

(** Characters that pass the checks of [ldbin], the line reader and the tokenizer. *)
Definition b64_ok (c : Z) : bool := (valid c =? 0) && (32 <? c) && (c <? 127)
  && negb (c =? 34) && negb (c =? 39) && negb (c =? 92).

Lemma b64_ok_char i : 0 <= i < 64 -> b64_ok (b64_char i) = true.
Proof. apply (sextets (fun i => b64_ok (b64_char i))). vm_compute. reflexivity. Qed.

(** ** Decoding a quad *)

Lemma pack_sextets i0 i1 i2 i3 :
  0 <= i0 -> 0 <= i1 < 64 -> 0 <= i2 < 64 -> 0 <= i3 < 64 ->
  Z.lor (Z.lor (Z.lor (Z.lor 0 (Z.shiftl i0 18)) (Z.shiftl i1 12)) (Z.shiftl i2 6)) i3 =
  i0 * 2 ^ 18 + i1 * 2 ^ 12 + i2 * 2 ^ 6 + i3.
Proof.
  intros H0 H1 H2 H3. rewrite Z.lor_0_l.
  assert (forall a b, 0 <= b < 64 -> Z.lor (Z.shiftl a 6) b = a * 2 ^ 6 + b) as L
    by (intros; symmetry; apply lor_halves; [lia|done]).
  replace (Z.shiftl i0 18) with (Z.shiftl (Z.shiftl i0 6) 12) by (by rewrite Z.shiftl_shiftl by lia).
  rewrite <- Z.shiftl_lor, L by done.
  replace (Z.shiftl (i0 * 2 ^ 6 + i1) 12) with (Z.shiftl (Z.shiftl (i0 * 2 ^ 6 + i1) 6) 6)
    by (by rewrite Z.shiftl_shiftl by lia).
  rewrite <- Z.shiftl_lor, L by done. rewrite L by done. lia.
Qed.

Lemma unpack_byte x k : 0 <= k -> Z.land (Z.shiftr x k) 255 = (x / 2 ^ k) mod 256.
Proof.
  intros. change 255 with (Z.ones 8). rewrite Z.land_ones by lia.
  by rewrite Z.shiftr_div_pow2.
Qed.

Lemma unpack_low x : Z.land x 255 = x mod 256.
Proof. change 255 with (Z.ones 8). by rewrite Z.land_ones by lia. Qed.

Section Quads.
Variables a b c : Z.
Hypotheses (Ha : is_word 8 a) (Hb : is_word 8 b) (Hc : is_word 8 c).

Local Ltac sextet := unfold is_word in *; Z.div_mod_to_equations; lia.
Local Ltac start := unfold is_word in *; unfold decode_quad; rewrite !b64_index_char by sextet.

Lemma decode_quad3 :
  decode_quad (b64_char (a / 4)) (b64_char (a mod 4 * 16 + b / 16))
    (b64_char (b mod 16 * 4 + c / 64)) (b64_char (c mod 64)) = Some ([a; b; c], 3).
Proof using Ha Hb Hc.
  start. rewrite pack_sextets by sextet. rewrite !unpack_byte, unpack_low by lia.
  do 3 f_equal; [sextet|]. f_equal; [sextet|]. f_equal. sextet.
Qed.

Lemma decode_quad2 :
  exists z, decode_quad (b64_char (a / 4)) (b64_char (a mod 4 * 16 + b / 16))
    (b64_char (b mod 16 * 4)) PAD = Some ([a; b; z], 2).
Proof using Ha Hb.
  clear c Hc. start. rewrite b64_index_pad.
  rewrite <- (Z.lor_0_r (Z.lor (Z.lor (Z.lor 0 _) _) _)). rewrite pack_sextets by sextet.
  rewrite !unpack_byte by lia. eexists. do 3 f_equal; [sextet|]. f_equal. sextet.
Qed.

Lemma decode_quad1 :
  exists y z, decode_quad (b64_char (a / 4)) (b64_char (a mod 4 * 16)) PAD PAD = Some ([a; y; z], 1).
Proof using Ha.
  clear b c Hb Hc. start. rewrite b64_index_pad.
  pose proof (pack_sextets (a / 4) (a mod 4 * 16) 0 0) as Hp.
  rewrite Z.shiftl_0_l, !Z.lor_0_r in Hp. rewrite Hp by sextet.
  rewrite !unpack_byte by lia. eexists _, _. do 3 f_equal. sextet.
Qed.
End Quads.

(** ** Shape of an encoded text *)

(** Induction three bytes at a time. *)
Lemma triple_ind (P : list Z -> Prop) :
  P [] -> (forall a, P [a]) -> (forall a b, P [a; b]) ->
  (forall a b c l, P l -> P (a :: b :: c :: l)) -> forall l, P l.
Proof.
  intros H0 H1 H2 H3.
  enough (forall n l, (length l <= n)%nat -> P l) as H by eauto.
  induction n as [|n IH]; intros l Hl; [by destruct l; [|cbn in Hl; lia]|].
  destruct l as [|a [|b [|c l]]]; auto. apply H3, IH. cbn in Hl. lia.
Qed.

Lemma b64encode_length l : length (b64encode l) = (4 * ((length l + 2) / 3))%nat.
Proof.
  induction l as [|a|a b|a b c l IH] using triple_ind; [done..|].
  cbn [b64encode length]. rewrite IH.
  replace (S (S (S (length l))) + 2)%nat with (1 * 3 + (length l + 2))%nat by lia.
  rewrite Nat.div_add_l by lia. lia.
Qed.

Lemma b64encode_ok l : Forall (is_word 8) l -> Forall (fun c => b64_ok c = true) (b64encode l).
Proof.
  assert (b64_ok PAD = true) by reflexivity.
  induction l as [|a|a b|a b c l IH] using triple_ind; rewrite ?Forall_cons; unfold is_word;
    [constructor|intros [Ha _]|intros (Ha & Hb & _)|intros (Ha & Hb & Hc & Hl)];
    cbn [b64encode]; repeat (apply Forall_cons; split); auto;
    apply b64_ok_char; Z.div_mod_to_equations; lia.
Qed.

(** Cutting an encoded text at a multiple of four cuts the data at a multiple of three. *)
Lemma b64encode_cut k l :
  take (4 * k) (b64encode l) = b64encode (take (3 * k) l) /\
  drop (4 * k) (b64encode l) = b64encode (drop (3 * k) l).
Proof.
  revert l. induction k as [|k IH]; intros l; [done|].
  replace (4 * S k)%nat with (S (S (S (S (4 * k))))) by lia.
  replace (3 * S k)%nat with (S (S (S (3 * k)))) by lia.
  destruct l as [|a [|b [|c l]]]; cbn [b64encode take drop];
    rewrite ?take_nil, ?drop_nil; try done.
  destruct (IH l) as [-> ->]. done.
Qed.

(** ** What the host sends *)

Lemma slices_encode k fuel1 fuel2 l :
  (0 < k)%nat -> (length (b64encode l) <= fuel1)%nat -> (length l <= fuel2)%nat ->
  slices fuel1 (4 * k) (b64encode l) = map b64encode (slices fuel2 (3 * k) l).
Proof.
  intros Hk. revert l fuel2. induction fuel1 as [|fuel1 IH]; intros l fuel2 H1 H2.
  - destruct l as [|a [|b [|c l]]]; cbn in H1; try lia. by destruct fuel2.
  - destruct l as [|a l]; [by destruct fuel2|]. destruct fuel2 as [|fuel2]; [cbn in H2; lia|].
    assert (slices (S fuel1) (4 * k) (b64encode (a :: l)) =
            take (4 * k) (b64encode (a :: l)) :: slices fuel1 (4 * k) (drop (4 * k) (b64encode (a :: l)))) as ->
      by (by destruct l as [|b [|c l]]).
    destruct (b64encode_cut k (a :: l)) as [-> Hd]. cbn [slices map]. f_equal.
    rewrite Hd. apply IH.
    + rewrite <- Hd, length_drop.
      assert (0 < length (b64encode (a :: l)))%nat by (destruct l as [|b [|c l]]; cbn; lia). lia.
    + rewrite length_drop. cbn [length] in *. lia.
Qed.

Lemma slices_concat fuel k l :
  (0 < k)%nat -> (length l <= fuel)%nat ->
  concat (slices fuel k l) = l /\
  Forall (fun c => c <> [] /\ (length c <= k)%nat) (slices fuel k l).
Proof.
  intros Hk. revert l. induction fuel as [|fuel IH]; intros l Hl.
  { destruct l; [done|cbn in Hl; lia]. }
  destruct l as [|a l]; [done|]. cbn [slices].
  destruct (IH (drop k (a :: l))) as [IH1 IH2]; [rewrite length_drop; cbn in *; lia|].
  split.
  - cbn [concat]. rewrite IH1. apply take_drop.
  - constructor; [|done]. split; [destruct k; [lia|done]|rewrite length_take; lia].
Qed.

(** A line without blanks at its ends is sent as it is. *)
Definition unpadded (l : list Z) : Prop :=
  (forall c, head l = Some c -> py_space c = false) /\
  (forall c, last l = Some c -> py_space c = false).

Lemma lstrip_id l : (forall c, head l = Some c -> py_space c = false) -> lstrip l = l.
Proof. destruct l as [|c l]; [done|]. intros H. cbn. by rewrite (H c eq_refl). Qed.

Lemma strip_id l : unpadded l -> strip l = l.
Proof.
  intros [H1 H2]. unfold strip. rewrite (lstrip_id l H1). rewrite lstrip_id; [apply rev_involutive|].
  intros c Hc. apply H2. rewrite <- Hc. clear. induction l as [|x l IH] using rev_ind; [done|].
  by rewrite last_snoc, rev_app_distr.
Qed.

Lemma split_lines_cons cur l rest :
  LF ∉ l -> split_lines cur (l ++ LF :: rest) = (cur ++ l) :: split_lines [] rest.
Proof.
  revert cur. induction l as [|c l IH]; intros cur Hl; cbn [app split_lines].
  - by rewrite app_nil_r.
  - apply not_elem_of_cons in Hl as [Hc Hl]. rewrite (proj2 (Z.eqb_neq c LF)) by done.
    rewrite IH by done. by rewrite <- app_assoc.
Qed.

(** The characters whose encoding is their code. *)
Definition ascii (c : Z) : bool := (0 <=? c) && (c <? 0x80).

Lemma encode_ascii l : Forall (fun c => ascii c = true) l -> encode l = Some l.
Proof.
  intros Hl. unfold encode. induction Hl as [|c l Hc Hl IH]; [done|]. cbn [mapM].
  assert (utf8 c = Some [c]) as -> by (unfold ascii in Hc; unfold utf8; by rewrite Hc).
  destruct (mapM utf8 l) as [bs|]; [|done]. cbn in *. by injection IH as ->.
Qed.

Lemma newlines_id l : CR ∉ l -> newlines l = l.
Proof.
  induction l as [|c l IH]; [done|]. intros [Hc Hl]%not_elem_of_cons. cbn [newlines].
  rewrite (proj2 (Z.eqb_neq c CR)) by done. by rewrite IH.
Qed.

Lemma host_run_lines ls :
  ls <> [] -> Forall (fun l => LF ∉ l /\ unpadded l) ls ->
  Forall (Forall (fun c => ascii c = true /\ c <> CR)) ls ->
  host_run (flat_map (fun l => l ++ [LF]) ls) = Some (flat_map (fun l => l ++ [LF]) ls).
Proof.
  intros Hne Hls Hasc.
  assert (Forall (fun c => ascii c = true /\ c <> CR) (flat_map (fun l => l ++ [LF]) ls)) as Hall.
  { clear -Hasc. induction Hasc as [|l ls Hl Hls IH]; [constructor|]. cbn [flat_map].
    repeat apply Forall_app_2; [done|by repeat constructor|done]. }
  unfold host_run. rewrite newlines_id by (intros Hin; rewrite Forall_forall in Hall; apply Hall in Hin as [_ Hcr]; by apply Hcr).
  assert (split_lines [] (flat_map (fun l => l ++ [LF]) ls) = ls ++ [[]]) as ->.
  { clear -Hls. induction Hls as [|l ls [Hl _] Hls IH]; [done|].
    cbn [flat_map]. rewrite <- app_assoc. cbn [app]. rewrite split_lines_cons by done. by rewrite IH. }
  assert (last (flat_map (fun l => l ++ [LF]) ls) = Some LF) as ->.
  { destruct ls as [|l ls _] using rev_ind; [done|].
    rewrite flat_map_app. cbn [flat_map]. rewrite app_nil_r, app_assoc. apply last_snoc. }
  change (LF =? LF) with true. cbv iota. rewrite removelast_last.
  assert (flat_map (fun cmd => strip cmd ++ [LF]) ls = flat_map (fun l => l ++ [LF]) ls) as ->.
  { clear -Hls. induction Hls as [|l ls [_ Hl] Hls IH]; [done|]. cbn [flat_map]. by rewrite strip_id, IH. }
  apply encode_ascii. eapply Forall_impl; [exact Hall|]. by intros c [? _].
Qed.
