(* ===== verification/XipFsLoad.v ===== *)
(** * Loading a file through the shell

    What [mkbin], [ldbin] and [cat] of [XipFsShell] do to a mounted file system:
    the status changes and the count of loading files on layouts, the decoding
    loop as a sequence of appends to the loaded part of a file, and the effect of
    each command on the list of files. *)

From stdpp Require Import base gmap list.
From Stdlib Require Import ZArith Lia.
From S2P Require Import Prelude Flash XipFs XipFsSpec XipFsOps XipFsAdmin Shell ShellSpec XipFsShell Base64.

Local Open Scope Z_scope.

(** ** Status changes of a mounted system *)

Lemma created_status : TINYFS_STATUS_CREATED ∈ statuses.
Proof. apply list_elem_of_In. vm_compute. tauto. Qed.
Lemma loading_status : TINYFS_STATUS_LOADING ∈ statuses.
Proof. apply list_elem_of_In. vm_compute. tauto. Qed.
Lemma loaded_status : TINYFS_STATUS_LOADED ∈ statuses.
Proof. apply list_elem_of_In. vm_compute. tauto. Qed.
#[export] Hint Resolve created_status loading_status loaded_status : mem.

Definition with_status (st : Z) (f : afile) : afile :=
  mkAfile (a_name f) (a_size f) st (a_exec f) (a_body f).

Section Status.
Context `{HN : Nvmc}.

Lemma abs_status_frame m m' p st :
  file_status m' p = st -> (forall b, b < p + 40 \/ p + 44 <= b -> rd8 m' b = rd8 m b) ->
  abs_file m' p = with_status st (abs_file m p).
Proof using.
  intros Hst Ho.
  assert (file_size m' p = file_size m p) as Hz
    by (apply rd_le_ext; intros b Hb; apply Ho; cbn in Hb; lia).
  assert (file_name m' p = file_name m p) as Hn
    by (apply rd_bytes_ext; intros b Hb; apply Ho; change (Z.of_nat (Z.to_nat TINYFS_NAME_MAX)) with 32 in Hb; lia).
  assert (file_exec m' p = file_exec m p) as He
    by (apply rd_le_ext; intros b Hb; apply Ho; cbn in Hb; lia).
  unfold abs_file, with_status, span. rewrite Hz, Hn, He, Hst. cbn. f_equal.
  apply rd_bytes_ext. intros b Hb. apply Ho. unfold sizeof_file in *. lia.
Qed.

(** The static variables no flash operation touches. *)
Definition statics (s : tinyfs) : Z * Z * Z := (first_page s, last_page s, module_init s).

Lemma write_status_statics p st s u s' :
  write_status p st s = Ok (u, s') -> statics s' = statics s.
Proof using.
  unfold write_status, on_dev. destruct (flashpage_write _ _ _ _) as [[u' d]|]; [|done].
  intros [= <- <-]. done.
Qed.

Lemma file_status_statics p new s r s' :
  tinyfs_file_status p new s = Ok (r, s') -> statics s' = statics s.
Proof using.
  unfold tinyfs_file_status, mbind, cmd_bind, mret, cmd_ret, gets. intros H.
  repeat (case_match; try discriminate); simplify_eq; try done;
    repeat match goal with H : write_status _ _ _ = Ok _ |- _ => apply write_status_statics in H end;
    congruence.
Qed.

Lemma set_status_spec s l e p new :
  mounted s l e -> p ∈ l -> file_status (mem s) p ∈ statuses -> new ∈ statuses ->
  exists s', tinyfs_file_status p new s = Ok (fst (status_step (file_status (mem s) p) new), s') /\
    mounted s' l e /\
    abs_file (mem s') p = with_status (snd (status_step (file_status (mem s) p) new)) (abs_file (mem s) p) /\
    forall q, q ∈ l -> q <> p -> abs_file (mem s') q = abs_file (mem s) q.
Proof using.
  intros (Hi & G & Hl) Hp Hold Hnew. pose proof (geo_first _ _ G) as Ha.
  destruct (layout_flash_header _ _ _ _ _ _ G Hl Hp) as (Hh & Hz & Hend).
  destruct (file_status_spec s p new Hh Hold Hnew) as (s' & Hs & Hst & _ & Ho).
  pose proof (file_status_statics _ _ _ _ _ Hs) as [= Hf1 Hf2 Hf3].
  pose proof (span_ok _ _ Hz) as (Hsp & _).
  assert (forall q, q ∈ l -> q <> p -> same_on (mem s) (mem s') q (q + span (mem s) q)) as Hoth.
  { intros q Hq Hne b Hb. apply Ho. unfold FLASHPAGE_SIZE in *.
    destruct (layout_disjoint _ _ G _ _ _ _ _ _ Hl Ha Hq Hp Hne); lia. }
  exists s'. split; [exact Hs|]. split_and!.
  - split; [congruence|]. rewrite Hf1, Hf2. split; [done|].
    eapply layout_members; [exact Hl| |].
    + intros q Hq. destruct (decide (q = p)) as [-> | Hne].
      * split; apply rd_le_ext; intros b Hb; apply Ho; cbn in Hb; lia.
      * destruct (layout_elem _ _ G _ _ _ _ _ Hl Ha Hq) as (_ & _ & Hzq & _).
        pose proof (span_ok _ _ Hzq) as (?&_&_).
        assert (same_on (mem s) (mem s') q (q + sizeof_file)) as Hsq
          by (eapply same_on_weaken; [by apply Hoth|lia|unfold FLASHPAGE_SIZE, sizeof_file in *; lia]).
        split; [exact (file_size_ext _ _ _ Hsq)|exact (file_next_ext _ _ _ Hsq)].
    + intros r -> b Hb. apply Ho. right.
      pose proof (layout_below _ _ G _ _ _ _ _ Hl Ha Hp). unfold FLASHPAGE_SIZE in *. lia.
  - by apply abs_status_frame.
  - intros q Hq Hne. destruct (layout_elem _ _ G _ _ _ _ _ Hl Ha Hq) as (_ & _ & Hzq & _).
    apply abs_file_ext; [done|]. by apply Hoth.
Qed.
End Status.

(** ** Counting the files that are loading *)

Definition loading (m : memory) (p : Z) : bool := file_status m p =? TINYFS_STATUS_LOADING.
Definition loading_count (m : memory) (l : list Z) : Z :=
  Z.of_nat (length (filter (fun p => loading m p = true) l)).

Lemma loading_count_cons m p l :
  loading_count m (p :: l) = (if loading m p then 1 else 0) + loading_count m l.
Proof.
  unfold loading_count. rewrite filter_cons. destruct (loading m p) eqn:E.
  - rewrite decide_True by done. cbn [length]. lia.
  - rewrite decide_False by done. lia.
Qed.

Section Count.
Variable s : tinyfs.
Hypotheses (Hinit : module_init s = TINYFS_INITIALIZED) (G : geometry (first_page s) (last_page s)).

Lemma count_loading_loop_spec fuel p l e n :
  layout (mem s) (first_page s) (last_page s) p (p :: l) e -> aligned p -> first_page s <= p ->
  (l = [] /\ e = None -> p = first_page s) -> (length l < fuel)%nat ->
  count_loading_loop fuel p n s = Ok (n + loading_count (mem s) (visible_rest l e), s).
Proof using Hinit G.
  revert p l n. induction fuel as [|fuel IH]; intros p l n Hl Ha Hf Hlast Hfuel; [lia|].
  cbn [count_loading_loop]. erewrite cmd_bind_Ok by (by apply (get_next_spec s Hinit G p l e)).
  destruct (head (visible_rest l e)) as [q|] eqn:Hq.
  - destruct (visible_rest_step _ G _ _ _ _ Hl Ha Hq) as (l' & -> & Hlq & Haq & Hlt & Hv & Hne).
    rewrite Hv, loading_count_cons. change (default NULL (Some q)) with q.
    pose proof G as [_ _ ? _ _]. rewrite (proj2 (Z.eqb_neq q NULL)) by (unfold NULL; lia).
    rewrite (cmd_bind_Ok _ _ _ _ _ eq_refl). rewrite (IH q l'); [|done|done|lia|tauto|cbn in Hfuel; lia].
    unfold loading. do 2 f_equal. lia.
  - destruct (visible_rest l e); [|discriminate]. cbn. unfold mret, cmd_ret. do 2 f_equal.
    unfold loading_count. cbn. lia.
Qed.
End Count.

Lemma count_loading_spec s l e :
  mounted s l e -> count_loading s = Ok (loading_count (mem s) (visible l e), s).
Proof.
  intros (Hi & G & Hl). unfold count_loading.
  erewrite cmd_bind_Ok by (by apply (get_first_spec s Hi G l e)).
  destruct l as [|p l]; [done|].
  assert (p = first_page s) as -> by (by inversion Hl). cbn [visible head].
  change (default NULL (Some (first_page s))) with (first_page s).
  rewrite (proj2 (Z.eqb_neq (first_page s) NULL)) by (unfold NULL; destruct G; lia).
  rewrite (cmd_bind_Ok _ _ _ _ _ eq_refl).
  rewrite (count_loading_loop_spec s Hi G _ _ l e); [|done|apply G|lia|tauto|].
  - rewrite loading_count_cons. by unfold loading.
  - pose proof (layout_fuel _ _ G _ _ _ _ Hl ltac:(lia)). cbn in *. lia.
Qed.

(** ** Appending to the loaded part of a file *)

(** A file whose body holds [data] and is erased after it. *)
Definition partial (name : list Z) (size st exec : Z) (data : list Z) (n : nat) : afile :=
  mkAfile name size st exec (data ++ replicate n FLASHPAGE_ERASE_STATE).

Lemma partial_erased m p name size st exec data n :
  abs_file m p = partial name size st exec data n ->
  erased m (p + sizeof_file + Z.of_nat (length data)) (Z.of_nat n).
Proof.
  intros H b Hb. apply (f_equal a_body) in H. cbn [abs_file partial a_body] in H.
  set (N := Z.to_nat (span m p - sizeof_file)) in *.
  assert (N = length data + n)%nat as HN.
  { apply (f_equal length) in H. by rewrite length_rd_bytes, length_app, length_replicate in H. }
  assert (rd_bytes m (p + sizeof_file) N !! Z.to_nat (b - (p + sizeof_file)) =
          Some FLASHPAGE_ERASE_STATE) as Hlk.
  { rewrite H, lookup_app_r by lia. apply lookup_replicate_2. lia. }
  rewrite lookup_rd_bytes in Hlk by lia. injection Hlk as <-. f_equal. lia.
Qed.

Section Append.
Context `{HN : Nvmc}.

Lemma append_spec s l e p name size st exec data n bs buf :
  mounted s l e -> p ∈ l -> abs_file (mem s) p = partial name size st exec data n ->
  bs <> [] -> Forall (is_word 8) bs -> (length bs <= n)%nat ->
  Z.of_nat (length data + length bs) <= size ->
  (forall k v, bs !! k = Some v -> buf !! k = Some v) ->
  exists s', tinyfs_file_write p (Z.of_nat (length data)) (Auto buf) (Z.of_nat (length bs)) s = Ok (0, s') /\
    mounted s' l e /\
    abs_file (mem s') p = partial name size st exec (data ++ bs) (n - length bs) /\
    forall q, q ∈ l -> q <> p -> abs_file (mem s') q = abs_file (mem s) q.
Proof using.
  intros Hm Hp Hab Hne Hw Hn Hsz Hbuf. pose proof Hm as (Hi & G & Hl).
  destruct (layout_elem _ _ G _ _ _ _ _ Hl (geo_first _ _ G) Hp) as (_ & _ & Hz & _).
  pose proof (span_ok _ _ Hz) as (Hsp & _).
  pose proof (partial_erased _ _ _ _ _ _ _ _ Hab) as He.
  assert (file_size (mem s) p = size) as Hfs by (by apply (f_equal a_size) in Hab).
  assert (Z.to_nat (span (mem s) p - sizeof_file) = length data + n)%nat as Hbody.
  { apply (f_equal (fun f => length (a_body f))) in Hab. cbn in Hab.
    by rewrite length_rd_bytes, length_app, length_replicate in Hab. }
  destruct (file_write_spec s l e p (Z.of_nat (length data)) (Auto buf) bs)
    as (s' & Hs & Hm' & Ha' & Ho); try done; [lia|lia|unfold sizeof_file, FLASHPAGE_SIZE in *; lia| | |].
  - apply clears_erased; [done|]. eapply erased_weaken; [exact He|lia|lia].
  - intros k v m' Hk _. cbn [source_byte]. by rewrite Nat2Z.id, (Hbuf k v Hk).
  - exists s'. split_and!; [done|done| |done]. rewrite Ha', Hab. unfold write_body, partial. cbn.
    f_equal. rewrite Nat2Z.id, take_app_length, drop_app_ge, <- app_assoc by lia.
    replace (length data + length bs - length data)%nat with (length bs) by lia.
    by rewrite drop_replicate.
Qed.
End Append.

(** ** The decoding loop *)

(** The state of an upload: the file at [p] holds [data], [offset] is its length. *)
Section Decode.
Context `{HN : Nvmc}.
Variables (l : list Z) (e : option Z) (p : Z) (name : list Z) (size st exec : Z).
Hypothesis Hp : p ∈ l.

(** [d'] differs from [d] only in the body of the file at [p]. *)
Definition others (d d' : tinyfs) : Prop :=
  forall q, q ∈ l -> q <> p -> abs_file (mem d') q = abs_file (mem d) q.

Lemma others_trans d1 d2 d3 : others d1 d2 -> others d2 d3 -> others d1 d3.
Proof using. intros H1 H2 q Hq Hne. by rewrite H2, H1. Qed.

Definition at_part (f : tinyfs) (data : list Z) (n : nat) : Prop :=
  mounted f l e /\ abs_file (mem f) p = partial name size st exec data n.

Definition device_of (s : shell device) (f : tinyfs) (off : nat) : shell device :=
  set_sys (mkDevice f (Z.of_nat off)) s.

(** One round of the loop stores the decoded bytes. *)
Lemma decode_round s data n c0 c1 c2 c3 rest bs buf :
  at_part (the_fs s) data n -> ld_offset (sh_sys s) = Z.of_nat (length data) ->
  decode_quad c0 c1 c2 c3 = Some (buf, Z.of_nat (length bs)) ->
  (forall k v, bs !! k = Some v -> buf !! k = Some v) ->
  bs <> [] -> Forall (is_word 8) bs -> (length bs <= n)%nat ->
  Z.of_nat (length data + length bs) <= size ->
  exists f', at_part f' (data ++ bs) (n - length bs) /\ others (the_fs s) f' /\
    b64decode p (c0 :: c1 :: c2 :: c3 :: rest) s =
    b64decode p rest (device_of s f' (length data + length bs)).
Proof using Hp.
  intros [Hm Hab] Hoff Hq Hbuf Hne Hw Hn Hsz.
  destruct (append_spec _ l e p name size st exec data n bs buf Hm Hp Hab)
    as (f' & Hwr & Hm' & Ha' & Ho); [done..|].
  exists f'. split; [done|]. split; [exact Ho|]. cbn [b64decode].
  assert (file_size (mem (the_fs s)) p = size) as Hfs by (by apply (f_equal a_size) in Hab).
  assert (0 < length bs)%nat by (destruct bs; [done|cbn; lia]).
  pose proof (rd32_range (mem (the_fs s)) (p + 32)) as Hsz32. fold (file_size (mem (the_fs s)) p) in Hsz32.
  unfold is_word in Hsz32.
  do 2 rewrite (cmd_bind_Ok _ _ _ _ _ eq_refl). rewrite Hfs, Hoff.
  rewrite (proj2 (Z.ltb_lt _ _)) by lia. rewrite Hq.
  erewrite cmd_bind_Ok by (unfold on_fs; by rewrite Hwr).
  rewrite (cmd_bind_Ok _ _ _ _ _ eq_refl). rewrite <- Nat2Z.inj_add.
  rewrite wrap_small by (unfold is_word; lia). done.
Qed.

Lemma b64decode_spec chunk s data n :
  at_part (the_fs s) data n -> ld_offset (sh_sys s) = Z.of_nat (length data) ->
  Forall (is_word 8) chunk -> (length chunk <= n)%nat ->
  Z.of_nat (length data + length chunk) <= size ->
  exists f', at_part f' (data ++ chunk) (n - length chunk) /\ others (the_fs s) f' /\
    b64decode p (b64encode chunk) s = Ok (tt, device_of s f' (length data + length chunk)).
Proof using Hp.
  revert s data n. induction chunk as [|a|a b|a b c chunk IH] using triple_ind;
    intros s data n Hat Hoff Hw Hn Hsz.
  - exists (the_fs s). split; [by rewrite app_nil_r, Nat.sub_0_r|]. split; [done|].
    cbn [b64encode b64decode length]. rewrite Nat.add_0_r. unfold device_of. rewrite <- Hoff.
    destruct s as [? ? ? [? ?]]; done.
  - destruct (decode_quad1 a) as (y & z & Hq); [by apply Forall_cons in Hw as [? _]|].
    destruct (decode_round s data n _ _ _ _ [] [a] [a; y; z] Hat Hoff Hq) as (f' & H1 & H2 & H3); try done.
    { intros k v Hk. apply list_lookup_singleton_Some in Hk as [-> ->]. done. }
    exists f'. split; [done|]. split; [done|]. cbn [b64encode]. by rewrite H3.
  - apply Forall_cons in Hw as [Ha Hw']. apply Forall_cons in Hw' as [Hb _].
    destruct (decode_quad2 a b) as (z & Hq); [done|done|].
    destruct (decode_round s data n _ _ _ _ [] [a; b] [a; b; z] Hat Hoff Hq) as (f' & H1 & H2 & H3); try done.
    { intros [|[|k]] v Hk; cbn in Hk |- *; done. }
    { apply Forall_cons; split; [done|]. apply Forall_cons; by split. }
    exists f'. split; [done|]. split; [done|]. cbn [b64encode]. by rewrite H3.
  - rewrite !Forall_cons in Hw. destruct Hw as (Ha & Hb & Hc & Hw). cbn [length] in Hn, Hsz.
    pose proof (decode_quad3 a b c Ha Hb Hc) as Hq.
    destruct (decode_round s data n _ _ _ _ (b64encode chunk) [a; b; c] [a; b; c] Hat Hoff Hq)
      as (f1 & H1 & H2 & H3); try done; [repeat (apply Forall_cons; split); done|cbn; lia|cbn; lia|].
    destruct (IH (device_of s f1 (length data + 3)) (data ++ [a; b; c]) (n - 3)%nat)
      as (f' & H4 & H5 & H6);
      [done|by rewrite length_app|done|lia|rewrite length_app; cbn; lia|].
    exists f'. cbn [b64encode length]. rewrite H3. cbn [length]. rewrite H6.
    split; [|split; [by eapply others_trans|]].
    + rewrite <- app_assoc in H4. cbn [app] in H4.
      by replace (n - S (S (S (length chunk))))%nat with (n - 3 - length chunk)%nat by lia.
    + rewrite length_app. cbn [length]. unfold device_of, set_sys. cbn. do 4 f_equal. lia.
Qed.
End Decode.

(** ** [ldbin] *)

Lemma check_chunk_encoded chunk :
  chunk <> [] -> Forall (is_word 8) chunk -> check_chunk (b64encode chunk) = 0.
Proof.
  intros Hne Hw. unfold check_chunk. rewrite b64encode_length.
  assert (0 < (length chunk + 2) / 3)%nat as Hk.
  { apply Nat.div_str_pos. destruct chunk; [done|cbn; lia]. }
  set (k := ((length chunk + 2) / 3)%nat) in *.
  rewrite (proj2 (Z.eqb_neq _ _)) by lia.
  change 3 with (Z.ones 2) at 1. rewrite Z.land_ones by lia.
  replace (Z.of_nat (4 * k)) with (Z.of_nat k * 2 ^ 2) by lia.
  rewrite Z.mod_mul by lia. cbn [Z.eqb negb].
  replace (existsb _ _) with false; [done|]. symmetry. apply not_true_iff_false.
  rewrite existsb_exists. intros (c & Hc & Hv).
  pose proof (b64encode_ok chunk Hw) as Hok. rewrite Forall_forall in Hok.
  apply list_elem_of_In, Hok in Hc. unfold b64_ok in Hc. rewrite !andb_true_iff in Hc.
  destruct Hc as [[[[[Hc _] _] _] _] _]. by rewrite Hc in Hv.
Qed.

Lemma find_only (p : Z) (g : Z -> bool) (k : list Z) :
  (forall q, q ∈ k -> g q = bool_decide (q = p)) -> p ∈ k -> find g k = Some p.
Proof.
  induction k as [|q k IH]; intros Hg Hk; [by apply elem_of_nil in Hk|]. cbn [find].
  rewrite Hg by (apply elem_of_cons; by left). case_bool_decide as Hq; [by subst|].
  apply IH; [|by apply elem_of_cons in Hk as [->|]].
  intros x Hx. apply Hg. apply elem_of_cons. by right.
Qed.

Lemma count_only (p : Z) m (b : bool) (k : list Z) :
  NoDup k -> (forall q, q ∈ k -> loading m q = bool_decide (q = p) && b) ->
  loading_count m k = if bool_decide (p ∈ k) && b then 1 else 0.
Proof.
  induction 1 as [|q k Hq Hk IH]; intros Hl; [done|].
  rewrite loading_count_cons, IH by (intros; apply Hl; apply elem_of_cons; by right).
  rewrite Hl by (apply elem_of_cons; by left).
  destruct (decide (q = p)) as [->|Hne].
  - rewrite (bool_decide_eq_true_2 (p = p)), (bool_decide_eq_false_2 (p ∈ k)) by done.
    rewrite (bool_decide_eq_true_2 (p ∈ p :: k)) by (apply elem_of_cons; by left). by destruct b.
  - rewrite (bool_decide_eq_false_2 (q = p)) by done. cbn [andb].
    by rewrite (bool_decide_ext (p ∈ q :: k) (p ∈ k)) by (rewrite elem_of_cons; naive_solver).
Qed.

Lemma on_fs_Ok {A} (c : cmd tinyfs fault A) (s : shell device) a f :
  c (the_fs s) = Ok (a, f) -> on_fs c s = Ok (a, set_sys (mkDevice f (ld_offset (sh_sys s))) s).
Proof. intros H. unfold on_fs. by rewrite H. Qed.

Section Ldbin.
Context `{HN : Nvmc}.
(** The files of the system, the file that is loaded and the state it started in. *)
Variables (l : list Z) (r p : Z) (nm fname : list Z) (size exec : Z) (f0 : tinyfs).
Hypothesis Hdup : NoDup l.
Hypothesis Hp : p ∈ l.
Hypothesis Hnm : strncmp (Z.to_nat TINYFS_NAME_MAX) nm fname = 0.
Hypothesis Hother : forall q, q ∈ l -> q <> p ->
  named f0 fname q = false /\ loading (mem f0) q = false.

(** The file at [p] has status [st] and holds [data]; the other files are as in [f0]. *)
Definition stage (f : tinyfs) (st : Z) (data : list Z) (n : nat) : Prop :=
  at_part l (Some r) p nm size st exec f data n /\ others l p f0 f.

Lemma stage_status f st data n : stage f st data n -> file_status (mem f) p = st.
Proof using. intros [[_ H] _]. by apply (f_equal a_status) in H. Qed.
Lemma stage_size f st data n : stage f st data n -> file_size (mem f) p = size.
Proof using. intros [[_ H] _]. by apply (f_equal a_size) in H. Qed.

Lemma stage_named f st data n q :
  stage f st data n -> q ∈ l -> named f fname q = bool_decide (q = p).
Proof using Hnm Hother.
  intros [[Hm Hab] Ho] Hq. unfold named. case_bool_decide as Hqp.
  - subst q. apply (f_equal a_name) in Hab. cbn [abs_file partial a_name] in Hab.
    rewrite Hab, Hnm. done.
  - pose proof (f_equal a_name (Ho q Hq Hqp)) as Hn. cbn [abs_file a_name] in Hn. rewrite Hn.
    by destruct (Hother q Hq Hqp).
Qed.

Lemma visible_some k : visible k (Some r) = k.
Proof using. by destruct k. Qed.

Lemma stage_search f st data n :
  stage f st data n -> tinyfs_file_search fname f = Ok (p, f).
Proof using Hp Hnm Hother.
  intros Hs. pose proof Hs as [[Hm _] _]. rewrite (file_search_aux f l (Some r)) by done.
  rewrite visible_some, (find_only p); [done| |done]. intros q. by apply (stage_named _ _ _ _ _ Hs).
Qed.

Lemma stage_loading f st data n q :
  stage f st data n -> q ∈ l -> loading (mem f) q = bool_decide (q = p) && (st =? TINYFS_STATUS_LOADING).
Proof using Hother.
  intros Hs Hq. pose proof Hs as [_ Ho]. unfold loading. case_bool_decide as Hqp.
  - subst q. by rewrite (stage_status _ _ _ _ Hs).
  - pose proof (f_equal a_status (Ho q Hq Hqp)) as Hn. cbn [abs_file a_status] in Hn. rewrite Hn.
    by destruct (Hother q Hq Hqp).
Qed.

Lemma stage_count f st data n :
  stage f st data n ->
  count_loading f = Ok (if st =? TINYFS_STATUS_LOADING then 1 else 0, f).
Proof using Hdup Hp Hother.
  intros Hs. pose proof Hs as [[Hm _] _].
  rewrite (count_loading_spec f l (Some r)), visible_some by done.
  rewrite (count_only p _ (st =? TINYFS_STATUS_LOADING) l Hdup)
    by (intros; by eapply stage_loading).
  by rewrite bool_decide_eq_true_2.
Qed.

Lemma stage_set f st data n new :
  stage f st data n -> st ∈ statuses -> new ∈ statuses -> fst (status_step st new) = 0 ->
  exists f', tinyfs_file_status p new f = Ok (0, f') /\ stage f' (snd (status_step st new)) data n.
Proof using Hp.
  intros Hs Hst Hnew H0. pose proof Hs as [[Hm Hab] Ho].
  pose proof (stage_status _ _ _ _ Hs) as Hfs.
  destruct (set_status_spec f l (Some r) p new Hm Hp) as (f' & H1 & H2 & H3 & H4);
    [by rewrite Hfs|done|].
  rewrite Hfs in *. rewrite H0 in H1. exists f'. split; [exact H1|]. split; [split; [done|]|].
  - rewrite H3, Hab. done.
  - intros q Hq Hne. by rewrite H4, Ho.
Qed.

(** The first part of the command puts the file into the loading state. *)
Lemma ldbin_starts f st data n :
  stage f st data n -> st = TINYFS_STATUS_CREATED \/ st = TINYFS_STATUS_LOADING ->
  exists f', stage f' TINYFS_STATUS_LOADING data n /\
    forall s, the_fs s = f ->
      (if st =? TINYFS_STATUS_CREATED then
         r ← on_fs (tinyfs_file_status p TINYFS_STATUS_LOADING); check AssertFailed (r =? 0)
       else mret tt) s = Ok (tt, set_sys (mkDevice f' (ld_offset (sh_sys s))) s).
Proof using Hp.
  intros Hs [-> | ->].
  - destruct (stage_set f _ data n TINYFS_STATUS_LOADING Hs) as (f' & H1 & H2); [auto with mem|auto with mem|done|].
    exists f'. split; [exact H2|]. intros s <-. rewrite Z.eqb_refl.
    by erewrite cmd_bind_Ok by (unfold on_fs; by rewrite H1).
  - exists f. split; [done|]. intros s <-. by destruct s as [? ? ? [? ?]].
Qed.

(** A chunk is appended; the one that completes the file ends the upload. *)
Lemma ldbin_spec s st data n chunk cmd :
  stage (the_fs s) st data n -> st = TINYFS_STATUS_CREATED \/ st = TINYFS_STATUS_LOADING ->
  ld_offset (sh_sys s) = Z.of_nat (length data) ->
  chunk <> [] -> Forall (is_word 8) chunk -> (length chunk <= n)%nat ->
  Z.of_nat (length data + length chunk) <= size ->
  let complete := Z.of_nat (length data + length chunk) =? size in
  exists f', stage f' (if complete then TINYFS_STATUS_LOADED else TINYFS_STATUS_LOADING)
               (data ++ chunk) (n - length chunk) /\
    _ldbin [cmd; fname; b64encode chunk] s =
      Ok (0, device_of s f' (if complete then 0 else length data + length chunk)).
Proof using Hdup Hp Hnm Hother.
  intros Hs Hst Hoff Hne Hw Hn Hsz complete.
  destruct (ldbin_starts _ _ _ _ Hs Hst) as (f1 & Hs1 & Hstart).
  pose proof Hs1 as [Hat1 Ho1].
  destruct (b64decode_spec l (Some r) p nm size TINYFS_STATUS_LOADING exec Hp chunk
              (set_sys (mkDevice f1 (ld_offset (sh_sys s))) s) data n Hat1 Hoff Hw Hn Hsz)
    as (f2 & Hat2 & Ho2 & Hdec).
  assert (stage f2 TINYFS_STATUS_LOADING (data ++ chunk) (n - length chunk)) as Hs2
    by (split; [done|by eapply others_trans]).
  unfold _ldbin. rewrite bool_decide_eq_false_2 by (cbn; lia).
  change (default [] ([cmd; fname; b64encode chunk] !! 1%nat)) with fname.
  erewrite cmd_bind_Ok by (unfold on_fs; rewrite (stage_search _ _ _ _ Hs); reflexivity).
  assert (p <> NULL) as Hnull.
  { destruct Hat2 as [(_ & G & Hl) _]. pose proof G as [Ha _ ? _ _].
    destruct (layout_elem _ _ G _ _ _ _ _ Hl Ha Hp) as (? & _). unfold NULL. lia. }
  rewrite (proj2 (Z.eqb_neq p NULL)) by done.
  change (default [] ([cmd; fname; b64encode chunk] !! 2%nat)) with (b64encode chunk).
  rewrite check_chunk_encoded by done. change (negb (0 =? 0)) with false. cbv iota.
  erewrite cmd_bind_Ok by (unfold on_fs; cbn [the_fs set_sys sh_sys dev_fs];
    rewrite (stage_count (the_fs s) _ _ _ Hs); reflexivity).
  erewrite cmd_bind_Ok by (apply check_true; by destruct Hst as [-> | ->]).
  rewrite (cmd_bind_Ok _ _ _ _ _ eq_refl).
  cbn [the_fs set_sys sh_sys dev_fs ld_offset]. rewrite (stage_status _ _ _ _ Hs).
  replace (((if st =? TINYFS_STATUS_LOADING then 1 else 0) =? 1) && negb (st =? TINYFS_STATUS_LOADING))
    with false by (by destruct Hst as [-> | ->]).
  erewrite cmd_bind_Ok by (by apply Hstart).
  erewrite cmd_bind_Ok by exact Hdec.
  do 2 rewrite (cmd_bind_Ok _ _ _ _ _ eq_refl).
  change (the_fs (device_of _ f2 _)) with f2. rewrite (stage_size _ _ _ _ Hs2), Z.eqb_sym.
  change (ld_offset (sh_sys (device_of _ f2 ?n))) with (Z.of_nat n).
  fold complete.
  destruct complete.
  - destruct (stage_set f2 _ _ _ TINYFS_STATUS_LOADED Hs2) as (f3 & H1 & H2); [auto with mem|auto with mem|done|].
    exists f3. split; [exact H2|].
    erewrite cmd_bind_Ok; [reflexivity|].
    erewrite cmd_bind_Ok by (apply on_fs_Ok; exact H1). done.
  - exists f2. by split.
Qed.
End Ldbin.
