(* ===== verification/XipFsUpload.v ===== *)
(** * Uploading a file

    The host tool [put] of [pyterm] sends a script of [mkbin] and [ldbin] lines;
    the shell reads it and runs the commands.  The theorem of this file composes
    the line reader, the tokenizer, the commands, the base64 decoder and the file
    system: after the script the file is there, loaded, with exactly the bytes of
    the host file, and nothing else has changed. *)

From stdpp Require Import base gmap list.
From Stdlib Require Import ZArith Lia.
From S2P Require Import Prelude Flash XipFs XipFsSpec XipFsOps XipFsAdmin Shell ShellSpec XipFsShell Base64 XipFsLoad.

Local Open Scope Z_scope.

(** ** Decimal numbers *)

Lemma digits_show fuel v acc :
  0 <= v < 10 ^ Z.of_nat fuel -> (0 < fuel)%nat ->
  digits 0 (show_base fuel 10 v acc) = digits v acc.
Proof.
  revert v acc. induction fuel as [|fuel IH]; intros v acc Hv Hf; [lia|].
  cbn [show_base]. pose proof (Z.mod_pos_bound v 10 ltac:(lia)) as Hm.
  pose proof (Z.div_mod v 10 ltac:(lia)) as Hd.
  rewrite (proj2 (Z.ltb_lt (v mod 10) 10)) by lia.
  assert (forall a, digits a ((48 + v mod 10) :: acc) = digits (10 * a + v mod 10) acc) as Hstep.
  { intros a. cbn [digits]. unfold isdigit. rewrite !(proj2 (Z.leb_le _ _)) by lia. cbn [andb].
    f_equal. lia. }
  destruct (Z.eqb_spec (v / 10) 0) as [H0|H0].
  - rewrite Hstep. f_equal. lia.
  - rewrite Nat2Z.inj_succ, Z.pow_succ_r in Hv by lia.
    assert (0 < v / 10) by (assert (0 <= v / 10) by (apply Z.div_pos; lia); lia).
    rewrite IH; [rewrite Hstep; f_equal; lia| |].
    + split; [lia|]. apply Z.div_lt_upper_bound; lia.
    + destruct fuel; [|lia]. cbn in Hv. rewrite Z.div_small in H0 by lia. done.
Qed.

Lemma show_base_digits fuel v acc :
  Forall (fun c => isdigit c = true) acc -> Forall (fun c => isdigit c = true) (show_base fuel 10 v acc).
Proof.
  revert v acc. induction fuel as [|fuel IH]; intros v acc Ha; cbn [show_base]; [done|].
  pose proof (Z.mod_pos_bound v 10 ltac:(lia)). rewrite (proj2 (Z.ltb_lt (v mod 10) 10)) by lia.
  assert (Forall (fun c => isdigit c = true) ((48 + v mod 10) :: acc)).
  { constructor; [|done]. unfold isdigit. rewrite !(proj2 (Z.leb_le _ _)) by lia. done. }
  destruct (v / 10 =? 0); [done|]. by apply IH.
Qed.

Lemma show_base_length fuel v acc :
  (length acc <= length (show_base fuel 10 v acc) <= fuel + length acc)%nat.
Proof.
  revert v acc. induction fuel as [|fuel IH]; intros v acc; cbn [show_base]; [lia|].
  set (d := if _ <? _ then _ else _). destruct (v / 10 =? 0); [cbn; lia|].
  specialize (IH (v / 10) (d :: acc)). cbn [length] in IH. lia.
Qed.

Lemma show_base_nonempty fuel v acc : (0 < fuel)%nat -> show_base fuel 10 v acc <> [].
Proof.
  intros Hf H. destruct fuel as [|fuel]; [lia|]. cbn [show_base] in H.
  destruct (v / 10 =? 0); [done|]. apply (f_equal length) in H.
  pose proof (show_base_length fuel (v / 10) ((if v mod 10 <? 10 then 48 + v mod 10 else 87 + v mod 10) :: acc)).
  cbn in *. lia.
Qed.

(** A string that starts with a digit has neither blanks nor a sign. *)
Lemma strtol_digits c t v :
  isdigit c = true -> digits 0 (c :: t) = (v, []) -> 0 <= v <= LONG_MAX ->
  strtol (c :: t) = (v, false, []).
Proof.
  intros Hc Hd Hv. unfold isdigit in Hc. apply andb_prop in Hc as [H1 H2].
  assert (skip_spaces (c :: t) = c :: t) as Hs.
  { cbn [skip_spaces]. unfold isspace. rewrite (proj2 (Z.eqb_neq c 32)) by lia.
    by rewrite (proj2 (Z.leb_gt c 13)), andb_false_r by lia. }
  unfold strtol. rewrite Hs.
  assert (match c :: t with
          | 45 :: t' => (true, t')
          | 43 :: t' => (false, t')
          | _ => (false, c :: t)
          end = (false, c :: t)) as ->.
  { assert (c = 48 \/ c = 49 \/ c = 50 \/ c = 51 \/ c = 52 \/ c = 53 \/ c = 54 \/ c = 55 \/ c = 56 \/ c = 57)
      as Hcases by lia.
    by repeat destruct Hcases as [-> | Hcases]; try subst c. }
  rewrite Hd. rewrite bool_decide_eq_false_2 by done.
  rewrite (proj2 (Z.ltb_ge LONG_MAX v)) by lia.
  by rewrite (proj2 (Z.ltb_ge v LONG_MIN)) by (unfold LONG_MIN; lia).
Qed.

(** A number printed in decimal is read back. *)
Lemma convert_show v : 0 <= v <= LONG_MAX -> convert (show_dec v) = Some v.
Proof.
  intros Hv. assert (is_word 32 v) as Hw by (unfold is_word, LONG_MAX in *; lia).
  unfold show_dec. rewrite (proj2 (Z.ltb_ge v 0)) by lia.
  pose proof (digits_show 20 v [] ltac:(unfold LONG_MAX in Hv; lia) ltac:(lia)) as Hd.
  pose proof (show_base_digits 20 v [] ltac:(constructor)) as Hall.
  pose proof (show_base_nonempty 20 v [] ltac:(lia)) as Hne.
  destruct (show_base 20 10 v []) as [|c t]; [done|]. apply Forall_cons in Hall as [Hc _].
  unfold convert. rewrite (strtol_digits c t v Hc Hd Hv). rewrite !andb_false_r.
  rewrite bool_decide_eq_false_2 by done. rewrite wrap_small by done.
  unfold is_word in Hw. rewrite (proj2 (Z.ltb_ge UINT32_MAX v)) by (unfold UINT32_MAX; lia).
  by rewrite (proj2 (Z.ltb_ge v 0)) by lia.
Qed.

(** ** The script on the file system *)

Lemma named_abs f f' fname p :
  a_name (abs_file (mem f) p) = a_name (abs_file (mem f') p) -> named f fname p = named f' fname p.
Proof. unfold named. cbn [abs_file a_name]. by intros ->. Qed.

Lemma loading_abs m m' p :
  a_status (abs_file m p) = a_status (abs_file m' p) -> loading m p = loading m' p.
Proof. unfold loading. cbn [abs_file a_status]. by intros ->. Qed.

Lemma layout_NoDup m first last p l e :
  geometry first last -> layout m first last p l e -> aligned p -> NoDup l.
Proof.
  intros G Hl. induction Hl as [p Hp He|p Hz Hp Hn|p l e Hz Hp Hn Hl IH]; intros Ha.
  - constructor.
  - apply NoDup_singleton.
  - pose proof (span_ok m p Hz) as (?&?&?). constructor; [|by apply IH, aligned_add].
    intros Hin. destruct (layout_elem _ _ G _ _ _ _ _ Hl ltac:(by apply aligned_add) Hin) as (? & _).
    unfold FLASHPAGE_SIZE in *. lia.
Qed.

Lemma new_not_old f0 l q : mounted f0 l (Some q) -> q ∉ l.
Proof.
  intros Hm Hq. destruct Hm as (_ & G & Hl). pose proof (geo_first _ _ G) as Ha.
  pose proof (layout_below _ _ G _ _ _ _ _ Hl Ha Hq).
  destruct (layout_elem _ _ G _ _ _ _ _ Hl Ha Hq) as (_ & _ & Hz & _).
  pose proof (span_ok _ _ Hz) as (?&_). unfold FLASHPAGE_SIZE in *. lia.
Qed.

Lemma files_NoDup f0 l q : mounted f0 l (Some q) -> NoDup (l ++ [q]).
Proof.
  intros Hm.
  apply NoDup_app. split; [|split; [|apply NoDup_singleton]].
  - destruct Hm as (_ & G & Hl). by eapply layout_NoDup; [exact G|exact Hl|apply G].
  - intros x Hx Hq%list_elem_of_singleton. subst x. by eapply new_not_old.
Qed.

Section Upload.
Context `{HN : Nvmc}.
(** The system before the upload, and the file to upload. *)
Variables (f0 : tinyfs) (l : list Z) (q : Z) (fname content : list Z) (exec : Z).
Local Notation size := (Z.of_nat (length content)).
Local Notation pages := (ROUND size FLASHPAGE_SIZE).
Local Notation room := (Z.to_nat (pages - sizeof_file)).
Local Notation nm := (strncpy0 32 fname).
Hypothesis Hm : mounted f0 l (Some q).
Hypothesis Hquiet : forall p, p ∈ l -> named f0 fname p = false /\ loading (mem f0) p = false.
Hypothesis Hname : c_string fname.
Hypothesis Hshort : (length fname <= 31)%nat.
Hypothesis Hsize : size_ok size.
Hypothesis Hfit : q + pages < last_page f0.
Hypothesis Hroom : sizeof_file + size <= pages.
Hypothesis Hexec : exec = 0 \/ exec = 1.
Hypothesis Hbytes : Forall (is_word 8) content.

Local Notation stage_at := (stage (l ++ [q]) (q + pages) q nm size exec f0).

(** Before and after the last chunk. *)
Definition ready (data : list Z) (n : nat) (d : device) : Prop :=
  exists st, stage_at (dev_fs d) st data n /\
    (st = TINYFS_STATUS_CREATED \/ st = TINYFS_STATUS_LOADING) /\
    ld_offset d = Z.of_nat (length data).
Definition finished (data : list Z) (n : nat) (d : device) : Prop :=
  stage_at (dev_fs d) TINYFS_STATUS_LOADED data n /\ ld_offset d = 0.

Lemma new_in : q ∈ l ++ [q].
Proof using. apply elem_of_app. right. by apply list_elem_of_singleton. Qed.

Lemma others_old p : p ∈ l ++ [q] -> p <> q -> p ∈ l.
Proof using. intros [?|Hp%list_elem_of_singleton]%elem_of_app Hne; [done|congruence]. Qed.

Lemma name_matches_stored : strncmp (Z.to_nat TINYFS_NAME_MAX) nm fname = 0.
Proof using Hname Hshort. apply stored_name_matches; [done|done|]. by rewrite (take_ge _ _ Hshort). Qed.

(** [mkbin] creates the file. *)
Lemma mkbin_triple off cmd :
  triple (fun d => d = mkDevice f0 off) _mkbin [cmd; fname; show_dec size; show_dec exec]
    (fun d => stage_at (dev_fs d) TINYFS_STATUS_CREATED [] room /\ ld_offset d = off).
Proof using Hm Hquiet Hname Hshort Hsize Hfit Hexec.
  intros s Hd. unfold _mkbin. rewrite bool_decide_eq_false_2 by (cbn; lia).
  change (default [] ([cmd; fname; show_dec size; show_dec exec] !! 1%nat)) with fname.
  change (default [] ([cmd; fname; show_dec size; show_dec exec] !! 2%nat)) with (show_dec size).
  change (default [] ([cmd; fname; show_dec size; show_dec exec] !! 3%nat)) with (show_dec exec).
  assert (the_fs s = f0) as Hf by (unfold the_fs; by rewrite Hd).
  assert (tinyfs_file_search fname f0 = Ok (NULL, f0)) as Hsearch.
  { rewrite (file_search_aux f0 l (Some q)) by done.
    destruct (find (named f0 fname) (visible l (Some q))) as [x|] eqn:Hx; [|done].
    apply find_some in Hx as [Hin Hnx]. replace (visible l (Some q)) with l in Hin by (by destruct l).
    apply list_elem_of_In in Hin. destruct (Hquiet x Hin) as [H _]. congruence. }
  assert (size <= LONG_MAX /\ exec <= LONG_MAX) as [Hs1 Hs2].
  { unfold size_ok in Hsize. change FILESIZE_MAX with (2 ^ 29 - 1) in Hsize. unfold LONG_MAX. lia. }
  erewrite cmd_bind_Ok by (apply on_fs_Ok; rewrite Hf; exact Hsearch).
  change (negb (NULL =? NULL)) with false. cbv iota.
  rewrite (convert_show size) by lia. rewrite (convert_show exec) by lia.
  replace (negb (exec =? 0) && negb (exec =? 1)) with false by (by destruct Hexec as [-> | ->]).
  destruct (create_file_spec f0 l q fname size exec TINYFS_STATUS_CREATED) as (f' & Hc & Hm' & Habs);
    [done|done|done|done|by apply c_string_words|lia|].
  unfold rest_after in Hm'. rewrite decide_False in Hm' by lia.
  rewrite !map_app in Habs. apply app_inj_2 in Habs as [Hl' Hq']; [|done].
  erewrite cmd_bind_Ok by (apply on_fs_Ok; exact Hc).
  assert (q <> NULL) as Hnull.
  { destruct Hm as (_ & G & Hl). pose proof G as [Ha _ ? _ _].
    destruct (layout_free _ _ G _ _ _ _ Hl Ha) as (?&_). unfold NULL. lia. }
  rewrite (proj2 (Z.eqb_neq q NULL)) by done.
  eexists _, _. split; [reflexivity|]. split; [|done]. cbn [sh_sys set_sys dev_fs ld_offset].
  split; [|by rewrite Hd]. split; [split; [exact Hm'|]|].
  - injection Hq' as H1 H2 H3 H4 H5. unfold abs_file, partial. by rewrite H1, H2, H3, H4, H5.
  - intros p Hp Hne. apply others_old in Hp; [|done].
    apply list_elem_of_lookup in Hp as [i Hi].
    assert (map (abs_file (mem f')) l !! i = map (abs_file (mem f0)) l !! i) as He by (by rewrite Hl').
    rewrite !list_lookup_fmap, Hi in He. by apply (inj Some) in He.
Qed.

(** [ldbin] with a chunk of the content. *)
Lemma ldbin_triple cmd data n chunk :
  chunk <> [] -> Forall (is_word 8) chunk -> (length chunk <= n)%nat ->
  Z.of_nat (length data + length chunk) <= size ->
  triple (ready data n) _ldbin [cmd; fname; b64encode chunk]
    (if decide (Z.of_nat (length data + length chunk) = size)
     then finished (data ++ chunk) (n - length chunk)
     else ready (data ++ chunk) (n - length chunk)).
Proof using Hm Hquiet Hname Hshort.
  intros Hne Hw Hn Hsz s (st & Hst & Hcl & Hoff).
  destruct (ldbin_spec (l ++ [q]) (q + pages) q nm fname size exec f0
              (files_NoDup f0 l q Hm) new_in
              name_matches_stored) with (s := s) (st := st) (data := data) (n := n)
              (chunk := chunk) (cmd := cmd) as (f' & Hs' & Hrun); try done.
  { intros p Hp Hpq. by apply Hquiet, others_old. }
  eexists _, _. split; [exact Hrun|]. split; [|done]. cbn [sh_sys device_of set_sys].
  destruct (Z.eqb_spec (Z.of_nat (length data + length chunk)) size) as [He|He].
  - rewrite decide_True by done. by split.
  - rewrite decide_False by done. exists TINYFS_STATUS_LOADING. split; [exact Hs'|].
    split; [by right|]. cbn [ld_offset]. by rewrite length_app.
Qed.

Section Chunks.
Variables (command_list : option (list (shell_command (Sys := device))))
          (commands_xfa : list (shell_command (Sys := device))) (cmd : list Z).
Hypothesis Hcmd : find_handler command_list commands_xfa cmd = Some _ldbin.

Lemma chunks_script cs data n :
  cs <> [] -> Forall (fun c => c <> []) cs -> Forall (Forall (is_word 8)) cs ->
  Z.of_nat (length data + length (concat cs)) = size -> (length (concat cs) <= n)%nat ->
  script_does command_list commands_xfa (ready data n)
    (map (fun c => [cmd; fname; b64encode c]) cs)
    (finished (data ++ concat cs) (n - length (concat cs))).
Proof using Hm Hquiet Hname Hshort Hcmd.
  revert data n. induction cs as [|c cs IH]; intros data n Hne Hcs Hws Hsz Hn; [done|].
  apply Forall_cons in Hcs as [Hc Hcs], Hws as [Hw Hws].
  cbn [concat] in Hsz, Hn |- *. rewrite length_app in Hsz, Hn.
  cbn [map script_does]. eexists _, _ldbin. split; [exact Hcmd|].
  split; [apply (ldbin_triple cmd data n c); [done|done|lia|lia]|].
  destruct cs as [|c' cs].
  - cbn [concat length] in Hsz. rewrite decide_True by lia. cbn [map script_does concat].
    rewrite app_nil_r. done.
  - assert (length (concat (c' :: cs)) <> 0)%nat as Hpos.
    { apply Forall_cons in Hcs as [Hc' _]. cbn [concat]. rewrite length_app.
      destruct c'; [done|cbn; lia]. }
    rewrite decide_False by lia. rewrite app_assoc, length_app, Nat.sub_add_distr.
    apply IH; [done|done|done|rewrite length_app; lia|lia].
Qed.
End Chunks.
End Upload.

(** ** What the host sends is a script of the shell *)

(** Characters that reach the arguments of a command as they are: ASCII, and neither a key
    of the line reader nor a blank, quote or backslash of the tokenizer. *)
Definition clean (c : Z) : bool := plain_char c && ordinary c && ascii c.
Abbreviation all_clean := (Forall (fun c => clean c = true)).
(** The same, and no blank for the host either. *)
Definition solid (c : Z) : bool := clean c && negb (py_space c).
Abbreviation all_solid := (Forall (fun c => solid c = true)).

Lemma byte_cases (P : Z -> bool) lo hi c :
  forallb P (map Z.of_nat (seq lo (hi - lo))) = true -> Z.of_nat lo <= c < Z.of_nat hi -> P c = true.
Proof.
  intros H Hc. rewrite forallb_forall in H. apply H, in_map_iff. exists (Z.to_nat c).
  split; [lia|]. apply in_seq. lia.
Qed.

Lemma digit_solid c : isdigit c = true -> solid c = true.
Proof.
  intros [H1 H2]%andb_prop. apply (byte_cases solid 48 58); [vm_compute; reflexivity|lia].
Qed.

Lemma b64_solid c : b64_ok c = true -> solid c = true.
Proof.
  intros Hc. assert (forall x, implb (b64_ok x) (solid x) = true -> b64_ok x = true -> solid x = true) as K
    by (intros x; by destruct (b64_ok x), (solid x)).
  apply K; [|done]. unfold b64_ok in Hc. rewrite !andb_true_iff in Hc.
  destruct Hc as [[[[[_ H1] H2] _] _] _].
  apply (byte_cases (fun x => implb (b64_ok x) (solid x)) 33 127); [vm_compute; reflexivity|lia].
Qed.

Lemma solid_clean w : all_solid w -> all_clean w.
Proof. intros H. eapply Forall_impl; [exact H|]. intros c. unfold solid. by intros [? _]%andb_prop. Qed.

Lemma clean_plain w : w <> [] -> all_clean w -> plain w.
Proof.
  intros Hne H. split; [done|]. eapply Forall_impl; [exact H|]. intros c. unfold clean. by intros [[? _]%andb_prop _]%andb_prop.
Qed.

Lemma join_ordinary ws : Forall all_clean ws -> Forall (fun c => ordinary c = true) (join ws).
Proof.
  assert (forall w, all_clean w -> Forall (fun c => ordinary c = true) w) as K.
  { intros w H. eapply Forall_impl; [exact H|]. intros c. unfold clean. by intros [[_ ?]%andb_prop _]%andb_prop. }
  induction 1 as [|w ws Hw Hws IH]; [constructor|]. destruct ws as [|w' ws]; [by apply K|].
  change (join (w :: w' :: ws)) with (w ++ [SPACE] ++ join (w' :: ws)).
  apply Forall_app_2; [by apply K|]. by constructor.
Qed.

Lemma join_last ws w : w <> [] -> last (join (ws ++ [w])) = last w.
Proof.
  intros Hw. induction ws as [|x ws IH]; [done|].
  assert (join ((x :: ws) ++ [w]) = (x ++ [SPACE]) ++ join (ws ++ [w])) as ->.
  { rewrite <- app_assoc. by destruct ws. }
  rewrite last_app, IH. destruct w as [|c w]; [done|]. rewrite last_cons. by destruct (last w).
Qed.

Lemma join_ascii ws : Forall all_clean ws -> Forall (fun c => ascii c = true /\ c <> CR) (join ws).
Proof.
  assert (forall w, all_clean w -> Forall (fun c => ascii c = true /\ c <> CR) w) as K.
  { intros w H. eapply Forall_impl; [exact H|]. intros c. unfold clean. intros [[_ Ho]%andb_prop Ha]%andb_prop.
    split; [done|]. intros ->. done. }
  induction 1 as [|w ws Hw Hws IH]; [constructor|]. destruct ws as [|w' ws]; [by apply K|].
  change (join (w :: w' :: ws)) with (w ++ [SPACE] ++ join (w' :: ws)).
  apply Forall_app_2; [by apply K|]. by constructor.
Qed.

(** A line of solid words but for the name in the middle. *)
Lemma line_sent c cs fname args w :
  all_solid (c :: cs) -> Forall all_clean args -> w <> [] -> all_solid w ->
  let argv := (c :: cs) :: fname :: args ++ [w] in
  all_clean fname ->
  (LF ∉ join argv /\ unpadded (join argv)) /\ Forall (fun c => ascii c = true /\ c <> CR) (join argv).
Proof.
  intros Hc Hargs Hw Hsw argv Hf.
  assert (Forall all_clean argv) as Hall.
  { constructor; [by apply solid_clean|]. constructor; [done|].
    apply Forall_app_2; [done|]. constructor; [by apply solid_clean|constructor]. }
  split; [split|by apply join_ascii].
  - intros Hin. pose proof (join_ordinary _ Hall) as Ho. rewrite Forall_forall in Ho.
    by apply Ho in Hin.
  - assert (forall x, solid x = true -> py_space x = false) as K.
    { intros x. unfold solid. intros [_ Hx]%andb_prop. by apply negb_true_iff. }
    split; intros x Hx.
    + cbn in Hx. injection Hx as <-. apply K. by apply Forall_cons in Hc as [? _].
    + change argv with (((c :: cs) :: fname :: args) ++ [w]) in Hx. rewrite join_last in Hx by done.
      apply K. rewrite Forall_forall in Hsw. apply Hsw. by apply last_Some_elem_of.
Qed.

Lemma show_dec_solid v : 0 <= v -> show_dec v <> [] /\ all_solid (show_dec v) /\ (length (show_dec v) <= 20)%nat.
Proof.
  intros Hv. unfold show_dec. rewrite (proj2 (Z.ltb_ge v 0)) by lia. split; [|split].
  - apply show_base_nonempty. lia.
  - eapply Forall_impl; [apply (show_base_digits 20 v []); constructor|]. apply digit_solid.
  - pose proof (show_base_length 20 v []). cbn [length] in *. lia.
Qed.

Lemma b64encode_solid c : c <> [] -> Forall (is_word 8) c -> b64encode c <> [] /\ all_solid (b64encode c).
Proof.
  intros Hne Hw. split; [by destruct c as [|a [|b [|d c]]]|].
  eapply Forall_impl; [by apply b64encode_ok|]. apply b64_solid.
Qed.

(** Bytes per line, and the lines of an upload. *)
Definition chunk_bytes (fname : list Z) : nat := 3 * ((120 - length fname) / 4).
Definition upload_chunks (fname content : list Z) : list (list Z) :=
  slices (length content) (chunk_bytes fname) content.
Definition upload_exec (fname : list Z) : Z :=
  if decide (path_suffix fname = suffix_bin) then 1 else 0.
Definition upload_lines (fname content : list Z) : list (list (list Z)) :=
  [word_mkbin; fname; show_dec (Z.of_nat (length content)); show_dec (upload_exec fname)]
  :: map (fun c => [word_ldbin; fname; b64encode c]) (upload_chunks fname content).

Lemma put_script fname content :
  (length fname <= 31)%nat ->
  put fname content = Some (script_text (upload_lines fname content)).
Proof.
  intros Hl. unfold put. rewrite decide_False by lia. f_equal.
  set (chksz := trunc _ _).
  assert (Z.to_nat chksz = 4 * ((120 - length fname) / 4))%nat as ->.
  { unfold chksz, trunc, HOST_BUFSIZE. rewrite !length_app. cbn [length].
    change (length word_ldbin) with 5%nat.
    change (Z.lnot (4 - 1)) with (Z.lnot (Z.ones 2)). rewrite <- Z.ldiff_land, Z.ldiff_ones_r by lia.
    rewrite Z.shiftl_mul_pow2, Z.shiftr_div_pow2 by lia. change (2 ^ 2) with 4.
    replace (128 - 1 - Z.of_nat (5 + (1 + (length fname + 1)))) with (Z.of_nat (120 - length fname)) by lia.
    rewrite <- (Nat2Z.inj_div _ 4). lia. }
  rewrite (slices_encode _ _ (length content)); [| |done|done].
  2:{ apply Nat.div_str_pos. lia. }
  unfold script_text, upload_lines, upload_exec. cbn [flat_map map]. f_equal.
  - cbn [join]. case_decide; rewrite <- !app_assoc; done.
  - fold (chunk_bytes fname). fold (upload_chunks fname content).
    induction (upload_chunks fname content) as [|c cs IH]; [done|].
    cbn [map flat_map join]. rewrite IH, <- !app_assoc. done.
Qed.

(** ** The upload *)

Section Composition.
Context `{HN : Nvmc}.
Variables (no_echo no_prompt : bool).
Variables (command_list : option (list (shell_command (Sys := device))))
          (commands_xfa : list (shell_command (Sys := device))).

Lemma mkbin_line (fname content : list Z) :
  fname <> [] -> (length fname <= 31)%nat -> all_clean fname ->
  let argv := [word_mkbin; fname; show_dec (Z.of_nat (length content)); show_dec (upload_exec fname)] in
  line_ok 128 argv /\ (LF ∉ join argv /\ unpadded (join argv)) /\ Forall (fun c => ascii c = true /\ c <> CR) (join argv).
Proof using.
  intros Hne Hl Hc argv.
  destruct (show_dec_solid (Z.of_nat (length content)) ltac:(lia)) as (N1 & S1 & L1).
  destruct (show_dec_solid (upload_exec fname)) as (N2 & S2 & L2);
    [unfold upload_exec; case_decide; lia|].
  assert (all_solid word_mkbin) as Hm by (by repeat constructor).
  split; [|apply (line_sent _ _ fname [show_dec (Z.of_nat (length content))] (show_dec (upload_exec fname)));
    [done|constructor; [by apply solid_clean|constructor]|done|done|done]].
  assert (Forall all_clean argv) as Hall
    by (unfold argv; repeat (apply Forall_cons; split); try apply Forall_nil; try done; by apply solid_clean).
  split_and!; [done| | |by apply join_ordinary].
  - unfold argv. repeat (apply Forall_cons; split); try apply Forall_nil; try done;
      (apply clean_plain; [done|]); done || by apply solid_clean.
  - cbn [argv join]. rewrite !length_app. cbn [length]. change (length word_mkbin) with 5%nat. lia.
Qed.

Lemma ldbin_line (fname c : list Z) :
  fname <> [] -> (length fname <= 31)%nat -> all_clean fname ->
  c <> [] -> Forall (is_word 8) c -> (length c <= chunk_bytes fname)%nat ->
  let argv := [word_ldbin; fname; b64encode c] in
  line_ok 128 argv /\ (LF ∉ join argv /\ unpadded (join argv)) /\ Forall (fun c => ascii c = true /\ c <> CR) (join argv).
Proof using.
  intros Hne Hl Hcl Hc Hw Hk argv. destruct (b64encode_solid c Hc Hw) as (N1 & S1).
  assert (all_solid word_ldbin) as Hm by (by repeat constructor).
  split; [|by apply (line_sent _ _ fname [] (b64encode c))].
  assert (Forall all_clean argv) as Hall by (unfold argv; repeat (apply Forall_cons; split); try apply Forall_nil; try done; by apply solid_clean).
  split_and!; [done| | |by apply join_ordinary].
  - unfold argv. repeat (apply Forall_cons; split); try apply Forall_nil; try done;
      (apply clean_plain; [done|]); done || by apply solid_clean.
  - cbn [argv join]. rewrite !length_app. cbn [length]. change (length word_ldbin) with 5%nat.
    rewrite b64encode_length. unfold chunk_bytes in Hk.
    pose proof (Nat.div_mod_eq (120 - length fname) 4).
    assert ((length c + 2) / 3 <= (120 - length fname) / 4)%nat.
    { apply Nat.lt_succ_r, Nat.Div0.div_lt_upper_bound. lia. }
    lia.
Qed.

(** The lines of an upload arrive as they were written, and the shell accepts each. *)
Lemma upload_sent (fname content : list Z) :
  fname <> [] -> (length fname <= 31)%nat -> all_clean fname -> Forall (is_word 8) content ->
  Forall (line_ok 128) (upload_lines fname content) /\
  host_run (script_text (upload_lines fname content)) = Some (script_text (upload_lines fname content)).
Proof using.
  intros Hne Hl Hc Hw.
  destruct (slices_concat (length content) (chunk_bytes fname) content) as [Hcat Hsl]; [|done|].
  { unfold chunk_bytes. pose proof (Nat.div_str_pos (120 - length fname) 4 ltac:(lia)). lia. }
  fold (upload_chunks fname content) in Hcat, Hsl.
  assert (Forall (fun argv => line_ok 128 argv /\ (LF ∉ join argv /\ unpadded (join argv)) /\ Forall (fun c => ascii c = true /\ c <> CR) (join argv))
            (upload_lines fname content)) as Hall.
  { unfold upload_lines. constructor; [by apply mkbin_line|].
    apply Forall_map, Forall_forall. intros c Hin. rewrite Forall_forall in Hsl.
    destruct (Hsl c Hin) as [H1 H2]. apply ldbin_line; try done.
    rewrite <- Hcat in Hw. rewrite Forall_concat, Forall_forall in Hw. by apply Hw. }
  split.
  - eapply Forall_impl; [exact Hall|]. by intros argv [? _].
  - assert (script_text (upload_lines fname content) =
            flat_map (fun t => t ++ [LF]) (map join (upload_lines fname content))) as ->.
    { unfold script_text. by rewrite !flat_map_concat_map, map_map. }
    apply host_run_lines; [done| |]; apply Forall_map; (eapply Forall_impl; [exact Hall|]);
      by intros argv (_ & ? & ?).
Qed.

(** C5: An upload is faithful: the script the host tool writes for a file, sent to the
    shell of the device, runs to its end and leaves the file loaded under its name, executable
    exactly if it is a .bin file, with exactly the bytes of the host file; every other file is
    unchanged, and the device is ready for the next upload.  The conditions: the name is a non-empty
    one of ASCII characters without blanks, quotes, backslashes or keys of the line reader (the tool refuses 32
    characters and more) and no file has it; no file is in the state of being loaded and the
    offset kept by [ldbin] is 0, so no earlier upload was broken off; the content is not
    empty, the header and the content fit in the pages counted for the content alone, and these
    pages end before the last page; the shell has the commands [mkbin] and [ldbin] and a line buffer of 128 bytes. *)
Theorem put_loads_file s l q fname content script :
  let size := Z.of_nat (length content) in
  let pages := ROUND size FLASHPAGE_SIZE in
  mounted (the_fs s) l (Some q) -> ld_offset (sh_sys s) = 0 ->
  (forall p, p ∈ l -> named (the_fs s) fname p = false /\ loading (mem (the_fs s)) p = false) ->
  fname <> [] -> all_clean fname ->
  Forall (is_word 8) content -> size_ok size ->
  sizeof_file + size <= pages -> q + pages < last_page (the_fs s) ->
  find_handler command_list commands_xfa word_mkbin = Some _mkbin ->
  find_handler command_list commands_xfa word_ldbin = Some _ldbin ->
  put fname content = Some script ->
  host_run script = Some (sh_in s) -> length (sh_buf s) = 128%nat ->
  exists s', shell_run_once no_echo no_prompt command_list commands_xfa 128 s = Ok (tt, s') /\
    sh_in s' = [] /\ ld_offset (sh_sys s') = 0 /\
    mounted (the_fs s') (l ++ [q]) (Some (q + pages)) /\
    map (abs_file (mem (the_fs s'))) (l ++ [q]) =
    map (abs_file (mem (the_fs s))) l ++
      [mkAfile (strncpy0 32 fname) size TINYFS_STATUS_LOADED (upload_exec fname)
         (content ++ replicate (Z.to_nat (pages - sizeof_file - size)) FLASHPAGE_ERASE_STATE)].
Proof using.
  intros size pages Hm Hoff Hquiet Hne Hclean Hcw Hsz Hroom Hfit Hmk Hld Hput Hin Hbuf.
  assert (length fname <= 31)%nat as Hshort
    by (unfold put in Hput; case_decide; [done|lia]).
  assert (c_string fname) as Hcs.
  { apply Forall_forall. intros c Hc. rewrite Forall_forall in Hclean. apply Hclean in Hc. unfold clean in Hc.
    apply andb_prop in Hc as [[_ Hc]%andb_prop Ha]. apply ordinary_keys in Hc as [? _].
    unfold ascii in Ha. split; [unfold is_word; lia|done]. }
  rewrite put_script in Hput by done.
  assert (script = script_text (upload_lines fname content)) as -> by congruence.
  destruct (upload_sent fname content Hne Hshort Hclean Hcw) as [Hok Hsent]. rewrite Hsent in Hin. apply (inj Some) in Hin. symmetry in Hin.
  set (exec := upload_exec fname).
  assert (exec = 0 \/ exec = 1) as Hexec by (unfold exec, upload_exec; case_decide; tauto).
  set (room := Z.to_nat (pages - sizeof_file)).
  destruct (slices_concat (length content) (chunk_bytes fname) content) as [Hcat Hsl]; [|done|].
  { unfold chunk_bytes. pose proof (Nat.div_str_pos (120 - length fname) 4 ltac:(lia)). lia. }
  fold (upload_chunks fname content) in Hcat, Hsl.
  assert (script_does command_list commands_xfa (fun d => d = mkDevice (the_fs s) 0)
            (upload_lines fname content)
            (finished (the_fs s) l q fname content exec ([] ++ content) (room - length content))) as Hsc.
  { unfold upload_lines. cbn [script_does].
    exists (ready (the_fs s) l q fname content exec [] room), _mkbin. split; [exact Hmk|]. split.
    - eapply triple_post; [by apply mkbin_triple|]. intros d [H1 H2].
      exists TINYFS_STATUS_CREATED. split; [exact H1|]. split; [by left|done].
    - pose proof (chunks_script (the_fs s) l q fname content exec Hm Hquiet Hcs Hshort
        command_list commands_xfa word_ldbin Hld (upload_chunks fname content) [] room) as HC.
      rewrite Hcat in HC. apply HC; clear HC.
      + intros E. rewrite E in Hcat. cbn in Hcat. subst content. unfold size_ok, size in Hsz. cbn in Hsz. lia.
      + eapply Forall_impl; [exact Hsl|]. by intros c [? _].
      + rewrite <- Forall_concat. by rewrite Hcat.
      + done.
      + unfold room, pages, size in *. unfold sizeof_file in *. lia. }
  destruct (run_script no_echo no_prompt 128 command_list commands_xfa _ _ _ s Hsc Hok Hin)
    as (s' & Hrun & [Hfin Hoff'] & Hin'); [lia| |].
  { unfold the_fs. destruct (sh_sys s) as [f o]; cbn in *. by subst o. }
  exists s'. split; [exact Hrun|]. split; [done|]. split; [done|].
  destruct Hfin as [[Hm' Hab] Hoth]. split; [exact Hm'|].
  rewrite map_app. f_equal.
  - apply map_ext_in. intros x Hx%list_elem_of_In. apply Hoth; [apply elem_of_app; by left|].
    intros ->. exact (new_not_old _ _ _ Hm Hx).
  - cbn [map]. f_equal. etransitivity; [exact Hab|]. unfold partial. cbn [app].
    do 3 f_equal. unfold room. fold size. lia.
Qed.
End Composition.
