(* ===== verification/XipFsCopy.v ===== *)
(** * Copying and printing files

    [cp] and [cat] of [XipFsShell] on mounted file systems: [cp] appends a file
    with the contents and attributes of its source, [cat] prints exactly the
    contents of a file and changes nothing. *)

From stdpp Require Import base gmap list.
From Stdlib Require Import ZArith Lia.
From S2P Require Import Prelude Flash XipFs XipFsSpec XipFsOps XipFsAdmin Shell ShellSpec XipFsShell XipFsLoad.

Local Open Scope Z_scope.

(** The contents of a file: as many bytes of its body as its size says. *)
Definition contents (f : afile) : list Z := take (Z.to_nat (a_size f)) (a_body f).

Lemma contents_bytes m p :
  sizeof_file + file_size m p <= span m p ->
  contents (abs_file m p) = rd_bytes m (p + sizeof_file) (Z.to_nat (file_size m p)).
Proof.
  intros Hfit. unfold contents. cbn [abs_file a_size a_body].
  pose proof (rd32_range m (p + 32)) as Hw. fold (file_size m p) in Hw. unfold is_word in Hw.
  replace (Z.to_nat (span m p - sizeof_file))
    with (Z.to_nat (file_size m p) + (Z.to_nat (span m p - sizeof_file) - Z.to_nat (file_size m p)))%nat
    by lia.
  rewrite rd_bytes_app. apply take_app_length'. by rewrite length_rd_bytes.
Qed.

Section Copy.
Context `{HN : Nvmc}.

(** The first reported file with the name, as the commands look it up. *)
Definition finds (f : tinyfs) (l : list Z) (e : option Z) (name : list Z) (p : Z) : Prop :=
  find (named f name) (visible l e) = Some p.

Lemma visible_in l e p : p ∈ visible l e -> p ∈ l.
Proof using.
  destruct l as [|x l]; [done|]. cbn [visible]. intros [->|Hp]%elem_of_cons; [apply elem_of_cons; by left|].
  apply elem_of_cons. right. destruct e; [done|]. cbn [visible_rest] in Hp.
  destruct l as [|y l _] using rev_ind; [done|]. rewrite removelast_last in Hp. apply elem_of_app. by left.
Qed.

Lemma finds_in f l e name p : finds f l e name p -> p ∈ l.
Proof using. intros [H _]%find_some. by apply list_elem_of_In, visible_in in H. Qed.

Lemma mounted_nonnull f l e p : mounted f l e -> p ∈ l -> p <> NULL.
Proof using.
  intros (_ & G & Hl) Hp. pose proof G as [Ha _ ? _ _].
  destruct (layout_elem _ _ G _ _ _ _ _ Hl Ha Hp) as (? & _). unfold NULL. lia.
Qed.

Lemma finds_search f l e name p :
  mounted f l e -> finds f l e name p -> tinyfs_file_search name f = Ok (p, f).
Proof using. intros Hm Hf. rewrite (file_search_aux f l e) by done. unfold finds in Hf. by rewrite Hf. Qed.

Lemma set_sys_same (s : shell device) : set_sys (mkDevice (the_fs s) (ld_offset (sh_sys s))) s = s.
Proof using. by destruct s as [? ? ? [? ?]]. Qed.

(** ** [cat] *)

Lemma cat_loop_spec n addr s :
  0 <= addr -> addr + Z.of_nat n < 2 ^ 32 ->
  cat_loop n addr s = Ok (tt, add_out s (rd_bytes (mem (the_fs s)) addr n)).
Proof using.
  revert addr s. induction n as [|n IH]; intros addr s Ha Hn; cbn [cat_loop rd_bytes].
  - unfold add_out. rewrite app_nil_r. by destruct s.
  - do 2 rewrite (cmd_bind_Ok _ _ _ _ _ eq_refl).
    rewrite wrap_small by (unfold is_word; lia). rewrite IH by lia.
    unfold add_out. cbn [sh_in sh_out sh_buf sh_sys]. by rewrite <- app_assoc.
Qed.

(** Printing: [cat] on a file that fits its pages prints its contents and a line
    end, returns 0, and changes neither the file system nor the upload in
    progress. *)
Theorem cat_prints s l e cmd name p :
  mounted (the_fs s) l e -> finds (the_fs s) l e name p ->
  sizeof_file + file_size (mem (the_fs s)) p <= span (mem (the_fs s)) p ->
  cat_main [cmd; name] s = Ok (0, add_out s (contents (abs_file (mem (the_fs s)) p) ++ NL)).
Proof using.
  intros Hm Hf Hfit. pose proof (finds_in _ _ _ _ _ Hf) as Hp.
  unfold cat_main. rewrite bool_decide_eq_false_2 by (cbn; lia).
  change (default [] ([cmd; name] !! 1%nat)) with name.
  erewrite cmd_bind_Ok by (apply on_fs_Ok; by eapply finds_search). rewrite set_sys_same.
  rewrite (proj2 (Z.eqb_neq p NULL)) by (by eapply mounted_nonnull).
  rewrite (cmd_bind_Ok _ _ _ _ _ eq_refl). set (m := mem (the_fs s)) in *.
  destruct Hm as (_ & G & Hl).
  destruct (layout_elem _ _ G _ _ _ _ _ Hl (geo_first _ _ G) Hp) as (? & _ & Hz & Hend).
  fold m in Hz, Hend. pose proof (span_ok _ _ Hz) as (? & _).
  pose proof G as [_ _ ? _ ?]. unfold FLASHPAGE_SIZE, FLASHPAGE_NUMOF, sizeof_file, size_ok in *.
  rewrite wrap_small by (unfold is_word; lia).
  erewrite cmd_bind_Ok by (apply cat_loop_spec; lia).
  rewrite (cmd_bind_Ok _ _ _ _ _ eq_refl). unfold mret, cmd_ret. do 2 f_equal.
  rewrite contents_bytes by (unfold sizeof_file; lia). fold m.
  unfold add_out. cbn [sh_in sh_out sh_buf sh_sys]. by rewrite <- app_assoc.
Qed.

(** ** [cp] *)

(** Writing the contents of one file into the erased body of another. *)
Lemma copy_write f l e p q name size st exec n :
  mounted f l e -> p ∈ l -> q ∈ l -> p <> q ->
  abs_file (mem f) q = partial name size st exec [] n ->
  file_size (mem f) p = size -> sizeof_file + size <= span (mem f) p -> (Z.to_nat size <= n)%nat ->
  exists f', tinyfs_file_write q 0 (At (u32 (p + sizeof_file))) size f = Ok (0, f') /\
    mounted f' l e /\
    abs_file (mem f') q = partial name size st exec (contents (abs_file (mem f) p)) (n - Z.to_nat size) /\
    forall x, x ∈ l -> x <> q -> abs_file (mem f') x = abs_file (mem f) x.
Proof using.
  intros Hm Hp Hq Hne Hab Hsz Hfit Hn. pose proof Hm as (_ & G & Hl). pose proof (geo_first _ _ G) as Ha.
  destruct (layout_elem _ _ G _ _ _ _ _ Hl Ha Hp) as (Hfp & _ & Hz & Hend).
  destruct (layout_elem _ _ G _ _ _ _ _ Hl Ha Hq) as (_ & _ & Hzq & _).
  pose proof (span_ok _ _ Hz) as (Hsp & _). pose proof (span_ok _ _ Hzq) as (Hspq & _).
  pose proof (layout_disjoint _ _ G _ _ _ _ _ _ Hl Ha Hp Hq Hne) as Hdis.
  pose proof (partial_erased _ _ _ _ _ _ _ _ Hab) as He. cbn [length Z.of_nat] in He.
  assert (file_size (mem f) q = size) as Hsq by (by apply (f_equal a_size) in Hab).
  assert (Z.to_nat (span (mem f) q - sizeof_file) = n) as Hbody.
  { apply (f_equal (fun g => length (a_body g))) in Hab. cbn in Hab.
    by rewrite length_rd_bytes, length_replicate in Hab. }
  rewrite Hsz in Hz. unfold size_ok in Hz.
  rewrite contents_bytes by lia. rewrite Hsz.
  set (bytes := rd_bytes (mem f) (p + sizeof_file) (Z.to_nat size)).
  assert (length bytes = Z.to_nat size) as Hlen by apply length_rd_bytes.
  pose proof G as [_ _ ? _ ?].
  assert (is_word 32 (p + sizeof_file)) as Hw
    by (unfold is_word, FLASHPAGE_SIZE, FLASHPAGE_NUMOF, sizeof_file in *; lia).
  rewrite (wrap_small 32 _ Hw).
  destruct (file_write_spec f l e q 0 (At (p + sizeof_file)) bytes) as (f' & Hf & Hm' & Hab' & Ho);
    try done; try (rewrite ?Hlen; unfold sizeof_file, FLASHPAGE_SIZE in *; lia).
  - intros E. rewrite E in Hlen. cbn in Hlen. lia.
  - apply rd_bytes_words.
  - apply clears_erased; [apply rd_bytes_words|].
    eapply erased_weaken; [exact He|lia|rewrite Hlen; lia].
  - intros k v m' Hk Hm'. unfold bytes in Hk. pose proof (lookup_lt_Some _ _ _ Hk) as Hlt.
    rewrite length_rd_bytes in Hlt. rewrite lookup_rd_bytes in Hk by done. injection Hk as <-.
    cbn [source_byte]. apply Hm'. unfold sizeof_file, FLASHPAGE_SIZE in *. lia.
  - rewrite Hlen, Z2Nat.id in Hf by lia. exists f'. split_and!; [done|done| |done].
    rewrite Hab', Hab. unfold write_body, partial. cbn. f_equal. rewrite Hlen.
    by rewrite drop_replicate.
Qed.

(** Copying: [cp] of a loaded file to a place with room for it appends one file
    with the new name, the size, rights and contents of the source, loaded and
    erased after its contents; every file that was there is unchanged. *)
Theorem cp_refines s l q cmd src dst p :
  let f := the_fs s in
  let size := file_size (mem f) p in
  let pages := ROUND size FLASHPAGE_SIZE in
  mounted f l (Some q) -> finds f l (Some q) src p ->
  file_status (mem f) p = TINYFS_STATUS_LOADED ->
  (file_exec (mem f) p = 0 \/ file_exec (mem f) p = 1) ->
  named f dst p = false -> Forall (is_word 8) dst ->
  sizeof_file + size <= pages -> q + pages <= last_page f ->
  exists f', cp_main [cmd; src; dst] s = Ok (0, set_sys (mkDevice f' (ld_offset (sh_sys s))) s) /\
    mounted f' (l ++ [q]) (rest_after (last_page f) q pages) /\
    map (abs_file (mem f')) (l ++ [q]) =
    map (abs_file (mem f)) l ++
      [mkAfile (strncpy0 32 dst) size TINYFS_STATUS_LOADED (file_exec (mem f) p)
         (contents (abs_file (mem f) p) ++
          replicate (Z.to_nat (pages - sizeof_file - size)) FLASHPAGE_ERASE_STATE)].
Proof using.
  intros f size pages Hm Hf Hst Hex Hnm Hdst Hfit Hlast.
  pose proof (finds_in _ _ _ _ _ Hf) as Hp. pose proof Hm as (_ & G & Hl).
  destruct (layout_elem _ _ G _ _ _ _ _ Hl (geo_first _ _ G) Hp) as (_ & _ & Hz & _).
  assert (p <> q) as Hpq.
  { pose proof (layout_below _ _ G _ _ _ _ _ Hl (geo_first _ _ G) Hp).
    pose proof (span_ok _ _ Hz) as (?&_). unfold FLASHPAGE_SIZE in *. lia. }
  destruct (create_file_spec f l q dst size (file_exec (mem f) p) TINYFS_STATUS_LOADED)
    as (f1 & Hc & Hm1 & Habs); [done..|].
  rewrite !map_app in Habs. apply app_inj_2 in Habs as [Hl1 Hq1]; [|done].
  assert (forall x, x ∈ l -> abs_file (mem f1) x = abs_file (mem f) x) as Hold.
  { intros x [i Hi]%list_elem_of_lookup.
    assert (map (abs_file (mem f1)) l !! i = map (abs_file (mem f)) l !! i) as He by (by rewrite Hl1).
    rewrite !list_lookup_fmap, Hi in He. by apply (inj Some) in He. }
  assert (file_size (mem f1) p = size) as Hs1 by exact (f_equal a_size (Hold p Hp)).
  destruct (copy_write f1 (l ++ [q]) (rest_after (last_page f) q pages) p q (strncpy0 32 dst) size
              TINYFS_STATUS_LOADED (file_exec (mem f) p) (Z.to_nat (pages - sizeof_file)))
    as (f2 & Hw & Hm2 & Hq2 & Ho2); try done.
  { apply elem_of_app. by left. }
  { apply elem_of_app. right. by apply list_elem_of_singleton. }
  { exact (f_equal (fun k => default (abs_file (mem f) p) (head k)) Hq1). }
  { unfold span. by rewrite Hs1. }
  { unfold size_ok in Hz. fold size in Hz. lia. }
  exists f2. split; [|split; [exact Hm2|]].
  - unfold cp_main. rewrite bool_decide_eq_false_2 by (cbn; lia).
    change (default [] ([cmd; src; dst] !! 1%nat)) with src.
    change (default [] ([cmd; src; dst] !! 2%nat)) with dst.
    erewrite cmd_bind_Ok by (apply on_fs_Ok; exact (finds_search f l (Some q) src p Hm Hf)). change f with (the_fs s) at 1. rewrite set_sys_same.
    rewrite (proj2 (Z.eqb_neq p NULL)) by exact (mounted_nonnull f l (Some q) p Hm Hp).
    rewrite (cmd_bind_Ok _ _ _ _ _ eq_refl). cbn [file_at f_status f_name f_size f_exec]. fold f.
    rewrite Hst. change (negb (TINYFS_STATUS_LOADED =? TINYFS_STATUS_LOADED)) with false. cbv iota.
    unfold named in Hnm. rewrite Hnm.
    erewrite cmd_bind_Ok by (apply on_fs_Ok; exact Hc).
    rewrite (proj2 (Z.eqb_neq q NULL))
      by (eapply (mounted_nonnull f1); [exact Hm1|]; apply elem_of_app; right; by apply list_elem_of_singleton).
    rewrite (cmd_bind_Ok _ _ _ _ _ eq_refl). change (the_fs (set_sys _ s)) with f1. rewrite Hs1.
    by erewrite cmd_bind_Ok by (apply on_fs_Ok; exact Hw).
  - rewrite map_app. f_equal.
    + apply map_ext_in. intros x Hx%list_elem_of_In.
      rewrite Ho2; [by apply Hold|apply elem_of_app; by left|].
      intros ->. pose proof (layout_below _ _ G _ _ _ _ _ Hl (geo_first _ _ G) Hx).
      destruct (layout_elem _ _ G _ _ _ _ _ Hl (geo_first _ _ G) Hx) as (_ & _ & Hzx & _).
      pose proof (span_ok _ _ Hzx) as (?&_). unfold FLASHPAGE_SIZE in *. lia.
    + cbn [map]. rewrite Hq2, (Hold p Hp). unfold partial. do 4 f_equal.
      unfold size_ok in Hz. fold size in Hz. lia.
Qed.
End Copy.
