(* ===== verification/ShellDemo.v ===== *)
(** * The shell and its commands, evaluated

    A device with the small file system of [XipFsDemo] runs scripts of the shell;
    the executions discharge the hypotheses of the theorems on the shell, and show
    the edges: a deletion after an over-long line, an upload that is abandoned. *)

From stdpp Require Import base gmap list.
From Stdlib Require Import ZArith Lia.
From S2P Require Import Prelude Flash XipFs XipFsSpec XipFsOps XipFsAdmin XipFsRemove XipFsDemo Shell ShellSpec XipFsShell Base64 XipFsLoad XipFsUpload XipFsCopy.

Local Open Scope Z_scope.

(** ** Lines *)

(** A shell with the given input and buffer, and nothing behind it. *)
Definition bare (inp buf : list Z) : shell unit := mkShell inp [] buf tt.

(** echo 'a b' c\ d *)
Definition sample_line : list Z :=
  [101; 99; 104; 111; 32; 39; 97; 32; 98; 39; 32; 99; 92; 32; 100].

Example sample_words :
  line_words sample_line = Some [[101; 99; 104; 111]; [97; 32; 98]; [99; 32; 100]].
Proof. reflexivity. Qed.

Lemma nonzerob_ok l : forallb (fun c => negb (c =? 0)) l = true -> nonzero l.
Proof.
  rewrite forallb_forall, Forall_forall. intros H c Hc%list_elem_of_In%H.
  apply negb_true_iff, Z.eqb_neq in Hc. done.
Qed.

Lemma parse_line_refines_witness :
  exists b, parse_line (bare [] (sample_line ++ [0; 7; 7])) =
    Ok (Some [[101; 99; 104; 111]; [97; 32; 98]; [99; 32; 100]], bare [] b).
Proof.
  destruct (parse_line_refines (bare [] (sample_line ++ [0; 7; 7])) sample_line [7; 7]) as (b & _ & H).
  - reflexivity.
  - apply nonzerob_ok. reflexivity.
  - exists b. exact H.
Defined.

Definition odd_words : list (list Z) := [[39; 92; 34]; []; [32; 9]].

Lemma quoted_words_arrive_witness :
  exists s', parse_line (bare [] (join (map quote odd_words) ++ [0])) = Ok (Some odd_words, s').
Proof.
  apply (quoted_words_arrive (bare [] (join (map quote odd_words) ++ [0])) odd_words []).
  - reflexivity.
  - discriminate.
  - do 3 (apply Forall_cons; split; [apply nonzerob_ok; reflexivity|]). apply Forall_nil_2.
Defined.

Lemma all_check (f : Z -> bool) l : forallb f l = true -> Forall (fun c => f c = true) l.
Proof. rewrite forallb_forall, Forall_forall. intros H c Hc%list_elem_of_In. by apply H. Qed.

(** A line of four characters into a buffer for three: too long.  A deletion that
    follows makes it a line of three characters; the loop keeps two of them, as one that
    was stored is dropped, and reports no excess. *)
Definition typed : list Z := [97; 98; 99; 100; LF; 120; LF].
Definition typed_deleted : list Z := [97; 98; 99; 100; DEL; LF].

Lemma readline_refines_witness :
  exists s', readline true 4 (bare typed [0; 0; 0; 0; 5]) = Ok (- ENOBUFS, s') /\
    sh_in s' = [120; LF] /\ drop 4 (sh_buf s') = [5] /\ take 4 (sh_buf s') = [97; 98; 99; 0].
Proof.
  pose proof (readline_refines true 4 (bare typed [0; 0; 0; 0; 5])
    ltac:(lia) ltac:(cbn; lia)) as H.
  vm_compute (read_spec (sh_in (bare typed [0; 0; 0; 0; 5])) []) in H.
  destruct H as (r & s' & H1 & H2 & _ & _ & H3 & _ & _ & H4). exists s'.
  destruct H4 as [Hr [?|H4]]; [reflexivity|discriminate|]. rewrite Hr in H1.
  split; [exact H1|]. split; [exact H2|]. split; [exact H3|exact H4].
Defined.

Example deletion_drops_stored :
  read_spec typed_deleted [] = (Line, [97; 98; 99], []) /\
  no_late_deletion 4 typed_deleted [] = false /\
  readline true 4 (bare typed_deleted [0; 0; 0; 0]) = Ok (2, mkShell [] [] [97; 98; 0; 0] tt).
Proof. repeat split; vm_compute; reflexivity. Qed.

(** ** An upload *)

Definition content : list Z := [127; 69; 76; 70; 1; 0; 255; 16].
Definition device0 : device := mkDevice one 0.
Definition upload_name : list Z := [112; 46; 98; 105; 110].
Definition script : list Z := default [] (put upload_name content).
Definition console0 : shell device := mkShell (default [] (host_run script)) [] (replicate 128 0) device0.

Lemma put_loads_file_witness :
  exists s', shell_run_once false false None xipfs_commands 128 console0 = Ok (tt, s') /\
    mounted (the_fs s') [0x28000; 0x29000] (Some 0x2a000) /\
    last (map (abs_file (mem (the_fs s'))) [0x28000; 0x29000]) =
    Some (mkAfile (strncpy0 32 upload_name) 8 TINYFS_STATUS_LOADED 1
            (content ++ replicate 4040 FLASHPAGE_ERASE_STATE)).
Proof.
  destruct (put_loads_file false false None xipfs_commands console0 [0x28000] 0x29000
              upload_name content script) as (s' & H1 & _ & _ & H2 & H3).
  - apply files_of_ok. exact one_files.
  - reflexivity.
  - intros p Hp. apply list_elem_of_singleton in Hp as ->. split; vm_compute; reflexivity.
  - discriminate.
  - apply all_check. reflexivity.
  - apply wordsb_ok. reflexivity.
  - unfold size_ok. vm_compute. split; [reflexivity|discriminate].
  - vm_compute. discriminate.
  - vm_compute. reflexivity.
  - reflexivity.
  - reflexivity.
  - reflexivity.
  - reflexivity.
  - reflexivity.
  - exists s'. split; [exact H1|]. split; [exact H2|].
    change [0x28000; 0x29000] with ([0x28000] ++ [0x29000]). rewrite H3.
    vm_compute. reflexivity.
Defined.

(** The tool counts the characters of a name, not the bytes it sends for them: with four accented
    letters in the name a line of a larger file has 131 bytes, of which the shell keeps 127. *)
Example accents_exceed_the_line :
  (bytes ← (script ← put (replicate 4 233) (replicate 99 65); host_run script);
   length <$> split_lines [] bytes !! 1%nat) = Some 131%nat.
Proof. vm_compute. reflexivity. Qed.

(** ** Copying and printing the uploaded file *)

Definition shell_after (s : shell device) : shell device :=
  match shell_run_once true true None xipfs_commands 128 s with Ok (_, s') => s' | Err _ => s end.
Definition console1 : shell device := shell_after console0.

Example console1_files : files_of (the_fs console1) = Some ([0x28000; 0x29000], Some 0x2a000).
Proof. vm_compute. reflexivity. Qed.

Definition word_cat : list Z := [99; 97; 116].
Definition word_cp : list Z := [99; 112].
Definition word_rm : list Z := [114; 109].

Lemma cat_prints_witness :
  cat_main [word_cat; upload_name] console1 =
    Ok (0, add_out console1 (contents (abs_file (mem (the_fs console1)) 0x29000) ++ NL)) /\
  contents (abs_file (mem (the_fs console1)) 0x29000) = content.
Proof.
  split.
  - apply (cat_prints console1 [0x28000; 0x29000] (Some 0x2a000) word_cat upload_name 0x29000).
    + apply files_of_ok. exact console1_files.
    + vm_compute. reflexivity.
    + vm_compute. discriminate.
  - vm_compute. reflexivity.
Defined.

Lemma cp_refines_witness :
  exists f', cp_main [word_cp; upload_name; name_c] console1 =
      Ok (0, set_sys (mkDevice f' (ld_offset (sh_sys console1))) console1) /\
    mounted f' [0x28000; 0x29000; 0x2a000] (Some 0x2b000).
Proof.
  destruct (cp_refines console1 [0x28000; 0x29000] 0x2a000 word_cp upload_name name_c 0x29000)
    as (f' & H1 & H2 & _).
  - apply files_of_ok. exact console1_files.
  - vm_compute. reflexivity.
  - vm_compute. reflexivity.
  - right. vm_compute. reflexivity.
  - vm_compute. reflexivity.
  - apply wordsb_ok. reflexivity.
  - vm_compute. discriminate.
  - vm_compute. discriminate.
  - exists f'. split; [exact H1|].
    replace (rest_after _ _ _) with (Some 0x2b000) in H2 by (vm_compute; reflexivity). exact H2.
Defined.

(** ** An abandoned upload *)

(** A file of eight bytes gets its first three and is removed; [offset] stays at
    three, so the next upload finds its three bytes already accounted for: the
    file is reported as loaded and holds none of them. *)
Definition abandoned : list Z :=
  script_text
    [ [word_mkbin; name_b; [56]; [48]]; [word_ldbin; name_b; b64encode [1; 2; 3]];
      [word_rm; name_b];
      [word_mkbin; name_c; [51]; [48]]; [word_ldbin; name_c; b64encode [7; 8; 9]] ].
Definition console2 : shell device :=
  shell_after (mkShell abandoned [] (replicate 128 0) device0).

Example abandoned_upload_loses_data :
  files_of (the_fs console2) = Some ([0x28000; 0x29000], Some 0x2a000) /\
  file_status (mem (the_fs console2)) 0x29000 = TINYFS_STATUS_LOADED /\
  contents (abs_file (mem (the_fs console2)) 0x29000) = replicate 3 FLASHPAGE_ERASE_STATE /\
  sh_out console2 = [].
Proof. vm_compute. repeat split; reflexivity. Qed.
