(* ===== verification/Pip.v ===== *)
(** * The services of Pip

    Pip, the separation kernel below RIOT, is not part of the repository; its
    services are declared by the stubs of [06-rbpf-bench/stdriot/stdriot.h].  The
    class [Pip] has the services RIOT uses as functions on the state of Pip, and
    what they promise on requests about blocks the caller owns, in terms of a
    view: the caller's memory blocks, what of them is granted to a child with
    which rights, and the interrupt state; and the block each region of a partition's
    memory protection unit maps. *)

From stdpp Require Import base gmap list infinite.
From Stdlib Require Import ZArith Lia.
From S2P Require Import Prelude.

Local Open Scope Z_scope.

Record grant := mkGrant { g_child : Z; g_read : Z; g_write : Z; g_exec : Z }.
#[export] Instance grant_eq_dec : EqDecision grant.
Proof. solve_decision. Defined.

(** Blocks by their identifier, as the addresses from the first to before the second. *)
Record pview := mkView {
  blocks : gmap Z (Z * Z);
  grants : gmap Z grant;
  irq : bool
}.

Definition with_blocks (v : pview) (b : gmap Z (Z * Z)) : pview := mkView b (grants v) (irq v).
Definition with_grants (v : pview) (g : gmap Z grant) : pview := mkView (blocks v) g (irq v).

(** A block cut at [a] keeps its identifier for the first part. *)
Definition cut_view (v : pview) (b s a e id : Z) : pview :=
  with_blocks v (<[id := (a, e)]> (<[b := (s, a)]> (blocks v))).
Definition merge_view (v : pview) (b1 b2 s e : Z) : pview :=
  with_blocks v (<[b1 := (s, e)]> (delete b2 (blocks v))).

Class Pip (K : Type) := {
  view : K -> pview;
  regions : K -> Z -> gmap Z Z;
  Pip_cutMemoryBlock : Z -> Z -> Z -> K -> Z * K;
  Pip_mergeMemoryBlocks : Z -> Z -> Z -> K -> Z * K;
  Pip_prepare : Z -> Z -> Z -> K -> Z * K;
  Pip_createPartition : Z -> K -> Z * K;
  Pip_addMemoryBlock : Z -> Z -> Z -> Z -> Z -> K -> Z * K;
  Pip_removeMemoryBlock : Z -> K -> Z * K;
  Pip_deletePartition : Z -> K -> Z * K;
  Pip_collect : Z -> K -> Z * K;
  Pip_mapMPU : Z -> Z -> Z -> K -> Z * K;
  Pip_setVIDT : Z -> Z -> K -> Z * K;
  Pip_setIntState : Z -> K -> K
}.

(** A service that succeeds with a value other than null and leads to the view [v]. *)
Definition grants_ok {K} `{Pip K} (r : Z * K) (v : pview) : Prop :=
  fst r <> 0 /\ view (snd r) = v.

(** What the services promise: they succeed on blocks of the caller, and do to
    the view what their names say. *)
Class PipLaws (K : Type) `{Pip K} : Prop := {
  cut_law b a r k s e :
    blocks (view k) !! b = Some (s, e) -> s < a < e ->
    let id := fst (Pip_cutMemoryBlock b a r k) in
    blocks (view k) !! id = None /\
    grants_ok (Pip_cutMemoryBlock b a r k) (cut_view (view k) b s a e id);
  merge_law b1 b2 r k s m e :
    blocks (view k) !! b1 = Some (s, m) -> blocks (view k) !! b2 = Some (m, e) ->
    b1 <> b2 -> b1 <> 0 ->
    grants (view k) !! b1 = None -> grants (view k) !! b2 = None ->
    grants_ok (Pip_mergeMemoryBlocks b1 b2 r k) (merge_view (view k) b1 b2 s e);
  prepare_law p n b k : is_Some (blocks (view k) !! b) -> grants_ok (Pip_prepare p n b k) (view k);
  create_law b k : is_Some (blocks (view k) !! b) -> grants_ok (Pip_createPartition b k) (view k);
  add_law c b r w x k :
    is_Some (blocks (view k) !! b) -> grants (view k) !! b = None -> b <> 0 ->
    grants_ok (Pip_addMemoryBlock c b r w x k)
      (with_grants (view k) (<[b := mkGrant c r w x]> (grants (view k))));
  remove_law b k :
    is_Some (grants (view k) !! b) ->
    grants_ok (Pip_removeMemoryBlock b k) (with_grants (view k) (delete b (grants (view k))));
  delete_law c k : is_Some (blocks (view k) !! c) -> grants_ok (Pip_deletePartition c k) (view k);
  collect_law p k : grants_ok (Pip_collect p k) (view k);
  map_law p b n k : 0 <= n < 8 -> grants_ok (Pip_mapMPU p b n k) (view k);
  region_law p b n k : 0 <= n < 8 -> regions (snd (Pip_mapMPU p b n k)) p = <[n := b]> (regions k p);
  vidt_law p a k : grants_ok (Pip_setVIDT p a k) (view k);
  int_law n k :
    view (Pip_setIntState n k) = mkView (blocks (view k)) (grants (view k)) (negb (n =? 0))
}.

(** ** A concrete kernel

    The view and the regions are the whole state; a new block gets an identifier not in use. *)

Record ideal := mkIdeal { i_view : pview; i_regions : gmap Z (gmap Z Z) }.
Definition on_view (k : ideal) (v : pview) : ideal := mkIdeal v (i_regions k).
Definition regions_of (k : ideal) (p : Z) : gmap Z Z := default ∅ (i_regions k !! p).
Definition map_region (p b n : Z) (k : ideal) : ideal :=
  mkIdeal (i_view k) (<[p := <[n := b]> (regions_of k p)]> (i_regions k)).

Definition new_id (v : pview) : Z := fresh ({[0]} ∪ dom (blocks v) : gset Z).

Lemma new_id_spec v : new_id v <> 0 /\ blocks v !! new_id v = None.
Proof.
  unfold new_id. pose proof (is_fresh ({[0]} ∪ dom (blocks v) : gset Z)) as H.
  split; [set_solver|]. apply not_elem_of_dom. set_solver.
Qed.

#[export] Instance ideal_pip : Pip ideal := {|
  view := i_view;
  regions := regions_of;
  Pip_cutMemoryBlock b a _ k :=
    let v := i_view k in
    match blocks v !! b with
    | Some (s, e) => (new_id v, on_view k (cut_view v b s a e (new_id v)))
    | None => (0, k)
    end;
  Pip_mergeMemoryBlocks b1 b2 _ k :=
    let v := i_view k in
    match blocks v !! b1, blocks v !! b2 with
    | Some (s, _), Some (_, e) => (b1, on_view k (merge_view v b1 b2 s e))
    | _, _ => (0, k)
    end;
  Pip_prepare _ _ _ k := (1, k);
  Pip_createPartition _ k := (1, k);
  Pip_addMemoryBlock c b r w x k :=
    (b, on_view k (with_grants (i_view k) (<[b := mkGrant c r w x]> (grants (i_view k)))));
  Pip_removeMemoryBlock b k := (1, on_view k (with_grants (i_view k) (delete b (grants (i_view k)))));
  Pip_deletePartition _ k := (1, k);
  Pip_collect _ k := (1, k);
  Pip_mapMPU p b n k := (1, map_region p b n k);
  Pip_setVIDT _ _ k := (1, k);
  Pip_setIntState n k := on_view k (mkView (blocks (i_view k)) (grants (i_view k)) (negb (n =? 0)))
|}.

#[export] Instance ideal_laws : PipLaws ideal.
Proof.
  split; unfold grants_ok; cbn; intros; try done.
  - rewrite H. cbn. destruct (new_id_spec (i_view k)). done.
  - rewrite H, H0. done.
  - unfold regions_of at 1. cbn. by rewrite lookup_insert_eq.
Qed.
