(* ===== verification/SafeExec.v ===== *)
(** * Running a binary in a partition

    Models [RIOT/sys/shell/cmds/safe_exec.c]: the command that builds a child
    partition around a loaded file, hands it its arguments, runs it, serves its
    system calls and takes the partition down again, with the sensor registry
    [RIOT/sys/saul_reg/saul_reg.c] the system calls use.  Pip, the drivers
    behind the registry, the C library functions offered to the child, the
    addresses of the linker and the layout of a saved context are parameters;
    the child is any program that runs until it traps.  The variables of the command are
    fields of the state; where they are in RAM is a parameter, and a store of the child, or of
    the handler through a pointer the child has given it, that hits one of them ends the run
    in [Overwritten]. *)

From stdpp Require Import base gmap list.
From Stdlib Require Import ZArith Lia String.
From S2P Require Import Prelude Flash XipFs Shell XipFsShell Pip.

Local Open Scope Z_scope.

Definition INITIAL_XPSR : Z := 0x01000000.
Definition MAP_DISCARD : Z := -1.
Definition PREPARE_FORCE : Z := 8.
Definition RIOT_BLOCK_ID_1 : Z := 0x2000f1ad.
Definition RIOT_BLOCK_ID_2 : Z := 0x2000f1be.
Definition RIOT_VIDT_MEMFAULT : Z := 4.
Definition RIOT_VIDT_SYSCALL : Z := 54.
Definition RIOT_VIDT_DISCARD : Z := 55.
Definition RIOT_SYSCALL_EXIT : Z := 0.
Definition RIOT_SYSCALL_VPRINTF : Z := 1.
Definition RIOT_SYSCALL_GET_TEMP : Z := 2.
Definition RIOT_SYSCALL_ISPRINT : Z := 3.
Definition RIOT_SYSCALL_STRTOL : Z := 4.
Definition RIOT_SYSCALL_GET_LED : Z := 5.
Definition RIOT_SYSCALL_SET_LED : Z := 6.
Definition RIOT_SYSCALL_COPY_FILE : Z := 7.
Definition RIOT_SYSCALL_GET_FILE_SIZE : Z := 8.
Definition RIOT_SYSCALL_MEMSET : Z := 9.
Definition SHELL_DEFAULT_BUFSIZE : Z := 128.
Definition THUMB_ADDRESS (x : Z) : Z := Z.lor x 1.

(** Members of an [interface_t]. *)
Definition itf_partDescBlockId : Z := 0.
Definition itf_stackLimit : Z := 4.
Definition itf_stackTop : Z := 8.
Definition itf_vidtStart : Z := 12.
Definition itf_vidtEnd : Z := 16.
Definition itf_root : Z := 20.
Definition itf_unusedRomStart : Z := 24.
Definition itf_romEnd : Z := 28.
Definition itf_unusedRamStart : Z := 32.
Definition itf_ramEnd : Z := 36.
Definition sizeof_interface : Z := 40.

(** The contexts of a [vidt_t] follow its first word. *)
Definition vidt_context (vidt i : Z) : Z := vidt + 4 + 4 * i.

(** What the linker and the headers of Pip fix. *)
Class Target := {
  riotPartDesc : Z;
  riotVidt : Z;
  riotGotAddr : Z;
  riot_dsp_ctx : Z;
  riot_stk_addr : Z;
  dispatcher_addr : Z;
  sizeof_context : Z;
  ctx_isBasicFrame : Z; ctx_pipflags : Z; ctx_r0 : Z; ctx_r1 : Z; ctx_r10 : Z;
  ctx_sp : Z; ctx_pc : Z; ctx_xpsr : Z;
  (** Where the variables of the two commands are, with RIOT's own variables they use, the
      stack [riot_stk_addr], and the stack and the saved context of the thread that runs the command:
      the first byte and the one behind the last of each. *)
  command_objects : list (Z * Z)
}.

(** The C library functions a child may call, on the memory they can read; no result is a read
    of a byte that is not mapped.  [vprintf] prints, stores the words of [%n], and returns. *)
Class Libc := {
  libc_vprintf : (Z -> option Z) -> Z -> Z -> option (list Z * list (Z * Z) * Z);
  libc_isprint : Z -> Z;
  libc_strtol : (Z -> option Z) -> Z -> Z -> option (Z * Z)
}.

(** ** Sensors *)

(** A driver reads (result and first value) and writes on the state of the devices. *)
Record saul_driver (D : Type) := mkDriver {
  drv_read : D -> Z * Z * D;
  drv_write : Z -> D -> Z * D
}.
Arguments drv_read {D}.
Arguments drv_write {D}.

Section SafeExec.
Context `{HN : Nvmc} {K D : Type} `{HP : Pip K} `{HT : Target} `{HL : Libc}.

(** The registry: its devices in the order they were added. *)
Variable saul_reg : list (saul_driver D).

(** ** State *)

Record riot := mkRiot {
  r_fs : tinyfs;
  r_ram : memory;
  r_out : list Z;
  r_dev : D;
  r_pip : K;
  unusedRamStart : Z;
  riot_status : Z;
  child_ctx_addr : Z;
  child_block_0_id : Z;
  child_block_1_id : Z;
  child_block_2_id : Z;
  child_pd_id : Z;
  child_flash_end_id : Z
}.

Abbreviation rc A := (cmd riot fault A).

Definition set_ram (m : memory) (s : riot) : riot :=
  mkRiot (r_fs s) m (r_out s) (r_dev s) (r_pip s) (unusedRamStart s) (riot_status s)
    (child_ctx_addr s) (child_block_0_id s) (child_block_1_id s) (child_block_2_id s)
    (child_pd_id s) (child_flash_end_id s).
Definition set_pip (k : K) (s : riot) : riot :=
  mkRiot (r_fs s) (r_ram s) (r_out s) (r_dev s) k (unusedRamStart s) (riot_status s)
    (child_ctx_addr s) (child_block_0_id s) (child_block_1_id s) (child_block_2_id s)
    (child_pd_id s) (child_flash_end_id s).
Definition set_dev (d : D) (s : riot) : riot :=
  mkRiot (r_fs s) (r_ram s) (r_out s) d (r_pip s) (unusedRamStart s) (riot_status s)
    (child_ctx_addr s) (child_block_0_id s) (child_block_1_id s) (child_block_2_id s)
    (child_pd_id s) (child_flash_end_id s).
Definition set_status (v : Z) (s : riot) : riot :=
  mkRiot (r_fs s) (r_ram s) (r_out s) (r_dev s) (r_pip s) (unusedRamStart s) v
    (child_ctx_addr s) (child_block_0_id s) (child_block_1_id s) (child_block_2_id s)
    (child_pd_id s) (child_flash_end_id s).
Definition set_ctx (a : Z) (s : riot) : riot :=
  mkRiot (r_fs s) (r_ram s) (r_out s) (r_dev s) (r_pip s) (unusedRamStart s) (riot_status s)
    a (child_block_0_id s) (child_block_1_id s) (child_block_2_id s)
    (child_pd_id s) (child_flash_end_id s).
Definition set_ids (b0 b1 b2 pd fe : Z) (s : riot) : riot :=
  mkRiot (r_fs s) (r_ram s) (r_out s) (r_dev s) (r_pip s) (unusedRamStart s) (riot_status s)
    (child_ctx_addr s) b0 b1 b2 pd fe.

Definition print (l : list Z) : rc unit := modify (fun s =>
  mkRiot (r_fs s) (r_ram s) (r_out s ++ l) (r_dev s) (r_pip s) (unusedRamStart s) (riot_status s)
    (child_ctx_addr s) (child_block_0_id s) (child_block_1_id s) (child_block_2_id s)
    (child_pd_id s) (child_flash_end_id s)).

(** A function of the file system that does not change it. *)
Definition ask_fs {A} (c : fs A) : rc A := fun s =>
  match c (r_fs s) with Ok (a, _) => Ok (a, s) | Err e => Err e end.

(** A service of Pip. *)
Definition pip (c : K -> Z * K) : rc Z := fun s =>
  let r := c (r_pip s) in Ok (fst r, set_pip (snd r) s).

(** ** Memory

    Addresses below the end of the flash read the flash; a store there faults. *)

Definition FLASH_LIMIT : Z := FLASHPAGE_SIZE * FLASHPAGE_NUMOF.
Definition load8 (s : riot) (a : Z) : Z :=
  if a <? FLASH_LIMIT then rd8 (mem (r_fs s)) a else rd8 (r_ram s) a.
Definition load32 (s : riot) (a : Z) : Z :=
  if a <? FLASH_LIMIT then rd32 (mem (r_fs s)) a else rd32 (r_ram s) a.
Definition store8 (a v : Z) : rc unit :=
  ok ← gets (fun _ => FLASH_LIMIT <=? a);
  check BusFault ok ;; modify (fun s => set_ram (wr8 (r_ram s) a v) s).
Definition store32 (a v : Z) : rc unit :=
  ok ← gets (fun _ => FLASH_LIMIT <=? a);
  check BusFault ok ;; modify (fun s => set_ram (wr32 (r_ram s) a v) s).

(** [memset]. *)
Fixpoint fill (n : nat) (a v : Z) : rc unit :=
  match n with
  | O => mret tt
  | S n => store8 a (u8 v) ;; fill n (u32 (a + 1)) v
  end.
Definition memset (a v n : Z) : rc unit := fill (Z.to_nat n) a v.

(** ** Accesses through the pointers of a child

    The handler reaches a block when a region of RIOT's protection unit maps it, and memory
    that is in no block always. *)

Definition mapped_blocks (s : riot) : list Z := map snd (map_to_list (regions (r_pip s) riotPartDesc)).
Definition accessible (s : riot) (a : Z) : bool :=
  forallb (fun '(id, (lo, hi)) => negb ((lo <=? a) && (a <? hi)) || existsb (Z.eqb id) (mapped_blocks s))
    (map_to_list (blocks (view (r_pip s)))).
Definition accessible_word (s : riot) (a : Z) : bool :=
  accessible s a && accessible s (a + 1) && accessible s (a + 2) && accessible s (a + 3).

(** What must stay as it is while a child runs: the table of handlers, the context of the
    dispatcher, and the objects of the command. *)
Definition reserved : list (Z * Z) :=
  (riotVidt, vidt_context riotVidt 56) :: (riot_dsp_ctx, riot_dsp_ctx + sizeof_context) :: command_objects.
Definition overlaps (a n : Z) (r : Z * Z) : bool := Z.max a (fst r) <? Z.min (a + n) (snd r).
Definition spared (a n : Z) : bool := forallb (fun r => negb (overlaps a n r)) reserved.
Definition unchanged (m m' : memory) : bool :=
  forallb (fun r => forallb (fun a => rd8 m' a =? rd8 m a) (seqZ (fst r) (snd r - fst r))) reserved.

Definition peek8 (s : riot) (a : Z) : option Z := if accessible s a then Some (load8 s a) else None.
Definition fetch32 (a : Z) : rc Z :=
  ok ← gets (fun s => accessible_word s a);
  check Unmapped ok ;; gets (fun s => load32 s a).
Definition poke8 (a v : Z) : rc unit :=
  ok ← gets (fun s => accessible s a);
  check Unmapped ok ;; check BusFault (FLASH_LIMIT <=? a) ;; check Overwritten (spared a 1) ;; store8 a v.
Definition poke32 (a v : Z) : rc unit :=
  ok ← gets (fun s => accessible_word s a);
  check Unmapped ok ;; check BusFault (FLASH_LIMIT <=? a) ;; check Overwritten (spared a 4) ;; store32 a v.

Fixpoint poke_words (ws : list (Z * Z)) : rc unit :=
  match ws with
  | [] => mret tt
  | (a, v) :: ws => poke32 a v ;; poke_words ws
  end.

(** [memset] on the memory a child names. *)
Fixpoint poke_fill (n : nat) (a v : Z) : rc unit :=
  match n with
  | O => mret tt
  | S n => poke8 a (u8 v) ;; poke_fill n (u32 (a + 1)) v
  end.

(** A result of the C library. *)
Definition libc {A} (f : (Z -> option Z) -> option A) : rc A := fun s =>
  match f (peek8 s) with Some a => Ok (a, s) | None => Err Unmapped end.

(** The characters of a string a comparison of at most [n] characters reads. *)
Fixpoint str_load (n : nat) (s : riot) (a : Z) : list Z :=
  match n with
  | O => []
  | S n => let c := load8 s a in if c =? 0 then [] else c :: str_load n s (u32 (a + 1))
  end.

(** The same, of a string a child names. *)
Fixpoint str_peek (n : nat) (s : riot) (a : Z) : option (list Z) :=
  match n with
  | O => Some []
  | S n =>
      match peek8 s a with
      | None => None
      | Some c => if c =? 0 then Some [] else cons c <$> str_peek n s (u32 (a + 1))
      end
  end.
Definition name_at (a : Z) : rc (list Z) := fun s =>
  match str_peek (Z.to_nat TINYFS_NAME_MAX) s a with Some l => Ok (l, s) | None => Err Unmapped end.

(** ** Functions offered to the child *)

Definition saul_reg_find_nth (pos : Z) : option (saul_driver D) := saul_reg !! Z.to_nat pos.

Definition saul_reg_read (dev : saul_driver D) : rc (Z * Z) := fun s =>
  let '(dim, v, d) := drv_read dev (r_dev s) in Ok ((dim, v), set_dev d s).
Definition saul_reg_write (dev : saul_driver D) (v : Z) : rc Z := fun s =>
  let '(dim, d) := drv_write dev v (r_dev s) in Ok (dim, set_dev d s).

Definition get_temp : rc Z :=
  match saul_reg_find_nth 5 with
  | None => mret 0
  | Some dev => r ← saul_reg_read dev; mret (if fst r <=? 0 then 0 else snd r)
  end.

Definition get_led (pos : Z) : rc Z :=
  if 3 <? u32 pos then mret (-1)
  else
    match saul_reg_find_nth pos with
    | None => mret (-1)
    | Some dev => r ← saul_reg_read dev; mret (if fst r <=? 0 then -1 else snd r)
    end.

Definition set_led (pos val : Z) : rc Z :=
  if 3 <? u32 pos then mret (-1)
  else if 1 <? u32 val then mret (-1)
  else
    match saul_reg_find_nth pos with
    | None => mret (-1)
    | Some dev => dim ← saul_reg_write dev (s16 val); mret (if dim <=? 0 then -1 else 0)
    end.

Fixpoint copy_file_loop (n : nat) (file buf i : Z) : rc unit :=
  match n with
  | O => mret tt
  | S n =>
      c ← gets (fun s => rd8 (mem (r_fs s)) (file + sizeof_file + i));
      poke8 (u32 (buf + i)) c ;; copy_file_loop n file buf (i + 1)
  end.

Definition copy_file (name buf nbyte : Z) : rc Z :=
  str ← name_at name;
  file ← ask_fs (tinyfs_file_search str);
  if file =? NULL then mret (-1)
  else
    size ← gets (fun s => file_size (mem (r_fs s)) file);
    let i := Z.min nbyte size in
    copy_file_loop (Z.to_nat i) file buf 0 ;; mret i.

(** The size is the second part of the result; it stays at its initial value on failure. *)
Definition get_file_size (name size : Z) : rc (Z * Z) :=
  str ← name_at name;
  file ← ask_fs (tinyfs_file_search str);
  if file =? NULL then mret (-1, size)
  else n ← gets (fun s => file_size (mem (r_fs s)) file); mret (0, n).

(** ** Traps of the child *)

Definition map_or_assert (block region : Z) : rc unit :=
  r ← pip (Pip_mapMPU riotPartDesc block region);
  check AssertFailed (negb (r =? 0)).

Definition unmap_child : rc unit :=
  map_or_assert NULL 3 ;; map_or_assert NULL 4 ;; map_or_assert NULL 5.

Definition _exit (status : Z) : rc unit := modify (set_status status) ;; unmap_child.

(** The cases of the handler other than the exit: the word that goes to [argv[0]]. *)
Definition service (argv a0 : Z) : rc (option Z) :=
  if a0 =? RIOT_SYSCALL_VPRINTF then
    ap ← fetch32 (argv + 8);
    format ← fetch32 (argv + 4);
    r ← libc (fun rd => libc_vprintf rd format ap);
    print (fst (fst r)) ;; poke_words (snd (fst r)) ;; mret (Some (u32 (snd r)))
  else if a0 =? RIOT_SYSCALL_GET_TEMP then r ← get_temp; mret (Some (u32 r))
  else if a0 =? RIOT_SYSCALL_ISPRINT then
    a1 ← fetch32 (argv + 4);
    mret (Some (u32 (libc_isprint (s32 a1))))
  else if a0 =? RIOT_SYSCALL_STRTOL then
    a1 ← fetch32 (argv + 4); a2 ← fetch32 (argv + 8); a3 ← fetch32 (argv + 12);
    r ← libc (fun rd => libc_strtol rd a1 (s32 a3));
    (if a2 =? NULL then mret tt else poke32 a2 (snd r)) ;;
    mret (Some (u32 (fst r)))
  else if a0 =? RIOT_SYSCALL_GET_LED then
    a1 ← fetch32 (argv + 4);
    r ← get_led (s32 a1); mret (Some (u32 r))
  else if a0 =? RIOT_SYSCALL_SET_LED then
    a1 ← fetch32 (argv + 4); a2 ← fetch32 (argv + 8);
    r ← set_led (s32 a1) (s32 a2); mret (Some (u32 r))
  else if a0 =? RIOT_SYSCALL_COPY_FILE then
    name ← fetch32 (argv + 4); buf ← fetch32 (argv + 8); nbyte ← fetch32 (argv + 12);
    fe ← gets child_flash_end_id;
    map_or_assert fe 3 ;;
    res ← copy_file name buf nbyte;
    b0 ← gets child_block_0_id;
    map_or_assert b0 3 ;;
    mret (Some (u32 res))
  else if a0 =? RIOT_SYSCALL_GET_FILE_SIZE then
    name ← fetch32 (argv + 4);
    fe ← gets child_flash_end_id;
    map_or_assert fe 3 ;;
    res ← get_file_size name 0;
    b0 ← gets child_block_0_id;
    map_or_assert b0 3 ;;
    a2 ← fetch32 (argv + 8);
    poke32 a2 (snd res) ;;
    mret (Some (u32 (fst res)))
  else if a0 =? RIOT_SYSCALL_MEMSET then
    a1 ← fetch32 (argv + 4); a2 ← fetch32 (argv + 8); a3 ← fetch32 (argv + 12);
    poke_fill (Z.to_nat a3) a1 a2 ;; mret (Some a1)
  else mret None.

(** The handler; [true] if the child has exited and the command goes on. *)
Definition syscall_handler : rc bool :=
  b0 ← gets child_block_0_id; map_or_assert b0 3 ;;
  b1 ← gets child_block_1_id; map_or_assert b1 4 ;;
  b2 ← gets child_block_2_id; map_or_assert b2 5 ;;
  ctx ← gets child_ctx_addr;
  argv ← fetch32 (ctx + ctx_sp);
  a0 ← fetch32 argv;
  if a0 =? RIOT_SYSCALL_EXIT then
    a1 ← fetch32 (argv + 4);
    _exit (s32 a1) ;; mret true
  else
    r ← service argv a0;
    (if r is Some v then poke32 argv v else mret tt) ;;
    unmap_child ;; mret false.

Definition memfault_handler : rc unit := print (str "Memory access violation" ++ NL).

(** A child: from its state, the RAM and the flash it runs until it traps. *)
Inductive trap := Syscall (sp : Z) | MemFault.
Variable C : Type.
Variable child : C -> memory -> memory -> trap * C * memory.

(** From the yield to the child to its trap, and through the handler: Pip saves the context
    of the child and starts the dispatcher, which serves the trap and yields to the child
    again, or to the command. *)
Definition round (c : C) : rc (option C) :=
  m ← gets r_ram;
  f ← gets (fun s => mem (r_fs s));
  let '(t, c, ram) := child c m f in
  check Overwritten (unchanged m ram) ;;
  modify (set_ram ram) ;;
  match t with
  | MemFault => memfault_handler ;; mret None
  | Syscall sp =>
      modify (fun s => set_ram (wr32 (r_ram s) (child_ctx_addr s + ctx_sp) sp) s) ;;
      exited ← syscall_handler;
      mret (if exited : bool then None else Some c)
  end.

(** The child after [n] traps, if it still runs. *)
Fixpoint rounds (n : nat) (c : C) : rc (option C) :=
  match n with
  | O => mret (Some c)
  | S n => r ← round c; match r with None => mret None | Some c => rounds n c end
  end.

(** Until the command is resumed, if that is after at most [fuel] traps. *)
Definition dispatch_loop (fuel : nat) (c : C) : rc unit :=
  r ← rounds fuel c;
  match r with None => mret tt | Some _ => fail Diverge end.

(** ** The command *)

(** [ROUND] of safe_exec.c, on addresses. *)
Definition round_up (x y : Z) : Z := Z.land (u32 (x + y - 1)) (u32 (Z.lnot (y - 1))).

(** The addresses the command works with. *)
Record places := mkPlaces {
  riot_krn_addr : Z; child_pd_addr : Z; child_krn_addr : Z;
  child_stk_addr : Z; child_vidt_addr : Z;
  child_itf_addr : Z; child_sys_addr : Z; child_ctx : Z; child_args_addr : Z;
  child_ram_addr : Z; child_end_addr : Z;
  child_flash_addr : Z; child_flash_end_addr : Z;
  child_argv_addr : Z; child_argc_addr : Z
}.

Definition places_of (unused file size : Z) : places :=
  let riot_krn := round_up unused 512 in
  let pd := u32 (riot_krn + 512) in
  let krn := u32 (pd + 512) in
  let stk := round_up (u32 (krn + 512)) 1024 in
  let vidt := u32 (stk + 512) in
  let itf := round_up (u32 (vidt + 512)) 8192 in
  let sys := u32 (itf + sizeof_interface) in
  let ctx := u32 (sys + 11 * 4) in
  let args := u32 (ctx + sizeof_context) in
  let argv := u32 (stk + 512 - SHELL_DEFAULT_BUFSIZE / 2) in
  mkPlaces riot_krn pd krn stk vidt itf sys ctx args
    (u32 (args + SHELL_DEFAULT_BUFSIZE)) (u32 (itf + 8192))
    file (round_up (u32 (file + size)) FLASHPAGE_SIZE)
    argv (u32 (argv - 4)).

(** The system call table: the marker for Pip, then the interrupt of the calls. *)
Fixpoint store_words (a : Z) (ws : list Z) : rc unit :=
  match ws with
  | [] => mret tt
  | w :: ws => store32 a w ;; store_words (a + 4) ws
  end.
Definition fill_syscalls (sys : Z) : rc unit := store_words sys (1 :: replicate 10 RIOT_VIDT_SYSCALL).

(** The characters of an argument and its terminator, from [j] on. *)
Fixpoint store_string (args j : Z) (w : list Z) : rc unit :=
  match w with
  | [] => store8 (args + j) 0
  | c :: w => store8 (args + j) c ;; store_string args (j + 1) w
  end.

(** The loop over the arguments: [i] counts them from 1, [j] the characters. *)
Fixpoint store_args (argv args i j : Z) (ws : list (list Z)) : rc unit :=
  match ws with
  | [] => mret tt
  | w :: ws =>
      store32 (argv + 4 * (i - 1)) (u32 (args + j)) ;;
      store_string args j w ;;
      store_args argv args (i + 1) (j + Z.of_nat (List.length w) + 1) ws
  end.

Definition fill_interface (p : places) (file size : Z) : rc unit :=
  let itf := child_itf_addr p in
  store32 (itf + itf_stackLimit) (child_stk_addr p) ;;
  store32 (itf + itf_stackTop) (child_argc_addr p) ;;
  store32 (itf + itf_vidtStart) (child_vidt_addr p) ;;
  store32 (itf + itf_vidtEnd) (u32 (child_vidt_addr p + 512)) ;;
  store32 (itf + itf_root) (u32 (file + sizeof_file)) ;;
  let rom := u32 (file + sizeof_file + size) in
  store32 (itf + itf_unusedRomStart) rom ;;
  store32 (itf + itf_romEnd) (round_up rom FLASHPAGE_SIZE) ;;
  store32 (itf + itf_unusedRamStart) (child_ram_addr p) ;;
  store32 (itf + itf_ramEnd) (child_end_addr p).

Definition fill_child_context (p : places) (file : Z) : rc unit :=
  let ctx := child_ctx p in
  memset ctx 0 sizeof_context ;;
  store32 (ctx + ctx_isBasicFrame) 1 ;;
  store32 (ctx + ctx_pipflags) 1 ;;
  store32 (ctx + ctx_r0) (child_itf_addr p) ;;
  store32 (ctx + ctx_r1) (child_sys_addr p) ;;
  store32 (ctx + ctx_sp) (child_argc_addr p) ;;
  store32 (ctx + ctx_pc) (THUMB_ADDRESS (u32 (file + sizeof_file))) ;;
  store32 (ctx + ctx_xpsr) INITIAL_XPSR.

Definition fill_riot_context : rc unit :=
  memset riot_dsp_ctx 0 sizeof_context ;;
  store32 (riot_dsp_ctx + ctx_isBasicFrame) 1 ;;
  store32 (riot_dsp_ctx + ctx_pipflags) 0 ;;
  store32 (riot_dsp_ctx + ctx_r10) riotGotAddr ;;
  store32 (riot_dsp_ctx + ctx_sp) (u32 (riot_stk_addr + 512)) ;;
  store32 (riot_dsp_ctx + ctx_pc) dispatcher_addr ;;
  store32 (riot_dsp_ctx + ctx_xpsr) INITIAL_XPSR.

(** Everything written for the child. *)
Definition fill_child (p : places) (file size : Z) (args : list (list Z)) : rc unit :=
  fill_syscalls (child_sys_addr p) ;;
  store_args (child_argv_addr p) (child_args_addr p) 1 0 args ;;
  store32 (child_argc_addr p) (Z.of_nat (List.length args)) ;;
  fill_interface p file size ;;
  fill_child_context p file ;;
  fill_riot_context ;;
  memset (child_vidt_addr p) 0 512 ;;
  store32 (vidt_context (child_vidt_addr p) 0) (child_ctx p).

(** RIOT's own handlers; returns the context of memory faults it had. *)
Definition prepare_memory (p : places) (file size : Z) (args : list (list Z)) : rc Z :=
  fill_child p file size args ;;
  memfault_ctx ← gets (fun s => load32 s (vidt_context riotVidt RIOT_VIDT_MEMFAULT));
  store32 (vidt_context riotVidt RIOT_VIDT_MEMFAULT) riot_dsp_ctx ;;
  store32 (vidt_context riotVidt RIOT_VIDT_SYSCALL) riot_dsp_ctx ;;
  store32 (vidt_context riotVidt RIOT_VIDT_DISCARD) NULL ;;
  mret memfault_ctx.

(** A service whose failure leads to [abort]. *)
Definition must (c : K -> Z * K) : rc Z :=
  r ← pip c;
  check Aborted (negb (r =? 0)) ;; mret r.

(** The identifiers of a partition. *)
Record part := mkPart {
  p_riot_krn : Z; p_pd : Z; p_krn : Z; p_b0 : Z; p_b1 : Z; p_b2 : Z; p_end : Z; p_flash_end : Z
}.

(** The blocks of the partition are cut out of RIOT's RAM and flash. *)
Definition cut_blocks (p : places) : rc part :=
  riot_krn ← must (Pip_cutMemoryBlock RIOT_BLOCK_ID_1 (riot_krn_addr p) MAP_DISCARD);
  pd ← must (Pip_cutMemoryBlock riot_krn (child_pd_addr p) 3);
  store32 (child_itf_addr p + itf_partDescBlockId) pd ;;
  must (Pip_mapMPU riotPartDesc NULL 3) ;;
  must (Pip_prepare riotPartDesc PREPARE_FORCE riot_krn) ;;
  krn ← must (Pip_cutMemoryBlock pd (child_krn_addr p) MAP_DISCARD);
  b0 ← must (Pip_cutMemoryBlock krn (child_stk_addr p) MAP_DISCARD);
  b1 ← must (Pip_cutMemoryBlock b0 (child_itf_addr p) MAP_DISCARD);
  end_ ← must (Pip_cutMemoryBlock b1 (child_end_addr p) MAP_DISCARD);
  b2 ← must (Pip_cutMemoryBlock RIOT_BLOCK_ID_2 (child_flash_addr p) MAP_DISCARD);
  fe ← must (Pip_cutMemoryBlock b2 (child_flash_end_addr p) MAP_DISCARD);
  modify (set_ids b0 b1 b2 pd fe) ;;
  mret (mkPart riot_krn pd krn b0 b1 b2 end_ fe).

(** The partition is created and given three of them. *)
Definition grant_blocks (p : places) (q : part) : rc unit :=
  must (Pip_createPartition (p_pd q)) ;;
  must (Pip_prepare (p_pd q) PREPARE_FORCE (p_krn q)) ;;
  c0 ← must (Pip_addMemoryBlock (p_pd q) (p_b0 q) 1 1 0);
  c1 ← must (Pip_addMemoryBlock (p_pd q) (p_b1 q) 1 1 0);
  c2 ← must (Pip_addMemoryBlock (p_pd q) (p_b2 q) 1 0 1);
  must (Pip_mapMPU (p_pd q) c0 0) ;;
  must (Pip_mapMPU (p_pd q) c1 1) ;;
  must (Pip_mapMPU (p_pd q) c2 2) ;;
  must (Pip_setVIDT (p_pd q) (child_vidt_addr p)) ;;
  mret tt.

(** After the run: the blocks are taken back and the partition is deleted. *)
Definition revoke_blocks (q : part) : rc unit :=
  must (Pip_setVIDT (p_pd q) NULL) ;;
  must (Pip_mapMPU (p_pd q) NULL 2) ;;
  must (Pip_mapMPU (p_pd q) NULL 1) ;;
  must (Pip_mapMPU (p_pd q) NULL 0) ;;
  must (Pip_removeMemoryBlock (p_b2 q)) ;;
  must (Pip_removeMemoryBlock (p_b1 q)) ;;
  must (Pip_removeMemoryBlock (p_b0 q)) ;;
  must (Pip_collect (p_pd q)) ;;
  must (Pip_deletePartition (p_pd q)) ;;
  mret tt.

Definition merge_blocks (q : part) : rc unit :=
  must (Pip_mergeMemoryBlocks (p_b2 q) (p_flash_end q) MAP_DISCARD) ;;
  must (Pip_mergeMemoryBlocks RIOT_BLOCK_ID_2 (p_b2 q) 2) ;;
  must (Pip_mergeMemoryBlocks (p_b1 q) (p_end q) MAP_DISCARD) ;;
  must (Pip_mergeMemoryBlocks (p_b0 q) (p_b1 q) MAP_DISCARD) ;;
  must (Pip_mergeMemoryBlocks (p_krn q) (p_b0 q) MAP_DISCARD) ;;
  must (Pip_mergeMemoryBlocks (p_pd q) (p_krn q) MAP_DISCARD) ;;
  must (Pip_collect riotPartDesc) ;;
  must (Pip_mergeMemoryBlocks (p_riot_krn q) (p_pd q) MAP_DISCARD) ;;
  must (Pip_mergeMemoryBlocks RIOT_BLOCK_ID_1 (p_riot_krn q) 1) ;;
  mret tt.

(** Up to the yield to the child: its partition and the context of memory
    faults RIOT had. *)
Definition launch_child (file size : Z) (args : list (list Z)) : rc (part * Z) :=
  modify (fun s => set_pip (Pip_setIntState 0 (r_pip s)) s) ;;
  modify (set_status 0) ;;
  unused ← gets unusedRamStart;
  let p := places_of unused file size in
  modify (set_ctx (child_ctx p)) ;;
  memfault_ctx ← prepare_memory p file size args;
  q ← cut_blocks p;
  grant_blocks p q ;;
  mret (q, memfault_ctx).

(** From the resumption on. *)
Definition finish_child (q : part) (memfault_ctx : Z) : rc Z :=
  revoke_blocks q ;;
  merge_blocks q ;;
  store32 (vidt_context riotVidt RIOT_VIDT_MEMFAULT) memfault_ctx ;;
  store32 (vidt_context riotVidt RIOT_VIDT_SYSCALL) NULL ;;
  store32 (vidt_context riotVidt RIOT_VIDT_DISCARD) NULL ;;
  modify (fun s => set_pip (Pip_setIntState 1 (r_pip s)) s) ;;
  unused ← gets unusedRamStart;
  memset unused 0 10752 ;;
  gets riot_status.

(** ** The program's side

    [start] of stdriot.c, entered with the interface: the arguments of [main]. *)
Definition start (interface : Z) (s : riot) : Z * Z :=
  let top := load32 s (interface + itf_stackTop) in (s32 (load32 s top), u32 (top + 4)).

Definition say (argv : list (list Z)) (l : list Z) : rc Z :=
  print (default [] (argv !! 0%nat) ++ l ++ NL) ;; mret 1.

(** [c0] is the state in which a child starts. *)
Definition safe_exec (fuel : nat) (c0 : C) (argv : list (list Z)) : rc Z :=
  if bool_decide (List.length argv < 2)%nat then say argv (str " name")
  else
    let name := default [] (argv !! 1%nat) in
    file ← ask_fs (tinyfs_file_search name);
    if file =? NULL then say argv (str ": " ++ name ++ str ": no such file")
    else
      f ← gets (fun s => file_at (mem (r_fs s)) file);
      if negb (f_status f =? TINYFS_STATUS_LOADED)
      then say argv (str ": " ++ name ++ str ": the file is not loaded")
      else if f_exec f =? 0 then say argv (str ": " ++ name ++ str ": permission denied")
      else
        r ← launch_child file (f_size f) (tail argv);
        dispatch_loop fuel c0 ;;
        finish_child (fst r) (snd r).
End SafeExec.
