(* ===== verification/SafeExecSpec.v ===== *)
(** * What running in a partition promises

    The services of Pip a run uses come in an order that undoes itself: whatever
    the child does, the blocks of RIOT, its handlers and its interrupts are as
    before when the command returns.  The child starts with exactly three blocks
    of memory, and with nothing else. *)

From stdpp Require Import base gmap list.
From Stdlib Require Import ZArith Lia.
From S2P Require Import Prelude Flash XipFs XipFsSpec XipFsOps Shell XipFsShell XipFsCopy Pip SafeExec.

Local Open Scope Z_scope.

(** ** Cutting and merging *)

Lemma cut_lookup_new v b s a e id : blocks (cut_view v b s a e id) !! id = Some (a, e).
Proof. cbn. by rewrite lookup_insert_eq. Qed.

Lemma cut_lookup_old v b s a e id :
  blocks v !! id = None -> is_Some (blocks v !! b) -> blocks (cut_view v b s a e id) !! b = Some (s, a).
Proof.
  intros Hid [r Hb]. cbn. rewrite lookup_insert_ne by congruence. by rewrite lookup_insert_eq.
Qed.

Lemma cut_lookup_other v b s a e id x r :
  blocks v !! id = None -> blocks v !! x = Some r -> x <> b ->
  blocks (cut_view v b s a e id) !! x = Some r /\ x <> id.
Proof.
  intros Hid Hx Hb. cbn. rewrite !lookup_insert_ne by congruence. split; [done|congruence].
Qed.

Lemma cut_is_Some v b s a e id x :
  is_Some (blocks v !! x) -> is_Some (blocks (cut_view v b s a e id) !! x).
Proof. intros H. cbn. by apply lookup_insert_is_Some', or_intror, lookup_insert_is_Some', or_intror. Qed.

Lemma merge_cut v b s a e id :
  blocks v !! b = Some (s, e) -> blocks v !! id = None ->
  merge_view (cut_view v b s a e id) b id s e = v.
Proof.
  intros Hb Hid. assert (b <> id) as Hne by congruence.
  destruct v as [B G i]. unfold merge_view, cut_view, with_blocks. cbn in *. f_equal.
  rewrite delete_insert_id by (by rewrite lookup_insert_ne).
  rewrite insert_insert_eq. by apply insert_id.
Qed.

(** ** The partition *)

(** RIOT's RAM block [s1, e1) and flash block [s2, e2), cut at the places of the
    child in the order of the command. *)
Section Carving.
Variables (v : pview) (p : places) (q : part) (s1 e1 s2 e2 : Z).

Definition carve1 := cut_view v RIOT_BLOCK_ID_1 s1 (riot_krn_addr p) e1 (p_riot_krn q).
Definition carve2 := cut_view carve1 (p_riot_krn q) (riot_krn_addr p) (child_pd_addr p) e1 (p_pd q).
Definition carve3 := cut_view carve2 (p_pd q) (child_pd_addr p) (child_krn_addr p) e1 (p_krn q).
Definition carve4 := cut_view carve3 (p_krn q) (child_krn_addr p) (child_stk_addr p) e1 (p_b0 q).
Definition carve5 := cut_view carve4 (p_b0 q) (child_stk_addr p) (child_itf_addr p) e1 (p_b1 q).
Definition carve6 := cut_view carve5 (p_b1 q) (child_itf_addr p) (child_end_addr p) e1 (p_end q).
Definition carve7 := cut_view carve6 RIOT_BLOCK_ID_2 s2 (child_flash_addr p) e2 (p_b2 q).
Definition carve8 := cut_view carve7 (p_b2 q) (child_flash_addr p) (child_flash_end_addr p) e2 (p_flash_end q).

(** The blocks a child is given: stack and handlers, data, and code. *)
Definition child_grants : gmap Z grant :=
  <[p_b2 q := mkGrant (p_pd q) 1 0 1]> (<[p_b1 q := mkGrant (p_pd q) 1 1 0]>
    (<[p_b0 q := mkGrant (p_pd q) 1 1 0]> ∅)).
Definition partition_view : pview := with_grants carve8 child_grants.

(** The blocks of RIOT before; nothing is granted. *)
Record whole : Prop := mkWhole {
  w_ram : blocks v !! RIOT_BLOCK_ID_1 = Some (s1, e1);
  w_flash : blocks v !! RIOT_BLOCK_ID_2 = Some (s2, e2);
  w_free : grants v = ∅
}.
(** There is room for the places. *)
Record ordered : Prop := mkOrdered {
  o_krn : s1 < riot_krn_addr p;
  o_pd : riot_krn_addr p < child_pd_addr p;
  o_ckrn : child_pd_addr p < child_krn_addr p;
  o_stk : child_krn_addr p < child_stk_addr p;
  o_itf : child_stk_addr p < child_itf_addr p;
  o_end : child_itf_addr p < child_end_addr p;
  o_ram : child_end_addr p < e1;
  o_flash : s2 < child_flash_addr p;
  o_flash_end : child_flash_addr p < child_flash_end_addr p;
  o_rom : child_flash_end_addr p < e2
}.
(** The identifiers were new when they were handed out. *)
Record ram_ids : Prop := mkRamIds {
  n_riot_krn : blocks v !! p_riot_krn q = None;
  n_pd : blocks carve1 !! p_pd q = None;
  n_krn : blocks carve2 !! p_krn q = None;
  n_b0 : blocks carve3 !! p_b0 q = None;
  n_b1 : blocks carve4 !! p_b1 q = None;
  n_end : blocks carve5 !! p_end q = None
}.
Record new_ids : Prop := mkNewIds {
  n_ram : ram_ids;
  n_b2 : blocks carve6 !! p_b2 q = None;
  n_flash_end : blocks carve7 !! p_flash_end q = None;
  n_zero : Forall (fun i => i <> 0) [p_riot_krn q; p_pd q; p_krn q; p_b0 q; p_b1 q; p_b2 q]
}.

(** The blocks between the cuts. *)
Lemma flash_block_kept :
  whole -> ram_ids ->
  Forall (fun w => blocks w !! RIOT_BLOCK_ID_2 = Some (s2, e2)) [carve3; carve4; carve6].
Proof using.
  intros [_ W _] [N1 N2 N3 N4 N5 N6].
  destruct (cut_lookup_other v RIOT_BLOCK_ID_1 s1 (riot_krn_addr p) e1 _ _ _ N1 W) as [C1 D1]; [done|].
  destruct (cut_lookup_other _ _ (riot_krn_addr p) (child_pd_addr p) e1 _ _ _ N2 C1 D1) as [C2 D2].
  destruct (cut_lookup_other _ _ (child_pd_addr p) (child_krn_addr p) e1 _ _ _ N3 C2 D2) as [C3 D3].
  destruct (cut_lookup_other _ _ (child_krn_addr p) (child_stk_addr p) e1 _ _ _ N4 C3 D3) as [C4 D4].
  destruct (cut_lookup_other _ _ (child_stk_addr p) (child_itf_addr p) e1 _ _ _ N5 C4 D4) as [C5 D5].
  repeat constructor; try done. by apply cut_lookup_other.
Qed.

Lemma partition_blocks :
  whole -> new_ids ->
  blocks carve8 !! p_b0 q = Some (child_stk_addr p, child_itf_addr p) /\
  blocks carve8 !! p_b1 q = Some (child_itf_addr p, child_end_addr p) /\
  blocks carve8 !! p_b2 q = Some (child_flash_addr p, child_flash_end_addr p) /\
  p_b0 q <> p_b1 q /\ p_b0 q <> p_b2 q /\ p_b1 q <> p_b2 q.
Proof using.
  intros W [N N7 N8 _]. pose proof (flash_block_kept W N) as F. rewrite !Forall_cons in F.
  destruct F as (F3 & F4 & F6 & _), N as [N1 N2 N3 N4 N5 N6].
  assert (blocks carve4 !! p_b0 q = Some (child_stk_addr p, e1)) as A4 by apply cut_lookup_new.
  assert (blocks carve5 !! p_b0 q = Some (child_stk_addr p, child_itf_addr p)) as A5
    by (apply cut_lookup_old; [done|by rewrite A4]).
  assert (blocks carve5 !! p_b1 q = Some (child_itf_addr p, e1)) as B5 by apply cut_lookup_new.
  assert (p_b0 q <> p_b1 q) as D01 by congruence.
  assert (blocks carve6 !! p_b1 q = Some (child_itf_addr p, child_end_addr p)) as B6
    by (apply cut_lookup_old; [done|by rewrite B5]).
  destruct (cut_lookup_other _ _ (child_itf_addr p) (child_end_addr p) e1 _ _ _ N6 A5 D01) as [A6 _].
  fold carve6 in A6.
  assert (p_b0 q <> p_b2 q /\ p_b1 q <> p_b2 q) as [D02 D12] by (split; congruence).
  assert (p_b0 q <> RIOT_BLOCK_ID_2 /\ p_b1 q <> RIOT_BLOCK_ID_2) as [D0 D1] by (split; congruence).
  destruct (cut_lookup_other _ _ s2 (child_flash_addr p) e2 _ _ _ N7 A6 D0) as [A7 _].
  destruct (cut_lookup_other _ _ s2 (child_flash_addr p) e2 _ _ _ N7 B6 D1) as [B7 _].
  fold carve7 in A7, B7.
  destruct (cut_lookup_other _ _ (child_flash_addr p) (child_flash_end_addr p) e2 _ _ _ N8 A7 D02) as [A8 _].
  destruct (cut_lookup_other _ _ (child_flash_addr p) (child_flash_end_addr p) e2 _ _ _ N8 B7 D12) as [B8 _].
  repeat split; try done. apply cut_lookup_old; [done|]. unfold carve7. by rewrite cut_lookup_new.
Qed.

Lemma descriptor_blocks : is_Some (blocks carve8 !! p_pd q) /\ is_Some (blocks carve8 !! p_krn q).
Proof using.
  split; do 5 apply cut_is_Some.
  - apply cut_is_Some. unfold carve2. by rewrite cut_lookup_new.
  - unfold carve3. by rewrite cut_lookup_new.
Qed.

Lemma with_no_grants : grants v = ∅ -> with_grants carve8 ∅ = carve8.
Proof using. intros H. unfold with_grants, carve8, cut_view, with_blocks. cbn. by rewrite H. Qed.
End Carving.

(** ** The services in sequence *)

Section Services.
Context {K D : Type} `{HP : Pip K} `{HL : !PipLaws K} `{HT : Target}.
Implicit Types (s : riot (K := K) (D := D)).

Lemma wp_must F (c : K -> Z * K) v (Q : Z -> riot -> Prop) s :
  grants_ok (c (r_pip s)) v ->
  (forall id k, id = fst (c (r_pip s)) -> id <> 0 -> view k = v -> Q id (set_pip k s)) ->
  wpe F (must c) Q s.
Proof using.
  intros [H1 H2] HQ. unfold must. apply wpe_bind. unfold wpe at 1, pip. apply wpe_bind.
  eapply wpe_of_Ok; [by apply check_true, negb_true_iff, Z.eqb_neq|]. by apply HQ.
Qed.

(** A service that leaves the view alone. *)
Lemma wp_frame F (c : K -> Z * K) v (Q : Z -> riot -> Prop) s :
  view (r_pip s) = v -> (view (r_pip s) = v -> grants_ok (c (r_pip s)) (view (r_pip s))) ->
  (forall id k, view k = v -> Q id (set_pip k s)) ->
  wpe F (must c) Q s.
Proof using. intros Hv Hc HQ. eapply wp_must; [by apply Hc|]. intros id k _ _ Hk. apply HQ. by rewrite Hk. Qed.

Lemma wp_cut F b a r v x y (Q : Z -> riot -> Prop) s :
  view (r_pip s) = v -> blocks v !! b = Some (x, y) -> x < a < y ->
  (forall id k, id <> 0 -> blocks v !! id = None -> view k = cut_view v b x a y id -> Q id (set_pip k s)) ->
  wpe F (must (Pip_cutMemoryBlock b a r)) Q s.
Proof using HL.
  intros <- Hb Ha HQ. destruct (cut_law b a r (r_pip s) x y Hb Ha) as [Hid Hok].
  eapply wp_must; [exact Hok|]. intros id k -> ? ?. by apply HQ.
Qed.

Lemma wp_merge F b1 b2 r v x a y (Q : Z -> riot -> Prop) s :
  view (r_pip s) = cut_view v b1 x a y b2 ->
  blocks v !! b1 = Some (x, y) -> blocks v !! b2 = None -> b1 <> 0 -> grants v = ∅ ->
  (forall id k, view k = v -> Q id (set_pip k s)) ->
  wpe F (must (Pip_mergeMemoryBlocks b1 b2 r)) Q s.
Proof using HL.
  intros Hv H1 H2 H0 G HQ. assert (b1 <> b2) as Hne by congruence.
  eapply wp_must; [|intros; by apply HQ].
  rewrite <- (merge_cut v b1 x a y b2 H1 H2). rewrite <- Hv.
  apply merge_law with (m := a); rewrite ?Hv; try done.
  - cbn. rewrite lookup_insert_ne, lookup_insert_eq by done. done.
  - cbn. by rewrite lookup_insert_eq.
  - cbn. by rewrite G.
  - cbn. by rewrite G.
Qed.

Lemma wp_add F c b r w x v g (Q : Z -> riot -> Prop) s :
  view (r_pip s) = with_grants v g -> is_Some (blocks v !! b) -> g !! b = None -> b <> 0 ->
  (forall id k, view k = with_grants v (<[b := mkGrant c r w x]> g) -> Q id (set_pip k s)) ->
  wpe F (must (Pip_addMemoryBlock c b r w x)) Q s.
Proof using HL.
  intros Hv H1 H2 H3 HQ. eapply wp_must; [apply add_law; by rewrite ?Hv|].
  intros id k _ _ Hk. apply HQ. by rewrite Hk, Hv.
Qed.

Lemma wp_remove F b v g (Q : Z -> riot -> Prop) s :
  view (r_pip s) = with_grants v g -> is_Some (g !! b) ->
  (forall id k, view k = with_grants v (delete b g) -> Q id (set_pip k s)) ->
  wpe F (must (Pip_removeMemoryBlock b)) Q s.
Proof using HL.
  intros Hv H HQ. eapply wp_must; [apply remove_law; by rewrite ?Hv|].
  intros id k _ _ Hk. apply HQ. by rewrite Hk, Hv.
Qed.

Lemma wp_store32 F a x (Q : unit -> riot -> Prop) s :
  FLASH_LIMIT <= a -> Q tt (set_ram (wr32 (r_ram s) a x) s) -> wpe F (store32 a x) Q s.
Proof using.
  intros Ha HQ. unfold store32. apply wpe_bind, (wpe_bind F).
  unfold wpe at 1, check. rewrite (proj2 (Z.leb_le _ _)) by done. exact HQ.
Qed.
End Services.

Section Partition.
Context {K D : Type} `{HP : Pip K} `{HL : !PipLaws K} `{HT : Target}.
Implicit Types (s : riot (K := K) (D := D)).
Variables (p : places) (s1 e1 s2 e2 : Z).

(** What is left of the state [s] when RIOT has cut the blocks of [q]. *)
Definition cut_state (q : part) (k : K) s : riot :=
  set_ids (p_b0 q) (p_b1 q) (p_b2 q) (p_pd q) (p_flash_end q)
    (set_ram (wr32 (r_ram s) (child_itf_addr p + itf_partDescBlockId) (p_pd q)) (set_pip k s)).

(** The next service of a command: the lemma that describes it and the view before. *)
Tactic Notation "svc" uconstr(H) hyp(V) := apply wpe_bind; eapply H; [exact V|..].
(** Cut the block that the last cut made. *)
Ltac cut_last V := svc wp_cut V; [apply cut_lookup_new|lia|].

Lemma cut_blocks_ok F v (Q : part -> riot -> Prop) s :
  view (r_pip s) = v -> whole v s1 e1 s2 e2 -> ordered p s1 e1 s2 e2 ->
  FLASH_LIMIT <= child_itf_addr p ->
  (forall q k, new_ids v p q s1 e1 s2 e2 -> view k = carve8 v p q s1 e1 s2 e2 -> Q q (cut_state q k s)) ->
  wpe F (cut_blocks p) Q s.
Proof using HL.
  intros Hv W [] Hitf HQ. unfold cut_blocks.
  svc wp_cut Hv; [apply W|lia|]. intros krn k1 Z1 N1 V1.
  cut_last V1. intros pd k2 Z2 N2 V2.
  apply wpe_bind, wp_store32; [unfold itf_partDescBlockId; lia|].
  svc wp_frame V2; [intros _; apply map_law; lia|]. intros _ k3 V3.
  svc wp_frame V3; [intros E; apply prepare_law; rewrite E; by apply cut_is_Some; rewrite cut_lookup_new|].
  intros _ k4 V4.
  cut_last V4. intros ck k5 Z5 N5 V5.
  cut_last V5. intros b0 k6 Z6 N6 V6.
  cut_last V6. intros b1 k7 Z7 N7 V7.
  cut_last V7. intros en k8 Z8 N8 V8.
  assert (ram_ids v p (mkPart krn pd ck b0 b1 0 en 0) s1 e1) as N by by constructor.
  pose proof (flash_block_kept _ _ _ _ _ _ _ W N) as FB. rewrite !Forall_cons in FB.
  svc wp_cut V8; [apply FB|lia|]. intros b2 k9 Z9 N9 V9.
  cut_last V9. intros fe k10 Z10 N10 V10.
  apply (HQ (mkPart krn pd ck b0 b1 b2 en fe) k10); [|done].
  constructor; [by destruct N|done|done|]. by repeat constructor.
Qed.

Lemma grant_blocks_ok F v q (Q : unit -> riot -> Prop) s :
  view (r_pip s) = carve8 v p q s1 e1 s2 e2 -> whole v s1 e1 s2 e2 -> new_ids v p q s1 e1 s2 e2 ->
  (forall k, view k = partition_view v p q s1 e1 s2 e2 -> Q tt (set_pip k s)) ->
  wpe F (grant_blocks p q) Q s.
Proof using HL.
  intros Hv W N HQ. unfold grant_blocks.
  destruct (partition_blocks _ _ _ _ _ _ _ W N) as (B0 & B1 & B2 & D01 & D02 & D12).
  pose proof (n_zero _ _ _ _ _ _ _ N) as Hz. rewrite !Forall_cons in Hz. destruct Hz as (_ & _ & _ & Z0 & Z1 & Z2 & _).
  destruct (descriptor_blocks v p q s1 e1 s2 e2) as [Bpd Bkrn].
  svc wp_frame Hv; [intros E; apply create_law; by rewrite E|]. intros _ k1 V1.
  svc wp_frame V1; [intros E; apply prepare_law; by rewrite E|]. intros _ k2 V2.
  rewrite <- (with_no_grants _ _ _ _ _ _ _ (w_free _ _ _ _ _ W)) in V2.
  svc wp_add V2; [by rewrite B0|done|done|]. intros c0 k3 V3.
  svc wp_add V3; [by rewrite B1|by rewrite lookup_insert_ne|done|]. intros c1 k4 V4.
  svc wp_add V4; [by rewrite B2|by rewrite !lookup_insert_ne|done|]. intros c2 k5 V5.
  svc wp_frame V5; [intros _; apply map_law; lia|]. intros _ k6 V6.
  svc wp_frame V6; [intros _; apply map_law; lia|]. intros _ k7 V7.
  svc wp_frame V7; [intros _; apply map_law; lia|]. intros _ k8 V8.
  svc wp_frame V8; [intros _; apply vidt_law|]. intros _ k9 V9. by apply HQ.
Qed.

Lemma revoke_blocks_ok F v q (Q : unit -> riot -> Prop) s :
  view (r_pip s) = partition_view v p q s1 e1 s2 e2 -> whole v s1 e1 s2 e2 -> new_ids v p q s1 e1 s2 e2 ->
  (forall k, view k = carve8 v p q s1 e1 s2 e2 -> Q tt (set_pip k s)) ->
  wpe F (revoke_blocks q) Q s.
Proof using HL.
  intros Hv W N HQ. unfold revoke_blocks.
  destruct (partition_blocks _ _ _ _ _ _ _ W N) as (_ & _ & _ & D01 & D02 & D12).
  destruct (descriptor_blocks v p q s1 e1 s2 e2) as [Bpd _].
  svc wp_frame Hv; [intros _; apply vidt_law|]. intros _ k1 V1.
  svc wp_frame V1; [intros _; apply map_law; lia|]. intros _ k2 V2.
  svc wp_frame V2; [intros _; apply map_law; lia|]. intros _ k3 V3.
  svc wp_frame V3; [intros _; apply map_law; lia|]. intros _ k4 V4.
  svc wp_remove V4; [unfold child_grants; by rewrite lookup_insert_eq|]. intros _ k5 V5.
  unfold child_grants in V5. rewrite delete_insert_id in V5 by (by rewrite !lookup_insert_ne).
  svc wp_remove V5; [by rewrite lookup_insert_eq|]. intros _ k6 V6.
  rewrite delete_insert_id in V6 by (by rewrite !lookup_insert_ne).
  svc wp_remove V6; [by rewrite lookup_insert_eq|]. intros _ k7 V7.
  rewrite delete_insert_id in V7 by done. rewrite with_no_grants in V7 by apply W.
  svc wp_frame V7; [intros _; apply collect_law|]. intros _ k8 V8.
  svc wp_frame V8; [intros E; apply delete_law; by rewrite E|]. intros _ k9 V9. by apply HQ.
Qed.

Lemma merge_blocks_ok F v q (Q : unit -> riot -> Prop) s :
  view (r_pip s) = carve8 v p q s1 e1 s2 e2 -> whole v s1 e1 s2 e2 -> new_ids v p q s1 e1 s2 e2 ->
  (forall k, view k = v -> Q tt (set_pip k s)) ->
  wpe F (merge_blocks q) Q s.
Proof using HL.
  intros Hv W [N N7 N8 Hz] HQ. unfold merge_blocks.
  pose proof (flash_block_kept _ _ _ _ _ _ _ W N) as FB. rewrite !Forall_cons in FB. rewrite !Forall_cons in Hz.
  destruct FB as (_ & _ & F6 & _), Hz as (Z1 & Z2 & Z3 & Z4 & Z5 & Z6 & _), N, W.
  svc wp_merge Hv; [apply cut_lookup_new|done..|]. intros _ k1 V1.
  svc wp_merge V1; [done..|]. intros _ k2 V2.
  svc wp_merge V2; [apply cut_lookup_new|done..|]. intros _ k3 V3.
  svc wp_merge V3; [apply cut_lookup_new|done..|]. intros _ k4 V4.
  svc wp_merge V4; [apply cut_lookup_new|done..|]. intros _ k5 V5.
  svc wp_merge V5; [apply cut_lookup_new|done..|]. intros _ k6 V6.
  svc wp_frame V6; [intros _; apply collect_law|]. intros _ k7 V7.
  svc wp_merge V7; [apply cut_lookup_new|done..|]. intros _ k8 V8.
  svc wp_merge V8; [done..|]. intros _ k9 V9. by apply HQ.
Qed.
End Partition.
