(* ===== verification/SafeExecMem.v ===== *)
(** * The memory of a partition

    Where the command puts the parts of a partition, and what it writes there:
    the child finds its arguments, its interface and its context where the
    program's start-up code looks for them. *)

From stdpp Require Import base gmap list.
From Stdlib Require Import ZArith Lia.
From S2P Require Import Prelude Flash XipFs XipFsSpec XipFsOps Shell XipFsShell XipFsCopy Pip SafeExec SafeExecSpec.

Local Open Scope Z_scope.

(** ** Rounding *)

Lemma round_up_spec n x :
  0 <= n <= 16 -> 0 <= x -> x + 2 ^ n <= 2 ^ 32 ->
  x <= round_up x (2 ^ n) < x + 2 ^ n /\ round_up x (2 ^ n) mod 2 ^ n = 0.
Proof.
  intros Hn Hx Hb. assert (0 < 2 ^ n) by (apply Z.pow_pos_nonneg; lia).
  unfold round_up. rewrite wrap_small by (unfold is_word; lia).
  rewrite land_mask by (unfold is_word; lia).
  pose proof (Z.mod_pos_bound (x + 2 ^ n - 1) (2 ^ n) ltac:(lia)). split; [lia|].
  rewrite Zminus_mod, Z.mod_mod, Z.sub_diag by lia. by apply Z.mod_0_l; lia.
Qed.

(** ** Places *)

Section Layout.
Context `{HT : Target}.

(** RIOT's own data lies below the free RAM, and a context fits its place. *)
Record room (unused : Z) : Prop := mkRoom {
  m_vidt : FLASH_LIMIT <= riotVidt;
  m_vidt_end : vidt_context riotVidt 56 <= unused;
  m_dsp : FLASH_LIMIT <= riot_dsp_ctx;
  m_dsp_end : riot_dsp_ctx + sizeof_context <= unused;
  m_apart : riot_dsp_ctx + sizeof_context <= riotVidt \/ vidt_context riotVidt 56 <= riot_dsp_ctx;
  m_end : unused + 2 ^ 15 <= 2 ^ 32;
  m_context : 0 <= sizeof_context <= 4096;
  m_members : Forall (fun o => 0 <= o <= sizeof_context - 4)
    [ctx_isBasicFrame; ctx_pipflags; ctx_r0; ctx_r1; ctx_r10; ctx_sp; ctx_pc; ctx_xpsr];
  m_disjoint : Forall (fun o => o + 4 <= ctx_r0 \/ ctx_r0 + 4 <= o) [ctx_r1; ctx_sp; ctx_pc; ctx_xpsr]
}.

(** The parts of a partition, one after the other. *)
Record laid_out (unused : Z) (p : places) : Prop := mkLaidOut {
  y_krn : unused <= riot_krn_addr p < unused + 512;
  y_krn_al : riot_krn_addr p mod 512 = 0;
  y_pd : child_pd_addr p = riot_krn_addr p + 512;
  y_ckrn : child_krn_addr p = child_pd_addr p + 512;
  y_stk : child_krn_addr p + 512 <= child_stk_addr p < child_krn_addr p + 1536;
  y_stk_al : child_stk_addr p mod 1024 = 0;
  y_argv : child_argv_addr p = child_stk_addr p + 448;
  y_argc : child_argc_addr p = child_stk_addr p + 444;
  y_vidt : child_vidt_addr p = child_stk_addr p + 512;
  y_itf : child_stk_addr p + 1024 <= child_itf_addr p < child_stk_addr p + 1024 + 8192;
  y_itf_al : child_itf_addr p mod 8192 = 0;
  y_sys : child_sys_addr p = child_itf_addr p + 40;
  y_ctx : child_ctx p = child_itf_addr p + 84;
  y_args : child_args_addr p = child_ctx p + sizeof_context;
  y_ram : child_ram_addr p = child_args_addr p + 128;
  y_end : child_end_addr p = child_itf_addr p + 8192
}.

Lemma places_laid_out unused file size :
  room unused -> laid_out unused (places_of unused file size).
Proof using.
  intros [? ? ? ? _ ? [? ?] _ _]. unfold vidt_context in *.
  assert (0 <= FLASH_LIMIT) by done. assert (0 <= unused) by lia.
  destruct (round_up_spec 9 unused) as [Hk Hka]; [lia..|]. change (2 ^ 9) with 512 in *.
  set (krn := round_up unused 512) in *.
  assert (forall x, 0 <= x < 2 ^ 32 -> u32 x = x) as Hw by (intros; by apply wrap_small).
  destruct (round_up_spec 10 (krn + 1536)) as [Hs Hsa]; [lia..|]. change (2 ^ 10) with 1024 in *.
  set (stk := round_up (krn + 1536) 1024) in *.
  destruct (round_up_spec 13 (stk + 1024)) as [Hi Hia]; [lia..|]. change (2 ^ 13) with 8192 in *.
  set (itf := round_up (stk + 1024) 8192) in *.
  assert (places_of unused file size = mkPlaces krn (krn + 512) (krn + 1024) stk (stk + 512) itf (itf + 40)
    (itf + 84) (itf + 84 + sizeof_context) (itf + 84 + sizeof_context + 128) (itf + 8192) file
    (round_up (u32 (file + size)) FLASHPAGE_SIZE) (stk + 448) (stk + 444)) as ->.
  { unfold places_of. fold krn. rewrite !(Hw (krn + 512)) by lia.
    replace (krn + 512 + 512) with (krn + 1024) by lia. rewrite !(Hw (krn + 1024)) by lia.
    replace (krn + 1024 + 512) with (krn + 1536) by lia. rewrite !(Hw (krn + 1536)) by lia. fold stk.
    rewrite !(Hw (stk + 512)) by lia. replace (stk + 512 + 512) with (stk + 1024) by lia.
    rewrite !(Hw (stk + 1024)) by lia. fold itf. unfold sizeof_interface, SHELL_DEFAULT_BUFSIZE.
    change (128 / 2) with 64. change (11 * 4) with 44.
    rewrite !(Hw (itf + 40)) by lia. rewrite !(Hw (itf + 40 + 44)) by lia.
    rewrite !(Hw (itf + 40 + 44 + sizeof_context)) by lia.
    rewrite !(Hw (itf + 40 + 44 + sizeof_context + 128)) by lia. rewrite !(Hw (itf + 8192)) by lia.
    rewrite !(Hw (stk + 512 - 64)) by lia. rewrite !(Hw (stk + 512 - 64 - 4)) by lia. f_equal; lia. }
  constructor; cbn; lia || done.
Qed.

(** Without padding the parts take exactly the bytes the command clears. *)
Lemma packed unused p : laid_out unused p -> unused mod 8192 = 5632 -> child_end_addr p = unused + 10752.
Proof using.
  intros [] Hm. pose proof (Z.div_mod unused 8192). pose proof (Z.div_mod (riot_krn_addr p) 512).
  pose proof (Z.div_mod (child_stk_addr p) 1024). pose proof (Z.div_mod (child_itf_addr p) 8192). lia.
Qed.
End Layout.

(** ** Commands that only write RAM *)

(** The arguments as [argv] and the characters behind it. *)
Fixpoint arguments_at (m : memory) (argv args : Z) (ws : list (list Z)) : Prop :=
  match ws with
  | [] => True
  | w :: ws =>
      rd32 m argv = args /\ rd_bytes m args (S (length w)) = w ++ [0] /\
      arguments_at m (argv + 4) (args + Z.of_nat (length w) + 1) ws
  end.

(** Consecutive words. *)
Fixpoint words_at (m : memory) (a : Z) (ws : list Z) : Prop :=
  match ws with
  | [] => True
  | w :: ws => rd32 m a = w /\ words_at m (a + 4) ws
  end.

Lemma words_at_ext m m' a ws :
  same_on m m' a (a + 4 * Z.of_nat (length ws)) -> words_at m a ws -> words_at m' a ws.
Proof.
  revert a. induction ws as [|w ws IH]; intros a Hs; [done|]. cbn [length] in Hs. intros [H1 H2]. split.
  - rewrite <- H1. apply rd_le_ext. eapply same_on_weaken; [exact Hs|lia|lia].
  - apply IH; [|done]. eapply same_on_weaken; [exact Hs|lia|lia].
Qed.

Lemma words_at_lookup m a ws i w : words_at m a ws -> ws !! i = Some w -> rd32 m (a + 4 * Z.of_nat i) = w.
Proof.
  revert a i. induction ws as [|x ws IH]; intros a [|i] Hw Hi; cbn in Hi; try done; destruct Hw as [H1 H2].
  - injection Hi as <-. by rewrite Z.add_0_r.
  - rewrite <- (IH _ _ H2 Hi). f_equal. lia.
Qed.

(** The characters of the arguments, terminators included. *)
Definition chars (ws : list (list Z)) : Z := foldr (fun w n => Z.of_nat (length w) + 1 + n) 0 ws.

Lemma chars_cons w ws : chars (w :: ws) = Z.of_nat (length w) + 1 + chars ws.
Proof. done. Qed.

Lemma chars_nonneg ws : 0 <= chars ws.
Proof. induction ws as [|w ws]; [done|]. rewrite chars_cons. lia. Qed.

Lemma arguments_at_ext m m' argv args ws :
  same_on m m' argv (argv + 4 * Z.of_nat (length ws)) -> same_on m m' args (args + chars ws) ->
  arguments_at m argv args ws -> arguments_at m' argv args ws.
Proof.
  revert argv args. induction ws as [|w ws IH]; intros argv args H1 H2; [done|].
  rewrite chars_cons in H2. cbn [length] in H1. pose proof (chars_nonneg ws).
  cbn [arguments_at]. intros (A & B & C). split_and!.
  - rewrite <- A. apply rd_le_ext. eapply same_on_weaken; [exact H1|lia|lia].
  - rewrite <- B. apply rd_bytes_ext. eapply same_on_weaken; [exact H2|lia|lia].
  - apply IH; [eapply same_on_weaken; [exact H1|lia|lia]|eapply same_on_weaken; [exact H2|lia|lia]|done].
Qed.

Section Stores.
Context {K D : Type}.
Implicit Types (s : riot (K := K) (D := D)).

(** [c] succeeds and only changes the RAM, as [R] says. *)
Definition stores {A} (c : cmd riot fault A) (R : memory -> memory -> Prop) : Prop :=
  forall s, wpe False c (fun _ s' => exists m, s' = set_ram m s /\ R (r_ram s) m) s.

Lemma stores_mono {A} (c : cmd riot fault A) (R R' : memory -> memory -> Prop) :
  stores c R -> (forall m m', R m m' -> R' m m') -> stores c R'.
Proof using. intros H HR s. eapply wpe_mono; [apply H|]. intros a s' (m & -> & Hm). eauto. Qed.

Lemma stores_seq {A B} (c : cmd riot fault A) (d : cmd riot fault B) (R1 R2 R : memory -> memory -> Prop) :
  stores c R1 -> stores d R2 -> (forall m m1 m2, R1 m m1 -> R2 m1 m2 -> R m m2) -> stores (c;; d) R.
Proof using.
  intros Hc Hd HR s. apply wpe_bind. eapply wpe_mono; [apply Hc|]. intros a s1 (m1 & -> & H1).
  eapply wpe_mono; [apply Hd|]. intros b s2 (m2 & -> & H2). exists m2. split; [done|]. by eapply HR.
Qed.

Lemma stores_then {A B} (c : cmd riot fault A) (d : cmd riot fault B) (R1 R2 : memory -> memory -> Prop) :
  stores c R1 -> stores d R2 -> stores (c;; d) (fun m m2 => exists m1, R1 m m1 /\ R2 m1 m2).
Proof using. intros Hc Hd. eapply stores_seq; [done|done|]. eauto. Qed.

(** Memory outside [lo, hi) is left alone. *)
Definition outside (lo hi : Z) (m m' : memory) : Prop :=
  forall a, a < lo \/ hi <= a -> rd8 m' a = rd8 m a.

Lemma outside_refl lo hi m : outside lo hi m m.
Proof using. by intros a _. Qed.
Lemma outside_trans lo hi m1 m2 m3 : outside lo hi m1 m2 -> outside lo hi m2 m3 -> outside lo hi m1 m3.
Proof using. intros H1 H2 a Ha. by rewrite H2, H1. Qed.
Lemma outside_weaken lo hi lo' hi' m m' : outside lo hi m m' -> lo' <= lo -> hi <= hi' -> outside lo' hi' m m'.
Proof using. intros H ? ? a Ha. apply H. lia. Qed.
Lemma outside_same lo hi x y m m' : outside lo hi m m' -> y <= lo \/ hi <= x -> same_on m m' x y.
Proof using. intros H Hd a Ha. apply H. lia. Qed.
Lemma outside_rd32 lo hi a m m' : outside lo hi m m' -> a + 4 <= lo \/ hi <= a -> rd32 m' a = rd32 m a.
Proof using. intros H Ha. apply rd_le_ext. eapply outside_same; [done|]. lia. Qed.
Lemma outside_wr32 a v m : outside a (a + 4) m (wr32 m a v).
Proof using. intros b Hb. apply rd8_wr_le_out. lia. Qed.

Lemma stores_ret {A} (a : A) : stores (mret a) (fun m m' => m' = m).
Proof using. intros s. exists (r_ram s). split; [by destruct s|done]. Qed.

Lemma stores_store32 a v :
  FLASH_LIMIT <= a -> stores (store32 a v) (fun m m' => m' = wr32 m a v).
Proof using. intros Ha s. apply wp_store32; [done|]. by eexists. Qed.

Lemma stores_store8 a v :
  FLASH_LIMIT <= a -> stores (store8 a v) (fun m m' => m' = wr8 m a v).
Proof using.
  intros Ha s. unfold store8. apply wpe_bind, (wpe_bind False).
  unfold wpe at 1, check. rewrite (proj2 (Z.leb_le _ _)) by done. by eexists.
Qed.

(** A word inside a range. *)
Lemma stores_word lo hi a v :
  FLASH_LIMIT <= lo -> lo <= a -> a + 4 <= hi -> stores (store32 a v) (outside lo hi).
Proof using.
  intros. eapply stores_mono; [apply stores_store32; lia|]. intros m m' ->.
  eapply outside_weaken; [apply outside_wr32|lia|lia].
Qed.

Lemma stores_outside {A B} lo hi (c : cmd riot fault A) (d : cmd riot fault B) :
  stores c (outside lo hi) -> stores d (outside lo hi) -> stores (c;; d) (outside lo hi).
Proof using. intros Hc Hd. eapply stores_seq; [done|done|]. apply outside_trans. Qed.

(** Writes to [lo, hi) that leave the word at [w] alone. *)
Definition around (lo hi w : Z) (m m' : memory) : Prop := outside lo hi m m' /\ rd32 m' w = rd32 m w.

Lemma stores_around lo hi w a v :
  FLASH_LIMIT <= lo -> lo <= a -> a + 4 <= hi -> w + 4 <= a \/ a + 4 <= w ->
  stores (store32 a v) (around lo hi w).
Proof using.
  intros. eapply stores_mono; [apply stores_store32; lia|]. intros m m' ->. split; [|by apply rd32_wr32_apart; lia].
  eapply outside_weaken; [apply outside_wr32|lia|lia].
Qed.

Lemma stores_around_seq {A B} lo hi w (c : cmd riot fault A) (d : cmd riot fault B) :
  stores c (around lo hi w) -> stores d (around lo hi w) -> stores (c;; d) (around lo hi w).
Proof using.
  intros Hc Hd. eapply stores_seq; [done|done|]. intros m m1 m2 [H1 H2] [H3 H4].
  split; [by eapply outside_trans|by rewrite H4].
Qed.

(** [memset] inside the address space. *)
Lemma stores_memset a v n :
  FLASH_LIMIT <= a -> 0 <= n -> a + n < 2 ^ 32 ->
  stores (memset a v n) (fun m m' => outside a (a + n) m m' /\ forall b, a <= b < a + n -> rd8 m' b = u8 v).
Proof using.
  intros Ha Hn He. unfold memset. rewrite <- (Z2Nat.id n) in He |- * by lia.
  clear Hn. revert a Ha He. rewrite Nat2Z.id. induction (Z.to_nat n) as [|k IH]; intros a Ha He; cbn [fill].
  - eapply stores_mono; [apply stores_ret|]. intros m m' ->. split; [apply outside_refl|lia].
  - assert (0 <= FLASH_LIMIT) by done.
    rewrite wrap_small by (unfold is_word; lia).
    eapply stores_seq; [by apply stores_store8|apply IH; lia|]. intros m m1 m2 -> [Ho Hf]. split.
    + intros b Hb. rewrite Ho by lia. apply rd8_wr8_ne. lia.
    + intros b Hb. destruct (decide (b = a)) as [->|Hne].
      * rewrite Ho by lia. rewrite rd8_wr8_eq. by apply wrap_idemp.
      * apply Hf. lia.
Qed.

Lemma stores_words a ws :
  FLASH_LIMIT <= a -> Forall (is_word 32) ws ->
  stores (store_words a ws) (fun m m' =>
    outside a (a + 4 * Z.of_nat (length ws)) m m' /\ words_at m' a ws).
Proof using.
  revert a. induction ws as [|w ws IH]; intros a Ha Hw; cbn [store_words length] in *.
  - eapply stores_mono; [apply stores_ret|]. intros m m' ->. split; [apply outside_refl|done].
  - apply Forall_cons in Hw as [Hw Hws].
    eapply stores_seq; [by apply stores_store32|apply IH; [lia|done]|]. intros m m1 m2 -> [Ho Hr]. split.
    + eapply outside_trans; [|eapply outside_weaken; [exact Ho|lia|lia]].
      eapply outside_weaken; [apply outside_wr32|lia|lia].
    + split; [|exact Hr]. rewrite (outside_rd32 _ _ _ _ _ Ho) by lia. by apply rd32_wr32_same.
Qed.

Lemma stores_string args j w :
  FLASH_LIMIT <= args + j -> Forall (is_word 8) w ->
  stores (store_string args j w) (fun m m' =>
    outside (args + j) (args + j + Z.of_nat (length w) + 1) m m' /\
    rd_bytes m' (args + j) (S (length w)) = w ++ [0]).
Proof using.
  revert j. induction w as [|c w IH]; intros j Hj Hw; cbn [store_string length].
  - eapply stores_mono; [by apply stores_store8|]. intros m m' ->. split.
    + intros b Hb. apply rd8_wr8_ne. lia.
    + cbn. by rewrite rd8_wr8_eq.
  - apply Forall_cons in Hw as [Hc Hw].
    eapply stores_seq; [by apply stores_store8|apply IH; [lia|done]|].
    intros m m1 m2 -> [Ho Hr]. split.
    + intros b Hb. rewrite Ho by lia. apply rd8_wr8_ne. lia.
    + cbn [rd_bytes app]. rewrite Ho by lia. rewrite rd8_wr8_eq. f_equal; [by apply wrap_small|].
      replace (args + j + 1) with (args + (j + 1)) by lia. exact Hr.
Qed.

Lemma stores_args argv args i j ws :
  let a := argv + 4 * (i - 1) in let b := args + j in
  FLASH_LIMIT <= a -> a + 4 * Z.of_nat (length ws) <= b -> b + chars ws < 2 ^ 32 ->
  Forall (Forall (is_word 8)) ws ->
  stores (store_args argv args i j ws) (fun m m' =>
    (forall x, x < a \/ a + 4 * Z.of_nat (length ws) <= x -> x < b \/ b + chars ws <= x -> rd8 m' x = rd8 m x) /\
    arguments_at m' a b ws).
Proof using.
  revert i j. induction ws as [|w ws IH]; intros i j a b Ha Hab Hb Hw; cbn [store_args length].
  - eapply stores_mono; [apply stores_ret|]. by intros m m' ->.
  - apply Forall_cons in Hw as [Hw Hws]. rewrite chars_cons in *. cbn [length] in Hab.
    pose proof (chars_nonneg ws) as Hc. assert (0 <= FLASH_LIMIT) by done.
    eapply stores_seq; [by apply stores_store32|eapply stores_then|];
      [apply stores_string; [lia|done]|apply (IH (i + 1) (j + Z.of_nat (length w) + 1)); [lia..|done]|].
    subst a b. intros m m1 m2 -> (m3 & [Ho3 Hr3] & [Ho Ht]).
    replace (argv + 4 * (i + 1 - 1)) with (argv + 4 * (i - 1) + 4) in * by lia.
    replace (args + (j + Z.of_nat (length w) + 1)) with (args + j + Z.of_nat (length w) + 1) in * by lia.
    split; [|cbn [arguments_at]; split_and!].
    + intros x H1 H2. rewrite Ho, Ho3 by lia. apply rd8_wr_le_out. lia.
    + unfold rd32. rewrite (rd_le_ext m3) by (intros x Hx; apply Ho; lia).
      rewrite (rd_le_ext (wr32 m (argv + 4 * (i - 1)) (u32 (args + j)))) by (intros x Hx; apply Ho3; lia).
      rewrite (wrap_small 32) by (unfold is_word; lia). apply rd32_wr32_same. unfold is_word. lia.
    + rewrite <- Hr3. apply rd_bytes_ext. intros x Hx. apply Ho; lia.
    + done.
Qed.
End Stores.

(** ** The parts *)

Section Parts.
Context {K D : Type} `{HT : Target}.
Variables (unused : Z) (p : places).
Hypothesis Hroom : room unused.
Hypothesis Hp : laid_out unused p.

Ltac places := pose proof Hp as []; pose proof Hroom as []; unfold vidt_context in *;
  assert (0 <= FLASH_LIMIT) by done.
Ltac members := pose proof (m_members _ Hroom) as Hmem; rewrite !Forall_cons in Hmem;
  destruct Hmem as (? & ? & ? & ? & ? & ? & ? & ? & _).

Lemma interface_ok file size :
  stores (K := K) (D := D) (fill_interface p file size) (fun m m' =>
    outside (child_itf_addr p + 4) (child_itf_addr p + 40) m m' /\
    rd32 m' (child_itf_addr p + itf_stackTop) = child_argc_addr p).
Proof using Hp Hroom.
  places. unfold fill_interface, itf_stackLimit, itf_stackTop, itf_vidtStart, itf_vidtEnd, itf_root,
    itf_unusedRomStart, itf_romEnd, itf_unusedRamStart, itf_ramEnd.
  eapply stores_seq; [apply (stores_word (child_itf_addr p + 4) (child_itf_addr p + 40)); lia| |].
  eapply stores_then; [apply stores_store32; lia|].
  { do 6 (apply (stores_outside (child_itf_addr p + 12) (child_itf_addr p + 40)); [apply stores_word; lia|]).
    apply stores_word; lia. }
  intros m m1 m2 H1 (m3 & -> & H3). split.
  - eapply outside_trans; [exact H1|]. eapply outside_trans; [|eapply outside_weaken; [exact H3|lia|lia]].
    eapply outside_weaken; [apply outside_wr32|lia|lia].
  - erewrite outside_rd32 by (exact H3 || lia). apply rd32_wr32_same. unfold is_word. lia.
Qed.

Lemma context_ok file :
  stores (K := K) (D := D) (fill_child_context p file) (fun m m' =>
    outside (child_ctx p) (child_ctx p + sizeof_context) m m' /\
    rd32 m' (child_ctx p + ctx_r0) = child_itf_addr p).
Proof using Hp Hroom.
  places. members. pose proof (m_disjoint _ Hroom) as Hd. rewrite !Forall_cons in Hd.
  unfold fill_child_context. set (lo := child_ctx p). set (hi := lo + sizeof_context).
  assert (forall o v, 0 <= o <= sizeof_context - 4 -> stores (K := K) (D := D) (store32 (lo + o) v) (outside lo hi)) as Hst
    by (intros; apply stores_word; lia).
  eapply stores_seq; [eapply stores_mono; [apply stores_memset; lia|]; intros m m' [H' _]; exact H'| |].
  { eapply stores_then; [by apply Hst|]. eapply stores_then; [by apply Hst|].
    eapply stores_then; [apply stores_store32; lia|].
    do 3 (apply (stores_around_seq lo hi (lo + ctx_r0)); [apply stores_around; lia|]).
    apply stores_around; lia. }
  intros m m1 m2 G1 (m3 & G3 & m4 & G4 & m5 & -> & G5 & G6). split.
  - eapply outside_trans; [exact G1|]. eapply outside_trans; [exact G3|]. eapply outside_trans; [exact G4|].
    eapply outside_trans; [|exact G5]. eapply outside_weaken; [apply outside_wr32|lia|lia].
  - rewrite G6. apply rd32_wr32_same. unfold is_word. lia.
Qed.

Lemma riot_context_ok :
  stores (K := K) (D := D) fill_riot_context (outside riot_dsp_ctx (riot_dsp_ctx + sizeof_context)).
Proof using Hroom.
  pose proof Hroom as []. assert (0 <= FLASH_LIMIT) by done. members.
  unfold fill_riot_context. set (hi := riot_dsp_ctx + sizeof_context).
  apply stores_outside; [eapply stores_mono; [apply stores_memset; lia|]; intros m m' [H' _]; exact H'|].
  do 5 (apply stores_outside; [apply stores_word; lia|]). apply stores_word; lia.
Qed.

(** What the child and RIOT find in the RAM [m'] prepared from [m]. *)
Record prepared (args : list (list Z)) (m m' : memory) : Prop := mkPrepared {
  pr_r0 : rd32 m' (child_ctx p + ctx_r0) = child_itf_addr p;
  pr_top : rd32 m' (child_itf_addr p + itf_stackTop) = child_argc_addr p;
  pr_argc : rd32 m' (child_argc_addr p) = Z.of_nat (length args);
  pr_argv : arguments_at m' (child_argv_addr p) (child_args_addr p) args;
  pr_sys : words_at m' (child_sys_addr p) (1 :: replicate 10 RIOT_VIDT_SYSCALL);
  pr_vidt : rd32 m' (vidt_context (child_vidt_addr p) 0) = child_ctx p;
  pr_riot : forall a, a < child_stk_addr p \/ child_end_addr p <= a ->
    a < riot_dsp_ctx \/ riot_dsp_ctx + sizeof_context <= a ->
    a < riotVidt \/ vidt_context riotVidt 56 <= a -> rd8 m' a = rd8 m a
}.

(** The arguments fit the places for them. *)
Record fits (args : list (list Z)) : Prop := mkFits {
  ft_count : (length args <= 16)%nat;
  ft_chars : chars args <= SHELL_DEFAULT_BUFSIZE;
  ft_strings : Forall c_string args
}.

Lemma c_strings_words args : Forall c_string args -> Forall (Forall (is_word 8)) args.
Proof using. intros H. eapply Forall_impl; [exact H|]. intros w. apply c_string_words. Qed.

Lemma fill_child_ok file size args :
  fits args ->
  stores (K := K) (D := D) (fill_child p file size args) (fun m m' =>
    prepared args m m' /\ same_on m m' riotVidt (vidt_context riotVidt 56)).
Proof using Hp Hroom.
  intros [Hn Hch Hcs]. places. members. unfold SHELL_DEFAULT_BUFSIZE in *.
  unfold fill_child. eapply stores_seq; [apply stores_words; [lia|by repeat constructor]| |].
  { eapply stores_then; [apply stores_args; [lia|lia|lia|by apply c_strings_words]|].
    eapply stores_then; [apply stores_store32; lia|].
    eapply stores_then; [apply interface_ok|]. eapply stores_then; [apply context_ok|].
    eapply stores_then; [apply riot_context_ok|]. eapply stores_then; [apply stores_memset; lia|].
    apply stores_store32; unfold vidt_context; lia. }
  intros m0 m1 m8 [O1 W1] (m2 & [O2 A2] & m3 & E3 & m4 & [O4 T4] & m5 & [O5 R5] & m6 & O6 & m7 & [O7 _] & E8).
  replace (child_argv_addr p + 4 * (1 - 1)) with (child_argv_addr p) in * by lia.
  rewrite Z.add_0_r in A2, O2. cbn [length replicate] in O1. unfold vidt_context in *. rewrite Z.mul_0_r, Z.add_0_r in *.
  pose proof (outside_wr32 (child_argc_addr p) (Z.of_nat (length args)) m2) as O3. rewrite <- E3 in O3.
  pose proof (outside_wr32 (child_vidt_addr p + 4) (child_ctx p) m7) as O8. rewrite <- E8 in O8.
  unfold itf_stackTop in *. split; [constructor; unfold vidt_context, itf_stackTop; rewrite ?Z.mul_0_r, ?Z.add_0_r|].
  - by rewrite (outside_rd32 _ _ _ _ _ O8), (outside_rd32 _ _ _ _ _ O7), (outside_rd32 _ _ _ _ _ O6) by lia.
  - by rewrite (outside_rd32 _ _ _ _ _ O8), (outside_rd32 _ _ _ _ _ O7), (outside_rd32 _ _ _ _ _ O6),
      (outside_rd32 _ _ _ _ _ O5) by lia.
  - rewrite (outside_rd32 _ _ _ _ _ O8), (outside_rd32 _ _ _ _ _ O7), (outside_rd32 _ _ _ _ _ O6),
      (outside_rd32 _ _ _ _ _ O5), (outside_rd32 _ _ _ _ _ O4) by lia.
    rewrite E3. apply rd32_wr32_same. unfold is_word. lia.
  - eapply arguments_at_ext; [| |exact A2]; intros a Ha; by rewrite O8, O7, O6, O5, O4, O3 by lia.
  - eapply words_at_ext; [|exact W1]. cbn [length replicate] in O1 |- *. intros a Ha.
    by rewrite O8, O7, O6, O5, O4, O3, O2 by lia.
  - rewrite E8. apply rd32_wr32_same. unfold is_word. lia.
  - intros a Ha Hb Hc. by rewrite O8, O7, O6, O5, O4, O3, O2, O1 by lia.
  - intros a Ha. by rewrite O8, O7, O6, O5, O4, O3, O2, O1 by lia.
Qed.
End Parts.

(** ** Up to the yield *)

Section Launch.
Context `{HN : Nvmc} {K D : Type} `{HP : Pip K} `{HL : !PipLaws K} `{HT : Target}.
Implicit Types (s : riot (K := K) (D := D)).

(** Neither RIOT's handlers nor the first word of the interface matter to it. *)
Lemma prepared_ext unused p args m m1 m2 :
  room unused -> laid_out unused p -> fits args -> prepared p args m m1 ->
  (forall a, rd8 m2 a = rd8 m1 a \/ riotVidt <= a < vidt_context riotVidt 56 \/
             child_itf_addr p <= a < child_itf_addr p + 4) ->
  prepared p args m m2.
Proof using.
  intros [] [] [Hn Hch _] [] Hs. unfold vidt_context, itf_stackTop, SHELL_DEFAULT_BUFSIZE in *.
  rewrite !Forall_cons in m_members0.
  assert (forall lo hi, child_stk_addr p <= lo -> hi <= child_itf_addr p \/ child_itf_addr p + 4 <= lo ->
            same_on m1 m2 lo hi) as Hk.
  { intros lo hi H1 H2 a Ha. destruct (Hs a) as [Heq|[Hv|Hi]]; [done|lia|lia]. }
  constructor; unfold vidt_context, itf_stackTop.
  - rewrite <- pr_r1. apply rd_le_ext, Hk; lia.
  - rewrite <- pr_top0. apply rd_le_ext, Hk; lia.
  - rewrite <- pr_argc0. apply rd_le_ext, Hk; lia.
  - eapply arguments_at_ext; [| |done]; apply Hk; lia.
  - eapply words_at_ext; [|done]. cbn [length replicate]. apply Hk; lia.
  - rewrite <- pr_vidt0. apply rd_le_ext, Hk; lia.
  - intros a Ha Hb Hc. destruct (Hs a) as [->|[Hv|Hi]]; [by apply pr_riot0|unfold vidt_context in *; lia|lia].
Qed.

Lemma prepare_memory_ok F p file size args (Q : Z -> riot -> Prop) s :
  room (unusedRamStart s) -> laid_out (unusedRamStart s) p -> fits args ->
  (forall m, prepared p args (r_ram s) m ->
    Q (rd32 (r_ram s) (vidt_context riotVidt RIOT_VIDT_MEMFAULT)) (set_ram m s)) ->
  wpe F (prepare_memory p file size args) Q s.
Proof using.
  intros Hroom Hp Hf HQ. unfold prepare_memory. apply wpe_bind.
  destruct (wpe_Ok _ _ _ (fill_child_ok _ _ Hroom Hp file size args Hf s)) as ([] & s1 & E1 & m & -> & Hm & Hsame).
  eapply wpe_of_Ok; [exact E1|]. apply wpe_bind. unfold wpe at 1, gets.
  pose proof Hroom as []. unfold vidt_context, RIOT_VIDT_MEMFAULT, RIOT_VIDT_SYSCALL, RIOT_VIDT_DISCARD in *.
  assert (load32 (set_ram m s) (riotVidt + 4 + 4 * 4) = rd32 (r_ram s) (riotVidt + 4 + 4 * 4)) as ->.
  { unfold load32. rewrite (proj2 (Z.ltb_ge _ _)) by lia. apply rd_le_ext.
    eapply same_on_weaken; [exact Hsame|lia|lia]. }
  do 3 (apply wpe_bind, wp_store32; [lia|]). cbn [r_ram set_ram].
  apply HQ. eapply prepared_ext; [done|done|done|exact Hm|].
  intros a. destruct (decide (riotVidt <= a < vidt_context riotVidt 56)) as [Hin|Hout]; [auto|]. left.
  unfold vidt_context, wr32 in *. by rewrite !rd8_wr_le_out by lia.
Qed.

(** A call of the command that finds an executable file, with RIOT in its
    initial configuration and room for a child. *)
Record runnable s (l : list Z) (e : option Z) (name : list Z) (args : list (list Z)) (file s1 e1 s2 e2 : Z)
    : Prop := mkRunnable {
  rn_fs : mounted (r_fs s) l e;
  rn_file : finds (r_fs s) l e name file;
  rn_loaded : file_status (mem (r_fs s)) file = TINYFS_STATUS_LOADED;
  rn_exec : file_exec (mem (r_fs s)) file <> 0;
  rn_blocks : whole (view (r_pip s)) s1 e1 s2 e2;
  rn_room : room (unusedRamStart s);
  rn_ram : s1 < unusedRamStart s /\ unusedRamStart s + 2 ^ 15 <= e1;
  rn_flash : s2 < first_page (r_fs s) /\ last_page (r_fs s) < e2;
  rn_fits : fits (name :: args)
}.

Lemma places_ordered unused file size (s1 e1 s2 e2 : Z) fs l e name :
  mounted fs l e -> finds fs l e name file -> size = file_size (mem fs) file ->
  room unused -> s1 < unused -> unused + 2 ^ 15 <= e1 -> s2 < first_page fs -> last_page fs < e2 ->
  ordered (places_of unused file size) s1 e1 s2 e2.
Proof using.
  intros Hm Hf -> Hr ? ? ? ?. pose proof (finds_in _ _ _ _ _ Hf) as Hin. destruct Hm as (_ & G & Hl).
  destruct (layout_elem _ _ G _ _ _ _ _ Hl (geo_first _ _ G) Hin) as (Hge & Hal & Hz & Hend).
  destruct (span_ok _ _ Hz) as (_ & Hspan & Hsal). pose proof G as [_ _ ? _ Hlim].
  destruct (places_laid_out unused file (file_size (mem fs) file) Hr) as [].
  set (z := file_size (mem fs) file) in *. unfold size_ok in Hz.
  assert (last_page fs + 4096 <= FLASH_LIMIT) as Hlim' by exact Hlim.
  assert (FLASH_LIMIT <= 2 ^ 30) by done.
  assert (u32 (file + z) = file + z) as Hw by (apply wrap_small; unfold is_word; lia).
  destruct (round_up_spec 12 (file + z)) as [Hb Ha]; [lia..|]. change (2 ^ 12) with FLASHPAGE_SIZE in *.
  constructor; cbn [child_flash_addr child_flash_end_addr places_of] in *; try lia.
  all: rewrite ?Hw; try lia.
  assert (round_up (file + z) FLASHPAGE_SIZE <= file + span (mem fs) file); [|lia].
  unfold FLASHPAGE_SIZE in *. set (r := round_up (file + z) 4096) in *.
  pose proof (Z.div_mod r 4096). pose proof (Z.div_mod file 4096). pose proof (Z.div_mod (span (mem fs) file) 4096).
  lia.
Qed.

Definition with_irq (b : bool) (v : pview) : pview := mkView (blocks v) (grants v) b.

(** The state in which the child starts. *)
Definition launched (p : places) (q : part) (k : K) (m : memory) s : riot :=
  set_ids (p_b0 q) (p_b1 q) (p_b2 q) (p_pd q) (p_flash_end q)
    (set_ram m (set_pip k (set_ctx (child_ctx p) (set_status 0 s)))).

Lemma launched_eq p q k m k0 s :
  set_ids (p_b0 q) (p_b1 q) (p_b2 q) (p_pd q) (p_flash_end q)
    (set_ram m (set_pip k (set_ctx (child_ctx p) (set_status 0 (set_pip k0 s))))) = launched p q k m s.
Proof using. done. Qed.

Lemma build_ok F p file size args v (s1 e1 s2 e2 : Z) (Q : part * Z -> riot -> Prop) s :
  room (unusedRamStart s) -> laid_out (unusedRamStart s) p -> fits args ->
  view (r_pip s) = v -> whole v s1 e1 s2 e2 -> ordered p s1 e1 s2 e2 ->
  (forall q k m, new_ids v p q s1 e1 s2 e2 -> view k = partition_view v p q s1 e1 s2 e2 ->
    prepared p args (r_ram s) m ->
    Q (q, rd32 (r_ram s) (vidt_context riotVidt RIOT_VIDT_MEMFAULT))
      (set_ids (p_b0 q) (p_b1 q) (p_b2 q) (p_pd q) (p_flash_end q) (set_ram m (set_pip k s)))) ->
  wpe F (memfault_ctx ← prepare_memory p file size args; q ← cut_blocks p;
         grant_blocks p q ;; mret (q, memfault_ctx)) Q s.
Proof using HL.
  intros Hroom Hp Hf Hv W Ho HQ.
  apply wpe_bind, prepare_memory_ok; [done..|]. intros m Hm.
  apply wpe_bind, (cut_blocks_ok p s1 e1 s2 e2 _ v); [done|done|done| |].
  { destruct Hp, Hroom. unfold vidt_context in *. lia. }
  intros q k N V. apply wpe_bind, (grant_blocks_ok p s1 e1 s2 e2 _ v); [done..|]. intros k' V'.
  apply (HQ q k' (wr32 m (child_itf_addr p + itf_partDescBlockId) (p_pd q)) N V').
  eapply prepared_ext; [done..|exact Hm|]. intros a. unfold itf_partDescBlockId. rewrite Z.add_0_r.
  destruct (decide (child_itf_addr p <= a < child_itf_addr p + 4)) as [Hin|Hout]; [auto|]. left.
  apply rd8_wr_le_out. lia.
Qed.

Lemma launch_ok F s l e name args file (s1 e1 s2 e2 : Z) size p v (Q : part * Z -> riot -> Prop) :
  runnable s l e name args file s1 e1 s2 e2 -> size = file_size (mem (r_fs s)) file ->
  p = places_of (unusedRamStart s) file size -> v = with_irq false (view (r_pip s)) ->
  (forall q k m, new_ids v p q s1 e1 s2 e2 -> view k = partition_view v p q s1 e1 s2 e2 ->
    prepared p (name :: args) (r_ram s) m ->
    Q (q, rd32 (r_ram s) (vidt_context riotVidt RIOT_VIDT_MEMFAULT)) (launched p q k m s)) ->
  wpe F (launch_child file size (name :: args)) Q s.
Proof using HL.
  intros [] Ez Ep -> HQ. unfold launch_child. apply wpe_modify, wpe_modify, wpe_gets, wpe_modify.
  change (unusedRamStart (set_status 0 _)) with (unusedRamStart s). rewrite <- Ep.
  apply (build_ok F p file size _ (with_irq false (view (r_pip s))) s1 e1 s2 e2); [done| |done|apply int_law| | |].
  - rewrite Ep. by apply places_laid_out.
  - by destruct rn_blocks0.
  - rewrite Ep. eapply places_ordered; [exact rn_fs0|exact rn_file0|done|done|tauto..].
  - intros q k m N V Hm. rewrite launched_eq. exact (HQ q k m N V Hm).
Qed.
End Launch.
