(* ===== verification/SafeExecRun.v ===== *)
(** * Runs of a child

    The system calls change what their arguments name and nothing else; a run
    that does not overwrite the command's variables leaves Pip and the files alone, whatever the
    child does, and afterwards the command has taken everything back.  A child that
    stays in its blocks and only names its own memory in system calls overwrites neither these
    variables nor any other memory of RIOT, however long it runs. *)

From stdpp Require Import base gmap list.
From Stdlib Require Import ZArith Lia.
From S2P Require Import Prelude Flash XipFs XipFsSpec XipFsOps Shell XipFsShell XipFsCopy Pip SafeExec SafeExecSpec SafeExecMem.

Local Open Scope Z_scope.

(** The functions of the file system that [safe_exec] uses do not write RAM. *)
Section Search.
Context `{HN : Nvmc}.

Definition innocent {A} (c : fs A) : Prop := forall s e, c s = Err e -> e <> Overwritten.

Lemma innocent_bind {A B} (c : fs A) (k : A -> fs B) : innocent c -> (forall a, innocent (k a)) -> innocent (a ← c; k a).
Proof using.
  intros Hc Hk s e. unfold mbind, cmd_bind. destruct (c s) as [[a s']|x] eqn:E; [apply Hk|]. intros [= <-]. by eapply Hc.
Qed.
Lemma innocent_gets {A} (f : tinyfs -> A) : innocent (gets f).
Proof using. done. Qed.

Lemma search_innocent name : innocent (tinyfs_file_search name).
Proof using.
  assert (forall file, innocent (tinyfs_get_next_file file)) as Hn.
  { intros file. unfold tinyfs_get_next_file.
    repeat (apply innocent_bind; [apply innocent_gets|intros]; repeat case_match; try done). }
  assert (forall fuel file, innocent (search_loop fuel name file)) as Hl.
  { induction fuel as [|fuel IH]; intros file; cbn [search_loop]; [by intros s e [= <-]|].
    apply innocent_bind; [apply Hn|]. intros x. case_match; [done|].
    apply innocent_bind; [apply innocent_gets|]. intros []; [done|apply IH]. }
  unfold tinyfs_file_search. apply innocent_bind; [apply innocent_gets|]. intros init. case_match; [done|].
  apply innocent_bind; [|intros file; case_match; [done|]; apply innocent_bind; [apply innocent_gets|]; intros []; [done|apply Hl]].
  unfold tinyfs_get_first_file. repeat (apply innocent_bind; [apply innocent_gets|intros]; repeat case_match; try done).
Qed.
End Search.

Create HintDb touches.

Section Frames.
Context `{HN : Nvmc} {K D : Type} `{HP : Pip K} `{HL : !PipLaws K} `{HT : Target} `{HC : Libc}.
Variable saul_reg : list (saul_driver D).
Implicit Types (s : riot (K := K) (D := D)) (P : Z -> Prop).

(** What a run of the child leaves alone. *)
Record kept s s' : Prop := mkKept {
  kp_fs : r_fs s' = r_fs s;
  kp_view : view (r_pip s') = view (r_pip s);
  kp_unused : unusedRamStart s' = unusedRamStart s;
  kp_ctx : child_ctx_addr s' = child_ctx_addr s
}.

(** Kept, and memory outside [P] is as before. *)
Record touch P s s' : Prop := mkTouch {
  tc_kept : kept s s';
  tc_ram : forall a, ~ P a -> rd8 (r_ram s') a = rd8 (r_ram s) a
}.

Lemma kept_refl s : kept s s.
Proof using. done. Qed.
Lemma kept_trans s1 s2 s3 : kept s1 s2 -> kept s2 s3 -> kept s1 s3.
Proof using. intros [] []. constructor; congruence. Qed.
Lemma touch_refl P s : touch P s s.
Proof using. done. Qed.
Lemma touch_trans P s1 s2 s3 : touch P s1 s2 -> touch P s2 s3 -> touch P s1 s3.
Proof using. intros [A1 B1] [A2 B2]. split; [exact (kept_trans _ _ _ A1 A2)|]. intros a Ha. by rewrite B2, B1. Qed.

(** A reserved byte is among [P]. *)
Definition hits P : Prop := exists a r, r ∈ reserved /\ fst r <= a < snd r /\ P a.

(** The command [c] ends with [Q], or in an error; it overwrites a reserved byte only if
    one is among [P]. *)
Definition wpo P {A} (c : cmd (riot (K := K) (D := D)) fault A) (Q : A -> riot -> Prop) s : Prop :=
  match c s with Ok (a, s') => Q a s' | Err e => e = Overwritten -> hits P end.

Lemma wpo_bind P {A B} (c : cmd riot fault A) (k : A -> cmd riot fault B) Q s :
  wpo P c (fun a s' => wpo P (k a) Q s') s -> wpo P (a ← c; k a) Q s.
Proof using. unfold wpo, mbind, cmd_bind. by destruct (c s) as [[a s']|e]. Qed.
Lemma wpo_mono P {A} (c : cmd riot fault A) (Q Q' : A -> riot -> Prop) s :
  wpo P c Q s -> (forall a s', Q a s' -> Q' a s') -> wpo P c Q' s.
Proof using. unfold wpo. destruct (c s) as [[a s']|e]; auto. Qed.

(** [c] touches at most [P], if it ends. *)
Definition touches P {A} (c : cmd riot fault A) : Prop :=
  forall s, wpo P c (fun _ s' => touch P s s') s.

Lemma touches_bind P {A B} (c : cmd riot fault A) (k : A -> cmd riot fault B) :
  touches P c -> (forall a, touches P (k a)) -> touches P (a ← c; k a).
Proof using.
  intros Hc Hk s. apply wpo_bind. eapply wpo_mono; [apply Hc|]. intros a s1 H1.
  eapply wpo_mono; [apply Hk|]. intros b s2 H2. exact (touch_trans _ _ _ _ H1 H2).
Qed.

Lemma hits_weaken P P' : hits P -> (forall a, P a -> P' a) -> hits P'.
Proof using. intros (a & r & H1 & H2 & H3) H. exists a, r. auto. Qed.

Lemma touches_weaken P P' {A} (c : cmd riot fault A) :
  touches P c -> (forall a, P a -> P' a) -> touches P' c.
Proof using.
  intros Hc HP' s. specialize (Hc s). unfold wpo in *. destruct (c s) as [[a s']|e].
  - destruct Hc as [H1 H2]. split; [done|]. intros b Hb. apply H2. auto.
  - intros E. eapply hits_weaken; [by apply Hc|done].
Qed.

Lemma touches_ret P {A} (a : A) : touches P (mret a).
Proof using. intros s. apply touch_refl. Qed.
Lemma touches_gets P {A} (f : riot -> A) : touches P (gets f).
Proof using. intros s. apply touch_refl. Qed.
Lemma touches_if P {A} (b : bool) (c d : cmd riot fault A) :
  touches P c -> touches P d -> touches P (if b then c else d).
Proof using. by destruct b. Qed.
Lemma touches_check P e b : e <> Overwritten -> touches P (check e b).
Proof using. intros He s. unfold wpo, check. by destruct b. Qed.
Lemma touches_search P name : touches P (ask_fs (tinyfs_file_search name)).
Proof using.
  intros s. unfold wpo, ask_fs. destruct (tinyfs_file_search name (r_fs s)) as [[a f]|x] eqn:E; [done|].
  intros ->. by apply search_innocent in E.
Qed.
Lemma touches_spared P a n : (forall x, a <= x < a + n -> P x) -> touches P (check Overwritten (spared a n)).
Proof using.
  intros Ha s. unfold wpo, check. destruct (spared a n) eqn:E; [done|]. intros _.
  unfold spared in E. apply not_true_iff_false in E. rewrite forallb_forall in E.
  destruct (existsb (overlaps a n) reserved) eqn:E'.
  - apply existsb_exists in E' as (r & Hr & Ho). unfold overlaps in Ho. apply Z.ltb_lt in Ho.
    exists (Z.max a (fst r)), r. split; [by apply list_elem_of_In|]. split; [lia|]. apply Ha. lia.
  - destruct E. intros r Hr. destruct (overlaps a n r) eqn:Ho; [|done].
    apply not_true_iff_false in E'. destruct E'. apply existsb_exists. eauto.
Qed.
Lemma touches_libc P {A} (f : (Z -> option Z) -> option A) : touches P (libc f).
Proof using. intros s. unfold wpo, libc. by destruct (f (peek8 s)). Qed.
Lemma touches_name P a : touches P (name_at a).
Proof using. intros s. unfold wpo, name_at. by destruct (str_peek _ s a). Qed.
Lemma touches_fetch P a : touches P (fetch32 a).
Proof using.
  unfold fetch32. apply touches_bind; [apply touches_gets|]. intros b.
  apply touches_bind; [by apply touches_check|]. intros _. apply touches_gets.
Qed.
Lemma touches_print P l : touches P (print l).
Proof using. intros s. done. Qed.
Lemma touches_status P v : touches P (modify (set_status v)).
Proof using. intros s. done. Qed.
Lemma touches_read P dev : touches P (saul_reg_read dev).
Proof using. intros s. unfold wpo, saul_reg_read. by destruct (drv_read dev (r_dev s)) as [[? ?] ?]. Qed.
Lemma touches_write P dev v : touches P (saul_reg_write dev v).
Proof using. intros s. unfold wpo, saul_reg_write. by destruct (drv_write dev v (r_dev s)) as [? ?]. Qed.

Lemma touches_map P b n : 0 <= n < 8 -> touches P (map_or_assert b n).
Proof using HL.
  intros Hn s. unfold map_or_assert. apply wpo_bind. unfold wpo at 1, pip.
  destruct (map_law riotPartDesc b n (r_pip s) Hn) as [Hr Hv].
  unfold wpo, check. destruct (negb _); [|done]. by constructor.
Qed.

Lemma touches_unmap P : touches P unmap_child.
Proof using HL. unfold unmap_child. repeat (apply touches_bind; [apply touches_map; lia|intros _]). apply touches_map. lia. Qed.

Lemma touches_store32 P a v : (forall x, a <= x < a + 4 -> P x) -> touches P (store32 a v).
Proof using.
  intros Ha. unfold store32. apply touches_bind; [apply touches_gets|]. intros b.
  apply touches_bind; [by apply touches_check|]. intros _ s. split; [done|].
  intros x Hx. apply rd8_wr_le_out. destruct (decide (a <= x < a + 4)) as [Hin|]; [by destruct Hx; apply Ha|lia].
Qed.

Lemma touches_store8 P a v : P a -> touches P (store8 a v).
Proof using.
  intros Ha. unfold store8. apply touches_bind; [apply touches_gets|]. intros b.
  apply touches_bind; [by apply touches_check|]. intros _ s. split; [done|].
  intros x Hx. apply rd8_wr8_ne. by intros ->.
Qed.

Lemma touches_poke32 P a v : (forall x, a <= x < a + 4 -> P x) -> touches P (poke32 a v).
Proof using.
  intros Ha. unfold poke32. apply touches_bind; [apply touches_gets|]. intros b.
  do 2 (apply touches_bind; [by apply touches_check|]; intros _). apply touches_bind; [by apply touches_spared|].
  intros _. by apply touches_store32.
Qed.

Lemma touches_poke8 P a v : P a -> touches P (poke8 a v).
Proof using.
  intros Ha. unfold poke8. apply touches_bind; [apply touches_gets|]. intros b.
  do 2 (apply touches_bind; [by apply touches_check|]; intros _). apply touches_bind; [|intros _; by apply touches_store8].
  apply touches_spared. intros x Hx. by replace x with a by lia.
Qed.
End Frames.
#[export] Hint Resolve touches_bind touches_ret touches_gets touches_if touches_print touches_libc touches_name
  touches_fetch touches_search touches_status touches_read touches_write touches_unmap touches_poke32 : touches.
#[export] Hint Extern 4 (touches _ (check _ _)) => by apply touches_check : touches.
#[export] Hint Extern 4 (touches _ (map_or_assert _ _)) => apply touches_map; lia : touches.
#[export] Hint Extern 3 (touches _ (match ?x with Some _ => _ | None => _ end)) => destruct x : touches.

(** ** System calls *)

Section Calls.
Context `{HN : Nvmc} {K D : Type} `{HP : Pip K} `{HL : !PipLaws K} `{HT : Target} `{HC : Libc}.
Variable saul_reg : list (saul_driver D).
Implicit Types (s : riot (K := K) (D := D)) (P : Z -> Prop).

Lemma touches_pokes P ws :
  (forall a v, (a, v) ∈ ws -> forall x, a <= x < a + 4 -> P x) -> touches (K := K) (D := D) P (poke_words ws).
Proof using.
  induction ws as [|[a v] ws IH]; intros Hw; cbn [poke_words]; [apply touches_ret|].
  apply touches_bind; [apply touches_poke32, (Hw a v); left|]. intros _. apply IH. intros b w Hb. apply (Hw b w). by right.
Qed.

(** A store past the last address is one to the flash. *)
Lemma touches_poke_flash P {A} a v (k : unit -> cmd riot fault A) :
  a < FLASH_LIMIT -> touches (K := K) (D := D) P (x ← poke8 a v; k x).
Proof using.
  intros Ha s. unfold poke8, wpo, mbind, cmd_bind, gets, check.
  destruct (accessible s a); [|done]. by rewrite (proj2 (Z.leb_gt FLASH_LIMIT a)) by done.
Qed.

Lemma touches_fill P n a v :
  is_word 32 a -> (forall x, a <= x < a + Z.of_nat n -> P x) -> touches (K := K) (D := D) P (poke_fill n a v).
Proof using.
  revert a. induction n as [|n IH]; intros a Hw Ha; cbn [poke_fill]; [apply touches_ret|].
  apply touches_bind; [apply touches_poke8, Ha; lia|]. intros _. unfold is_word in Hw.
  destruct (decide (a + 1 = 2 ^ 32)) as [He|He].
  - rewrite He. change (u32 (2 ^ 32)) with 0. destruct n as [|n]; [apply touches_ret|]. by apply touches_poke_flash.
  - rewrite wrap_small by (unfold is_word; lia). apply IH; [unfold is_word; lia|]. intros x Hx. apply Ha. lia.
Qed.

Lemma touches_copy P n file buf i :
  0 <= buf -> 0 <= i -> buf + i <= 2 ^ 32 -> (forall x, buf <= x < buf + i + Z.of_nat n -> P x) ->
  touches (K := K) (D := D) P (copy_file_loop n file buf i).
Proof using.
  intros Hw. revert i. induction n as [|n IH]; intros i Hi Hb Ha; cbn [copy_file_loop]; [apply touches_ret|].
  apply touches_bind; [apply touches_gets|]. intros c. destruct (decide (buf + i = 2 ^ 32)) as [He|He].
  - rewrite He. change (u32 (2 ^ 32)) with 0. by apply touches_poke_flash.
  - rewrite wrap_small by (unfold is_word; lia). apply touches_bind; [apply touches_poke8, Ha; lia|].
    intros _. apply IH; [lia|lia|]. intros x Hx. apply Ha. lia.
Qed.

Lemma touches_get_temp P : touches (K := K) P (get_temp saul_reg).
Proof using. unfold get_temp. auto 10 with touches. Qed.
Lemma touches_get_led P pos : touches (K := K) P (get_led saul_reg pos).
Proof using. unfold get_led. auto 10 with touches. Qed.
Lemma touches_set_led P pos val : touches (K := K) P (set_led saul_reg pos val).
Proof using. unfold set_led. auto 10 with touches. Qed.

Lemma touches_copy_file P name buf nbyte :
  is_word 32 buf -> 0 <= nbyte -> (forall x, buf <= x < buf + nbyte -> P x) ->
  touches (K := K) (D := D) P (copy_file name buf nbyte).
Proof using.
  intros Hb Hn HPx. unfold is_word in Hb. unfold copy_file.
  apply touches_bind; [apply touches_name|]. intros str. apply touches_bind; [apply touches_search|]. intros file.
  apply touches_if; [apply touches_ret|]. apply touches_bind; [apply touches_gets|]. intros size.
  apply touches_bind; [|intros _; apply touches_ret]. apply touches_copy; [lia..|]. intros x Hx. apply HPx. lia.
Qed.

Lemma touches_get_file_size P name size : touches (K := K) (D := D) P (get_file_size name size).
Proof using. unfold get_file_size. auto 10 with touches. Qed.

(** The memory a system call names: the word of the result, and what its
    arguments point to. *)
Definition request s (a : Z) : Prop :=
  let argv := load32 s (child_ctx_addr s + ctx_sp) in
  let range x n := x <= a < x + n in
  range argv 4 \/
  (load32 s argv = RIOT_SYSCALL_VPRINTF /\
     exists k out words r b v, view k = view (r_pip s) /\
       libc_vprintf (peek8 (set_pip k s)) (load32 s (argv + 4)) (load32 s (argv + 8)) = Some (out, words, r) /\
       (b, v) ∈ words /\ range b 4) \/
  (load32 s argv = RIOT_SYSCALL_STRTOL /\ range (load32 s (argv + 8)) 4) \/
  (load32 s argv = RIOT_SYSCALL_COPY_FILE /\ range (load32 s (argv + 8)) (load32 s (argv + 12))) \/
  (load32 s argv = RIOT_SYSCALL_GET_FILE_SIZE /\ range (load32 s (argv + 8)) 4) \/
  (load32 s argv = RIOT_SYSCALL_MEMSET /\ range (load32 s (argv + 4)) (load32 s (argv + 12))).

Lemma load32_range s a : is_word 32 (load32 s a).
Proof using. unfold load32. destruct (_ <? _); apply rd32_range. Qed.

(** The same state but for that of Pip. *)
Definition apart_pip s s' : Prop := exists k, s' = set_pip k s /\ view k = view (r_pip s).

Lemma apart_refl s : apart_pip s s.
Proof using. exists (r_pip s). by destruct s. Qed.
Lemma apart_trans s1 s2 s3 : apart_pip s1 s2 -> apart_pip s2 s3 -> apart_pip s1 s3.
Proof using. intros (k1 & -> & V1) (k2 & -> & V2). exists k2. cbn in V2. split; [done|congruence]. Qed.
Lemma apart_touch P s s' : apart_pip s s' -> touch P s s'.
Proof using. intros (k & -> & V). split; [by constructor|done]. Qed.

Lemma wpo_map P b n (Q : unit -> riot -> Prop) s :
  0 <= n < 8 -> (forall s', apart_pip s s' -> Q tt s') -> wpo P (map_or_assert b n) Q s.
Proof using HL.
  intros Hn HQ. unfold map_or_assert. apply wpo_bind. unfold wpo at 1, pip.
  destruct (map_law riotPartDesc b n (r_pip s) Hn) as [Hr Hv].
  unfold wpo, check. destruct (negb _); [|done]. apply HQ. by eexists.
Qed.
Lemma wpo_fetch P a (Q : Z -> riot -> Prop) s : Q (load32 s a) s -> wpo P (fetch32 a) Q s.
Proof using. intros HQ. unfold fetch32, wpo, mbind, cmd_bind, gets, check. by destruct (accessible_word s a). Qed.
Lemma wpo_gets P {A} (f : riot -> A) (Q : A -> riot -> Prop) s : Q (f s) s -> wpo P (gets f) Q s.
Proof using. done. Qed.
Lemma wpo_touches P {A} (c : cmd riot fault A) s : touches P c -> wpo P c (fun _ s' => touch P s s') s.
Proof using. intros Hc. apply Hc. Qed.

Lemma touches_copy_service P name buf nbyte :
  is_word 32 buf -> 0 <= nbyte -> (forall x, buf <= x < buf + nbyte -> P x) ->
  touches (K := K) (D := D) P (fe ← gets child_flash_end_id; map_or_assert fe 3 ;; res ← copy_file name buf nbyte;
    b0 ← gets child_block_0_id; map_or_assert b0 3 ;; mret (Some (u32 res))).
Proof using HL.
  intros Hb Hn Hx. apply touches_bind; [apply touches_gets|]. intros fe. apply touches_bind; [apply touches_map; lia|]. intros _.
  apply touches_bind; [by apply touches_copy_file|]. auto 10 with touches.
Qed.

Lemma wpo_file_size P name size (Q : Z * Z -> riot -> Prop) s :
  (forall r, Q r s) -> wpo P (get_file_size name size) Q s.
Proof using.
  intros HQ. unfold get_file_size, wpo, mbind, cmd_bind, name_at, ask_fs. destruct (str_peek _ s name) as [str|]; [|done].
  destruct (tinyfs_file_search str (r_fs s)) as [[f fs]|e] eqn:E.
  - destruct (f =? NULL); apply HQ.
  - intros ->. by apply search_innocent in E.
Qed.

(** A state in which a system call is served: the words of the request are those of [s]. *)
Lemma service_touches s0 s :
  apart_pip s0 s -> let argv := load32 s0 (child_ctx_addr s0 + ctx_sp) in
  wpo (request s0) (service saul_reg argv (load32 s0 argv)) (fun _ s' => touch (request s0) s s') s.
Proof using HL.
  intros (k0 & Es & V0) argv. set (a0 := load32 s0 argv).
  assert (forall a, load32 s a = load32 s0 a) as Hl by (intros; by rewrite Es).
  unfold service.
  destruct (Z.eqb_spec a0 RIOT_SYSCALL_VPRINTF) as [E0|_].
  { apply wpo_bind, wpo_fetch, wpo_bind, wpo_fetch. rewrite !Hl. apply wpo_bind. unfold wpo at 1, libc.
    destruct (libc_vprintf (peek8 s) (load32 s0 (argv + 4)) (load32 s0 (argv + 8))) as [[[out words] r]|] eqn:Ev; [|done].
    cbn [fst snd]. apply wpo_touches. apply touches_bind; [apply touches_print|]. intros _.
    apply touches_bind; [|intros _; apply touches_ret]. apply touches_pokes. intros b v Hbv x Hx.
    right. left. split; [done|]. exists k0, out, words, r, b, v. rewrite <- Es. done. }
  destruct (Z.eqb_spec a0 RIOT_SYSCALL_GET_TEMP) as [E1|_].
  { apply wpo_touches. auto using touches_get_temp with touches. }
  destruct (Z.eqb_spec a0 RIOT_SYSCALL_ISPRINT) as [E2|_]; [apply wpo_touches; auto with touches|].
  destruct (Z.eqb_spec a0 RIOT_SYSCALL_STRTOL) as [E3|_].
  { do 3 apply wpo_bind, wpo_fetch. rewrite !Hl. apply wpo_touches, touches_bind; [apply touches_libc|]. intros r.
    apply touches_bind; [|auto with touches]. apply touches_if; [apply touches_ret|]. apply touches_poke32.
    intros x Hx. do 2 right. left. done. }
  destruct (Z.eqb_spec a0 RIOT_SYSCALL_GET_LED) as [E4|_].
  { apply wpo_touches, touches_bind; [apply touches_fetch|]. auto using touches_get_led with touches. }
  destruct (Z.eqb_spec a0 RIOT_SYSCALL_SET_LED) as [E5|_].
  { apply wpo_touches. do 2 (apply touches_bind; [apply touches_fetch|]; intros). auto using touches_set_led with touches. }
  destruct (Z.eqb_spec a0 RIOT_SYSCALL_COPY_FILE) as [E6|_].
  { do 3 apply wpo_bind, wpo_fetch. rewrite !Hl. apply wpo_touches, touches_copy_service;
      [apply load32_range|apply load32_range|]. intros x Hx. do 3 right. left. done. }
  destruct (Z.eqb_spec a0 RIOT_SYSCALL_GET_FILE_SIZE) as [E7|_].
  { apply wpo_bind, wpo_fetch. apply wpo_bind, wpo_gets, wpo_bind, wpo_map; [lia|]. intros s1 A1.
    apply wpo_bind, wpo_file_size. intros res. apply wpo_bind, wpo_gets, wpo_bind, wpo_map; [lia|]. intros s2 A2.
    apply wpo_bind, wpo_fetch. destruct (apart_trans _ _ _ A1 A2) as (k2 & E2 & V2).
    assert (load32 s2 (argv + 8) = load32 s0 (argv + 8)) as -> by (rewrite E2; apply Hl).
    eapply wpo_mono; [apply wpo_touches|].
    - apply touches_bind; [|intros _; apply touches_ret]. apply touches_poke32. intros x Hx. do 4 right. left. done.
    - intros o s3 T3. eapply touch_trans; [|exact T3]. apply apart_touch. by exists k2. }
  destruct (Z.eqb_spec a0 RIOT_SYSCALL_MEMSET) as [E8|_]; [|apply touch_refl].
  do 3 apply wpo_bind, wpo_fetch. rewrite !Hl. apply wpo_touches, touches_bind; [|auto with touches].
  apply touches_fill; [apply load32_range|]. intros x Hx. do 5 right. split; [done|].
  pose proof (load32_range s0 (argv + 12)) as Hw. unfold is_word in Hw.
  cbv zeta beta. fold argv. lia.
Qed.

(** A system call writes the memory its request names, and nothing else. *)
Lemma handler_touches s : wpo (request s) (syscall_handler saul_reg) (fun _ s' => touch (request s) s s') s.
Proof using HL.
  unfold syscall_handler.
  apply wpo_bind, wpo_gets, wpo_bind, wpo_map; [lia|]. intros s1 A1.
  apply wpo_bind, wpo_gets, wpo_bind, wpo_map; [lia|]. intros s2 A2.
  apply wpo_bind, wpo_gets, wpo_bind, wpo_map; [lia|]. intros s3 A3.
  pose proof (apart_trans _ _ _ (apart_trans _ _ _ A1 A2) A3) as A. clear s1 s2 A1 A2 A3.
  apply wpo_bind, wpo_gets, wpo_bind, wpo_fetch, wpo_bind, wpo_fetch.
  assert (child_ctx_addr s3 = child_ctx_addr s /\ forall a, load32 s3 a = load32 s a) as [-> Hl]
    by (destruct A as (k & -> & _); done).
  rewrite !Hl. set (argv := load32 s (child_ctx_addr s + ctx_sp)).
  eapply (wpo_mono _ _ (fun _ s' => touch (request s) s3 s')).
  2: { intros b s' T. eapply touch_trans; [by apply apart_touch|exact T]. }
  destruct (_ =? _); [apply wpo_touches; unfold _exit; auto with touches|].
  apply wpo_bind. eapply wpo_mono; [by apply service_touches|]. intros o s4 T4. cbn beta.
  eapply wpo_mono; [apply wpo_touches|intros b s5 T5; exact (touch_trans _ _ _ _ T4 T5)].
  assert (forall x, argv <= x < argv + 4 -> request s x) as Hargv by (intros; by left).
  destruct o as [v|]; auto with touches.
Qed.
End Calls.

(** ** A run *)

Section Runs.
Context `{HN : Nvmc} {K D : Type} `{HP : Pip K} `{HL : !PipLaws K} `{HT : Target} `{HC : Libc}.
Variable saul_reg : list (saul_driver D).
Context {C : Type} (child : C -> memory -> memory -> trap * C * memory).
Implicit Types (s : riot (K := K) (D := D)).

Section Confined.
Variable own : Z -> Prop.

(** The memory protection: the child changes nothing but its own memory. *)
Definition confined : Prop :=
  forall c m f t c' m', child c m f = (t, c', m') -> forall a, ~ own a -> rd8 m' a = rd8 m a.

(** Every system call it makes in a state like [s] names its own memory only. *)
Definition polite (ctx : Z) : Prop :=
  forall c m f sp c' m', child c m f = (Syscall sp, c', m') ->
  forall s, r_ram s = wr32 m' (ctx + ctx_sp) sp -> mem (r_fs s) = f -> child_ctx_addr s = ctx ->
  forall a, request s a -> own a.

Context `{Hdec : !forall a, Decision (own a)}.

Lemma changed_byte m m' : unchanged m m' = false ->
  exists a r, r ∈ reserved /\ fst r <= a < snd r /\ rd8 m' a <> rd8 m a.
Proof using.
  intros E. unfold unchanged in E.
  destruct (existsb (fun r => existsb (fun a => negb (rd8 m' a =? rd8 m a)) (seqZ (fst r) (snd r - fst r))) reserved) eqn:E'.
  - apply existsb_exists in E' as (r & Hr & Ho). apply existsb_exists in Ho as (a & Ha & Hne).
    apply list_elem_of_In, elem_of_seqZ in Ha. exists a, r. split; [by apply list_elem_of_In|]. split; [lia|].
    by apply negb_true_iff, Z.eqb_neq in Hne.
  - apply not_true_iff_false in E. destruct E. apply forallb_forall. intros r Hr. apply forallb_forall. intros a Ha.
    destruct (rd8 m' a =? rd8 m a) eqn:Ho; [done|].
    apply not_true_iff_false in E'. destruct E'. apply existsb_exists. exists r. split; [done|].
    apply existsb_exists. exists a. by rewrite Ho.
Qed.

Lemma wpo_weaken P P' {A} (c : cmd (riot (K := K) (D := D)) fault A) Q s :
  wpo P c Q s -> (forall a, P a -> P' a) -> wpo P' c Q s.
Proof using.
  unfold wpo. destruct (c s) as [[a s']|e]; [done|]. intros H HP' E. eapply hits_weaken; [by apply H|done].
Qed.

Lemma round_touches ctx c s :
  confined -> polite ctx -> child_ctx_addr s = ctx -> (forall a, ctx + ctx_sp <= a < ctx + ctx_sp + 4 -> own a) ->
  wpo own (round saul_reg C child c) (fun _ s' => touch own s s') s.
Proof using HL Hdec.
  intros Hconf Hpol Hctx Hown. unfold round. apply wpo_bind, wpo_gets, wpo_bind, wpo_gets.
  destruct (child c (r_ram s) (mem (r_fs s))) as [[t c'] m'] eqn:E.
  apply wpo_bind. unfold wpo at 1, check. destruct (unchanged (r_ram s) m') eqn:Eu.
  2: { intros _. destruct (changed_byte _ _ Eu) as (a & r & Hr & Ha & Hne). exists a, r. split; [done|]. split; [done|].
       destruct (decide (own a)) as [|Ho]; [done|]. by destruct Hne; eapply Hconf. }
  apply wpo_bind. unfold wpo at 1, modify.
  assert (touch own s (set_ram m' s)) as H1 by (split; [done|]; by eapply Hconf).
  destruct t as [sp|]; [|by destruct H1]. apply wpo_bind. unfold wpo at 1, modify. cbn [child_ctx_addr r_ram set_ram]. rewrite Hctx.
  set (s1 := set_ram (wr32 m' (ctx + ctx_sp) sp) (set_ram m' s)).
  assert (touch own s s1) as H2.
  { split; [done|]. intros a Ha. rewrite <- (tc_ram _ _ _ H1 a Ha). apply rd8_wr_le_out.
    destruct (decide (ctx + ctx_sp <= a < ctx + ctx_sp + 4)) as [Hin|]; [by destruct Ha; apply Hown|lia]. }
  assert (forall a, request s1 a -> own a) as Hreq by (eapply (Hpol _ _ _ _ _ _ E s1); done).
  apply wpo_bind. eapply wpo_mono; [eapply wpo_weaken; [apply (handler_touches saul_reg s1)|done]|].
  intros b s2 [Hk2 Hr2]. apply (touch_trans _ _ s1); [done|]. split; [done|]. intros a Ha. apply Hr2. auto.
Qed.

Lemma rounds_touch ctx n c s :
  confined -> polite ctx -> child_ctx_addr s = ctx -> (forall a, ctx + ctx_sp <= a < ctx + ctx_sp + 4 -> own a) ->
  wpo own (rounds saul_reg C child n c) (fun _ s' => touch own s s') s.
Proof using HL Hdec.
  intros Hconf Hpol Hctx Hown. revert c s Hctx. induction n as [|n IH]; intros c s Hctx; cbn [rounds]; [apply touch_refl|].
  apply wpo_bind. eapply wpo_mono; [by apply (round_touches ctx)|]. intros [c'|] s1 H1; [|done].
  eapply wpo_mono; [apply IH|].
  - by rewrite (kp_ctx _ _ (tc_kept _ _ _ H1)).
  - intros o s3 H4. exact (touch_trans _ _ _ _ H1 H4).
Qed.
End Confined.

(** Whatever the child does, the blocks and the files stay, unless a reserved byte is overwritten. *)
Lemma run_keeps fuel c s : wpe True (dispatch_loop saul_reg C child fuel c) (fun _ s' => kept s s') s.
Proof using HL.
  assert (forall a : Z, Decision ((fun _ : Z => True) a)) as Hd by (intros a; by left).
  pose proof (rounds_touch (fun _ => True) (child_ctx_addr s) fuel c s) as H. unfold wpo in H.
  unfold wpe, dispatch_loop, mbind, cmd_bind.
  destruct (rounds saul_reg C child fuel c s) as [[[c'|] s']|e]; [done| |done].
  apply H; [|done..]. intros c1 m f t c' m' _ a Ha. by destruct Ha.
Qed.

Lemma finish_ok F s v p q (s1 e1 s2 e2 : Z) mf :
  room (unusedRamStart s) -> is_word 32 mf ->
  view (r_pip s) = partition_view v p q s1 e1 s2 e2 -> whole v s1 e1 s2 e2 -> new_ids v p q s1 e1 s2 e2 ->
  wpe F (finish_child q mf) (fun r s' => r = riot_status s /\
    view (r_pip s') = with_irq true v /\ r_fs s' = r_fs s /\ unusedRamStart s' = unusedRamStart s /\
    rd32 (r_ram s') (vidt_context riotVidt RIOT_VIDT_MEMFAULT) = mf /\
    rd32 (r_ram s') (vidt_context riotVidt RIOT_VIDT_SYSCALL) = NULL /\
    rd32 (r_ram s') (vidt_context riotVidt RIOT_VIDT_DISCARD) = NULL /\
    (forall a, unusedRamStart s <= a < unusedRamStart s + 10752 -> rd8 (r_ram s') a = 0) /\
    (forall a, a < riotVidt \/ vidt_context riotVidt 56 <= a < unusedRamStart s \/ unusedRamStart s + 10752 <= a ->
      rd8 (r_ram s') a = rd8 (r_ram s) a)) s.
Proof using HL.
  intros Hroom Hmf Hv W N. unfold finish_child.
  apply wpe_bind, (revoke_blocks_ok p s1 e1 s2 e2 F v); [done..|]. intros k1 V1.
  apply wpe_bind, (merge_blocks_ok p s1 e1 s2 e2 F v); [done..|]. intros k2 V2.
  destruct Hroom. unfold vidt_context, RIOT_VIDT_MEMFAULT, RIOT_VIDT_SYSCALL, RIOT_VIDT_DISCARD in *.
  assert (0 <= FLASH_LIMIT) by done.
  do 3 (apply wpe_bind, wp_store32; [lia|]). apply wpe_modify, wpe_gets, wpe_bind.
  match goal with |- wpe F (memset ?a ?x ?n) _ ?st =>
    destruct (wpe_Ok _ _ _ (stores_memset a x n ltac:(cbn; lia) ltac:(lia) ltac:(cbn; lia) st)) as ([] & s' & E & m & -> & Ho & Hz) end.
  eapply wpe_of_Ok; [exact E|]. cbn [r_ram set_ram set_pip r_pip unusedRamStart r_fs] in *.
  unfold wpe, gets. cbn [riot_status r_ram set_ram set_pip r_pip unusedRamStart r_fs].
  split_and!; try done.
  - rewrite int_law. cbn [r_pip set_pip set_ram]. by rewrite V2.
  - rewrite (outside_rd32 _ _ _ _ _ Ho) by lia. rewrite !rd32_wr32_apart by lia. by apply rd32_wr32_same.
  - rewrite (outside_rd32 _ _ _ _ _ Ho) by lia. rewrite rd32_wr32_apart by lia. by apply rd32_wr32_same.
  - rewrite (outside_rd32 _ _ _ _ _ Ho) by lia. by apply rd32_wr32_same.
  - intros a Ha. rewrite Ho by lia. unfold wr32. by rewrite !rd8_wr_le_out by lia.
Qed.
End Runs.

(** ** The command *)

Section Command.
Context `{HN : Nvmc} {K D : Type} `{HP : Pip K} `{HL : !PipLaws K} `{HT : Target} `{HC : Libc}.
Variable saul_reg : list (saul_driver D).
Implicit Types (s : riot (K := K) (D := D)).

Lemma safe_exec_launches C child fuel (c0 : C) s l e cmd name args file (s1 e1 s2 e2 : Z) :
  runnable s l e name args file s1 e1 s2 e2 ->
  safe_exec saul_reg C child fuel c0 (cmd :: name :: args) s =
  (r ← launch_child file (file_size (mem (r_fs s)) file) (name :: args);
   dispatch_loop saul_reg C child fuel c0 ;; finish_child (fst r) (snd r)) s.
Proof using.
  intros [Hm Hf Hld Hex _ _ _ _ _]. unfold safe_exec. rewrite bool_decide_eq_false_2 by (cbn; lia).
  change (default [] ((cmd :: name :: args) !! 1%nat)) with name. change (tail (cmd :: name :: args)) with (name :: args).
  erewrite cmd_bind_Ok by (unfold ask_fs; erewrite finds_search by eassumption; reflexivity).
  rewrite (proj2 (Z.eqb_neq file NULL)) by (eapply mounted_nonnull; [done|by eapply finds_in]).
  rewrite (cmd_bind_Ok _ _ _ _ _ eq_refl). unfold file_at. cbn [f_status f_exec f_size].
  rewrite Hld, Z.eqb_refl. cbn [negb]. by rewrite (proj2 (Z.eqb_neq _ _) Hex).
Qed.

Lemma launch_Ok s l e name args file (s1 e1 s2 e2 : Z) size p v :
  runnable s l e name args file s1 e1 s2 e2 -> size = file_size (mem (r_fs s)) file ->
  p = places_of (unusedRamStart s) file size -> v = with_irq false (view (r_pip s)) ->
  exists q k m,
    launch_child file size (name :: args) s =
      Ok (q, rd32 (r_ram s) (vidt_context riotVidt RIOT_VIDT_MEMFAULT), launched p q k m s) /\
    new_ids v p q s1 e1 s2 e2 /\ view k = partition_view v p q s1 e1 s2 e2 /\
    prepared p (name :: args) (r_ram s) m.
Proof using HL.
  intros Hr Ez Ep Ev.
  pose (Q := fun r sy => exists q k m, r = (q, rd32 (r_ram s) (vidt_context riotVidt RIOT_VIDT_MEMFAULT)) /\
    sy = launched p q k m s /\ new_ids v p q s1 e1 s2 e2 /\ view k = partition_view v p q s1 e1 s2 e2 /\
    prepared p (name :: args) (r_ram s) m).
  destruct (wpe_Ok (launch_child file size (name :: args)) Q s) as (r & sy & El & q & k & m & -> & -> & H).
  - apply (launch_ok False s l e name args file s1 e1 s2 e2 size p v Q Hr Ez Ep Ev). intros q k m N V P. by exists q, k, m.
  - by exists q, k, m.
Qed.

(** What is left when the command returns. *)
Record restored s s' : Prop := mkRestored {
  rs_view : view (r_pip s') = with_irq true (view (r_pip s));
  rs_fs : r_fs s' = r_fs s;
  rs_unused : unusedRamStart s' = unusedRamStart s;
  rs_memfault : rd32 (r_ram s') (vidt_context riotVidt RIOT_VIDT_MEMFAULT) =
                rd32 (r_ram s) (vidt_context riotVidt RIOT_VIDT_MEMFAULT);
  rs_syscall : rd32 (r_ram s') (vidt_context riotVidt RIOT_VIDT_SYSCALL) = NULL;
  rs_discard : rd32 (r_ram s') (vidt_context riotVidt RIOT_VIDT_DISCARD) = NULL;
  rs_clean : forall a, unusedRamStart s <= a < unusedRamStart s + 10752 -> rd8 (r_ram s') a = 0
}.

(** The two ways a call ends, from the state in which the child starts. *)
Lemma safe_exec_ends C child fuel (c0 : C) s l e cmd name args file (s1 e1 s2 e2 : Z) size p v q k m :
  runnable s l e name args file s1 e1 s2 e2 -> size = file_size (mem (r_fs s)) file ->
  v = with_irq false (view (r_pip s)) ->
  launch_child file size (name :: args) s =
    Ok (q, rd32 (r_ram s) (vidt_context riotVidt RIOT_VIDT_MEMFAULT), launched p q k m s) ->
  new_ids v p q s1 e1 s2 e2 -> view k = partition_view v p q s1 e1 s2 e2 ->
  match dispatch_loop saul_reg C child fuel c0 (launched p q k m s) with
  | Err er => safe_exec saul_reg C child fuel c0 (cmd :: name :: args) s = Err er
  | Ok (_, s') => exists s'',
      safe_exec saul_reg C child fuel c0 (cmd :: name :: args) s = Ok (riot_status s', s'') /\ restored s s'' /\
      forall a, a < riotVidt \/ vidt_context riotVidt 56 <= a < unusedRamStart s \/ unusedRamStart s + 10752 <= a ->
        rd8 (r_ram s'') a = rd8 (r_ram s') a
  end.
Proof using HL.
  intros Hr Ez Ev El N V. erewrite safe_exec_launches by exact Hr. rewrite <- Ez. erewrite cmd_bind_Ok by exact El.
  pose proof (run_keeps saul_reg child fuel c0 (launched p q k m s)) as Hk. unfold wpe in Hk.
  unfold mbind, cmd_bind.
  destruct (dispatch_loop saul_reg C child fuel c0 (launched p q k m s)) as [[[] s']|er]; [|done].
  destruct Hk as [Kf Kv Ku _]. change (unusedRamStart (launched p q k m s)) with (unusedRamStart s) in Ku.
  pose proof Hr as [_ _ _ _ Hb Hroom _ _ _].
  assert (room (unusedRamStart s')) as Hroom' by by rewrite Ku.
  assert (view (r_pip s') = partition_view v p q s1 e1 s2 e2) as Hv by (rewrite Kv; exact V).
  assert (whole v s1 e1 s2 e2) as W by (rewrite Ev; by destruct Hb).
  pose proof (finish_ok False s' v p q s1 e1 s2 e2 _
    Hroom' (rd32_range (r_ram s) (vidt_context riotVidt RIOT_VIDT_MEMFAULT)) Hv W N) as Hfin.
  apply wpe_Ok in Hfin as (r & s'' & Ef & -> & H1 & H2 & H3 & H4 & H5 & H6 & H7 & H8). rewrite Ku in *.
  exists s''. split; [exact Ef|]. split; [|exact H8]. constructor; try done; [by rewrite H1, Ev|by rewrite H2, Kf].
Qed.


(** The memory a child may write: its first two blocks. *)
Definition own_memory (p : places) (a : Z) : Prop := child_stk_addr p <= a < child_end_addr p.

(** Where the parts are packed, nothing of the child is left in RAM. *)
Lemma restored_clears s s' p :
  restored s s' -> laid_out (unusedRamStart s) p -> unusedRamStart s mod 8192 = 5632 ->
  forall a, own_memory p a -> rd8 (r_ram s') a = 0.
Proof using.
  intros Hr Hp Hm a [Ha1 Ha2]. pose proof (packed _ _ Hp Hm). apply (rs_clean _ _ Hr). destruct Hp. lia.
Qed.

#[local] Instance own_decision p a : Decision (own_memory p a).
Proof using. unfold own_memory. apply _. Defined.

(** The variables of the command lie below the free RAM. *)
Definition objects_low s : Prop := Forall (fun r => snd r <= unusedRamStart s) command_objects.

Lemma own_spared s p :
  room (unusedRamStart s) -> laid_out (unusedRamStart s) p -> objects_low s -> ~ hits (own_memory p).
Proof using.
  intros Hroom Hp Ho (a & r & Hr & Ha & Hown). unfold own_memory in Hown.
  assert (snd r <= unusedRamStart s).
  { unfold reserved in Hr. apply elem_of_cons in Hr as [->|Hr]; [apply Hroom|].
    apply elem_of_cons in Hr as [->|Hr]; [apply Hroom|]. unfold objects_low in Ho. rewrite Forall_forall in Ho. by apply Ho. }
  destruct Hp. lia.
Qed.

Lemma rounds_isolated C child n (c0 : C) p q k m s :
  room (unusedRamStart s) -> laid_out (unusedRamStart s) p -> objects_low s ->
  confined child (own_memory p) -> polite (K := K) (D := D) child (own_memory p) (child_ctx p) ->
  match rounds saul_reg C child n c0 (launched p q k m s) with
  | Ok (_, s') => forall a, ~ own_memory p a -> rd8 (r_ram s') a = rd8 m a
  | Err e => e <> Overwritten
  end.
Proof using HL.
  intros Hroom Hp Ho Hc Hpol.
  assert (forall x, child_ctx p + ctx_sp <= x < child_ctx p + ctx_sp + 4 -> own_memory p x) as Hown.
  { intros x Hx. unfold own_memory. pose proof (m_members _ Hroom) as Hmem. rewrite !Forall_cons in Hmem.
    destruct Hp, Hroom. lia. }
  pose proof (rounds_touch saul_reg child (own_memory p) (child_ctx p) n c0 (launched p q k m s)
    Hc Hpol eq_refl Hown) as Ht.
  unfold wpo in Ht. destruct (rounds _ _ _ _ _ _) as [[o s']|e].
  - intros a Ha. by rewrite (tc_ram _ _ _ Ht).
  - intros ->. by eapply own_spared; [..|apply Ht].
Qed.

(** C7: Isolation: a child that is confined to the blocks it was given, as the memory protection
    makes it, and that names only its own memory in its system calls changes nothing of RIOT's.  After any
    number of its traps, whether or not it ever exits, and also when the command has returned, every byte of RAM
    outside the child's blocks is as it was, but for the context of the handler and the handler
    table, which the command itself writes before it starts the child; and no store ever hits the
    variables of the command or its stack, which lie below the free RAM.  The command was started for a loaded
    executable file with RIOT in its initial configuration and room for a child. *)
Theorem child_isolated C child (c0 : C) s l e cmd name args file (s1 e1 s2 e2 : Z) :
  runnable s l e name args file s1 e1 s2 e2 -> objects_low s ->
  let p := places_of (unusedRamStart s) file (file_size (mem (r_fs s)) file) in
  confined child (own_memory p) -> polite (K := K) (D := D) child (own_memory p) (child_ctx p) ->
  exists r s0, launch_child file (file_size (mem (r_fs s)) file) (name :: args) s = Ok (r, s0) /\
    (forall a, ~ own_memory p a -> a < riotVidt \/ vidt_context riotVidt 56 <= a ->
       a < riot_dsp_ctx \/ riot_dsp_ctx + sizeof_context <= a -> rd8 (r_ram s0) a = rd8 (r_ram s) a) /\
    (forall n, match rounds saul_reg C child n c0 s0 with
       | Ok (_, s') => forall a, ~ own_memory p a -> rd8 (r_ram s') a = rd8 (r_ram s0) a
       | Err er => er <> Overwritten
       end) /\
    (forall fuel r' s', safe_exec saul_reg C child fuel c0 (cmd :: name :: args) s = Ok (r', s') ->
       forall a, a < unusedRamStart s \/ child_end_addr p <= a ->
         a < riotVidt \/ vidt_context riotVidt 56 <= a ->
         a < riot_dsp_ctx \/ riot_dsp_ctx + sizeof_context <= a -> rd8 (r_ram s') a = rd8 (r_ram s) a).
Proof using HL.
  intros Hr Hobj p Hc Hpol.
  assert (p = places_of (unusedRamStart s) file (file_size (mem (r_fs s)) file)) as Ep by done. clearbody p.
  destruct (launch_Ok _ _ _ _ _ _ _ _ _ _ _ p _ Hr eq_refl Ep eq_refl) as (q & k & m & El & N & V & Hm).
  pose proof (rn_room _ _ _ _ _ _ _ _ _ _ Hr) as Hroom.
  pose proof (places_laid_out _ file (file_size (mem (r_fs s)) file) Hroom) as Hp. rewrite <- Ep in Hp.
  pose proof (fun n => rounds_isolated C child n c0 p q k m s Hroom Hp Hobj Hc Hpol) as Hrounds.
  assert (forall a, ~ own_memory p a -> a < riotVidt \/ vidt_context riotVidt 56 <= a ->
     a < riot_dsp_ctx \/ riot_dsp_ctx + sizeof_context <= a -> rd8 m a = rd8 (r_ram s) a) as Hm'.
  { intros a Ha Hv Hd. unfold own_memory in Ha. apply (pr_riot _ _ _ _ Hm); lia. }
  eexists _, _. split; [exact El|]. split_and!; [exact Hm'|exact Hrounds|].
  intros fuel r' s' He a Ha Hv Hd. specialize (Hrounds fuel).
  pose proof (safe_exec_ends C child fuel c0 s l e cmd name args file s1 e1 s2 e2 _ p _ q k m Hr eq_refl eq_refl El N V) as H.
  unfold dispatch_loop, mbind, cmd_bind in H.
  destruct (rounds saul_reg C child fuel c0 (launched p q k m s)) as [[[c'|] sz]|er] eqn:Er; cbn [fail] in H; [congruence| |congruence].
  destruct H as (s'' & E & _ & Hram). rewrite He in E. injection E as -> ->.
  rewrite Hram by (destruct Hp; lia). rewrite Hrounds by (unfold own_memory; destruct Hp; lia).
  apply Hm'; [unfold own_memory; destruct Hp; lia|done|done].
Qed.
End Command.

(** ** The arguments *)

Section Arguments.
Context `{HN : Nvmc} {K D : Type} `{HP : Pip K} `{HL : !PipLaws K} `{HT : Target}.
Implicit Types (s : riot (K := K) (D := D)).

(** The [n] strings an [argv] points to. *)
Fixpoint strings_at (n : nat) s (argv : Z) : list (list Z) :=
  match n with
  | O => []
  | S n => str_load (Z.to_nat SHELL_DEFAULT_BUFSIZE) s (load32 s argv) :: strings_at n s (argv + 4)
  end.

Lemma load8_ram s a : FLASH_LIMIT <= a -> load8 s a = rd8 (r_ram s) a.
Proof using. intros H. unfold load8. by rewrite (proj2 (Z.ltb_ge _ _)) by done. Qed.
Lemma load32_ram s a : FLASH_LIMIT <= a -> load32 s a = rd32 (r_ram s) a.
Proof using. intros H. unfold load32. by rewrite (proj2 (Z.ltb_ge _ _)) by done. Qed.

Lemma str_load_string n s a w :
  FLASH_LIMIT <= a -> a + Z.of_nat (length w) < 2 ^ 32 - 1 -> c_string w -> (length w < n)%nat ->
  rd_bytes (r_ram s) a (S (length w)) = w ++ [0] -> str_load n s a = w.
Proof using.
  revert n a. induction w as [|c w IH]; intros [|n] a Ha He Hw Hn Hb; cbn [length] in *; try lia; cbn [str_load].
  - rewrite load8_ram by done. cbn in Hb. injection Hb as ->. done.
  - rewrite load8_ram by done. apply Forall_cons in Hw as [[_ Hc] Hw]. cbn [rd_bytes app] in Hb. injection Hb as -> Hb.
    rewrite (proj2 (Z.eqb_neq c 0)) by done. assert (0 <= FLASH_LIMIT) by done.
    rewrite wrap_small by (unfold is_word; lia). f_equal. apply IH; [lia|lia|done|lia|exact Hb].
Qed.

Lemma strings_at_arguments s argv args ws :
  FLASH_LIMIT <= argv -> FLASH_LIMIT <= args -> args + chars ws < 2 ^ 32 - 1 -> chars ws <= SHELL_DEFAULT_BUFSIZE ->
  Forall c_string ws -> arguments_at (r_ram s) argv args ws -> strings_at (length ws) s argv = ws.
Proof using.
  revert argv args. induction ws as [|w ws IH]; intros argv args Ha Hb He Hc Hw; [done|].
  apply Forall_cons in Hw as [Hw Hws]. rewrite chars_cons in *. pose proof (chars_nonneg ws).
  intros (A & B & R). cbn [strings_at length]. rewrite load32_ram, A by done. f_equal.
  - apply str_load_string; [done|lia|done|lia|exact B].
  - apply (IH _ (args + Z.of_nat (length w) + 1)); try done; lia.
Qed.

(** C26: The program gets its arguments: up to 16 words of together at most 128
    characters given to the command after its name reach the program's [main]
    as [argc] and [argv], read by its start code from the interface in the
    first register of its context. *)
Theorem child_gets_arguments s l e name args file (s1 e1 s2 e2 : Z) :
  runnable s l e name args file s1 e1 s2 e2 ->
  exists r sy, launch_child file (file_size (mem (r_fs s)) file) (name :: args) s = Ok (r, sy) /\
    let interface := load32 sy (child_ctx_addr sy + ctx_r0) in
    let '(argc, argv) := start interface sy in
    argc = Z.of_nat (length (name :: args)) /\ strings_at (Z.to_nat argc) sy argv = name :: args.
Proof using HL.
  intros Hr. remember (places_of (unusedRamStart s) file (file_size (mem (r_fs s)) file)) as p eqn:Ep.
  destruct (launch_Ok _ _ _ _ _ _ _ _ _ _ _ p _ Hr eq_refl Ep eq_refl) as (q & k & m & El & _ & _ & Hm).
  exists (q, rd32 (r_ram s) (vidt_context riotVidt RIOT_VIDT_MEMFAULT)), (launched p q k m s). split; [exact El|]. cbn zeta.
  change (child_ctx_addr (launched p q k m s)) with (child_ctx p).
  pose proof (rn_room _ _ _ _ _ _ _ _ _ _ Hr) as Hroom. pose proof (rn_fits _ _ _ _ _ _ _ _ _ _ Hr) as [Hn Hch Hcs].
  pose proof (places_laid_out _ file (file_size (mem (r_fs s)) file) Hroom) as Hp. rewrite <- Ep in Hp.
  pose proof (m_members _ Hroom) as Hmem. rewrite !Forall_cons in Hmem.
  clear El Hr Ep. destruct Hp, Hm as [Mr Mt Mc Mv _ _ _], Hroom. unfold vidt_context, SHELL_DEFAULT_BUFSIZE in *.
  assert (0 <= FLASH_LIMIT) by done. unfold start.
  rewrite (load32_ram _ (child_ctx p + ctx_r0)) by lia. change (r_ram (launched p q k m s)) with m. rewrite Mr.
  rewrite (load32_ram _ (child_itf_addr p + itf_stackTop)) by (unfold itf_stackTop; lia).
  change (r_ram (launched p q k m s)) with m. rewrite Mt.
  rewrite (load32_ram _ (child_argc_addr p)) by lia. change (r_ram (launched p q k m s)) with m. rewrite Mc.
  rewrite signed_small by lia. split; [done|]. rewrite Nat2Z.id, wrap_small by (unfold is_word; lia).
  replace (child_argc_addr p + 4) with (child_argv_addr p) by lia.
  eapply (strings_at_arguments _ _ (child_args_addr p)); try done; lia.
Qed.
End Arguments.
