(* ===== verification/StdRiot.v ===== *)
(** * The system calls on the program's side

    Models [06-rbpf-bench/stdriot/stdriot.c]: the stubs through which a program
    reaches RIOT.  Run by [exec] they call the functions of the table they were
    given; in a partition they push a request on the stack, trap and pop the
    result; the handler finds in the request the number and the arguments of the call. *)

From stdpp Require Import base gmap list.
From Stdlib Require Import ZArith Lia.
From S2P Require Import Prelude Flash XipFs XipFsSpec XipFsOps Shell XipFsShell XipFsCopy Pip SafeExec SafeExecSpec SafeExecMem SafeExecRun.

Local Open Scope Z_scope.

Section Stubs.
Context `{HN : Nvmc} {K D : Type} `{HP : Pip K} `{HT : Target} `{HC : Libc}.
Variable saul_reg : list (saul_driver D).
Abbreviation rc A := (cmd (riot (K := K) (D := D)) fault A).

(** The functions [exec] puts into the table, by number; the result is the word
    in the first register. *)
Definition library (n a1 a2 a3 : Z) : rc Z :=
  if n =? RIOT_SYSCALL_VPRINTF then
    r ← libc (fun rd => libc_vprintf rd a1 a2);
    print (fst (fst r)) ;; poke_words (snd (fst r)) ;; mret (u32 (snd r))
  else if n =? RIOT_SYSCALL_GET_TEMP then r ← get_temp saul_reg; mret (u32 r)
  else if n =? RIOT_SYSCALL_ISPRINT then mret (u32 (libc_isprint (s32 a1)))
  else if n =? RIOT_SYSCALL_STRTOL then
    r ← libc (fun rd => libc_strtol rd a1 (s32 a3));
    (if a2 =? NULL then mret tt else poke32 a2 (snd r)) ;; mret (u32 (fst r))
  else if n =? RIOT_SYSCALL_GET_LED then r ← get_led saul_reg (s32 a1); mret (u32 r)
  else if n =? RIOT_SYSCALL_SET_LED then r ← set_led saul_reg (s32 a1) (s32 a2); mret (u32 r)
  else if n =? RIOT_SYSCALL_COPY_FILE then r ← copy_file a1 a2 a3; mret (u32 r)
  else if n =? RIOT_SYSCALL_GET_FILE_SIZE then
    r ← get_file_size a1 0;
    (if fst r =? 0 then poke32 a2 (snd r) else mret tt) ;; mret (u32 (fst r))
  else if n =? RIOT_SYSCALL_MEMSET then poke_fill (Z.to_nat a3) a1 a2 ;; mret a1
  else fail Undefined.

(** [svc #12]: Pip saves the context of the program and enters RIOT's handler of
    interrupt [irqn]. *)
Definition svc (sp irqn : Z) : rc bool :=
  check Undefined (irqn =? RIOT_VIDT_SYSCALL) ;;
  modify (fun s => set_ram (wr32 (r_ram s) (child_ctx_addr s + ctx_sp) sp) s) ;;
  syscall_handler saul_reg.

(** A stub with call number [n] and table [syscall_table], on a stack at [sp]. *)
Definition stub_call (syscall_table sp n : Z) (args : list Z) : rc Z :=
  pip ← gets (fun s => load32 s syscall_table);
  if pip =? 0 then library n (nth 0 args 0) (nth 1 args 0) (nth 2 args 0)
  else
    irqn ← gets (fun s => load32 s (syscall_table + 4 * (n + 1)));
    let sp := sp - 4 * (1 + Z.of_nat (length args)) in
    store_words sp (n :: args) ;;
    svc sp irqn ;;
    gets (fun s => load32 s sp).

Definition printf_stub (tbl sp format ap : Z) : rc Z := stub_call tbl sp 1 [format; ap].
Definition get_temp_stub (tbl sp : Z) : rc Z := stub_call tbl sp 2 [].
Definition isprint_stub (tbl sp character : Z) : rc Z := stub_call tbl sp 3 [character].
Definition strtol_stub (tbl sp str endptr base : Z) : rc Z := stub_call tbl sp 4 [str; endptr; base].
Definition get_led_stub (tbl sp pos : Z) : rc Z := stub_call tbl sp 5 [pos].
Definition set_led_stub (tbl sp pos val : Z) : rc Z := stub_call tbl sp 6 [pos; val].
Definition copy_file_stub (tbl sp name buf nbyte : Z) : rc Z := stub_call tbl sp 7 [name; buf; nbyte].
Definition get_file_size_stub (tbl sp name size : Z) : rc Z := stub_call tbl sp 8 [name; size].

(** The exit; [true], as it does not return. *)
Definition exit_stub (tbl sp status : Z) : rc bool :=
  pip ← gets (fun s => load32 s tbl);
  if pip =? 0 then mret true
  else
    irqn ← gets (fun s => load32 s (tbl + 4));
    store_words (sp - 8) [0; status] ;; svc (sp - 8) irqn.

(** The library's own function, no system call. *)
Definition memset_stub (dest val len : Z) : rc Z := memset dest val len ;; mret dest.

(** The number of arguments of a call. *)
Definition arity (n : Z) : nat :=
  nth (Z.to_nat n) [1; 2; 0; 1; 3; 1; 2; 3; 2]%nat 0%nat.
End Stubs.

(** ** Requests *)

Ltac call_numbers := unfold RIOT_SYSCALL_VPRINTF, RIOT_SYSCALL_GET_TEMP, RIOT_SYSCALL_ISPRINT, RIOT_SYSCALL_STRTOL,
  RIOT_SYSCALL_GET_LED, RIOT_SYSCALL_SET_LED, RIOT_SYSCALL_COPY_FILE, RIOT_SYSCALL_GET_FILE_SIZE,
  RIOT_SYSCALL_MEMSET, RIOT_SYSCALL_EXIT in *.

Section Requests.
Context `{HN : Nvmc} {K D : Type} `{HP : Pip K} `{HT : Target} `{HC : Libc}.
Variable saul_reg : list (saul_driver D).
Implicit Types (s : riot (K := K) (D := D)).

(** The memory after a push. *)
Fixpoint wr_words (m : memory) (a : Z) (ws : list Z) : memory :=
  match ws with [] => m | w :: ws => wr_words (wr32 m a w) (a + 4) ws end.

Lemma store32_Ok a w s : FLASH_LIMIT <= a -> store32 a w s = Ok (tt, set_ram (wr32 (r_ram s) a w) s).
Proof using. intros Ha. unfold store32, mbind, cmd_bind, gets, check. by rewrite (proj2 (Z.leb_le _ _)) by done. Qed.

Lemma store_words_ok a ws s :
  FLASH_LIMIT <= a -> store_words a ws s = Ok (tt, set_ram (wr_words (r_ram s) a ws) s).
Proof using.
  revert a s. induction ws as [|w ws IH]; intros a s Ha; cbn [store_words wr_words]; [by destruct s|].
  rewrite (cmd_bind_Ok _ _ _ _ _ (store32_Ok a w s Ha)), IH by lia. done.
Qed.

Lemma wr_words_out m a ws b :
  b < a \/ a + 4 * Z.of_nat (length ws) <= b -> rd8 (wr_words m a ws) b = rd8 m b.
Proof using.
  revert m a. induction ws as [|w ws IH]; intros m a Hb; [done|]. cbn [wr_words length] in *.
  rewrite IH by lia. apply rd8_wr_le_out. lia.
Qed.

Lemma wr_words_at m a ws : Forall (is_word 32) ws -> words_at (wr_words m a ws) a ws.
Proof using.
  revert m a. induction ws as [|w ws IH]; intros m a Hw; [done|]. apply Forall_cons in Hw as [Hw Hws].
  cbn [wr_words words_at]. split; [|by apply IH].
  unfold rd32. rewrite (rd_le_ext (wr32 m a w)); [by apply rd32_wr32_same|].
  intros b Hb. apply wr_words_out. lia.
Qed.

(** The state when the handler starts: the request is on the stack. *)
Definition requesting s (sp : Z) (ws : list Z) : riot :=
  set_ram (wr32 (wr_words (r_ram s) sp ws) (child_ctx_addr s + ctx_sp) sp) s.

(** A stub that traps: the handler runs with the number and the arguments of the call on the
    stack the context points to, and the stub returns the word the handler leaves there. *)
Theorem stub_call_traps tbl sp n args s :
  is_word 32 n -> Forall (is_word 32) args ->
  load32 s tbl <> 0 -> load32 s (tbl + 4 * (n + 1)) = RIOT_VIDT_SYSCALL ->
  let top := sp - 4 * (1 + Z.of_nat (length args)) in
  let s0 := requesting s top (n :: args) in
  FLASH_LIMIT <= top -> sp <= 2 ^ 32 -> FLASH_LIMIT <= child_ctx_addr s + ctx_sp ->
  child_ctx_addr s + ctx_sp + 4 <= top \/ sp <= child_ctx_addr s + ctx_sp ->
  load32 s0 (child_ctx_addr s0 + ctx_sp) = top /\
  (forall i w, (n :: args) !! i = Some w -> load32 s0 (top + 4 * Z.of_nat i) = w) /\
  stub_call saul_reg tbl sp n args s =
    match syscall_handler saul_reg s0 with
    | Ok (_, s1) => Ok (load32 s1 top, s1)
    | Err er => Err er
    end.
Proof using.
  intros Hn Hw Ht Hi top s0 Htop Hsp Hctx Hdis. assert (0 <= FLASH_LIMIT) by done. split_and!.
  - change (child_ctx_addr s0) with (child_ctx_addr s). rewrite load32_ram by done.
    apply rd32_wr32_same. unfold is_word. lia.
  - intros i w E. rewrite load32_ram by lia. eapply words_at_lookup; [|exact E].
    eapply words_at_ext; [|apply wr_words_at; constructor; [done|exact Hw]].
    cbn [length]. intros b Hb. apply rd8_wr_le_out. lia.
  - unfold stub_call. rewrite (cmd_bind_Ok _ _ _ _ _ eq_refl).
    rewrite (proj2 (Z.eqb_neq _ _) Ht), (cmd_bind_Ok _ _ _ _ _ eq_refl). fold top.
    rewrite (cmd_bind_Ok _ _ _ _ _ (store_words_ok top (n :: args) s Htop)).
    assert (svc saul_reg top (load32 s (tbl + 4 * (n + 1))) (set_ram (wr_words (r_ram s) top (n :: args)) s) =
            syscall_handler saul_reg s0) as Hsvc by (unfold svc; by rewrite Hi).
    unfold mbind, cmd_bind. rewrite Hsvc. by destruct (syscall_handler saul_reg s0) as [[b s1]|er].
Qed.
End Requests.
