(* ===== verification/Exec.v ===== *)
(** * Running a binary without a partition

    Models [RIOT/sys/shell/cmds/exec.c]: the command that builds a stack, an
    interface and a table of functions at the start of the free RAM, switches to
    that stack and jumps to a loaded file; the program comes back through the
    exit function of the table.  RIOT is not protected from the program: when it overwrites the
    variables of the command, the stack of its thread or the table of handlers, or leaves with
    another register of global data than it was entered with, the run ends in an error, as
    what the code does then is not described. *)

From stdpp Require Import base gmap list.
From Stdlib Require Import ZArith Lia String.
From S2P Require Import Prelude Flash XipFs Shell XipFsShell Pip SafeExec StdRiot.

Local Open Scope Z_scope.

Definition DEFAULT_STACK_SIZE : Z := 1024.

Section Exec.
Context `{HN : Nvmc} {K D : Type} `{HP : Pip K} `{HT : Target} `{HC : Libc}.
Variable saul_reg : list (saul_driver D).
Implicit Types (s : riot (K := K) (D := D)).
Abbreviation rc A := (cmd (riot (K := K) (D := D)) fault A).

(** The addresses of the functions of the table, the exit function first. *)
Variable function_addr : nat -> Z.
(** What an automatic variable holds that was never assigned. *)
Variable uninitialised : Z.

Definition set_unused (a : Z) s : riot :=
  mkRiot (r_fs s) (r_ram s) (r_out s) (r_dev s) (r_pip s) a (riot_status s)
    (child_ctx_addr s) (child_block_0_id s) (child_block_1_id s) (child_block_2_id s)
    (child_pd_id s) (child_flash_end_id s).

(** A program between two of its calls: it is entered with the result of the
    last one, and either calls again, from a stack at [sp], or exits, with [r10] in the register
    through which [_exit] finds the variable that has the stack pointer. *)
Inductive event := Calls (sp n : Z) (args : list Z) | Exits (r10 status : Z).
Variable C : Type.
Variable program : C -> Z -> memory -> memory -> event * C * memory.

(** [start] until [_exit] has switched the stacks back. *)
Fixpoint start_loop (fuel : nat) (syscalls : Z) (c : C) (r : Z) : rc unit :=
  match fuel with
  | O => fail Diverge
  | S fuel =>
      m ← gets r_ram;
      f ← gets (fun s => mem (r_fs s));
      let '(ev, c, ram) := program c r m f in
      check Overwritten (unchanged m ram) ;;
      modify (set_ram ram) ;;
      match ev with
      | Exits r10 _ => check Undefined (r10 =? riotGotAddr)
      | Calls sp n args => r ← stub_call saul_reg syscalls sp n args; start_loop fuel syscalls c r
      end
  end.

(** The addresses below the free RAM of the program. *)
Record spots := mkSpots {
  stkbot : Z; freeram : Z; itf : Z; syscalls : Z; x_argv : Z; x_argc : Z; stktop : Z
}.
Definition spots_of (unused argc : Z) : spots :=
  let freeram := u32 (unused + DEFAULT_STACK_SIZE) in
  let itf := u32 (freeram - sizeof_interface) in
  let syscalls := u32 (itf - 11 * 4) in
  let argv := u32 (syscalls - 4 * argc - 4) in
  let argc := u32 (argv - 4) in
  mkSpots unused freeram itf syscalls argv argc argc.

Definition neededram : Z := round_up (DEFAULT_STACK_SIZE + 2 * 4096) FLASHPAGE_SIZE.

Definition fill_itf (p : spots) (unused file size : Z) : rc unit :=
  store32 (itf p + itf_partDescBlockId) riotPartDesc ;;
  store32 (itf p + itf_stackLimit) (stkbot p) ;;
  store32 (itf p + itf_stackTop) (stktop p) ;;
  store32 (itf p + itf_vidtStart) 0 ;;
  store32 (itf p + itf_vidtEnd) 0 ;;
  store32 (itf p + itf_root) (u32 (file + sizeof_file)) ;;
  store32 (itf p + itf_unusedRomStart) (u32 (file + size)) ;;
  store32 (itf p + itf_romEnd) (round_up (u32 (file + size)) FLASHPAGE_SIZE) ;;
  store32 (itf p + itf_unusedRamStart) (freeram p) ;;
  store32 (itf p + itf_ramEnd) (u32 (unused + neededram)).

(** Up to the jump: the arguments, by the addresses of their characters, the
    table and the interface. *)
Definition prepare_program (p : spots) (unused file size : Z) (argv : list Z) : rc unit :=
  store_words (x_argv p) (tail argv) ;;
  store32 (x_argc p) (Z.of_nat (List.length argv) - 1) ;;
  store_words (syscalls p) (0 :: map function_addr (seq 1 10)) ;;
  fill_itf p unused file size.

(** The words of the command line, with the addresses they are at. *)
Definition exec (fuel : nat) (c0 : C) (argv : list (Z * list Z)) : rc Z :=
  if bool_decide (List.length argv < 2)%nat then say (map snd argv) (str " name")
  else
    let name := default [] (map snd argv !! 1%nat) in
    file ← ask_fs (tinyfs_file_search name);
    if file =? NULL then say (map snd argv) (str ": " ++ name ++ str ": no such file")
    else
      f ← gets (fun s => file_at (mem (r_fs s)) file);
      if negb (f_status f =? TINYFS_STATUS_LOADED)
      then say (map snd argv) (str ": " ++ name ++ str ": the file is not loaded")
      else if f_exec f =? 0 then say (map snd argv) (str ": " ++ name ++ str ": permission denied")
      else
        unused ← gets unusedRamStart;
        let p := spots_of unused (Z.of_nat (List.length argv)) in
        prepare_program p unused file (f_size f) (map fst argv) ;;
        modify (set_unused (u32 (unused + neededram))) ;;
        start_loop fuel (syscalls p) c0 0 ;;
        modify (fun s => set_unused (u32 (unusedRamStart s - neededram)) s) ;;
        unused ← gets unusedRamStart;
        memset unused 0 neededram ;;
        mret uninitialised.
End Exec.
