(* ===== verification/ExecSpec.v ===== *)
(** * What running without a partition promises

    The program finds its arguments, its interface and its table; when it has
    exited the command has given the RAM back and cleared it. *)

From stdpp Require Import base gmap list.
From Stdlib Require Import ZArith Lia.
From S2P Require Import Prelude Flash XipFs XipFsSpec XipFsOps Shell XipFsShell XipFsCopy Pip SafeExec SafeExecSpec SafeExecMem SafeExecRun StdRiot Exec.

Local Open Scope Z_scope.

Section ExecSpec.
Context `{HN : Nvmc} {K D : Type} `{HP : Pip K} `{HL : !PipLaws K} `{HT : Target} `{HC : Libc}.
Variable saul_reg : list (saul_driver D).
Variable function_addr : nat -> Z.
Implicit Types (s : riot (K := K) (D := D)).

(** A word of the command line in RAM, below the free RAM. *)
Definition word_in_ram s (x : Z * list Z) : Prop :=
  FLASH_LIMIT <= fst x /\ fst x + Z.of_nat (length (snd x)) + 1 <= unusedRamStart s /\
  c_string (snd x) /\ (length (snd x) < 128)%nat /\
  rd_bytes (r_ram s) (fst x) (S (length (snd x))) = snd x ++ [0].

(** A call of the command that finds an executable file, with room for it. *)
Record executable s (l : list Z) (e : option Z) (name : Z * list Z) (args : list (Z * list Z)) (file : Z)
    : Prop := mkExecutable {
  ex_fs : mounted (r_fs s) l e;
  ex_file : finds (r_fs s) l e (snd name) file;
  ex_loaded : file_status (mem (r_fs s)) file = TINYFS_STATUS_LOADED;
  ex_exec : file_exec (mem (r_fs s)) file <> 0;
  ex_low : FLASH_LIMIT <= unusedRamStart s;
  ex_high : unusedRamStart s + neededram < 2 ^ 32;
  ex_count : (length args <= 200)%nat;
  ex_words : Forall (word_in_ram s) (name :: args);
  ex_table : Forall (is_word 32) (map function_addr (seq 1 10))
}.

(** The places for [argc] words, one after the other. *)
Lemma spots_ok unused n :
  FLASH_LIMIT <= unused -> unused + neededram < 2 ^ 32 -> 0 <= n <= 202 ->
  spots_of unused n = mkSpots unused (unused + 1024) (unused + 984) (unused + 940)
    (unused + 936 - 4 * n) (unused + 932 - 4 * n) (unused + 932 - 4 * n).
Proof using.
  intros Hl Hh Hn. change neededram with 12288 in Hh. assert (0 <= FLASH_LIMIT) by done.
  unfold spots_of, DEFAULT_STACK_SIZE, sizeof_interface.
  assert (forall x, 0 <= x < 2 ^ 32 -> u32 x = x) as Hw by (intros; by apply wrap_small).
  rewrite !(Hw (unused + 1024)) by lia. rewrite !(Hw (unused + 1024 - 40)) by lia.
  rewrite !(Hw (unused + 1024 - 40 - 11 * 4)) by lia.
  rewrite !(Hw (unused + 1024 - 40 - 11 * 4 - 4 * n - 4)) by lia.
  rewrite !(Hw (unused + 1024 - 40 - 11 * 4 - 4 * n - 4 - 4)) by lia. f_equal; lia.
Qed.

Lemma itf_ok p unused file size :
  FLASH_LIMIT <= itf p -> is_word 32 (stktop p) ->
  stores (K := K) (D := D) (fill_itf p unused file size) (fun m m' =>
    outside (itf p) (itf p + 40) m m' /\ rd32 m' (itf p + itf_stackTop) = stktop p).
Proof using.
  intros Hi Hs. unfold fill_itf, itf_partDescBlockId, itf_stackLimit, itf_stackTop, itf_vidtStart, itf_vidtEnd,
    itf_root, itf_unusedRomStart, itf_romEnd, itf_unusedRamStart, itf_ramEnd.
  eapply stores_seq; [apply (stores_word (itf p) (itf p + 40)); lia| |].
  { eapply stores_then; [apply (stores_word (itf p) (itf p + 40)); lia|].
    eapply stores_then; [apply stores_store32; lia|].
    do 6 (apply (stores_outside (itf p + 12) (itf p + 40)); [apply stores_word; lia|]). apply stores_word; lia. }
  intros m m1 m2 H1 (m3 & H3 & m4 & -> & H4). split.
  - eapply outside_trans; [exact H1|]. eapply outside_trans; [exact H3|].
    eapply outside_trans; [|eapply outside_weaken; [exact H4|lia|lia]]. eapply outside_weaken; [apply outside_wr32|lia|lia].
  - rewrite (outside_rd32 _ _ _ _ _ H4) by lia. by apply rd32_wr32_same.
Qed.

(** What the program finds in the RAM [m'] prepared from [m]. *)
Record provided (p : spots) (unused : Z) (ptrs : list Z) (m m' : memory) : Prop := mkProvided {
  pv_out : outside unused (unused + 1024) m m';
  pv_top : rd32 m' (itf p + itf_stackTop) = stktop p;
  pv_argc : rd32 m' (stktop p) = Z.of_nat (length ptrs);
  pv_argv : words_at m' (stktop p + 4) ptrs;
  pv_table : words_at m' (syscalls p) (0 :: map function_addr (seq 1 10))
}.

Lemma prepare_ok unused file size cmd ptrs :
  FLASH_LIMIT <= unused -> unused + neededram < 2 ^ 32 -> (length ptrs <= 201)%nat ->
  Forall (is_word 32) ptrs -> Forall (is_word 32) (map function_addr (seq 1 10)) ->
  let p := spots_of unused (Z.of_nat (length (cmd :: ptrs))) in
  stores (K := K) (D := D) (prepare_program function_addr p unused file size (cmd :: ptrs))
    (provided p unused ptrs).
Proof using.
  intros Hl Hh Hn Hw Hf p. change neededram with 12288 in Hh. assert (0 <= FLASH_LIMIT) by done.
  assert (p = _) as Ep by (apply spots_ok; [done|done|cbn [length]; lia]). clearbody p. subst p.
  cbn [length]. set (n := length ptrs) in *. set (p := mkSpots _ _ _ _ _ _ _).
  unfold prepare_program. cbn [tail]. eapply stores_seq; [apply stores_words; [subst p; cbn; lia|done]| |].
  { eapply stores_then; [apply stores_store32; subst p; cbn; lia|].
    eapply stores_then; [apply stores_words; [subst p; cbn; lia|constructor; done]|].
    apply itf_ok; subst p; cbn; unfold is_word; lia. }
  intros m m1 m4 [O1 W1] (m2 & -> & m3 & [O3 W3] & [O4 T4]).
  pose proof (outside_wr32 (x_argc p) (Z.of_nat (length (cmd :: ptrs)) - 1) m1) as O2.
  cbn [length] in O3. rewrite length_map, length_seq in O3. fold n in O1.
  assert (stktop p = unused + 932 - 4 * Z.of_nat (S n)) as Etop by done.
  assert (x_argc p = stktop p) as Eargc by done. rewrite Eargc in *.
  assert (x_argv p = stktop p + 4) as Eargv by (subst p; cbn; lia). rewrite Eargv in *.
  assert (itf p = unused + 984) as Eitf by done. assert (syscalls p = unused + 940) as Esys by done.
  clearbody p. constructor.
  - intros a Ha. by rewrite O4, O3, O2, O1 by lia.
  - done.
  - rewrite (outside_rd32 _ _ _ _ _ O4), (outside_rd32 _ _ _ _ _ O3) by lia.
    rewrite rd32_wr32_same by (unfold is_word; cbn [length]; lia). cbn [length]. fold n. lia.
  - eapply words_at_ext; [|exact W1]. fold n. intros a Ha. by rewrite O4, O3, O2 by lia.
  - eapply words_at_ext; [|exact W3]. cbn [length]. rewrite length_map, length_seq. intros a Ha. by rewrite O4 by lia.
Qed.

(** Any write is allowed. *)
Abbreviation anywhere := (fun _ : Z => True).
Abbreviation leaves c := (touches (K := K) (D := D) anywhere c).

Lemma leaves_fill n a v : leaves (poke_fill n a v).
Proof using. revert a. induction n; intros a; cbn [poke_fill]; auto using touches_poke8 with touches. Qed.
Lemma leaves_copy n file buf i : leaves (copy_file_loop n file buf i).
Proof using. revert i. induction n; intros i; cbn [copy_file_loop]; auto using touches_poke8 with touches. Qed.
Lemma leaves_words a ws : leaves (store_words a ws).
Proof using. revert a. induction ws; intros a'; cbn [store_words]; auto using touches_store32 with touches. Qed.
Lemma leaves_pokes ws : leaves (poke_words ws).
Proof using. by apply touches_pokes. Qed.

Lemma leaves_library n a1 a2 a3 : leaves (library saul_reg n a1 a2 a3).
Proof using.
  unfold library, copy_file.
  repeat (match goal with |- context [n =? ?x] => destruct (n =? x) end);
    auto 12 using touches_get_temp, touches_get_led, touches_set_led, touches_get_file_size, leaves_copy, leaves_fill,
      leaves_pokes with touches.
  by intros s.
Qed.

Lemma leaves_call tbl sp n args : leaves (stub_call saul_reg tbl sp n args).
Proof using HL.
  unfold stub_call. apply touches_bind; [apply touches_gets|]. intros pip. apply touches_if; [apply leaves_library|].
  apply touches_bind; [apply touches_gets|]. intros irqn. apply touches_bind; [apply leaves_words|]. intros _.
  apply touches_bind; [|intros _; apply touches_gets]. unfold svc. apply touches_bind; [by apply touches_check|]. intros _.
  apply touches_bind.
  - intros s. split; [done|]. intros a Ha. by destruct Ha.
  - intros _ s. eapply wpo_weaken; [|done]. eapply wpo_mono; [apply handler_touches|]. intros b s' [Hk _]. split; [done|].
    intros a Ha. by destruct Ha.
Qed.

Lemma leaves_run C program fuel tbl (c : C) r s :
  wpe True (start_loop saul_reg C program fuel tbl c r) (fun _ s' => kept s s') s.
Proof using HL.
  revert c r s. induction fuel as [|fuel IH]; intros c r s; cbn [start_loop]; [done|].
  apply wpe_gets, wpe_gets. destruct (program c r (r_ram s) (mem (r_fs s))) as [[ev c'] ram].
  apply wpe_bind. unfold wpe at 1, check at 1. destruct (unchanged _ _); [|done].
  apply wpe_modify. destruct ev as [sp n args|r10 st].
  2: { unfold wpe, check. by destruct (_ =? _). }
  apply wpe_bind. pose proof (leaves_call tbl sp n args (set_ram ram s)) as Hc. unfold wpo in Hc. unfold wpe at 1.
  destruct (stub_call saul_reg tbl sp n args (set_ram ram s)) as [[r' s1]|er]; [|done].
  eapply wpe_mono; [apply IH|]. intros [] s2 H2. eapply kept_trans; [|exact H2]. by destruct Hc as [[] _].
Qed.

(** The strings the words of [argv] point to are those of the command line. *)
Lemma strings_at_words sy argv (ws : list (Z * list Z)) :
  FLASH_LIMIT <= argv -> words_at (r_ram sy) argv (map fst ws) ->
  Forall (fun x => FLASH_LIMIT <= fst x /\ fst x + Z.of_nat (length (snd x)) < 2 ^ 32 - 1 /\ c_string (snd x) /\
    (length (snd x) < 128)%nat /\ rd_bytes (r_ram sy) (fst x) (S (length (snd x))) = snd x ++ [0]) ws ->
  strings_at (K := K) (D := D) (length ws) sy argv = map snd ws.
Proof using.
  revert argv. induction ws as [|[a w] ws IH]; intros argv Ha Hw Hs; [done|].
  apply Forall_cons in Hs as [(H1 & H2 & H3 & H4 & H5) Hs]. cbn [fst snd] in *. destruct Hw as [Hw1 Hw2].
  cbn [strings_at length map snd]. rewrite load32_ram, Hw1 by done. f_equal.
  - by apply str_load_string.
  - apply IH; [lia|done|done].
Qed.

Lemma exec_starts uninit C program fuel (c0 : C) s l e cmd name args file :
  executable s l e name args file ->
  exec saul_reg function_addr uninit C program fuel c0 (cmd :: name :: args) s =
  (let unused := unusedRamStart s in
   let p := spots_of unused (Z.of_nat (length (cmd :: name :: args))) in
   prepare_program function_addr p unused file (file_size (mem (r_fs s)) file) (map fst (cmd :: name :: args)) ;;
   modify (set_unused (u32 (unused + neededram))) ;;
   start_loop saul_reg C program fuel (syscalls p) c0 0 ;;
   modify (fun s => set_unused (u32 (unusedRamStart s - neededram)) s) ;;
   unused ← gets unusedRamStart;
   memset unused 0 neededram ;;
   mret uninit) s.
Proof using.
  intros [Hm Hf Hld Hex _ _ _ _ _]. unfold exec. rewrite bool_decide_eq_false_2 by (cbn; lia).
  change (default [] (map snd (cmd :: name :: args) !! 1%nat)) with (snd name).
  erewrite cmd_bind_Ok by (unfold ask_fs; erewrite finds_search by eassumption; reflexivity).
  rewrite (proj2 (Z.eqb_neq file NULL)) by (eapply mounted_nonnull; [done|by eapply finds_in]).
  rewrite (cmd_bind_Ok _ _ _ _ _ eq_refl). unfold file_at. cbn [f_status f_exec f_size].
  rewrite Hld, Z.eqb_refl. cbn [negb]. rewrite (proj2 (Z.eqb_neq _ _) Hex). done.
Qed.


(** The state in which the program starts. *)
Definition entered (m : memory) s : riot := set_unused (unusedRamStart s + neededram) (set_ram m s).

Lemma arguments_provided s l e (cmd name : Z * list Z) args file p m :
  executable s l e name args file -> p = spots_of (unusedRamStart s) (Z.of_nat (length (cmd :: name :: args))) ->
  provided p (unusedRamStart s) (map fst (name :: args)) (r_ram s) m ->
  start (itf p) (entered m s) = (Z.of_nat (length (name :: args)), stktop p + 4) /\
  strings_at (length (name :: args)) (entered m s) (stktop p + 4) = map snd (name :: args).
Proof using.
  intros [_ _ _ _ Hlo Hhi Hc Hws _] Ep [Ho Ht Hargc Hargv _]. change neededram with 12288 in Hhi.
  assert (0 <= FLASH_LIMIT) by done. rewrite spots_ok in Ep by (done || cbn [length]; lia).
  assert (itf p = unusedRamStart s + 984) as Ei by (by rewrite Ep).
  assert (stktop p = unusedRamStart s + 932 - 4 * Z.of_nat (length (cmd :: name :: args))) as Es by (by rewrite Ep).
  clear Ep. set (n := length args) in *. assert (length (name :: args) = S n) as En by done.
  assert (length (cmd :: name :: args) = S (S n)) as En2 by done. rewrite En2 in Es.
  rewrite length_map in Hargc. split.
  - unfold start. rewrite (load32_ram _ (itf p + itf_stackTop)) by (unfold itf_stackTop; lia).
    change (r_ram (entered m s)) with m. rewrite Ht, load32_ram by lia. change (r_ram (entered m s)) with m.
    rewrite Hargc, En. rewrite signed_small by lia. by rewrite wrap_small by (unfold is_word; lia).
  - apply strings_at_words; [lia|exact Hargv|]. change (r_ram (entered m s)) with m.
    eapply Forall_impl; [exact Hws|]. intros [a w] (H1 & H2 & H3 & H4 & H5). cbn [fst snd] in *.
    split_and!; [done|lia|done|done|]. rewrite <- H5. apply rd_bytes_ext. intros b Hb. apply Ho. lia.
Qed.

(** C27: Running a program without a partition: for a loaded executable file, room in the RAM and
    at most 200 arguments that lie below the free RAM, the program's [main] receives the
    words of the command line after the command, and its table has the marker
    for direct calls.  Whatever the program does, if the run ends in an error the
    command ends in it, an error being also that the program has overwritten the variables or the
    stack of the command, or exits with another register of global data.  Otherwise the command
    returns with the free RAM starting where it did and the RAM of the
    program cleared.  What it returns does not depend on the program's status:
    it is the value of a variable that is never assigned. *)
Theorem exec_runs s l e (cmd name : Z * list Z) args file :
  executable s l e name args file ->
  let p := spots_of (unusedRamStart s) (Z.of_nat (length (cmd :: name :: args))) in
  exists m, load32 (entered m s) (syscalls p) = 0 /\
    (let '(argc, argv) := start (itf p) (entered m s) in
     argc = Z.of_nat (length (name :: args)) /\ strings_at (Z.to_nat argc) (entered m s) argv = map snd (name :: args)) /\
    forall uninit C program fuel (c0 : C),
    match start_loop saul_reg C program fuel (syscalls p) c0 0 (entered m s) with
    | Err er => exec saul_reg function_addr uninit C program fuel c0 (cmd :: name :: args) s = Err er
    | Ok (_, s') => exists s'',
        exec saul_reg function_addr uninit C program fuel c0 (cmd :: name :: args) s = Ok (uninit, s'') /\
        unusedRamStart s'' = unusedRamStart s /\
        forall a, unusedRamStart s <= a < unusedRamStart s + neededram -> rd8 (r_ram s'') a = 0
    end.
Proof using HL.
  intros Hx p. assert (p = spots_of (unusedRamStart s) (Z.of_nat (length (cmd :: name :: args)))) as Ep by done. clearbody p.
  pose proof Hx as [_ _ _ _ Hlo Hhi Hc Hws Htab].
  assert (Forall (is_word 32) (map fst (name :: args))) as Hp.
  { apply Forall_map. eapply Forall_impl; [exact Hws|]. intros [a w] (H1 & H2 & _). cbn [fst snd] in *.
    assert (0 <= FLASH_LIMIT) by done. change neededram with 12288 in Hhi. unfold is_word. lia. }
  destruct (wpe_Ok _ _ _ (prepare_ok (unusedRamStart s) file (file_size (mem (r_fs s)) file) (fst cmd)
    (map fst (name :: args)) Hlo Hhi ltac:(rewrite length_map; cbn [length]; lia) Hp Htab s)) as ([] & sp & E & m & -> & Hm).
  assert (length (fst cmd :: map fst (name :: args)) = length (cmd :: name :: args)) as El by (cbn [length]; by rewrite length_map).
  rewrite El, <- Ep in E, Hm. exists m. destruct (arguments_provided _ _ _ cmd _ _ _ p m Hx Ep Hm) as [Hst Hstr].
  change neededram with 12288 in Hhi. assert (0 <= FLASH_LIMIT) by done.
  split_and!.
  - pose proof (pv_table _ _ _ _ _ Hm) as [Ht _]. rewrite load32_ram; [exact Ht|].
    rewrite Ep, spots_ok by (done || cbn [length]; lia). cbn [syscalls]. lia.
  - rewrite Hst, Nat2Z.id. done.
  - intros uninit C program fuel c0. rewrite (exec_starts uninit C program fuel c0 _ _ _ _ _ _ _ Hx). cbn zeta. rewrite <- Ep.
    rewrite (cmd_bind_Ok _ _ _ _ _ E), (cmd_bind_Ok _ _ _ _ _ eq_refl).
    change neededram with 12288. rewrite wrap_small by (unfold is_word; lia).
    change (set_unused (unusedRamStart s + 12288) (set_ram m s)) with (entered m s).
    pose proof (leaves_run C program fuel (syscalls p) c0 0 (entered m s)) as Hk. unfold wpe in Hk.
    destruct (start_loop _ _ _ _ _ _ _ _) as [[[] s']|er] eqn:Er; [|unfold mbind, cmd_bind; by rewrite Er].
    rewrite (cmd_bind_Ok _ _ _ _ _ Er).
    destruct Hk as [Kf Kv Ku _]. change (unusedRamStart (entered m s)) with (unusedRamStart s + 12288) in Ku.
    do 2 rewrite (cmd_bind_Ok _ _ _ _ _ eq_refl). cbn [unusedRamStart set_unused]. rewrite Ku, Z.add_simpl_r.
    rewrite wrap_small by (unfold is_word; lia).
    destruct (wpe_Ok _ _ _ (stores_memset (unusedRamStart s) 0 12288 Hlo ltac:(lia) Hhi (set_unused (unusedRamStart s) s')))
      as ([] & s'' & Ez & m' & -> & _ & Hz).
    rewrite (cmd_bind_Ok _ _ _ _ _ Ez). eexists. split; [reflexivity|]. done.
Qed.
End ExecSpec.
