(* ===== verification/RunDemo.v ===== *)
(** * Running programs, evaluated

    A small machine with one executable file: it discharges the hypotheses of
    the theorems on [safe_exec], [exec] and the system calls, and shows what
    happens outside of them: a hostile child that has RIOT overwrite RIOT's own
    memory, a seventeenth argument, a copy to the child's stack, and a child whose data
    survives it. *)

From stdpp Require Import base gmap list.
From Stdlib Require Import ZArith Lia.
From S2P Require Import Prelude Flash XipFs XipFsSpec XipFsOps XipFsDemo Shell XipFsShell XipFsCopy Pip SafeExec SafeExecSpec SafeExecMem SafeExecRun StdRiot Exec ExecSpec.

Local Open Scope Z_scope.

(** ** The machine *)

#[export] Instance board : Target := {|
  riotPartDesc := 0x2000f000; riotVidt := 0x20000100; riotGotAddr := 0x20000300;
  riot_dsp_ctx := 0x20000400; riot_stk_addr := 0x20000600; dispatcher_addr := 0x8001;
  sizeof_context := 120;
  ctx_isBasicFrame := 0; ctx_pipflags := 4; ctx_r0 := 8; ctx_r1 := 12; ctx_r10 := 48;
  ctx_sp := 60; ctx_pc := 68; ctx_xpsr := 72;
  command_objects := [(0x20000600, 0x20000800); (0x20000900, 0x20000a00)]
|}.

#[export] Instance small_libc : Libc := {|
  libc_vprintf rd fmt _ := (fun c => ([c], [], 1)) <$> rd fmt;
  libc_isprint c := if (32 <=? c) && (c <=? 126) then 1 else 0;
  libc_strtol rd p _ := (fun c => (c - 48, p + 1)) <$> rd p
|}.

(** Four lamps that are never on; no thermometer. *)
Definition lamps : list (saul_driver unit) := replicate 4 (mkDriver unit (fun _ => (1, 0, tt)) (fun _ _ => (1, tt))).

Definition bin_fs : tinyfs := run (tinyfs_create_file name_b 100 1 TINYFS_STATUS_LOADED) one.
Definition whole_view : pview :=
  mkView {[ RIOT_BLOCK_ID_1 := (0x20000000, 0x20010000); RIOT_BLOCK_ID_2 := (0x1000, 0x80000) ]} ∅ true.

(** RIOT's regions map its two blocks. *)
Definition kernel0 : ideal := mkIdeal whole_view {[ 0x2000f000 := {[ 1 := RIOT_BLOCK_ID_1; 2 := RIOT_BLOCK_ID_2 ]} ]}.

(** RIOT with its free RAM from [unused] on and the words of a command line in RAM. *)
Definition riot_at (unused : Z) : riot (K := ideal) (D := unit) :=
  mkRiot bin_fs (wr_bytes ∅ 0x20000c00 ([101; 0] ++ name_b ++ [0; 49; 0])) [] tt kernel0 unused 0 0 0 0 0 0 0.
Definition machine : riot := riot_at 0x20001600.

Example bin_files : files_of bin_fs = Some ([0x28000; 0x29000], Some 0x2a000).
Proof. vm_compute. reflexivity. Qed.

Lemma room_at unused : 0x20001000 <= unused <= 0x20007000 -> room unused.
Proof.
  intros H. constructor; unfold vidt_context; cbn; try (unfold FLASH_LIMIT, FLASHPAGE_SIZE, FLASHPAGE_NUMOF); try lia.
  - repeat constructor; lia.
  - repeat constructor; lia.
Qed.

Definition fitsb (args : list (list Z)) : bool :=
  (length args <=? 16)%nat && (chars args <=? 128)
  && forallb (fun w => wordsb w && forallb (fun c => negb (c =? 0)) w) args.
Lemma fitsb_ok args : fitsb args = true -> fits args.
Proof.
  unfold fitsb. rewrite !andb_true_iff. intros [[H1 H2] H3].
  constructor; [by apply Nat.leb_le|by apply Z.leb_le|]. rewrite forallb_forall in H3. apply Forall_forall.
  intros w Hw. by apply c_stringb_ok, H3, list_elem_of_In.
Qed.

Lemma machine_runnable unused args :
  0x20001000 <= unused <= 0x20007000 -> fitsb (name_b :: args) = true ->
  runnable (riot_at unused) [0x28000; 0x29000] (Some 0x2a000) name_b args 0x29000 0x20000000 0x20010000 0x1000 0x80000.
Proof.
  intros Hu Hf. constructor.
  - apply files_of_ok. exact bin_files.
  - vm_compute. reflexivity.
  - vm_compute. reflexivity.
  - vm_compute. discriminate.
  - constructor; vm_compute; reflexivity.
  - by apply room_at.
  - cbn [unusedRamStart riot_at]. lia.
  - vm_compute. split; reflexivity.
  - by apply fitsb_ok.
Qed.

(** ** Children *)

(** A child that exits with status 7. *)
Definition stack_at : Z := 0x20001d00.
Definition quitter (_ : unit) (m _ : memory) : trap * unit * memory :=
  (Syscall stack_at, tt, wr_words m stack_at [0; 7]).

(** A child that asks RIOT to fill four bytes of RIOT's memory, and exits. *)
Definition victim : Z := 0x20000800.
Definition intruder (c : bool) (m _ : memory) : trap * bool * memory :=
  if c then (Syscall stack_at, false, wr_words m stack_at [9; victim; 0xaa; 4])
  else (Syscall stack_at, false, wr_words m stack_at [0; 0]).

Definition places_here : places := places_of 0x20001600 0x29000 100.

Lemma own_here a : own_memory places_here a <-> 0x20001c00 <= a < 0x20004000.
Proof.
  unfold own_memory. assert (child_stk_addr places_here = 0x20001c00) as -> by (vm_compute; reflexivity).
  assert (child_end_addr places_here = 0x20004000) as -> by (vm_compute; reflexivity). done.
Qed.

(** The status of a call, and a byte of RAM afterwards. *)
Definition outcome {A} (r : res fault (A * riot (K := ideal) (D := unit))) (a : Z) : option (A * Z) :=
  match r with Ok (x, s') => Some (x, rd8 (r_ram s') a) | Err _ => None end.

Definition command : list (list Z) := [[101]; name_b].

Example quitter_status : outcome (safe_exec lamps unit quitter 1 tt command machine) victim = Some (7, 0).
Proof. vm_compute. reflexivity. Qed.

(** A child whose writes stay in its blocks. *)
Lemma words_confined ws a :
  (length ws <= 64)%nat -> ~ own_memory places_here a ->
  forall m, rd8 (wr_words m stack_at ws) a = rd8 m a.
Proof. intros Hl Ha m. apply wr_words_out. rewrite own_here in Ha. unfold stack_at. lia. Qed.

Lemma quitter_confined : confined quitter (own_memory places_here).
Proof. intros c m f t c' m' [= <- <- <-] a Ha. apply (words_confined [0; 7]); [cbn; lia|done]. Qed.

Lemma quitter_polite : polite (K := ideal) (D := unit) quitter (own_memory places_here) (child_ctx places_here).
Proof.
  intros c m f sp c' m' [= <- <- <-] s Hs _ Hctx a. unfold request. rewrite Hctx.
  change (child_ctx places_here + ctx_sp) with 0x20002090.
  assert (forall b, FLASH_LIMIT <= b -> load32 s b = rd32 (wr32 (wr_words m stack_at [0; 7]) 0x20002090 stack_at) b) as Hl.
  { intros b Hb. rewrite load32_ram by done. rewrite Hs. done. }
  rewrite (Hl 0x20002090), rd32_wr32_same by done. rewrite (Hl stack_at) by done.
  rewrite rd32_wr32_apart by (unfold stack_at; lia).
  destruct (wr_words_at m stack_at [0; 7]) as [-> _]; [by repeat constructor|].
  call_numbers. rewrite own_here. unfold stack_at. lia.
Qed.

Lemma intruder_confined : confined intruder (own_memory places_here).
Proof.
  intros [] m f t c' m' [= <- <- <-] a Ha.
  - apply (words_confined [9; victim; 0xaa; 4]); [cbn; lia|done].
  - apply (words_confined [0; 0]); [cbn; lia|done].
Qed.

(** ** The theorems at the machine *)


Lemma machine_objects unused : 0x20001000 <= unused -> objects_low (riot_at unused).
Proof. intros Hu. unfold objects_low. cbn. repeat constructor; cbn; lia. Qed.

Lemma child_isolated_witness :
  exists r s0, launch_child 0x29000 100 [name_b] machine = Ok (r, s0) /\
    (exists s', rounds lamps unit quitter 5 tt s0 = Ok (None, s') /\ rd8 (r_ram s') 0x20000900 = rd8 (r_ram s0) 0x20000900) /\
    exists s', safe_exec lamps unit quitter 1 tt command machine = Ok (7, s') /\ rd8 (r_ram s') 0x20000c00 = 101.
Proof.
  destruct (child_isolated lamps unit quitter tt machine [0x28000; 0x29000] (Some 0x2a000) [101] name_b [] 0x29000
    0x20000000 0x20010000 0x1000 0x80000) as (r & s0 & El & _ & Hn & Hx).
  - apply machine_runnable; [lia|reflexivity].
  - apply machine_objects. lia.
  - exact quitter_confined.
  - exact quitter_polite.
  - exists r, s0. split; [exact El|]. split.
    + specialize (Hn 5%nat).
      assert (match launch_child 0x29000 100 [name_b] machine with
        | Ok (_, s) => match rounds lamps unit quitter 5 tt s with Ok (None, _) => true | _ => false end
        | Err _ => false end = true) as Hq by (vm_compute; reflexivity).
      change (launch_child 0x29000 100 [name_b] machine = Ok (r, s0)) in El. rewrite El in Hq.
      destruct (rounds lamps unit quitter 5 tt s0) as [[[c'|] s']|er]; [discriminate| |discriminate].
      exists s'. split; [reflexivity|]. apply Hn. rewrite own_here. lia.
    + destruct (safe_exec lamps unit quitter 1 tt command machine) as [[r' s']|er] eqn:E;
        pose proof quitter_status as Hq; rewrite E in Hq; [|discriminate].
      cbn [outcome] in Hq. injection Hq as Hr _. exists s'. split; [by rewrite Hr|].
      rewrite (Hx 1%nat r' s' E).
      * vm_compute. reflexivity.
      * left. vm_compute. reflexivity.
      * right. vm_compute. discriminate.
      * right. vm_compute. discriminate.
Defined.

Lemma child_gets_arguments_witness :
  exists r sy, launch_child 0x29000 100 [name_b; [49]] machine = Ok (r, sy) /\
    strings_at 2 sy (snd (start (load32 sy (child_ctx_addr sy + ctx_r0)) sy)) = [name_b; [49]].
Proof.
  destruct (child_gets_arguments machine [0x28000; 0x29000] (Some 0x2a000) name_b [[49]] 0x29000
    0x20000000 0x20010000 0x1000 0x80000) as (r & sy & El & H).
  - apply machine_runnable; [lia|reflexivity].
  - exists r, sy. split; [exact El|]. cbn zeta in H.
    destruct (start (load32 sy (child_ctx_addr sy + ctx_r0)) sy) as [argc argv]. destruct H as [-> H]. exact H.
Defined.

(** A program that calls [get_led] and exits. *)
Definition lamp_reader (c : bool) (_ : Z) (m _ : memory) : event * bool * memory :=
  if c then (Calls 0x20001900 5 [2], false, m) else (Exits riotGotAddr 3, false, m).
Definition addresses (i : nat) : Z := 0x8000 + 4 * Z.of_nat i.

Lemma exec_runs_witness :
  let p := spots_of 0x20001600 3 in
  exists m, load32 (entered m machine) (syscalls p) = 0 /\
    fst (start (itf p) (entered m machine)) = 2 /\
    match start_loop lamps bool lamp_reader 2 (syscalls p) true 0 (entered m machine) with
    | Err er => exec lamps addresses 99 bool lamp_reader 2 true
        [(0x20000c00, [101]); (0x20000c02, name_b); (0x20000c04, [49])] machine = Err er
    | Ok _ => exists s'', exec lamps addresses 99 bool lamp_reader 2 true
        [(0x20000c00, [101]); (0x20000c02, name_b); (0x20000c04, [49])] machine = Ok (99, s'')
    end.
Proof.
  destruct (exec_runs lamps addresses machine [0x28000; 0x29000] (Some 0x2a000) (0x20000c00, [101])
    (0x20000c02, name_b) [(0x20000c04, [49])] 0x29000) as (m & Ht & Ha & H).
  - constructor.
    + apply files_of_ok. exact bin_files.
    + vm_compute. reflexivity.
    + vm_compute. reflexivity.
    + vm_compute. discriminate.
    + vm_compute. discriminate.
    + vm_compute. reflexivity.
    + cbn. lia.
    + repeat constructor; vm_compute; (discriminate || reflexivity || lia || idtac).
    + cbn [map seq]. repeat constructor; vm_compute; (discriminate || reflexivity).
  - exists m. split; [exact Ht|]. split.
    + destruct (start _ _) as [argc argv]. destruct Ha as [-> _]. reflexivity.
    + specialize (H 99 bool lamp_reader 2%nat true). cbn [length] in H.
      destruct (start_loop _ _ _ _ _ _ _ _) as [[u s']|er]; [|exact H].
      destruct H as (s'' & H & _). exists s''. exact H.
Defined.

(** ** At the edges *)

(** The limit of isolation: the handler writes where a system call tells it to.
    A child confined to its own memory has RIOT fill RIOT's memory by the call
    that fills memory, and the command reports success. *)
Theorem memset_escapes :
  confined intruder (own_memory places_here) /\ ~ own_memory places_here victim /\
  rd8 (r_ram machine) victim = 0 /\
  outcome (safe_exec lamps bool intruder 2 true command machine) victim = Some (0, 0xaa).
Proof.
  split; [exact intruder_confined|]. split; [rewrite own_here; unfold victim; lia|].
  split; vm_compute; reflexivity.
Qed.

(** The same call on the variables of the command. *)
Definition saboteur (_ : unit) (m _ : memory) : trap * unit * memory :=
  (Syscall stack_at, tt, wr_words m stack_at [9; 0x20000900; 0xaa; 4]).
Example memset_overwrites : safe_exec lamps unit saboteur 1 tt command machine = Err Overwritten.
Proof. vm_compute. reflexivity. Qed.

(** A child that asks for a file to be copied to a buffer: on its stack, or in its second block.
    While the file is copied the region of the stack block maps the flash. *)
Definition copier (buf : Z) (c : bool) (m _ : memory) : trap * bool * memory :=
  if c then (Syscall stack_at, false, wr_words (wr8 (wr8 m 0x20003000 98) 0x20003001 0) stack_at [7; 0x20003000; buf; 4])
  else (Syscall stack_at, false, wr_words m stack_at [0; 0]).
Example copy_to_stack_faults :
  safe_exec lamps bool (copier 0x20001c80) 2 true command machine = Err Unmapped /\
  outcome (safe_exec lamps bool (copier 0x20003100) 2 true command machine) victim = Some (0, 0).
Proof. split; vm_compute; reflexivity. Qed.

(** The pointers the start code hands to the program's [main]. *)
Definition argv_of (n : nat) (s : riot (K := ideal) (D := unit)) : list Z :=
  let argv := snd (start (load32 s (child_ctx_addr s + ctx_r0)) s) in
  map (fun i => load32 s (argv + 4 * Z.of_nat i)) (seq 0 n).

(** Seventeen arguments and more: the pointers beyond the sixteenth fall into the
    handler table of the child, which is cleared afterwards; the program gets a
    null pointer for the seventeenth argument and the address of its own
    context for the eighteenth, though it is told their number. *)
Theorem arguments_overflow :
  exists r sy, launch_child 0x29000 100 (name_b :: replicate 17 [49]) machine = Ok (r, sy) /\
    fst (start (load32 sy (child_ctx_addr sy + ctx_r0)) sy) = 18 /\
    drop 16 (argv_of 18 sy) = [NULL; child_ctx places_here].
Proof.
  assert (match launch_child 0x29000 100 (name_b :: replicate 17 [49]) machine with
    | Ok (_, sy) => (fst (start (load32 sy (child_ctx_addr sy + ctx_r0)) sy), drop 16 (argv_of 18 sy))
    | Err _ => (0, []) end = (18, [NULL; child_ctx places_here])) as H by (vm_compute; reflexivity).
  destruct (launch_child 0x29000 100 (name_b :: replicate 17 [49]) machine) as [[r sy]|er]; [|discriminate].
  exists r, sy. split; [reflexivity|]. split; [exact (f_equal fst H)|exact (f_equal snd H)].
Qed.

(** A child that writes a byte at the end of its memory, and exits. *)
Definition keeper (_ : unit) (m _ : memory) : trap * unit * memory :=
  (Syscall 0x20001900, tt, wr_words (wr8 m 0x20003f00 0x55) 0x20001900 [0; 0]).

(** Data of a child outlives it: where the free RAM does not start 5632 bytes
    past a multiple of 8192 the blocks of the child end above the 10752 bytes
    the command clears, and what the child leaves there stays in RAM. *)
Theorem child_data_survives :
  let p := places_of 0x20001000 0x29000 100 in
  own_memory p 0x20003f00 /\
  outcome (safe_exec lamps unit keeper 1 tt command (riot_at 0x20001000)) 0x20003f00 = Some (0, 0x55).
Proof. split; [|vm_compute; reflexivity]. split; vm_compute; (discriminate || reflexivity). Qed.

(** A child that faults is reported as a success. *)
Definition faulter (_ : unit) (m _ : memory) : trap * unit * memory := (MemFault, tt, m).
Example fault_status : outcome (safe_exec lamps unit faulter 1 tt command machine) victim = Some (0, 0).
Proof. vm_compute. reflexivity. Qed.
