(* ===== verification/Bench.v ===== *)
(** * The benchmark program

    Models [06-rbpf-bench/main.c]: the program of the partition, which reads its
    arguments, copies a bytecode file into a buffer, builds the application and
    its regions on the stack and runs it a number of times on one of four kinds
    of context.  Files come from the system call [copy_file], here a parameter. *)

From stdpp Require Import base gmap list.
From Stdlib Require Import ZArith Lia.
From S2P Require Import Prelude RbpfIsa Rbpf RbpfVerify RbpfEngine.

Local Open Scope Z_scope.

Definition BYTECODE_SIZE_MAX : Z := 600.
Definition BUFFER_SIZE_MAX : Z := 362.
Definition ARRAY_LENGTH : Z := 40.

Definition CALLEE_INTERFACE_INCR : Z := 0.
Definition CALLEE_INTERFACE_SQUARE : Z := 1.
Definition CALLEE_INTERFACE_FIB : Z := 2.
Definition CALLEE_INTERFACE_BITSWAP : Z := 3.
Definition CALLEE_INTERFACE_SOCKBUF : Z := 4.
Definition CALLEE_INTERFACE_FLETCHER32 : Z := 6.

Definition sizeof_sockbuf_ctx : Z := 24.
Definition sizeof_fletcher32_ctx : Z := 16.

(** The addresses of the static objects and of the automatic variables a pointer
    is taken of (the application itself is at [self]). *)
Class Layout := {
  buf : Z;
  rbpf_stack : Z;
  bytecode : Z;
  sockbuf_array : Z;
  main_region : Z;      (* region of main *)
  callee_region : Z;    (* region of bpf_run_sockbuf and bpf_run_fletcher32 *)
  integer_at : Z;       (* integer of bpf_run_with_integer *)
  ctx_at : Z;           (* ctx of bpf_run_sockbuf and bpf_run_fletcher32 *)
  result_before : Z     (* what an unassigned result holds *)
}.

(** The files the system serves, by name. *)
Class Files := { file_contents : list Z -> option (list Z) }.

(** One message per format string, with its arguments. *)
Inductive message :=
| Usage
| BadRunNumber (word : list Z)
| CopyFailed (name : list Z)
| BytecodeLoaded (name : list Z) (address : Z)
| BadFormatNumber (word : list Z)
| BadInteger (word : list Z)
| DataFailed (name : list Z)
| DataLoaded (name : list Z) (address : Z)
| Result (value : Z)
| IllegalMemory
| Error.

(** What ends the program otherwise than by returning from [main]. *)
Inductive fault :=
| PastArgv                (* argv[4] is read although there is none *)
| EngineUndefined (u : ub)
| EngineRuns              (* the engine did not return within the fuel *)
| EngineAssert
| NoNode.                 (* a region node that does not exist *)

(** ** Numbers *)

Definition is_space (c : Z) : bool := (c =? 32) || ((9 <=? c) && (c <=? 13)).
Definition is_digit (c : Z) : bool := (48 <=? c) && (c <=? 57).
Definition LONG_MAX : Z := 2 ^ 31 - 1.
Definition LONG_MIN : Z := - 2 ^ 31.

Fixpoint skip_spaces (s : list Z) : list Z :=
  match s with c :: s' => if is_space c then skip_spaces s' else s | [] => [] end.

(** The value of the leading digits and what follows them. *)
Fixpoint digits (acc : Z) (s : list Z) : Z * list Z :=
  match s with
  | c :: s' => if is_digit c then digits (acc * 10 + (c - 48)) s' else (acc, s)
  | [] => (acc, [])
  end.

(** [strtol] in base ten: the value, and the string at the end pointer. *)
Definition strtol (s : list Z) : Z * list Z :=
  let t := skip_spaces s in
  let '(sign, t) := match t with
                    | 45 :: t => (-1, t)
                    | 43 :: t => (1, t)
                    | _ => (1, t)
                    end in
  match t with
  | c :: _ =>
      if is_digit c then
        let '(v, e) := digits 0 t in (Z.max LONG_MIN (Z.min LONG_MAX (sign * v)), e)
      else (0, s)
  | [] => (0, s)
  end.

(** The test behind each call: a number and nothing after it. *)
Definition number (s : list Z) : option Z :=
  let '(v, e) := strtol s in
  if bool_decide (e = s) || negb (bool_decide (e = [])) then None else Some v.

Section Bench.
Context `{HL : Layout} `{HF : Files}.

(** ** State *)

Record bench := mkBench { b_vm : machine; b_out : list message }.
Abbreviation bc A := (cmd bench fault A).

Definition printf (x : message) : bc unit := modify (fun b => mkBench (b_vm b) (b_out b ++ [x])).
Definition on_vm (f : machine -> machine) : bc unit := modify (fun b => mkBench (f (b_vm b)) (b_out b)).
Definition store (a : Z) (n : nat) (v : Z) : bc unit := on_vm (fun m => with_mem (wr_le (mem m) a n v) m).

Definition copy_file_to (name : list Z) (to nbyte : Z) : bc Z :=
  match file_contents name with
  | None => mret (-1)
  | Some l =>
      let l := take (Z.to_nat nbyte) l in
      on_vm (fun m => with_mem (wr_bytes (mem m) to l) m) ;; mret (Z.of_nat (length l))
  end.

Definition init_region (p start len flags : Z) : bc unit :=
  on_vm (fun m => with_regions (rbpf_memory_region_init p start len flags (regions m)) m).

Definition add_region (p : Z) : bc unit := fun b =>
  match rbpf_add_region (b_vm b) p with
  | Some m => Ok (tt, mkBench m (b_out b))
  | None => Err NoNode
  end.

Definition run_ctx (fuel : nat) (ctx size : Z) : bc (Z * option Z) := fun b =>
  match rbpf_application_run_ctx fuel (b_vm b) ctx size with
  | Returned code result m => Ok ((code, result), mkBench m (b_out b))
  | RunUndefined u => Err (EngineUndefined u)
  | RunOutOfFuel => Err EngineRuns
  | AssertFailed => Err EngineAssert
  end.

(** ** Running *)

Definition bpf_print_result (result status : Z) : bc Z :=
  if status =? RBPF_OK then printf (Result (u32 result)) ;; mret 0
  else if status =? RBPF_ILLEGAL_MEM then printf IllegalMemory ;; mret 1
  else printf Error ;; mret 1.

(** The loop of [BPF_RUN_N], [k] rounds before [n]. *)
Fixpoint run_n (fuel k : nat) (ctx size status result : Z) : bc (Z * Z) :=
  match k with
  | O => mret (result, status)
  | S k =>
      if status =? RBPF_OK then
        r ← run_ctx fuel ctx size;
        run_n fuel k ctx size (fst r) (default result (snd r))
      else mret (result, status)
  end.

Definition BPF_RUN_N (fuel : nat) (n ctx size result : Z) : bc Z :=
  r ← run_n fuel (Z.to_nat n) ctx size RBPF_OK result;
  bpf_print_result (fst r) (snd r).

Definition bpf_run_with_integer (fuel : nat) (n integer : Z) : bc Z :=
  store integer_at 8 integer ;;
  BPF_RUN_N fuel n integer_at 8 result_before.

Definition bpf_run_with_context (fuel : nat) (n context context_size : Z) : bc Z :=
  BPF_RUN_N fuel n context context_size 0.

Definition bpf_run (fuel : nat) (n : Z) : bc Z := BPF_RUN_N fuel n 0 0 result_before.

Definition bpf_load_file_to_buffer (filename : list Z) : bc Z :=
  result ← copy_file_to filename buf BUFFER_SIZE_MAX;
  (if result <? 0 then printf (DataFailed filename) else printf (DataLoaded filename buf)) ;;
  mret result.

Fixpoint clear_array (k : nat) (i : Z) : bc unit :=
  match k with
  | O => mret tt
  | S k => store (sockbuf_array + 4 * i) 4 0 ;; clear_array k (i + 1)
  end.

(** The pointer is a union with a 64-bit word, aligned to 8; the initialiser sets
    its first half. *)
Definition bpf_run_sockbuf (fuel : nat) (n : Z) : bc Z :=
  clear_array (Z.to_nat ARRAY_LENGTH) 0 ;;
  store ctx_at 4 100 ;;
  store (ctx_at + 4) 4 200 ;;
  store (ctx_at + 8) 4 9 ;;
  store (ctx_at + 16) 4 sockbuf_array ;;
  init_region callee_region sockbuf_array (4 * ARRAY_LENGTH)
    (Z.lor RBPF_MEM_REGION_READ RBPF_MEM_REGION_WRITE) ;;
  add_region callee_region ;;
  bpf_run_with_context fuel n ctx_at sizeof_sockbuf_ctx.

Definition arg (argv : list (list Z)) (i : nat) : bc (list Z) :=
  match argv !! i with Some w => mret w | None => fail PastArgv end.

Definition bpf_run_fletcher32 (fuel : nat) (n : Z) (argv : list (list Z)) : bc Z :=
  if bool_decide (length argv < 5)%nat then printf Usage ;; mret 1
  else
    a4 ← arg argv 4;
    buf_size ← bpf_load_file_to_buffer a4;
    if buf_size <? 0 then mret 1
    else
      store ctx_at 4 buf ;;
      store (ctx_at + 8) 4 (buf_size / 2) ;;
      init_region callee_region buf buf_size RBPF_MEM_REGION_READ ;;
      add_region callee_region ;;
      bpf_run_with_context fuel n ctx_at sizeof_fletcher32_ctx.

(** ** main *)

(** The application of the bytecode in the buffer, with a region to read it. *)
Definition load_application (bytecode_size : Z) : bc unit :=
  on_vm (fun m => rbpf_application_setup m rbpf_stack bytecode bytecode_size) ;;
  init_region main_region bytecode bytecode_size RBPF_MEM_REGION_READ ;;
  add_region main_region.

(** The switch; an enumeration of these values is one byte on the target. *)
Definition dispatch (fuel : nat) (n callee_interface : Z) (argv : list (list Z)) : bc Z :=
  if bool_decide (callee_interface ∈
      [CALLEE_INTERFACE_INCR; CALLEE_INTERFACE_SQUARE; CALLEE_INTERFACE_FIB]) then
    if bool_decide (length argv < 4)%nat then printf Usage ;; mret 1
    else
      a4 ← arg argv 4;
      match number a4 with
      | None => a1 ← arg argv 1; printf (BadInteger a1) ;; mret 1
      | Some v => bpf_run_with_integer fuel n (u32 v)
      end
  else if callee_interface =? CALLEE_INTERFACE_BITSWAP then bpf_run fuel n
  else if callee_interface =? CALLEE_INTERFACE_SOCKBUF then bpf_run_sockbuf fuel n
  else if callee_interface =? CALLEE_INTERFACE_FLETCHER32 then bpf_run_fletcher32 fuel n argv
  else printf Usage ;; mret 1.

Definition main (fuel : nat) (argv : list (list Z)) : bc Z :=
  if bool_decide (length argv < 4)%nat then printf Usage ;; mret 1
  else
    a1 ← arg argv 1; a2 ← arg argv 2; a3 ← arg argv 3;
    match number a1 with
    | None => printf (BadRunNumber a1) ;; mret 1
    | Some n =>
        result ← copy_file_to a2 bytecode BYTECODE_SIZE_MAX;
        if result <? 0 then printf (CopyFailed a2) ;; mret 1
        else
          printf (BytecodeLoaded a2 bytecode) ;;
          load_application result ;;
          match number a3 with
          | None => printf (BadFormatNumber a1) ;; mret 1
          | Some v => dispatch fuel (u32 n) (u8 v) argv
          end
    end.
End Bench.
