(* ===== verification/BenchSpec.v ===== *)
(** * What the benchmark program does

    The region list [main] builds, the memory a run can reach through it, and
    the end of the program. *)

From stdpp Require Import base gmap list.
From Stdlib Require Import ZArith Lia.
From S2P Require Import Prelude RbpfIsa Rbpf RbpfVerify RbpfEngine RbpfSafety Bench.

Local Open Scope Z_scope.

(** ** Region lists with their contents *)

(** What a node says of its region, without the link. *)
Definition region : Type := Z * Z * Z.
Definition desc (h : gmap Z rbpf_mem_region) (p : Z) : option region :=
  (fun r => (start r, len r, r_flags r)) <$> h !! p.

(** The nodes [l] are linked in this order and describe the regions [ds]. *)
Definition mapped (m : machine) (l : list Z) (ds : list region) : Prop :=
  chain (regions m) (stack_region (app m)) l /\ Forall2 (fun p d => desc (regions m) p = Some d) l ds.

Definition low (d : region) : Prop := 0 <= d.1.1 /\ 0 <= d.1.2 /\ d.1.1 + d.1.2 < 2 ^ 31.

(** [a] is a byte a region of [ds] lets a program write. *)
Definition writes (ds : list region) (a : Z) : Prop :=
  exists d, d ∈ ds /\ d.1.1 <= a < d.1.1 + d.1.2 /\ has_flag d.2 RBPF_MEM_REGION_WRITE = true.

Lemma mapped_node m l ds r :
  mapped m l ds -> r ∈ nodes (regions m) l -> (start r, len r, r_flags r) ∈ ds.
Proof.
  intros [_ H] (p & Hp & Hr)%list_elem_of_omap.
  apply list_elem_of_lookup in Hp as [i Hi]. destruct (Forall2_lookup_l _ _ _ _ _ H Hi) as (d & Hd & E).
  unfold desc in E. rewrite Hr in E. injection E as <-. by eapply list_elem_of_lookup_2.
Qed.

Lemma mapped_ok m l ds : mapped m l ds -> Forall low ds -> regions_ok m l.
Proof.
  intros Hm Hl. split; [apply Hm|]. apply Forall_forall. intros r Hr.
  eapply mapped_node in Hr; [|done]. rewrite Forall_forall in Hl. by apply Hl in Hr.
Qed.

Lemma mapped_writes m l ds a : mapped m l ds -> writable m l a -> writes ds a.
Proof. intros Hm (r & Hr & H1 & H2). exists (start r, len r, r_flags r). split; [by eapply mapped_node|done]. Qed.

Lemma chain_region_init q s n f h p l : chain h p l -> chain (rbpf_memory_region_init q s n f h) p l.
Proof.
  induction 1 as [|p r l Hp Hr _ IH]; [constructor|].
  destruct (decide (q = p)) as [->|Hq].
  - econstructor; [done|by apply region_init_lookup|exact IH].
  - econstructor; [done|by rewrite region_init_lookup_ne|exact IH].
Qed.

Lemma desc_init q s n f h p :
  is_Some (h !! q) -> desc (rbpf_memory_region_init q s n f h) p = if decide (q = p) then Some (s, n, f) else desc h p.
Proof.
  intros [r Hr]. unfold desc. case_decide as E; [subst q; by rewrite (region_init_lookup _ _ _ _ _ _ Hr)|].
  by rewrite region_init_lookup_ne.
Qed.

(** A region of the list is described anew. *)
Lemma mapped_init m l1 p l2 ds1 d ds2 s n f :
  length l1 = length ds1 -> mapped m (l1 ++ p :: l2) (ds1 ++ d :: ds2) ->
  mapped (with_regions (rbpf_memory_region_init p s n f (regions m)) m) (l1 ++ p :: l2) (ds1 ++ (s, n, f) :: ds2).
Proof.
  intros Hlen [Hc Hd]. split; [by apply chain_region_init|]. cbn.
  assert (is_Some (regions m !! p)) as Hp by (eapply chain_in_dom; [exact Hc|set_solver]).
  pose proof (chain_NoDup _ _ _ Hc) as (Hn1 & Hdis & [Hn2 _]%NoDup_cons)%NoDup_app.
  assert (forall k es, p ∉ k -> Forall2 (fun p d => desc (regions m) p = Some d) k es ->
    Forall2 (fun q d => desc (rbpf_memory_region_init p s n f (regions m)) q = Some d) k es) as Hout.
  { intros k es Hk. induction 1 as [|x e k es Hx _ IH]; constructor; [|by apply IH; set_solver].
    rewrite desc_init by done. rewrite decide_False by set_solver. done. }
  apply Forall2_app_inv in Hd as [H1 H2]; [|done]. apply Forall2_cons in H2 as [_ H2].
  apply Forall2_app; [apply Hout; [set_solver|done]|]. constructor; [|by apply Hout].
  rewrite desc_init by done. by rewrite decide_True.
Qed.

(** A region that is not in the list yet. *)
Lemma mapped_init_out m l ds p s n f :
  p ∉ l -> is_Some (regions m !! p) -> mapped m l ds ->
  mapped (with_regions (rbpf_memory_region_init p s n f (regions m)) m) l ds.
Proof.
  intros Hp Hs [Hc Hd]. split; [by apply chain_region_init|]. cbn. clear Hc.
  induction Hd as [|x e k es Hx _ IH]; constructor; [|by apply IH; set_solver].
  rewrite desc_init by done. rewrite decide_False by set_solver. done.
Qed.

(** Adding it links it behind the argument. *)
Lemma mapped_add m l1 l2 ds1 da ds2 p d :
  length l1 = length ds1 -> mapped m (l1 ++ arg_region (app m) :: l2) (ds1 ++ da :: ds2) ->
  desc (regions m) p = Some d -> p <> 0 -> p ∉ l1 ++ arg_region (app m) :: l2 ->
  exists m', rbpf_add_region m p = Some m' /\ app m' = app m /\ mem m' = mem m /\
    (forall q, desc (regions m') q = desc (regions m) q) /\
    mapped m' (l1 ++ arg_region (app m) :: p :: l2) (ds1 ++ da :: d :: ds2).
Proof.
  intros Hlen [Hc Hd] Hp H0 Hnew.
  destruct (add_region_inserts m l1 l2 p Hc) as (m' & E & Ha & Hm & Hc' & H1 & H2 & H3); [|done|done|].
  { unfold desc in Hp. destruct (regions m !! p); [eauto|done]. }
  assert (forall q, desc (regions m') q = desc (regions m) q) as Hdesc.
  { intros q. specialize (H1 q). specialize (H2 q). specialize (H3 q). unfold desc.
    destruct (regions m' !! q), (regions m !! q); cbn in *; congruence. }
  exists m'. split_and!; try done. split; [exact Hc'|].
  apply Forall2_app_inv in Hd as [F1 F2]; [|done]. apply Forall2_cons in F2 as [F2 F3].
  apply Forall2_app; [|constructor; [|constructor]].
  - eapply Forall2_impl; [exact F1|]. intros q e He. by rewrite Hdesc.
  - by rewrite Hdesc.
  - by rewrite Hdesc.
  - eapply Forall2_impl; [exact F3|]. intros q e He. by rewrite Hdesc.
Qed.

(** ** The objects of the host *)

(** [m'] has the struct of [m] and no node that [m] does not have. *)
Definition keeps_objects (m m' : machine) : Prop :=
  self (app m') = self (app m) /\ forall q, is_Some (regions m' !! q) -> is_Some (regions m !! q).

Lemma keeps_objects_refl m : keeps_objects m m.
Proof. by split. Qed.

Lemma keeps_objects_trans m1 m2 m3 : keeps_objects m1 m2 -> keeps_objects m2 m3 -> keeps_objects m1 m3.
Proof. intros [H1 H2] [H3 H4]. split; [congruence|auto]. Qed.

Lemma keeps_object_byte m m' a : keeps_objects m m' -> object_byte m' a -> object_byte m a.
Proof. intros [H1 H2] [H|(p & Hp & H)]; [left; by rewrite <- H1|right; eauto]. Qed.

Lemma region_init_objects m p s n f :
  keeps_objects m (with_regions (rbpf_memory_region_init p s n f (regions m)) m).
Proof.
  split; [done|]. intros q. cbn. unfold rbpf_memory_region_init. by rewrite lookup_alter_is_Some.
Qed.

(** ** Memory a command may change *)

(** [m'] differs from [m] only at the bytes [G] and next to the 2 GiB address. *)
Definition spares (G : Z -> Prop) (m m' : memory) : Prop :=
  forall a, rd8 m' a = rd8 m a \/ G a \/ near_2G a.

Lemma spares_refl G m : spares G m m.
Proof. intros a. by left. Qed.

Lemma spares_trans G m1 m2 m3 : spares G m1 m2 -> spares G m2 m3 -> spares G m1 m3.
Proof.
  intros H1 H2 a. destruct (H1 a) as [E1|]; [|by right]. destruct (H2 a) as [E2|]; [|by right].
  left. congruence.
Qed.

Lemma spares_mono (G G' : Z -> Prop) m m' : (forall a, G a -> G' a) -> spares G m m' -> spares G' m m'.
Proof. intros HG H a. destruct (H a) as [|[|]]; auto. Qed.

Lemma spares_wr_le G m a n v : (forall x, a <= x < a + Z.of_nat n -> G x) -> spares G m (wr_le m a n v).
Proof.
  intros HG x. destruct (decide (a <= x < a + Z.of_nat n)) as [H|H]; [right; left; auto|].
  left. apply rd8_wr_le_out. lia.
Qed.

Lemma spares_wr_bytes G m a l : (forall x, a <= x < a + Z.of_nat (length l) -> G x) -> spares G m (wr_bytes m a l).
Proof.
  intros HG x. destruct (decide (a <= x < a + Z.of_nat (length l))) as [H|H]; [right; left; auto|].
  left. apply rd8_wr_bytes_out. lia.
Qed.

Lemma spares_same_on G m m' lo hi :
  spares G m m' -> (forall a, lo <= a < hi -> ~ G a /\ ~ near_2G a) -> same_on m m' lo hi.
Proof. intros H Ha a Hin. destruct (Ha a Hin). destruct (H a) as [|[|]]; done. Qed.

(** ** Runs *)

Section Spec.
Context `{HL : Layout} `{HF : Files}.
Implicit Types (b : bench) (m : machine).

Definition RW : Z := Z.lor RBPF_MEM_REGION_READ RBPF_MEM_REGION_WRITE.

(** The list of the application: its own regions [ds1], the argument, the added
    nodes [l2] with the regions [ds2]. *)
Definition own m : list Z := [stack_region (app m); data_region (app m); rodata_region (app m)].
Definition built m (l2 : list Z) (ds1 : list region) (da : region) (ds2 : list region) : Prop :=
  length ds1 = 3%nat /\ mapped m (own m ++ arg_region (app m) :: l2) (ds1 ++ da :: ds2).

Lemma built_same m m' l2 ds1 da ds2 :
  regions m' = regions m -> self (app m') = self (app m) -> built m l2 ds1 da ds2 -> built m' l2 ds1 da ds2.
Proof.
  unfold built, mapped, own, stack_region, data_region, rodata_region, arg_region. by intros -> ->.
Qed.

(** The machine a run starts with. *)
Definition ready m (ctx size : Z) : machine :=
  with_regions (rbpf_memory_region_init (arg_region (app m)) ctx size RW (regions m)) m.

Lemma ready_built m l2 ds1 da ds2 ctx size :
  built m l2 ds1 da ds2 -> built (ready m ctx size) l2 ds1 (ctx, size, RW) ds2.
Proof. intros [Hlen Hm]. split; [done|]. eapply mapped_init; [by rewrite Hlen|exact Hm]. Qed.

Lemma run_ctx_keeps fuel ctx size b r b' l2 ds1 da ds2 :
  built (b_vm b) l2 ds1 da ds2 -> Forall low (ds1 ++ (ctx, size, RW) :: ds2) ->
  run_ctx fuel ctx size b = Ok (r, b') ->
  regions (b_vm b') = regions (ready (b_vm b) ctx size) /\
  self (app (b_vm b')) = self (app (b_vm b)) /\
  application (app (b_vm b')) = application (app (b_vm b)) /\
  spares (writes (ds1 ++ (ctx, size, RW) :: ds2)) (mem (b_vm b)) (mem (b_vm b')).
Proof.
  intros Hb Hlow. apply (ready_built _ _ _ _ _ ctx size) in Hb as [_ Hm].
  unfold run_ctx, rbpf_application_run_ctx. fold RW. fold (ready (b_vm b) ctx size).
  destruct (has_flag _ _); [|done]. destruct (rbpf_engine_run _ _ _) as [code res m'| | |] eqn:E; try done.
  intros [= <- <-]. cbn.
  apply (engine_run_frame _ _ _ _ _ _ _ (mapped_ok _ _ _ Hm Hlow)) in E as (Hr & Hs & Ha & _ & _ & Hc).
  split_and!; try done. intros a. destruct (Hc a) as [|[Hw|]]; [by left| |by right; right].
  right; left. by eapply mapped_writes.
Qed.

Lemma run_ctx_built fuel ctx size b r b' l2 ds1 da ds2 :
  built (b_vm b) l2 ds1 da ds2 -> Forall low (ds1 ++ (ctx, size, RW) :: ds2) ->
  run_ctx fuel ctx size b = Ok (r, b') ->
  built (b_vm b') l2 ds1 (ctx, size, RW) ds2.
Proof.
  intros Hb Hlow E. destruct (run_ctx_keeps _ _ _ _ _ _ _ _ _ _ Hb Hlow E) as (Hr & Hs & _).
  eapply built_same; [exact Hr|exact Hs|by eapply ready_built].
Qed.

Lemma run_n_spares fuel k ctx size status result b r b' l2 ds1 da ds2 :
  built (b_vm b) l2 ds1 da ds2 -> Forall low (ds1 ++ (ctx, size, RW) :: ds2) ->
  run_n fuel k ctx size status result b = Ok (r, b') ->
  spares (writes (ds1 ++ (ctx, size, RW) :: ds2)) (mem (b_vm b)) (mem (b_vm b')).
Proof.
  revert status result b da. induction k as [|k IH]; intros status result b da Hb Hlow; cbn [run_n].
  { intros [= <- <-]. apply spares_refl. }
  case_match; [|intros [= <- <-]; apply spares_refl].
  intros (r1 & b1 & E & E')%cmd_bind_inv.
  eapply spares_trans; [by eapply run_ctx_keeps|]. eapply IH; [by eapply run_ctx_built|done|exact E'].
Qed.

Lemma BPF_RUN_N_spares fuel n ctx size result b r b' l2 ds1 da ds2 :
  built (b_vm b) l2 ds1 da ds2 -> Forall low (ds1 ++ (ctx, size, RW) :: ds2) ->
  BPF_RUN_N fuel n ctx size result b = Ok (r, b') ->
  spares (writes (ds1 ++ (ctx, size, RW) :: ds2)) (mem (b_vm b)) (mem (b_vm b')) /\ (r = 0 \/ r = 1).
Proof.
  unfold BPF_RUN_N, bpf_print_result. intros Hb Hlow (r1 & b1 & E & E')%cmd_bind_inv.
  apply (run_n_spares _ _ _ _ _ _ _ _ _ _ _ _ _ Hb Hlow) in E.
  repeat case_match; injection E' as <- <-; auto.
Qed.

(** ** Loading *)

(** Where the linker and the compiler may put the objects of the program: below
    2 GiB, and the bytecode buffer apart from the others. *)
Definition placed (a size : Z) : Prop := 0 <= a /\ a + size < 2 ^ 31.
Definition layout_ok : Prop :=
  placed buf BUFFER_SIZE_MAX /\ placed rbpf_stack RBPF_STACK_SIZE /\
  placed bytecode BYTECODE_SIZE_MAX /\ placed sockbuf_array (4 * ARRAY_LENGTH) /\
  placed integer_at 8 /\ placed ctx_at sizeof_sockbuf_ctx /\
  Forall (fun '(a, n) => a + n <= bytecode \/ bytecode + BYTECODE_SIZE_MAX <= a)
    [(buf, BUFFER_SIZE_MAX); (rbpf_stack, RBPF_STACK_SIZE); (sockbuf_array, 4 * ARRAY_LENGTH);
     (integer_at, 8); (ctx_at, sizeof_sockbuf_ctx)].

(** The automatic variables of [main] when it starts: distinct objects with any
    contents, but for the link of the argument region, which nothing sets before
    it is copied. *)
Record frame_ok m : Prop := mkFrame {
  fr_nodes : has_nodes m;
  fr_main : is_Some (regions m !! main_region);
  fr_callee : is_Some (regions m !! callee_region);
  fr_main_null : main_region <> 0;
  fr_callee_null : callee_region <> 0;
  fr_main_apart : main_region ∉ own m ++ [arg_region (app m)];
  fr_callee_apart : callee_region ∉ own m ++ [arg_region (app m); main_region];
  fr_end : arg_next m = 0
}.

(** The lengths the header in the buffer gives, and the regions that follow from them. *)
Definition data_length (mm : memory) : Z := rd32 mm (bytecode + 12).
Definition rodata_length (mm : memory) : Z := rd32 mm (bytecode + 16).
Definition own_regions (mm : memory) : list region :=
  [(rbpf_stack, RBPF_STACK_SIZE, RW); (bytecode + 84, data_length mm, RW);
   (bytecode + 84 + data_length mm, rodata_length mm, RBPF_MEM_REGION_READ)].

(** The regions of the header lie below 2 GiB. *)
Definition lengths_low (mm : memory) : Prop := bytecode + 84 + data_length mm + rodata_length mm < 2 ^ 31.

Lemma data_length_range mm : 0 <= data_length mm.
Proof. apply rd32_range. Qed.
Lemma rodata_length_range mm : 0 <= rodata_length mm.
Proof. apply rd32_range. Qed.

Lemma own_regions_low mm : layout_ok -> lengths_low mm -> Forall low (own_regions mm).
Proof.
  intros Hl Hh. pose proof (data_length_range mm). pose proof (rodata_length_range mm).
  unfold layout_ok, placed, lengths_low, BYTECODE_SIZE_MAX, RBPF_STACK_SIZE in *.
  apply Forall_forall. intros d Hd. unfold low. set_unfold in Hd.
  destruct Hd as [->|[->|[->|[]]]]; cbn [fst snd]; unfold RBPF_STACK_SIZE; lia.
Qed.

Lemma setup_built m size :
  layout_ok -> lengths_low (mem m) -> has_nodes m -> arg_next m = 0 ->
  exists da, built (rbpf_application_setup m rbpf_stack bytecode size) [] (own_regions (mem m)) da [].
Proof.
  intros Hl Hh Hn Hend.
  pose proof (data_length_range (mem m)). pose proof (rodata_length_range (mem m)).
  destruct (setup_regions m rbpf_stack bytecode size []) as (Hc & H1 & H2 & H3 & H4); [done|rewrite Hend; constructor| |].
  { repeat constructor; apply not_elem_of_nil. }
  destruct Hn as (_ & _ & _ & _ & [ra Hra]).
  set (m' := rbpf_application_setup m rbpf_stack bytecode size) in *.
  assert (rbpf_application_data_len m' = data_length (mem m)) as El.
  { unfold rbpf_application_data_len, hdr_data_len, data_length. cbn. rewrite wrap_small; [done|].
    unfold layout_ok, placed, is_word, BYTECODE_SIZE_MAX in *. lia. }
  assert (rbpf_application_rodata_len m' = rodata_length (mem m)) as Er.
  { unfold rbpf_application_rodata_len, hdr_rodata_len, rodata_length. cbn. rewrite wrap_small; [done|].
    unfold layout_ok, placed, is_word, BYTECODE_SIZE_MAX in *. lia. }
  exists (start ra, len ra, r_flags ra). split; [done|]. split; [exact Hc|].
  change (own m') with (own m). change (arg_region (app m')) with (arg_region (app m)).
  unfold own_regions. cbn [app].
  repeat (apply Forall2_cons; split); [..|constructor]; unfold desc.
  - by rewrite H1.
  - rewrite H2. cbn [fmap option_fmap option_map start len r_flags]. rewrite El.
    unfold rbpf_application_data. change (application (app m')) with bytecode. rewrite wrap_small; [done|].
    unfold layout_ok, placed, is_word, lengths_low, BYTECODE_SIZE_MAX, sizeof_rbpf_application in *. lia.
  - rewrite H3. cbn [fmap option_fmap option_map start len r_flags]. rewrite Er.
    unfold rbpf_application_rodata. fold (rbpf_application_data_len m'). rewrite El. change (application (app m')) with bytecode. rewrite wrap_small; [done|].
    unfold layout_ok, placed, is_word, lengths_low, BYTECODE_SIZE_MAX, sizeof_rbpf_application in *. lia.
  - by rewrite H4, Hra.
Qed.

(** Linking a new node behind the argument. *)
Lemma add_built b p s n f l2 ds1 da ds2 :
  built (b_vm b) l2 ds1 da ds2 -> is_Some (regions (b_vm b) !! p) -> p <> 0 ->
  p ∉ own (b_vm b) ++ arg_region (app (b_vm b)) :: l2 ->
  exists b', (init_region p s n f ;; add_region p) b = Ok (tt, b') /\
    app (b_vm b') = app (b_vm b) /\ mem (b_vm b') = mem (b_vm b) /\
    (forall q, is_Some (regions (b_vm b) !! q) <-> is_Some (regions (b_vm b') !! q)) /\
    built (b_vm b') (p :: l2) ds1 da ((s, n, f) :: ds2).
Proof.
  intros [Hlen Hm] Hp H0 Hnew.
  pose proof (mapped_init_out _ _ _ p s n f Hnew Hp Hm) as Hm1.
  set (m1 := with_regions (rbpf_memory_region_init p s n f (regions (b_vm b))) (b_vm b)) in *.
  destruct (mapped_add m1 (own m1) l2 ds1 da ds2 p (s, n, f)) as (m2 & E & Ha & Hmm & Hd & Hm2);
    [by rewrite Hlen|exact Hm1| |done|done|].
  { subst m1. cbn [regions with_regions]. rewrite desc_init by done. by rewrite decide_True. }
  exists (mkBench m2 (b_out b)). split.
  { unfold add_region, init_region, on_vm, modify, mbind, cmd_bind. cbn [b_vm b_out]. fold m1. by rewrite E. }
  cbn [b_vm]. split_and!; [done|done| |].
  - intros q. assert (forall h, is_Some (h !! q) <-> is_Some (desc h q)) as Hdesc.
    { intros h. unfold desc. by rewrite fmap_is_Some. }
    rewrite (Hdesc (regions m2)), Hd, <- Hdesc. subst m1. cbn [regions with_regions].
    unfold rbpf_memory_region_init. by rewrite lookup_alter_is_Some.
  - split; [done|]. unfold own in *. rewrite Ha. exact Hm2.
Qed.

Lemma setup_node m size q :
  is_Some (regions (rbpf_application_setup m rbpf_stack bytecode size) !! q) <-> is_Some (regions m !! q).
Proof. cbn. unfold set_next, rbpf_memory_region_init. by rewrite !lookup_alter_is_Some. Qed.

(** The application is built: its own regions, the argument and the bytecode. *)
Lemma load_application_ok size b :
  layout_ok -> lengths_low (mem (b_vm b)) -> frame_ok (b_vm b) ->
  exists b' da, load_application size b = Ok (tt, b') /\
    mem (b_vm b') = mem (b_vm b) /\
    app (b_vm b') = app (rbpf_application_setup (b_vm b) rbpf_stack bytecode size) /\
    is_Some (regions (b_vm b') !! callee_region) /\ keeps_objects (b_vm b) (b_vm b') /\
    built (b_vm b') [main_region] (own_regions (mem (b_vm b))) da [(bytecode, size, RBPF_MEM_REGION_READ)].
Proof.
  intros Hl Hh Hf. destruct (setup_built (b_vm b) size Hl Hh) as [da Hb]; [apply Hf|apply Hf|].
  set (b1 := mkBench (rbpf_application_setup (b_vm b) rbpf_stack bytecode size) (b_out b)).
  destruct (add_built b1 main_region bytecode size RBPF_MEM_REGION_READ _ _ _ _ Hb)
    as (b2 & E & Ha & Hm & Hr & Hb2); [by apply setup_node, Hf|apply Hf|apply Hf|].
  exists b2, da. split_and!; [exact E|done|done|by apply Hr, setup_node, Hf| |done].
  split; [by rewrite Ha|]. intros q Hq%Hr. by apply setup_node in Hq.
Qed.

(** ** What a run may change *)

Definition inside (a s n : Z) : Prop := s <= a < s + n.

(** The bytes the program and its virtual machine may write once the header in
    [mm] is loaded. *)
Definition reach (mm : memory) (a : Z) : Prop :=
  inside a rbpf_stack RBPF_STACK_SIZE \/ inside a (bytecode + 84) (data_length mm) \/
  inside a sockbuf_array (4 * ARRAY_LENGTH) \/ inside a integer_at 8 \/
  inside a ctx_at sizeof_sockbuf_ctx \/ inside a buf BUFFER_SIZE_MAX.

(** The context regions [main] uses, and those it may add. *)
Definition contexts : list (Z * Z) :=
  [(0, 0); (integer_at, 8); (ctx_at, sizeof_sockbuf_ctx); (ctx_at, sizeof_fletcher32_ctx)].
Definition read_only (d : region) : Prop := exists s n k,
  (s, k) ∈ [(bytecode, BYTECODE_SIZE_MAX); (buf, BUFFER_SIZE_MAX)] /\ n <= k /\
  d = (s, n, RBPF_MEM_REGION_READ).
Definition extra (d : region) : Prop := read_only d \/ d = (sockbuf_array, 4 * ARRAY_LENGTH, RW).

Lemma writes_reach mm c ds a :
  c ∈ contexts -> Forall extra ds -> writes (own_regions mm ++ (c, RW) :: ds) a -> reach mm a.
Proof.
  intros Hc Hds ([[s n] f] & Hd & Hin & Hw). cbn [fst snd] in *. rewrite elem_of_app, elem_of_cons in Hd. unfold reach, inside.
  destruct Hd as [Hd|[[= <- ->]|Hd]].
  - unfold own_regions in Hd. set_unfold in Hd. destruct Hd as [[= -> -> ->]|[[= -> -> ->]|[[= -> -> ->]|[]]]]; auto. done.
  - unfold contexts, sizeof_fletcher32_ctx, sizeof_sockbuf_ctx in *. set_unfold in Hc.
    destruct Hc as [[= -> ->]|[[= -> ->]|[[= -> ->]|[[= -> ->]|[]]]]]; lia.
  - rewrite Forall_forall in Hds. destruct (Hds _ Hd) as [(s' & n' & k & _ & _ & [= -> -> ->])|[= -> -> ->]]; [done|auto].
Qed.

Lemma context_low c : layout_ok -> c ∈ contexts -> low (c, RW).
Proof.
  intros Hl Hc. unfold layout_ok, placed, low, contexts, sizeof_fletcher32_ctx, sizeof_sockbuf_ctx in *.
  set_unfold in Hc. destruct Hc as [->|[->|[->|[->|[]]]]]; cbn [fst snd]; lia.
Qed.

(** The program itself writes memory. *)
Definition stores (G : Z -> Prop) b b' : Prop :=
  regions (b_vm b') = regions (b_vm b) /\ app (b_vm b') = app (b_vm b) /\ spares G (mem (b_vm b)) (mem (b_vm b')).

Lemma stores_refl G b : stores G b b.
Proof. split_and!; [done..|apply spares_refl]. Qed.
Lemma stores_trans G b1 b2 b3 : stores G b1 b2 -> stores G b2 b3 -> stores G b1 b3.
Proof. intros (H1 & H2 & H3) (H4 & H5 & H6). split_and!; [congruence..|by eapply spares_trans]. Qed.
Lemma stores_built G b b' l2 ds1 da ds2 : stores G b b' -> built (b_vm b) l2 ds1 da ds2 -> built (b_vm b') l2 ds1 da ds2.
Proof. intros (H1 & H2 & _). apply built_same; [done|by rewrite H2]. Qed.

Lemma store_stores G a n v b : (forall x, a <= x < a + Z.of_nat n -> G x) ->
  exists b', store a n v b = Ok (tt, b') /\ stores G b b'.
Proof. intros HG. eexists. split; [reflexivity|]. split_and!; [done..|]. by apply spares_wr_le. Qed.

Lemma printf_stores G x b : exists b', printf x b = Ok (tt, b') /\ stores G b b'.
Proof. eexists. split; [reflexivity|]. split_and!; [done..|apply spares_refl]. Qed.

Lemma clear_array_stores G k i b :
  (forall x, sockbuf_array + 4 * i <= x < sockbuf_array + 4 * (i + Z.of_nat k) -> G x) ->
  exists b', clear_array k i b = Ok (tt, b') /\ stores G b b'.
Proof.
  revert i b. induction k as [|k IH]; intros i b HG; cbn [clear_array]; [eexists; split; [reflexivity|apply stores_refl]|].
  destruct (store_stores G (sockbuf_array + 4 * i) 4 0 b) as (b1 & E1 & S1); [intros; apply HG; lia|].
  destruct (IH (i + 1) b1) as (b2 & E2 & S2); [intros; apply HG; lia|].
  exists b2. split; [|by eapply stores_trans]. by rewrite (cmd_bind_Ok _ _ _ _ _ E1).
Qed.

Lemma copy_file_stores G name to nbyte b : 0 <= nbyte -> (forall x, to <= x < to + nbyte -> G x) ->
  exists n b', copy_file_to name to nbyte b = Ok (n, b') /\ stores G b b' /\ n <= nbyte /\ (n < 0 \/ 0 <= n).
Proof.
  intros Hn HG. unfold copy_file_to. destruct (file_contents name) as [l|].
  - do 2 eexists. split; [reflexivity|]. pose proof (length_take l (Z.to_nat nbyte)).
    split_and!; [|lia|lia]. split_and!; [done..|]. apply spares_wr_bytes. intros; apply HG. lia.
  - do 2 eexists. split; [reflexivity|]. split_and!; [apply stores_refl|lia|lia].
Qed.

(** ** The kinds of context *)

(** A command has come to the runs: it goes on as [BPF_RUN_N] from [b1], with a
    context and regions of the program. *)
Definition goes_on (mm : memory) (c : bench -> res fault (Z * bench)) (fuel : nat) (n : Z) b : Prop :=
  exists b1 x result l2 da ds2, c b = BPF_RUN_N fuel n x.1 x.2 result b1 /\ x ∈ contexts /\
    Forall extra ds2 /\ Forall low ds2 /\ built (b_vm b1) l2 (own_regions mm) da ds2 /\
    app (b_vm b1) = app (b_vm b) /\ keeps_objects (b_vm b) (b_vm b1) /\
    spares (reach mm) (mem (b_vm b)) (mem (b_vm b1)).

(** It has printed why not. *)
Definition gives_up (mm : memory) (c : bench -> res fault (Z * bench)) b : Prop :=
  exists b', c b = Ok (1, b') /\ stores (reach mm) b b'.

Section Dispatch.
Variables (mm : memory) (size : Z) (b : bench) (da : region) (l2 : list Z).
Hypothesis Hlay : layout_ok.
Hypothesis Hsize : 0 <= size <= BYTECODE_SIZE_MAX.
Abbreviation code := (bytecode, size, RBPF_MEM_REGION_READ).
Hypothesis Hbuilt : built (b_vm b) [main_region] (own_regions mm) da [code].
Hypothesis Hcallee : is_Some (regions (b_vm b) !! callee_region).
Hypothesis Hnull : callee_region <> 0.
Hypothesis Hnew : callee_region ∉ own (b_vm b) ++ [arg_region (app (b_vm b)); main_region].

Lemma code_low : low code.
Proof. unfold layout_ok, placed, low in *. cbn [fst snd]. lia. Qed.

Lemma code_extra : extra code.
Proof using Hsize.
  left. exists bytecode, size, BYTECODE_SIZE_MAX. split_and!; [by left|apply Hsize|done].
Qed.

(** The runs of a context that needs no further region, after some stores. *)
Lemma goes_on_plain c fuel n b1 x result :
  c b = BPF_RUN_N fuel n x.1 x.2 result b1 -> x ∈ contexts -> stores (reach mm) b b1 -> goes_on mm c fuel n b.
Proof.
  intros E Hx Hs. exists b1, x, result, [main_region], da, [code]. destruct Hs as (Hr & Ha & Hs).
  split_and!; try done; [by constructor; [apply code_extra|constructor]|by constructor; [apply code_low|constructor]| |].
  - eapply built_same; [done|by rewrite Ha|done].
  - split; [by rewrite Ha|]. by rewrite Hr.
Qed.

(** The runs of a context with a region of its own. *)
Lemma goes_on_region c fuel n b1 ctx csize s k f :
  c b = (init_region callee_region s k f ;; add_region callee_region ;;
         bpf_run_with_context fuel n ctx csize) b1 ->
  (ctx, csize) ∈ contexts -> extra (s, k, f) -> low (s, k, f) -> stores (reach mm) b b1 -> goes_on mm c fuel n b.
Proof.
  intros E Hx He Hl (Hr & Ha & Hs).
  destruct (add_built b1 callee_region s k f [main_region] (own_regions mm) da [code])
    as (b2 & E2 & Ha2 & Hm2 & Hn2 & Hb2); [|by rewrite Hr|done|unfold own in *; by rewrite Ha|].
  { eapply built_same; [done|by rewrite Ha|done]. }
  exists b2, (ctx, csize), 0, [callee_region; main_region], da, [(s, k, f); code].
  split_and!; try done; [|by repeat (apply Forall_cons; split); [done|apply code_extra|constructor]| | | |by rewrite Hm2].
  - rewrite E, <- cmd_bind_assoc. by rewrite (cmd_bind_Ok _ _ _ _ _ E2).
  - repeat (apply Forall_cons; split); [done|apply code_low|constructor].
  - by rewrite Ha2.
  - split; [by rewrite Ha2, Ha|]. intros q Hq%Hn2. by rewrite Hr in Hq.
Qed.

(** A command that only prints and stops. *)
Lemma prints_gives_up x : gives_up mm (printf x ;; mret 1) b.
Proof. destruct (printf_stores (reach mm) x b) as (b' & E & S). exists b'. by rewrite (cmd_bind_Ok _ _ _ _ _ E). Qed.

Lemma integer_goes_on fuel n v : goes_on mm (bpf_run_with_integer fuel n v) fuel n b.
Proof.
  destruct (store_stores (reach mm) integer_at 8 v b) as (b1 & E & S).
  { intros x Hx. unfold reach, inside. lia. }
  apply (goes_on_plain _ _ _ b1 (integer_at, 8) result_before); [|set_solver|done].
  unfold bpf_run_with_integer. by rewrite (cmd_bind_Ok _ _ _ _ _ E).
Qed.

Lemma bpf_run_goes_on fuel n : goes_on mm (bpf_run fuel n) fuel n b.
Proof. apply (goes_on_plain _ _ _ b (0, 0) result_before); [done|set_solver|apply stores_refl]. Qed.

(** The stores in front of the region, before whatever follows. *)
Lemma sockbuf_fills (k : bench -> res fault (Z * bench)) :
  exists b1, stores (reach mm) b b1 /\
    (clear_array (Z.to_nat ARRAY_LENGTH) 0 ;; store ctx_at 4 100 ;; store (ctx_at + 4) 4 200 ;;
     store (ctx_at + 8) 4 9 ;; store (ctx_at + 16) 4 sockbuf_array ;; k) b = k b1.
Proof.
  destruct (clear_array_stores (reach mm) (Z.to_nat ARRAY_LENGTH) 0 b) as (b1 & E1 & S1).
  { intros x Hx. unfold reach, inside, ARRAY_LENGTH in *. lia. }
  assert (forall d v b, 0 <= d <= 20 -> exists b', store (ctx_at + d) 4 v b = Ok (tt, b') /\ stores (reach mm) b b') as Hst.
  { intros d v b' Hd. apply store_stores. intros x Hx. unfold reach, inside, sizeof_sockbuf_ctx. lia. }
  destruct (Hst 0 100 b1 ltac:(lia)) as (b2 & E2 & S2). rewrite Z.add_0_r in E2.
  destruct (Hst 4 200 b2 ltac:(lia)) as (b3 & E3 & S3).
  destruct (Hst 8 9 b3 ltac:(lia)) as (b4 & E4 & S4).
  destruct (Hst 16 sockbuf_array b4 ltac:(lia)) as (b5 & E5 & S5).
  exists b5. split; [eauto using stores_trans|].
  rewrite (cmd_bind_Ok _ _ _ _ _ E1), (cmd_bind_Ok _ _ _ _ _ E2), (cmd_bind_Ok _ _ _ _ _ E3).
  by rewrite (cmd_bind_Ok _ _ _ _ _ E4), (cmd_bind_Ok _ _ _ _ _ E5).
Qed.

Lemma sockbuf_region_low : low (sockbuf_array, 4 * ARRAY_LENGTH, RW).
Proof. unfold layout_ok, placed, low in *. cbn [fst snd]. unfold ARRAY_LENGTH in *. lia. Qed.

Lemma sockbuf_context : (ctx_at, sizeof_sockbuf_ctx) ∈ contexts.
Proof. unfold contexts. right. right. left. Qed.
Lemma sockbuf_extra : extra (sockbuf_array, 4 * ARRAY_LENGTH, RW).
Proof. right. reflexivity. Qed.

Lemma bpf_run_sockbuf_eq fuel n :
  bpf_run_sockbuf fuel n =
  (clear_array (Z.to_nat ARRAY_LENGTH) 0 ;; store ctx_at 4 100 ;; store (ctx_at + 4) 4 200 ;;
   store (ctx_at + 8) 4 9 ;; store (ctx_at + 16) 4 sockbuf_array ;;
   init_region callee_region sockbuf_array (4 * ARRAY_LENGTH) RW ;;
   add_region callee_region ;; bpf_run_with_context fuel n ctx_at sizeof_sockbuf_ctx).
Proof. reflexivity. Qed.

Lemma sockbuf_goes_on fuel n : goes_on mm (bpf_run_sockbuf fuel n) fuel n b.
Proof.
  rewrite bpf_run_sockbuf_eq.
  destruct (sockbuf_fills (init_region callee_region sockbuf_array (4 * ARRAY_LENGTH) RW ;;
    add_region callee_region ;; bpf_run_with_context fuel n ctx_at sizeof_sockbuf_ctx)) as (b1 & S & E).
  apply (goes_on_region _ _ _ b1 ctx_at sizeof_sockbuf_ctx sockbuf_array (4 * ARRAY_LENGTH) RW);
    [exact E|apply sockbuf_context|apply sockbuf_extra|apply sockbuf_region_low|exact S].
Qed.

Lemma fletcher32_ends fuel n argv :
  gives_up mm (bpf_run_fletcher32 fuel n argv) b \/ goes_on mm (bpf_run_fletcher32 fuel n argv) fuel n b.
Proof.
  unfold bpf_run_fletcher32. case_bool_decide as Hargc; [left; apply prints_gives_up|].
  unfold arg. destruct (argv !! 4%nat) as [w|] eqn:Hw; [|apply lookup_ge_None in Hw; lia].
  destruct (copy_file_stores (reach mm) w buf BUFFER_SIZE_MAX b) as (k & b1 & E1 & S1 & Hk & _).
  { done. } { intros x Hx. unfold reach, inside. auto 10. }
  destruct (printf_stores (reach mm) (if k <? 0 then DataFailed w else DataLoaded w buf) b1) as (b2 & E2 & S2).
  assert (bpf_load_file_to_buffer w b = Ok (k, b2)) as E.
  { unfold bpf_load_file_to_buffer. rewrite (cmd_bind_Ok _ _ _ _ _ E1). destruct (k <? 0); by rewrite (cmd_bind_Ok _ _ _ _ _ E2). }
  destruct (Z.ltb_spec k 0) as [Hneg|Hpos].
  { left. exists b2. split; [|by eapply stores_trans]. change (mret w) with (fun s : bench => Ok (E := fault) (w, s)).
    unfold mbind at 1, cmd_bind at 1. rewrite (cmd_bind_Ok _ _ _ _ _ E). destruct (Z.ltb_spec k 0); [done|lia]. }
  right.
  destruct (store_stores (reach mm) ctx_at 4 buf b2) as (b3 & E3 & S3).
  { intros x Hx. unfold reach, inside, sizeof_sockbuf_ctx. lia. }
  destruct (store_stores (reach mm) (ctx_at + 8) 4 (k / 2) b3) as (b4 & E4 & S4).
  { intros x Hx. unfold reach, inside, sizeof_sockbuf_ctx. lia. }
  apply (goes_on_region _ _ _ b4 ctx_at sizeof_fletcher32_ctx buf k RBPF_MEM_REGION_READ);
    [|set_solver|left; exists buf, k, BUFFER_SIZE_MAX; split_and!; [set_solver|lia|done]| |].
  - change (mret w) with (fun s : bench => Ok (E := fault) (w, s)). unfold mbind at 1, cmd_bind at 1.
    rewrite (cmd_bind_Ok _ _ _ _ _ E). destruct (Z.ltb_spec k 0); [lia|].
    by rewrite (cmd_bind_Ok _ _ _ _ _ E3), (cmd_bind_Ok _ _ _ _ _ E4).
  - unfold layout_ok, placed, low in *. cbn [fst snd]. lia.
  - eauto 10 using stores_trans.
Qed.

(** Every format ends in one of three ways. *)
Lemma dispatch_ends fuel n c argv :
  (4 <= length argv)%nat ->
  gives_up mm (dispatch fuel n c argv) b \/ goes_on mm (dispatch fuel n c argv) fuel n b \/
  (dispatch fuel n c argv b = Err PastArgv /\ length argv = 4%nat).
Proof.
  intros Hargc. unfold dispatch. case_bool_decide as Hc.
  - rewrite bool_decide_eq_false_2 by lia.
    destruct (argv !! 4%nat) as [w|] eqn:Hw.
    + destruct (number w) as [v|] eqn:Hv.
      * right; left. destruct (integer_goes_on fuel n (u32 v)) as (b1 & x & r & l & d & ds & E & H).
        exists b1, x, r, l, d, ds. split; [|done]. rewrite <- E. unfold arg, mbind, cmd_bind, mret, cmd_ret. by rewrite Hw, Hv.
      * left. destruct (lookup_lt_is_Some_2 argv 1 ltac:(lia)) as [w1 Hw1].
        destruct (prints_gives_up (BadInteger w1)) as (b' & E & S). exists b'. split; [|done]. rewrite <- E.
        unfold arg, mbind, cmd_bind, mret, cmd_ret. by rewrite Hw, Hv, Hw1.
    + right; right. unfold arg, mbind, cmd_bind. rewrite Hw. split; [done|]. apply lookup_ge_None in Hw. lia.
  - destruct (c =? CALLEE_INTERFACE_BITSWAP); [right; left; apply bpf_run_goes_on|].
    destruct (c =? CALLEE_INTERFACE_SOCKBUF); [right; left; apply sockbuf_goes_on|].
    destruct (c =? CALLEE_INTERFACE_FLETCHER32); [destruct (fletcher32_ends fuel n argv); auto|].
    left. apply prints_gives_up.
Qed.
End Dispatch.

(** ** The whole program *)

(** Memory after the bytecode file [name] is copied, and the bytes copied. *)
Definition code_bytes (name : list Z) : list Z := take (Z.to_nat BYTECODE_SIZE_MAX) (default [] (file_contents name)).
Definition loaded_mem (mm : memory) (name : list Z) : memory := wr_bytes mm bytecode (code_bytes name).

(** The machine with the application set up on it. *)
Definition boot m (name : list Z) : machine :=
  rbpf_application_setup (with_mem (loaded_mem (mem m) name) m) rbpf_stack bytecode (Z.of_nat (length (code_bytes name))).

(** The bytes the whole program may change. *)
Definition granted (mm : memory) (a : Z) : Prop := inside a bytecode BYTECODE_SIZE_MAX \/ reach mm a.

Lemma code_bytes_length name : Z.of_nat (length (code_bytes name)) <= BYTECODE_SIZE_MAX.
Proof. unfold code_bytes. rewrite length_take. unfold BYTECODE_SIZE_MAX. lia. Qed.

Lemma loaded_spares mm name : spares (granted (loaded_mem mm name)) mm (loaded_mem mm name).
Proof.
  apply spares_wr_bytes. intros x Hx. left. unfold inside. pose proof (code_bytes_length name). lia.
Qed.

Lemma stores_granted mm b b' : stores (reach mm) b b' -> spares (granted mm) (mem (b_vm b)) (mem (b_vm b')).
Proof. intros (_ & _ & H). eapply spares_mono; [|exact H]. intros a. by right. Qed.

(** The program has come to the runs. *)
Definition comes_to_run (fuel : nat) (argv : list (list Z)) b (name : list Z) : Prop :=
  let mm := loaded_mem (mem (b_vm b)) name in
  exists b1 n x result l2 da ds2, main fuel argv b = BPF_RUN_N fuel n x.1 x.2 result b1 /\ x ∈ contexts /\
    Forall extra ds2 /\ Forall low ds2 /\ built (b_vm b1) l2 (own_regions mm) da ds2 /\
    app (b_vm b1) = app (boot (b_vm b) name) /\ keeps_objects (boot (b_vm b) name) (b_vm b1) /\
    spares (reach mm) mm (mem (b_vm b1)).

(** [main] once there are enough arguments. *)
Lemma main_reads fuel argv b w1 name w3 :
  (4 <= length argv)%nat -> argv !! 1%nat = Some w1 -> argv !! 2%nat = Some name -> argv !! 3%nat = Some w3 ->
  main fuel argv b =
    match number w1 with
    | None => (printf (BadRunNumber w1) ;; mret 1) b
    | Some n =>
        (result ← copy_file_to name bytecode BYTECODE_SIZE_MAX;
        if result <? 0 then printf (CopyFailed name) ;; mret 1
        else
          printf (BytecodeLoaded name bytecode) ;;
          load_application result ;;
          match number w3 with
          | None => printf (BadFormatNumber w1) ;; mret 1
          | Some v => dispatch fuel (u32 n) (u8 v) argv
          end) b
    end.
Proof.
  intros Hargc H1 H2 H3. unfold main. rewrite bool_decide_eq_false_2 by lia.
  unfold arg, mbind at 1 2 3, cmd_bind at 1 2 3. rewrite H1, H2, H3. cbn [mret cmd_ret]. by destruct (number w1).
Qed.

(** Up to the format, when the file exists. *)
Lemma main_loads b name l (k : bench -> res fault (Z * bench)) :
  layout_ok -> frame_ok (b_vm b) -> file_contents name = Some l -> lengths_low (loaded_mem (mem (b_vm b)) name) ->
  exists b1 da, 
    (result ← copy_file_to name bytecode BYTECODE_SIZE_MAX;
     if result <? 0 then printf (CopyFailed name) ;; mret 1
     else printf (BytecodeLoaded name bytecode) ;; load_application result ;; k) b = k b1 /\
    mem (b_vm b1) = loaded_mem (mem (b_vm b)) name /\ app (b_vm b1) = app (boot (b_vm b) name) /\
    is_Some (regions (b_vm b1) !! callee_region) /\ keeps_objects (boot (b_vm b) name) (b_vm b1) /\
    built (b_vm b1) [main_region] (own_regions (loaded_mem (mem (b_vm b)) name)) da
      [(bytecode, Z.of_nat (length (code_bytes name)), RBPF_MEM_REGION_READ)].
Proof.
  intros Hl Hf Hfile Hlow. assert (code_bytes name = take (Z.to_nat BYTECODE_SIZE_MAX) l) as Hbytes.
  { unfold code_bytes. by rewrite Hfile. }
  set (b0 := mkBench (with_mem (loaded_mem (mem (b_vm b)) name) (b_vm b)) (b_out b ++ [BytecodeLoaded name bytecode])).
  destruct (load_application_ok (Z.of_nat (length (code_bytes name))) b0 Hl Hlow) as (b1 & da & E & Hm & Ha & Hc & Ho & Hb).
  { destruct Hf. by constructor. }
  exists b1, da. split_and!; [|done..| |done].
  2: { split; [by rewrite Ha|]. intros q Hq%Ho. by apply setup_node. }
  unfold copy_file_to. rewrite Hfile, <- Hbytes. unfold mbind at 1, cmd_bind at 1.
  change ((on_vm ?f ;; mret ?n) b) with (Ok (E := fault) (n, mkBench (f (b_vm b)) (b_out b))).
  cbv beta iota. rewrite (proj2 (Z.ltb_ge (Z.of_nat (length (code_bytes name))) 0)) by lia.
  exact (cmd_bind_Ok _ (fun _ => k) _ _ _ E).
Qed.

Lemma main_ends fuel argv b name :
  layout_ok -> frame_ok (b_vm b) -> argv !! 2%nat = Some name -> lengths_low (loaded_mem (mem (b_vm b)) name) ->
  (exists b', main fuel argv b = Ok (1, b') /\
     spares (granted (loaded_mem (mem (b_vm b)) name)) (mem (b_vm b)) (mem (b_vm b'))) \/
  comes_to_run fuel argv b name \/
  (main fuel argv b = Err PastArgv /\ length argv = 4%nat).
Proof.
  intros Hl Hf H2 Hlow. set (mm := loaded_mem (mem (b_vm b)) name) in *.
  destruct (decide (length argv < 4)%nat) as [Hargc|Hargc].
  { left. unfold main. rewrite bool_decide_eq_true_2 by done. eexists. split; [reflexivity|apply spares_refl]. }
  destruct (lookup_lt_is_Some_2 argv 1 ltac:(lia)) as [w1 H1]. destruct (lookup_lt_is_Some_2 argv 3 ltac:(lia)) as [w3 H3].
  unfold comes_to_run. rewrite (main_reads fuel argv b w1 name w3) by (done || lia). fold mm.
  destruct (number w1) as [n|]; [|left; eexists; split; [reflexivity|apply spares_refl]].
  destruct (file_contents name) as [l|] eqn:Hfile.
  2: { left. unfold copy_file_to. rewrite Hfile. eexists. split; [reflexivity|apply spares_refl]. }
  match goal with |- context [load_application _ ;; ?k] => set (rest := k) end.
  destruct (main_loads b name l rest Hl Hf Hfile Hlow) as (b1 & da & E & Hm & Ha & Hc & Ho & Hb). fold mm in Hm, Hb.
  rewrite E. clear E. subst rest.
  assert (spares (granted mm) (mem (b_vm b)) (mem (b_vm b1))) as S0 by (rewrite Hm; apply loaded_spares).
  destruct (number w3) as [v|]; [|left; eexists; split; [reflexivity|exact S0]].
  edestruct (dispatch_ends mm (Z.of_nat (length (code_bytes name))) b1 da)
    as [(b' & E & S)|[(b2 & x & r & l2 & d & ds & E & R)|[E Hargs]]]; [exact Hl| |exact Hb|exact Hc|apply Hf| | | | |].
  - split; [lia|apply code_bytes_length].
  - destruct Hf. unfold own in *. rewrite Ha. done.
  - apply Nat.nlt_ge, Hargc.
  - left. exists b'. split; [exact E|]. eapply spares_trans; [exact S0|by apply stores_granted].
  - right; left. exists b2, (u32 n), x, r, l2, d, ds. split; [exact E|]. rewrite Hm, Ha in R.
    destruct R as (R1 & R2 & R3 & R4 & R5 & R6 & R7). split_and!; try done. by eapply keeps_objects_trans.
  - right; right. by split.
Qed.
End Spec.
