(* ===== verification/BenchRun.v ===== *)
(** * The end of the benchmark program

    What [main] can change, and that it ends: on a text the interpreter is safe
    on, every run of the loop returns and leaves the text as it was for the next. *)

From stdpp Require Import base gmap list.
From Stdlib Require Import ZArith Lia.
From S2P Require Import Prelude RbpfIsa Rbpf RbpfVerify RbpfEngine RbpfSafety Bench BenchSpec.

Local Open Scope Z_scope.

(** ** The same code in another memory *)

(** [m'] has the header and the text of [m]. *)
Definition same_code (m m' : machine) : Prop :=
  application (app m') = application (app m) /\
  rbpf_application_text m' = rbpf_application_text m /\
  rbpf_application_text_len m' = rbpf_application_text_len m /\
  same_on (mem m) (mem m') (rbpf_application_text m)
    (rbpf_application_text m + rbpf_application_text_len m).

Section SameCode.
Variables m m' : machine.
Hypothesis Hsame : same_code m m'.

Lemma same_text_low : text_low m -> text_low m'.
Proof using Hsame. destruct Hsame as (_ & Ht & Hn & _). unfold text_low. by rewrite Ht, Hn. Qed.

Lemma same_text_size : text_size m' = text_size m.
Proof using Hsame. destruct Hsame as (_ & Ht & Hn & _). unfold text_size. by rewrite Hn. Qed.

Lemma same_insn_at k : text_low m -> 0 <= k < text_size m -> insn_at m' k = insn_at m k.
Proof using Hsame.
  intros Hlow Hk. destruct (text_size_le m) as [Hlen _]. destruct Hsame as (_ & Ht & _ & Hm).
  unfold insn_at. rewrite Ht. apply fetch_ext. eapply same_on_weaken; [exact Hm|..]; unfold sizeof_bpf_instruction; lia.
Qed.

Lemma same_safe_text B : text_low m -> safe_text m B = true -> safe_text m' B = true.
Proof using Hsame.
  unfold safe_text. rewrite !andb_true_iff, !forallb_forall. intros Hlow [H0 H]. split; [done|].
  intros k Hk. specialize (H k Hk). rewrite same_text_size.
  rewrite same_insn_at; [exact H|done|]. rewrite !andb_true_iff in H. lia.
Qed.
End SameCode.

(** ** The flags of the application across a run *)

Lemma preflight_flags m r m' f :
  Z.land RBPF_FLAG_PREFLIGHT_DONE f = 0 -> rbpf_application_verify_preflight m = Some (r, m') ->
  has_flag (flags (app m')) f = has_flag (flags (app m)) f.
Proof.
  intros Hf. unfold rbpf_application_verify_preflight. intros H.
  repeat (case_match || (destruct (verify_loop _ _ _ _ _); cbn in H) || simplify_eq); cbn; try done; by apply has_flag_lor.
Qed.

Lemma engine_run_flags fuel m m' ctx code result l f :
  Z.land RBPF_FLAG_PREFLIGHT_DONE f = 0 -> regions_ok m l ->
  rbpf_engine_run fuel m ctx = Returned code result m' ->
  has_flag (flags (app m')) f = has_flag (flags (app m)) f.
Proof.
  unfold rbpf_engine_run. intros Hf Hreg Hrun.
  destruct (rbpf_application_verify_preflight _) as [[r m1]|] eqn:Hp; [|done].
  pose proof (preflight_flags _ _ _ _ Hf Hp) as Hfl.
  apply preflight_frame in Hp as (Hr & _ & Hs & _). cbn in Hr, Hs.
  destruct (r <? 0); [by injection Hrun as <- <- <-|].
  destruct (run_loop _ _) as [c s| |] eqn:Hl; try done. injection Hrun as <- <- <-.
  apply (run_loop_confined _ _ _ _ l) in Hl as [(_ & _ & _ & _ & _ & E) _].
  - cbn in E. by rewrite E.
  - destruct Hreg. unfold regions_ok, stack_region in *. cbn. by rewrite Hr, Hs.
Qed.

(** ** The loop of runs *)

Section Run.
Context `{HL : Layout} `{HF : Files}.
Implicit Types (b : bench).

(** No region lets the program write its text. *)
Definition code_apart (M : machine) : Prop :=
  forall a, inside a (rbpf_application_text M) (rbpf_application_text_len M) -> ~ reach (mem M) a.

(** The struct of the application and the region nodes lie apart from the other
    objects of the program, from what the header of the bytecode claims as data,
    as read-only data and as text, and from the 2 GiB address. *)
Definition program_apart (M : machine) : Prop :=
  forall a, object_byte M a -> ~ near_2G a /\ ~ granted (mem M) a /\
    ~ inside a (bytecode + 84 + data_length (mem M)) (rodata_length (mem M)) /\
    ~ inside a (rbpf_application_text M) (rbpf_application_text_len M).

(** The header of the bytecode is out of reach of the program's stores. *)
Lemma header_unreached mm a : layout_ok -> inside a bytecode sizeof_rbpf_header -> ~ reach mm a.
Proof.
  unfold layout_ok, inside, reach, sizeof_rbpf_header, BYTECODE_SIZE_MAX.
  intros (_ & _ & _ & _ & _ & _ & H) Ha. rewrite !Forall_cons in H. unfold inside. lia.
Qed.

Section Loop.
Variables (M : machine) (B : list Z) (x : Z * Z) (l2 : list Z) (ds2 : list region).
Hypothesis Hlay : layout_ok.
Hypothesis Happ : application (app M) = bytecode.
Hypothesis Hlengths : lengths_low (mem M).
Hypothesis Hctx : x ∈ contexts.
Hypothesis Hextra : Forall extra ds2.
Hypothesis Hlow2 : Forall low ds2.
Hypothesis Hobjects : program_apart M.

(** The state between two runs. *)
Record steady b : Prop := mkSteady {
  st_built : exists da, built (b_vm b) l2 (own_regions (mem M)) da ds2;
  st_app : application (app (b_vm b)) = bytecode;
  st_objects : keeps_objects M (b_vm b);
  st_mem : spares (reach (mem M)) (mem M) (mem (b_vm b))
}.

Lemma run_regions_low : Forall low (own_regions (mem M) ++ (x.1, x.2, RW) :: ds2).
Proof using Hlay Hlengths Hctx Hlow2.
  apply Forall_app. split; [by apply own_regions_low|]. constructor; [|done].
  rewrite <- surjective_pairing. by apply context_low.
Qed.

Lemma run_writes a : writes (own_regions (mem M) ++ (x.1, x.2, RW) :: ds2) a -> reach (mem M) a.
Proof using Hctx Hextra. rewrite <- surjective_pairing. by apply writes_reach. Qed.

(** Every region of a run is an object of the program or claimed by the header. *)
Lemma run_region_inside d a :
  d ∈ own_regions (mem M) ++ (x.1, x.2, RW) :: ds2 -> d.1.1 <= a < d.1.1 + d.1.2 ->
  granted (mem M) a \/ inside a (bytecode + 84 + data_length (mem M)) (rodata_length (mem M)).
Proof using Hctx Hextra.
  rewrite <- surjective_pairing. intros Hd Ha. destruct d as [[s n] f]. cbn [fst snd] in Ha.
  rewrite elem_of_app, elem_of_cons in Hd. unfold granted, reach, inside.
  destruct Hd as [Hd|[[= <- ->]|Hd]].
  - unfold own_regions in Hd. set_unfold in Hd. destruct Hd as [[= -> -> ->]|[[= -> -> ->]|[[= -> -> ->]|[]]]]; auto.
  - unfold contexts, sizeof_fletcher32_ctx, sizeof_sockbuf_ctx in *. set_unfold in Hctx.
    destruct Hctx as [[= -> ->]|[[= -> ->]|[[= -> ->]|[[= -> ->]|[]]]]]; lia.
  - rewrite Forall_forall in Hextra. left.
    destruct (Hextra _ Hd) as [(s' & n' & k & Hk & Hle & [= -> -> ->])|[= -> -> ->]]; [|auto].
    set_unfold in Hk. destruct Hk as [[= -> ->]|[[= -> ->]|[]]]; [left; lia|right; do 5 right; lia].
Qed.

(** The header is the one [main] has loaded. *)
Lemma steady_header b : steady b ->
  rbpf_application_text (b_vm b) = rbpf_application_text M /\
  rbpf_application_text_len (b_vm b) = rbpf_application_text_len M.
Proof using Hlay Happ.
  intros Hs. assert (bytecode + BYTECODE_SIZE_MAX < 2 ^ 31 /\ 0 <= bytecode) as [Hb1 Hb0]
    by (unfold layout_ok, placed in Hlay; lia).
  unfold BYTECODE_SIZE_MAX in Hb1.
  assert (same_on (mem M) (mem (b_vm b)) bytecode (bytecode + sizeof_rbpf_header)) as Hh.
  { eapply spares_same_on; [apply Hs|]. intros a Ha. split; [by apply header_unreached|].
    unfold near_2G, sizeof_rbpf_header in *. lia. }
  assert (forall d, 0 <= d <= 24 -> rd32 (mem (b_vm b)) (u32 (bytecode + d)) = rd32 (mem M) (u32 (bytecode + d))) as Hrd.
  { intros d Hd. unfold sizeof_rbpf_header in *. rewrite wrap_small by (unfold is_word; lia).
    apply rd_le_ext. eapply same_on_weaken; [exact Hh|lia|lia]. }
  split.
  - unfold rbpf_application_text, hdr_data_len, hdr_rodata_len.
    by rewrite Happ, (st_app _ Hs), !Hrd by lia.
  - unfold rbpf_application_text_len, hdr_text_len. by rewrite Happ, (st_app _ Hs), !Hrd by lia.
Qed.

Lemma ready_ok b : steady b ->
  regions_ok (ready (b_vm b) x.1 x.2) (own (b_vm b) ++ arg_region (app (b_vm b)) :: l2) /\
  objects_apart (ready (b_vm b) x.1 x.2) (own (b_vm b) ++ arg_region (app (b_vm b)) :: l2).
Proof using Hlay Happ Hlengths Hctx Hextra Hlow2 Hobjects.
  intros Hs. destruct (st_built _ Hs) as [da Hb].
  pose proof (ready_built _ _ _ _ _ x.1 x.2 Hb) as [_ Hm].
  split; [by eapply mapped_ok, run_regions_low|]. intros a Ho.
  assert (object_byte M a) as HoM.
  { eapply keeps_object_byte; [|exact Ho]. eapply keeps_objects_trans; [apply Hs|apply region_init_objects]. }
  destruct (Hobjects a HoM) as (H2G & Hgr & Hro & Htx). destruct (steady_header b Hs) as [Et En].
  split_and!; [done| |].
  - intros [Hh|Ht].
    + change (application (app (ready (b_vm b) x.1 x.2))) with (application (app (b_vm b))) in Hh.
      rewrite (st_app _ Hs) in Hh. apply Hgr. left. unfold inside, BYTECODE_SIZE_MAX, sizeof_rbpf_header in *. lia.
    + change (rbpf_application_text (b_vm b) <= a < rbpf_application_text (b_vm b) + rbpf_application_text_len (b_vm b)) in Ht.
      rewrite Et, En in Ht. by apply Htx.
  - apply Forall_forall. intros r Hr Hin. eapply mapped_node in Hr; [|exact Hm].
    destruct (run_region_inside _ a Hr Hin); auto.
Qed.

Lemma run_ctx_steady fuel b r b' : steady b -> run_ctx fuel x.1 x.2 b = Ok (r, b') -> steady b'.
Proof using Hlay Hlengths Hctx Hextra Hlow2.
  intros Hs E. destruct (st_built _ Hs) as [da Hb].
  destruct (run_ctx_keeps _ _ _ _ _ _ _ _ _ _ Hb run_regions_low E) as (Hr & Hse & Ha & Hsp).
  constructor.
  - eexists. exact (run_ctx_built _ _ _ _ _ _ _ _ _ _ Hb run_regions_low E).
  - by rewrite Ha, (st_app _ Hs).
  - eapply keeps_objects_trans; [apply Hs|]. split; [done|]. rewrite Hr. apply region_init_objects.
  - eapply spares_trans; [apply Hs|]. eapply spares_mono; [apply run_writes|exact Hsp].
Qed.

(** No run reaches the struct or a node. *)
Lemma run_n_objects fuel k status result b :
  steady b -> run_n fuel k x.1 x.2 status result b <> Err (EngineUndefined UB_object).
Proof using Hlay Happ Hlengths Hctx Hextra Hlow2 Hobjects.
  revert status result b. induction k as [|k IH]; intros status result b Hs; cbn [run_n]; [done|].
  case_match; [|done]. unfold mbind, cmd_bind.
  destruct (run_ctx fuel x.1 x.2 b) as [[r b1]|e] eqn:E; [apply IH; by eapply run_ctx_steady|].
  intros [= ->]. destruct (ready_ok b Hs) as [Hok Hap].
  apply (engine_run_objects fuel (ready (b_vm b) x.1 x.2) x.1 _ Hok Hap).
  unfold run_ctx, rbpf_application_run_ctx in E. fold RW in E. fold (ready (b_vm b) x.1 x.2) in E.
  destruct (has_flag _ _); [|done]. by destruct (rbpf_engine_run _ _ _); simplify_eq.
Qed.

Lemma BPF_RUN_N_objects fuel n result b :
  steady b -> BPF_RUN_N fuel n x.1 x.2 result b <> Err (EngineUndefined UB_object).
Proof using Hlay Happ Hlengths Hctx Hextra Hlow2 Hobjects.
  intros Hs. unfold BPF_RUN_N, mbind, cmd_bind.
  pose proof (run_n_objects fuel (Z.to_nat n) RBPF_OK result b Hs) as H.
  destruct (run_n _ _ _ _ _ _ _) as [[r b1]|e]; [|congruence].
  unfold bpf_print_result. by repeat case_match.
Qed.

(** ** Safe texts *)

Hypothesis Htext : text_low M.
Hypothesis Hsafe : safe_text M B = true.
Hypothesis Hapart : code_apart M.

Record going b : Prop := mkGoing {
  go_steady : steady b;
  go_setup : has_flag (flags (app (b_vm b))) RBPF_FLAG_SETUP_DONE = true;
  go_return : has_flag (flags (app (b_vm b))) RBPF_CONFIG_NO_RETURN = false
}.

Lemma going_code b : steady b -> same_code M (b_vm b).
Proof using Hlay Happ Htext Hapart.
  intros Hs. destruct (steady_header b Hs) as [Et En]. destruct Htext as (Ht8 & Ht).
  assert (0 <= rbpf_application_text_len M) as Hn by apply rd32_range.
  split_and!; [by rewrite (st_app _ Hs)|done|done|].
  eapply spares_same_on; [apply Hs|]. intros a Ha. split; [by apply Hapart|]. unfold near_2G. lia.
Qed.

Lemma run_ctx_total b : going b ->
  (exists r b', run_ctx (run_fuel M) x.1 x.2 b = Ok (r, b') /\ going b') \/
  (exists u, run_ctx (run_fuel M) x.1 x.2 b = Err (EngineUndefined u) /\ arithmetic_ub u).
Proof using All.
  intros Hg. pose proof (go_steady _ Hg) as Hs. destruct (st_built _ Hs) as [da Hb].
  pose proof (ready_built _ _ _ _ _ x.1 x.2 Hb) as [_ Hm]. destruct (ready_ok b Hs) as [Hok Hap].
  set (R := ready (b_vm b) x.1 x.2) in *.
  assert (same_code M R) as Hsc by exact (going_code b Hs).
  assert (run_fuel M = run_fuel R) as Hfuel by (unfold run_fuel; by rewrite (same_text_size M R Hsc)).
  assert (run_ctx (run_fuel M) x.1 x.2 b = match rbpf_engine_run (run_fuel R) R x.1 with
    | Returned code result m => Ok ((code, result), mkBench m (b_out b))
    | RunUndefined u => Err (EngineUndefined u)
    | RunOutOfFuel => Err EngineRuns
    | AssertFailed => Err EngineAssert
    end) as Erun.
  { unfold run_ctx, rbpf_application_run_ctx. fold RW. fold (ready (b_vm b) x.1 x.2). fold R.
    change (flags (app R)) with (flags (app (b_vm b))). by rewrite (go_setup _ Hg), Hfuel. }
  destruct (engine_returns R _ B x.1 Hok Hap) as [(code & result & m' & E & _)|(u & E & Hu)].
  - by eapply same_text_low.
  - intros a Ha Hw. eapply mapped_writes in Hw; [|exact Hm]. apply run_writes in Hw. revert Hw.
    destruct Hsc as (_ & Et & En & _). rewrite Et, En in Ha. by apply Hapart.
  - by eapply same_safe_text.
  - apply Hg.
  - left. rewrite E in Erun. do 2 eexists. split; [exact Erun|]. constructor; cbn [b_vm].
    + exact (run_ctx_steady _ _ _ _ Hs Erun).
    + by rewrite (engine_run_flags _ _ _ _ _ _ _ RBPF_FLAG_SETUP_DONE eq_refl Hok E), <- (go_setup _ Hg).
    + by rewrite (engine_run_flags _ _ _ _ _ _ _ RBPF_CONFIG_NO_RETURN eq_refl Hok E), <- (go_return _ Hg).
  - right. exists u. split; [|done]. by rewrite Erun, E.
Qed.

Lemma run_n_total k status result b : going b ->
  (exists r b', run_n (run_fuel M) k x.1 x.2 status result b = Ok (r, b')) \/
  (exists u, run_n (run_fuel M) k x.1 x.2 status result b = Err (EngineUndefined u) /\ arithmetic_ub u).
Proof using All.
  revert status result b. induction k as [|k IH]; intros status result b Hg; cbn [run_n]; [left; by do 2 eexists|].
  case_match; [|left; by do 2 eexists].
  destruct (run_ctx_total b Hg) as [(r & b1 & E & Hg1)|(u & E & Hu)].
  - rewrite (cmd_bind_Ok _ _ _ _ _ E). by apply IH.
  - right. exists u. split; [|done]. unfold mbind, cmd_bind. by rewrite E.
Qed.

Lemma BPF_RUN_N_total n result b : going b ->
  (exists r b', BPF_RUN_N (run_fuel M) n x.1 x.2 result b = Ok (r, b')) \/
  (exists u, BPF_RUN_N (run_fuel M) n x.1 x.2 result b = Err (EngineUndefined u) /\ arithmetic_ub u).
Proof using All.
  intros Hg. unfold BPF_RUN_N. destruct (run_n_total (Z.to_nat n) RBPF_OK result b Hg) as [(r & b1 & E)|(u & E & Hu)].
  - left. rewrite (cmd_bind_Ok _ _ _ _ _ E). unfold bpf_print_result. repeat case_match; by do 2 eexists.
  - right. exists u. split; [|done]. unfold mbind, cmd_bind. by rewrite E.
Qed.
End Loop.

(** ** main *)

(** The bytecode file the arguments name. *)
Definition code_file (argv : list (list Z)) : list Z := default [] (argv !! 2%nat).

(** Where [main] starts its runs, the state is steady. *)
Lemma comes_to_run_steady b b1 name l2 da ds :
  built (b_vm b1) l2 (own_regions (loaded_mem (mem (b_vm b)) name)) da ds ->
  app (b_vm b1) = app (boot (b_vm b) name) -> keeps_objects (boot (b_vm b) name) (b_vm b1) ->
  spares (reach (loaded_mem (mem (b_vm b)) name)) (loaded_mem (mem (b_vm b)) name) (mem (b_vm b1)) ->
  steady (boot (b_vm b) name) l2 ds b1.
Proof. intros Hb Ha Ho Hs. constructor; [by eexists|by rewrite Ha|done|exact Hs]. Qed.

(** C4: Isolation of the whole program.  The assumptions: the objects of the program
    lie below 2 GiB, the bytecode buffer apart from the others (layout_ok); the
    variables of [main] hold anything, except that the link of the argument
    region is null (frame_ok); the regions the header of the bytecode asks for
    end below 2 GiB (lengths_low); and the application struct and the region
    nodes lie apart from the other objects and from what the header claims as
    data, read-only data and text (program_apart).  Then no run reaches the
    struct or a node through an access the check grants, and when [main] returns
    it returns 0 or 1 and has left every byte alone but those of its buffers, its
    context, the stack of the virtual machine and the data region the header of
    the bytecode asks for (and the bytes next to the 2 GiB address). *)
Theorem main_isolated fuel argv b :
  layout_ok -> frame_ok (b_vm b) -> lengths_low (loaded_mem (mem (b_vm b)) (code_file argv)) ->
  program_apart (boot (b_vm b) (code_file argv)) ->
  main fuel argv b <> Err (EngineUndefined UB_object) /\
  forall code b', main fuel argv b = Ok (code, b') ->
    (code = 0 \/ code = 1) /\
    forall a, rd8 (mem (b_vm b')) a = rd8 (mem (b_vm b)) a \/
      granted (loaded_mem (mem (b_vm b)) (code_file argv)) a \/ near_2G a.
Proof.
  intros Hl Hf Hlow Hobj. unfold code_file in *. destruct (argv !! 2%nat) as [name|] eqn:H2; cbn [default from_option id] in *.
  - destruct (main_ends fuel argv b name Hl Hf H2 Hlow) as [(b1 & E1 & S)|[(b1 & n & x & r & l2 & da & ds & E1 & Hx & He & Hl2 & Hb & Ha & Ho & S)|[E1 _]]]; rewrite E1.
    + split; [done|]. intros code b' [= <- <-]. auto.
    + pose proof (comes_to_run_steady b b1 name l2 da ds Hb Ha Ho S) as Hst.
      split; [by apply (BPF_RUN_N_objects (boot (b_vm b) name) x l2 ds Hl eq_refl Hlow Hx He Hl2 Hobj)|].
      intros code b' E.
      destruct (BPF_RUN_N_spares _ _ _ _ _ _ _ _ _ _ _ _ Hb (run_regions_low (boot (b_vm b) name) x ds Hl Hlow Hx Hl2) E) as [S' Hc].
      split; [done|]. eapply spares_trans; [apply loaded_spares|]. apply (spares_mono (reach (loaded_mem (mem (b_vm b)) name))); [by right|].
      eapply spares_trans; [exact S|]. eapply spares_mono; [|exact S'].
      apply (run_writes (boot (b_vm b) name) x ds Hx He).
    + done.
  - apply lookup_ge_None in H2. unfold main. rewrite bool_decide_eq_true_2 by lia.
    split; [done|]. intros code b' [= <- <-]. split; [by right|]. intros a. by left.
Qed.

(** C9: The program ends.  Besides the assumptions of the isolation theorem: the text
    of the bytecode file lies below 2 GiB, is closed under control flow from its
    first slot and names only existing registers (safe_text, which the verifier
    alone does not establish), and is out of reach of the program's stores
    (code_apart); and the flags do not exempt the application from the final
    return.  Then [main] returns, whatever number of runs it is asked for, or
    stops at an operand error of the arithmetic; reading past the arguments
    happens only with exactly three of them. *)
Theorem main_returns argv b B :
  layout_ok -> frame_ok (b_vm b) -> lengths_low (loaded_mem (mem (b_vm b)) (code_file argv)) ->
  has_flag (flags (app (b_vm b))) RBPF_CONFIG_NO_RETURN = false ->
  let M := boot (b_vm b) (code_file argv) in
  program_apart M -> text_low M -> safe_text M B = true -> code_apart M ->
  (exists code b', main (run_fuel M) argv b = Ok (code, b')) \/
  (exists u, main (run_fuel M) argv b = Err (EngineUndefined u) /\ arithmetic_ub u) \/
  (main (run_fuel M) argv b = Err PastArgv /\ length argv = 4%nat).
Proof.
  intros Hl Hf Hlow Hret M Hobj Htext Hsafe Hapart. unfold code_file in *.
  destruct (argv !! 2%nat) as [name|] eqn:H2; cbn [default from_option id] in *.
  - destruct (main_ends (run_fuel M) argv b name Hl Hf H2 Hlow) as [(b1 & E1 & S)|[(b1 & n & x & r & l2 & da & ds & E1 & Hx & He & Hl2 & Hb & Ha & Ho & S)|?]]; [eauto| |auto].
    rewrite E1.
    destruct (BPF_RUN_N_total M B x l2 ds Hl eq_refl Hlow Hx He Hl2 Hobj Htext Hsafe Hapart n r b1) as [(c & b2 & E2)|?]; [|eauto|auto].
    constructor; [exact (comes_to_run_steady b b1 name l2 da ds Hb Ha Ho S)|rewrite Ha|rewrite Ha].
    + cbn. unfold has_flag. rewrite Z.land_lor_distr_l. change (Z.land RBPF_FLAG_SETUP_DONE RBPF_FLAG_SETUP_DONE) with 1.
      apply negb_true_iff, Z.eqb_neq. rewrite Z.lor_eq_0_iff. lia.
    + cbn. by rewrite has_flag_lor.
  - left. apply lookup_ge_None in H2. unfold main. rewrite bool_decide_eq_true_2 by lia. by do 2 eexists.
Qed.
End Run.
