(* ===== verification/BenchDemo.v ===== *)
(** * Executions of the benchmark program

    A layout and files for which the hypotheses of the theorems hold, and runs that
    show what the variables [main] leaves unassigned and the header it does not
    check can do. *)

From stdpp Require Import base gmap list.
From Stdlib Require Import ZArith Lia.
From S2P Require Import Prelude RbpfIsa Rbpf RbpfVerify RbpfEngine RbpfSafety RbpfDemo Bench BenchSpec BenchRun.

Local Open Scope Z_scope.

Instance demo_layout : Layout := {|
  buf := 0x20002000; rbpf_stack := stack_addr; bytecode := image_addr; sockbuf_array := 0x20003000;
  main_region := 0x20004000; callee_region := 0x20004010; integer_at := 0x20004100;
  ctx_at := 0x20004200; result_before := 0x1234
|}.

(** The words of a command line. *)
Definition w_prog : list Z := [114].        (* r *)
Definition w_sum : list Z := [115].         (* s *)
Definition w_incr : list Z := [105].        (* i *)
Definition w_far : list Z := [102].         (* f *)
Definition w_bad : list Z := [98].          (* b *)
Definition w_num (d : Z) : list Z := [48 + d].

(** r0 := the integer of the context plus one. *)
Definition incr_prog : list (list Z) :=
  [ asm 0x61 0 1 0 0;        (* ldxw r0, [r1] *)
    asm 0x07 0 0 0 1;        (* add r0, 1 *)
    asm 0x95 0 0 0 0 ].      (* exit *)

(** A byte that belongs to none of the objects of the program. *)
Definition victim : Z := image_addr + 2000.

(** Stores a byte there, and says in its header that this is its data. *)
Definition far_prog : list (list Z) :=
  [ asm 0xb7 1 0 0 victim;   (* mov r1, victim *)
    asm 0x72 1 0 0 77;       (* stb [r1], 77 *)
    asm 0xb7 0 0 0 0;
    asm 0x95 0 0 0 0 ].
Definition far_image : list Z :=
  take 12 (image [] far_prog) ++ le32 4096 ++ le32 (2 ^ 32 - 4096) ++ drop 20 (image [] far_prog).

(** A text the verifier rejects: its last instruction is not a return. *)
Definition bad_prog : list (list Z) :=
  [ asm 0xb7 0 0 0 5; asm 0x95 0 0 0 0; asm 0xb7 0 0 0 0 ].

Instance demo_files : Files := {|
  file_contents := fun name =>
    if bool_decide (name = w_sum) then Some (image [] sum_prog)
    else if bool_decide (name = w_incr) then Some (image [] incr_prog)
    else if bool_decide (name = w_far) then Some far_image
    else if bool_decide (name = w_bad) then Some (image [] bad_prog)
    else None
|}.

(** The variables of [main] with [flags] and the link of the argument as found. *)
Definition found (flags link : Z) : bench :=
  mkBench {| app := {| self := rbpf_addr; application := 0; application_len := 0; stack := 0;
                       flags := flags; branches_remaining := 0 |};
             regions := list_to_map [(rbpf_addr, blank_region); (rbpf_addr + 16, blank_region);
               (rbpf_addr + 32, blank_region);
               (rbpf_addr + 48, {| next := link; start := 7; len := 7; r_flags := 7 |});
               (0x20004000, blank_region); (0x20004010, blank_region)];
             mem := ∅ |} [].

(** What a run prints last and returns. *)
Definition ends (fuel : nat) (argv : list (list Z)) (b : bench) : res fault (Z * option message) :=
  match main fuel argv b with
  | Ok (code, b') => Ok (code, last (b_out b'))
  | Err e => Err e
  end.

(** ** Runs *)

Example sum_three_times : ends 100 [w_prog; w_num 3; w_sum; w_num 3] (found 0 0) = Ok (0, Some (Result 6)).
Proof. by vm_compute. Qed.

Example incr_seven : ends 100 [w_prog; w_num 2; w_incr; w_num 0; w_num 7] (found 0 0) = Ok (0, Some (Result 8)).
Proof. by vm_compute. Qed.

Example no_file : ends 100 [w_prog; w_num 2; w_prog; w_num 0; w_num 7] (found 0 0) = Ok (1, Some (CopyFailed w_prog)).
Proof. by vm_compute. Qed.

(** The integer formats test for three arguments where they need four. *)
Example integer_missing : ends 100 [w_prog; w_num 2; w_incr; w_num 0] (found 0 0) = Err PastArgv.
Proof. by vm_compute. Qed.

(** With no run at all the result is printed although nothing assigned it. *)
Example no_run : ends 100 [w_prog; w_num 0; w_sum; w_num 3] (found 0 0) = Ok (0, Some (Result 0x1234)).
Proof. by vm_compute. Qed.

(** Nothing assigns the flags before they are read: with one bit of what the stack held
    the text is run that is rejected without it. *)
Example garbage_skips_verifier :
  ends 100 [w_prog; w_num 1; w_bad; w_num 3] (found 0 0) = Ok (1, Some Error) /\
  ends 100 [w_prog; w_num 1; w_bad; w_num 3] (found 2 0) = Ok (0, Some (Result 5)).
Proof. by vm_compute. Qed.

(** Nothing assigns the link of the argument region: the first access no region
    grants follows it. *)
Example garbage_is_followed :
  ends 100 [w_prog; w_num 1; w_incr; w_num 3] (found 0 0) = Ok (1, Some IllegalMemory) /\
  ends 100 [w_prog; w_num 1; w_incr; w_num 3] (found 0 0x40) = Err (EngineUndefined UB_region).
Proof. by vm_compute. Qed.

(** The header is not compared with the size of the file: a file of 60 bytes whose
    header claims 4096 bytes of data, and a read-only part that takes the pointer to the
    text back to where it is, writes behind the buffer. *)
Example header_grants_memory :
  match main 100 [w_prog; w_num 1; w_far; w_num 3] (found 0 0) with
  | Ok (code, b) => code = 0 /\ rd8 (mem (b_vm b)) victim = 77
  | Err _ => False
  end.
Proof. by vm_compute. Qed.

(** ** Witnesses *)

Definition sum_argv : list (list Z) := [w_prog; w_num 3; w_sum; w_num 3].
Definition sum_start : bench := found 0 0.

Lemma demo_layout_ok : layout_ok.
Proof.
  unfold layout_ok, placed.
  split_and!; lazymatch goal with |- Forall _ _ => idtac | _ => by vm_compute end.
  repeat (apply Forall_cons; split); [..|constructor]; cbn; unfold BYTECODE_SIZE_MAX, BUFFER_SIZE_MAX, RBPF_STACK_SIZE, ARRAY_LENGTH,
    sizeof_sockbuf_ctx, stack_addr, image_addr; lia.
Qed.

Lemma demo_frame_ok : frame_ok (b_vm sum_start).
Proof.
  constructor; try (vm_compute; by eexists); try done; try (apply (bool_decide_unpack _); by vm_compute).
Qed.

Lemma demo_lengths : lengths_low (loaded_mem (mem (b_vm sum_start)) (code_file sum_argv)).
Proof. by vm_compute. Qed.

Lemma demo_code_apart : code_apart (boot (b_vm sum_start) (code_file sum_argv)).
Proof.
  intros a. unfold reach, inside.
  replace (rbpf_application_text (boot (b_vm sum_start) (code_file sum_argv))) with (image_addr + 28) by (by vm_compute).
  replace (rbpf_application_text_len (boot (b_vm sum_start) (code_file sum_argv))) with 56 by (by vm_compute).
  replace (data_length (mem (boot (b_vm sum_start) (code_file sum_argv)))) with 0 by (by vm_compute).
  cbn. unfold sizeof_rbpf_header, image_addr, stack_addr, RBPF_STACK_SIZE, ARRAY_LENGTH, sizeof_sockbuf_ctx, BUFFER_SIZE_MAX. lia.
Qed.

Lemma demo_objects a :
  object_byte (boot (b_vm sum_start) (code_file sum_argv)) a ->
  rbpf_addr <= a < rbpf_addr + 84 \/ 0x20004000 <= a < 0x20004020.
Proof.
  intros [H|(p & Hp & H)]; [left; exact H|]. apply setup_node in Hp.
  unfold sizeof_rbpf_mem_region in H.
  assert (p ∈ [rbpf_addr; rbpf_addr + 16; rbpf_addr + 32; rbpf_addr + 48; 0x20004000; 0x20004010]) as Hin.
  { destruct Hp as [r Hr]. apply elem_of_list_to_map_2 in Hr. apply list_elem_of_In, (in_map fst) in Hr.
    apply list_elem_of_In. exact Hr. }
  set_unfold in Hin. unfold rbpf_addr in *. destruct_or!; simplify_eq; lia.
Qed.

Lemma demo_program_apart : program_apart (boot (b_vm sum_start) (code_file sum_argv)).
Proof.
  intros a Ha%demo_objects. unfold granted, reach, inside, near_2G.
  replace (rbpf_application_text (boot (b_vm sum_start) (code_file sum_argv))) with (image_addr + 28) by (by vm_compute).
  replace (rbpf_application_text_len (boot (b_vm sum_start) (code_file sum_argv))) with 56 by (by vm_compute).
  replace (data_length (mem (boot (b_vm sum_start) (code_file sum_argv)))) with 0 by (by vm_compute).
  replace (rodata_length (mem (boot (b_vm sum_start) (code_file sum_argv)))) with 0 by (by vm_compute).
  cbn. unfold rbpf_addr, image_addr, stack_addr, RBPF_STACK_SIZE, ARRAY_LENGTH, sizeof_sockbuf_ctx, BUFFER_SIZE_MAX, BYTECODE_SIZE_MAX in *. lia.
Qed.

Lemma main_isolated_witness :
  exists b', main 100 sum_argv sum_start = Ok (0, b') /\
    (rd8 (mem (b_vm b')) victim = rd8 (mem (b_vm sum_start)) victim \/
     granted (loaded_mem (mem (b_vm sum_start)) (code_file sum_argv)) victim \/ near_2G victim).
Proof.
  destruct (main 100 sum_argv sum_start) as [[code b']|e] eqn:E; [|vm_compute in E; discriminate].
  destruct (main_isolated 100 sum_argv sum_start demo_layout_ok demo_frame_ok demo_lengths demo_program_apart) as [_ H].
  destruct (H _ _ E) as [_ Hv].
  exists b'. split; [|exact (Hv victim)]. vm_compute in E. injection E as <- <-. reflexivity.
Defined.

Lemma main_returns_witness :
  let M := boot (b_vm sum_start) (code_file sum_argv) in
  (exists code b', main (run_fuel M) sum_argv sum_start = Ok (code, b')) \/
  (exists u, main (run_fuel M) sum_argv sum_start = Err (EngineUndefined u) /\ arithmetic_ub u) \/
  (main (run_fuel M) sum_argv sum_start = Err PastArgv /\ length sum_argv = 4%nat).
Proof.
  apply (main_returns sum_argv sum_start (scanned (boot (b_vm sum_start) (code_file sum_argv)))
    demo_layout_ok demo_frame_ok demo_lengths eq_refl demo_program_apart).
  - split_and!; by vm_compute.
  - by vm_compute.
  - apply demo_code_apart.
Defined.
