(* ===== verification/Fletcher.v ===== *)
(** * The Fletcher-32 benchmark

    Models [08-fletcher32/fletcher32.c], the program that is compiled to the
    bytecode the benchmark runs: a checksum that defers the reductions of its two
    sums for 359 words at a time.  It is shown that no sum ever wraps and that the
    two halves of the result are the sums modulo 65535. *)

From stdpp Require Import base list.
From Stdlib Require Import ZArith Lia.
From S2P Require Import Prelude.

Local Open Scope Z_scope.

(** [unaligned_get_u16]. *)
Definition unaligned_get_u16 (m : memory) (p : Z) : Z := rd16 m p.

(** The [do] loop over [tlen] words: [data], [sum1] and [sum2]. *)
Fixpoint words_loop (tlen : nat) (m : memory) (data sum1 sum2 : Z) : Z * Z * Z :=
  match tlen with
  | O => (data, sum1, sum2)
  | S tlen =>
      let sum1 := u32 (sum1 + unaligned_get_u16 m data) in
      let sum2 := u32 (sum2 + sum1) in
      words_loop tlen m (data + 2) sum1 sum2
  end.

Definition reduce (sum : Z) : Z := u32 (Z.land sum 0xffff + Z.shiftr sum 16).

(** The [while] loop over blocks of at most 359 words. *)
Fixpoint blocks_loop (fuel : nat) (m : memory) (data words sum1 sum2 : Z) : option (Z * Z) :=
  match fuel with
  | O => None
  | S fuel =>
      if words =? 0 then Some (sum1, sum2)
      else
        let tlen := if 359 <? words then 359 else words in
        let words := words - tlen in
        let '(data, sum1, sum2) := words_loop (Z.to_nat tlen) m data sum1 sum2 in
        blocks_loop fuel m data words (reduce sum1) (reduce sum2)
  end.

(** The context is a pointer to the words (in a 64-bit slot) and their number. *)
Definition fletcher32 (fuel : nat) (m : memory) (ctx : Z) : option Z :=
  let words := rd32 m (ctx + 8) in
  let data := rd32 m ctx in
  match blocks_loop fuel m data words 0xffff 0xffff with
  | None => None
  | Some (sum1, sum2) =>
      let sum1 := reduce sum1 in
      let sum2 := reduce sum2 in
      Some (Z.lor (u32 (Z.shiftl sum2 16)) sum1)
  end.

(** ** Reference *)

(** The words of the buffer. *)
Fixpoint words_at (n : nat) (m : memory) (data : Z) : list Z :=
  match n with O => [] | S n => rd16 m data :: words_at n m (data + 2) end.

Definition total (l : list Z) : Z := foldr Z.add 0 l.

(** Each word as often as there are words from it on. *)
Fixpoint weighted (l : list Z) : Z :=
  match l with [] => 0 | w :: l' => Z.of_nat (length l) * w + weighted l' end.

(** [s] is [v] modulo 65535, with 65535 in the place of 0. *)
Definition ones_sum (s v : Z) : Prop := 1 <= s <= 65535 /\ (s - v) mod 65535 = 0.

(** ** Lemmas *)

Lemma words_at_app a b m data : words_at (a + b) m data = words_at a m data ++ words_at b m (data + 2 * Z.of_nat a).
Proof.
  revert data. induction a as [|a IH]; intros data; cbn [words_at Nat.add app].
  - by rewrite Z.mul_0_r, Z.add_0_r.
  - rewrite IH. do 3 f_equal. lia.
Qed.

Lemma length_words_at n m data : length (words_at n m data) = n.
Proof. revert data. induction n; intros data; cbn; auto. Qed.

Lemma words_at_range n m data : Forall (fun w => 0 <= w < 2 ^ 16) (words_at n m data).
Proof. revert data. induction n; intros data; cbn [words_at]; constructor; auto. apply (rd_le_range m data 2). Qed.

Lemma total_app l k : total (l ++ k) = total l + total k.
Proof. unfold total. induction l as [|x l IH]; cbn [app foldr]; [lia|]. rewrite IH. lia. Qed.

Lemma weighted_app l k : weighted (l ++ k) = weighted l + Z.of_nat (length k) * total l + weighted k.
Proof.
  induction l as [|x l IH]; cbn [app weighted]; [cbn; lia|]. rewrite IH. cbn [length]. rewrite length_app.
  change (total (x :: l)) with (x + total l). lia.
Qed.

(** The sums of one block, as long as they fit. *)
Lemma words_loop_sums n m data s1 s2 :
  0 <= s1 -> 0 <= s2 ->
  s2 + Z.of_nat n * s1 + 65535 * (Z.of_nat n * (Z.of_nat n + 1) / 2) < 2 ^ 32 ->
  s1 + 65535 * Z.of_nat n < 2 ^ 32 ->
  let l := words_at n m data in
  words_loop n m data s1 s2 =
    (data + 2 * Z.of_nat n, s1 + total l, s2 + Z.of_nat n * s1 + weighted l).
Proof.
  revert data s1 s2. induction n as [|n IH]; intros data s1 s2 H1 H2 Hb2 Hb1; cbn [words_loop words_at].
  { cbn. f_equal; [f_equal|]; lia. }
  pose proof (rd_le_range m data 2) as Hw. fold (rd16 m data) in Hw. change (256 ^ Z.of_nat 2) with 65536 in Hw.
  assert (Z.of_nat (S n) * (Z.of_nat (S n) + 1) / 2 = Z.of_nat n * (Z.of_nat n + 1) / 2 + Z.of_nat n + 1) as Htri.
  { replace (Z.of_nat (S n) * (Z.of_nat (S n) + 1)) with (Z.of_nat n * (Z.of_nat n + 1) + (Z.of_nat n + 1) * 2) by lia.
    rewrite Z.div_add by lia. lia. }
  assert (0 <= Z.of_nat n * (Z.of_nat n + 1) / 2) as Hpos by (apply Z.div_pos; lia).
  rewrite Htri in Hb2. unfold unaligned_get_u16.
  assert (0 <= Z.of_nat n * s1) by lia. assert (Z.of_nat n * rd16 m data <= Z.of_nat n * 65535) by nia.
  assert (0 <= Z.of_nat n * rd16 m data) by lia.
  rewrite (wrap_small 32 (s1 + rd16 m data)) by (unfold is_word; lia).
  rewrite (wrap_small 32 (s2 + _)) by (unfold is_word; lia).
  rewrite IH by lia. cbn [weighted length]. rewrite length_words_at.
  change (total (rd16 m data :: words_at n m (data + 2))) with (rd16 m data + total (words_at n m (data + 2))).
  f_equal; [f_equal|]; lia.
Qed.

Lemma reduce_spec s : 0 <= s < 2 ^ 32 -> reduce s = s mod 65536 + s / 65536.
Proof.
  intros Hs. unfold reduce. change 0xffff with (Z.ones 16). rewrite Z.land_ones, Z.shiftr_div_pow2 by lia.
  apply wrap_small. change (2 ^ 16) with 65536. pose proof (Z.mod_pos_bound s 65536 ltac:(lia)).
  assert (s / 65536 < 65536) by (apply Z.div_lt_upper_bound; lia).
  assert (0 <= s / 65536) by (apply Z.div_pos; lia). unfold is_word. lia.
Qed.

(** Reducing keeps the residue, and a positive sum positive. *)
Lemma reduce_residue s : 0 <= s < 2 ^ 32 -> exists k, reduce s = s - 65535 * k.
Proof. intros Hs. rewrite reduce_spec by done. exists (s / 65536). pose proof (Z.div_mod s 65536 ltac:(lia)). lia. Qed.

Lemma reduce_pos s : 1 <= s < 2 ^ 32 -> 1 <= reduce s <= 65535 + s / 65536.
Proof.
  intros Hs. rewrite reduce_spec by lia. pose proof (Z.div_mod s 65536 ltac:(lia)).
  pose proof (Z.mod_pos_bound s 65536 ltac:(lia)). assert (0 <= s / 65536) by (apply Z.div_pos; lia). lia.
Qed.

Lemma total_nonneg n m data : 0 <= total (words_at n m data) <= 65535 * Z.of_nat n.
Proof.
  revert data. induction n as [|n IH]; intros data; [cbn; lia|]. cbn [words_at].
  change (total (rd16 m data :: words_at n m (data + 2))) with (rd16 m data + total (words_at n m (data + 2))).
  pose proof (rd_le_range m data 2) as Hw. fold (rd16 m data) in Hw. change (256 ^ Z.of_nat 2) with 65536 in Hw.
  specialize (IH (data + 2)). lia.
Qed.

Lemma weighted_nonneg n m data : 0 <= weighted (words_at n m data) <= 65535 * (Z.of_nat n * (Z.of_nat n + 1) / 2).
Proof.
  revert data. induction n as [|n IH]; intros data; [by vm_compute|]. cbn [words_at weighted length]. rewrite length_words_at.
  pose proof (rd_le_range m data 2) as Hw. fold (rd16 m data) in Hw. change (256 ^ Z.of_nat 2) with 65536 in Hw.
  replace (Z.of_nat (S n) * (Z.of_nat (S n) + 1)) with (Z.of_nat n * (Z.of_nat n + 1) + (Z.of_nat n + 1) * 2) by lia.
  rewrite Z.div_add by lia. specialize (IH (data + 2)).
  assert (Z.of_nat n * rd16 m data <= Z.of_nat n * 65535) by nia. assert (0 <= Z.of_nat n * rd16 m data) by nia. lia.
Qed.

(** ** The checksum *)

(** What holds of the sums between two blocks, of which the words [l] are summed. *)
Record between (l : list Z) (s1 s2 : Z) : Prop := mkBetween {
  bw_s1 : 1 <= s1 <= 65895;
  bw_s2 : 1 <= s2 <= 131070;
  bw_total : exists k, s1 = total l + 65535 * k;
  bw_weighted : exists k, s2 = weighted l + 65535 * k
}.

Lemma block_between n m data l s1 s2 :
  0 < Z.of_nat n <= 359 -> between l s1 s2 ->
  exists s1' s2', words_loop n m data s1 s2 = (data + 2 * Z.of_nat n, s1', s2') /\
    between (l ++ words_at n m data) (reduce s1') (reduce s2').
Proof.
  intros Hn [H1 H2 [k1 E1] [k2 E2]].
  assert (Z.of_nat n * (Z.of_nat n + 1) / 2 <= 64620) as Htri.
  { apply Z.div_le_upper_bound; [lia|]. nia. }
  assert (Z.of_nat n * s1 <= 359 * 65895) as Hns by nia.
  pose proof (total_nonneg n m data) as Ht. pose proof (weighted_nonneg n m data) as Hw.
  set (t := total (words_at n m data)) in *. set (w := weighted (words_at n m data)) in *.
  exists (s1 + t), (s2 + Z.of_nat n * s1 + w). split; [apply words_loop_sums; lia|].
  assert (0 <= Z.of_nat n * s1) by lia.
  assert (1 <= s1 + t < 2 ^ 32) as R1 by lia. assert (1 <= s2 + Z.of_nat n * s1 + w < 2 ^ 32) as R2 by lia.
  destruct (reduce_residue (s1 + t)) as [j1 J1]; [lia|]. destruct (reduce_residue (s2 + Z.of_nat n * s1 + w)) as [j2 J2]; [lia|].
  constructor.
  - pose proof (reduce_pos _ R1). assert ((s1 + t) / 65536 < 361) by (apply Z.div_lt_upper_bound; lia). lia.
  - pose proof (reduce_pos _ R2). assert ((s2 + Z.of_nat n * s1 + w) / 65536 < 65536) by (apply Z.div_lt_upper_bound; lia). lia.
  - exists (k1 - j1). rewrite total_app. fold t. lia.
  - exists (k2 + Z.of_nat n * k1 - j2). rewrite weighted_app, length_words_at. fold w. lia.
Qed.

Lemma blocks_loop_between fuel m data words l s1 s2 :
  0 <= words -> words < Z.of_nat fuel -> between l s1 s2 ->
  exists s1' s2', blocks_loop fuel m data words s1 s2 = Some (s1', s2') /\
    between (l ++ words_at (Z.to_nat words) m data) s1' s2'.
Proof.
  revert data words l s1 s2. induction fuel as [|fuel IH]; intros data words l s1 s2 H0 Hf Hb; [lia|]. cbn [blocks_loop].
  destruct (Z.eqb_spec words 0) as [->|Hne]. { exists s1, s2. cbn. by rewrite app_nil_r. }
  set (tlen := if 359 <? words then 359 else words).
  assert (0 < tlen <= 359 /\ tlen <= words) as [Ht1 Ht2] by (subst tlen; destruct (Z.ltb_spec 359 words); lia).
  destruct (block_between (Z.to_nat tlen) m data l s1 s2 ltac:(lia) Hb) as (t1 & t2 & E & Hb'). rewrite E.
  destruct (IH (data + 2 * Z.of_nat (Z.to_nat tlen)) (words - tlen) _ _ _ ltac:(lia) ltac:(lia) Hb') as (r1 & r2 & E' & Hr).
  exists r1, r2. split; [exact E'|].
  rewrite <- app_assoc, <- words_at_app in Hr. replace (Z.to_nat tlen + Z.to_nat (words - tlen))%nat with (Z.to_nat words) in Hr by lia.
  exact Hr.
Qed.

(** The last reduction brings a sum to 16 bits. *)
Lemma reduce_ones s v k : 1 <= s <= 131070 -> s = v + 65535 * k -> ones_sum (reduce s) v.
Proof.
  intros Hs E. destruct (reduce_residue s ltac:(lia)) as [j J]. split.
  - rewrite reduce_spec by lia. destruct (decide (s < 65536)) as [H|H].
    + rewrite Z.mod_small, Z.div_small by lia. lia.
    + assert (s / 65536 = 1) as -> by (symmetry; apply (Z.div_unique _ _ _ (s - 65536)); lia).
      assert (s mod 65536 = s - 65536) as -> by (symmetry; apply (Z.mod_unique _ _ 1); lia). lia.
  - rewrite J, E. replace (v + 65535 * k - 65535 * j - v) with ((k - j) * 65535) by lia. by rewrite Z_mod_mult.
Qed.

(** C35: The checksum of a buffer of any length ends with two 16-bit halves: the sum of the words
    in the low one and the sum of the words weighted by their distance from the end in
    the high one, both modulo 65535; no intermediate sum exceeds 32 bits. *)
Theorem fletcher32_correct fuel m ctx :
  let words := rd32 m (ctx + 8) in
  let l := words_at (Z.to_nat words) m (rd32 m ctx) in
  words < Z.of_nat fuel ->
  exists s1 s2, fletcher32 fuel m ctx = Some (s2 * 2 ^ 16 + s1) /\ ones_sum s1 (total l) /\ ones_sum s2 (weighted l).
Proof.
  intros words l Hf. pose proof (rd32_range m (ctx + 8)) as Hw. fold words in Hw. unfold is_word in Hw.
  destruct (blocks_loop_between fuel m (rd32 m ctx) words [] 0xffff 0xffff) as (s1 & s2 & E & [H1 H2 [k1 E1] [k2 E2]]); [lia|done| |].
  { constructor; [lia|lia|by exists 1|by exists 1]. }
  cbn [app] in E1, E2. fold l in E1, E2.
  pose proof (reduce_ones s1 _ k1 ltac:(lia) E1) as O1. pose proof (reduce_ones s2 _ k2 ltac:(lia) E2) as O2.
  exists (reduce s1), (reduce s2). split; [|done]. unfold fletcher32. fold words. rewrite E. f_equal.
  destruct O1 as [R1 _], O2 as [R2 _]. rewrite Z.shiftl_mul_pow2 by lia. rewrite wrap_small by (unfold is_word; lia).
  rewrite (lor_halves 16) by (unfold is_word; lia). by rewrite Z.shiftl_mul_pow2 by lia.
Qed.

(** The checksum of the text abcdef, at a context in front of it. *)
Definition abcdef : memory := wr_bytes (wr_le (wr_le ∅ 64 4 128) 72 4 3) 128 [97; 98; 99; 100; 101; 102].

Lemma fletcher32_correct_witness :
  exists s1 s2, fletcher32 10 abcdef 64 = Some (s2 * 2 ^ 16 + s1) /\ ones_sum s1 77097 /\ ones_sum s2 153166.
Proof.
  destruct (fletcher32_correct 10 abcdef 64) as (s1 & s2 & E & H1 & H2); [by vm_compute|]. exists s1, s2.
  replace (total _) with 77097 in H1 by (by vm_compute). replace (weighted _) with 153166 in H2 by (by vm_compute).
  split; [exact E|]. split; [exact H1|exact H2].
Defined.
