(* ===== verification/Tsrb.v ===== *)
(** * The thread-safe ring buffer

    Models [sys/tsrb/tsrb.c] and [sys/include/tsrb.h], the buffer between an interrupt
    and a thread that standard input goes through: two free-running 32-bit
    counters over an array of a power of two.  Each function disables interrupts
    around its body, so it is one step.  The buffer implements a bounded queue, also
    when the counters wrap. *)

From stdpp Require Import base list.
From Stdlib Require Import ZArith Lia.
From S2P Require Import Prelude.

Local Open Scope Z_scope.

Record tsrb_t := mkTsrb { t_buf : list Z; t_size : Z; t_reads : Z; t_writes : Z }.

(** [None] is the failed assertion that the size is a power of two. *)
Definition tsrb_init (buffer : list Z) (bufsize : Z) : option tsrb_t :=
  if negb (bufsize =? 0) && (Z.land bufsize (u32 (u32 (Z.lnot bufsize) + 1)) =? bufsize)
  then Some (mkTsrb buffer bufsize 0 0) else None.

Definition tsrb_clear (rb : tsrb_t) : tsrb_t := mkTsrb (t_buf rb) (t_size rb) (t_writes rb) (t_writes rb).
Definition tsrb_empty (rb : tsrb_t) : bool := t_reads rb =? t_writes rb.
Definition tsrb_avail (rb : tsrb_t) : Z := u32 (s32 (u32 (t_writes rb - t_reads rb))).
Definition tsrb_full (rb : tsrb_t) : bool := u32 (t_writes rb - t_reads rb) =? t_size rb.
Definition tsrb_free (rb : tsrb_t) : Z := u32 (s32 (u32 (u32 (t_size rb - t_writes rb) + t_reads rb))).

(** The place of a counter in the array. *)
Definition slot (rb : tsrb_t) (x : Z) : nat := Z.to_nat (Z.land x (u32 (t_size rb - 1))).

Definition _push (rb : tsrb_t) (c : Z) : tsrb_t :=
  mkTsrb (<[slot rb (t_writes rb) := u8 c]> (t_buf rb)) (t_size rb) (t_reads rb) (u32 (t_writes rb + 1)).
Definition _pop (rb : tsrb_t) : Z * tsrb_t :=
  (default 0 (t_buf rb !! slot rb (t_reads rb)), mkTsrb (t_buf rb) (t_size rb) (u32 (t_reads rb + 1)) (t_writes rb)).
Definition _peek (rb : tsrb_t) (idx : Z) : Z := default 0 (t_buf rb !! slot rb (u32 (t_reads rb + idx))).

Definition tsrb_get_one (rb : tsrb_t) : Z * tsrb_t := if negb (tsrb_empty rb) then _pop rb else (-1, rb).
Definition tsrb_peek_one (rb : tsrb_t) : Z := if negb (tsrb_empty rb) then _peek rb 0 else -1.

(** A count of type [size_t] returned as an [int]: the same number below [2 ^ 31]. *)
Definition to_int (x : Z) : Z := s32 (u32 x).

(** The loop of [tsrb_get]: the characters stored at [dst] and the rest of [tmp]. *)
Fixpoint get_loop (tmp : nat) (rb : tsrb_t) : list Z * nat * tsrb_t :=
  match tmp with
  | O => ([], O, rb)
  | S tmp' =>
      if negb (tsrb_empty rb) then
        let '(c, rb) := _pop rb in
        let '(l, tmp, rb) := get_loop tmp' rb in (c :: l, tmp, rb)
      else ([], tmp, rb)
  end.
Definition tsrb_get (rb : tsrb_t) (n : nat) : Z * list Z * tsrb_t :=
  let '(l, tmp, rb) := get_loop n rb in (to_int (Z.of_nat n - Z.of_nat tmp), l, rb).

(** The loop of [tsrb_peek] from [idx], [k] characters before [n]. *)
Fixpoint peek_loop (k : nat) (rb : tsrb_t) (idx avail : Z) : list Z * Z :=
  match k with
  | O => ([], idx)
  | S k =>
      if negb (idx =? avail) then
        let '(l, i) := peek_loop k rb (idx + 1) avail in (_peek rb idx :: l, i)
      else ([], idx)
  end.
Definition tsrb_peek (rb : tsrb_t) (n : nat) : Z * list Z :=
  let '(l, i) := peek_loop n rb 0 (tsrb_avail rb) in (to_int i, l).

Fixpoint drop_loop (tmp : nat) (rb : tsrb_t) : nat * tsrb_t :=
  match tmp with
  | O => (O, rb)
  | S tmp' => if negb (tsrb_empty rb) then drop_loop tmp' (snd (_pop rb)) else (tmp, rb)
  end.
Definition tsrb_drop (rb : tsrb_t) (n : nat) : Z * tsrb_t :=
  let '(tmp, rb) := drop_loop n rb in (to_int (Z.of_nat n - Z.of_nat tmp), rb).

Definition tsrb_add_one (rb : tsrb_t) (c : Z) : Z * tsrb_t :=
  if negb (tsrb_full rb) then (0, _push rb c) else (-1, rb).

Fixpoint add_loop (src : list Z) (rb : tsrb_t) : nat * tsrb_t :=
  match src with
  | [] => (O, rb)
  | c :: src' => if negb (tsrb_full rb) then add_loop src' (_push rb c) else (length src, rb)
  end.
Definition tsrb_add (rb : tsrb_t) (src : list Z) : Z * tsrb_t :=
  let '(tmp, rb) := add_loop src rb in (to_int (Z.of_nat (length src) - Z.of_nat tmp), rb).

(** ** The queue it holds *)

(** A buffer of [2 ^ k] characters. *)
Record wf (k : Z) (rb : tsrb_t) : Prop := mkWf {
  wf_k : 0 <= k <= 31;
  wf_size : t_size rb = 2 ^ k;
  wf_buf : length (t_buf rb) = Z.to_nat (2 ^ k);
  wf_reads : is_word 32 (t_reads rb);
  wf_writes : is_word 32 (t_writes rb);
  wf_count : u32 (t_writes rb - t_reads rb) <= 2 ^ k
}.

Definition count (rb : tsrb_t) : nat := Z.to_nat (u32 (t_writes rb - t_reads rb)).
Definition contents (rb : tsrb_t) : list Z :=
  (fun i => default 0 (t_buf rb !! slot rb (u32 (t_reads rb + Z.of_nat i)))) <$> seq 0 (count rb).

Lemma tsrb_length_contents rb : length (contents rb) = count rb.
Proof. unfold contents. by rewrite length_fmap, length_seq. Qed.

Lemma pow_bounds k : 0 <= k <= 31 -> 1 <= 2 ^ k <= 2 ^ 31.
Proof. intros. pose proof (Z.pow_pos_nonneg 2 k). pose proof (Z.pow_le_mono_r 2 k 31). lia. Qed.

Lemma to_int_small k x : 0 <= k < 31 -> 0 <= x <= 2 ^ k -> to_int x = x.
Proof.
  intros Hk Hx. pose proof (Z.pow_le_mono_r 2 k 30). unfold to_int.
  rewrite (wrap_small 32) by (unfold is_word; lia). apply signed_small; lia.
Qed.

(** Read back as a [size_t] it is the count again. *)
Lemma wrap_to_int x : 0 <= x < 2 ^ 32 -> u32 (to_int x) = x.
Proof. intros. unfold to_int. rewrite wrap_signed, wrap_idemp by lia. by apply wrap_small. Qed.

Section Queue.
Variables (k : Z) (rb : tsrb_t).
Hypothesis H : wf k rb.

Lemma count_range : 0 <= u32 (t_writes rb - t_reads rb) <= 2 ^ k.
Proof using H. split; [apply (wrap_range 32); lia|apply H]. Qed.

Lemma tsrb_slot_mod x : slot rb (u32 x) = Z.to_nat (x mod 2 ^ k).
Proof using H.
  pose proof (pow_bounds k (wf_k _ _ H)). unfold slot. rewrite (wf_size _ _ H).
  rewrite (wrap_small 32 (2 ^ k - 1)) by (unfold is_word; lia).
  replace (2 ^ k - 1) with (Z.ones k) by (rewrite Z.ones_equiv; lia). rewrite Z.land_ones by apply H.
  change (u32 x mod 2 ^ k) with (wrap k (wrap 32 x)). pose proof (wf_k _ _ H). by rewrite wrap_wrap_le by lia.
Qed.

Lemma slot_lt x : (slot rb (u32 x) < length (t_buf rb))%nat.
Proof using H.
  rewrite tsrb_slot_mod, (wf_buf _ _ H). pose proof (pow_bounds k (wf_k _ _ H)). pose proof (Z.mod_pos_bound x (2 ^ k)). lia.
Qed.

Lemma empty_iff : tsrb_empty rb = bool_decide (contents rb = []).
Proof using H.
  unfold tsrb_empty. pose proof (wf_reads _ _ H) as Hr. pose proof (wf_writes _ _ H) as Hw.
  assert (contents rb = [] <-> t_reads rb = t_writes rb) as E.
  { rewrite <- length_zero_iff_nil, tsrb_length_contents. unfold count. pose proof count_range.
    unfold wrap in *. split; [|intros ->; rewrite Z.sub_diag; done]. intros E.
    assert ((t_writes rb - t_reads rb) mod 2 ^ 32 = 0) as E' by lia.
    apply Z.mod_divide in E' as [q Hq]; [|lia]. unfold is_word in *. nia. }
  destruct (Z.eqb_spec (t_reads rb) (t_writes rb)); [rewrite bool_decide_eq_true_2|rewrite bool_decide_eq_false_2]; tauto.
Qed.

Lemma tsrb_full_iff : tsrb_full rb = (Z.of_nat (length (contents rb)) =? 2 ^ k).
Proof using H.
  unfold tsrb_full. rewrite tsrb_length_contents, (wf_size _ _ H). unfold count. pose proof count_range. f_equal. lia.
Qed.
End Queue.

(** Two counters at a distance below the size have different places. *)
Lemma mod_ne k x d : 0 < d < 2 ^ k -> (x + d) mod 2 ^ k <> x mod 2 ^ k.
Proof.
  intros Hd E. assert (d mod 2 ^ k = 0) as E'.
  { replace d with ((x + d) - x) by lia. rewrite Zminus_mod, E, Z.sub_diag. apply Z.mod_0_l. lia. }
  rewrite Z.mod_small in E' by lia. lia.
Qed.

(** ** One character in, one character out *)

Lemma contents_eq k rb l :
  wf k rb -> count rb = length l ->
  (forall i c, l !! i = Some c -> t_buf rb !! slot rb (u32 (t_reads rb + Z.of_nat i)) = Some c) -> contents rb = l.
Proof.
  intros H Hlen Hl. apply list_eq. intros i. destruct (l !! i) as [c|] eqn:E.
  - unfold contents. rewrite list_lookup_fmap, lookup_seq_lt; [|rewrite Hlen; by eapply lookup_lt_Some].
    cbn. f_equal. by rewrite (Hl i c E).
  - apply lookup_ge_None in E. apply lookup_ge_None. rewrite tsrb_length_contents. lia.
Qed.

Lemma contents_lookup k rb i c :
  wf k rb -> contents rb !! i = Some c -> t_buf rb !! slot rb (u32 (t_reads rb + Z.of_nat i)) = Some c.
Proof.
  intros H E. unfold contents in E. rewrite list_lookup_fmap in E.
  destruct (seq 0 (count rb) !! i) as [j|] eqn:Ej; [|done]. apply lookup_seq in Ej as [-> _]. cbn in E.
  destruct (lookup_lt_is_Some_2 (t_buf rb) (slot rb (u32 (t_reads rb + Z.of_nat i)))) as [x Hx]; [by eapply slot_lt|].
  rewrite Hx in *. by injection E as <-.
Qed.

Lemma push_contents k rb c :
  wf k rb -> tsrb_full rb = false -> wf k (_push rb c) /\ contents (_push rb c) = contents rb ++ [u8 c].
Proof.
  intros H Hf. pose proof (pow_bounds k (wf_k _ _ H)) as Hp. pose proof (count_range _ _ H) as Hc.
  assert (u32 (t_writes rb - t_reads rb) < 2 ^ k) as Hlt.
  { unfold tsrb_full in Hf. rewrite (wf_size _ _ H) in Hf. apply Z.eqb_neq in Hf. lia. }
  assert (u32 (u32 (t_writes rb + 1) - t_reads rb) = u32 (t_writes rb - t_reads rb) + 1) as Hn.
  { replace (u32 (t_writes rb + 1) - t_reads rb) with (u32 (t_writes rb + 1) + - t_reads rb) by lia. rewrite wrap_add_l by lia.
    replace (t_writes rb + 1 + - t_reads rb) with ((t_writes rb - t_reads rb) + 1) by lia.
    rewrite <- wrap_add_l by lia. apply wrap_small. unfold is_word. lia. }
  assert (wf k (_push rb c)) as Hw.
  { destruct H. constructor; cbn; try done; [by rewrite length_insert|apply wrap_range; lia|lia]. }
  split; [done|]. apply (contents_eq k); [done|rewrite length_app, tsrb_length_contents; unfold count; cbn; lia|].
  intros i x Hi. cbn [t_buf t_reads _push].
  assert (t_writes rb = u32 (t_reads rb + Z.of_nat (length (contents rb)))) as Ew.
  { rewrite tsrb_length_contents. unfold count. rewrite Z2Nat.id by lia. rewrite wrap_add_r by lia.
    replace (t_reads rb + (t_writes rb - t_reads rb)) with (t_writes rb) by lia. symmetry. apply wrap_small, H. }
  change (slot (_push rb c)) with (slot rb). rewrite Ew at 1.
  apply lookup_snoc_Some in Hi as [[Hi Hx]|[-> ->]].
  - rewrite list_lookup_insert_ne; [by eapply contents_lookup|].
    rewrite !(tsrb_slot_mod k rb H). rewrite tsrb_length_contents in Hi |- *. unfold count in *.
    pose proof (Z.mod_pos_bound (t_reads rb + Z.of_nat i) (2 ^ k)).
    pose proof (Z.mod_pos_bound (t_reads rb + Z.of_nat (Z.to_nat (u32 (t_writes rb - t_reads rb)))) (2 ^ k)).
    pose proof (mod_ne k (t_reads rb + Z.of_nat i) (u32 (t_writes rb - t_reads rb) - Z.of_nat i) ltac:(lia)) as Hne.
    replace (t_reads rb + Z.of_nat i + (u32 (t_writes rb - t_reads rb) - Z.of_nat i))
      with (t_reads rb + Z.of_nat (Z.to_nat (u32 (t_writes rb - t_reads rb)))) in Hne by lia. lia.
  - apply list_lookup_insert_eq. by eapply slot_lt.
Qed.

Lemma pop_contents k rb c l :
  wf k rb -> contents rb = c :: l -> exists rb', _pop rb = (c, rb') /\ wf k rb' /\ contents rb' = l.
Proof.
  intros H E. pose proof (pow_bounds k (wf_k _ _ H)) as Hp. pose proof (count_range _ _ H) as Hc.
  assert (Z.of_nat (length (contents rb)) = u32 (t_writes rb - t_reads rb)) as Hlen by (rewrite tsrb_length_contents; unfold count; lia).
  rewrite E in Hlen. cbn [length] in Hlen.
  assert (u32 (t_writes rb - u32 (t_reads rb + 1)) = u32 (t_writes rb - t_reads rb) - 1) as Hn.
  { unfold wrap. rewrite Zminus_mod_idemp_r. replace (t_writes rb - (t_reads rb + 1)) with ((t_writes rb - t_reads rb) - 1) by lia.
    rewrite <- (Zminus_mod_idemp_l (t_writes rb - t_reads rb)). unfold wrap in *. apply Z.mod_small. lia. }
  eexists. split; [unfold _pop; f_equal|split].
  - assert (contents rb !! 0%nat = Some c) as E0 by by rewrite E. apply (contents_lookup k) in E0; [|done].
    rewrite Z.add_0_r, (wrap_small 32) in E0 by apply H. by rewrite E0.
  - destruct H. constructor; cbn; try done; [apply wrap_range; lia|lia].
  - apply (contents_eq k).
    + destruct H. constructor; cbn; try done; [apply wrap_range; lia|lia].
    + unfold count. cbn. lia.
    + intros i x Hi. assert (contents rb !! S i = Some x) as Ex by by rewrite E.
      apply (contents_lookup k) in Ex; [|done]. cbn [t_buf t_reads]. rewrite wrap_add_l by lia.
      replace (t_reads rb + 1 + Z.of_nat i) with (t_reads rb + Z.of_nat (S i)) by lia. exact Ex.
Qed.

(** ** The loops *)

Lemma get_loop_contents k n rb : wf k rb ->
  exists rb', get_loop n rb = (take n (contents rb), (n - length (contents rb))%nat, rb') /\
    wf k rb' /\ contents rb' = drop n (contents rb).
Proof.
  revert rb. induction n as [|n IH]; intros rb H; cbn [get_loop]; [by exists rb|].
  rewrite (empty_iff _ _ H). destruct (contents rb) as [|c l] eqn:E.
  - rewrite bool_decide_eq_true_2 by done. cbn. by exists rb.
  - rewrite bool_decide_eq_false_2 by done. cbn [negb].
    destruct (pop_contents _ _ _ _ H E) as (rb1 & -> & H1 & E1). destruct (IH rb1 H1) as (rb2 & E2 & H2 & C2).
    rewrite E2, E1. exists rb2. rewrite E1 in C2. done.
Qed.

Lemma drop_loop_contents k n rb : wf k rb ->
  exists rb', drop_loop n rb = ((n - length (contents rb))%nat, rb') /\ wf k rb' /\ contents rb' = drop n (contents rb).
Proof.
  revert rb. induction n as [|n IH]; intros rb H; cbn [drop_loop]; [by exists rb|].
  rewrite (empty_iff _ _ H). destruct (contents rb) as [|c l] eqn:E.
  - rewrite bool_decide_eq_true_2 by done. cbn. by exists rb.
  - rewrite bool_decide_eq_false_2 by done. cbn [negb].
    destruct (pop_contents _ _ _ _ H E) as (rb1 & -> & H1 & E1). cbn [snd]. destruct (IH rb1 H1) as (rb2 & E2 & H2 & C2).
    rewrite E2, E1. exists rb2. rewrite E1 in C2. done.
Qed.

Lemma add_loop_contents k src rb : wf k rb ->
  let room := (Z.to_nat (2 ^ k) - length (contents rb))%nat in
  exists rb', add_loop src rb = ((length src - room)%nat, rb') /\ wf k rb' /\
    contents rb' = contents rb ++ (u8 <$> take room src).
Proof.
  revert rb. induction src as [|c src IH]; intros rb H; cbn [add_loop].
  { exists rb. split_and!; [done..|]. by rewrite take_nil, app_nil_r. }
  pose proof (count_range _ _ H) as Hc. pose proof (tsrb_length_contents rb) as Hlen. unfold count in Hlen.
  destruct (tsrb_full rb) eqn:Hf; cbn [negb].
  - rewrite (tsrb_full_iff _ _ H) in Hf. apply Z.eqb_eq in Hf. exists rb.
    replace (Z.to_nat (2 ^ k) - length (contents rb))%nat with O by lia. cbn. by rewrite app_nil_r.
  - destruct (push_contents k rb c H Hf) as [H1 E1]. destruct (IH _ H1) as (rb2 & E2 & H2 & C2). rewrite E2.
    rewrite (tsrb_full_iff _ _ H) in Hf. apply Z.eqb_neq in Hf. rewrite E1, length_app in C2 |- *. cbn [length] in *.
    replace (Z.to_nat (2 ^ k) - length (contents rb))%nat with (S (Z.to_nat (2 ^ k) - (length (contents rb) + 1)))%nat by lia.
    exists rb2. split_and!; [f_equal|done|]. cbn [take fmap list_fmap]. by rewrite C2, <- app_assoc.
Qed.

Lemma peek_loop_contents k n rb idx : wf k rb -> (idx <= length (contents rb))%nat ->
  peek_loop n rb (Z.of_nat idx) (Z.of_nat (length (contents rb))) =
    (take n (drop idx (contents rb)), Z.of_nat (idx + (n `min` (length (contents rb) - idx)))).
Proof.
  intros H. revert idx. induction n as [|n IH]; intros idx Hi; cbn [peek_loop].
  { f_equal. f_equal. lia. }
  destruct (Z.eqb_spec (Z.of_nat idx) (Z.of_nat (length (contents rb)))) as [E|E]; cbn [negb].
  - rewrite drop_ge by lia. cbn [take]. f_equal. lia.
  - destruct (lookup_lt_is_Some_2 (contents rb) idx) as [c Hc]; [lia|].
    replace (Z.of_nat idx + 1) with (Z.of_nat (S idx)) by lia. rewrite IH by lia.
    rewrite (drop_S _ _ _ Hc). cbn [take]. unfold _peek. rewrite (contents_lookup k rb idx c H Hc). cbn [default].
    f_equal. lia.
Qed.

Lemma avail_contents k rb : wf k rb -> tsrb_avail rb = Z.of_nat (length (contents rb)).
Proof.
  intros H. unfold tsrb_avail. rewrite wrap_signed, wrap_idemp, tsrb_length_contents by lia. unfold count. pose proof (count_range _ _ H). lia.
Qed.

Lemma free_contents k rb : wf k rb -> tsrb_free rb = 2 ^ k - Z.of_nat (length (contents rb)).
Proof.
  intros H. unfold tsrb_free. rewrite wrap_signed, wrap_idemp by lia. rewrite wrap_add_l by lia. rewrite tsrb_length_contents, (wf_size _ _ H). unfold count.
  pose proof (count_range _ _ H). pose proof (pow_bounds k (wf_k _ _ H)).
  replace (2 ^ k - t_writes rb + t_reads rb) with (2 ^ k - (t_writes rb - t_reads rb)) by lia.
  unfold wrap in *. rewrite <- Zminus_mod_idemp_r. rewrite Z.mod_small; lia.
Qed.

Lemma init_contents k buffer : 0 <= k <= 31 -> length buffer = Z.to_nat (2 ^ k) ->
  exists rb, tsrb_init buffer (2 ^ k) = Some rb /\ wf k rb /\ contents rb = [].
Proof.
  intros Hk Hl. pose proof (pow_bounds k Hk) as Hp. unfold tsrb_init.
  rewrite wrap_add_l by lia. replace (Z.lnot (2 ^ k) + 1) with (- 2 ^ k) by (unfold Z.lnot; lia).
  assert (u32 (- 2 ^ k) = 2 ^ 32 - 2 ^ k) as ->.
  { unfold wrap. symmetry. apply (Z.mod_unique _ _ (-1)); lia. }
  assert (Z.land (2 ^ k) (2 ^ 32 - 2 ^ k) = 2 ^ k) as ->.
  { replace (2 ^ 32 - 2 ^ k) with (Z.shiftl (Z.ones (32 - k)) k).
    2: { rewrite Z.shiftl_mul_pow2, Z.ones_equiv by lia. replace (2 ^ 32) with (2 ^ (32 - k) * 2 ^ k); [lia|].
         rewrite <- Z.pow_add_r by lia. f_equal. lia. }
    replace (2 ^ k) with (Z.shiftl 1 k) at 1 by (rewrite Z.shiftl_mul_pow2; lia).
    rewrite <- Z.shiftl_land. rewrite Z.land_ones by lia. rewrite Z.mod_small; [rewrite Z.shiftl_mul_pow2; lia|].
    split; [lia|]. apply Z.pow_gt_1; lia. }
  rewrite Z.eqb_refl. destruct (Z.eqb_spec (2 ^ k) 0); [lia|]. cbn [negb andb].
  eexists. split; [reflexivity|]. split; [|done].
  constructor; cbn [t_buf t_size t_reads t_writes]; [lia|done|done|done|done|]. change (u32 (0 - 0)) with 0. lia.
Qed.

(** ** The contract *)

(** C34: The thread-safe ring buffer is a bounded queue: for a power of two of
    slots every operation returns and leaves what the operation on the list of pending
    characters does, whatever the values of the free-running counters; writes beyond the
    capacity and reads beyond the contents are cut off and counted.  The counts are returned
    as an [int], which is the count itself for every buffer of fewer than [2 ^ 31] slots. *)
Theorem tsrb_refines_queue k rb :
  wf k rb ->
  let l := contents rb in
  let room := (Z.to_nat (2 ^ k) - length l)%nat in
  (tsrb_avail rb = Z.of_nat (length l) /\ tsrb_free rb = 2 ^ k - Z.of_nat (length l) /\
   tsrb_empty rb = bool_decide (l = []) /\ tsrb_full rb = (Z.of_nat (length l) =? 2 ^ k)) /\
  (wf k (tsrb_clear rb) /\ contents (tsrb_clear rb) = []) /\
  tsrb_peek_one rb = match l with [] => -1 | c :: _ => c end /\
  (exists rb', tsrb_get_one rb = (match l with [] => -1 | c :: _ => c end, rb') /\ wf k rb' /\ contents rb' = tail l) /\
  (forall n, tsrb_peek rb n = (to_int (Z.of_nat (n `min` length l)), take n l)) /\
  (forall x, 0 <= x <= 2 ^ k -> k < 31 -> to_int x = x) /\
  (forall n, exists rb', tsrb_get rb n = (to_int (Z.of_nat (n `min` length l)), take n l, rb') /\ wf k rb' /\ contents rb' = drop n l) /\
  (forall n, exists rb', tsrb_drop rb n = (to_int (Z.of_nat (n `min` length l)), rb') /\ wf k rb' /\ contents rb' = drop n l) /\
  (forall c, exists rb', tsrb_add_one rb c = (if (room =? 0)%nat then -1 else 0, rb') /\ wf k rb' /\
     contents rb' = if (room =? 0)%nat then l else l ++ [u8 c]) /\
  (forall src, exists rb', tsrb_add rb src = (to_int (Z.of_nat (length src `min` room)), rb') /\ wf k rb' /\
     contents rb' = l ++ (u8 <$> take room src)).
Proof.
  intros H l room. pose proof (count_range _ _ H) as Hc. pose proof (tsrb_length_contents rb) as Hlen. unfold count in Hlen.
  split_and!.
  - by apply (avail_contents k).
  - by apply free_contents.
  - by eapply empty_iff.
  - by eapply tsrb_full_iff.
  - destruct H. constructor; cbn; try done. rewrite Z.sub_diag. change (u32 0) with 0. pose proof (pow_bounds k wf_k0). lia.
  - unfold contents, count. cbn. by rewrite Z.sub_diag.
  - unfold tsrb_peek_one. rewrite (empty_iff _ _ H). fold l. subst l. destruct (contents rb) as [|c l'] eqn:E; [done|]. rewrite bool_decide_eq_false_2 by done.
    cbn [negb]. unfold _peek. change 0 with (Z.of_nat 0) at 2. by rewrite (contents_lookup k rb 0 c H) by by rewrite E.
  - unfold tsrb_get_one. rewrite (empty_iff _ _ H). fold l. subst l. destruct (contents rb) as [|c l'] eqn:E; [by exists rb|]. rewrite bool_decide_eq_false_2 by done.
    cbn [negb]. destruct (pop_contents _ _ _ _ H E) as (rb' & -> & ? & ?). by exists rb'.
  - intros n. unfold tsrb_peek. rewrite (avail_contents _ _ H). change 0 with (Z.of_nat 0). rewrite (peek_loop_contents k) by (done || lia).
    f_equal. f_equal. f_equal. subst l. lia.
  - intros x Hx Hk. pose proof (wf_k _ _ H). apply (to_int_small k); lia.
  - intros n. unfold tsrb_get. destruct (get_loop_contents k n rb H) as (rb' & -> & H' & E). exists rb'. split_and!; [|done..].
    fold l. f_equal. f_equal. f_equal. lia.
  - intros n. unfold tsrb_drop. destruct (drop_loop_contents k n rb H) as (rb' & -> & H' & E). exists rb'. split_and!; [|done..].
    fold l. f_equal. f_equal. lia.
  - intros c. unfold tsrb_add_one. destruct (tsrb_full rb) eqn:Hf; cbn [negb].
    + rewrite (tsrb_full_iff _ _ H) in Hf. apply Z.eqb_eq in Hf. exists rb. subst room l. destruct (Nat.eqb_spec (Z.to_nat (2 ^ k) - length (contents rb)) 0); [done|lia].
    + destruct (push_contents k rb c H Hf) as [H1 E1]. rewrite (tsrb_full_iff _ _ H) in Hf. apply Z.eqb_neq in Hf.
      exists (_push rb c). subst room l. destruct (Nat.eqb_spec (Z.to_nat (2 ^ k) - length (contents rb)) 0); [lia|done].
  - intros src. unfold tsrb_add. destruct (add_loop_contents k src rb H) as (rb' & -> & H' & E). exists rb'. split_and!; [|done..].
    fold l room. f_equal. f_equal. lia.
Qed.

(** Eight slots with counters about to wrap. *)
Definition wrapping : tsrb_t := mkTsrb [3; 4; 5; 0; 0; 0; 1; 2] 8 (2 ^ 32 - 2) 3.

Lemma tsrb_refines_queue_witness :
  contents wrapping = [1; 2; 3; 4; 5] /\
  exists rb', tsrb_add wrapping [6; 7; 8; 9] = (3, rb') /\ contents rb' = [1; 2; 3; 4; 5; 6; 7; 8].
Proof.
  split; [by vm_compute|].
  destruct (tsrb_refines_queue 3 wrapping) as (_ & _ & _ & _ & _ & _ & _ & _ & _ & H).
  { constructor; by vm_compute. }
  destruct (H [6; 7; 8; 9]) as (rb' & E & _ & C). exists rb'. split; [exact E|exact C].
Defined.
