(* ===== verification/Isrpipe.v ===== *)
(** * The pipe from an interrupt to a thread

    Models [sys/isrpipe/isrpipe.c]: a ring buffer with a mutex the reader blocks on
    when the buffer is empty; standard input arrives through one.  The functions of
    the ring buffer and of the mutex each run with interrupts disabled, so a
    call of the pipe is a sequence of such steps, and the steps of one reader and
    any number of writers interleave.  The mutex is the one of [KernelSync] as seen with
    at most one thread in its line. *)

From stdpp Require Import base list.
From Stdlib Require Import ZArith Lia.
From S2P Require Import Prelude Tsrb.

Local Open Scope Z_scope.

(** Where the reader is in [isrpipe_read]: before [tsrb_get], before [mutex_lock],
    in the line of the mutex, or returned with characters. *)
Inductive reader := Getting (count : nat) | Locking (count : nat) | Waiting (count : nat) | Returned (chars : list Z).

(** [writers] counts the writers between [tsrb_add] and [mutex_unlock]; [given] and [taken]
    record the characters the buffer accepted and the reader got. *)
Record pipe := mkPipe {
  p_rb : tsrb_t; p_locked : bool; p_reader : reader; writers : nat; given : list Z; taken : list Z
}.

Definition isrpipe_init (buffer : list Z) (bufsize : Z) : option pipe :=
  match tsrb_init buffer bufsize with
  | Some rb => Some (mkPipe rb false (Returned []) O [] [])
  | None => None
  end.

(** The first step of [isrpipe_write_one] and of [isrpipe_write], with their results. *)
Definition write_one (c : Z) (s : pipe) : Z * pipe :=
  let '(res, rb) := tsrb_add_one (p_rb s) c in
  (res, mkPipe rb (p_locked s) (p_reader s) (S (writers s))
     (given s ++ if res =? 0 then [u8 c] else []) (taken s)).
Definition write (src : list Z) (s : pipe) : Z * pipe :=
  let '(res, rb) := tsrb_add (p_rb s) src in
  (res, mkPipe rb (p_locked s) (p_reader s) (S (writers s)) (given s ++ (u8 <$> take (Z.to_nat (u32 res)) src)) (taken s)).

(** Their second step, [mutex_unlock]: the waiting reader gets the mutex, or it is free. *)
Definition write_unlock (s : pipe) : pipe :=
  match p_reader s with
  | Waiting n => mkPipe (p_rb s) (p_locked s) (Getting n) (pred (writers s)) (given s) (taken s)
  | r => mkPipe (p_rb s) false r (pred (writers s)) (given s) (taken s)
  end.

(** One round of the loop of [isrpipe_read]: [tsrb_get], and [mutex_lock] when there was nothing. *)
Definition read_get (n : nat) (s : pipe) : pipe :=
  let '(res, l, rb) := tsrb_get (p_rb s) n in
  mkPipe rb (p_locked s) (if res =? 0 then Locking n else Returned l) (writers s) (given s) (taken s ++ l).
Definition read_lock (n : nat) (s : pipe) : pipe :=
  if p_locked s then mkPipe (p_rb s) true (Waiting n) (writers s) (given s) (taken s)
  else mkPipe (p_rb s) true (Getting n) (writers s) (given s) (taken s).

Definition with_reader (r : reader) (s : pipe) : pipe :=
  mkPipe (p_rb s) (p_locked s) r (writers s) (given s) (taken s).

(** ** Interleavings

    Reads are for at least one character: for none the loop never ends. *)

Inductive step : pipe -> pipe -> Prop :=
| step_write_one c s : step s (write_one c s).2
| step_write src s : step s (write src s).2
| step_unlock s : (0 < writers s)%nat -> step s (write_unlock s)
| step_get n s : p_reader s = Getting n -> step s (read_get n s)
| step_lock n s : p_reader s = Locking n -> step s (read_lock n s)
| step_call n l s : p_reader s = Returned l -> (0 < n)%nat -> step s (with_reader (Getting n) s).

Inductive reachable (k : Z) : pipe -> Prop :=
| reach_init buffer s : 0 <= k <= 31 -> length buffer = Z.to_nat (2 ^ k) ->
    isrpipe_init buffer (2 ^ k) = Some s -> reachable k s
| reach_step s s' : reachable k s -> step s s' -> reachable k s'.

Definition pending (s : pipe) : list Z := contents (p_rb s).

(** Characters that wait are known to somebody: to a reader that will look, to a writer
    that will unlock, or to the mutex. *)
Record good (k : Z) (s : pipe) : Prop := mkGood {
  good_wf : Tsrb.wf k (p_rb s);
  good_stream : given s = taken s ++ pending s;
  good_reader : match p_reader s with
    | Getting n => (0 < n)%nat
    | Locking n => (0 < n)%nat /\ (pending s = [] \/ (0 < writers s)%nat \/ p_locked s = false)
    | Waiting n => (0 < n)%nat /\ p_locked s = true /\ (pending s = [] \/ (0 < writers s)%nat)
    | Returned _ => True
    end
}.

Lemma good_init k buffer s :
  0 <= k <= 31 -> length buffer = Z.to_nat (2 ^ k) -> isrpipe_init buffer (2 ^ k) = Some s -> good k s.
Proof.
  intros Hk Hl. unfold isrpipe_init. destruct (init_contents k buffer Hk Hl) as (rb & -> & Hw & Hc).
  intros [= <-]. constructor; cbn; [done|unfold pending; cbn; by rewrite Hc|done].
Qed.

(** The [int] a [tsrb_get] returns is zero only when there was nothing to get. *)
Lemma count_zero k n rb :
  Tsrb.wf k rb -> to_int (Z.of_nat n - Z.of_nat (n - length (contents rb))) = 0 ->
  Z.of_nat n - Z.of_nat (n - length (contents rb)) = 0.
Proof.
  intros Hw E. pose proof (count_range _ _ Hw). pose proof (pow_bounds k (wf_k _ _ Hw)).
  pose proof (tsrb_length_contents rb) as Hl. unfold count in Hl.
  rewrite <- (wrap_to_int (Z.of_nat n - Z.of_nat (n - length (contents rb)))) by lia. by rewrite E.
Qed.

(** A writer that has added characters is one that will unlock. *)
Lemma good_added k s rb new :
  good k s -> Tsrb.wf k rb -> contents rb = pending s ++ new ->
  good k (mkPipe rb (p_locked s) (p_reader s) (S (writers s)) (given s ++ new) (taken s)).
Proof.
  intros [Hw Hs Hr] Hw' Hc. constructor; cbn; [done|unfold pending at 1; cbn; by rewrite Hc, Hs, app_assoc|].
  destruct (p_reader s); try done; [destruct Hr as [Hn _]|destruct Hr as (Hn & Hl & _)]; split_and?; auto with lia.
Qed.

Lemma good_write_one k c s : good k s -> good k (write_one c s).2.
Proof.
  intros Hg. pose proof (good_wf _ _ Hg) as Hw. unfold write_one, tsrb_add_one.
  destruct (tsrb_full (p_rb s)) eqn:Hf; cbn [negb snd].
  - apply good_added; [done|done|]. cbn. by rewrite app_nil_r.
  - destruct (push_contents _ _ c Hw Hf) as [Hw' Hc]. by apply good_added.
Qed.

Lemma good_write k src s : good k s -> good k (write src s).2.
Proof.
  intros Hg. pose proof (good_wf _ _ Hg) as Hw. unfold write, tsrb_add.
  destruct (add_loop_contents k src _ Hw) as (rb & -> & Hw' & Hc). cbn [snd]. apply good_added; [done|done|].
  rewrite Hc. f_equal. set (room := (Z.to_nat (2 ^ k) - length (contents (p_rb s)))%nat).
  pose proof (pow_bounds k (wf_k _ _ Hw)). rewrite wrap_to_int by lia.
  replace (Z.to_nat (Z.of_nat (length src) - Z.of_nat (length src - room))) with (length src `min` room)%nat by lia.
  destruct (decide (length src <= room)%nat) as [Hle|Hle].
  - rewrite Nat.min_l by done. by rewrite !take_ge by lia.
  - by rewrite Nat.min_r by lia.
Qed.

Lemma good_get k n s : p_reader s = Getting n -> good k s -> good k (read_get n s).
Proof.
  intros Hr [Hw Hs Hn]. rewrite Hr in Hn. unfold read_get, tsrb_get. destruct (get_loop_contents k n _ Hw) as (rb & -> & Hw' & Hc).
  constructor; cbn; [done| |].
  - unfold pending in *. cbn. by rewrite Hc, Hs, <- app_assoc, take_drop.
  - destruct (Z.eqb_spec (to_int (Z.of_nat n - Z.of_nat (n - length (contents (p_rb s))))) 0) as [E|E]; [|done]. split; [done|].
    apply (count_zero k _ _ Hw) in E. left. unfold pending. cbn. rewrite Hc. destruct (contents (p_rb s)) as [|c l]; [apply drop_nil|]. cbn [length] in E. lia.
Qed.

Lemma good_lock k n s : p_reader s = Locking n -> good k s -> good k (read_lock n s).
Proof.
  intros Hr [Hw Hs Hn]. rewrite Hr in Hn. destruct Hn as [Hn Hp]. unfold read_lock.
  destruct (p_locked s) eqn:Hl; constructor; cbn; try done. split_and!; [done..|]. destruct Hp as [|[|]]; auto; done.
Qed.

Lemma good_unlock k s : good k s -> good k (write_unlock s).
Proof.
  intros [Hw Hs Hn]. unfold write_unlock. destruct (p_reader s) eqn:Hr; constructor; cbn; try done; [|by destruct Hn].
  destruct Hn as [Hn Hp]. split; [done|]. auto.
Qed.

Lemma reachable_good k s : reachable k s -> good k s.
Proof.
  induction 1 as [buffer s Hk Hl E|s s' _ IH Hstep]; [by eapply good_init|].
  destruct Hstep; auto using good_write_one, good_write, good_unlock, good_get, good_lock.
  destruct IH as [Hw Hs _]. by constructor.
Qed.

(** C33: In every interleaving of one reader and any number of writers the pipe delivers the
    characters its buffer accepted once and in order; and no wake-up is lost: when the reader
    waits although characters are pending, a writer has yet to unlock the mutex, and that
    brings the reader back to a [tsrb_get] that returns characters. *)
Theorem pipe_delivers k s :
  reachable k s ->
  given s = taken s ++ pending s /\
  (forall n, p_reader s = Waiting n -> pending s <> [] ->
     (0 < writers s)%nat /\
     exists l, l <> [] /\ p_reader (read_get n (write_unlock s)) = Returned l /\ l = take n (pending s)).
Proof.
  intros [Hw Hs Hn]%reachable_good. split; [done|]. intros n Hr Hp. rewrite Hr in Hn. destruct Hn as (Hn & _ & [?|Hwr]); [done|].
  split; [done|]. exists (take n (pending s)). split_and!; [|unfold write_unlock; rewrite Hr|done].
  { destruct n; [lia|]. by destruct (pending s). }
  unfold read_get, tsrb_get. cbn [p_rb]. destruct (get_loop_contents k n _ Hw) as (rb & -> & _). cbn [p_reader]. unfold pending in Hp.
  destruct (Z.eqb_spec (to_int (Z.of_nat n - Z.of_nat (n - length (contents (p_rb s))))) 0) as [E|E]; [|done].
  apply (count_zero k _ _ Hw) in E. destruct (contents (p_rb s)); [done|]. cbn in E. lia.
Qed.

(** The reader looks, finds nothing and is overtaken by a writer before it has taken the mutex
    a first time; the second round blocks with a character pending and the writer's unlock to come. *)
Definition overtaken : pipe :=
  let s := mkPipe (mkTsrb [0; 0] 2 0 0) false (Returned []) O [] [] in
  let s := with_reader (Getting 2) s in
  let s := read_lock 2 (read_get 2 s) in
  let s := read_get 2 s in
  read_lock 2 (write_one 65 s).2.

Lemma overtaken_reachable : reachable 1 overtaken.
Proof.
  unfold overtaken.
  repeat first
    [ eapply reach_step; [|apply step_lock; by vm_compute]
    | eapply reach_step; [|apply step_write_one]
    | eapply reach_step; [|apply step_get; by vm_compute]
    | eapply reach_step; [|apply (step_call _ []); [by vm_compute|lia]] ].
  apply (reach_init 1 [0; 0]); [lia|done|by vm_compute].
Qed.

Lemma pipe_delivers_witness :
  pending overtaken = [65] /\ p_reader overtaken = Waiting 2 /\ writers overtaken = 1%nat /\
  exists l, p_reader (read_get 2 (write_unlock overtaken)) = Returned l /\ l = [65].
Proof.
  split_and!; [by vm_compute..|]. destruct (pipe_delivers 1 overtaken overtaken_reachable) as [_ H].
  destruct (H 2%nat) as (_ & l & _ & E & ->); [by vm_compute|by vm_compute|]. exists [65]. split; [exact E|reflexivity].
Defined.
