(* ===== verification/Ztimer.v ===== *)
(** * Timers

    Models [sys/ztimer/core.c] with the inline functions of [sys/include/ztimer.h]: a clock
    with a linked list of timers, each with the ticks between the timer in front of it
    and itself; setting, removing and firing timers; the extension of a
    narrow hardware counter to 32 bits ([MODULE_ZTIMER_EXTEND]) and the
    counting of users ([MODULE_ZTIMER_ONDEMAND]).  The counter below is a parameter.
    The power-mode hooks ([MODULE_PM_LAYERED]) and the 64-bit variant are not part
    of the configuration. *)

From stdpp Require Import base gmap list.
From Stdlib Require Import ZArith Lia.
From S2P Require Import Prelude.

Local Open Scope Z_scope.

Definition UINT32_MAX : Z := 2 ^ 32 - 1.
Definition _min_u32 (a b : Z) : Z := if a <? b then a else b.

(** The methods of the hardware below a clock. *)
Class Device (H : Type) := {
  dev_set : Z -> H -> H;
  dev_now : H -> Z * H;
  dev_cancel : H -> H;
  dev_start : H -> H;
  dev_stop : H -> H
}.

(** The modules built in and the constant members of the clock; [clk] is the address of
    the clock, whose first member is the head of the list. *)
Class Clock := {
  extend : bool;
  ondemand : bool;
  clk : Z;
  max_value : Z;
  adjust_set : Z;
  adjust_clock_start : Z
}.

Record ztimer_base := mkBase { b_next : Z; b_offset : Z }.
Abbreviation timers := (gmap Z ztimer_base).

Definition nxt (h : timers) (p : Z) : Z := default 0 (b_next <$> h !! p).
Definition off (h : timers) (p : Z) : Z := default 0 (b_offset <$> h !! p).
Definition set_nxt (p v : Z) (h : timers) : timers := <[p := mkBase v (off h p)]> h.
Definition set_off (p v : Z) (h : timers) : timers := <[p := mkBase (nxt h p) (u32 v)]> h.

Section Ztimer.
Context {H : Type} `{HD : Device H} `{HC : Clock}.

(** The members that change, the hardware, and the timers whose callbacks ran. *)
Record zclock := mkClock {
  z_list : timers; z_last : Z; z_users : Z; z_lower_last : Z; z_checkpoint : Z; z_hw : H; z_fired : list Z
}.
Abbreviation zc A := (cmd zclock unit A).

Definition on_list (f : timers -> timers) : zc unit := modify (fun s =>
  mkClock (f (z_list s)) (z_last s) (z_users s) (z_lower_last s) (z_checkpoint s) (z_hw s) (z_fired s)).
Definition set_last (p : Z) : zc unit := modify (fun s =>
  mkClock (z_list s) p (z_users s) (z_lower_last s) (z_checkpoint s) (z_hw s) (z_fired s)).
Definition set_users (n : Z) : zc unit := modify (fun s =>
  mkClock (z_list s) (z_last s) (u16 n) (z_lower_last s) (z_checkpoint s) (z_hw s) (z_fired s)).
Definition set_extension (lower checkpoint : Z) : zc unit := modify (fun s =>
  mkClock (z_list s) (z_last s) (z_users s) lower (u32 checkpoint) (z_hw s) (z_fired s)).
Definition on_hw (f : H -> H) : zc unit := modify (fun s =>
  mkClock (z_list s) (z_last s) (z_users s) (z_lower_last s) (z_checkpoint s) (f (z_hw s)) (z_fired s)).
Definition lower_now : zc Z := fun s =>
  let r := dev_now (z_hw s) in
  Ok (fst r, mkClock (z_list s) (z_last s) (z_users s) (z_lower_last s) (z_checkpoint s) (snd r) (z_fired s)).

(** A loop that ran out of fuel. *)
Definition of_loop {A} (o : option A) : zc A := match o with Some a => mret a | None => fail tt end.

(** ** Time *)

Definition _add_modulo (a b mod_ : Z) : Z :=
  let a := if a <? b then u32 (a + mod_ + 1) else a in u32 (a - b).

(** [None] of the first test is the failed assertion on [max_value]. *)
Definition _ztimer_now_extend : zc Z :=
  check tt (negb (max_value =? 0)) ;;
  lower ← lower_now;
  last ← gets z_lower_last;
  cp ← gets z_checkpoint;
  set_extension lower (cp + _add_modulo lower last max_value) ;;
  gets z_checkpoint.

Definition ztimer_now : zc Z :=
  if extend && (max_value <? UINT32_MAX) then _ztimer_now_extend else lower_now.

(** ** The list *)

Definition _is_set (s : zclock) (t : Z) : bool :=
  if nxt (z_list s) clk =? 0 then false
  else negb (nxt (z_list s) t =? 0) || (t =? z_last s).

Definition ztimer_is_set (t : Z) : zc bool := gets (fun s => _is_set s t).

(** The entries set to an earlier target: the one in front of the new entry, and the sum of
    the offsets up to it. *)
Fixpoint add_scan (fuel : nat) (h : timers) (target list delta_sum : Z) : option (Z * Z) :=
  match fuel with
  | O => None
  | S fuel =>
      let e := nxt h list in
      if e =? 0 then Some (list, delta_sum)
      else if target <? u32 (off h e + delta_sum) then Some (list, delta_sum)
      else add_scan fuel h target e (u32 (delta_sum + off h e))
  end.

Definition _add_entry_to_list (entry : Z) : zc unit :=
  r ← gets (fun s => let h := z_list s in add_scan (S (size h)) h (off h entry) clk 0);
  r ← of_loop r;
  let '(list, delta_sum) := r in
  on_list (fun h => set_nxt entry (nxt h list) h) ;;
  on_list (fun h => set_off entry (off h entry - delta_sum) h) ;;
  next ← gets (fun s => nxt (z_list s) entry);
  (if negb (next =? 0) then on_list (fun h => set_off next (off h next - off h entry) h) else set_last entry) ;;
  on_list (set_nxt list entry).

(** The next timer after [entry] whose offset is not zero. *)
Fixpoint skip_zero (fuel : nat) (h : timers) (entry : Z) : option Z :=
  match fuel with
  | O => None
  | S fuel =>
      let entry := nxt h entry in
      if negb (entry =? 0) && (off h entry =? 0) then skip_zero fuel h entry else Some entry
  end.

Fixpoint update_loop (fuel : nat) (h : timers) (entry diff : Z) : option timers :=
  match fuel with
  | O => None
  | S fuel =>
      if diff <=? off h entry then Some (set_off entry (off h entry - diff) h)
      else
        let diff := u32 (diff - off h entry) in
        let h := set_off entry 0 h in
        if negb (diff =? 0) then
          match skip_zero (S (size h)) h entry with
          | None => None
          | Some entry => if entry =? 0 then Some h else update_loop fuel h entry diff
          end
        else Some h
  end.

Definition _ztimer_update_head_offset : zc Z :=
  old_base ← gets (fun s => off (z_list s) clk);
  now ← ztimer_now;
  let diff := u32 (now - old_base) in
  entry ← gets (fun s => nxt (z_list s) clk);
  (if negb (entry =? 0) then
     r ← gets (fun s => update_loop (S (size (z_list s))) (z_list s) entry diff);
     h ← of_loop r;
     on_list (fun _ => h)
   else mret tt) ;;
  on_list (set_off clk now) ;;
  mret now.

(** The entry in front of [entry]. *)
Fixpoint del_scan (fuel : nat) (h : timers) (entry list : Z) : option (option Z) :=
  match fuel with
  | O => None
  | S fuel =>
      let e := nxt h list in
      if e =? 0 then Some None
      else if e =? entry then Some (Some list)
      else del_scan fuel h entry e
  end.

Definition _del_entry_from_list (entry : Z) : zc bool :=
  set ← gets (fun s => _is_set s entry);
  check tt set ;;
  r ← gets (fun s => del_scan (S (size (z_list s))) (z_list s) entry clk);
  r ← of_loop r;
  match r with
  | None => mret false
  | Some list =>
      last ← gets z_last;
      (if entry =? last then set_last (if list =? clk then 0 else list) else mret tt) ;;
      on_list (fun h => set_nxt list (nxt h entry) h) ;;
      next ← gets (fun s => nxt (z_list s) list);
      (if negb (next =? 0) then on_list (fun h => set_off next (off h next + off h entry) h) else mret tt) ;;
      on_list (set_nxt entry 0) ;;
      mret true
  end.

Definition _now_next : zc Z :=
  entry ← gets (fun s => nxt (z_list s) clk);
  o ← gets (fun s => off (z_list s) entry);
  if negb (entry =? 0) && (o =? 0) then
    next ← gets (fun s => nxt (z_list s) entry);
    on_list (set_nxt clk next) ;;
    (if next =? 0 then set_last 0 else on_list (set_nxt entry 0)) ;;
    mret entry
  else mret 0.

(** ** Arming the hardware *)

Definition _ztimer_update : zc unit :=
  head ← gets (fun s => nxt (z_list s) clk);
  o ← gets (fun s => off (z_list s) head);
  if extend && (max_value <? UINT32_MAX) then
    if negb (head =? 0) then on_hw (dev_set (_min_u32 o (Z.shiftr max_value 1)))
    else on_hw (dev_set (Z.shiftr max_value 1))
  else if negb (head =? 0) then on_hw (dev_set o)
  else on_hw dev_cancel.

Definition _ztimer_acquire : zc bool :=
  users ← gets z_users;
  set_users (users + 1) ;;
  if users =? 0 then on_hw dev_start ;; mret true else mret false.

(** Without the module a clock has no users. *)
Definition ztimer_acquire : zc bool :=
  if ondemand then
    first ← _ztimer_acquire;
    (if first : bool then _ztimer_update else mret tt) ;; mret first
  else mret false.

Definition ztimer_release : zc bool :=
  if ondemand then
    users ← gets z_users;
    check tt (0 <? users) ;;
    set_users (users - 1) ;;
    if users - 1 =? 0 then on_hw dev_cancel ;; on_hw dev_stop ;; mret true else mret false
  else mret false.

(** ** Operations *)

Definition subtract_to_zero (val adjust : Z) : Z := if adjust <? val then val - adjust else 0.

Definition ztimer_set (timer val : Z) : zc Z :=
  first ← (if ondemand then _ztimer_acquire else mret false);
  let val := if first : bool then subtract_to_zero val adjust_clock_start else val in
  now ← _ztimer_update_head_offset;
  set ← gets (fun s => _is_set s timer);
  was_set ← (if set : bool then _del_entry_from_list timer else mret false);
  let val := subtract_to_zero val adjust_set in
  on_list (set_off timer val) ;;
  _add_entry_to_list timer ;;
  head ← gets (fun s => nxt (z_list s) clk);
  (if head =? timer then
     on_hw (dev_set (if extend && (max_value <? UINT32_MAX) then _min_u32 val (Z.shiftr max_value 1) else val))
   else mret tt) ;;
  (if ondemand && (was_set : bool) then ztimer_release else mret false) ;;
  mret now.

Definition ztimer_remove (timer : Z) : zc bool :=
  set ← gets (fun s => _is_set s timer);
  if set : bool then
    _ztimer_update_head_offset ;;
    was_removed ← _del_entry_from_list timer;
    no_user ← (if was_removed : bool then ztimer_release else mret false);
    (if negb no_user then _ztimer_update else mret tt) ;;
    mret was_removed
  else mret false.

(** ** The interrupt *)

(** What the callback of a timer does to the clock. *)
Variable callback : Z -> zclock -> zclock.

Definition call (entry : Z) : zc unit := modify (fun s =>
  callback entry (mkClock (z_list s) (z_last s) (z_users s) (z_lower_last s) (z_checkpoint s) (z_hw s) (z_fired s ++ [entry]))).

(** The loop over expired timers, from [entry]: whether the last user has gone. *)
Fixpoint fire_loop (fuel : nat) (entry : Z) : zc bool :=
  match fuel with
  | O => fail tt
  | S fuel =>
      if entry =? 0 then mret false
      else
        call entry ;;
        no_user ← ztimer_release;
        if no_user : bool then mret true
        else
          entry ← _now_next;
          if entry =? 0 then
            _ztimer_update_head_offset ;;
            entry ← _now_next;
            fire_loop fuel entry
          else fire_loop fuel entry
  end.

Definition fire (fuel : nat) : zc unit :=
  head ← gets (fun s => nxt (z_list s) clk);
  no_user ←
    (if negb (head =? 0) then
       on_list (fun h => set_off clk (off h clk + off h head) h) ;;
       on_list (set_off head 0) ;;
       entry ← _now_next;
       fire_loop fuel entry
     else mret false);
  if negb no_user then _ztimer_update else mret tt.

Definition ztimer_handler (fuel : nat) : zc unit :=
  if extend && (max_value <? UINT32_MAX) then
    now ← ztimer_now;
    head ← gets (fun s => nxt (z_list s) clk);
    if negb (head =? 0) then
      target ← gets (fun s => u32 (off (z_list s) clk + off (z_list s) head));
      let diff := s32 (u32 (target - now)) in
      if 0 <? diff then on_hw (dev_set (_min_u32 diff (Z.shiftr max_value 1)))
      else fire fuel
    else on_hw (dev_set (Z.shiftr max_value 1))
  else fire fuel.
End Ztimer.
