(* ===== verification/ZtimerSpec.v ===== *)
(** * What the timers do

    The list of a clock holds its timers in the order of their deadlines, as the
    differences of the deadlines.  Setting, removing and the passing of time are the
    operations on the list of timers with the ticks left to each. *)

From stdpp Require Import base gmap list sorting.
From Stdlib Require Import ZArith Lia.
From S2P Require Import Prelude Ztimer.

Local Open Scope Z_scope.

(** ** The store of timers *)

Section Store.
Implicit Types (h : timers) (p x v : Z).

Lemma nxt_set_nxt h p v x : nxt (set_nxt p v h) x = if decide (p = x) then v else nxt h x.
Proof. unfold nxt, set_nxt. case_decide; subst; [by rewrite lookup_insert_eq|by rewrite lookup_insert_ne]. Qed.
Lemma off_set_nxt h p v x : off (set_nxt p v h) x = off h x.
Proof.
  unfold set_nxt, off at 1. destruct (decide (p = x)) as [->|]; [by rewrite lookup_insert_eq|by rewrite lookup_insert_ne].
Qed.
Lemma nxt_set_off h p v x : nxt (set_off p v h) x = nxt h x.
Proof.
  unfold set_off, nxt at 1. destruct (decide (p = x)) as [->|]; [by rewrite lookup_insert_eq|by rewrite lookup_insert_ne].
Qed.
Lemma off_set_off h p v x : off (set_off p v h) x = if decide (p = x) then u32 v else off h x.
Proof. unfold off, set_off. case_decide; subst; [by rewrite lookup_insert_eq|by rewrite lookup_insert_ne]. Qed.
Lemma dom_set_nxt h p v : dom (set_nxt p v h) = {[p]} ∪ dom h.
Proof. apply dom_insert_L. Qed.
Lemma dom_set_off h p v : dom (set_off p v h) = {[p]} ∪ dom h.
Proof. apply dom_insert_L. Qed.
End Store.

(** Reads a store through the writes to it. *)
Ltac ztimer_store := repeat first
  [ rewrite nxt_set_nxt | rewrite off_set_nxt | rewrite nxt_set_off | rewrite off_set_off | rewrite dom_set_nxt | rewrite dom_set_off ].

(** ** Timers with the ticks left to them *)

Abbreviation due := (Z * Z)%type.
Implicit Types (h : timers) (D : list due).

(** The last timer of a list that follows [p], and the ticks to it. *)
Definition endp (p : Z) D : Z := default p (last D.*1).
Definition enda (a : Z) D : Z := default a (last D.*2).

(** [D] is linked behind [p], which is [a] ticks away. *)
Fixpoint queued h (p a : Z) D : Prop :=
  match D with
  | [] => True
  | (t, d) :: D => nxt h p = t /\ t <> 0 /\ a <= d < 2 ^ 32 /\ off h t = d - a /\ queued h t d D
  end.

Lemma endp_cons p t d D : endp p ((t, d) :: D) = endp t D.
Proof. unfold endp. destruct D as [|[u e] D] using rev_ind; [done|]. rewrite app_comm_cons, !fmap_app, !last_app. done. Qed.
Lemma enda_cons a t d D : enda a ((t, d) :: D) = enda d D.
Proof. unfold enda. destruct D as [|[u e] D] using rev_ind; [done|]. rewrite app_comm_cons, !fmap_app, !last_app. done. Qed.

Lemma queued_app h p a D E : queued h p a (D ++ E) <-> queued h p a D /\ queued h (endp p D) (enda a D) E.
Proof.
  revert p a. induction D as [|[t d] D IH]; intros p a; cbn [app queued]; [tauto|].
  rewrite IH, endp_cons, enda_cons. tauto.
Qed.

Lemma queued_mono h p a D : queued h p a D -> Forall (fun e => a <= e.2 < 2 ^ 32) D.
Proof.
  revert p a. induction D as [|[t d] D IH]; intros p a; cbn [queued]; [constructor|]. intros (_ & _ & Hd & _ & Hq).
  constructor; [exact Hd|]. eapply Forall_impl; [by eapply IH|]. cbn. lia.
Qed.

Lemma queued_end h p a D : queued h p a D -> a < 2 ^ 32 -> a <= enda a D < 2 ^ 32.
Proof.
  revert p a. induction D as [|[t d] D IH]; intros p a; cbn [queued]; [cbn; lia|]. intros (_ & _ & Hd & _ & Hq) Ha.
  rewrite enda_cons. specialize (IH _ _ Hq ltac:(lia)). lia.
Qed.

Lemma queued_sorted h p a D : queued h p a D -> Sorted Z.le D.*2.
Proof.
  revert p a. induction D as [|[t d] D IH]; intros p a; cbn [queued fmap list_fmap]; [constructor|]. intros (_ & _ & _ & _ & Hq).
  constructor; [by eapply IH|]. destruct D as [|[u e] D]; constructor. destruct Hq as (_ & _ & He & _). cbn. lia.
Qed.

Lemma endp_in p D : endp p D ∈ p :: D.*1.
Proof.
  unfold endp. destruct D as [|[u e] D] using rev_ind; [left|]. rewrite fmap_app, last_app. cbn. right. apply elem_of_app. right. left.
Qed.

Lemma queued_nxt h p a D x : queued h p a D -> x ∈ p :: D.*1 -> x <> endp p D -> nxt h x <> 0.
Proof.
  revert p a. induction D as [|[t d] D IH]; intros p a; cbn [queued fmap list_fmap fst].
  - intros _ ->%list_elem_of_singleton. done.
  - intros (Hp & Ht & _ & _ & Hq) [->|Hx]%elem_of_cons; [by rewrite Hp|]. rewrite endp_cons. by eapply IH.
Qed.

(** The list only depends on the links in front of its end and on its offsets. *)
Lemma queued_frame h h' p a D :
  NoDup (p :: D.*1) -> (forall x, x ∈ p :: D.*1 -> x <> endp p D -> nxt h' x = nxt h x) ->
  (forall x, x ∈ D.*1 -> off h' x = off h x) -> queued h p a D -> queued h' p a D.
Proof.
  revert p a. induction D as [|[t d] D IH]; intros p a Hd Hn Ho; cbn [queued]; [done|].
  rewrite endp_cons in Hn. cbn [fmap list_fmap fst] in *. apply NoDup_cons in Hd as [Hp Hd].
  intros (H1 & H2 & H3 & H4 & H5). split_and!; [|done|lia|lia|rewrite Ho; [done|left]|].
  - rewrite Hn; [done|left|]. intros E. apply Hp. rewrite E. apply endp_in.
  - apply IH; [done| |intros x Hx; apply Ho; by right|done]. intros x Hx. apply Hn. by right.
Qed.

(** Equal links and offsets everywhere. *)
Lemma queued_ext h h' p a D :
  (forall x, x ∈ p :: D.*1 -> nxt h' x = nxt h x) -> (forall x, x ∈ D.*1 -> off h' x = off h x) ->
  queued h p a D -> queued h' p a D.
Proof.
  revert p a. induction D as [|[t d] D IH]; intros p a Hn Ho; cbn [queued]; [done|]. cbn [fmap list_fmap fst] in *.
  intros (H1 & H2 & H3 & H4 & H5). split_and!; [by rewrite Hn by left|done|lia|lia|rewrite Ho; [done|left]|].
  apply IH; [intros x Hx; apply Hn; by right|intros x Hx; apply Ho; by right|done].
Qed.

(** ** Inserting *)

(** The timers due no later than [v], and the others. *)
Fixpoint earlier (v : Z) D : list due :=
  match D with [] => [] | e :: D => if e.2 <=? v then e :: earlier v D else [] end.
Fixpoint later (v : Z) D : list due :=
  match D with [] => [] | e :: D' => if e.2 <=? v then later v D' else D end.
Definition insert_due (t v : Z) D : list due := earlier v D ++ (t, v) :: later v D.

Lemma earlier_later v D : earlier v D ++ later v D = D.
Proof. induction D as [|e D IH]; cbn; [done|]. destruct (e.2 <=? v); cbn; [by rewrite IH|done]. Qed.

Lemma insert_due_perm t v D : insert_due t v D ≡ₚ (t, v) :: D.
Proof. unfold insert_due. rewrite <- Permutation_middle. by rewrite earlier_later. Qed.

Lemma earlier_end a v D : a <= v -> enda a (earlier v D) <= v.
Proof.
  revert a. induction D as [|[t d] D IH]; intros a Ha; cbn [earlier snd]; [done|].
  destruct (Z.leb_spec d v); [|done]. rewrite enda_cons. by apply IH.
Qed.

Lemma later_head v D t d E : later v D = (t, d) :: E -> v < d.
Proof.
  induction D as [|[u e] D IH]; cbn [later snd]; [done|]. destruct (Z.leb_spec e v); [done|]. by intros [= -> -> _].
Qed.

Lemma add_scan_spec fuel h v p a D :
  queued h p a D -> nxt h (endp p D) = 0 -> 0 <= a <= v -> (length D < fuel)%nat ->
  add_scan fuel h v p a = Some (endp p (earlier v D), enda a (earlier v D)).
Proof.
  revert p a D. induction fuel as [|fuel IH]; intros p a D Hq H0 Ha Hf; [lia|]. cbn [add_scan].
  destruct D as [|[t d] D]; cbn [queued earlier length snd] in *.
  { change (nxt h p = 0) in H0. by rewrite H0. }
  destruct Hq as (-> & Ht & Hd & Ho & Hq). destruct (Z.eqb_spec t 0); [done|]. rewrite Ho.
  replace (d - a + a) with d by lia. replace (a + (d - a)) with d by lia. rewrite wrap_small by (unfold is_word; lia).
  destruct (Z.ltb_spec v d), (Z.leb_spec d v); try lia; [done|].
  rewrite endp_cons, enda_cons. rewrite endp_cons in H0. apply IH; [done|done|lia|lia].
Qed.

(** ** The clock *)

Section Spec.
Context {H : Type} `{HD : Device H} `{HC : Clock}.
Implicit Types (s : zclock (H := H)).
Abbreviation zc A := (cmd (zclock (H := H)) unit A).

(** The list [h] of the clock, with its last timer, holds the timers [D]. *)
Record held h (last_ : Z) D : Prop := mkHeld {
  held_nodup : NoDup (clk :: D.*1);
  held_queued : queued h clk 0 D;
  held_end : nxt h (endp clk D) = 0;
  held_last : last_ = default 0 (last D.*1);
  held_unset : forall t, t ∉ clk :: D.*1 -> nxt h t = 0;
  held_dom : forall t, t ∈ clk :: D.*1 -> t ∈ dom h;
  held_clk : clk <> 0
}.

Definition holds s D : Prop := held (z_list s) (z_last s) D.

Lemma held_fuel h l D : held h l D -> (length D < S (size h))%nat.
Proof using.
  intros Hh. assert (length (clk :: D.*1) <= size h)%nat as Hle; [|rewrite length_cons, length_fmap in Hle; lia].
  rewrite <- (size_list_to_set (C := gset Z) (clk :: D.*1)) by apply Hh. rewrite <- size_dom.
  apply subseteq_size. intros x Hx%elem_of_list_to_set. by apply Hh.
Qed.

(** A timer is set exactly when it is in the list. *)
Lemma is_set_iff s D t : holds s D -> t <> clk -> t <> 0 -> _is_set s t = bool_decide (t ∈ D.*1).
Proof using.
  intros Hh Hc H0. unfold _is_set. destruct D as [|[u d] D].
  - rewrite (held_end _ _ _ Hh : nxt _ clk = 0). cbn. by rewrite bool_decide_eq_false_2 by apply not_elem_of_nil.
  - destruct (held_queued _ _ _ Hh) as (Hn & Hu & _). rewrite Hn. destruct (Z.eqb_spec u 0); [done|].
    rewrite (held_last _ _ _ Hh). case_bool_decide as Hin.
    + destruct (decide (t = endp clk ((u, d) :: D))) as [E|E].
      * apply orb_true_iff. right. rewrite E. unfold endp. cbn [fmap list_fmap fst]. rewrite last_cons. by destruct (last D.*1); apply Z.eqb_eq.
      * apply orb_true_iff. left. apply negb_true_iff, Z.eqb_neq.
        eapply queued_nxt; [apply Hh|by right|exact E].
    + apply orb_false_iff. split.
      * apply negb_false_iff, Z.eqb_eq. apply Hh. by apply not_elem_of_cons.
      * apply Z.eqb_neq. intros ->. apply Hin. cbn [fmap list_fmap fst]. rewrite last_cons.
        destruct (last D.*1) as [x|] eqn:El; cbn; [right; by apply last_Some_elem_of|left].
Qed.

Lemma endp_app p D E : endp p (D ++ E) = endp (endp p D) E.
Proof using. revert p. induction D as [|[t d] D IH]; intros p; cbn [app]; [done|]. by rewrite !endp_cons, IH. Qed.

(** The store after an insertion, by its links and offsets. *)
Record inserted h h' (p t v a : Z) : Prop := mkInserted {
  ins_nxt : forall x, nxt h' x = if decide (x = p) then t else if decide (x = t) then nxt h p else nxt h x;
  ins_off : forall x, off h' x = if decide (x = t) then v - a
    else if decide (x = nxt h p /\ x <> 0) then off h x - (v - a) else off h x;
  ins_dom : forall x, x ∈ dom h \/ x = t -> x ∈ dom h'
}.

Section Insert.
Variables (h h' : timers) (last_ t v : Z) (D : list due).
Hypothesis Hh : held h last_ D.
Hypothesis Ht : t ∉ clk :: D.*1.
Hypothesis H0 : t <> 0.
Hypothesis Hv : 0 <= v < 2 ^ 32.
Let p := endp clk (earlier v D).
Let a := enda 0 (earlier v D).
Hypothesis Hi : inserted h h' p t v a.

Lemma fst_split : D.*1 = (earlier v D).*1 ++ (later v D).*1.
Proof using. by rewrite <- fmap_app, earlier_later. Qed.

Lemma insert_parts : queued h clk 0 (earlier v D) /\ queued h p a (later v D).
Proof using Hh. apply queued_app. rewrite earlier_later. apply Hh. Qed.

Lemma insert_front : queued h' clk 0 (earlier v D).
Proof using Hh Ht Hi.
  destruct insert_parts as [Hq Hl]. pose proof (held_nodup _ _ _ Hh) as Hd. rewrite fst_split, app_comm_cons in Hd. apply NoDup_app in Hd as (Hd1 & Hdis & _).
  rewrite fst_split, app_comm_cons in Ht. eapply queued_frame; [done| | |exact Hq].
  - intros x Hx Hp. rewrite (ins_nxt _ _ _ _ _ _ Hi). fold p in Hp. rewrite decide_False by done.
    rewrite decide_False; [done|]. intros ->. apply Ht. apply elem_of_app. by left.
  - intros x Hx. rewrite (ins_off _ _ _ _ _ _ Hi). rewrite decide_False by (intros ->; apply Ht, elem_of_app; left; by right).
    rewrite decide_False; [done|]. intros [E Hx0]. destruct (later v D) as [|[u d] L] eqn:EL.
    + pose proof (held_end _ _ _ Hh) as He. rewrite <- (earlier_later v D), EL, app_nil_r in He. fold p in He. by rewrite He in E.
    + destruct Hl as (Hu & _). rewrite Hu in E. subst x. apply (Hdis u); [by right|left].
Qed.

Lemma insert_back : queued h' t v (later v D) /\ nxt h' (endp t (later v D)) = 0.
Proof using Hh Ht H0 Hv Hi.
  destruct insert_parts as [_ Hl]. pose proof (held_nodup _ _ _ Hh) as Hd. rewrite fst_split, app_comm_cons in Hd. apply NoDup_app in Hd as (_ & Hdis & Hd2).
  rewrite fst_split, app_comm_cons in Ht. pose proof (endp_in clk (earlier v D)) as Hp. fold p in Hp.
  pose proof (held_end _ _ _ Hh) as He. rewrite <- (earlier_later v D), endp_app in He. fold p in He.
  assert (t <> p) as Htp by (intros ->; apply Ht, elem_of_app; by left).
  destruct (later v D) as [|[u d] L] eqn:EL.
  - split; [done|]. change (endp t []) with t. rewrite (ins_nxt _ _ _ _ _ _ Hi), decide_False, decide_True by done. exact He.
  - cbn [queued fmap list_fmap fst] in *. destruct Hl as (Hu & Hu0 & Hd & Ho & Hl). apply later_head in EL. rewrite endp_cons in He |- *.
    assert (forall x, x ∈ u :: L.*1 -> nxt h' x = nxt h x) as Hn.
    { intros x Hx. rewrite (ins_nxt _ _ _ _ _ _ Hi). rewrite decide_False by (intros ->; by apply (Hdis p)).
      rewrite decide_False; [done|]. intros ->. apply Ht, elem_of_app. by right. }
    split; [|rewrite Hn; [exact He|apply endp_in]].
    assert (u <> t) as Hut by (intros ->; apply Ht, elem_of_app; right; left).
    split_and!; [|done|lia|lia| |].
    + by rewrite (ins_nxt _ _ _ _ _ _ Hi), decide_False, decide_True by done.
    + rewrite (ins_off _ _ _ _ _ _ Hi), decide_False, decide_True by done. lia.
    + eapply queued_ext; [exact Hn| |exact Hl]. intros x Hx. rewrite (ins_off _ _ _ _ _ _ Hi).
      rewrite decide_False by (intros ->; apply Ht, elem_of_app; right; by right).
      rewrite decide_False; [done|]. intros [-> _]. rewrite Hu in Hx. by apply NoDup_cons in Hd2 as [? _].
Qed.

Lemma insert_held : held h' (if nxt h p =? 0 then t else last_) (insert_due t v D).
Proof using Hh Ht H0 Hv Hi.
  destruct insert_back as [Hb He]. pose proof insert_front as Hf. pose proof (endp_in clk (earlier v D)) as Hp. fold p in Hp.
  assert (insert_due t v D ≡ₚ (t, v) :: D) as HP by apply insert_due_perm.
  assert ((insert_due t v D).*1 ≡ₚ t :: D.*1) as HP1 by (by rewrite HP).
  constructor.
  - rewrite HP1. rewrite Permutation_swap. apply NoDup_cons. split; [exact Ht|apply Hh].
  - unfold insert_due. apply queued_app. split; [exact Hf|]. fold p a.
    cbn [queued]. split_and!; [by rewrite (ins_nxt _ _ _ _ _ _ Hi), decide_True|done| |lia| |exact Hb].
    + apply earlier_end. lia.
    + by rewrite (ins_off _ _ _ _ _ _ Hi), decide_True.
  - unfold insert_due. by rewrite endp_app, endp_cons.
  - unfold insert_due. rewrite fmap_app, last_app. cbn [fmap list_fmap fst]. rewrite last_cons.
    rewrite (held_last _ _ _ Hh). destruct insert_parts as [_ Hl]. rewrite fst_split, last_app.
    destruct (later v D) as [|[u d] L] eqn:EL.
    + pose proof (held_end _ _ _ Hh) as He'. rewrite <- (earlier_later v D), EL, app_nil_r in He'. fold p in He'. by rewrite He'.
    + destruct Hl as (-> & Hu0 & _). rewrite (proj2 (Z.eqb_neq u 0)) by done. cbn [fmap list_fmap fst]. rewrite last_cons. by destruct (last L.*1).
  - intros x. rewrite HP1. intros Hx. rewrite !not_elem_of_cons in Hx. destruct Hx as (Hxc & Hxt & HxD).
    rewrite (ins_nxt _ _ _ _ _ _ Hi). rewrite decide_False.
    + rewrite decide_False by done. apply Hh. by apply not_elem_of_cons.
    + intros ->. rewrite fst_split in HxD. apply elem_of_cons in Hp as [|Hp]; [done|]. apply HxD, elem_of_app. by left.
  - intros x. rewrite HP1. rewrite !elem_of_cons. intros Hx. apply Hi. destruct Hx as [->|[->|Hx]]; [left|by right|left]; apply Hh; [left|by right].
  - apply Hh.
Qed.
End Insert.

(** Everything but the list of timers and its last member. *)
Definition rest s : Z * Z * Z * H * list Z := (z_users s, z_lower_last s, z_checkpoint s, z_hw s, z_fired s).
Definition base s : Z := off (z_list s) clk.

(** The node behind the place of a new timer. *)
Lemma insert_next h l v D t :
  held h l D -> t ∉ clk :: D.*1 ->
  let n := nxt h (endp clk (earlier v D)) in
  n = 0 \/ n <> 0 /\ n <> clk /\ n <> t /\ v - enda 0 (earlier v D) <= off h n < 2 ^ 32.
Proof using.
  intros Hh Ht n. destruct (insert_parts h l v D Hh) as [Hq1 Hq]. fold n in Hq.
  destruct (later v D) as [|[u d] L] eqn:EL.
  - left. pose proof (held_end _ _ _ Hh) as He. rewrite <- (earlier_later v D), EL, app_nil_r in He. exact He.
  - right. destruct Hq as (Hu & Hu0 & Hd & Ho & _). fold n in Hu. apply later_head in EL as Hlt. rewrite Hu.
    assert (u ∈ D.*1) as Hin by (rewrite (fst_split v D), EL; apply elem_of_app; right; left).
    pose proof (held_nodup _ _ _ Hh) as [Hnd _]%NoDup_cons.
    pose proof (queued_end _ _ _ _ Hq1 ltac:(lia)).
    split_and!; [done|congruence|intros ->; apply Ht; by right|lia|lia].
Qed.

(** The writes of an insertion. *)
Definition linked h (p a t : Z) : timers :=
  let h := set_nxt t (nxt h p) h in
  let h := set_off t (off h t - a) h in
  set_nxt p t (if negb (nxt h t =? 0) then set_off (nxt h t) (off h (nxt h t) - off h t) h else h).

Lemma linked_inserted h l v D t :
  held h l D -> t ∉ clk :: D.*1 -> off h t = v -> 0 <= v < 2 ^ 32 ->
  let p := endp clk (earlier v D) in
  let a := enda 0 (earlier v D) in
  t <> p /\ inserted h (linked h p a t) p t v a /\ off (linked h p a t) clk = off h clk.
Proof using.
  intros Hh Ht Ev Hv p a. pose proof (insert_next h l v D t Hh Ht) as Hn. fold p a in Hn. cbv zeta in Hn.
  destruct (insert_parts h l v D Hh) as [Hq1 _]. pose proof (queued_end _ _ _ _ Hq1 ltac:(lia)) as Ha. fold a in Ha.
  pose proof (earlier_end 0 v D ltac:(lia)) as Hav. fold a in Hav.
  assert (t <> p) as Htp.
  { intros ->. apply Ht. pose proof (endp_in clk (earlier v D)) as Hp. fold p in Hp. apply elem_of_cons in Hp as [->|Hp]; [left|].
    right. rewrite (fst_split v D). apply elem_of_app. by left. }
  assert (clk <> t) as Htc by (intros <-; apply Ht; left).
  assert (u32 (v - a) = v - a) as Ew by (apply wrap_small; unfold is_word; lia).
  split; [done|]. unfold linked. cbv zeta. rewrite !nxt_set_off, !nxt_set_nxt, !decide_True by done.
  destruct Hn as [En|(En & Hc & Hnt & Hw)].
  - rewrite En. cbn [Z.eqb negb]. split; [constructor|].
    + intros x. ztimer_store. repeat case_decide; congruence.
    + intros x. ztimer_store. rewrite Ev, Ew, En. repeat case_decide; naive_solver.
    + intros x Hx. ztimer_store. set_solver.
    + ztimer_store. by rewrite decide_False by done.
  - destruct (Z.eqb_spec (nxt h p) 0); [done|]. cbn [negb]. split; [constructor|].
    + intros x. ztimer_store. repeat case_decide; congruence.
    + intros x. ztimer_store. rewrite Ev, Ew. rewrite (decide_False (P := t = nxt h p)) by congruence. rewrite (decide_True (P := t = t)) by done.
      assert (u32 (off h (nxt h p) - (v - a)) = off h (nxt h p) - (v - a)) as -> by (apply wrap_small; unfold is_word; lia).
      repeat case_decide; naive_solver congruence.
    + intros x Hx. ztimer_store. set_solver.
    + ztimer_store. by rewrite !decide_False by done.
Qed.

Lemma add_entry_holds s D t :
  holds s D -> t ∉ clk :: D.*1 -> t <> 0 -> is_word 32 (off (z_list s) t) ->
  exists s', _add_entry_to_list t s = Ok (tt, s') /\ holds s' (insert_due t (off (z_list s) t) D) /\
    rest s' = rest s /\ base s' = base s.
Proof using.
  intros Hh Ht H0 Hv. destruct (linked_inserted _ _ _ _ t Hh Ht eq_refl Hv) as (Htp & Hi & Hc).
  set (h := z_list s) in *. set (v := off h t) in *. set (p := endp clk (earlier v D)) in *. set (a := enda 0 (earlier v D)) in *.
  assert (add_scan (S (size h)) h v clk 0 = Some (p, a)) as Hscan.
  { unfold is_word in Hv. apply add_scan_spec; [apply Hh|apply Hh|lia|by eapply held_fuel]. }
  exists (mkClock (linked h p a t) (if nxt h p =? 0 then t else z_last s) (z_users s) (z_lower_last s) (z_checkpoint s) (z_hw s) (z_fired s)).
  split_and!; [|exact (insert_held h _ (z_last s) t v D Hh Ht H0 Hv Hi)|done|exact Hc].
  unfold _add_entry_to_list, mbind, cmd_bind, gets, of_loop. fold h v. rewrite Hscan.
  unfold on_list, set_last, modify, linked, mret, cmd_ret. cbn [z_list z_last z_users z_lower_last z_checkpoint z_hw z_fired]. fold h.
  rewrite nxt_set_off, nxt_set_nxt, decide_True by done. by destruct (nxt h p =? 0).
Qed.

(** ** Removing *)

Lemma enda_app a D E : enda a (D ++ E) = enda (enda a D) E.
Proof using. revert a. induction D as [|[t d] D IH]; intros a; cbn [app]; [done|]. by rewrite !enda_cons, IH. Qed.

Lemma del_scan_spec fuel h p a D1 t d D2 :
  queued h p a (D1 ++ (t, d) :: D2) -> t ∉ D1.*1 -> (length D1 < fuel)%nat ->
  del_scan fuel h t p = Some (Some (endp p D1)).
Proof using.
  revert p a D1. induction fuel as [|fuel IH]; intros p a D1 Hq Ht Hf; [lia|]. cbn [del_scan].
  destruct D1 as [|[u e] D1]; cbn [app queued fmap list_fmap fst length] in *.
  - destruct Hq as (-> & Ht0 & _). rewrite (proj2 (Z.eqb_neq t 0)) by done. by rewrite Z.eqb_refl.
  - destruct Hq as (-> & Hu0 & _ & _ & Hq). apply not_elem_of_cons in Ht as [Htu Ht].
    rewrite (proj2 (Z.eqb_neq u 0)), (proj2 (Z.eqb_neq u t)) by done. rewrite endp_cons. eapply IH; [done|done|lia].
Qed.

(** The store after a removal of [t] behind [p]. *)
Definition unlinked h (p t : Z) : timers :=
  let h := set_nxt p (nxt h t) h in
  set_nxt t 0 (if negb (nxt h p =? 0) then set_off (nxt h p) (off h (nxt h p) + off h t) h else h).

Section Remove.
Variables (h : timers) (last_ t d : Z) (D1 D2 : list due).
Hypothesis Hh : held h last_ (D1 ++ (t, d) :: D2).
Let p := endp clk D1.
Let a := enda 0 D1.
Let h' := unlinked h p t.

Lemma remove_apart : t ∉ clk :: D1.*1 /\ t ∉ D2.*1 /\ t <> p /\ (forall x, x ∈ D2.*1 -> x ∉ clk :: D1.*1).
Proof using Hh.
  pose proof (held_nodup _ _ _ Hh) as Hd. rewrite fmap_app, app_comm_cons in Hd. cbn [fmap list_fmap fst] in Hd.
  apply NoDup_app in Hd as (_ & Hdis & [Ht2 _]%NoDup_cons). pose proof (endp_in clk D1) as Hp. fold p in Hp.
  assert (t ∉ clk :: D1.*1) as Ht1 by (intros Hin; apply (Hdis t Hin); left).
  split_and!; [done|done|congruence|]. intros x Hx Hin. apply (Hdis x Hin). by right.
Qed.

Lemma remove_parts :
  queued h clk 0 D1 /\ nxt h p = t /\ t <> 0 /\ 0 <= a <= d /\ d < 2 ^ 32 /\ off h t = d - a /\ queued h t d D2 /\
  match D2 with [] => nxt h t = 0 | (u, e) :: _ => nxt h t = u /\ u <> 0 /\ off h u = e - d /\ d <= e < 2 ^ 32 end.
Proof using Hh.
  pose proof (held_queued _ _ _ Hh) as Hq. apply queued_app in Hq as [Hq1 Hq]. cbn [queued] in Hq. destruct Hq as (Hn & Ht & Hd & Ho & Hq).
  pose proof (queued_end _ _ _ _ Hq1 ltac:(lia)) as Ha. fold p in Hn. fold a in Ho, Ha, Hd. split_and!; try done; try lia.
  destruct D2 as [|[u e] D2']; [|destruct Hq as (? & ? & ? & ? & _); done].
  pose proof (held_end _ _ _ Hh) as He. rewrite endp_app, endp_cons in He. exact He.
Qed.

Lemma unlinked_nxt x : nxt h' x = if decide (x = t) then 0 else if decide (x = p) then nxt h t else nxt h x.
Proof using Hh.
  destruct remove_apart as (_ & _ & Htp & _). subst h'. unfold unlinked. cbv zeta. rewrite nxt_set_nxt.
  destruct (negb _); ztimer_store; repeat case_decide; congruence.
Qed.

Lemma unlinked_off x : off h' x = if decide (x = nxt h t /\ x <> 0) then off h x + (d - a) else off h x.
Proof using Hh.
  destruct remove_parts as (_ & _ & Ht & Ha & Hd & Ho & _ & Hn). subst h'. unfold unlinked. cbv zeta.
  rewrite nxt_set_nxt, decide_True by done. destruct (Z.eqb_spec (nxt h t) 0) as [E|E]; cbn [negb]; ztimer_store.
  - rewrite decide_False; [done|]. rewrite E. tauto.
  - rewrite Ho. destruct D2 as [|[u e] D2']; [done|]. destruct Hn as (Hu & _ & Hou & He). rewrite Hu. rewrite wrap_small by (unfold is_word; lia).
    repeat case_decide; subst; naive_solver.
Qed.

Lemma unlinked_dom x : x ∈ dom h -> x ∈ dom h'.
Proof using Hh. intros Hx. subst h'. unfold unlinked. cbv zeta. destruct (negb _); ztimer_store; set_solver. Qed.

Lemma remove_front : queued h' clk 0 D1.
Proof using Hh.
  destruct remove_apart as (Ht1 & _ & Htp & Hdis). destruct remove_parts as (Hq1 & _ & _ & _ & _ & _ & _ & Hn).
  pose proof (held_nodup _ _ _ Hh) as Hd. rewrite fmap_app, app_comm_cons in Hd. apply NoDup_app in Hd as (Hd & _ & _).
  eapply queued_frame; [exact Hd| | |exact Hq1].
  - intros x Hx Hp. rewrite unlinked_nxt. fold p in Hp. by rewrite !decide_False by (congruence || by intros ->).
  - intros x Hx. rewrite unlinked_off. rewrite decide_False; [done|]. intros [E Hx0].
    destruct D2 as [|[u e] D2']; [congruence|]. destruct Hn as (Hu & _). rewrite Hu in E. subst x. apply (Hdis u); [left|by right].
Qed.

Lemma remove_back : queued h' p a D2 /\ nxt h' (endp p D2) = 0.
Proof using Hh.
  destruct remove_apart as (Ht1 & Ht2 & Htp & Hdis). destruct remove_parts as (_ & _ & Ht & Ha & Hd & Ho & Hq2 & Hn).
  pose proof (held_end _ _ _ Hh) as He. rewrite endp_app, endp_cons in He. pose proof (endp_in clk D1) as Hp. fold p in Hp.
  pose proof (held_nodup _ _ _ Hh) as Hnd. rewrite fmap_app, app_comm_cons in Hnd. apply NoDup_app in Hnd as (_ & _ & [_ Hnd]%NoDup_cons).
  pose proof unlinked_nxt as Hun. pose proof unlinked_off as Huo.
  destruct D2 as [|[u e] D2']; cbn [queued fmap list_fmap fst] in *.
  - split; [done|]. change (endp p []) with p. rewrite Hun. rewrite decide_False, decide_True by done. exact Hn.
  - destruct Hn as (Hu & Hu0 & Hou & Hee). destruct Hq2 as (_ & _ & _ & _ & Hq2). rewrite endp_cons in He |- *.
    assert (forall x, x ∈ u :: D2'.*1 -> nxt h' x = nxt h x) as Hnx.
    { intros x Hx. rewrite Hun. rewrite decide_False by (intros ->; done). rewrite decide_False; [done|]. intros ->. by apply (Hdis p). }
    split; [|rewrite Hnx; [exact He|apply endp_in]]. split_and!; [|done|lia|lia| |].
    + rewrite Hun, decide_False, decide_True by done. exact Hu.
    + rewrite Huo, decide_True by done. lia.
    + eapply queued_ext; [exact Hnx| |exact Hq2]. intros x Hx. rewrite Huo, decide_False; [done|].
      intros [-> _]. rewrite Hu in Hx. by apply NoDup_cons in Hnd as [? _].
Qed.

Lemma remove_held : held h' (if t =? last_ then (if p =? clk then 0 else p) else last_) (D1 ++ D2).
Proof using Hh.
  destruct remove_apart as (Ht1 & Ht2 & Htp & Hdis). destruct remove_parts as (Hq1 & _ & Ht & _). destruct remove_back as [Hb He].
  pose proof (held_nodup _ _ _ Hh) as Hd. assert ((D1 ++ (t, d) :: D2).*1 ≡ₚ t :: (D1 ++ D2).*1) as HP.
  { rewrite !fmap_app. cbn [fmap list_fmap fst]. by rewrite Permutation_middle. }
  constructor.
  - rewrite HP, Permutation_swap in Hd. by apply NoDup_cons in Hd as [_ Hd].
  - apply queued_app. split; [apply remove_front|exact Hb].
  - by rewrite endp_app.
  - rewrite (held_last _ _ _ Hh). rewrite !fmap_app, !last_app. cbn [fmap list_fmap fst]. rewrite last_cons.
    destruct (last D2.*1) as [x|] eqn:El; cbn [default from_option id].
    + rewrite (proj2 (Z.eqb_neq t x)); [done|]. intros ->. by apply Ht2, last_Some_elem_of.
    + rewrite Z.eqb_refl. unfold p, endp. destruct (last D1.*1) as [x|] eqn:E1; cbn [default from_option id]; [|by rewrite Z.eqb_refl].
      rewrite (proj2 (Z.eqb_neq x clk)); [done|]. intros ->. apply NoDup_cons in Hd as [Hd _]. apply Hd. rewrite fmap_app. apply elem_of_app. left. by apply last_Some_elem_of.
  - intros x Hx. rewrite unlinked_nxt. case_decide as E; [done|]. rewrite decide_False.
    + apply Hh. rewrite HP, !elem_of_cons in *. tauto.
    + intros ->. apply Hx. pose proof (endp_in clk D1) as Hp. rewrite fmap_app, app_comm_cons. apply elem_of_app. by left.
  - intros x Hx. apply unlinked_dom, Hh. rewrite HP, !elem_of_cons in *. tauto.
  - apply Hh.
Qed.
End Remove.

Lemma del_entry_holds s D1 t d D2 :
  holds s (D1 ++ (t, d) :: D2) ->
  exists s', _del_entry_from_list t s = Ok (true, s') /\ holds s' (D1 ++ D2) /\ rest s' = rest s /\ base s' = base s.
Proof using.
  intros Hh. set (h := z_list s). destruct (remove_apart _ _ _ _ _ _ Hh) as (Ht1 & _ & Htp & _).
  destruct (remove_parts _ _ _ _ _ _ Hh) as (_ & _ & Ht0 & _). set (p := endp clk D1) in *. fold h in Htp.
  exists (mkClock (unlinked h p t) (if t =? z_last s then (if p =? clk then 0 else p) else z_last s)
    (z_users s) (z_lower_last s) (z_checkpoint s) (z_hw s) (z_fired s)).
  assert (_is_set s t = true) as Hset.
  { rewrite (is_set_iff _ _ _ Hh); [|intros ->; apply Ht1; left|done]. apply bool_decide_eq_true. rewrite fmap_app. apply elem_of_app. right. left. }
  split_and!; [|exact (remove_held _ _ _ _ _ _ Hh)|done|].
  - unfold _del_entry_from_list, mbind, cmd_bind, gets, check, of_loop. rewrite Hset. cbn [mret cmd_ret]. fold h.
    rewrite (del_scan_spec _ h clk 0 D1 t d D2).
    + fold p. unfold on_list, set_last, modify, unlinked, mret, cmd_ret. cbn [z_list z_last z_users z_lower_last z_checkpoint z_hw z_fired].
      destruct (t =? z_last s); cbn [z_list z_last z_users z_lower_last z_checkpoint z_hw z_fired]; fold h; by destruct (negb _).
    + apply Hh.
    + by apply not_elem_of_cons in Ht1 as [_ ?].
    + pose proof (held_fuel _ _ _ Hh) as Hf. rewrite length_app in Hf. fold h in Hf. lia.
  - unfold base. cbn [z_list]. fold h. rewrite (unlinked_off _ _ _ _ _ _ Hh). rewrite decide_False; [done|]. intros [E _].
    pose proof (held_nodup _ _ _ Hh) as [Hd _]%NoDup_cons. destruct (remove_parts _ _ _ _ _ _ Hh) as (_ & _ & _ & _ & _ & _ & _ & Hn). fold h in Hn.
    fold h in E. destruct D2 as [|[u e] D2']; [rewrite Hn in E; by apply Hh in E|]. destruct Hn as (Hu & _). apply Hd. rewrite fmap_app. apply elem_of_app. right. right. rewrite E, Hu. left.
Qed.

(** ** Time passes *)

(** [k] ticks later; a timer that is due stays due. *)
Definition elapse (k : Z) D : list due := (fun e => (e.1, Z.max 0 (e.2 - k))) <$> D.

Lemma elapse_fst k D : (elapse k D).*1 = D.*1.
Proof using. unfold elapse. rewrite <- list_fmap_compose. by apply list_fmap_ext. Qed.
Lemma elapse_app k D E : elapse k (D ++ E) = elapse k D ++ elapse k E.
Proof using. apply fmap_app. Qed.
Lemma elapse_0 D : Forall (fun e => 0 <= e.2) D -> elapse 0 D = D.
Proof using.
  induction 1 as [|[t d] D Hd _ IH]; [done|].
  change (elapse 0 ((t, d) :: D)) with ((t, Z.max 0 (d - 0)) :: elapse 0 D). rewrite IH. cbn in Hd. f_equal. f_equal. lia.
Qed.
Lemma endp_elapse p k D : endp p (elapse k D) = endp p D.
Proof using. unfold endp. by rewrite elapse_fst. Qed.

(** Timers behind one that is not due yet keep their distances. *)
Lemma elapse_shift h p a k D : k <= a -> queued h p a D -> 0 <= k -> queued h p (a - k) (elapse k D).
Proof using.
  revert p a. induction D as [|[t d] D IH]; intros p a Hk; cbn [elapse fmap list_fmap queued fst snd]; [done|].
  intros (H1 & H2 & H3 & H4 & H5) H0. rewrite (Z.max_r 0 (d - k)) by lia. split_and!; [done|done|lia|lia|lia|]. apply IH; [lia|done|done].
Qed.

(** Timers that are all due at once have no distances. *)
Lemma elapse_due h p d k D :
  Forall (fun e => e.2 = d) D -> d <= k -> queued h p d D -> queued h p 0 (elapse k D).
Proof using.
  intros Hall Hk. revert p. induction Hall as [|[t e] D E Hall IH]; intros p; cbn [elapse fmap list_fmap queued fst snd] in *; [done|].
  subst e. intros (H1 & H2 & H3 & H4 & H5). rewrite Z.max_l by lia. split_and!; [done|done|lia|lia|lia|]. by apply IH.
Qed.

Lemma enda_due d D : Forall (fun e => e.2 = d) D -> enda d D = d.
Proof using. induction 1 as [|[t e] D E Hall IH]; [done|]. rewrite enda_cons. cbn in E. by subst e. Qed.

Lemma enda_elapse_due d k D : Forall (fun e => e.2 = d) D -> d <= k -> enda 0 (elapse k D) = 0.
Proof using.
  intros Hall Hk. induction Hall as [|[t e] D E Hall IH]; [done|]. cbn [elapse fmap list_fmap fst snd]. cbn in E. subst e. rewrite Z.max_l by lia.
  by rewrite enda_cons.
Qed.

Lemma skip_zero_spec fuel h p d D :
  queued h p d D -> nxt h (endp p D) = 0 -> (length D < fuel)%nat ->
  exists Z0 D', D = Z0 ++ D' /\ Forall (fun e => e.2 = d) Z0 /\
    skip_zero fuel h p = Some (match D' with [] => 0 | e :: _ => e.1 end).
Proof using.
  revert p D. induction fuel as [|fuel IH]; intros p D Hq He Hf; [lia|]. cbn [skip_zero].
  destruct D as [|[t e] D]; cbn [queued length] in *.
  - exists [], []. change (nxt h p = 0) in He. by rewrite He.
  - destruct Hq as (-> & Ht & Hd & Ho & Hq). rewrite endp_cons in He. rewrite (proj2 (Z.eqb_neq t 0)) by done. cbn [negb andb]. rewrite Ho.
    destruct (Z.eqb_spec (e - d) 0) as [E|E].
    + assert (e = d) as -> by lia. destruct (IH t D Hq He ltac:(lia)) as (Z0 & D' & -> & HZ & HE).
      exists ((t, d) :: Z0), D'. split_and!; [done|by constructor|done].
    + by exists [], ((t, e) :: D).
Qed.

Lemma update_loop_spec fuel : forall h p a k t d D,
  queued h p a ((t, d) :: D) -> nxt h (endp t D) = 0 -> NoDup (t :: D.*1) -> 0 <= a <= k -> k < 2 ^ 32 ->
  (length D < fuel)%nat -> (length D < size h)%nat -> (forall x, x ∈ t :: D.*1 -> x ∈ dom h) ->
  exists h', update_loop fuel h t (k - a) = Some h' /\ queued h' p 0 (elapse k ((t, d) :: D)) /\
    (forall x, nxt h' x = nxt h x) /\ (forall x, x ∉ t :: D.*1 -> off h' x = off h x) /\ dom h' = dom h.
Proof using.
  induction fuel as [|fuel IH]; intros h p a k t d D (Hp & Ht & Hd & Ho & Hq) He Hnd Ha Hk Hf Hs Hdom; [lia|]. cbn [update_loop]. rewrite Ho.
  assert (forall v, dom (set_off t v h) = dom h) as Hdt by (intros v; rewrite dom_set_off; assert (t ∈ dom h) by (apply Hdom; left); set_solver).
  apply NoDup_cons in Hnd as [HtD Hnd].
  assert (forall v, queued (set_off t v h) t d D) as HqD.
  { intros v. eapply queued_ext; [intros; by rewrite nxt_set_off| |exact Hq]. intros x Hx. rewrite off_set_off. rewrite decide_False; [done|congruence]. }
  assert (forall v x, x ∉ t :: D.*1 -> off (set_off t v h) x = off h x) as Hoff.
  { intros v x [Hx _]%not_elem_of_cons. rewrite off_set_off. by rewrite decide_False. }
  destruct (Z.leb_spec (k - a) (d - a)) as [Hle|Hgt].
  { exists (set_off t (d - a - (k - a)) h). split_and!; [done| |intros; by rewrite nxt_set_off|auto|auto].
    cbn [elapse fmap list_fmap queued fst snd]. rewrite nxt_set_off, off_set_off, decide_True by done. rewrite Z.max_r by lia.
    rewrite wrap_small by (unfold is_word; lia). split_and!; [done|done|lia|lia|lia|]. apply elapse_shift; [lia|apply HqD|lia]. }
  rewrite wrap_small by (unfold is_word; lia). replace (k - a - (d - a)) with (k - d) by lia.
  rewrite (proj2 (Z.eqb_neq (k - d) 0)) by lia. cbn [negb]. set (h1 := set_off t 0 h).
  assert (size h1 = size h) as Hs1 by (by rewrite <- !size_dom, (Hdt 0 : dom h1 = _)).
  destruct (skip_zero_spec (S (size h1)) h1 t d D (HqD 0)) as (Z0 & D' & -> & HZ & ->); [unfold h1; by rewrite nxt_set_off|lia|].
  pose proof (HqD 0) as Hq1. fold h1 in Hq1. apply queued_app in Hq1 as [HqZ HqD']. rewrite enda_due in HqD' by done.
  assert (forall h', (forall x, x ∈ t :: Z0.*1 -> off h' x = off h1 x) -> (forall x, nxt h' x = nxt h1 x) ->
    queued h' p 0 ((t, 0) :: elapse k Z0)) as Hfront.
  { intros h' Ho' Hn'. cbn [queued]. split_and!; [rewrite Hn'; unfold h1; by rewrite nxt_set_off|done|lia|lia| |].
    - rewrite Ho' by left. unfold h1. by rewrite off_set_off, decide_True.
    - apply (elapse_due _ _ d); [done|lia|]. eapply queued_ext; [intros; apply Hn'|intros x Hx; apply Ho'; by right|exact HqZ]. }
  assert (elapse k ((t, d) :: Z0 ++ D') = ((t, 0) :: elapse k Z0) ++ elapse k D') as ->.
  { change (elapse k ((t, d) :: Z0 ++ D')) with ((t, Z.max 0 (d - k)) :: elapse k (Z0 ++ D')). by rewrite Z.max_l, elapse_app by lia. }
  destruct D' as [|[t' d'] D'].
  - exists h1. cbn [Z.eqb]. split_and!; [done| |intros; unfold h1; by rewrite nxt_set_off|apply Hoff|apply Hdt].
    rewrite app_nil_r. by apply Hfront.
  - rewrite fmap_app in Hnd, HtD, Hdom. cbn [fmap list_fmap fst] in *. rewrite endp_app, endp_cons in He. rewrite length_app in Hf, Hs. cbn [length] in Hf, Hs.
    assert (t' <> 0) as Ht' by apply HqD'. rewrite (proj2 (Z.eqb_neq t' 0)) by done. apply NoDup_app in Hnd as (_ & Hdis & Hnd).
    destruct (IH h1 (endp t Z0) d k t' d' D') as (h' & E & Hq' & Hn' & Ho' & Hd'); [exact HqD'|unfold h1; by rewrite nxt_set_off|done|lia|lia|lia|lia| |].
    { intros x Hx. rewrite (Hdt 0 : dom h1 = _). apply Hdom. right. apply elem_of_app. by right. }
    exists h'. split_and!; [exact E| |intros x; rewrite Hn'; unfold h1; by rewrite nxt_set_off| |rewrite Hd'; apply Hdt].
    + apply queued_app. split.
      * apply Hfront; [|exact Hn']. intros x [->|Hx]%elem_of_cons; apply Ho'; intros Hin; [apply HtD, elem_of_app; by right|by apply (Hdis x)].
      * rewrite endp_cons, enda_cons, endp_elapse. rewrite (enda_elapse_due d) by (done || lia). exact Hq'.
    + intros x Hx. rewrite fmap_app in Hx. cbn [fmap list_fmap fst] in Hx. rewrite Ho'; [apply Hoff; by rewrite fmap_app|].
      intros Hin. apply Hx. right. apply elem_of_app. by right.
Qed.
End Spec.
