(* ===== verification/ZtimerOps.v ===== *)
(** * The operations on timers

    Setting, removing and firing timers as operations on the timers with the ticks left
    to them ([ZtimerSpec]). *)

From stdpp Require Import base gmap list sorting.
From Stdlib Require Import ZArith Lia.
From S2P Require Import Prelude Ztimer ZtimerSpec.

Local Open Scope Z_scope.

Section Ops.
Context {H : Type} `{HD : Device H} `{HC : Clock}.
Implicit Types (s : zclock (H := H)) (D : list due).

(** The hardware counts in 32-bit words, and an extended clock has a range. *)
Class ClockOk : Prop := {
  now_word : forall hw, is_word 32 (fst (dev_now hw));
  range_ok : extend = true -> max_value <> 0;
  adjust_ok : 0 <= adjust_set /\ 0 <= adjust_clock_start
}.
Context `{HK : !ClockOk}.

(** A word as the time of the clock. *)
Definition timed s : Prop := is_word 32 (base s).

(** What reading the time depends on and changes: the extension and the hardware. *)
Definition reader : Type := Z * Z * H.
Definition reader_of s : reader := (z_lower_last s, z_checkpoint s, z_hw s).

(** One reading of the clock: the time, and the reader after it. *)
Definition read_time (r : reader) : option (Z * reader) :=
  match ztimer_now (mkClock ∅ 0 0 r.1.1 r.1.2 r.2 []) with
  | Ok (now, s) => Some (now, reader_of s)
  | Err _ => None
  end.

Lemma ztimer_now_total s :
  exists now s', ztimer_now s = Ok (now, s') /\ is_word 32 now /\
    z_list s' = z_list s /\ z_last s' = z_last s /\ z_users s' = z_users s /\ z_fired s' = z_fired s /\ z_hw s' = snd (dev_now (z_hw s)) /\
    read_time (reader_of s) = Some (now, reader_of s').
Proof.
  unfold read_time.
  unfold ztimer_now. destruct (extend && (max_value <? UINT32_MAX)) eqn:E.
  - unfold _ztimer_now_extend, mbind, cmd_bind, check. apply andb_true_iff in E as [Ee _].
    rewrite (proj2 (Z.eqb_neq max_value 0)) by by apply range_ok. cbn [negb].
    do 2 eexists. split; [reflexivity|]. split; [apply wrap_range; lia|done].
  - unfold lower_now. do 2 eexists. split; [reflexivity|]. split; [apply now_word|done].
Qed.

(** The time a clock shows. *)
Definition time_at s : option Z := match ztimer_now s with Ok (now, _) => Some now | Err _ => None end.

Lemma held_ext h h' l D :
  (forall x, nxt h' x = nxt h x) -> (forall x, x ∈ D.*1 -> off h' x = off h x) -> (forall x, x ∈ dom h -> x ∈ dom h') ->
  held h l D -> held h' l D.
Proof.
  intros Hn Ho Hd Hh. constructor; try apply Hh.
  - eapply queued_ext; [intros; apply Hn|exact Ho|apply Hh].
  - rewrite Hn. apply Hh.
  - intros x Hx. rewrite Hn. by apply Hh.
  - intros x Hx. by apply Hd, Hh.
Qed.

(** ** Bringing the list up to date *)

Lemma update_head_offset_holds s D :
  holds s D -> timed s ->
  exists now s', _ztimer_update_head_offset s = Ok (now, s') /\ is_word 32 now /\ base s' = now /\
    holds s' (elapse (u32 (now - base s)) D) /\ z_users s' = z_users s /\ z_fired s' = z_fired s /\
    time_at s = Some now /\ read_time (reader_of s) = Some (now, reader_of s').
Proof.
  intros Hh Ht. destruct (ztimer_now_total s) as (now & s1 & E & Hw & El & Ela & Eu & Ef & _ & Er).
  set (k := u32 (now - base s)). pose proof (wrap_range 32 (now - base s) ltac:(lia)) as Hk. fold k in Hk. unfold is_word in Hk.
  assert (holds s1 D) as Hh1 by (unfold holds; by rewrite El, Ela).
  assert (clk ∉ D.*1) as Hc by (by pose proof (held_nodup _ _ _ Hh) as [? _]%NoDup_cons).
  unfold _ztimer_update_head_offset, mbind, cmd_bind, gets. rewrite E. fold (base s). fold k.
  assert (exists s2, (if negb (nxt (z_list s1) clk =? 0) then
      fun s => match of_loop (update_loop (S (size (z_list s))) (z_list s) (nxt (z_list s1) clk) k) s with
        | Ok (a, s') => on_list (fun _ => a) s' | Err e => Err e end
      else mret tt) s1 = Ok (tt, s2) /\ held (z_list s2) (z_last s2) (elapse k D) /\ z_users s2 = z_users s1 /\ z_fired s2 = z_fired s1 /\ reader_of s2 = reader_of s1) as (s2 & -> & Hh2 & Eu2 & Ef2 & Eh2).
  { destruct D as [|[t d] D].
    - rewrite (held_end _ _ _ Hh1 : nxt _ clk = 0). by exists s1.
    - pose proof (held_queued _ _ _ Hh1) as Hq. assert (nxt (z_list s1) clk = t /\ t <> 0) as [-> Ht0] by (destruct Hq as (? & ? & _); done).
      rewrite (proj2 (Z.eqb_neq t 0)) by done. cbn [negb]. pose proof (held_fuel _ _ _ Hh1) as Hf. cbn [length] in Hf.
      destruct (update_loop_spec (S (size (z_list s1))) (z_list s1) clk 0 k t d D) as (h' & Eu' & Hq' & Hn' & Ho' & Hd'); [exact Hq| | |lia|lia|lia|lia| |].
      + rewrite <- (endp_cons clk t d D). apply Hh1.
      + pose proof (held_nodup _ _ _ Hh1) as [_ ?]%NoDup_cons. done.
      + intros x Hx. apply Hh1. by right.
      + rewrite Z.sub_0_r in Eu'. rewrite Eu'. eexists. split; [reflexivity|]. split; [|done]. cbn [z_list z_last].
        constructor; try (rewrite ?elapse_fst; apply Hh1); [exact Hq'| | |].
        * rewrite endp_elapse, Hn'. apply Hh1.
        * intros x. rewrite elapse_fst, Hn'. apply Hh1.
        * intros x. rewrite elapse_fst, Hd'. apply Hh1. }
  do 2 eexists. split; [reflexivity|]. cbn [z_list z_users z_fired z_hw]. split_and!; [done| | |congruence|congruence|unfold time_at; by rewrite E|].
  3: { rewrite Er. do 2 f_equal. symmetry. exact Eh2. }
  - unfold base. cbn [z_list]. rewrite off_set_off, decide_True by done. by apply wrap_small.
  - unfold holds. cbn [z_list z_last]. eapply held_ext; [intros; apply nxt_set_off| | |exact Hh2].
    + intros x Hx. rewrite elapse_fst in Hx. rewrite off_set_off, decide_False; [done|congruence].
    + intros x Hx. rewrite dom_set_off. set_solver.
Qed.

(** ** Removing one timer *)

Definition del (t : Z) D : list due := filter (fun e => e.1 <> t) D.

Lemma del_absent t D : t ∉ D.*1 -> del t D = D.
Proof.
  induction D as [|[u d] D IH]; [done|]. cbn [fmap list_fmap fst]. intros [Hu Ht]%not_elem_of_cons. unfold del in *.
  rewrite filter_cons_True by (cbn; congruence). by rewrite IH.
Qed.

Lemma del_split t d D1 D2 : t ∉ (D1 ++ D2).*1 -> del t (D1 ++ (t, d) :: D2) = D1 ++ D2.
Proof.
  intros Ht. unfold del. rewrite filter_app, filter_cons_False by (cbn; tauto).
  rewrite <- filter_app. by apply del_absent.
Qed.

Lemma del_holds s D t :
  holds s D -> t ∈ D.*1 ->
  exists s', _del_entry_from_list t s = Ok (true, s') /\ holds s' (del t D) /\ rest s' = rest s /\ base s' = base s.
Proof.
  intros Hh Hin. apply list_elem_of_fmap in Hin as ([u d] & -> & Hin). cbn. apply list_elem_of_split in Hin as (D1 & D2 & ->).
  rewrite del_split; [by eapply del_entry_holds|].
  pose proof (held_nodup _ _ _ Hh) as [_ Hd]%NoDup_cons. rewrite fmap_app in Hd |- *. cbn [fmap list_fmap fst] in Hd.
  apply NoDup_app in Hd as (_ & Hdis & [Hd _]%NoDup_cons). intros [Hi|Hi]%elem_of_app; [apply (Hdis _ Hi); left|done].
Qed.

Lemma del_fst t D x : x ∈ (del t D).*1 -> x ∈ D.*1 /\ x <> t.
Proof. intros ([u e] & -> & [Hu He]%list_elem_of_filter)%list_elem_of_fmap. cbn in *. split; [apply list_elem_of_fmap; by exists (u, e)|done]. Qed.

(** ** Setting *)

Lemma set_off_holds s D t v :
  holds s D -> t ∉ clk :: D.*1 -> is_word 32 v ->
  exists s', on_list (set_off t v) s = Ok (tt, s') /\ holds s' D /\ off (z_list s') t = v /\ rest s' = rest s /\ base s' = base s.
Proof.
  intros Hh [Hc Ht]%not_elem_of_cons Hv. eexists. split; [reflexivity|]. cbn [z_list]. split_and!; [|by rewrite off_set_off, decide_True, wrap_small|done|].
  - unfold holds. cbn [z_list z_last]. eapply held_ext; [intros; apply nxt_set_off| | |exact Hh].
    + intros x Hx. rewrite off_set_off, decide_False; [done|congruence].
    + intros x Hx. rewrite dom_set_off. set_solver.
  - unfold base. cbn [z_list]. by rewrite off_set_off, decide_False by done.
Qed.

(** What [_ztimer_acquire], a [ztimer_release] with other users and the hardware leave alone. *)
Definition same_timers s s' : Prop := z_list s' = z_list s /\ z_last s' = z_last s /\ z_fired s' = z_fired s.

Lemma same_timers_holds s s' D : same_timers s s' -> holds s D -> holds s' D.
Proof. unfold holds. by intros (-> & -> & _). Qed.
Lemma same_timers_base s s' : same_timers s s' -> base s' = base s.
Proof. unfold base. by intros (-> & _). Qed.

(** Every set timer of a clock on demand is a user of it. *)
Definition users_ok s (n : nat) : Prop := ondemand = true -> Z.of_nat n <= z_users s < 2 ^ 16 - 1.

Lemma acquire_users s :
  0 <= z_users s < 2 ^ 16 - 1 ->
  exists s', _ztimer_acquire s = Ok (z_users s =? 0, s') /\ same_timers s s' /\ z_users s' = z_users s + 1.
Proof.
  intros Hu. unfold _ztimer_acquire, mbind, cmd_bind, gets.
  assert (u16 (z_users s + 1) = z_users s + 1) as E by (apply wrap_small; unfold is_word; lia).
  destruct (z_users s =? 0); eexists; (split; [reflexivity|]); by split.
Qed.

Lemma release_users s :
  (ondemand = true -> 1 <= z_users s < 2 ^ 16) ->
  exists s', ztimer_release s = Ok (ondemand && (z_users s =? 1), s') /\ same_timers s s' /\
    z_users s' = (if ondemand then z_users s - 1 else z_users s) /\
    (ondemand && (z_users s =? 1) = false -> z_hw s' = z_hw s).
Proof.
  intros Hu. unfold ztimer_release. destruct ondemand; [|by exists s]. specialize (Hu eq_refl). unfold mbind, cmd_bind, gets, check.
  rewrite (proj2 (Z.ltb_lt 0 (z_users s))) by lia.
  assert (u16 (z_users s - 1) = z_users s - 1) as E by (apply wrap_small; unfold is_word; lia).
  cbn [andb]. destruct (Z.eqb_spec (z_users s - 1) 0), (Z.eqb_spec (z_users s) 1); try lia; eexists; (split; [reflexivity|]); by split_and!.
Qed.

(** The last user stops the hardware, the others leave it and the extension alone. *)
Lemma release_reader s b s' :
  ztimer_release s = Ok (b, s') ->
  if b then z_hw s' = dev_stop (dev_cancel (z_hw s)) else reader_of s' = reader_of s.
Proof.
  unfold ztimer_release, mbind, cmd_bind, gets, check. destruct ondemand; [|by intros [= <- <-]].
  destruct (0 <? z_users s); [|done]. destruct (z_users s - 1 =? 0); by intros [= <- <-].
Qed.

(** The ticks a timer set for [val] gets. *)
Definition adjusted s (val : Z) : Z :=
  subtract_to_zero (if ondemand && (z_users s =? 0) then subtract_to_zero val adjust_clock_start else val) adjust_set.

Lemma subtract_range v a : 0 <= a -> is_word 32 v -> is_word 32 (subtract_to_zero v a).
Proof. unfold subtract_to_zero, is_word. destruct (Z.ltb_spec a v); lia. Qed.

Lemma adjusted_range s val : is_word 32 val -> is_word 32 (adjusted s val).
Proof.
  destruct adjust_ok. intros Hv. unfold adjusted. apply subtract_range; [done|]. destruct (_ && _); [by apply subtract_range|done].
Qed.

(** What the hardware is armed with for a first timer [v] ticks away. *)
Definition alarm (v : Z) : Z := if extend && (max_value <? UINT32_MAX) then _min_u32 v (Z.shiftr max_value 1) else v.

(** The part of [ztimer_set] after the time is taken. *)
Definition place (timer val : Z) : cmd (zclock (H := H)) unit unit :=
  set ← gets (fun s => _is_set s timer);
  was_set ← (if set : bool then _del_entry_from_list timer else mret false);
  on_list (set_off timer val) ;;
  _add_entry_to_list timer ;;
  head ← gets (fun s => nxt (z_list s) clk);
  (if head =? timer then on_hw (dev_set (alarm val)) else mret tt) ;;
  (if ondemand && (was_set : bool) then ztimer_release else mret false) ;;
  mret tt.

Lemma ztimer_set_place timer val s :
  ztimer_set timer val s =
    (first ← (if ondemand then _ztimer_acquire else mret false);
     now ← _ztimer_update_head_offset;
     place timer (subtract_to_zero (if first : bool then subtract_to_zero val adjust_clock_start else val) adjust_set) ;;
     mret now) s.
Proof.
  unfold ztimer_set, place, alarm, mbind, cmd_bind.
  repeat (match goal with |- context [match ?c ?s with Ok _ => _ | Err _ => _ end] => destruct (c s) as [[? ?]|] eqn:? end; try done).
Qed.

Lemma rest_eq s s' : rest s' = rest s -> z_users s' = z_users s /\ z_hw s' = z_hw s /\ z_fired s' = z_fired s.
Proof. unfold rest. by intros [= -> _ _ -> ->]. Qed.

Lemma rest_reader s s' : rest s' = rest s -> reader_of s' = reader_of s.
Proof. unfold rest, reader_of. by intros [= _ -> -> -> _]. Qed.

(** Taking a timer out if it is set. *)
Lemma unset_holds s D t :
  holds s D -> t <> clk -> t <> 0 ->
  exists s', (if _is_set s t then _del_entry_from_list t else mret false) s = Ok (bool_decide (t ∈ D.*1), s') /\
    holds s' (del t D) /\ rest s' = rest s /\ base s' = base s.
Proof.
  intros Hh Hc H0. rewrite (is_set_iff _ _ _ Hh Hc H0). case_bool_decide as Hin; [by apply del_holds|].
  exists s. by rewrite del_absent.
Qed.

Lemma head_of_list s D : holds s D -> nxt (z_list s) clk = match D with [] => 0 | e :: _ => e.1 end.
Proof. intros Hh. destruct D as [|[t d] D]; [apply (held_end _ _ _ Hh)|]. by destruct (held_queued _ _ _ Hh) as (? & _). Qed.

Lemma place_holds s D t v :
  holds s D -> t <> clk -> t <> 0 -> is_word 32 v -> (ondemand = true -> t ∈ D.*1 -> 2 <= z_users s < 2 ^ 16) ->
  exists s', place t v s = Ok (tt, s') /\ holds s' (insert_due t v (del t D)) /\ base s' = base s /\ z_fired s' = z_fired s /\
    z_users s' = (if ondemand && bool_decide (t ∈ D.*1) then z_users s - 1 else z_users s) /\
    ((insert_due t v (del t D)).*1 !! 0%nat = Some t -> exists hw, z_hw s' = dev_set (alarm v) hw).
Proof.
  intros Hh Hc H0 Hv Hu. destruct (unset_holds s D t Hh Hc H0) as (s1 & E1 & H1 & R1 & B1).
  assert (t ∉ clk :: (del t D).*1) as Hnew. { intros [->|[_ Hin]%del_fst]%elem_of_cons; done. }
  destruct (set_off_holds s1 _ t v H1 Hnew Hv) as (s2 & E2 & H2 & O2 & R2 & B2).
  destruct (add_entry_holds s2 _ t H2 Hnew H0) as (s3 & E3 & H3 & R3 & B3); [by rewrite O2|]. rewrite O2 in H3.
  apply rest_eq in R1 as (U1 & W1 & F1), R2 as (U2 & W2 & F2), R3 as (U3 & W3 & F3).
  set (s4 := if nxt (z_list s3) clk =? t then mkClock (z_list s3) (z_last s3) (z_users s3) (z_lower_last s3) (z_checkpoint s3) (dev_set (alarm v) (z_hw s3)) (z_fired s3) else s3).
  assert (same_timers s3 s4 /\ z_users s4 = z_users s3) as [S4 U4] by (subst s4; by destruct (_ =? t)).
  assert (place t v s = (r ← (if ondemand && bool_decide (t ∈ D.*1) then ztimer_release else mret false); mret tt) s4) as Eplace.
  { unfold place. unfold mbind at 1 2, cmd_bind at 1 2, gets at 1. rewrite E1. rewrite (cmd_bind_Ok _ _ _ _ _ E2), (cmd_bind_Ok _ _ _ _ _ E3).
    unfold mbind at 1, cmd_bind at 1, gets at 1. subst s4. by destruct (_ =? t). }
  assert (exists s5, (if ondemand && bool_decide (t ∈ D.*1) then ztimer_release else mret false) s4 = Ok (false, s5) /\ same_timers s4 s5 /\
    z_users s5 = (if ondemand && bool_decide (t ∈ D.*1) then z_users s - 1 else z_users s) /\ z_hw s5 = z_hw s4) as (s5 & E5 & S5 & U5 & W5).
  { destruct (ondemand && bool_decide (t ∈ D.*1)) eqn:Eo; [|exists s4; split_and!; congruence || done].
    apply andb_true_iff in Eo as [Eo Hin%bool_decide_eq_true]. specialize (Hu Eo Hin). assert (z_users s4 = z_users s) as U by congruence.
    destruct (release_users s4) as (s5 & E5 & S5 & U5 & W5); [intros _; rewrite U; lia|]. rewrite Eo, (proj2 (Z.eqb_neq (z_users s4) 1)) in E5, W5 by (rewrite U; lia).
    exists s5. rewrite Eo in U5. split_and!; [done|done|rewrite U5, U; done|by apply W5]. }
  exists s5. rewrite Eplace. rewrite (cmd_bind_Ok _ _ _ _ _ E5). split_and!; [done| | | |done|].
  - eapply same_timers_holds; [exact S5|]. by eapply same_timers_holds.
  - rewrite (same_timers_base _ _ S5), (same_timers_base _ _ S4). congruence.
  - destruct S4 as (_ & _ & S4), S5 as (_ & _ & S5). congruence.
  - intros Hhead. rewrite W5. subst s4. rewrite (head_of_list _ _ H3).
    destruct (insert_due t v (del t D)) as [|[u e] E]; [done|]. injection Hhead as ->. cbn [fst]. rewrite Z.eqb_refl. by eexists.
Qed.

Lemma length_insert_del t v D : length (insert_due t v (del t D)) = S (length (del t D)).
Proof. by rewrite insert_due_perm. Qed.

Lemma length_elapse k D : length (elapse k D) = length D.
Proof. apply length_fmap. Qed.

(** The time [ztimer_set] works with: the clock is started first if it has no user. *)
Definition time_of_set s : option Z :=
  match (if ondemand then _ztimer_acquire else mret false) s with Ok (_, s0) => time_at s0 | Err _ => None end.

(** C18: Setting a timer: on every clock, whether the timer was set before or not, the call
    takes the time, lets it pass for every timer, takes the timer out and puts it
    back at its new deadline, behind the timers due no later; the list stays in the order
    of the deadlines, and when the timer comes first the hardware is armed for it. *)
Theorem ztimer_set_refines s D t val :
  holds s D -> timed s -> users_ok s (length D) -> t <> clk -> t <> 0 -> is_word 32 val ->
  exists now s', ztimer_set t val s = Ok (now, s') /\ time_of_set s = Some now /\ base s' = now /\ timed s' /\ z_fired s' = z_fired s /\
    let D' := insert_due t (adjusted s val) (del t (elapse (u32 (now - base s)) D)) in
    holds s' D' /\ Sorted Z.le D'.*2 /\
    (ondemand = true -> z_users s' = z_users s + (if decide (t ∈ D.*1) then 0 else 1)) /\
    (D'.*1 !! 0%nat = Some t -> exists hw, z_hw s' = dev_set (alarm (adjusted s val)) hw).
Proof.
  intros Hh Ht Hu Hc H0 Hv. rewrite ztimer_set_place.
  assert (exists s1, (if ondemand then _ztimer_acquire else mret false) s = Ok (ondemand && (z_users s =? 0), s1) /\ same_timers s s1 /\
    z_users s1 = (if ondemand then z_users s + 1 else z_users s)) as (s1 & E1 & S1 & U1).
  { destruct ondemand eqn:Eo; [|by exists s]. specialize (Hu Eo). destruct (acquire_users s) as (s1 & E1 & S1 & U1); [lia|]. by exists s1. }
  rewrite (cmd_bind_Ok _ _ _ _ _ E1).
  destruct (update_head_offset_holds s1 D) as (now & s2 & E2 & Hw & B2 & H2 & U2 & F2 & N2 & _);
    [by eapply same_timers_holds|unfold timed; by rewrite (same_timers_base _ _ S1)|].
  rewrite (cmd_bind_Ok _ _ _ _ _ E2). fold (adjusted s val). rewrite (same_timers_base _ _ S1) in H2. set (D1 := elapse (u32 (now - base s)) D) in *.
  destruct (place_holds s2 D1 t (adjusted s val) H2 Hc H0) as (s3 & E3 & H3 & B3 & F3 & U3 & W3); [by apply adjusted_range| |].
  { intros Eo Hin. rewrite U2, U1, Eo. specialize (Hu Eo). unfold D1 in Hin. rewrite elapse_fst in Hin. destruct D; [by apply not_elem_of_nil in Hin|]. cbn [length] in Hu. lia. }
  exists now, s3. rewrite (cmd_bind_Ok _ _ _ _ _ E3). cbv zeta. split_and!; [done|unfold time_of_set; by rewrite E1|congruence|unfold timed; by rewrite B3, B2| |exact H3| | |exact W3].
  - destruct S1 as (_ & _ & S1). congruence.
  - eapply queued_sorted, H3.
  - intros Eo. rewrite U3, U2, U1, Eo. cbn [andb]. unfold D1. rewrite elapse_fst. repeat case_decide || case_bool_decide; try done; lia.
Qed.

(** C15: Removing a timer: a timer that is not set is reported so and nothing changes;
    otherwise the time is taken and exactly this timer leaves the list, the others keep their
    deadlines. *)
Theorem ztimer_remove_refines s D t :
  holds s D -> timed s -> users_ok s (length D) -> t <> clk -> t <> 0 ->
  if decide (t ∈ D.*1) then
    exists now s', ztimer_remove t s = Ok (true, s') /\ time_at s = Some now /\ base s' = now /\ timed s' /\ z_fired s' = z_fired s /\
      holds s' (del t (elapse (u32 (now - base s)) D)) /\ (ondemand = true -> z_users s' = z_users s - 1)
  else ztimer_remove t s = Ok (false, s).
Proof.
  intros Hh Ht Hu Hc H0. unfold ztimer_remove.
  destruct (decide (t ∈ D.*1)) as [Hin|Hin]; unfold mbind at 1, cmd_bind at 1, gets at 1; rewrite (is_set_iff _ _ _ Hh Hc H0).
  2: { by rewrite bool_decide_eq_false_2. }
  rewrite bool_decide_eq_true_2 by done.
  destruct (update_head_offset_holds s D Hh Ht) as (now & s1 & E1 & Hw & B1 & H1 & U1 & F1 & N1 & _). set (D1 := elapse (u32 (now - base s)) D) in *.
  destruct (del_holds s1 D1 t H1) as (s2 & E2 & H2 & R2 & B2); [by unfold D1; rewrite elapse_fst|]. apply rest_eq in R2 as (U2 & _ & F2).
  destruct (release_users s2) as (s3 & E3 & S3 & U3 & _).
  { intros Eo. rewrite U2, U1. specialize (Hu Eo). destruct D; [by apply not_elem_of_nil in Hin|]. cbn [length] in Hu. lia. }
  rewrite (cmd_bind_Ok _ _ _ _ _ E1), (cmd_bind_Ok _ _ _ _ _ E2), (cmd_bind_Ok _ _ _ _ _ E3).
  assert (exists s4, (if negb (ondemand && (z_users s2 =? 1)) then _ztimer_update else mret tt) s3 = Ok (tt, s4) /\ same_timers s3 s4 /\ z_users s4 = z_users s3) as (s4 & E4 & S4 & U4).
  { destruct (negb _); [|by exists s3]. unfold _ztimer_update, mbind, cmd_bind, gets. repeat case_match; eexists; (split; [reflexivity|]); by split. }
  rewrite (cmd_bind_Ok _ _ _ _ _ E4). exists now, s4.
  assert (base s4 = now) as B4 by (rewrite (same_timers_base _ _ S4), (same_timers_base _ _ S3); congruence).
  split_and!; [done|done|done|unfold timed; by rewrite B4| | |].
  - destruct S3 as (_ & _ & S3), S4 as (_ & _ & S4). congruence.
  - eapply same_timers_holds; [exact S4|]. by eapply same_timers_holds.
  - intros Eo. rewrite U4, U3, Eo, U2, U1. done.
Qed.
End Ops.
