(* ===== verification/ZtimerFire.v ===== *)
(** * The timer interrupt

    The handler of a clock fires exactly the timers whose time has come, in the order of
    their deadlines, and leaves the others with the ticks left to them; the
    extension of a narrow counter keeps exact time as long as it is read once per
    period. *)

From stdpp Require Import base gmap list sorting.
From Stdlib Require Import ZArith Lia.
From S2P Require Import Prelude Ztimer ZtimerSpec ZtimerOps.

Local Open Scope Z_scope.

(** ** Time in parts *)

Lemma elapse_elapse j k D : 0 <= j -> elapse j (elapse k D) = elapse (k + j) D.
Proof.
  intros Hj. unfold elapse. rewrite <- list_fmap_compose. apply list_fmap_ext. intros i [t d] _. cbn. f_equal. lia.
Qed.

Lemma earlier_elapse j k D : 0 <= j -> earlier j (elapse k D) = elapse k (earlier (k + j) D).
Proof.
  intros Hj. induction D as [|[t d] D IH]; [done|]. change (elapse k ((t, d) :: D)) with ((t, Z.max 0 (d - k)) :: elapse k D). cbn [earlier snd].
  destruct (Z.leb_spec (Z.max 0 (d - k)) j), (Z.leb_spec d (k + j)); try lia; [by rewrite IH|done].
Qed.

Lemma later_elapse j k D : 0 <= j -> later j (elapse k D) = elapse k (later (k + j) D).
Proof.
  intros Hj. induction D as [|[t d] D IH]; [done|]. change (elapse k ((t, d) :: D)) with ((t, Z.max 0 (d - k)) :: elapse k D). cbn [later snd].
  destruct (Z.leb_spec (Z.max 0 (d - k)) j), (Z.leb_spec d (k + j)); try lia; [by rewrite IH|done].
Qed.

Lemma add_modulo_exact T0 T m :
  0 < m < 2 ^ 32 -> T0 <= T <= T0 + m -> _add_modulo (T mod (m + 1)) (T0 mod (m + 1)) m = T - T0.
Proof.
  intros Hm HT. unfold _add_modulo. pose proof (Z.mod_pos_bound T (m + 1) ltac:(lia)). pose proof (Z.mod_pos_bound T0 (m + 1) ltac:(lia)).
  pose proof (Z.div_mod T (m + 1) ltac:(lia)) as E. pose proof (Z.div_mod T0 (m + 1) ltac:(lia)) as E0.
  set (r := T mod (m + 1)) in *. set (r0 := T0 mod (m + 1)) in *. set (q := T / (m + 1)) in *. set (q0 := T0 / (m + 1)) in *.
  destruct (Z.ltb_spec r r0).
  - assert (q = q0 + 1) by nia. unfold Z.sub at 1. rewrite wrap_add_l by lia. rewrite wrap_small; [nia|]. unfold is_word. nia.
  - assert (q = q0) by nia. rewrite wrap_small; [nia|]. unfold is_word. nia.
Qed.

Section Extend.
Context {H : Type} `{HD : Device H} `{HC : Clock}.

(** The clock [s] last took the time at [T0], where the hardware counts [T0] modulo its
    range. *)
Definition in_time (s : zclock (H := H)) (T0 : Z) : Prop :=
  z_lower_last s = T0 mod (max_value + 1) /\ z_checkpoint s = u32 T0.

(** A counter of any range below 32 bits is extended exactly: read at least once per period,
    the clock shows the true time modulo 2^32, and goes on from there. *)
Theorem now_extend_exact (s : zclock (H := H)) T0 T hw :
  0 < max_value < UINT32_MAX -> in_time s T0 -> T0 <= T <= T0 + max_value -> dev_now (z_hw s) = (T mod (max_value + 1), hw) ->
  exists s', _ztimer_now_extend s = Ok (u32 T, s') /\ in_time s' T /\ z_hw s' = hw /\ z_list s' = z_list s.
Proof.
  unfold UINT32_MAX. intros Hm [HL HC'] HT Hnow. unfold _ztimer_now_extend, mbind, cmd_bind, check, lower_now, gets, set_extension, modify.
  rewrite (proj2 (Z.eqb_neq max_value 0)) by lia. cbn [negb]. rewrite Hnow. cbn [fst snd z_lower_last z_checkpoint].
  rewrite HL, HC', add_modulo_exact, wrap_add_l by lia. replace (T0 + (T - T0)) with T by lia. by eexists.
Qed.
End Extend.

Section Fire.
Context {H : Type} `{HD : Device H} `{HC : Clock} `{HK : !ClockOk}.
Implicit Types (s : zclock (H := H)) (D : list due).

(** ** Taking the first timer that is due *)

Lemma now_next_due s t D :
  holds s ((t, 0) :: D) ->
  exists s', _now_next s = Ok (t, s') /\ holds s' D /\ rest s' = rest s /\ base s' = base s.
Proof.
  intros Hh. set (h := z_list s). destruct (remove_parts _ _ _ _ [] _ Hh) as (_ & Hn & Ht & _ & _ & Ho & _ & Hnt). fold h in Hn, Ho, Hnt.
  change (endp clk []) with clk in Hn. change (enda 0 []) with 0 in Ho.
  pose proof (remove_held _ _ _ _ [] _ Hh) as Hr. fold h in Hr. change (endp clk []) with clk in Hr. cbn [app] in Hr. rewrite Z.eqb_refl in Hr.
  destruct (remove_apart _ _ _ _ [] _ Hh) as ([Htc _]%not_elem_of_cons & Ht2 & _ & _).
  set (h' := if nxt h t =? 0 then set_nxt clk (nxt h t) h else set_nxt t 0 (set_nxt clk (nxt h t) h)).
  set (l' := if nxt h t =? 0 then 0 else z_last s).
  exists (mkClock h' l' (z_users s) (z_lower_last s) (z_checkpoint s) (z_hw s) (z_fired s)). split_and!; [| |done|].
  - unfold _now_next, mbind, cmd_bind, gets. fold h. rewrite Hn. fold h. rewrite Ho. rewrite (proj2 (Z.eqb_neq t 0)) by done. change (0 - 0 =? 0) with true. cbn [negb andb].
    unfold on_list, set_last, modify, mret, cmd_ret. cbv beta iota. cbn [z_list z_last z_users z_lower_last z_checkpoint z_hw z_fired]. fold h. subst h' l'. by destruct (nxt h t =? 0).
  - unfold holds. cbn [z_list z_last].
    assert (l' = if t =? z_last s then 0 else z_last s) as ->.
    { subst l'. rewrite (held_last _ _ _ Hh). cbn [fmap list_fmap fst]. rewrite last_cons. destruct D as [|[u e] D].
      - rewrite Hnt. cbn. by rewrite Z.eqb_refl.
      - destruct Hnt as (-> & Hu & _). rewrite (proj2 (Z.eqb_neq u 0)) by done. destruct (last ((u, e) :: D).*1) as [x|] eqn:El; cbn [default from_option id].
        + rewrite (proj2 (Z.eqb_neq t x)); [done|]. intros ->. by apply Ht2, last_Some_elem_of.
        + cbn [fmap list_fmap fst] in El. rewrite last_cons in El. by destruct (last D.*1). }
    eapply held_ext; [| | |exact Hr].
    + intros x. rewrite (unlinked_nxt _ _ _ _ [] _ Hh). subst h'. fold h. change (endp clk []) with clk.
      destruct (Z.eqb_spec (nxt h t) 0) as [E|E]; ztimer_store; repeat case_decide; congruence.
    + intros x Hx. rewrite (unlinked_off _ _ _ _ [] _ Hh). fold h. change (enda 0 []) with 0. rewrite Z.sub_0_r, Z.add_0_r.
      subst h'. destruct (nxt h t =? 0); ztimer_store; by case_decide.
    + intros x Hx. assert (x ∈ dom h) as Hx'.
      { unfold unlinked in Hx. cbv zeta in Hx. assert (t ∈ dom h) by (apply Hh; right; left). assert (clk ∈ dom h) by (apply Hh; left).
        rewrite nxt_set_nxt, decide_True in Hx by done. destruct (Z.eqb_spec (nxt h t) 0) as [E|E]; cbn [negb] in Hx.
        - rewrite !dom_set_nxt in Hx. set_solver.
        - assert (nxt h t ∈ dom h). { destruct D as [|[u e] D]; [done|]. destruct Hnt as (-> & _). apply Hh. right. right. left. }
          rewrite dom_set_nxt, dom_set_off, dom_set_nxt in Hx. set_solver. }
      subst h'. destruct (nxt h t =? 0); ztimer_store; set_solver.
  - unfold base. cbn [z_list]. subst h'. destruct (nxt h t =? 0); ztimer_store; done.
Qed.

Lemma now_next_none s D :
  holds s D -> match D with (_, d) :: _ => 0 < d | [] => True end -> _now_next s = Ok (0, s).
Proof.
  intros Hh Hd. unfold _now_next, mbind, cmd_bind, gets. rewrite (head_of_list _ _ Hh). destruct D as [|[t d] D]; [done|].
  destruct (held_queued _ _ _ Hh) as (_ & Ht & _ & Ho & _). cbn [fst]. rewrite Ho, (proj2 (Z.eqb_neq t 0)) by done.
  rewrite (proj2 (Z.eqb_neq (d - 0) 0)) by lia. done.
Qed.

(** The first timer comes due. *)
Lemma head_due s t d D :
  holds s ((t, d) :: D) ->
  exists s', (on_list (fun h => set_off clk (off h clk + off h t) h) ;; on_list (set_off t 0)) s = Ok (tt, s') /\
    holds s' ((t, 0) :: elapse d D) /\ rest s' = rest s /\ base s' = u32 (base s + d).
Proof.
  intros Hh. set (h := z_list s). destruct (held_queued _ _ _ Hh) as (Hn & Ht & Hd & Ho & Hq). fold h in Hn, Ho, Hq.
  pose proof (held_nodup _ _ _ Hh) as Hnd. cbn [fmap list_fmap fst] in Hnd. apply NoDup_cons in Hnd as [[Hct Hc]%not_elem_of_cons [HtD _]%NoDup_cons].
  eexists. split; [reflexivity|]. split_and!; [|done|].
  - unfold holds. cbn [z_list z_last]. fold h. constructor.
    + cbn [fmap list_fmap fst]. rewrite elapse_fst. apply Hh.
    + cbn [queued]. split_and!; [by ztimer_store|done|lia|lia| |].
      * ztimer_store. by rewrite decide_True.
      * replace 0 with (d - d) by lia. apply elapse_shift; [lia| |lia]. eapply queued_ext; [| |exact Hq].
        -- intros x Hx. by ztimer_store.
        -- intros x Hx. ztimer_store. rewrite !decide_False; [done|congruence|congruence].
    + rewrite endp_cons, endp_elapse. ztimer_store. rewrite <- (endp_cons clk t d D). apply Hh.
    + cbn [fmap list_fmap fst]. rewrite elapse_fst. apply Hh.
    + intros x. cbn [fmap list_fmap fst]. rewrite elapse_fst. ztimer_store. apply Hh.
    + intros x. cbn [fmap list_fmap fst]. rewrite elapse_fst. intros Hx. ztimer_store. pose proof (held_dom _ _ _ Hh x Hx). set_solver.
    + apply Hh.
  - unfold base. cbn [z_list]. fold h. ztimer_store. rewrite decide_False, decide_True by congruence. f_equal. rewrite Ho. lia.
Qed.

(** ** The loop *)

Variable callback : Z -> zclock (H := H) -> zclock (H := H).
(** The callbacks leave the clock alone. *)
Hypothesis passive : forall t s, callback t s = s.

(** ** How long the handler goes on *)

(** The timers due within [e] ticks. *)
Definition due_by (e : Z) D : nat := length (earlier e D).

(** The ticks passed since [b], once the clock shows [now] and [e] were known to have passed. *)
Definition passed (b e now : Z) : Z := e + u32 (now - (b + e)).

(** With [e] ticks passed since [b] and the timers due by then fired, the clock is read again
    and again, from the reader [r] on, until a reading brings no further timer due; then [K]
    ticks have passed.  Only when no timer is left on a clock on demand may it stop without
    a reading. *)
Inductive passes (b : Z) D : reader -> Z -> Z -> reader -> Prop :=
| passes_stop r e now r' :
    read_time r = Some (now, r') -> due_by (passed b e now) D = due_by e D ->
    passes b D r e (passed b e now) r'
| passes_more r e now r1 K r' :
    read_time r = Some (now, r1) -> (due_by e D < due_by (passed b e now) D)%nat ->
    passes b D r1 (passed b e now) K r' -> passes b D r e K r'
| passes_done r e : ondemand = true -> later e D = [] -> passes b D r e e r.

Lemma passed_le b e now : e <= passed b e now.
Proof using. unfold passed. pose proof (wrap_range 32 (now - (b + e)) ltac:(lia)) as H0. unfold is_word in H0. lia. Qed.

Lemma passes_le b D r e K r' : passes b D r e K r' -> e <= K.
Proof using. induction 1; [apply passed_le| |lia]. pose proof (passed_le b e now). lia. Qed.

(** The clock decides how long: on a clock that always runs there is only one such time. *)
Lemma passes_unique b D r e K r1 K' r2 :
  ondemand = false -> passes b D r e K r1 -> passes b D r e K' r2 -> K = K' /\ r1 = r2.
Proof using.
  intros Ho Hp. revert K' r2.
  induction Hp as [r e now r' Hr Heq|r e now r1 K r' Hr Hlt _ IH|r e Ho' _]; [| |congruence]; intros K' r2 Hp';
    inversion Hp' as [? ? now' ? Hr'|? ? now' ? ? ? Hr'|]; subst; try congruence;
    rewrite Hr in Hr'; injection Hr' as <- <-; try lia; [done|by apply IH].
Qed.

(** A timer that is due already changes nothing. *)
Lemma passes_cons b D r e K r' t d : d <= e -> passes b D r e K r' -> passes b ((t, d) :: D) r e K r'.
Proof using.
  intros Hd Hp.
  assert (forall j, d <= j -> due_by j ((t, d) :: D) = S (due_by j D) /\ later j ((t, d) :: D) = later j D) as Hc.
  { intros j Hj. unfold due_by. cbn [earlier later snd]. by destruct (Z.leb_spec d j); [|lia]. }
  induction Hp as [r e now r' Hr Heq|r e now r1 K r' Hr Hlt _ IH|r e Ho Hl].
  - pose proof (passed_le b e now) as Hle. apply passes_stop; [done|].
    destruct (Hc e Hd) as [-> _]. destruct (Hc (passed b e now) ltac:(lia)) as [-> _]. by f_equal.
  - pose proof (passed_le b e now) as Hle. eapply passes_more; [done| |apply IH; lia].
    destruct (Hc e Hd) as [-> _]. destruct (Hc (passed b e now) ltac:(lia)) as [-> _]. lia.
  - apply passes_done; [done|]. by rewrite (proj2 (Hc _ Hd)).
Qed.

(** Time counted from [k] ticks later. *)
Lemma passes_shift b D r e K r' k :
  0 <= e -> passes (u32 (b + k)) (elapse k D) r e K r' -> passes b D r (k + e) (k + K) r'.
Proof using.
  intros He Hp.
  assert (forall j, 0 <= j -> due_by j (elapse k D) = due_by (k + j) D) as Hdue.
  { intros j Hj. unfold due_by. by rewrite earlier_elapse, length_elapse by done. }
  assert (forall j now, k + passed (u32 (b + k)) j now = passed b (k + j) now) as Hpass.
  { intros j now. unfold passed. rewrite <- Z.add_assoc. do 2 f_equal.
    replace (now - (u32 (b + k) + j)) with ((now - j) - u32 (b + k)) by lia.
    unfold wrap. rewrite Zminus_mod_idemp_r. f_equal. lia. }
  induction Hp as [r e now r' Hr Heq|r e now r1 K r' Hr Hlt _ IH|r e Ho Hl].
  - pose proof (passed_le (u32 (b + k)) e now). rewrite Hpass. apply passes_stop; [done|].
    rewrite <- Hpass, <- !Hdue by lia. done.
  - pose proof (passed_le (u32 (b + k)) e now). eapply passes_more; [done| |rewrite <- Hpass; apply IH; lia].
    rewrite <- Hpass, <- !Hdue by lia. done.
  - apply passes_done; [done|]. rewrite later_elapse in Hl by done. by eapply fmap_nil_inv.
Qed.

(** [K] ticks have passed since [s]: the timers [F] that became due have fired, in order. *)
Record fired_until (K : Z) s D (F : list Z) s' : Prop := mkFired {
  fu_pos : 0 <= K;
  fu_fired : z_fired s' = z_fired s ++ F;
  fu_due : F = (earlier K D).*1;
  fu_left : holds s' (elapse K (later K D));
  fu_base : base s' = u32 (base s + K);
  fu_users : users_ok s (length D) -> users_ok s' (length (later K D))
}.

Lemma call_keeps t s :
  exists s', call callback t s = Ok (tt, s') /\ z_list s' = z_list s /\ z_last s' = z_last s /\ z_users s' = z_users s /\ z_fired s' = z_fired s ++ [t] /\ reader_of s' = reader_of s.
Proof using passive. unfold call, modify. rewrite passive. by eexists. Qed.

Lemma later_0 s D : holds s D -> match D with (_, d) :: _ => 0 < d | [] => True end -> earlier 0 D = [] /\ later 0 D = D.
Proof. intros _ Hd. destruct D as [|[t d] D]; [done|]. cbn [earlier later snd]. by destruct (Z.leb_spec d 0); [lia|]. Qed.

Lemma later_length K D : (length (later K D) <= length D)%nat.
Proof. induction D as [|e D IH]; cbn [later length]; [lia|]. destruct (e.2 <=? K); cbn [length]; lia. Qed.

Lemma fire_loop_step fuel t s :
  t <> 0 ->
  fire_loop callback (S fuel) t s =
    (call callback t ;;
     no_user ← ztimer_release;
     if no_user : bool then mret true
     else
       entry ← _now_next;
       if entry =? 0 then
         _ztimer_update_head_offset ;;
         entry ← _now_next;
         fire_loop callback fuel entry
       else fire_loop callback fuel entry) s.
Proof using. intros Ht. cbn [fire_loop]. by rewrite (proj2 (Z.eqb_neq t 0)). Qed.

(** From the timer [t], which has been taken out of the list. *)
Lemma fire_loop_spec fuel : forall t s D,
  t <> 0 -> holds s D -> timed s -> users_ok s (S (length D)) -> (length D < fuel)%nat ->
  exists K b s1 s' r, fire_loop callback (S fuel) t s = Ok (b, s') /\ z_fired s1 = z_fired s ++ [t] /\ base s1 = base s /\
    users_ok s1 (length D) /\ fired_until K s1 D (earlier K D).*1 s' /\ passes (base s) D (reader_of s) 0 K r /\
    (if b then ondemand = true /\ later K D = [] /\ z_hw s' = dev_stop (dev_cancel r.2) else reader_of s' = r).
Proof using passive HK.
  induction fuel as [|fuel IH]; intros t s D Ht Hh Htm Hu Hf; [lia|].
  destruct (call_keeps t s) as (s0 & E0 & L0 & A0 & U0 & F0 & W0).
  destruct (release_users s0) as (s1 & E1 & S1 & U1 & _). { intros Eo. rewrite U0. specialize (Hu Eo). lia. }
  assert (holds s1 D) as H1. { eapply same_timers_holds; [exact S1|]. unfold holds. by rewrite L0, A0. }
  assert (base s1 = base s) as B1. { rewrite (same_timers_base _ _ S1). unfold base. by rewrite L0. }
  assert (z_fired s1 = z_fired s ++ [t]) as F1 by (destruct S1 as (_ & _ & ->); done).
  assert (users_ok s1 (length D)) as Hu1. { intros Eo. rewrite U1, Eo, U0. specialize (Hu Eo). lia. }
  assert (timed s1) as Ht1 by (unfold timed; by rewrite B1).
  pose proof (release_reader _ _ _ E1) as W1.
  rewrite fire_loop_step by done. rewrite (cmd_bind_Ok _ _ _ _ _ E0), (cmd_bind_Ok _ _ _ _ _ E1).
  destruct (ondemand && (z_users s0 =? 1)) eqn:Elast.
  { assert (z_hw s0 = z_hw s) as W0' by (by injection W0).
    apply andb_true_iff in Elast as [Eo Eu%Z.eqb_eq]. assert (D = []) as ->. { specialize (Hu Eo). rewrite U0 in Eu. destruct D; [done|]. cbn [length] in Hu. lia. }
    exists 0, true, s1, s1, (reader_of s). split_and!; try done; [|by apply passes_done|by rewrite W1, W0'].
    constructor; try done; [by rewrite app_nil_r|]. rewrite Z.add_0_r. symmetry. by apply wrap_small. }
  destruct (decide (match D with (_, d) :: _ => d | [] => 1 end = 0)) as [Hz|Hz].
  - destruct D as [|[u d] D]; [done|]. subst d.
    destruct (now_next_due s1 u D H1) as (s2 & E2 & H2 & R2 & B2). pose proof (rest_reader _ _ R2) as W2. apply rest_eq in R2 as (U2 & _ & F2).
    assert (u <> 0) as Hu0 by (destruct (held_queued _ _ _ H1) as (_ & ? & _); done).
    rewrite (cmd_bind_Ok _ _ _ _ _ E2), (proj2 (Z.eqb_neq u 0)) by done. cbn [length] in Hf, Hu1.
    destruct (IH u s2 D) as (K & b & s3 & s' & r & E & F3 & B3 & U3 & P & Pp & Pb); [done|done|unfold timed; by rewrite B2, B1|intros Eo; rewrite U2; by apply Hu1|lia|].
    exists K, b, s1, s', r. destruct P as [PK PF _ PL PB PU].
    assert (earlier K ((u, 0) :: D) = (u, 0) :: earlier K D /\ later K ((u, 0) :: D) = later K D) as [Ee El]
      by (cbn [earlier later snd]; destruct (Z.leb_spec 0 K); [done|lia]).
    rewrite Ee, El. split_and!; [exact E|done..| | |exact Pb].
    2: { rewrite B2, B1, W2, W1, W0 in Pp. by apply passes_cons. }
    constructor; rewrite ?Ee, ?El; try done; [rewrite PF, F3, F2; by rewrite <- app_assoc|by rewrite PB, B3, B2|intros _; by apply PU].
  - assert (match D with (_, d) :: _ => 0 < d | [] => True end) as Hd.
    { destruct D as [|[u d] D]; [done|]. destruct (held_queued _ _ _ H1) as (_ & _ & Hr & _). lia. }
    rewrite (cmd_bind_Ok _ _ _ _ _ (now_next_none s1 D H1 Hd)). cbn [Z.eqb].
    destruct (update_head_offset_holds s1 D H1 Ht1) as (now & s2 & E2 & Hw & B2 & H2 & U2 & F2 & _ & R2). rewrite W1, W0 in R2. rewrite (cmd_bind_Ok _ _ _ _ _ E2).
    set (k := u32 (now - base s1)) in *. pose proof (wrap_range 32 (now - base s1) ltac:(lia)) as Hk. fold k in Hk. unfold is_word in Hk.
    assert (passed (base s) 0 now = k) as Ep by (unfold passed, k; rewrite B1, Z.add_0_r; lia).
    assert (now = u32 (base s1 + k)) as Enow.
    { unfold k. rewrite wrap_add_r by lia. replace (base s1 + (now - base s1)) with now by lia. symmetry. by apply wrap_small. }
    destruct (decide (match D with (_, d) :: _ => d | [] => k + 1 end <= k)) as [Hle|Hgt].
    + destruct D as [|[u d] D]; [lia|]. change (elapse k ((u, d) :: D)) with ((u, Z.max 0 (d - k)) :: elapse k D) in H2. rewrite Z.max_l in H2 by lia.
      destruct (now_next_due s2 u _ H2) as (s3 & E3 & H3 & R3 & B3). pose proof (rest_reader _ _ R3) as W3. apply rest_eq in R3 as (U3 & _ & F3).
      assert (u <> 0) as Hu0 by (destruct (held_queued _ _ _ H1) as (_ & ? & _); done). rewrite (cmd_bind_Ok _ _ _ _ _ E3). cbn [length] in Hf, Hu1.
      destruct (IH u s3 (elapse k D)) as (K & b & s4 & s' & r & E & F4 & B4 & U4 & P & Pp & Pb);
        [done|done|unfold timed; by rewrite B3, B2|intros Eo; rewrite U3, U2, length_elapse; by apply Hu1|rewrite length_elapse; lia|].
      destruct P as [PK PF _ PL PB PU]. rewrite earlier_elapse, elapse_fst in PF by done. rewrite later_elapse in PL, PU by done. rewrite elapse_elapse in PL by done.
      exists (k + K), b, s1, s', r.
      assert (earlier (k + K) ((u, d) :: D) = (u, d) :: earlier (k + K) D /\ later (k + K) ((u, d) :: D) = later (k + K) D) as [Ee El]
        by (cbn [earlier later snd]; destruct (Z.leb_spec d (k + K)); [done|lia]).
      rewrite Ee, El. split_and!; [exact E|done..| | |].
      3: { destruct b; [|done]. destruct Pb as (Po & Pl & Pw). split_and!; [done| |done]. rewrite later_elapse in Pl by done. by eapply fmap_nil_inv. }
      2: { eapply passes_more; [exact R2| |rewrite Ep].
           - rewrite Ep. unfold due_by. cbn [earlier snd]. destruct (Z.leb_spec d 0), (Z.leb_spec d k); cbn [length]; lia.
           - apply passes_cons; [lia|]. rewrite <- (Z.add_0_r k) at 1. apply passes_shift; [lia|]. by rewrite <- B1, <- Enow, <- B2, <- B3, <- W3. }
      constructor; rewrite ?Ee, ?El; try done; [lia|rewrite PF, F4, F3, F2; by rewrite <- app_assoc| |].
      * rewrite PB, B4, B3, B2, Enow, wrap_add_l by lia. f_equal. lia.
      * intros _. rewrite length_elapse in U4. rewrite !length_elapse in PU. by apply PU.
    + assert (earlier k D = [] /\ later k D = D) as [Ee El].
      { destruct D as [|[u d] D]; [done|]. cbn [earlier later snd]. destruct (Z.leb_spec d k); [lia|done]. }
      rewrite (cmd_bind_Ok _ _ _ _ _ (now_next_none s2 (elapse k D) H2 ltac:(destruct D as [|[u d] D]; [done|]; cbn; lia))).
      exists k, false, s1, s2, (reader_of s2). split_and!; try done.
      2: { rewrite <- Ep. apply passes_stop; [exact R2|]. rewrite Ep. unfold due_by. rewrite Ee.
           destruct D as [|[u d] D]; [done|]. cbn [earlier snd]. by destruct (Z.leb_spec d 0); [lia|]. }
      constructor; rewrite ?Ee, ?El; try done; [lia|by rewrite app_nil_r|by rewrite B2|].
      intros Hx Eo. rewrite U2. by apply Hx.
Qed.

(** ** The handler *)

(** What [_ztimer_update] makes of the hardware when the deadlines [D] are left. *)
Definition armed D (hw : H) : H :=
  match D with
  | (_, e) :: _ => dev_set (alarm e) hw
  | [] => if extend && (max_value <? UINT32_MAX) then dev_set (Z.shiftr max_value 1) hw else dev_cancel hw
  end.

(** What the interrupt of the first timer, [d] ticks after [s], does, the clock being read
    from [r0] on: time has moved on by the [K] ticks at which a reading of the clock brings no
    further timer due; the timers due by then have fired in the order of their deadlines,
    the others are held with the ticks left to them, and the hardware, as the readings left it,
    is armed for the first of them, or stopped when the last user has gone. *)
Record fires (d : Z) s D (r0 : reader) s' (K : Z) : Prop := mkFires {
  fires_due : z_fired s' = z_fired s ++ (earlier K D).*1;
  fires_left : holds s' (elapse K (later K D));
  fires_base : base s' = u32 (base s + K);
  fires_users : users_ok s' (length (later K D));
  fires_hw : exists r, passes (base s) D r0 d K r /\
    (z_hw s' = armed (elapse K (later K D)) r.2 \/
     ondemand = true /\ later K D = [] /\ z_hw s' = dev_stop (dev_cancel r.2))
}.

Lemma update_arms s D :
  holds s D ->
  exists s', _ztimer_update s = Ok (tt, s') /\ same_timers s s' /\ z_users s' = z_users s /\ z_hw s' = armed D (z_hw s).
Proof using.
  intros Hh. unfold _ztimer_update, armed, alarm, mbind, cmd_bind, gets. rewrite (head_of_list _ _ Hh). destruct D as [|[t d] D].
  - destruct (_ && _); eexists; (split; [reflexivity|]); by split_and!.
  - destruct (held_queued _ _ _ Hh) as (_ & Ht & _ & Ho & _). cbn [fst]. rewrite Ho, Z.sub_0_r, (proj2 (Z.eqb_neq t 0)) by done. cbn [negb].
    destruct (_ && _); eexists; (split; [reflexivity|]); by split_and!.
Qed.

Lemma fire_fires s t d D fuel :
  holds s ((t, d) :: D) -> timed s -> users_ok s (S (length D)) -> (S (length D) < fuel)%nat ->
  exists K s', fire callback fuel s = Ok (tt, s') /\ fires d s ((t, d) :: D) (reader_of s) s' K.
Proof using passive HK.
  intros Hh Htm Hu Hf. destruct fuel as [|fuel]; [lia|].
  destruct (held_queued _ _ _ Hh) as (_ & Ht & Hd & _).
  destruct (head_due s t d D Hh) as (s1 & E1 & H1 & R1 & B1). destruct (now_next_due s1 t _ H1) as (s2 & E2 & H2 & R2 & B2).
  pose proof (rest_reader _ _ R1) as W1. pose proof (rest_reader _ _ R2) as W2.
  apply rest_eq in R1 as (U1 & _ & F1), R2 as (U2 & _ & F2).
  destruct (fire_loop_spec fuel t s2 (elapse d D)) as (K & b & s3 & s4 & r & E4 & F3 & B3 & U3 & P & Pp & Pb);
    [done|done|unfold timed; rewrite B2, B1; apply wrap_range; lia|intros Eo; rewrite U2, U1, length_elapse; by apply Hu|rewrite length_elapse; lia|].
  destruct P as [PK PF _ PL PB PU]. specialize (PU U3). rewrite later_elapse in PL, PU by done. rewrite earlier_elapse, elapse_fst in PF by done.
  rewrite elapse_elapse in PL by done. rewrite length_elapse in PU.
  assert (earlier (d + K) ((t, d) :: D) = (t, d) :: earlier (d + K) D /\ later (d + K) ((t, d) :: D) = later (d + K) D) as [Ee El]
    by (cbn [earlier later snd]; destruct (Z.leb_spec d (d + K)); [done|lia]).
  assert (fire callback (S fuel) s = (if negb b then _ztimer_update else mret tt) s4) as ->.
  { unfold fire. unfold mbind at 1, cmd_bind at 1, gets at 1. rewrite (head_of_list _ _ Hh). cbn [fst]. rewrite (proj2 (Z.eqb_neq t 0)) by done. cbn [negb].
    unfold mbind, cmd_bind in E1 |- *. destruct (on_list _ s) as [[[] s0]|e]; [|done]. rewrite E1, E2, E4. done. }
  assert (base s4 = u32 (base s + (d + K))) as B4. { rewrite PB, B3, B2, B1, wrap_add_l by lia. f_equal. lia. }
  assert (z_fired s4 = z_fired s ++ (earlier (d + K) ((t, d) :: D)).*1) as F4. { rewrite PF, F3, F2, F1, Ee. by rewrite <- app_assoc. }
  assert (passes (base s) ((t, d) :: D) (reader_of s) d (d + K) r) as Hp.
  { apply passes_cons; [lia|]. rewrite <- (Z.add_0_r d) at 1. apply passes_shift; [lia|]. by rewrite <- B1, <- B2, <- W1, <- W2. }
  destruct b; cbn [negb].
  - destruct Pb as (Po & Pl & Pw). rewrite later_elapse in Pl by done. assert (later (d + K) D = []) as E0 by (by eapply fmap_nil_inv).
    exists (d + K), s4. split; [done|]. constructor; rewrite ?El; try done. exists r. split; [done|]. by right.
  - destruct (update_arms s4 _ PL) as (s5 & -> & S5 & U5 & A5). exists (d + K), s5. split; [done|].
    constructor; rewrite ?El.
    + destruct S5 as (_ & _ & ->). done.
    + by eapply same_timers_holds.
    + by rewrite (same_timers_base _ _ S5).
    + intros Eo. rewrite U5. by apply PU.
    + exists r. split; [done|]. left. rewrite A5. f_equal. by rewrite <- Pb.
Qed.

(** The hardware of an extended clock may only have been armed for a part of the way. *)
Definition early s (d : Z) : bool :=
  extend && (max_value <? UINT32_MAX) &&
  match ztimer_now s with Ok (now, _) => 0 <? s32 (u32 (base s + d - now)) | Err _ => false end.

(** The reader with which the timers are fired: an extended clock has been read once to
    see whether the deadline has come. *)
Definition first_reader s : reader :=
  if extend && (max_value <? UINT32_MAX) then
    match read_time (reader_of s) with Some (_, r) => r | None => reader_of s end
  else reader_of s.

(** C19: An interrupt of the hardware, with a list of timers as [ztimer_set] keeps it and enough fuel
    for its length.  Time moves on to the deadline of the first timer, and then, from one
    reading of the clock to the next, to the reading that brings no further timer due (on a
    clock on demand whose last user goes there is no such reading); every timer whose
    deadline has come by then has fired, once, in the order of the deadlines, and no other;
    the others are left with the ticks that remain, and the hardware is armed for the first
    of them.  On an extended clock, when the first deadline is still ahead, nothing fires
    and the hardware is armed again.  Here the callbacks do not touch the clock. *)
Theorem handler_fires s D fuel :
  holds s D -> timed s -> users_ok s (length D) -> (length D < fuel)%nat ->
  exists s', ztimer_handler callback fuel s = Ok (tt, s') /\
    match D with
    | (t, d) :: _ =>
        if early s d then z_fired s' = z_fired s /\ holds s' D /\ base s' = base s /\ exists v hw, v <= Z.shiftr max_value 1 /\ z_hw s' = dev_set v hw
        else exists K, fires d s D (first_reader s) s' K
    | [] => z_fired s' = z_fired s /\ holds s' []
    end.
Proof using passive HK.
  intros Hh Htm Hu Hf. unfold ztimer_handler, early, first_reader. destruct (extend && (max_value <? UINT32_MAX)) eqn:Ex; cbn [andb].
  - destruct (ztimer_now_total s) as (now & s1 & E1 & Hw & L1 & A1 & U1 & F1 & W1 & R1). rewrite E1, R1. rewrite (cmd_bind_Ok _ _ _ _ _ E1).
    assert (holds s1 D) as H1 by (unfold holds; by rewrite L1, A1). assert (base s1 = base s) as B1 by (unfold base; by rewrite L1).
    unfold mbind, cmd_bind, gets. rewrite (head_of_list _ _ H1). destruct D as [|[t d] D].
    + eexists. split; [reflexivity|]. split; [done|]. exact H1.
    + destruct (held_queued _ _ _ H1) as (_ & Ht & _ & Ho & _). cbn [fst]. rewrite (proj2 (Z.eqb_neq t 0)) by done. cbn [negb]. cbv beta iota.
      rewrite Ho, Z.sub_0_r. fold (base s1). rewrite B1. assert (u32 (u32 (base s + d) - now) = u32 (base s + d - now)) as -> by (by apply (wrap_add_l 32 (base s + d) (- now))).
      destruct (Z.ltb_spec 0 (s32 (u32 (base s + d - now)))).
      * eexists. split; [reflexivity|]. split_and!; [done|exact H1|exact B1|]. do 2 eexists. split; [|reflexivity]. unfold _min_u32. destruct (Z.ltb_spec (s32 (u32 (base s + d - now))) (Z.shiftr max_value 1)); lia.
      * destruct (fire_fires s1 t d D fuel) as (K & s' & E & [P1 P2 P3 P4 P5]); [done|unfold timed; by rewrite B1|intros Eo; rewrite U1; by apply Hu|done|].
        exists s'. split; [done|]. exists K. rewrite B1 in *. constructor; try done. by rewrite P1, F1.
  - destruct D as [|[t d] D].
    + unfold fire. unfold mbind at 1, cmd_bind at 1, gets at 1. rewrite (head_of_list _ _ Hh). cbn.
      destruct (update_arms s [] Hh) as (s' & E & S' & _). exists s'. split; [exact E|]. split; [apply S'|by eapply same_timers_holds].
    + destruct (fire_fires s t d D fuel Hh Htm Hu Hf) as (K & s' & E & P). exists s'. split; [done|]. by exists K.
Qed.
End Fire.
