(* ===== verification/ZtimerDemo.v ===== *)
(** * Executions of the timers

    A counter, a clock on it and states for which the hypotheses of the theorems hold. *)

From stdpp Require Import base gmap list sorting.
From Stdlib Require Import ZArith Lia.
From S2P Require Import Prelude Ztimer ZtimerSpec ZtimerOps ZtimerFire.

Local Open Scope Z_scope.

(** A counter: its value, and the alarm it is armed for. *)
Instance demo_device : Device (Z * option Z) := {|
  dev_set := fun v hw => (fst hw, Some v);
  dev_now := fun hw => (u32 (fst hw), hw);
  dev_cancel := fun hw => (fst hw, None);
  dev_start := fun hw => hw;
  dev_stop := fun hw => hw
|}.

(** A 16-bit counter, extended, with users. *)
Instance demo_clock : Clock := {|
  extend := true; ondemand := true; clk := 0x100; max_value := 0xffff; adjust_set := 2; adjust_clock_start := 3
|}.

Instance demo_clock_ok : ClockOk.
Proof. constructor; [intros hw; by apply wrap_range|done|done]. Qed.

(** The time 1000, no timer. *)
Definition idle : zclock (H := Z * option Z) := mkClock (list_to_map [(0x100, mkBase 0 1000)]) 0 0 1000 1000 (1000, None) [].

(** At the time 1000 the timers at 16, 32 and 48 have 40, 90 and 70000 ticks left; the counter
    shows [now]. *)
Definition three (now : Z) : zclock (H := Z * option Z) :=
  mkClock (list_to_map [(0x100, mkBase 16 1000); (16, mkBase 32 40); (32, mkBase 48 50); (48, mkBase 0 69910)])
    48 3 1000 1000 (now, Some 40) [].
Definition three_due : list due := [(16, 40); (32, 90); (48, 70000)].

Lemma idle_holds : holds idle [].
Proof.
  constructor; try done; [apply (bool_decide_unpack _); by vm_compute| |].
  - intros t Ht. unfold idle, nxt. cbn [z_list list_to_map foldr fst snd]. rewrite lookup_insert_ne; [done|]. intros <-. apply Ht. left.
  - intros t ->%list_elem_of_singleton. apply elem_of_dom. by eexists.
Qed.

Lemma three_holds now : holds (three now) three_due.
Proof.
  constructor; [apply (bool_decide_unpack _); by vm_compute|by vm_compute|by vm_compute|by vm_compute| | |done].
  - intros t Ht. unfold nxt, three. cbn [z_list list_to_map foldr fst snd].
    rewrite !lookup_insert_ne; [done|..]; intros <-; apply Ht; cbn; set_solver.
  - intros t Ht. apply elem_of_dom. cbn [three_due fmap list_fmap fst] in Ht.
    repeat (apply elem_of_cons in Ht as [->|Ht]; [by eexists|]). by apply not_elem_of_nil in Ht.
Qed.

(** The timers of a clock in order, with their offsets. *)
Fixpoint show (fuel : nat) (h : timers) (p : Z) : list (Z * Z) :=
  match fuel with
  | O => []
  | S fuel => let e := nxt h p in if e =? 0 then [] else (e, off h e) :: show fuel h e
  end.

Definition passive (t : Z) (s : zclock (H := Z * option Z)) : zclock := s.

(** ** Runs *)

(** The first timer starts the clock, and is armed in two steps. *)
Example first_timer :
  match ztimer_set 16 70000 idle with
  | Ok (now, s) => now = 1000 /\ show 5 (z_list s) clk = [(16, 69995)] /\ snd (z_hw s) = Some 0x7fff
  | Err _ => False
  end.
Proof. by vm_compute. Qed.

(** An interrupt at the time 1100 fires two timers. *)
Example two_fire :
  match ztimer_handler passive 5 (three 1100) with
  | Ok (_, s) => z_fired s = [16; 32] /\ show 5 (z_list s) clk = [(48, 69900)] /\ base s = 1100 /\ z_users s = 1
  | Err _ => False
  end.
Proof. by vm_compute. Qed.

(** An interrupt that comes before the first deadline fires none. *)
Example none_fires :
  match ztimer_handler passive 5 (three 1030) with
  | Ok (_, s) => z_fired s = [] /\ snd (z_hw s) = Some 10
  | Err _ => False
  end.
Proof. by vm_compute. Qed.

(** ** Witnesses *)

Lemma three_users now : users_ok (three now) (length three_due).
Proof. intros _. by vm_compute. Qed.

Lemma ztimer_set_refines_witness :
  exists now s', ztimer_set 32 5 (three 1010) = Ok (now, s') /\ holds s' [(32, 3); (16, 30); (48, 69990)].
Proof.
  destruct (ztimer_set_refines (three 1010) three_due 32 5 (three_holds _) ltac:(by vm_compute) (three_users _)
    ltac:(done) ltac:(done) ltac:(by vm_compute)) as (now & s' & E & _ & _ & _ & _ & Hh & _).
  exists now, s'. split; [exact E|]. vm_compute in E. injection E as <- _. exact Hh.
Defined.

Lemma ztimer_remove_refines_witness :
  exists s', ztimer_remove 32 (three 1010) = Ok (true, s') /\ holds s' [(16, 30); (48, 69990)].
Proof.
  destruct (ztimer_remove_refines (three 1010) three_due 32 (three_holds _) ltac:(by vm_compute) (three_users _)
    ltac:(done) ltac:(done)) as (now & s' & E & T & _ & _ & _ & Hh & _).
  exists s'. split; [exact E|]. vm_compute in T. injection T as <-. exact Hh.
Defined.

Lemma handler_fires_witness :
  exists s', ztimer_handler passive 5 (three 1100) = Ok (tt, s') /\ exists K, fires 40 (three 1100) three_due (first_reader (three 1100)) s' K.
Proof.
  destruct (handler_fires passive (fun _ _ => eq_refl) (three 1100) three_due 5 (three_holds _) ltac:(by vm_compute) (three_users _)
    ltac:(cbn; lia)) as (s' & E & P).
  exists s'. split; [exact E|]. exact P.
Defined.

Lemma now_extend_exact_witness :
  exists s', _ztimer_now_extend (three 1100) = Ok (1100, s') /\ in_time s' 1100.
Proof.
  destruct (now_extend_exact (three 1100) 1000 1100 (1100, Some 40) ltac:(done) ltac:(done) ltac:(done) ltac:(done)) as (s' & E & P & _).
  by exists s'.
Defined.
