(* ===== verification/ContextSwitch.v ===== *)
(** * The context switch of the Pip port

    Models [cpu/cortexm_common_pip/thread_arch.c] (the first stack of a thread and the
    PendSV handler that changes threads), the interrupt dispatchers and the handler table of
    [cpu/cortexm_common_pip/vectors_cortexm.c] and
    [cpu/nrf52_pip/vectors/vectors_nrf52832xxaa.c], and the heap of
    [sys/newlib_syscalls_default/syscalls.c].

    RIOT has no access to the processor's own frames: Pip saves the registers of interrupted
    code as a context, once on the stack of that code and once where the handler table of
    the partition says, and restores a context the table names.  Every thread has a place for
    the second copy between its stack and its control block.  The layout of a
    context is in a header of Pip, which is a parameter here. *)

From stdpp Require Import base gmap list.
From Stdlib Require Import ZArith Lia.
From S2P Require Import Prelude Kernel.

Local Open Scope Z_scope.

Definition STACK_MARKER : Z := 0x77777777.
Definition FIRST_XPSR : Z := 0x01000000.
Definition CPU_IRQ_NUMOF : Z := 39.

(** [context.h]: sizes, and offsets of members in a [basicContext_t], but for
    [extended_sp], the offset of [frame.sp] in an [extendedContext_t]; then the objects the
    linker and [start] place. *)
Class Port := {
  sizeof_basicContext : Z;
  sizeof_extendedContext : Z;
  sizeof_basicFrame : Z;
  sizeof_extendedFrame : Z;
  basic_frame : Z;
  extended_frame : Z;
  o_isBasicFrame : Z;
  o_pipflags : Z;
  o_sp : Z;
  o_r0 : Z;
  o_r10 : Z;
  o_pc : Z;
  o_xpsr : Z;
  extended_sp : Z;
  vidt : Z;
  gotAddr : Z;
  cortexm_ctx : Z;
  nrf52_ctx : Z
}.

Inductive arch_err :=
| InKernel (e : kerr)
| StackOverflow          (* assertion of thread_stack_init *)
| SanityCheck            (* assertion of isr_pendsv: the two copies differ *)
| CorruptedContext       (* assertion of isr_pendsv: neither kind of context *)
| NoHandler.             (* a handler beyond the table *)

Section Switch.
Context `{HP : Port}.

(** The entries of a [vidt_t] follow its first word, the current interrupt. *)
Definition vidt_slot (i : Z) : Z := vidt + 4 + 4 * i.

(** ** The stack of a new thread *)

(** A context that starts [task_func]; [size] bytes are cleared first. *)
Definition init_context (ctx size task_func arg sp : Z) (m : memory) : memory :=
  let m := wr_bytes m ctx (replicate (Z.to_nat size) 0) in
  let m := wr32 m (ctx + o_isBasicFrame) 1 in
  let m := wr32 m (ctx + o_pipflags) 1 in
  let m := wr32 m (ctx + o_r0) arg in
  let m := wr32 m (ctx + o_r10) gotAddr in
  let m := wr32 m (ctx + o_pc) task_func in
  let m := wr32 m (ctx + o_sp) sp in
  wr32 m (ctx + o_xpsr) FIRST_XPSR.

Definition thread_stack_init (task_func arg stack_start stack_size : Z) : cmd memory arch_err Z :=
  let sp := u32 (stack_start + stack_size) in
  let sp := Z.land sp (u32 (Z.lnot 3)) in
  let intctx := u32 (sp - sizeof_extendedContext) in
  let sp := u32 (intctx - 4) in
  modify (fun m => wr32 m sp STACK_MARKER) ;;
  let sp := u32 (sp - 4) in
  spthd ←
    (if negb (Z.land sp 7 =? 0) then
       let sp := u32 (sp - 4) in
       modify (fun m => wr32 m sp (u32 (Z.lnot STACK_MARKER))) ;; mret sp
     else mret sp);
  let stkctx := u32 (spthd - sizeof_basicContext) in
  modify (init_context intctx sizeof_extendedContext task_func arg spthd) ;;
  modify (init_context stkctx sizeof_basicContext task_func arg spthd) ;;
  check StackOverflow (stack_start <=? stkctx) ;;
  mret stkctx.

(** ** PendSV *)

(** The kernel, memory, the [sp] members of the control blocks and [noyld]. *)
Record arch := mkArch { a_kernel : kernel; a_mem : memory; a_sp : gmap Z Z; a_noyld : Z }.
Abbreviation ac A := (cmd arch arch_err A).

Definition on_mem (f : memory -> memory) : ac unit :=
  modify (fun a => mkArch (a_kernel a) (f (a_mem a)) (a_sp a) (a_noyld a)).
Definition set_sp (t v : Z) : ac unit :=
  modify (fun a => mkArch (a_kernel a) (a_mem a) (<[t := v]> (a_sp a)) (a_noyld a)).
Definition in_kernel {A} (c : kcmd A) : ac A := fun a =>
  match c (a_kernel a) with
  | Ok (x, k) => Ok (x, mkArch k (a_mem a) (a_sp a) (a_noyld a))
  | Err e => Err (InKernel e)
  end.

(** The place of the interrupted context of a thread, below its control block. *)
Definition thread_ctx (thd : Z) : Z := Z.land (u32 (thd - sizeof_extendedContext)) (u32 (Z.lnot 3)).

(** The stacked context of code that runs with [sp]. *)
Definition stacked (basic : bool) (sp : Z) : Z :=
  if basic then u32 (Z.land (u32 (sp - 0x20)) (u32 (Z.lnot 4)) - 44)
  else u32 (Z.land (u32 (sp - 0x68)) (u32 (Z.lnot 4)) - 108).

(** [memcmp] of [n] bytes. *)
Definition same_bytes (m : memory) (a b n : Z) : bool :=
  bool_decide (rd_bytes m a (Z.to_nat n) = rd_bytes m b (Z.to_nat n)).

(** Either the handler returns, or it gives the processor to entry 0 of the table
    and has Pip save what runs at entry 47. *)
Inductive outcome := Returned | Yielded.

Definition isr_pendsv (irqs : list (kcmd unit)) : ac outcome :=
  noyld ← gets a_noyld;
  if noyld =? 1 then mret Returned
  else
    curthd ← gets (fun a => sched_active_thread (a_kernel a));
    newthd ← in_kernel (sched_run irqs);
    if newthd =? curthd then mret Returned
    else
      let curctx := if negb (curthd =? 0) then thread_ctx curthd else 0 in
      let intctx := thread_ctx newthd in
      kind ← gets (fun a => rd32 (a_mem a) intctx);
      stkctx ←
        (if kind =? 0 then
           sp ← gets (fun a => rd32 (a_mem a) (intctx + extended_sp));
           set_sp newthd sp ;;
           let stkctx := stacked false sp in
           same ← gets (fun a => same_bytes (a_mem a) (intctx + extended_frame) (stkctx + extended_frame) sizeof_extendedFrame);
           check SanityCheck same ;;
           mret stkctx
         else if kind =? 1 then
           sp ← gets (fun a => rd32 (a_mem a) (intctx + o_sp));
           set_sp newthd sp ;;
           let stkctx := stacked true sp in
           same ← gets (fun a => same_bytes (a_mem a) (intctx + basic_frame) (stkctx + basic_frame) sizeof_basicFrame);
           check SanityCheck same ;;
           mret stkctx
         else fail CorruptedContext);
      on_mem (fun m => wr32 m (vidt_slot 0) stkctx) ;;
      on_mem (fun m => wr32 m (vidt_slot 9) intctx) ;;
      on_mem (fun m => wr32 m (vidt_slot 47) curctx) ;;
      mret Yielded.

(** ** Interrupts *)

(** The start of both dispatchers: the stack pointer moves to the stacked context of the
    interrupted code, which gets the flags Pip saved. *)
Definition enter (intctx : Z) : cmd memory arch_err Z :=
  kind ← gets (fun m => rd32 m intctx);
  stkctx ←
    (if kind =? 0 then gets (fun m => stacked false (rd32 m (intctx + 72)))
     else gets (fun m => stacked true (rd32 m (intctx + 8))));
  modify (fun m => wr32 m (stkctx + 4) (rd32 m (intctx + 4))) ;;
  mret stkctx.

(** Runs handler [intno] of a table, then asks for the context at the stack pointer. *)
Definition serve (handlers : list (cmd memory arch_err unit)) (first sp : Z) : cmd memory arch_err Z :=
  current ← gets (fun m => rd32 m vidt);
  (match handlers !! Z.to_nat (current - first) with
   | Some handler => if first <=? current then handler else fail NoHandler
   | None => fail NoHandler
   end) ;;
  modify (fun m => wr32 m (vidt_slot 0) sp) ;;
  mret sp.

Definition cortexm_pip_dispatcher (handlers : list (cmd memory arch_err unit)) (sp : Z) : cmd memory arch_err Z :=
  intctx ← gets (fun m => rd32 m (vidt_slot 9));
  sp ← (if intctx =? 0 then mret sp else enter intctx);
  serve handlers 1 sp.

Definition nrf52_pip_dispatcher (handlers : list (cmd memory arch_err unit)) : cmd memory arch_err Z :=
  intctx ← gets (fun m => rd32 m (vidt_slot 9));
  sp ← enter intctx;
  serve handlers 16 sp.

Definition cortexm_pip_ctx_init (sp sl : Z) (m : memory) : memory :=
  wr32 (wr32 m (cortexm_ctx + o_sp) sp) (cortexm_ctx + o_r10) sl.
Definition nrf52_pip_ctx_init (sp sl : Z) (m : memory) : memory :=
  wr32 (wr32 m (nrf52_ctx + o_sp) sp) (nrf52_ctx + o_r10) sl.

(** [n] entries from [i] on get [ctx]. *)
Fixpoint fill_slots (n : nat) (i ctx : Z) (m : memory) : memory :=
  match n with O => m | S n => fill_slots n (i + 1) ctx (wr32 m (vidt_slot i) ctx) end.

Definition cortexm_pip_vidt_init (m : memory) : memory :=
  let m := wr32 m vidt 0 in
  let m := wr32 m (vidt_slot 0) 0 in
  let m := fill_slots 15 1 cortexm_ctx m in
  let m := wr32 m (vidt_slot 8) 0 in
  wr32 m (vidt_slot 9) 0.

Definition nrf52_pip_vidt_init (m : memory) : memory :=
  let m := fill_slots (Z.to_nat CPU_IRQ_NUMOF) 16 nrf52_ctx m in
  let m := wr32 m (vidt_slot 46) 0 in
  wr32 m (vidt_slot 47) 0.
End Switch.

(** ** The heap *)

Record heap := mkHeap { h_start : Z; h_end : Z; h_top : Z }.

Definition heap_init (start end_ : Z) : heap := mkHeap start end_ start.

(** The address of the block, or all ones. *)
Definition _sbrk_r (incr : Z) (h : heap) : Z * heap :=
  let top := u32 (h_top h + incr) in
  if (h_end h <? top) || (top <? h_start h) then (2 ^ 32 - 1, h)
  else (h_top h, mkHeap (h_start h) (h_end h) top).

(** What [start] makes of the free RAM the interface names: the heap, and the place of
    the programs that are run. *)
Definition start_ram (unusedRamStart ramEnd : Z) : heap * Z :=
  (heap_init unusedRamStart ramEnd, Z.land (u32 (unusedRamStart + 4096 - 1)) (u32 (Z.lnot 4095))).
