(* ===== verification/ContextSwitchSpec.v ===== *)
(** * The context switch: theorems

    A new stack is a suspended thread that starts its function; every thread that
    is switched to goes on with the registers it was suspended with, whatever the
    other threads did meanwhile. *)

From stdpp Require Import base gmap list.
From Stdlib Require Import ZArith Lia.
From S2P Require Import Prelude Flash Kernel ContextSwitch.

Local Open Scope Z_scope.

(** What the code relies on in the layout of a context: the constants of [isr_pendsv] and
    of the dispatchers fit it, two words come first and the frame follows, and the
    members [thread_stack_init] sets are words that do not overlap. *)
Class PortOk `{HP : Port} : Prop := {
  po_basic : sizeof_basicContext = 44 + 0x20;
  po_extended : sizeof_extendedContext = 108 + 0x68;
  po_frames : basic_frame = 8 /\ extended_frame = 8;
  po_sizes : sizeof_basicFrame = sizeof_basicContext - 8 /\ sizeof_extendedFrame = sizeof_extendedContext - 8;
  po_flags : o_isBasicFrame = 0 /\ o_pipflags = 4;
  po_sp : o_sp = 8 /\ extended_sp = 72;
  po_members : Forall (fun o => 12 <= o <= 72 /\ o mod 4 = 0) [o_r0; o_r10; o_pc; o_xpsr];
  po_apart : NoDup [o_r0; o_r10; o_pc; o_xpsr]
}.

Section Spec.
Context `{HP : Port} `{HO : !PortOk}.

(** ** Contexts *)

(** A frame: whether it is a basic one, and its bytes. *)
Abbreviation frame := (bool * list Z)%type.
Implicit Types (m : memory) (f g : frame).

Definition kind (b : bool) : Z := if b then 1 else 0.
Definition context_size (b : bool) : Z := if b then sizeof_basicContext else sizeof_extendedContext.
Definition frame_size (b : bool) : nat := Z.to_nat (context_size b - 8).
Definition sp_offset (b : bool) : Z := if b then o_sp else extended_sp.

(** The word at offset [o] of the context of a frame, and its stack pointer. *)
Definition frame_word f (o : Z) : Z := le_val (take 4 (drop (Z.to_nat (o - 8)) (snd f))).
Definition frame_sp f : Z := frame_word f (sp_offset (fst f)).

(** The context at [c] holds the frame [f]. *)
Definition holds_frame m (c : Z) f : Prop :=
  rd32 m c = kind (fst f) /\ rd_bytes m (c + 8) (frame_size (fst f)) = snd f.

(** Where the frame is on the stack of its thread. *)
Definition stack_ctx f : Z := stacked (fst f) (frame_sp f).

(** A thread is suspended with the frame [f]: both copies hold it. *)
Definition suspended m (thd : Z) f : Prop := holds_frame m (thread_ctx thd) f /\ holds_frame m (stack_ctx f) f.

Lemma size_cases b : context_size b = if b then 76 else 212.
Proof using HO. unfold context_size. rewrite po_basic, po_extended. by destruct b. Qed.

Lemma frame_word_at m c f o :
  rd_bytes m (c + 8) (frame_size (fst f)) = snd f -> 8 <= o <= context_size (fst f) - 4 -> rd32 m (c + o) = frame_word f o.
Proof using.
  intros Hf Ho. unfold rd32, frame_word. rewrite rd_le_val. f_equal. rewrite <- Hf. unfold frame_size. apply list_eq. intros i.
  destruct (decide (i < 4)%nat) as [Hi|Hi].
  - rewrite lookup_rd_bytes, lookup_take_lt, lookup_drop by done. rewrite lookup_rd_bytes by lia. do 2 f_equal. lia.
  - rewrite !lookup_ge_None_2; [done|rewrite length_take; lia|rewrite length_rd_bytes; lia].
Qed.

Lemma frame_sp_at m c f : rd_bytes m (c + 8) (frame_size (fst f)) = snd f -> rd32 m (c + sp_offset (fst f)) = frame_sp f.
Proof using HO.
  intros Hf. apply frame_word_at; [done|]. rewrite size_cases. destruct po_sp as [E1 E2]. unfold sp_offset. rewrite E1, E2. destruct (fst f); lia.
Qed.

Lemma holds_frame_ext m m' c f :
  same_on m m' c (c + context_size (fst f)) -> holds_frame m c f -> holds_frame m' c f.
Proof using HO.
  intros Hs [Hk Hb]. pose proof (size_cases (fst f)) as Hz. split.
  - rewrite <- Hk. apply rd_le_ext. eapply same_on_weaken; [exact Hs|lia|]. destruct (fst f); lia.
  - rewrite <- Hb. apply rd_bytes_ext. eapply same_on_weaken; [exact Hs|lia|]. unfold frame_size. destruct (fst f); lia.
Qed.

(** ** Addresses *)

Lemma thread_ctx_eq thd : thd mod 4 = 0 -> 212 <= thd < 2 ^ 32 -> thread_ctx thd = thd - 212.
Proof using HO.
  intros Ha Ht. unfold thread_ctx. rewrite po_extended. change (Z.lnot 3) with (Z.lnot (2 ^ 2 - 1)).
  rewrite wrap_small by (unfold is_word; lia). rewrite land_mask by (unfold is_word; lia). change (2 ^ 2) with 4.
  rewrite Zminus_mod, Ha. change ((0 - (108 + 104) mod 4) mod 4) with 0. lia.
Qed.

(** The bit of a misaligned stack pointer. *)
Lemma land_not4 x : is_word 32 x -> Z.land x (u32 (Z.lnot 4)) = if Z.testbit x 2 then x - 4 else x.
Proof using.
  intros Hx. apply is_word_bits in Hx as [H0 Hx]; [|lia]. change (u32 (Z.lnot 4)) with (Z.ldiff (Z.ones 32) 4).
  assert (Z.land x (Z.ldiff (Z.ones 32) 4) = Z.ldiff x 4) as ->.
  { apply Z.bits_inj'. intros i Hi. rewrite Z.land_spec, !Z.ldiff_spec. destruct (decide (i < 32)).
    - rewrite Z.ones_spec_low by lia. by rewrite andb_true_l.
    - rewrite Hx by lia. done. }
  destruct (Z.testbit x 2) eqn:E.
  - rewrite <- Z.sub_nocarry_ldiff; [done|]. apply Z.bits_inj'. intros i Hi. rewrite Z.ldiff_spec, Z.bits_0. change 4 with (2 ^ 2).
    rewrite Z.pow2_bits_eqb by lia. destruct (Z.eqb_spec 2 i) as [<-|]; [by rewrite E|done].
  - apply Z.bits_inj'. intros i Hi. rewrite Z.ldiff_spec. change 4 with (2 ^ 2). rewrite Z.pow2_bits_eqb by lia.
    destruct (Z.eqb_spec 2 i) as [<-|]; [by rewrite E|by rewrite andb_true_r].
Qed.

Lemma stacked_range (b : bool) sp :
  (if b then 80 else 216) <= sp < 2 ^ 32 ->
  sp - context_size b - 4 <= stacked b sp <= sp - context_size b.
Proof using HO.
  intros Hs. rewrite size_cases. unfold stacked. destruct b.
  - rewrite (wrap_small 32 (sp - 32)) by (unfold is_word; lia). rewrite land_not4 by (unfold is_word; lia).
    destruct (Z.testbit _ 2); rewrite wrap_small by (unfold is_word; lia); lia.
  - rewrite (wrap_small 32 (sp - 104)) by (unfold is_word; lia). rewrite land_not4 by (unfold is_word; lia).
    destruct (Z.testbit _ 2); rewrite wrap_small by (unfold is_word; lia); lia.
Qed.

Lemma stacked_aligned sp : sp mod 8 = 0 -> 76 <= sp < 2 ^ 32 -> stacked true sp = sp - 76.
Proof using.
  intros Ha Hs. unfold stacked. rewrite (wrap_small 32 (sp - 32)) by (unfold is_word; lia). rewrite land_not4 by (unfold is_word; lia).
  assert (Z.testbit (sp - 32) 2 = false) as ->.
  { assert ((sp - 32) mod 2 ^ 3 = 0) as E by (change (2 ^ 3) with 8; rewrite Zminus_mod, Ha; done).
    rewrite <- (Z.mod_pow2_bits_low _ 3) by lia. rewrite E. apply Z.bits_0. }
  rewrite wrap_small by (unfold is_word; lia). lia.
Qed.
(** ** New threads *)

(** The same bytes from [c] on in [m] as from [0] on in [m0]. *)
Definition moved (c : Z) m m0 : Prop := forall i, 0 <= i < 76 -> rd8 m (c + i) = rd8 m0 i.

Lemma moved_wr8 c m m0 o v : moved c m m0 -> moved c (wr8 m (c + o) v) (wr8 m0 o v).
Proof using.
  intros Hm i Hi. destruct (decide (i = o)) as [->|]; [by rewrite !rd8_wr8_eq|]. rewrite !rd8_wr8_ne by lia. by apply Hm.
Qed.

Lemma moved_wr32 c m m0 o v : moved c m m0 -> moved c (wr32 m (c + o) v) (wr32 m0 o v).
Proof using.
  unfold wr32. generalize 4%nat. intros n. revert m m0 o v. induction n as [|n IH]; intros m m0 o v Hm; cbn [wr_le]; [done|].
  rewrite <- Z.add_assoc. by apply IH, moved_wr8.
Qed.

Lemma moved_zeros c m k : 76 <= k -> moved c (wr_bytes m c (replicate (Z.to_nat k) 0)) (wr_bytes ∅ 0 (replicate 76 0)).
Proof using.
  intros Hk i Hi. replace (c + i) with (c + Z.of_nat (Z.to_nat i)) by lia. replace i with (0 + Z.of_nat (Z.to_nat i)) at 2 by lia.
  rewrite !(rd8_wr_bytes_in _ _ _ _ 0); [done|apply lookup_replicate; lia|apply lookup_replicate; lia].
Qed.

(** The frame a new thread starts with. *)
Definition first_bytes (task_func arg sp : Z) : memory := init_context 0 76 task_func arg sp ∅.
Definition first_frame (task_func arg sp : Z) : frame := (true, rd_bytes (first_bytes task_func arg sp) 8 68).

Lemma init_context_moved c size task_func arg sp m :
  76 <= size -> moved c (init_context c size task_func arg sp m) (first_bytes task_func arg sp).
Proof using. intros Hs. unfold first_bytes, init_context. do 7 apply moved_wr32. by apply moved_zeros. Qed.

Lemma init_context_out c size task_func arg sp m a :
  76 <= size -> a < c \/ c + size <= a -> rd8 (init_context c size task_func arg sp m) a = rd8 m a.
Proof using HO.
  intros Hs Ha. pose proof po_members as Hm. rewrite !Forall_cons in Hm. destruct Hm as (H1 & H2 & H3 & H4 & _).
  destruct po_flags as [F1 F2]. destruct po_sp as [E _]. unfold init_context. rewrite !rd8_wr32_out by lia.
  apply rd8_wr_bytes_out. rewrite length_replicate. lia.
Qed.

Lemma moved_rd32 c m m0 o : moved c m m0 -> 0 <= o <= 72 -> rd32 m (c + o) = rd32 m0 o.
Proof using.
  intros Hm Ho. unfold rd32. cbn [rd_le]. rewrite <- !Z.add_assoc. rewrite !Hm by lia. done.
Qed.

Lemma moved_bytes c m m0 : moved c m m0 -> rd_bytes m (c + 8) 68 = rd_bytes m0 8 68.
Proof using.
  intros Hm. apply list_eq. intros i. destruct (decide (i < 68)%nat).
  - rewrite !lookup_rd_bytes by done. f_equal. rewrite <- Z.add_assoc. apply Hm. lia.
  - rewrite !lookup_ge_None_2; [done|rewrite length_rd_bytes; lia..].
Qed.

(** The members of the first frame. *)
Lemma first_words task_func arg sp :
  is_word 32 task_func -> is_word 32 arg -> is_word 32 sp -> is_word 32 gotAddr ->
  let m := first_bytes task_func arg sp in
  rd32 m 0 = 1 /\ rd32 m o_r0 = arg /\ rd32 m o_r10 = gotAddr /\ rd32 m o_pc = task_func /\ rd32 m o_sp = sp /\ rd32 m o_xpsr = FIRST_XPSR.
Proof using HO.
  intros Hf Ha Hs Hg. pose proof po_members as Hm. rewrite !Forall_cons in Hm. destruct Hm as ((H1 & A1) & (H2 & A2) & (H3 & A3) & (H4 & A4) & _).
  pose proof po_apart as Hd. rewrite !NoDup_cons, !not_elem_of_cons in Hd. destruct Hd as ((D1 & D2 & D3 & _) & (D4 & D5 & _) & (D6 & _) & _).
  destruct po_flags as [F1 F2]. destruct po_sp as [E _].
  assert (forall x y, x mod 4 = 0 -> y mod 4 = 0 -> x <> y -> x + 4 <= y \/ y + 4 <= x) as Hap.
  { intros x y Hx Hy Hne. pose proof (Z.div_mod x 4). pose proof (Z.div_mod y 4). lia. }
  pose proof (Hap _ _ A1 A2 D1). pose proof (Hap _ _ A1 A3 D2). pose proof (Hap _ _ A1 A4 D3). pose proof (Hap _ _ A2 A3 D4). pose proof (Hap _ _ A2 A4 D5). pose proof (Hap _ _ A3 A4 D6).
  cbv zeta. unfold first_bytes, init_context. rewrite !Z.add_0_l, F1, F2, E.
  split_and!; rewrite ?rd32_wr32_apart by lia; apply rd32_wr32_same; done.
Qed.
(** Registers that start [task_func] on [arg]. *)
Record starts (task_func arg : Z) f : Prop := mkStarts {
  st_basic : fst f = true;
  st_r0 : frame_word f o_r0 = arg;
  st_r10 : frame_word f o_r10 = gotAddr;
  st_pc : frame_word f o_pc = task_func;
  st_xpsr : frame_word f o_xpsr = FIRST_XPSR;
  st_aligned : frame_sp f mod 8 = 0
}.

Lemma first_starts task_func arg sp :
  is_word 32 task_func -> is_word 32 arg -> is_word 32 sp -> is_word 32 gotAddr -> sp mod 8 = 0 ->
  starts task_func arg (first_frame task_func arg sp) /\ frame_sp (first_frame task_func arg sp) = sp.
Proof using HO.
  intros Hf Ha Hs Hg H8. destruct (first_words task_func arg sp Hf Ha Hs Hg) as (_ & W1 & W2 & W3 & W4 & W5).
  pose proof po_members as Hm. rewrite !Forall_cons in Hm. destruct Hm as ((H1 & _) & (H2 & _) & (H3 & _) & (H4 & _) & _). destruct po_sp as [E _].
  assert (forall o, 8 <= o <= 72 -> frame_word (first_frame task_func arg sp) o = rd32 (first_bytes task_func arg sp) o) as Hw.
  { intros o Ho. symmetry. apply (frame_word_at _ 0 (first_frame task_func arg sp)); cbn [first_frame fst snd]; [|rewrite size_cases; lia].
    unfold frame_size. rewrite size_cases. done. }
  assert (frame_sp (first_frame task_func arg sp) = sp) as Esp by (unfold frame_sp, sp_offset; cbn [first_frame fst]; rewrite Hw by lia; exact W4).
  split; [|done]. constructor; [done|rewrite Hw by lia; done..|by rewrite Esp].
Qed.

Lemma holds_first m c task_func arg sp :
  is_word 32 task_func -> is_word 32 arg -> is_word 32 sp -> is_word 32 gotAddr ->
  moved c m (first_bytes task_func arg sp) -> holds_frame m c (first_frame task_func arg sp).
Proof using HO.
  intros Hf Ha Hs Hg Hm. split; cbn [first_frame fst snd].
  - rewrite <- (Z.add_0_r c), (moved_rd32 _ _ _ _ Hm) by lia. by apply first_words.
  - unfold frame_size. rewrite size_cases. by apply moved_bytes.
Qed.

(** The stack pointer of a new thread, above the place of its context, below the marker. *)
Definition first_sp (thd : Z) : Z := if thd mod 8 =? 4 then thd - 220 else thd - 224.

(** What [thread_stack_init] stores. *)
Definition new_stack (task_func arg thd : Z) m : memory :=
  let m := wr32 m (thd - 216) STACK_MARKER in
  let m := if thd mod 8 =? 4 then m else wr32 m (thd - 224) (u32 (Z.lnot STACK_MARKER)) in
  let m := init_context (thd - 212) 212 task_func arg (first_sp thd) m in
  init_context (first_sp thd - 76) 76 task_func arg (first_sp thd) m.

Lemma stack_init_runs m task_func arg lo size :
  let thd := lo + size in
  thd mod 4 = 0 -> 300 <= thd < 2 ^ 32 ->
  thread_stack_init task_func arg lo size m =
    if lo <=? first_sp thd - 76 then Ok (first_sp thd - 76, new_stack task_func arg thd m) else Err StackOverflow.
Proof using HO.
  intros thd Ha Ht. unfold thread_stack_init. fold thd. rewrite po_extended, po_basic. change (108 + 104) with 212. change (44 + 32) with 76.
  rewrite (wrap_small 32 thd) by (unfold is_word; lia). change (Z.lnot 3) with (Z.lnot (2 ^ 2 - 1)). rewrite land_mask by (unfold is_word; lia).
  change (2 ^ 2) with 4. rewrite Ha, Z.sub_0_r. rewrite (wrap_small 32 (thd - 212)) by (unfold is_word; lia). rewrite (wrap_small 32 (thd - 212 - 4)) by (unfold is_word; lia).
  rewrite (wrap_small 32 (thd - 212 - 4 - 4)) by (unfold is_word; lia). replace (thd - 212 - 4 - 4) with (thd - 220) by lia. replace (thd - 212 - 4) with (thd - 216) by lia.
  assert (Z.land (thd - 220) 7 = (thd - 220) mod 8) as -> by (change 7 with (Z.ones 3); by rewrite Z.land_ones by lia).
  rewrite (wrap_small 32 (thd - 220 - 4)) by (unfold is_word; lia). replace (thd - 220 - 4) with (thd - 224) by lia.
  assert (thd mod 8 = 0 \/ thd mod 8 = 4) as Hc. { pose proof (Z.mod_pos_bound thd 8). pose proof (Z.div_mod thd 8). pose proof (Z.div_mod thd 4). lia. }
  unfold new_stack, first_sp. unfold mbind, cmd_bind, modify, mret, cmd_ret, check.
  destruct Hc as [Hc|Hc]; rewrite Zminus_mod, Hc.
  - change ((0 - 220 mod 8) mod 8 =? 0) with false. cbn [negb Z.eqb]. rewrite (wrap_small 32 (thd - 224 - 76)) by (unfold is_word; lia). by destruct (lo <=? thd - 224 - 76).
  - change ((4 - 220 mod 8) mod 8 =? 0) with true. cbn [negb]. change (4 =? 4) with true. cbv iota. rewrite (wrap_small 32 (thd - 220 - 76)) by (unfold is_word; lia). by destruct (lo <=? thd - 220 - 76).
Qed.

Lemma first_sp_spec thd : thd mod 4 = 0 -> thd - 224 <= first_sp thd <= thd - 220 /\ first_sp thd mod 8 = 0.
Proof using.
  intros Ha. unfold first_sp. assert (thd mod 8 = 0 \/ thd mod 8 = 4) as [Hc|Hc]; [pose proof (Z.mod_pos_bound thd 8); pose proof (Z.div_mod thd 8); pose proof (Z.div_mod thd 4); lia| |];
    rewrite Hc; [change (0 =? 4) with false|change (4 =? 4) with true]; cbv iota; (split; [lia|]); rewrite Zminus_mod, Hc; done.
Qed.

Lemma new_stack_out task_func arg thd m a :
  thd mod 4 = 0 -> a < first_sp thd - 76 \/ thd <= a -> rd8 (new_stack task_func arg thd m) a = rd8 m a.
Proof using HO.
  intros Ha Hout. destruct (first_sp_spec thd Ha) as [Hs _]. unfold new_stack.
  rewrite !init_context_out by lia. destruct (thd mod 8 =? 4); rewrite !rd8_wr32_out by lia; done.
Qed.

Lemma stack_init_ok m task_func arg lo size :
  let thd := lo + size in
  0 <= lo -> 300 <= thd < 2 ^ 32 -> thd mod 4 = 0 -> is_word 32 task_func -> is_word 32 arg -> is_word 32 gotAddr ->
  (300 <= size -> exists f m', thread_stack_init task_func arg lo size m = Ok (stack_ctx f, m') /\
     suspended m' thd f /\ starts task_func arg f /\ lo <= stack_ctx f /\ stack_ctx f + context_size true <= thread_ctx thd /\
     forall a, a < lo \/ thd <= a -> rd8 m' a = rd8 m a) /\
  (size < 296 -> thread_stack_init task_func arg lo size m = Err StackOverflow).
Proof using HO.
  intros thd Hlo Ht Ha Hf Harg Hg. pose proof (stack_init_runs m task_func arg lo size Ha Ht) as Hrun. fold thd in Hrun.
  assert (thd = lo + size) as Et by done. clearbody thd. destruct (first_sp_spec thd Ha) as [Hs H8]. split; intros Hz.
  - destruct (first_starts task_func arg (first_sp thd)) as [Hst Esp]; [done|done|unfold is_word; lia|done|done|].
    set (f := first_frame task_func arg (first_sp thd)) in *. assert (stack_ctx f = first_sp thd - 76) as Ec.
    { unfold stack_ctx. cbn [f first_frame fst]. rewrite Esp. apply stacked_aligned; [done|lia]. }
    exists f, (new_stack task_func arg thd m). rewrite Hrun, Ec. rewrite (proj2 (Z.leb_le lo (first_sp thd - 76))) by lia.
    assert (is_word 32 (first_sp thd)) as Hw by (unfold is_word; lia).
    rewrite size_cases, thread_ctx_eq by (done || lia).
    split_and!; [done| |done|lia|lia|intros a Hout; apply new_stack_out; [done|lia]].
    split; [rewrite thread_ctx_eq by (done || lia)|rewrite Ec]; apply holds_first; try done; unfold new_stack.
    + intros i Hi. rewrite init_context_out by lia. apply init_context_moved; lia.
    + apply init_context_moved. lia.
  - rewrite Hrun, (proj2 (Z.leb_gt lo (first_sp thd - 76))); [done|lia].
Qed.

(** C16: A new stack is a suspended thread: the two contexts [thread_stack_init] writes are where
    [isr_pendsv] looks for them, they hold the same frame, and that starts the function on
    its argument, with the table of global offsets in place and the stack pointer
    aligned to eight bytes; nothing outside of the stack is written.  A stack that is too
    small is reported, for every size below 296 bytes. *)
Theorem stack_init_suspends m task_func arg lo size :
  let thd := lo + size in
  0 <= lo -> 300 <= thd < 2 ^ 32 -> thd mod 4 = 0 -> is_word 32 task_func -> is_word 32 arg -> is_word 32 gotAddr ->
  (300 <= size -> exists f m', thread_stack_init task_func arg lo size m = Ok (stack_ctx f, m') /\
     suspended m' thd f /\ starts task_func arg f /\ lo <= stack_ctx f /\ stack_ctx f + context_size true <= thread_ctx thd /\
     forall a, a < lo \/ thd <= a -> rd8 m' a = rd8 m a) /\
  (size < 296 -> thread_stack_init task_func arg lo size m = Err StackOverflow).
Proof using HO. intros thd H1 H2 H3 H4 H5 H6. exact (stack_init_ok m task_func arg lo size H1 H2 H3 H4 H5 H6). Qed.
End Spec.
