(* ===== verification/ContextSwitchRun.v ===== *)
(** * Threads that are switched

    The threads of RIOT as a machine: code that runs, new stacks, threads that end,
    interrupts that a dispatcher serves, and switches by the PendSV handler with the
    saving and restoring of contexts Pip does.  In every reachable state each suspended
    thread can be resumed, with exactly the registers it was suspended with, and an
    interrupt of the running thread goes back to the registers it had. *)

From stdpp Require Import base gmap list.
From Stdlib Require Import ZArith Lia.
From S2P Require Import Prelude Flash Kernel ContextSwitch ContextSwitchSpec.

Local Open Scope Z_scope.

(** Pip saves the registers of the code that yields or is interrupted: on the stack of that
    code, and at the place its table names unless there is none. *)
Class PipSaves `{HP : Port} := { pip_save : bool * list Z -> Z -> memory -> memory }.

Class PipSavesOk `{HS : PipSaves} : Prop := {
  save_stack : forall f dst m, length (snd f) = frame_size (fst f) -> Forall (is_word 8) (snd f) ->
    dst = 0 \/ stack_ctx f + context_size (fst f) <= dst -> holds_frame (pip_save f dst m) (stack_ctx f) f;
  save_place : forall f dst m, length (snd f) = frame_size (fst f) -> Forall (is_word 8) (snd f) ->
    dst <> 0 -> stack_ctx f + context_size (fst f) <= dst -> holds_frame (pip_save f dst m) dst f;
  save_only : forall f dst m a, length (snd f) = frame_size (fst f) ->
    a < stack_ctx f \/ stack_ctx f + context_size (fst f) <= a ->
    dst = 0 \/ a < dst \/ dst + context_size (fst f) <= a -> rd8 (pip_save f dst m) a = rd8 m a
}.

Section Run.
Context `{HP : Port} `{HO : !PortOk} `{HS : !PipSaves} `{HK : !PipSavesOk}.
Abbreviation frame := (bool * list Z)%type.
Implicit Types (m : memory) (f g : frame) (handlers : list (cmd memory arch_err unit)) (handler : cmd memory arch_err unit).

(** ** The handler *)

(** The table when [thd] is switched to. *)
Definition pendsv_mem (cur thd : Z) f m : memory :=
  wr32 (wr32 (wr32 m (vidt_slot 0) (stack_ctx f)) (vidt_slot 9) (thread_ctx thd)) (vidt_slot 47)
    (if negb (cur =? 0) then thread_ctx cur else 0).

Lemma pendsv_switches irqs a thd k f :
  a_noyld a <> 1 -> sched_run irqs (a_kernel a) = Ok (thd, k) -> thd <> sched_active_thread (a_kernel a) ->
  suspended (a_mem a) thd f ->
  isr_pendsv irqs a = Ok (Yielded, mkArch k (pendsv_mem (sched_active_thread (a_kernel a)) thd f (a_mem a))
    (<[thd := frame_sp f]> (a_sp a)) (a_noyld a)).
Proof using HO.
  intros Hn Hs Hne [[Hk Hb] [Hk' Hb']]. unfold isr_pendsv, mbind, cmd_bind, gets, in_kernel.
  rewrite (proj2 (Z.eqb_neq (a_noyld a) 1)) by done. rewrite Hs. rewrite (proj2 (Z.eqb_neq thd _)) by done. cbn [a_mem]. rewrite Hk.
  pose proof (frame_sp_at _ _ _ Hb) as Esp. destruct po_frames as [E1 E2]. destruct po_sizes as [Z1 Z2]. destruct f as [b F]. cbn [fst snd] in *.
  unfold stack_ctx in Hb', Hk'. cbn [fst snd] in Hb', Hk'. unfold sp_offset, frame_size, context_size in *.
  destruct b; cbn [kind Z.eqb Pos.eqb fst a_mem]; rewrite Esp; unfold set_sp, modify, same_bytes, check, on_mem, mret, cmd_ret; cbn [a_mem];
    rewrite ?E1, ?E2, ?Z1, ?Z2, Hb, Hb', bool_decide_eq_true_2 by done; done.
Qed.

(** ** The machine *)

(** Memory, the frames of the suspended threads, the lower ends of all stacks (that of [thd]
    reaches to its control block at [thd]), and the running thread or [0]. *)
Record sys := mkSys { y_mem : memory; y_susp : gmap Z frame; y_stacks : gmap Z Z; y_cur : Z }.

(** A range of addresses apart from another. *)
Definition apart (lo hi lo' hi' : Z) : Prop := hi <= lo' \/ hi' <= lo.

Definition vidt_end : Z := vidt_slot 64.

(** A stack, aligned, with room for its contexts and apart from the table. *)
Record stack_ok (thd lo : Z) : Prop := mkStackOk {
  so_low : 0 < lo;
  so_room : lo + 300 <= thd < 2 ^ 32;
  so_aligned : thd mod 4 = 0;
  so_vidt : apart lo thd vidt vidt_end
}.

(** The stacked copy of [f] lies in the stack of [thd], below the place of its context. *)
Definition fits (thd lo : Z) f : Prop :=
  lo <= stack_ctx f /\ stack_ctx f + context_size (fst f) <= thread_ctx thd.

(** A frame as Pip makes it. *)
Definition real f : Prop := length (snd f) = frame_size (fst f) /\ Forall (is_word 8) (snd f).

(** The two saved contexts of a suspended thread, and the bytes they keep. *)
Definition context_kept m m' (c : Z) f : Prop := same_on m m' c (c + context_size (fst f)).
Definition thread_kept m m' (thd : Z) f : Prop :=
  context_kept m m' (thread_ctx thd) f /\ context_kept m m' (stack_ctx f) f.

(** Code that runs between two memories without touching the saved contexts of the
    suspended threads, nor the entry of the table that names the place of the running
    thread's.  The rest of every stack may change: the kernel delivers a message into a
    variable of a blocked thread. *)
Definition respects (susp : gmap Z frame) m m' : Prop :=
  (forall thd f, susp !! thd = Some f -> thread_kept m m' thd f) /\
  rd32 m' (vidt_slot 9) = rd32 m (vidt_slot 9).

(** The two dispatchers, with the number of the first exception each serves. *)
Definition dispatcher (nrf52 : bool) (handlers : list (cmd memory arch_err unit)) (sp : Z) : cmd memory arch_err Z :=
  if nrf52 then nrf52_pip_dispatcher handlers else cortexm_pip_dispatcher handlers sp.
Definition first_irq (nrf52 : bool) : Z := if nrf52 then 16 else 1.

(** What a dispatcher finds when code with the frame [g] is interrupted: Pip has saved
    the frame and noted the number of the interrupt. *)
Definition interrupted_mem g (intno : Z) m : memory :=
  wr32 (pip_save g (rd32 m (vidt_slot 9)) m) vidt intno.

Inductive sys_step : sys -> sys -> Prop :=
| StepRun y m' :
    respects (y_susp y) (y_mem y) m' ->
    sys_step y (mkSys m' (y_susp y) (y_stacks y) (y_cur y))
| StepInterrupt y lo g intno nrf52 handlers handler sp m' :
    y_stacks y !! y_cur y = Some lo -> real g -> fits (y_cur y) lo g ->
    first_irq nrf52 <= intno < 2 ^ 32 -> handlers !! Z.to_nat (intno - first_irq nrf52) = Some handler ->
    (forall m1 m2, handler m1 = Ok (tt, m2) -> respects (y_susp y) m1 m2) ->
    dispatcher nrf52 handlers sp (interrupted_mem g intno (y_mem y)) = Ok (stack_ctx g, m') ->
    sys_step y (mkSys m' (y_susp y) (y_stacks y) (y_cur y))
| StepCreate y thd lo task_func arg sp m' :
    y_stacks y !! thd = None -> stack_ok thd lo -> (forall t l, y_stacks y !! t = Some l -> apart lo thd l t) ->
    is_word 32 task_func -> is_word 32 arg ->
    thread_stack_init task_func arg lo (thd - lo) (y_mem y) = Ok (sp, m') ->
    sys_step y (mkSys m' (<[thd := (true, rd_bytes m' (sp + 8) (frame_size true))]> (y_susp y)) (<[thd := lo]> (y_stacks y)) (y_cur y))
| StepExit y :
    sys_step y (mkSys (y_mem y) (y_susp y) (delete (y_cur y) (y_stacks y)) 0)
| StepSwitch y irqs a a' thd k f g :
    a_mem a = y_mem y -> sched_active_thread (a_kernel a) = y_cur y -> sched_run irqs (a_kernel a) = Ok (thd, k) ->
    isr_pendsv irqs a = Ok (Yielded, a') -> y_susp y !! thd = Some f -> real g ->
    (forall lo, y_stacks y !! y_cur y = Some lo -> fits (y_cur y) lo g) ->
    (y_cur y = 0 -> apart (stack_ctx g) (stack_ctx g + context_size (fst g)) vidt vidt_end /\
       forall t l, y_stacks y !! t = Some l -> apart (stack_ctx g) (stack_ctx g + context_size (fst g)) l t) ->
    sys_step y (mkSys (pip_save g (rd32 (a_mem a') (vidt_slot 47)) (a_mem a'))
      (let s := delete thd (y_susp y) in if y_cur y =? 0 then s else <[y_cur y := g]> s) (y_stacks y) thd).

Definition sys_start m : sys := mkSys m ∅ ∅ 0.
Definition sys_reachable (y : sys) : Prop := exists m, rtc sys_step (sys_start m) y.

(** ** The invariant *)

Record consistent (y : sys) : Prop := mkConsistent {
  co_stacks : forall thd lo, y_stacks y !! thd = Some lo -> stack_ok thd lo;
  co_apart : forall t l t' l', y_stacks y !! t = Some l -> y_stacks y !! t' = Some l' -> t <> t' -> apart l t l' t';
  co_susp : forall thd f, y_susp y !! thd = Some f ->
    exists lo, y_stacks y !! thd = Some lo /\ suspended (y_mem y) thd f /\ fits thd lo f;
  co_cur : y_cur y <> 0 -> is_Some (y_stacks y !! y_cur y);
  co_running : y_susp y !! y_cur y = None;
  co_table : y_cur y <> 0 -> rd32 (y_mem y) (vidt_slot 9) = thread_ctx (y_cur y)
}.

Lemma thread_ctx_in thd lo : stack_ok thd lo -> thread_ctx thd = thd - 212.
Proof using HO. intros [H1 H2 H3 _]. apply thread_ctx_eq; [done|lia]. Qed.

(** A thread stays suspended while its stack is left alone. *)
Lemma suspended_ext m m' thd lo f :
  stack_ok thd lo -> fits thd lo f -> same_on m m' lo thd -> suspended m thd f -> suspended m' thd f.
Proof using HO.
  intros Hs [F1 F2] Hm [H1 H2]. pose proof (thread_ctx_in _ _ Hs) as Ec. rewrite Ec in F2. pose proof (size_cases (fst f)) as Hz.
  destruct Hs as [_ Hr _ _].
  split; (eapply holds_frame_ext; [|eassumption]); (eapply same_on_weaken; [exact Hm| |]); rewrite ?Ec; destruct (fst f); lia.
Qed.

Lemma suspended_keep m m' thd f : thread_kept m m' thd f -> suspended m thd f -> suspended m' thd f.
Proof using HO. intros [K1 K2] [H1 H2]. split; by eapply holds_frame_ext. Qed.

Lemma slot9_same m m' : same_on m m' vidt vidt_end -> rd32 m' (vidt_slot 9) = rd32 m (vidt_slot 9).
Proof using. intros H. apply rd_le_ext. eapply same_on_weaken; [exact H|unfold vidt_slot; lia|unfold vidt_end, vidt_slot; lia]. Qed.

Lemma pendsv_mem_out cur thd f m a : a < vidt \/ vidt_end <= a -> rd8 (pendsv_mem cur thd f m) a = rd8 m a.
Proof using. unfold vidt_end, pendsv_mem, vidt_slot. intros Ha. rewrite !rd8_wr32_out by lia. done. Qed.

Lemma consistent_start m : consistent (sys_start m).
Proof using. constructor; cbn; try (intros *; rewrite !lookup_empty; done); done. Qed.

Lemma consistent_run y m' :
  consistent y -> respects (y_susp y) (y_mem y) m' -> consistent (mkSys m' (y_susp y) (y_stacks y) (y_cur y)).
Proof using HO.
  intros [C1 C2 C3 C4 C5 C6] [Hm H9]. constructor; cbn [y_mem y_susp y_stacks y_cur]; try done.
  - intros thd f Hf. destruct (C3 thd f Hf) as (lo & Hl & Hs & Hi). exists lo. split_and!; [done| |done].
    eapply suspended_keep; [by apply Hm|done].
  - intros Hc. rewrite H9. by apply C6.
Qed.

Lemma consistent_create y thd lo task_func arg sp m' :
  is_word 32 gotAddr -> consistent y -> y_stacks y !! thd = None -> stack_ok thd lo ->
  (forall t l, y_stacks y !! t = Some l -> apart lo thd l t) -> is_word 32 task_func -> is_word 32 arg ->
  thread_stack_init task_func arg lo (thd - lo) (y_mem y) = Ok (sp, m') ->
  consistent (mkSys m' (<[thd := (true, rd_bytes m' (sp + 8) (frame_size true))]> (y_susp y)) (<[thd := lo]> (y_stacks y)) (y_cur y)).
Proof using HO.
  intros Hg [C1 C2 C3 C4 C5 C6] Hnew Hok Hap Hf Ha E. pose proof Hok as [S1 S2 S3 S4].
  assert (lo + (thd - lo) = thd) as Et by lia.
  destruct (stack_init_ok (y_mem y) task_func arg lo (thd - lo)) as [Hgo _]; rewrite ?Et; try done || lia.
  destruct Hgo as (f & m1 & E1 & Hs & Hst & Hlo & Hhi & Hout); [lia|]. rewrite E in E1. injection E1 as -> <-. rewrite Et in Hs, Hhi, Hout.
  assert (f = (true, rd_bytes m' (stack_ctx f + 8) (frame_size true))) as Ef.
  { destruct Hs as [_ [_ Hb]]. pose proof (st_basic _ _ _ Hst) as Eb. rewrite Eb in Hb. rewrite Hb. destruct f; cbn in *. by subst. }
  rewrite <- Ef. constructor; cbn [y_mem y_susp y_stacks y_cur].
  - intros t l [[<- <-]|[_ Hl]]%lookup_insert_Some; [done|by apply C1].
  - intros t l t' l' [[<- <-]|[Hn Hl]]%lookup_insert_Some [[<- <-]|[Hn' Hl']]%lookup_insert_Some Hne; [done|by apply Hap| |by eapply C2].
    destruct (Hap t l Hl); [by right|by left].
  - intros t g [[<- <-]|[Hn Hg']]%lookup_insert_Some.
    + exists lo. rewrite lookup_insert_eq. split_and!; [done|done|]. split; [done|]. by rewrite (st_basic _ _ _ Hst).
    + destruct (C3 t g Hg') as (l & Hl & Hsu & Hi). exists l. rewrite lookup_insert_ne by done. split_and!; [done| |done].
      eapply suspended_ext; [by apply C1|done| |done]. intros x Hx. apply Hout. destruct (Hap t l Hl); lia.
  - intros Hc. rewrite lookup_insert_ne; [by apply C4|]. intros ->. destruct (C4 Hc) as [? Hx]. by rewrite Hnew in Hx.
  - rewrite lookup_insert_ne; [done|]. intros ->. destruct (decide (y_cur y = 0)) as [E0|E0]; [lia|].
    destruct (C4 E0) as [? Hx]. by rewrite Hnew in Hx.
  - intros Hc. rewrite <- (C6 Hc). apply slot9_same. intros x Hx. apply Hout. destruct S4; lia.
Qed.

Lemma consistent_exit y : consistent y -> consistent (mkSys (y_mem y) (y_susp y) (delete (y_cur y) (y_stacks y)) 0).
Proof using.
  intros [C1 C2 C3 C4 C5 C6]. constructor; cbn [y_mem y_susp y_stacks y_cur]; [| | |done| |done].
  - intros t l [_ Hl]%lookup_delete_Some. by apply C1.
  - intros t l t' l' [_ Hl]%lookup_delete_Some [_ Hl']%lookup_delete_Some. by apply C2.
  - intros t f Hf. destruct (C3 t f Hf) as (lo & Hl & Hs & Hi). exists lo. rewrite lookup_delete_ne; [done|]. intros <-. by rewrite C5 in Hf.
  - destruct (y_susp y !! 0) as [f|] eqn:E; [|done]. destruct (C3 0 f E) as (lo & Hl & _). destruct (C1 _ _ Hl) as [? ? _ _]. lia.
Qed.

(** What the handler and the saving of [g] leave of the stacks. *)
Lemma switch_same y thd f g t l :
  consistent y -> y_stacks y !! t = Some l -> t <> y_cur y -> real g ->
  (forall lo, y_stacks y !! y_cur y = Some lo -> fits (y_cur y) lo g) ->
  (y_cur y = 0 -> apart (stack_ctx g) (stack_ctx g + context_size (fst g)) l t) ->
  same_on (y_mem y) (pip_save g (if negb (y_cur y =? 0) then thread_ctx (y_cur y) else 0) (pendsv_mem (y_cur y) thd f (y_mem y))) l t.
Proof using HO HK.
  intros [C1 C2 C3 C4 C5 C6] Hl Hne [Hlen _] Hfit H0 x Hx. pose proof (C1 _ _ Hl) as [_ Hr _ Hv]. pose proof (size_cases (fst g)) as Hz.
  rewrite save_only; [apply pendsv_mem_out; destruct Hv; lia|done| |].
  - destruct (decide (y_cur y = 0)) as [E|E]; [destruct (H0 E); lia|]. destruct (C4 E) as [lo Hlo]. destruct (Hfit lo Hlo) as [F1 F2].
    rewrite (thread_ctx_in _ _ (C1 _ _ Hlo)) in F2. destruct (C1 _ _ Hlo) as [_ ? _ _]. destruct (C2 _ _ _ _ Hl Hlo Hne); lia.
  - destruct (Z.eqb_spec (y_cur y) 0) as [E|E]; [by left|]. cbn [negb]. right. destruct (C4 E) as [lo Hlo].
    rewrite (thread_ctx_in _ _ (C1 _ _ Hlo)). destruct (C1 _ _ Hlo) as [_ ? _ _]. destruct (C2 _ _ _ _ Hl Hlo Hne); destruct (fst g); lia.
Qed.

(** What the saving of [g] leaves of the table. *)
Lemma save_table y g m : consistent y -> real g ->
  (forall lo, y_stacks y !! y_cur y = Some lo -> fits (y_cur y) lo g) ->
  (y_cur y = 0 -> apart (stack_ctx g) (stack_ctx g + context_size (fst g)) vidt vidt_end) ->
  same_on m (pip_save g (if negb (y_cur y =? 0) then thread_ctx (y_cur y) else 0) m) vidt vidt_end.
Proof using HO HK.
  intros [C1 C2 C3 C4 C5 C6] [Hlen _] Hfit H0 x Hx. pose proof (size_cases (fst g)) as Hz.
  destruct (Z.eqb_spec (y_cur y) 0) as [E|E]; cbn [negb].
  - apply save_only; [done| |by left]. destruct (H0 E); lia.
  - destruct (C4 E) as [lo Hlo]. destruct (Hfit lo Hlo) as [F1 F2]. pose proof (thread_ctx_in _ _ (C1 _ _ Hlo)) as Ec.
    destruct (C1 _ _ Hlo) as [? ? _ Hv]. rewrite Ec in *.
    apply save_only; [done| |right]; destruct Hv, (fst g); lia.
Qed.

Lemma pendsv_slot9 cur thd f m : rd32 (pendsv_mem cur thd f m) (vidt_slot 9) = thread_ctx thd.
Proof using.
  unfold pendsv_mem. rewrite rd32_wr32_apart by (unfold vidt_slot; lia). apply rd32_wr32_same.
  unfold thread_ctx. apply word_land; [lia|apply wrap_range; lia|by apply wrap_range].
Qed.

Lemma pendsv_slot cur thd f m : is_word 32 (thread_ctx cur) -> rd32 (pendsv_mem cur thd f m) (vidt_slot 47) = if negb (cur =? 0) then thread_ctx cur else 0.
Proof using. intros Hw. unfold pendsv_mem. apply rd32_wr32_same. by destruct (negb _). Qed.

Lemma thread_ctx_word thd : is_word 32 (thread_ctx thd).
Proof using. unfold thread_ctx. apply word_land; [lia|apply wrap_range; lia|by apply wrap_range]. Qed.

Lemma consistent_switch y irqs a a' thd k f g :
  consistent y -> a_mem a = y_mem y -> sched_active_thread (a_kernel a) = y_cur y -> sched_run irqs (a_kernel a) = Ok (thd, k) ->
  isr_pendsv irqs a = Ok (Yielded, a') -> y_susp y !! thd = Some f -> real g ->
  (forall lo, y_stacks y !! y_cur y = Some lo -> fits (y_cur y) lo g) ->
  (y_cur y = 0 -> apart (stack_ctx g) (stack_ctx g + context_size (fst g)) vidt vidt_end /\
     forall t l, y_stacks y !! t = Some l -> apart (stack_ctx g) (stack_ctx g + context_size (fst g)) l t) ->
  consistent (mkSys (pip_save g (rd32 (a_mem a') (vidt_slot 47)) (a_mem a'))
    (let s := delete thd (y_susp y) in if y_cur y =? 0 then s else <[y_cur y := g]> s) (y_stacks y) thd).
Proof using HO HK.
  intros Hc Em Ea Er Ei Hf [G1 G2] Hfit H0. pose proof Hc as [C1 C2 C3 C4 C5 C6]. destruct (C3 thd f Hf) as (lo & Hl & Hs & Hi).
  assert (thd <> y_cur y) as Hne by (intros ->; by rewrite C5 in Hf).
  assert (a_mem a' = pendsv_mem (y_cur y) thd f (y_mem y)) as Em'.
  { assert (a_noyld a <> 1) as Hn. { intros E. unfold isr_pendsv, mbind, cmd_bind, gets in Ei. by rewrite E in Ei. }
    rewrite (pendsv_switches irqs a thd k f) in Ei; [|done|done|by rewrite Ea|by rewrite Em]. injection Ei as <-. cbn [a_mem]. by rewrite Ea, Em. }
  rewrite Em', pendsv_slot by apply thread_ctx_word. constructor; cbn [y_mem y_susp y_stacks y_cur]; [done|done| |by eexists| |].
  - cbv zeta. intros t h Hh. destruct (decide (t = y_cur y)) as [->|Ht].
    + destruct (Z.eqb_spec (y_cur y) 0) as [E|E]; [apply lookup_delete_Some in Hh as [_ Hh]; by rewrite C5 in Hh|].
      rewrite lookup_insert_eq in Hh. injection Hh as <-. destruct (C4 E) as [l Hl']. exists l. split_and!; [done| |by apply Hfit]. cbn [negb].
      destruct (Hfit l Hl') as [F1 F2]. pose proof (thread_ctx_in _ _ (C1 _ _ Hl')) as Ec. destruct (C1 _ _ Hl') as [? ? _ _]. split; [apply save_place; try done; lia|apply save_stack; try done; by right].
    + assert (y_susp y !! t = Some h) as Hh'.
      { destruct (y_cur y =? 0); [|rewrite lookup_insert_ne in Hh by done]; by apply lookup_delete_Some in Hh as [_ ?]. }
      destruct (C3 t h Hh') as (l & Hl' & Hs' & Hi'). exists l. split_and!; [done| |done].
      eapply suspended_ext; [by apply C1|done| |exact Hs']. apply switch_same; try done. intros E. by apply H0.
  - cbv zeta. destruct (y_cur y =? 0); [|rewrite lookup_insert_ne by done]; apply lookup_delete_eq.
  - intros _. rewrite (slot9_same _ _ (save_table y g _ Hc (conj G1 G2) Hfit ltac:(exact (fun E => proj1 (H0 E))))). apply pendsv_slot9.
Qed.

(** ** Interrupts *)

Lemma enter_stacked m c f :
  holds_frame m c f -> enter c m = Ok (stack_ctx f, wr32 m (stack_ctx f + 4) (rd32 m (c + 4))).
Proof using HO.
  intros [Hk Hb]. pose proof (frame_sp_at _ _ _ Hb) as Esp. destruct po_sp as [E1 E2]. unfold sp_offset in Esp. rewrite E1, E2 in Esp.
  unfold enter, mbind, cmd_bind, gets, stack_ctx. rewrite Hk. destruct (fst f); cbn [kind Z.eqb Pos.eqb]; rewrite Esp; done.
Qed.

Lemma holds_frame_flags m c f v : holds_frame m c f -> holds_frame (wr32 m (c + 4) v) c f.
Proof using.
  intros [Hk Hb]. split; [rewrite rd32_wr32_apart by lia; done|]. rewrite <- Hb. apply rd_bytes_ext. intros x Hx. apply rd8_wr32_out. lia.
Qed.

(** The memory the handler runs on: the stacked context has the flags Pip saved. *)
Definition handler_mem (c : Z) f m : memory := wr32 m (stack_ctx f + 4) (rd32 m (c + 4)).

(** A dispatcher is its handler between the two accesses to the table. *)
Lemma dispatcher_runs m c f nrf52 handlers sp handler :
  rd32 m (vidt_slot 9) = c -> c <> 0 -> holds_frame m c f ->
  apart (stack_ctx f) (stack_ctx f + context_size (fst f)) vidt vidt_end ->
  first_irq nrf52 <= rd32 m vidt -> handlers !! Z.to_nat (rd32 m vidt - first_irq nrf52) = Some handler ->
  dispatcher nrf52 handlers sp m =
    match handler (handler_mem c f m) with
    | Ok (_, mh) => Ok (stack_ctx f, wr32 mh (vidt_slot 0) (stack_ctx f))
    | Err e => Err e
    end.
Proof using HO.
  intros E9 Hc Hp Hap Hfirst Hh. pose proof (enter_stacked m c f Hp) as Ee. pose proof (size_cases (fst f)) as Hz.
  fold (handler_mem c f m) in Ee.
  assert (rd32 (handler_mem c f m) vidt = rd32 m vidt) as Ev.
  { unfold handler_mem. apply rd32_wr32_apart. unfold vidt_end, vidt_slot in Hap. destruct Hap, (fst f); lia. }
  assert (serve handlers (first_irq nrf52) (stack_ctx f) (handler_mem c f m) =
    match handler (handler_mem c f m) with
    | Ok (_, mh) => Ok (stack_ctx f, wr32 mh (vidt_slot 0) (stack_ctx f))
    | Err e => Err e
    end) as Es.
  { unfold serve, mbind, cmd_bind, gets. rewrite Ev, Hh, (proj2 (Z.leb_le _ _) Hfirst).
    by destruct (handler _) as [[]|]. }
  rewrite <- Es. unfold dispatcher.
  destruct nrf52; unfold nrf52_pip_dispatcher, cortexm_pip_dispatcher, mbind, cmd_bind, gets; rewrite E9;
    rewrite ?(proj2 (Z.eqb_neq c 0)) by done; rewrite Ee; done.
Qed.

(** What the dispatcher finds at an interrupt of the running thread. *)
Lemma interrupted_holds_frame y lo g intno :
  consistent y -> y_stacks y !! y_cur y = Some lo -> y_cur y <> 0 -> real g -> fits (y_cur y) lo g -> is_word 32 intno ->
  let m := interrupted_mem g intno (y_mem y) in
  rd32 m (vidt_slot 9) = thread_ctx (y_cur y) /\ thread_ctx (y_cur y) <> 0 /\ rd32 m vidt = intno /\
  holds_frame m (thread_ctx (y_cur y)) g /\ holds_frame m (stack_ctx g) g /\
  apart (stack_ctx g) (stack_ctx g + context_size (fst g)) vidt vidt_end.
Proof using HO HK.
  intros Hc Hlo H0 Hr Hfit Hw m. pose proof Hc as [C1 C2 C3 C4 C5 C6]. pose proof (C1 _ _ Hlo) as [S1 S2 S3 S4].
  pose proof (thread_ctx_in _ _ (C1 _ _ Hlo)) as Ec. pose proof (size_cases (fst g)) as Hz. pose proof Hfit as [F1 F2].
  pose proof Hr as [G1 G2].
  assert (forall l, y_stacks y !! y_cur y = Some l -> fits (y_cur y) l g) as Hfit' by (intros l Hl; by simplify_eq).
  pose proof (save_table y g (y_mem y) Hc Hr Hfit' ltac:(done)) as Htab.
  rewrite (proj2 (Z.eqb_neq (y_cur y) 0) H0) in Htab. cbn [negb] in Htab.
  unfold m, interrupted_mem. rewrite (C6 H0).
  assert (forall c, lo <= c -> c + context_size (fst g) <= y_cur y ->
    holds_frame (pip_save g (thread_ctx (y_cur y)) (y_mem y)) c g ->
    holds_frame (wr32 (pip_save g (thread_ctx (y_cur y)) (y_mem y)) vidt intno) c g) as Hkeep.
  { intros c Hc1 Hc2. apply holds_frame_ext. intros x Hx. apply rd8_wr32_out. unfold vidt_end, vidt_slot in S4. destruct S4; lia. }
  split_and!.
  - rewrite rd32_wr32_apart by (unfold vidt_slot; lia). by rewrite (slot9_same _ _ Htab), (C6 H0).
  - lia.
  - by apply rd32_wr32_same.
  - apply Hkeep; [lia|rewrite Ec; destruct (fst g); lia|]. apply save_place; try done. lia.
  - apply Hkeep; [lia|lia|]. apply save_stack; try done. by right.
  - rewrite Ec in F2. destruct S4; [left|right]; lia.
Qed.

Lemma consistent_interrupt y lo g intno nrf52 handlers handler sp m' :
  consistent y -> y_stacks y !! y_cur y = Some lo -> real g -> fits (y_cur y) lo g ->
  first_irq nrf52 <= intno < 2 ^ 32 -> handlers !! Z.to_nat (intno - first_irq nrf52) = Some handler ->
  (forall m1 m2, handler m1 = Ok (tt, m2) -> respects (y_susp y) m1 m2) ->
  dispatcher nrf52 handlers sp (interrupted_mem g intno (y_mem y)) = Ok (stack_ctx g, m') ->
  consistent (mkSys m' (y_susp y) (y_stacks y) (y_cur y)).
Proof using HO HK.
  intros Hc Hlo Hr Hfit Hno Hh Hres E. apply consistent_run; [done|].
  pose proof Hc as [C1 C2 C3 C4 C5 C6]. pose proof (C1 _ _ Hlo) as [S1 S2 S3 S4]. pose proof Hfit as [F1 F2].
  assert (y_cur y <> 0) as H0 by lia. assert (is_word 32 intno) as Hw by (unfold first_irq, is_word in *; destruct nrf52; lia).
  destruct (interrupted_holds_frame y lo g intno Hc Hlo H0 Hr Hfit Hw) as (E9 & Hn0 & Ev & Hp & Hs & Hap).
  rewrite (dispatcher_runs _ _ _ _ _ _ _ E9 Hn0 Hp Hap) in E by (rewrite ?Ev; done || lia).
  set (m1 := handler_mem _ _ _) in E. destruct (handler m1) as [[[] mh]|] eqn:Eh; [|done]. injection E as <-.
  destruct (Hres _ _ Eh) as [Hk H9]. pose proof (thread_ctx_in _ _ (C1 _ _ Hlo)) as Ec. rewrite Ec in F2.
  pose proof (size_cases (fst g)) as Hz.
  assert (forall t l, y_stacks y !! t = Some l -> t <> y_cur y -> same_on (y_mem y) m1 l t) as Hout.
  { intros t l Hl Hne x Hx. pose proof (C1 _ _ Hl) as [_ ? _ Hv]. pose proof (C2 _ _ _ _ Hl Hlo Hne) as Ha.
    unfold m1, handler_mem, interrupted_mem. rewrite (C6 H0), Ec.
    rewrite rd8_wr32_out by (destruct Ha, (fst g); lia).
    rewrite rd8_wr32_out by (unfold vidt_end, vidt_slot in Hv; destruct Hv; lia).
    apply save_only; [apply Hr|destruct Ha; lia|right; destruct Ha, (fst g); lia]. }
  split.
  - intros t f Hf. destruct (C3 t f Hf) as (l & Hl & _ & [K1 K2]). assert (t <> y_cur y) as Hne by (intros ->; by rewrite C5 in Hf).
    pose proof (thread_ctx_in _ _ (C1 _ _ Hl)) as Et. pose proof (C1 _ _ Hl) as [? ? _ Hv]. pose proof (size_cases (fst f)) as Hzf.
    destruct (Hk t f Hf) as [A1 A2].
    assert (forall c, l <= c -> c + context_size (fst f) <= t -> context_kept m1 mh c f ->
      context_kept (y_mem y) (wr32 mh (vidt_slot 0) (stack_ctx g)) c f) as Hc'.
    { intros c B1 B2 A x Hx. rewrite rd8_wr32_out by (unfold vidt_end, vidt_slot in *; destruct Hv; lia).
      rewrite (A x Hx). apply (Hout t l Hl Hne). lia. }
    split; apply Hc'; try done; rewrite ?Et in *; destruct (fst f); lia.
  - rewrite rd32_wr32_apart by (unfold vidt_slot; lia). rewrite H9. unfold m1, handler_mem.
    rewrite rd32_wr32_apart by (unfold vidt_end, vidt_slot in *; destruct Hap, (fst g); lia). by rewrite E9, (C6 H0).
Qed.

Lemma reachable_consistent y : is_word 32 gotAddr -> sys_reachable y -> consistent y.
Proof using HO HK.
  intros Hg [m Hr]. revert Hr. apply (rtc_ind_r (fun y => consistent y)); [apply consistent_start|].
  intros y1 y2 _ Hstep Hc. destruct Hstep;
    [by apply consistent_run|by eapply consistent_interrupt|eapply consistent_create; [..|eassumption]; done|by apply consistent_exit|by eapply consistent_switch].
Qed.

(** C3: Threads resume where they were.  The machine starts without threads; then, in any
    order, code runs, threads are created, the running thread is interrupted and a
    dispatcher serves the interrupt, threads end, and the PendSV handler switches.
    What the running code and the handlers of interrupts must leave alone is the two
    saved contexts of each suspended thread and entry 9 of the table (the rest of a
    suspended thread's stack may be written, as message delivery does), and no thread
    overflows its stack: each frame Pip stacks lies in the stack of its thread, below
    the place of its context.  In every state of the machine the PendSV handler that is to
    switch to a suspended thread passes its assertions and gives Pip the frame the thread
    was suspended with (or was created with), and the place for the frame of the thread
    that is left, and every suspended thread stays suspended with its frame. *)
Theorem threads_resume y irqs a thd k f :
  is_word 32 gotAddr -> sys_reachable y -> a_mem a = y_mem y -> sched_active_thread (a_kernel a) = y_cur y -> a_noyld a <> 1 ->
  sched_run irqs (a_kernel a) = Ok (thd, k) -> y_susp y !! thd = Some f ->
  exists a', isr_pendsv irqs a = Ok (Yielded, a') /\ a_kernel a' = k /\ a_sp a' !! thd = Some (frame_sp f) /\
    holds_frame (a_mem a') (rd32 (a_mem a') (vidt_slot 0)) f /\ rd32 (a_mem a') (vidt_slot 9) = thread_ctx thd /\
    rd32 (a_mem a') (vidt_slot 47) = (if y_cur y =? 0 then 0 else thread_ctx (y_cur y)) /\
    forall t h, y_susp y !! t = Some h -> suspended (a_mem a') t h.
Proof using HO HK.
  intros Hg Hr Em Ea Hn Er Hf. pose proof (reachable_consistent y Hg Hr) as [C1 C2 C3 C4 C5 C6]. destruct (C3 thd f Hf) as (lo & Hl & Hs & Hi).
  assert (thd <> y_cur y) as Hne by (intros ->; by rewrite C5 in Hf).
  eexists. split; [apply (pendsv_switches irqs a thd k f); [done|done|by rewrite Ea|by rewrite Em]|]. cbn [a_kernel a_mem a_sp]. rewrite Ea, Em.
  assert (forall t h, y_susp y !! t = Some h -> suspended (pendsv_mem (y_cur y) thd f (y_mem y)) t h) as Hall.
  { intros t h Hh. destruct (C3 t h Hh) as (l & Hl' & Hs' & Hi'). eapply suspended_ext; [by apply C1|done| |done].
    intros x Hx. apply pendsv_mem_out. destruct (C1 _ _ Hl') as [_ _ _ Hv]. destruct Hv; lia. }
  assert (rd32 (pendsv_mem (y_cur y) thd f (y_mem y)) (vidt_slot 0) = stack_ctx f) as ->.
  { unfold pendsv_mem, vidt_slot. rewrite !rd32_wr32_apart by lia. apply rd32_wr32_same. unfold stack_ctx, stacked. destruct (fst f); by apply wrap_range. }
  split_and!; [done|by rewrite lookup_insert_eq|by apply (Hall thd f Hf)| |rewrite pendsv_slot by apply thread_ctx_word; by destruct (y_cur y =? 0)|done].
  apply pendsv_slot9.
Qed.

(** C17: An interrupt is invisible to the code it interrupts.  In every state of the machine
    in which a thread runs, entry 9 of the table names the place of its context; when Pip
    interrupts it, with a frame that fits its stack, either dispatcher runs the handler of
    the interrupt, on exactly the memory Pip left but for the flags that are copied to
    the stacked context, fails if the handler fails, and otherwise asks for the stacked
    context of the thread, having changed nothing but entry 0 of the table after the
    handler; that context holds the interrupted frame if the handler has left it alone. *)
Theorem interrupt_returns y lo g intno nrf52 handlers sp handler :
  is_word 32 gotAddr -> sys_reachable y -> y_stacks y !! y_cur y = Some lo -> real g -> fits (y_cur y) lo g ->
  first_irq nrf52 <= intno < 2 ^ 32 -> handlers !! Z.to_nat (intno - first_irq nrf52) = Some handler ->
  let m := interrupted_mem g intno (y_mem y) in
  let m1 := wr32 m (stack_ctx g + 4) (rd32 m (thread_ctx (y_cur y) + 4)) in
  rd32 (y_mem y) (vidt_slot 9) = thread_ctx (y_cur y) /\ holds_frame m1 (stack_ctx g) g /\
  match handler m1 with
  | Err e => dispatcher nrf52 handlers sp m = Err e
  | Ok (_, mh) =>
      let m' := wr32 mh (vidt_slot 0) (stack_ctx g) in
      dispatcher nrf52 handlers sp m = Ok (stack_ctx g, m') /\ rd32 m' (vidt_slot 0) = stack_ctx g /\
      (context_kept m1 mh (stack_ctx g) g -> holds_frame m' (stack_ctx g) g)
  end.
Proof using HO HK.
  intros Hg Hre Hlo Hr Hfit Hno Hh m m1. pose proof (reachable_consistent y Hg Hre) as Hc.
  pose proof Hc as [C1 C2 C3 C4 C5 C6]. pose proof (C1 _ _ Hlo) as [S1 S2 S3 S4].
  assert (y_cur y <> 0) as H0 by lia. assert (is_word 32 intno) as Hw by (unfold first_irq, is_word in *; destruct nrf52; lia).
  destruct (interrupted_holds_frame y lo g intno Hc Hlo H0 Hr Hfit Hw) as (E9 & Hn0 & Ev & Hp & Hs & Hap). fold m in E9, Ev, Hp, Hs.
  assert (holds_frame m1 (stack_ctx g) g) as Hs1 by (by apply holds_frame_flags).
  split_and!; [by apply C6|done|].
  pose proof (dispatcher_runs m _ g nrf52 handlers sp handler E9 Hn0 Hp Hap) as Hd.
  rewrite Ev in Hd. specialize (Hd ltac:(lia) Hh). unfold handler_mem in Hd. fold m1 in Hd.
  destruct (handler m1) as [[[] mh]|e]; [|done]. cbv zeta. split_and!; [done| |].
  - apply rd32_wr32_same. unfold stack_ctx, stacked. destruct (fst g); by apply wrap_range.
  - intros Hk. eapply holds_frame_ext; [|eapply holds_frame_ext; [exact Hk|exact Hs1]].
    intros x Hx. apply rd8_wr32_out. pose proof (size_cases (fst g)). unfold vidt_end, vidt_slot in *. destruct Hap, (fst g); lia.
Qed.
End Run.

(** ** Start-up *)

Section Table.
Context `{HP : Port}.

Lemma fill_slots_at n i ctx m j :
  is_word 32 ctx ->
  rd32 (fill_slots n i ctx m) (vidt_slot j) = if decide (i <= j < i + Z.of_nat n) then ctx else rd32 m (vidt_slot j).
Proof.
  intros Hc. revert i m. induction n as [|n IH]; intros i m; cbn [fill_slots]; [by rewrite decide_False by lia|]. rewrite IH. unfold vidt_slot.
  destruct (decide (j = i)) as [->|]; [rewrite decide_False, decide_True by lia; by apply rd32_wr32_same|].
  rewrite rd32_wr32_apart by lia. destruct (decide (i + 1 <= j < _)), (decide (i <= j < _)); try lia; done.
Qed.

(** The table [start] builds: every exception has the context of its dispatcher but for the
    entries Pip and the scheduler use. *)
Theorem vidt_init_table m j :
  is_word 32 cortexm_ctx -> is_word 32 nrf52_ctx -> 0 <= j < 16 + CPU_IRQ_NUMOF ->
  rd32 (nrf52_pip_vidt_init (cortexm_pip_vidt_init m)) (vidt_slot j) =
    if decide (j ∈ [0; 8; 9; 46; 47]) then 0 else if decide (j < 16) then cortexm_ctx else nrf52_ctx.
Proof.
  intros Hc Hn Hj. unfold CPU_IRQ_NUMOF in Hj.
  assert (forall v a x, is_word 32 v -> rd32 (wr32 a (vidt_slot x) v) (vidt_slot j) = if decide (j = x) then v else rd32 a (vidt_slot j)) as Hw.
  { intros v a x Hv. unfold vidt_slot. destruct (decide (j = x)) as [->|]; [by apply rd32_wr32_same|]. apply rd32_wr32_apart. lia. }
  assert (forall a, rd32 (wr32 a vidt 0) (vidt_slot j) = rd32 a (vidt_slot j)) as H0 by (intros a; apply rd32_wr32_apart; unfold vidt_slot; lia).
  unfold nrf52_pip_vidt_init, cortexm_pip_vidt_init. rewrite !Hw by done. rewrite fill_slots_at by done. rewrite !Hw by done. rewrite fill_slots_at by done. rewrite Hw, H0 by done.
  unfold CPU_IRQ_NUMOF. repeat case_decide; set_unfold; try done; lia.
Qed.
End Table.

(** What the heap gives: blocks inside it, each after the one before. *)
Lemma sbrk_block incr h :
  0 <= h_start h <= h_top h -> h_top h <= h_end h < 2 ^ 32 -> 0 <= incr < 2 ^ 31 -> h_end h - h_start h < 2 ^ 31 ->
  let '(block, h') := _sbrk_r incr h in
  if decide (h_top h + incr <= h_end h) then block = h_top h /\ h' = mkHeap (h_start h) (h_end h) (h_top h + incr)
  else block = 2 ^ 32 - 1 /\ h' = h.
Proof.
  intros H1 H2 H3 H4. unfold _sbrk_r. destruct (decide (h_top h + incr < 2 ^ 32)) as [Hs|Hs].
  - rewrite wrap_small by (unfold is_word; lia). case_decide; destruct (Z.ltb_spec (h_end h) (h_top h + incr)), (Z.ltb_spec (h_top h + incr) (h_start h)); try lia; done.
  - assert (u32 (h_top h + incr) = h_top h + incr - 2 ^ 32) as -> by (unfold wrap; rewrite <- (Z.mod_small (h_top h + incr - 2 ^ 32) (2 ^ 32)) by lia; rewrite Zminus_mod, Z.mod_same, Z.sub_0_r, Z.mod_mod by lia; done).
    rewrite (proj2 (Z.ltb_lt _ (h_start h))) by lia. rewrite orb_true_r. by rewrite decide_False by lia.
Qed.
