(* ===== verification/ContextSwitchDemo.v ===== *)
(** * Executions of the context switch

    A layout of contexts, a Pip that saves, and states for which the hypotheses of the
    theorems hold. *)

From stdpp Require Import base gmap list.
From Stdlib Require Import ZArith Lia.
From S2P Require Import Prelude Flash Kernel ContextSwitch ContextSwitchSpec ContextSwitchRun.

Local Open Scope Z_scope.

(** The members in the order in which [cortexm_pip_ctx] initialises them. *)
Instance demo_port : Port := {|
  sizeof_basicContext := 76; sizeof_extendedContext := 212; sizeof_basicFrame := 68; sizeof_extendedFrame := 204;
  basic_frame := 8; extended_frame := 8; o_isBasicFrame := 0; o_pipflags := 4; o_sp := 8; o_r10 := 36; o_r0 := 44;
  o_pc := 68; o_xpsr := 72; extended_sp := 72;
  vidt := 0x20000100; gotAddr := 0x20000800; cortexm_ctx := 0x20000900; nrf52_ctx := 0x20000a00
|}.

Instance demo_port_ok : PortOk.
Proof. constructor; try done; apply (bool_decide_unpack _); by vm_compute. Qed.

Definition put_context (c : Z) (f : bool * list Z) (m : memory) : memory :=
  wr_bytes (wr32 m c (kind (fst f))) (c + 8) (snd f).

Instance demo_saves : PipSaves := {|
  pip_save := fun f dst m =>
    let m := put_context (stack_ctx f) f m in if dst =? 0 then m else put_context dst f m
|}.

Lemma put_context_holds c f m : length (snd f) = frame_size (fst f) -> Forall (is_word 8) (snd f) -> holds_frame (put_context c f m) c f.
Proof.
  intros Hl Hw. unfold put_context. split.
  - unfold rd32. rewrite (rd_le_ext (wr32 m c (kind (fst f)))); [apply rd32_wr32_same; by destruct (fst f)|].
    intros x Hx. apply rd8_wr_bytes_out. lia.
  - rewrite <- Hl. by apply rd_bytes_wr_bytes.
Qed.

Lemma put_context_out c f m a :
  length (snd f) = frame_size (fst f) -> a < c \/ c + context_size (fst f) <= a -> rd8 (put_context c f m) a = rd8 m a.
Proof.
  intros Hl Ha. unfold put_context. pose proof (size_cases (fst f)) as Hz. unfold frame_size in Hl.
  rewrite rd8_wr_bytes_out, rd8_wr32_out by (destruct (fst f); lia). done.
Qed.

Instance demo_saves_ok : PipSavesOk.
Proof.
  constructor; unfold pip_save, demo_saves.
  - intros f dst m Hl Hw Hd. destruct (Z.eqb_spec dst 0); [by apply put_context_holds|]. destruct Hd as [|Hd]; [done|].
    eapply holds_frame_ext; [|by apply put_context_holds]. intros x Hx. apply put_context_out; [done|lia].
  - intros f dst m Hl Hw Hd Ha. rewrite (proj2 (Z.eqb_neq dst 0)) by done. by apply put_context_holds.
  - intros f dst m a Hl Ha Hd. destruct (Z.eqb_spec dst 0); [by apply put_context_out|]. destruct Hd as [|Hd]; [done|].
    rewrite !put_context_out by done. done.
Qed.

(** A thread whose stack is the kilobyte from 0x20008000 on. *)
Definition stack_at : Z := 0x20008000.
Definition demo_thd : Z := tcb_address stack_at 1024.
Definition demo_task : Z := 0x1001.

(** The kernel after it was created: no thread is active yet. *)
Definition demo_kernel : kernel :=
  match create_section demo_thd THREAD_PRIORITY_MAIN THREAD_CREATE_WOUT_YIELD demo_task 42 0 boot_kernel with
  | Ok (_, k) => k
  | Err _ => boot_kernel
  end.

Example demo_thd_value : demo_thd = stack_at + 984.
Proof. reflexivity. Qed.

(** ** Runs *)

(** The first switch of RIOT starts the thread. *)
Example first_switch :
  match thread_stack_init demo_task 42 stack_at (demo_thd - stack_at) ∅ with
  | Ok (sp, m) =>
      match isr_pendsv [] (mkArch demo_kernel m ∅ 0) with
      | Ok (Yielded, a) =>
          let c := rd32 (a_mem a) (vidt_slot 0) in
          c = sp /\ rd32 (a_mem a) (c + o_pc) = demo_task /\ rd32 (a_mem a) (c + o_r0) = 42 /\ rd32 (a_mem a) (vidt_slot 47) = 0
      | _ => False
      end
  | Err _ => False
  end.
Proof. by vm_compute. Qed.

(** The size the port gives an idle thread is too small for any thread. *)
Example idle_stack_too_small : thread_stack_init demo_task 0 stack_at (tcb_address stack_at 256 - stack_at) ∅ = Err StackOverflow.
Proof. by vm_compute. Qed.

(** The assertion comes after the contexts were written: below the stack. *)
Example written_before_checked :
  let thd := tcb_address stack_at 256 in
  let c := first_sp thd - 76 in
  c < stack_at /\ rd32 (new_stack demo_task 0 thd ∅) (c + o_pc) = demo_task.
Proof. by vm_compute. Qed.

(** The heap and the place of the programs: one block of 8 kilobytes on the heap is where
    the next program is loaded. *)
Example heap_overlaps_programs :
  let '(h, programs) := start_ram 0x20004100 0x20010000 in
  let '(block, h') := _sbrk_r 8192 h in
  block <= programs /\ programs < block + 8192 /\ h_top h' = block + 8192.
Proof. by vm_compute. Qed.

(** An interrupt before the first thread runs: entry 9 is empty, which only one of the
    dispatchers tests; the other takes a context at address 0 for that of the
    interrupted code, and its stack pointer from there. *)
Definition booted : memory :=
  nrf52_pip_vidt_init (cortexm_pip_vidt_init (wr32 (wr32 ∅ 0 0x20001000) 8 0x1238)).
Definition do_nothing : cmd memory arch_err unit := mret tt.

Example early_interrupt :
  match cortexm_pip_dispatcher [do_nothing] 0x20007000 (wr32 booted vidt 1), nrf52_pip_dispatcher [do_nothing] (wr32 booted vidt 16) with
  | Ok (sp, _), Ok (sp', m) => sp = 0x20007000 /\ sp' = 0x1238 - 76 /\ rd32 m (vidt_slot 0) = sp'
  | _, _ => False
  end.
Proof. by vm_compute. Qed.

(** ** Witnesses *)

Lemma vidt_init_table_witness : rd32 (nrf52_pip_vidt_init (cortexm_pip_vidt_init ∅)) (vidt_slot 14) = cortexm_ctx.
Proof.
  assert (is_word 32 cortexm_ctx) as H1 by (by vm_compute). assert (is_word 32 nrf52_ctx) as H2 by (by vm_compute).
  assert (0 <= 14 < 16 + CPU_IRQ_NUMOF) as H3 by (unfold CPU_IRQ_NUMOF; lia).
  etransitivity; [exact (vidt_init_table ∅ 14 H1 H2 H3)|]. by vm_compute.
Defined.


Lemma demo_stack_ok : stack_ok demo_thd stack_at.
Proof. constructor; try by vm_compute. right. by vm_compute. Qed.

Lemma stack_init_suspends_witness :
  exists f m', thread_stack_init demo_task 42 stack_at 984 ∅ = Ok (stack_ctx f, m') /\ suspended m' demo_thd f /\ starts demo_task 42 f.
Proof.
  destruct (stack_init_suspends ∅ demo_task 42 stack_at 984 ltac:(by vm_compute) ltac:(by vm_compute) ltac:(by vm_compute)
    ltac:(by vm_compute) ltac:(by vm_compute) ltac:(by vm_compute)) as [H _].
  destruct (H ltac:(done)) as (f & m' & E & Hs & Hst & _). by exists f, m'.
Defined.

Lemma no_stacks t l : y_stacks (sys_start ∅) !! t = Some l -> apart stack_at demo_thd l t.
Proof. cbn [sys_start y_stacks]. by rewrite lookup_empty. Qed.

(** The machine after the thread was created. *)
Definition demo_mem : memory := new_stack demo_task 42 demo_thd ∅.
Definition demo_frame : bool * list Z := (true, rd_bytes demo_mem (first_sp demo_thd - 76 + 8) (frame_size true)).
Definition demo_sys : sys := mkSys demo_mem (<[demo_thd := demo_frame]> ∅) (<[demo_thd := stack_at]> ∅) 0.

Lemma demo_init : thread_stack_init demo_task 42 stack_at (demo_thd - stack_at) ∅ = Ok (first_sp demo_thd - 76, demo_mem).
Proof.
  rewrite (stack_init_runs ∅ demo_task 42 stack_at (demo_thd - stack_at)) by (by vm_compute).
  replace (stack_at + (demo_thd - stack_at)) with demo_thd by lia.
  rewrite (proj2 (Z.leb_le stack_at (first_sp demo_thd - 76))) by (by vm_compute). done.
Qed.

Lemma demo_reachable : sys_reachable demo_sys.
Proof.
  exists ∅. apply rtc_once.
  exact (StepCreate (sys_start ∅) demo_thd stack_at demo_task 42 (first_sp demo_thd - 76) demo_mem (lookup_empty _) demo_stack_ok
    no_stacks ltac:(by vm_compute) ltac:(by vm_compute) demo_init).
Qed.

Lemma demo_got : is_word 32 gotAddr.
Proof. by vm_compute. Qed.

Lemma demo_susp : y_susp demo_sys !! demo_thd = Some demo_frame.
Proof. unfold demo_sys. cbn [y_susp]. apply lookup_insert_eq. Qed.

Definition demo_elected : kernel := match sched_run [] demo_kernel with Ok (_, k) => k | Err _ => demo_kernel end.

Lemma demo_elects : sched_run [] demo_kernel = Ok (demo_thd, demo_elected).
Proof. by vm_compute. Qed.

Lemma threads_resume_witness :
  exists a', isr_pendsv [] (mkArch demo_kernel demo_mem ∅ 0) = Ok (Yielded, a') /\
    holds_frame (a_mem a') (rd32 (a_mem a') (vidt_slot 0)) demo_frame.
Proof.
  assert (a_noyld (mkArch demo_kernel demo_mem ∅ 0) <> 1) as Hn by (cbn [a_noyld]; lia).
  assert (sched_active_thread demo_kernel = 0) as Hk by (by vm_compute).
  destruct (threads_resume demo_sys [] (mkArch demo_kernel demo_mem ∅ 0) demo_thd demo_elected demo_frame
    demo_got demo_reachable eq_refl Hk Hn demo_elects demo_susp) as (a' & E1 & _ & _ & E2 & _).
  exists a'. split; [exact E1|exact E2].
Defined.

(** The first switch: the code of [start] that yields has its frame below the stack of
    the thread; then the thread runs. *)
Definition boot_frame : bool * list Z :=
  (true, rd_bytes (init_context 0 76 0 0 (stack_at - 0x1000) ∅) 8 (frame_size true)).
Definition demo_arch : arch := mkArch demo_kernel demo_mem ∅ 0.
Definition demo_switched : arch :=
  mkArch demo_elected (pendsv_mem 0 demo_thd demo_frame demo_mem) (<[demo_thd := frame_sp demo_frame]> ∅) 0.
Definition running_sys : sys :=
  mkSys (pip_save boot_frame (rd32 (a_mem demo_switched) (vidt_slot 47)) (a_mem demo_switched))
    (delete demo_thd (y_susp demo_sys)) (y_stacks demo_sys) demo_thd.

Lemma frame_real m a : real (true, rd_bytes m a (frame_size true)).
Proof. split; [apply length_rd_bytes|apply rd_bytes_words]. Qed.

Lemma boot_apart_table :
  apart (stack_ctx boot_frame) (stack_ctx boot_frame + context_size (fst boot_frame)) vidt vidt_end.
Proof. right. by vm_compute. Qed.

Lemma boot_apart_stacks t l : y_stacks demo_sys !! t = Some l ->
  apart (stack_ctx boot_frame) (stack_ctx boot_frame + context_size (fst boot_frame)) l t.
Proof.
  cbn [demo_sys y_stacks]. intros [[<- <-]|[_ H]]%lookup_insert_Some; [|by rewrite lookup_empty in H].
  left. by vm_compute.
Qed.

Lemma running_reachable : sys_reachable running_sys.
Proof.
  destruct demo_reachable as [m Hm]. exists m. eapply rtc_r; [exact Hm|].
  assert (sched_active_thread demo_kernel = 0) as Hk by (by vm_compute).
  assert (isr_pendsv [] demo_arch = Ok (Yielded, demo_switched)) as Hi.
  { unfold demo_switched. rewrite <- Hk at 1. apply (pendsv_switches [] demo_arch demo_thd demo_elected demo_frame).
    - done.
    - exact demo_elects.
    - by vm_compute.
    - destruct (reachable_consistent demo_sys demo_got demo_reachable) as [_ _ C3 _ _ _].
      by destruct (C3 demo_thd demo_frame demo_susp) as (lo & _ & Hs & _). }
  exact (StepSwitch demo_sys [] demo_arch demo_switched demo_thd demo_elected demo_frame boot_frame
    eq_refl Hk demo_elects Hi demo_susp (frame_real _ _) ltac:(done)
    (fun _ => conj boot_apart_table boot_apart_stacks)).
Qed.

(** The thread is interrupted with the registers it had at its start, before it has
    pushed anything. *)
Lemma interrupt_returns_witness :
  exists m', dispatcher false (replicate 15 do_nothing) 0 (interrupted_mem demo_frame 14 (y_mem running_sys)) = Ok (stack_ctx demo_frame, m') /\
    holds_frame m' (stack_ctx demo_frame) demo_frame.
Proof.
  assert (y_stacks running_sys !! y_cur running_sys = Some stack_at) as H1 by (apply lookup_insert_eq).
  assert (fits (y_cur running_sys) stack_at demo_frame) as H2 by (split; by vm_compute).
  assert (first_irq false <= 14 < 2 ^ 32) as H3 by (split; by vm_compute).
  assert (replicate 15 do_nothing !! Z.to_nat (14 - first_irq false) = Some do_nothing) as H4 by reflexivity.
  pose proof (interrupt_returns running_sys stack_at demo_frame 14 false (replicate 15 do_nothing) 0 do_nothing
    demo_got running_reachable H1 (frame_real _ _) H2 H3 H4) as H. cbv zeta in H.
  destruct H as (_ & _ & H). unfold do_nothing at 1 in H. cbn [mret cmd_ret] in H. cbv iota beta in H.
  destruct H as (E & _ & Hf). eexists. split; [exact E|]. apply Hf. apply same_on_refl.
Defined.
