(* ===== verification/Saul.v ===== *)
(** * The sensor registry

    Models [sys/saul_reg/saul_reg.c]: devices linked into a list that is only added to and
    searched.  [SafeExec] uses the registry as the list of its drivers, which is what
    the theorem of this file shows the links to be. *)

From stdpp Require Import base gmap list.
From Stdlib Require Import ZArith Lia.
From S2P Require Import Prelude.

Local Open Scope Z_scope.

Definition ENODEV : Z := 19.

(** A [saul_reg_t]: its link, the type of its driver, and its name unless it has none. *)
Record saul_dev := mkDevice { d_next : Z; d_type : Z; d_name : option (list Z) }.

(** The devices by address, and the variable [saul_reg]. *)
Record registry := mkRegistry { g_dev : gmap Z saul_dev; g_head : Z }.

Inductive saul_err :=
| NoName        (* strcmp of a null pointer *)
| NoDevice      (* a link to no device *)
| Endless.      (* a loop ran out of fuel *)

Definition relink (q : Z) (d : saul_dev) : saul_dev := mkDevice q (d_type d) (d_name d).
Definition set_link (p q : Z) (g : registry) : registry := mkRegistry (alter (relink q) p (g_dev g)) (g_head g).

(** The last device from [p] on. *)
Fixpoint last_loop (fuel : nat) (g : registry) (p : Z) : res saul_err Z :=
  match fuel with
  | O => Err Endless
  | S fuel =>
      match g_dev g !! p with
      | None => Err NoDevice
      | Some d => if d_next d =? 0 then Ok p else last_loop fuel g (d_next d)
      end
  end.

Definition saul_reg_add (dev : Z) (g : registry) : res saul_err (Z * registry) :=
  if dev =? 0 then Ok (- ENODEV, g)
  else
    let g := set_link dev 0 g in
    if g_head g =? 0 then Ok (0, mkRegistry (g_dev g) dev)
    else
      match last_loop (S (size (g_dev g))) g (g_head g) with
      | Ok p => Ok (0, set_link p dev g)
      | Err e => Err e
      end.

(** [k] steps along the links. *)
Fixpoint nth_loop (k : nat) (g : registry) (p : Z) : res saul_err Z :=
  match k with
  | O => Ok p
  | S k =>
      if p =? 0 then Ok 0
      else match g_dev g !! p with Some d => nth_loop k g (d_next d) | None => Err NoDevice end
  end.

Definition find_nth (pos : Z) (g : registry) : res saul_err Z := nth_loop (Z.to_nat pos) g (g_head g).

(** The first device that satisfies [test]. *)
Fixpoint test_loop (fuel : nat) (test : saul_dev -> res saul_err bool) (g : registry) (p : Z) : res saul_err Z :=
  match fuel with
  | O => Err Endless
  | S fuel =>
      if p =? 0 then Ok 0
      else
        match g_dev g !! p with
        | None => Err NoDevice
        | Some d => b ← test d; if b : bool then Ok p else test_loop fuel test g (d_next d)
        end
  end.

Definition has_type (type : Z) (d : saul_dev) : res saul_err bool := Ok (d_type d =? type).
Definition has_name (name : list Z) (d : saul_dev) : res saul_err bool :=
  match d_name d with Some n => Ok (bool_decide (n = name)) | None => Err NoName end.

Definition search (test : saul_dev -> res saul_err bool) (g : registry) : res saul_err Z :=
  test_loop (S (size (g_dev g))) test g (g_head g).
Definition saul_reg_find_type (type : Z) : registry -> res saul_err Z := search (has_type type).
Definition saul_reg_find_name (name : list Z) : registry -> res saul_err Z := search (has_name name).
Definition saul_reg_find_type_and_name (type : Z) (name : list Z) : registry -> res saul_err Z :=
  search (fun d => b ← has_type type d; if b : bool then has_name name d else Ok false).

(** ** The list of devices *)

(** The links from [p] lead through the devices [l]. *)
Fixpoint linked (m : gmap Z saul_dev) (p : Z) (l : list (Z * saul_dev)) : Prop :=
  match l with
  | [] => p = 0
  | (a, d) :: l => p = a /\ a <> 0 /\ m !! a = Some d /\ linked m (d_next d) l
  end.

Record registered (g : registry) (l : list (Z * saul_dev)) : Prop := mkRegistered {
  rg_linked : linked (g_dev g) (g_head g) l;
  rg_nodup : NoDup l.*1
}.

Lemma registered_size g l : registered g l -> (length l <= size (g_dev g))%nat.
Proof.
  intros [Hl Hd]. rewrite <- (length_fmap fst). rewrite <- (size_list_to_set (C := gset Z) l.*1) by done. rewrite <- size_dom. apply subseteq_size.
  intros x Hx%elem_of_list_to_set. clear Hd. revert Hl. generalize (g_head g). induction l as [|[a d] l IH]; intros p; [by apply not_elem_of_nil in Hx|].
  intros (-> & _ & Ha & Hl). apply elem_of_cons in Hx as [->|Hx]; [apply elem_of_dom; by eexists|by eapply IH].
Qed.

Lemma linked_ext m m' p l : (forall a, a ∈ l.*1 -> m' !! a = m !! a) -> linked m p l -> linked m' p l.
Proof.
  revert p. induction l as [|[a d] l IH]; intros p Hm; [done|]. intros (-> & Ha & Hd & Hl). cbn [linked]. split_and!; [done|done|rewrite Hm; [done|left]|].
  apply IH; [|done]. intros x Hx. apply Hm. by right.
Qed.

Lemma last_loop_linked g p l a d fuel :
  linked (g_dev g) p (l ++ [(a, d)]) -> (length l < fuel)%nat -> last_loop fuel g p = Ok a.
Proof.
  revert p fuel. induction l as [|[b e] l IH]; intros p fuel Hl Hf; (destruct fuel as [|fuel]; [cbn in Hf; lia|]); cbn [app linked last_loop] in *.
  - destruct Hl as (-> & _ & -> & ->). done.
  - destruct Hl as (-> & _ & -> & Hl). rewrite (proj2 (Z.eqb_neq (d_next e) 0)); [apply IH; [done|cbn in Hf; lia]|].
    destruct l as [|[c e'] l]; destruct Hl as (-> & ? & _); done.
Qed.

Lemma nth_loop_linked g p l k : linked (g_dev g) p l -> nth_loop k g p = Ok (default 0 (l.*1 !! k)).
Proof.
  revert p l. induction k as [|k IH]; intros p l Hl; cbn [nth_loop].
  - destruct l as [|[a d] l]; [by rewrite Hl|]. by destruct Hl as (-> & _).
  - destruct l as [|[a d] l]; [by rewrite (Hl : p = 0)|]. destruct Hl as (-> & Ha & Hd & Hl).
    rewrite (proj2 (Z.eqb_neq a 0)), Hd by done. by apply IH.
Qed.

(** The first device of a list that satisfies a test, which every device before it answers. *)
Fixpoint first_match (test : saul_dev -> res saul_err bool) (l : list (Z * saul_dev)) : res saul_err Z :=
  match l with
  | [] => Ok 0
  | (a, d) :: l => b ← test d; if b : bool then Ok a else first_match test l
  end.

Lemma test_loop_linked test g p l fuel :
  linked (g_dev g) p l -> (length l < fuel)%nat -> test_loop fuel test g p = first_match test l.
Proof.
  revert p fuel. induction l as [|[a d] l IH]; intros p fuel Hl Hf; (destruct fuel as [|fuel]; [cbn in Hf; lia|]); cbn [test_loop first_match].
  - by rewrite (Hl : p = 0).
  - destruct Hl as (-> & Ha & Hd & Hl). rewrite (proj2 (Z.eqb_neq a 0)), Hd by done. destruct (test d) as [[]|]; [done| |done].
    apply IH; [done|cbn in Hf; lia].
Qed.

(** [dev] appended, its link cleared and that of the device before it set. *)
Fixpoint append_device (l : list (Z * saul_dev)) (a : Z) (d : saul_dev) : list (Z * saul_dev) :=
  match l with
  | [] => [(a, relink 0 d)]
  | [(b, e)] => [(b, relink a e); (a, relink 0 d)]
  | x :: l => x :: append_device l a d
  end.

Lemma append_fst l a d : (append_device l a d).*1 = l.*1 ++ [a].
Proof. induction l as [|[b e] l IH]; [done|]. destruct l as [|x l]; [done|]. cbn [append_device fmap list_fmap] in *. by rewrite IH. Qed.

Lemma linked_append m p l a d b e :
  linked m p (l ++ [(b, e)]) -> NoDup (l ++ [(b, e)]).*1 -> a ∉ (l ++ [(b, e)]).*1 -> a <> 0 -> m !! a = Some d -> d_next d = 0 ->
  linked (<[b := relink a e]> m) p (append_device (l ++ [(b, e)]) a d).
Proof.
  intros Hl Hd Ha H0 Hm Hn. revert p Hl. induction l as [|[c f] l IH]; intros p Hl; cbn [app] in *.
  - destruct Hl as (-> & Hb & Hmb & _). cbn [append_device linked]. rewrite lookup_insert_eq. split_and!; try done.
    cbn [relink d_next]. rewrite lookup_insert_ne; [|cbn in Ha; set_solver]. rewrite Hm. f_equal. destruct d; cbn in *. by subst.
  - destruct Hl as (-> & Hc & Hmc & Hl). cbn [fmap list_fmap fst] in Hd, Ha. apply NoDup_cons in Hd as [Hcl Hd]. apply not_elem_of_cons in Ha as [_ Ha].
    assert (append_device ((c, f) :: l ++ [(b, e)]) a d = (c, f) :: append_device (l ++ [(b, e)]) a d) as -> by (by destruct l as [|? l]).
    cbn [linked]. split_and!; [done|done|rewrite lookup_insert_ne; [done|]|by apply IH].
    intros <-. apply Hcl. rewrite fmap_app. apply elem_of_app. right. left.
Qed.

(** The registry is the list of its devices in the order they were added: adding a device that
    is not in it appends it, positions count from the front, and each search returns
    the first device that fits, or nothing; every loop ends. *)
Theorem registry_refines g l dev d :
  registered g l -> dev <> 0 -> dev ∉ l.*1 -> g_dev g !! dev = Some d ->
  (exists g', saul_reg_add dev g = Ok (0, g') /\ registered g' (append_device l dev d)) /\
  (forall pos, find_nth pos g = Ok (default 0 (l.*1 !! Z.to_nat pos))) /\
  (forall test, search test g = first_match test l).
Proof.
  intros Hg H0 Hn Hdev. pose proof (registered_size g l Hg) as Hsz. pose proof Hg as [Hl Hd]. split_and!.
  2: { intros pos. by apply nth_loop_linked. }
  2: { intros test. apply test_loop_linked; [done|lia]. }
  unfold saul_reg_add. rewrite (proj2 (Z.eqb_neq dev 0)) by done. cbn [set_link g_head g_dev].
  set (m := alter (relink 0) dev (g_dev g)).
  assert (linked m (g_head g) l) as Hlm by (eapply linked_ext; [|exact Hl]; intros a Ha; apply lookup_alter_ne; congruence).
  assert (m !! dev = Some (relink 0 d)) as Hmd by (unfold m; rewrite lookup_alter_eq, Hdev; done).
  assert (NoDup (append_device l dev d).*1) as Hnd. { rewrite append_fst. apply NoDup_app. split_and!; [done| |apply NoDup_singleton]. intros x Hx ->%list_elem_of_singleton. done. }
  destruct l as [|[b e] l _] using rev_ind.
  - rewrite (Hl : g_head g = 0). eexists. split; [reflexivity|]. constructor; [|done]. cbn [g_dev g_head append_device linked]. by split_and!.
  - assert (g_head g <> 0) as Hh by (destruct l as [|[c f] l]; destruct Hl as (-> & ? & _); done). rewrite (proj2 (Z.eqb_neq _ 0)) by done.
    assert (size m = size (g_dev g)) as Esz by (unfold m; rewrite <- !size_dom, dom_alter; done).
    rewrite (last_loop_linked (mkRegistry m (g_head g)) (g_head g) l b e); [|done|cbn [g_dev]; rewrite Esz; rewrite length_app in Hsz; cbn in Hsz; lia].
    eexists. split; [reflexivity|]. constructor; [|done]. unfold set_link. cbn [g_dev g_head]. fold m.
    assert (m !! b = Some e) as Hmb. { clear -Hlm. revert Hlm. generalize (g_head g). induction l as [|[c f] l IH]; intros p; cbn [app linked]; [by intros (_ & _ & ? & _)|]. intros (_ & _ & _ & Hl). by eapply IH. }
    assert (alter (relink dev) b m = <[b := relink dev e]> m) as ->.
    { apply map_eq. intros x. destruct (decide (x = b)) as [->|]; [by rewrite lookup_alter_eq, lookup_insert_eq, Hmb|by rewrite lookup_alter_ne, lookup_insert_ne]. }
    assert (append_device (l ++ [(b, e)]) dev d = append_device (l ++ [(b, e)]) dev (relink 0 d)) as ->.
    { clear. induction l as [|[c f] l IH]; [done|]. cbn [app]. destruct (l ++ [(b, e)]) as [|x y] eqn:E; [by destruct l|]. cbn [append_device] in *. by rewrite IH. }
    by apply linked_append.
Qed.

(** ** Executions *)

Definition three_devices : registry := mkRegistry (list_to_map [(16, mkDevice 7 1 (Some [97])); (32, mkDevice 7 2 None); (48, mkDevice 7 2 (Some [98]))]) 0.
Definition add_all (l : list Z) (g : registry) : res saul_err registry :=
  foldl (fun r dev => match r with Ok g => match saul_reg_add dev g with Ok (_, g') => Ok g' | Err e => Err e end | Err e => Err e end) (Ok g) l.
Definition after (l : list Z) (f : registry -> res saul_err Z) : res saul_err Z :=
  match add_all l three_devices with Ok g => f g | Err e => Err e end.

Example searches :
  after [16; 32; 48] (find_nth 2) = Ok 48 /\ after [16; 32; 48] (find_nth 3) = Ok 0 /\
  after [16; 32; 48] (saul_reg_find_type 2) = Ok 32 /\ after [16; 48] (saul_reg_find_type_and_name 2 [98]) = Ok 48.
Proof. by vm_compute. Qed.

(** A position below zero is the first. *)
Example negative_position : after [16; 32] (find_nth (-3)) = Ok 16.
Proof. by vm_compute. Qed.

(** A device without a name stops every search by name that reaches it. *)
Example unnamed_device : after [16; 32; 48] (saul_reg_find_name [98]) = Err NoName.
Proof. by vm_compute. Qed.

(** The last device added once more links to itself: a search for what is not there never
    ends; one that is not the last cuts the list. *)
Example added_twice :
  after [16; 32; 32] (saul_reg_find_type 9) = Err Endless /\
  after [16; 48] (find_nth 1) = Ok 48 /\ after [16; 48; 16] (find_nth 1) = Ok 16.
Proof. by vm_compute. Qed.
